(* ===== verification/_CoqProject ===== *)
-Q . S2P
Prelude.v
Ring.v
Riscv.v
CString.v
Kalloc.v
Vm.v
VmTree.v
VmWalk.v
VmMap.v
VmUser.v
VmSpace.v
VmAlloc.v
VmCopy.v
VmFree.v
VmFork.v
VmProps.v
VmKernel.v
Spinlock.v
Sleeplock.v
BlockCache.v
Bio.v
BioSim.v
BioProps.v
Fields.v
Log.v
LogProps.v
LogSpace.v
Fs.v
FsView.v
FsAlloc.v
FsFile.v
FsRead.v
FsInode.v
FsWrite.v
FsProps.v
FsTable.v
FsDir.v
FsPath.v
Pipe.v
File.v
FileProps.v
Proc.v
ProcInv.v
ProcProps.v
ProcSteps.v
ProcLive.v
ProcWitness.v
Asm.v
AsmProps.v
Exec.v
Syscall.v
SyscallProps.v
Console.v
ConsoleProps.v
Ulib.v
Printf.v
UPrintf.v
PrintfProps.v
Grep.v
Virtio.v
VirtioProps.v
VirtioSim.v
Trap.v
TrapProps.v
Boot.v
Umalloc.v
UmallocProps.v
Sh.v
ShProps.v
ShRun.v
ShMain.v
