(* ===== verification/Prelude.v ===== *)
(** * xv6 for RISC-V: a shallow embedding and its correctness

    ** The program

    xv6 is a small Unix-like kernel with a set of user programs.  From the
    bottom up: a page allocator (kernel/kalloc.c) and page tables (kernel/vm.c);
    spin locks and sleep locks (kernel/spinlock.c, kernel/sleeplock.c); the disk
    driver (kernel/virtio_disk.c), the buffer cache over it (kernel/bio.c), the
    write-ahead log over the cache (kernel/log.c) and the file system over the
    log (kernel/fs.c); pipes and open files (kernel/pipe.c, kernel/file.c); the
    console and the serial port (kernel/console.c, kernel/uart.c,
    kernel/printf.c); processes and the scheduler (kernel/proc.c), exec
    (kernel/exec.c) and the system calls (kernel/syscall.c, kernel/sysproc.c,
    kernel/sysfile.c), which user programs reach through traps (kernel/trap.c,
    kernel/trampoline.S).  The harts start in kernel/entry.S, kernel/start.c and
    kernel/main.c.  The user programs modelled are the C library
    (user/ulib.c, user/printf.c, user/umalloc.c), the shell and grep.

    ** How code is modelled

    Integers are [Z], kept in their width by [u8], [u16], [u32], [u64] and
    [i32].  Code that reads or changes state is a function of the monad [M S]
    of this file: it returns ([Ok]), panics ([Panic]), goes to sleep or switches
    away ([Block], with the channel), or runs out of the fuel of a loop
    ([NoFuel]).  [wp] is total correctness: the code returns, without panic
    and within its fuel.  [wlp] also says what holds where the code sleeps; it is
    silent about panics.  Every component has the record of its own state;
    a component that calls another one contains its state and runs its
    operations through a [lens] ([zoom]).

    A lock taken and released within a component is a flag, and acquire() of a
    lock that is held panics, as the code does on one CPU; [Spinlock] treats
    the locks themselves, with several CPUs.  Code that sleeps is cut at
    sleep(): a run ends there, and the code behind it is an operation of its own
    (pipewrite(), consoleread(), virtio_disk_rw(), wait(), ...).  Step
    relations then interleave the runs of all processes, interrupts and devices.

    ** The files

    - [Prelude]: integers, the monad, its weakest preconditions and tactics
      ([wp_step], [wlp_step], [zcase]), arrays and total maps, lenses.
      [Ring]: ring buffers with free-running counters.  [Fields]: little-endian
      fields of blocks.
    - [Riscv]: kernel/riscv.h, memlayout.h, param.h.  [CString]: memory and
      kernel/string.c.
    - [Kalloc]: kernel/kalloc.c; the free list lives in the free pages.
    - [Vm]: kernel/vm.c.  [VmTree] says which page table memory holds,
      [VmWalk], [VmMap], [VmUser], [VmSpace], [VmAlloc], [VmCopy], [VmFree] and
      [VmFork] specify the operations, [VmProps] combines them; [VmKernel] is
      the kernel's own page table.
    - [Spinlock]: kernel/spinlock.c, one memory access at a time.  [Sleeplock]:
      kernel/sleeplock.c.
    - [Virtio]: kernel/virtio_disk.c and the device; [VirtioProps] and
      [VirtioSim]: it refines a disk.
    - [BlockCache]: the block layer as a finite map; [Bio]: kernel/bio.c with its
      buffers and LRU list; [BioSim], [BioProps]: it refines [BlockCache].
    - [Log]: kernel/log.c; [LogProps]: crashes; [LogSpace]: log space.
    - [Fs]: kernel/fs.c; [FsView], [FsAlloc], [FsFile], [FsRead], [FsInode],
      [FsWrite], [FsProps]: its blocks, files and inodes; [FsTable]: the inode
      table and its references; [FsDir]: directories; [FsPath]: path names.
    - [Pipe], [File], [FileProps]: kernel/pipe.c and kernel/file.c.
    - [Proc]: kernel/proc.c; [ProcInv], [ProcProps], [ProcSteps], [ProcLive],
      [ProcWitness]: the process table.
    - [Asm]: the instructions of kernel/entry.S, swtch.S, trampoline.S and
      kernelvec.S; [AsmProps]: what they do to registers and memory.
    - [Trap], [TrapProps]: kernel/trap.c and kernel/plic.c, over the whole machine:
      the kernel, the registers of the hart, the console and the disk.
    - [Boot]: kernel/start.c and kernel/main.c, the timer, kvminit() and
      kvminithart().
    - [Exec], [Syscall], [SyscallProps]: kernel/exec.c, syscall.c, sysproc.c,
      sysfile.c.
    - [Console], [ConsoleProps]: kernel/console.c and kernel/uart.c.  [Printf]:
      kernel/printf.c.
    - [Ulib], [UPrintf], [PrintfProps]: user/ulib.c, user/printf.c.  [Grep]:
      user/grep.c.  [Umalloc], [UmallocProps]: user/umalloc.c.
    - [Sh]: the parser of user/sh.c; [ShProps]: it parses the grammar; [ShRun]:
      runcmd(); [ShMain]: main().

    ** What is proved

    - Memory: kalloc() and kfree() refine an abstract allocator; address spaces
      do not leak pages when they are created, grown, shrunk, copied and
      freed, also when memory runs out half way; fork copies are isolated;
      copyout()/copyin() round trip; mappages() installs what it is asked for;
      the kernel's page table maps what it should and nothing more.
    - Locks: mutual exclusion for every interleaving of CPUs, holding() is
      exact, push_off()/pop_off() nest, a sleep lock has one owner.
    - Storage: the driver refines a disk under every order of completions and
      interrupts and its requests complete; bio.c refines a map; a transaction is
      atomic under crashes at any point, also during recovery; admitted
      operations fit in the log; balloc() refines a set of blocks; files and
      inodes read back what was written; a directory is a map from names to
      inode numbers, and namei() resolves a path in the tree they form.
    - Pipes, files, console: a pipe is a FIFO and wakes its sleepers; reference
      counts of open files; the console refines a terminal; the UART sends in
      order.
    - Processes: the process table stays consistent under every interleaving
      of system calls and switches; exit() wakes a waiting parent; a scheduler
      round runs every runnable process; kill().
    - System calls: exec() is all or nothing and keeps to the stack page,
      fetchaddr() stays in bounds.
    - Traps and starting: the trampoline, kernelvec, swtch and timervec
      restore the registers they should; an interrupt is invisible to the
      program or kernel code it interrupts; a killed process never returns to
      user mode; start() arms the timer; hart 0 initialises before the
      others go on.
    - User programs: printf() of the kernel and of user programs agree and print
      decimal numerals; the two memmove() agree; malloc() and free() refine
      a set of objects; the shell's parser is correct for its grammar, its
      pipelines are connected as they say and its loop runs every line; grep
      selects the matching lines.
    - What the code gets wrong: log space with the log mkfs makes, kill(0),
      sleep() with a negative argument, a killed pipe writer, malloc() of 2^31
      bytes or more.

    ** Fuel

    Loops whose bound is in the code run over a list of indices.  The others
    have fuel taken from the state they start in (the bytes left, the entries
    of a ring, the slots of a table), and the total specifications ([wp]) show
    that it is enough: the length of the path and one for namex(), 4 * len + 5 for the
    shell's parser on a line of len bytes, the lines and one for its loop.  Walks to the NUL of a C string take the fuel as an
    argument.

    ** Not modelled

    The TLB and the reordering of memory accesses (sfence.vma and
    __sync_synchronize() have no effect on the states here).  user/initcode.S
    is a constant of [Proc]; user/usys.pl generates the system call stubs when the
    system is built.  mkfs/mkfs.c runs on the build host with its C library, and
    kernel/ramdisk.c is not part of the kernel that the Makefile builds.  The
    small programs (cat, echo, init, kill, ln, ls, mkdir, rm, wc, zombie) are loops
    over arguments around system calls; user/usertests.c, grind.c, forktest.c
    and stressfs.c are tests. *)

From stdpp Require Export base tactics list numbers option strings gmap fin_maps sets.
From Stdlib Require Export ZArith Lia.
From Stdlib Require Import FunctionalExtensionality.

#[export] Set Default Goal Selector "!".
#[export] Set Default Proof Using "Type".
Open Scope Z_scope.

(** * Machine integers

    A C integer of width [w] is a [Z] kept in its range; the functions below
    are the conversions C inserts on assignment. *)

Definition u8 (x : Z) : Z := x mod 2 ^ 8.
Definition u16 (x : Z) : Z := x mod 2 ^ 16.
Definition u32 (x : Z) : Z := x mod 2 ^ 32.
Definition u64 (x : Z) : Z := x mod 2 ^ 64.
Definition i16 (x : Z) : Z := (x + 2 ^ 15) mod 2 ^ 16 - 2 ^ 15.
Definition i32 (x : Z) : Z := (x + 2 ^ 31) mod 2 ^ 32 - 2 ^ 31.

Definition is_u8 (x : Z) : Prop := 0 <= x < 2 ^ 8.
Definition is_u16 (x : Z) : Prop := 0 <= x < 2 ^ 16.
Definition is_u32 (x : Z) : Prop := 0 <= x < 2 ^ 32.
Definition is_u64 (x : Z) : Prop := 0 <= x < 2 ^ 64.

Lemma u8_small x : is_u8 x -> u8 x = x.
Proof. apply Z.mod_small. Qed.
Lemma u16_small x : is_u16 x -> u16 x = x.
Proof. apply Z.mod_small. Qed.
Lemma u32_small x : is_u32 x -> u32 x = x.
Proof. apply Z.mod_small. Qed.
Lemma u64_small x : is_u64 x -> u64 x = x.
Proof. apply Z.mod_small. Qed.
Lemma u8_range x : is_u8 (u8 x).
Proof. apply Z.mod_pos_bound. lia. Qed.
Lemma u16_range x : is_u16 (u16 x).
Proof. apply Z.mod_pos_bound. lia. Qed.
Lemma u32_range x : is_u32 (u32 x).
Proof. apply Z.mod_pos_bound. lia. Qed.
Lemma u64_range x : is_u64 (u64 x).
Proof. apply Z.mod_pos_bound. lia. Qed.
Lemma i32_range x : - 2 ^ 31 <= i32 x < 2 ^ 31.
Proof. unfold i32. pose proof (Z.mod_pos_bound (x + 2 ^ 31) (2 ^ 32)). lia. Qed.
Lemma i32_small x : - 2 ^ 31 <= x < 2 ^ 31 -> i32 x = x.
Proof. intros. unfold i32. rewrite Z.mod_small by lia. lia. Qed.

Create HintDb mach.
Create Rewrite HintDb mach.
Create Rewrite HintDb arr.
#[export] Hint Resolve u8_range u16_range u32_range u64_range i32_range : mach.
#[export] Hint Rewrite u8_small u16_small u32_small u64_small i32_small
  using (unfold is_u8, is_u16, is_u32, is_u64 in *; lia) : mach.

(** * Arrays indexed by C integers *)

Section Arrays.
Context {A : Type} `{!Inhabited A}.

Definition zget (l : list A) (i : Z) : A := l !!! Z.to_nat i.
Definition zset (i : Z) (v : A) (l : list A) : list A := <[Z.to_nat i := v]> l.

Lemma zget_zset_eq l i v :
  0 <= i < Z.of_nat (length l) -> zget (zset i v l) i = v.
Proof.
  intros Hi. unfold zget, zset. apply list_lookup_total_insert_eq. lia.
Qed.

Lemma zget_zset_ne l i j v :
  0 <= i -> 0 <= j -> i <> j -> zget (zset i v l) j = zget l j.
Proof.
  intros Hi Hj Hne. unfold zget, zset. apply list_lookup_total_insert_ne. lia.
Qed.

Lemma zget_zset l i j v :
  0 <= i < Z.of_nat (length l) -> 0 <= j ->
  zget (zset i v l) j = if j =? i then v else zget l j.
Proof.
  intros Hi Hj. destruct (Z.eqb_spec j i) as [->|Hne].
  - by apply zget_zset_eq.
  - apply zget_zset_ne; lia.
Qed.

Lemma length_zset (l : list A) i v : length (zset i v l) = length l.
Proof. apply length_insert. Qed.

Lemma zget_lookup l i :
  0 <= i < Z.of_nat (length l) -> l !! Z.to_nat i = Some (zget l i).
Proof. intros Hi. unfold zget. apply list_lookup_lookup_total_lt. lia. Qed.

Lemma zget_app_l (l1 l2 : list A) i :
  0 <= i < Z.of_nat (length l1) -> zget (l1 ++ l2) i = zget l1 i.
Proof.
  intros Hi. unfold zget. rewrite !list_lookup_total_alt.
  rewrite lookup_app_l by lia. done.
Qed.

Lemma zget_app_r (l1 l2 : list A) i :
  Z.of_nat (length l1) <= i ->
  zget (l1 ++ l2) i = zget l2 (i - Z.of_nat (length l1)).
Proof.
  intros Hi. unfold zget. rewrite !list_lookup_total_alt.
  rewrite lookup_app_r by lia. do 2 f_equal. lia.
Qed.

Lemma list_eq_zget (l1 l2 : list A) :
  length l1 = length l2 ->
  (forall i, 0 <= i < Z.of_nat (length l1) -> zget l1 i = zget l2 i) ->
  l1 = l2.
Proof.
  intros Hlen Heq. apply list_eq. intros i.
  destruct (decide (i < length l1)%nat) as [Hi|Hi].
  - specialize (Heq (Z.of_nat i) ltac:(lia)). unfold zget in Heq.
    rewrite Nat2Z.id in Heq.
    rewrite !list_lookup_lookup_total_lt by lia. by rewrite Heq.
  - rewrite !lookup_ge_None_2 by lia. done.
Qed.

Lemma zget_replicate n (x : A) i :
  0 <= i < Z.of_nat n -> zget (replicate n x) i = x.
Proof. intros. unfold zget. apply lookup_total_replicate_2. lia. Qed.
End Arrays.

#[export] Hint Rewrite @length_zset : arr.

(** * The kernel monad

    A kernel operation on a component whose state has type [S] is a function
    [S -> res S A].  [Panic] is a call of panic() (it never returns), [Block c]
    a call of sleep() on channel [c] that nothing in the modelled run wakes,
    and [NoFuel] marks a loop cut by its bound (the theorems show it does not
    happen). *)

Inductive res (S A : Type) : Type :=
| Ok (a : A) (s : S)
| Panic (msg : string)
| Block (chan : Z) (s : S)
| NoFuel.
Arguments Ok {S A} a s.
Arguments Panic {S A} msg.
Arguments Block {S A} chan s.
Arguments NoFuel {S A}.

Definition M (S A : Type) : Type := S -> res S A.

Definition ret {S A} (a : A) : M S A := fun s => Ok a s.
Definition panic {S A} (msg : string) : M S A := fun _ => Panic msg.
Definition block {S A} (chan : Z) : M S A := fun s => Block chan s.

Definition bind {S A B} (m : M S A) (k : A -> M S B) : M S B :=
  fun s => match m s with
           | Ok a s' => k a s'
           | Panic msg => Panic msg
           | Block c s' => Block c s'
           | NoFuel => NoFuel
           end.

Definition gets {S A} (f : S -> A) : M S A := fun s => Ok (f s) s.
Definition modify {S} (f : S -> S) : M S unit := fun s => Ok tt (f s).

Declare Scope kern_scope.
Delimit Scope kern_scope with kern.
Notation "'let!' x := m 'in' k" := (bind m (fun x => k))
  (at level 10, x name, m at level 100, k at level 200,
   format "'[v' 'let!'  x  :=  m  'in' '/' k ']'") : kern_scope.
Notation "m ;;; k" := (bind m (fun _ => k))
  (at level 100, right associativity,
   format "'[v' m  ;;; '/' k ']'") : kern_scope.
Open Scope kern_scope.

(** ** Loops *)

(** [for(x in l) body], no early exit. *)
Fixpoint for_each {S A} (l : list A) (body : A -> M S unit) : M S unit :=
  match l with
  | [] => ret tt
  | x :: l' => body x ;;; for_each l' body
  end.

(** [for(x in l) body] where the body may leave the loop with a value
    (a [return], [break] or [goto] in C). *)
Fixpoint for_first {S A B} (l : list A) (body : A -> M S (option B)) : M S (option B) :=
  match l with
  | [] => ret None
  | x :: l' =>
      let! r := body x in
      match r with
      | Some b => ret (Some b)
      | None => for_first l' body
      end
  end.

(** A general loop over a loop state [X]: [inl x'] goes round again, [inr b]
    leaves.  [fuel] bounds the iterations. *)
Fixpoint loop {S X B} (fuel : nat) (body : X -> M S (X + B)) (x : X) : M S B :=
  match fuel with
  | O => fun _ => NoFuel
  | Datatypes.S n =>
      let! r := body x in
      match r with
      | inl x' => loop n body x'
      | inr b => ret b
      end
  end.

(** * Weakest preconditions

    [wp m Q s]: run from [s], [m] returns, and [Q] holds of its result and
    final state.  No panic, no blocking, no missing fuel. *)

Definition wp {S A} (m : M S A) (Q : A -> S -> Prop) (s : S) : Prop :=
  match m s with
  | Ok a s' => Q a s'
  | _ => False
  end.

Section WP.
Context {S : Type}.

Lemma wp_ret {A} (a : A) (Q : A -> S -> Prop) s : Q a s -> wp (ret a) Q s.
Proof. done. Qed.

Lemma wp_bind {A B} (m : M S A) (k : A -> M S B) Q s :
  wp m (fun a s' => wp (k a) Q s') s -> wp (bind m k) Q s.
Proof. unfold wp, bind. by destruct (m s). Qed.

Lemma wp_gets {A} (f : S -> A) (Q : A -> S -> Prop) s :
  Q (f s) s -> wp (gets f) Q s.
Proof. done. Qed.

Lemma wp_modify (f : S -> S) (Q : unit -> S -> Prop) s :
  Q tt (f s) -> wp (modify f) Q s.
Proof. done. Qed.

Lemma wp_mono {A} (m : M S A) (Q Q' : A -> S -> Prop) s :
  wp m Q s -> (forall a s', Q a s' -> Q' a s') -> wp m Q' s.
Proof. unfold wp. destruct (m s); naive_solver. Qed.

Lemma wp_conj {A} (m : M S A) (Q Q' : A -> S -> Prop) s :
  wp m Q s -> wp m Q' s -> wp m (fun a s' => Q a s' /\ Q' a s') s.
Proof. unfold wp. by destruct (m s). Qed.

Lemma wp_bind_inv {A B} (m : M S A) (k : A -> M S B) Q s :
  wp (bind m k) Q s -> wp m (fun a s' => wp (k a) Q s') s.
Proof. unfold wp, bind. by destruct (m s). Qed.

Lemma wp_ok {A} (m : M S A) (Q : A -> S -> Prop) s :
  wp m Q s <-> exists a s', m s = Ok a s' /\ Q a s'.
Proof. unfold wp. split; destruct (m s); naive_solver. Qed.

Lemma wp_for_each {A} (I : list A -> list A -> S -> Prop) (l : list A)
    (body : A -> M S unit) (Q : unit -> S -> Prop) s :
  I [] l s ->
  (forall done x todo s', l = done ++ x :: todo -> I done (x :: todo) s' ->
     wp (body x) (fun _ s'' => I (done ++ [x]) todo s'') s') ->
  (forall s', I l [] s' -> Q tt s') ->
  wp (for_each l body) Q s.
Proof.
  intros H0 Hstep Hend.
  assert (Hgen : forall todo done s', l = done ++ todo -> I done todo s' ->
            wp (for_each todo body) Q s').
  { induction todo as [|x todo IH]; intros done s' -> HI; simpl.
    - apply wp_ret, Hend. by rewrite app_nil_r.
    - apply wp_bind. eapply wp_mono; [by eapply Hstep|].
      intros [] s'' HI'. apply (IH (done ++ [x])); [|done].
      by rewrite <- app_assoc. }
  by apply (Hgen l []).
Qed.

Lemma wp_for_first {A B} (I : list A -> list A -> S -> Prop) (l : list A)
    (body : A -> M S (option B)) (Q : option B -> S -> Prop) s :
  I [] l s ->
  (forall done x todo s', l = done ++ x :: todo -> I done (x :: todo) s' ->
     wp (body x) (fun r s'' => match r with
                               | Some b => Q (Some b) s''
                               | None => I (done ++ [x]) todo s''
                               end) s') ->
  (forall s', I l [] s' -> Q None s') ->
  wp (for_first l body) Q s.
Proof.
  intros H0 Hstep Hend.
  assert (Hgen : forall todo done s', l = done ++ todo -> I done todo s' ->
            wp (for_first todo body) Q s').
  { induction todo as [|x todo IH]; intros done s' -> HI; simpl.
    - apply wp_ret, Hend. by rewrite app_nil_r.
    - apply wp_bind. eapply wp_mono; [by eapply Hstep|].
      intros [b|] s'' HI'; [done|]. apply (IH (done ++ [x])); [|done].
      by rewrite <- app_assoc. }
  by apply (Hgen l []).
Qed.

Lemma seqZ_split (n i : Z) done todo :
  seqZ 0 n = done ++ i :: todo -> i = Z.of_nat (length done) /\ 0 <= i < n.
Proof.
  intros He. assert (Hi : seqZ 0 n !! length done = Some i).
  { rewrite He. by apply list_lookup_middle. }
  apply lookup_seqZ in Hi as [-> Hi]. lia.
Qed.

(** [for(i = 0; i < n; i++)]. *)
Lemma wp_for_range (I : Z -> S -> Prop) (n : Z) (body : Z -> M S unit) (Q : unit -> S -> Prop) s :
  0 <= n -> I 0 s ->
  (forall i s', 0 <= i < n -> I i s' -> wp (body i) (fun _ s'' => I (i + 1) s'') s') ->
  (forall s', I n s' -> Q tt s') ->
  wp (for_each (seqZ 0 n) body) Q s.
Proof.
  intros Hn H0 Hstep Hend.
  apply (wp_for_each (fun done _ s' => I (Z.of_nat (length done)) s')); [done| |].
  - intros done x todo s' He HI. destruct (seqZ_split _ _ _ _ He) as [-> Hx].
    eapply wp_mono; [by apply Hstep|]. intros [] s''. rewrite length_app. cbn.
    by rewrite Nat2Z.inj_add.
  - intros s'. rewrite length_seqZ, Z2Nat.id by done. apply Hend.
Qed.

(** Total correctness of a loop: an invariant and a measure that decreases
    below the fuel. *)
Lemma wp_loop {X B} (I : X -> S -> Prop) (mu : X -> S -> nat) (fuel : nat)
    (body : X -> M S (X + B)) (x : X) (Q : B -> S -> Prop) s :
  I x s -> (mu x s < fuel)%nat ->
  (forall x s, I x s ->
     wp (body x) (fun r s' => match r with
                              | inl x' => I x' s' /\ (mu x' s' < mu x s)%nat
                              | inr b => Q b s'
                              end) s) ->
  wp (loop fuel body x) Q s.
Proof.
  intros HI Hmu Hbody. revert x s HI Hmu.
  induction fuel as [|n IH]; intros x s HI Hmu; [lia|]. simpl.
  apply wp_bind. eapply wp_mono; [by apply Hbody|].
  intros [x'|b] s'; simpl; [|done].
  intros [HI' Hmu']. apply IH; [done|lia].
Qed.

(** The same with the variant as an index of the invariant. *)
Lemma wp_loop_idx {X B} (I : nat -> X -> S -> Prop) (Q : B -> S -> Prop)
    (fuel : nat) (body : X -> M S (X + B)) x s n :
  I n x s -> (n < fuel)%nat ->
  (forall n x s, I n x s ->
     wp (body x) (fun r s' => match r with
                              | inl x' => exists n', (n' < n)%nat /\ I n' x' s'
                              | inr b => Q b s'
                              end) s) ->
  wp (loop fuel body x) Q s.
Proof.
  intros HI Hn Hbody. revert x s n HI Hn.
  induction fuel as [|fuel IH]; intros x s n HI Hn; [lia|]. simpl.
  apply wp_bind. eapply wp_mono; [by eapply Hbody|].
  intros [x'|b] s'; simpl; [|done].
  intros (n' & Hlt & HI'). apply (IH x' s' n'); [done|lia].
Qed.
End WP.

(** * Weakest liberal preconditions

    [wlp m Q B s]: when [m] returns from [s], [Q] holds; when it blocks, [B]
    holds of the state it leaves.  A panic halts the kernel. *)

Definition wlp {S A} (m : M S A) (Q : A -> S -> Prop) (B : S -> Prop) (s : S) : Prop :=
  match m s with
  | Ok a s' => Q a s'
  | Block _ s' => B s'
  | _ => True
  end.

Section WLP.
Context {S : Type}.

Lemma wlp_bind {A B} (m : M S A) (k : A -> M S B) Q R s :
  wlp m (fun a s' => wlp (k a) Q R s') R s -> wlp (bind m k) Q R s.
Proof. unfold wlp, bind. by destruct (m s). Qed.

Lemma wlp_ret {A} (a : A) (Q : A -> S -> Prop) R s : Q a s -> wlp (ret a) Q R s.
Proof. done. Qed.

Lemma wlp_gets {A} (f : S -> A) (Q : A -> S -> Prop) R s : Q (f s) s -> wlp (gets f) Q R s.
Proof. done. Qed.

Lemma wlp_modify (f : S -> S) (Q : unit -> S -> Prop) R s : Q tt (f s) -> wlp (modify f) Q R s.
Proof. done. Qed.

Lemma wlp_panic {A} msg (Q : A -> S -> Prop) R s : wlp (panic msg) Q R s.
Proof. done. Qed.

Lemma wlp_mono {A} (m : M S A) (Q Q' : A -> S -> Prop) (R R' : S -> Prop) s :
  wlp m Q R s -> (forall a s', Q a s' -> Q' a s') -> (forall s', R s' -> R' s') -> wlp m Q' R' s.
Proof. unfold wlp. destruct (m s); naive_solver. Qed.

Lemma wlp_ok {A} (m : M S A) (Q : A -> S -> Prop) R s a s' :
  wlp m Q R s -> m s = Ok a s' -> Q a s'.
Proof. unfold wlp. intros H E. by rewrite E in H. Qed.

Lemma wlp_block {A} (m : M S A) (Q : A -> S -> Prop) R s c s' :
  wlp m Q R s -> m s = Block c s' -> R s'.
Proof. unfold wlp. intros H E. by rewrite E in H. Qed.

Lemma wp_wlp {A} (m : M S A) (Q : A -> S -> Prop) R s : wp m Q s -> wlp m Q R s.
Proof. unfold wp, wlp. by destruct (m s). Qed.

Lemma wlp_for_each {A} (I : list A -> list A -> S -> Prop) (l : list A)
    (body : A -> M S unit) (Q : unit -> S -> Prop) R s :
  I [] l s ->
  (forall done x todo s', l = done ++ x :: todo -> I done (x :: todo) s' ->
     wlp (body x) (fun _ s'' => I (done ++ [x]) todo s'') R s') ->
  (forall s', I l [] s' -> Q tt s') ->
  wlp (for_each l body) Q R s.
Proof.
  intros H0 Hstep Hend.
  assert (Hgen : forall todo done s', l = done ++ todo -> I done todo s' ->
            wlp (for_each todo body) Q R s').
  { induction todo as [|x todo IH]; intros done s' -> HI; simpl.
    - apply Hend. by rewrite app_nil_r.
    - apply wlp_bind. eapply wlp_mono; [by eapply Hstep| |done].
      intros [] s'' HI'. apply (IH (done ++ [x])); [|done].
      by rewrite <- app_assoc. }
  by apply (Hgen l []).
Qed.
End WLP.

Lemma filter_all {A} (P : A -> Prop) `{!forall x, Decision (P x)} (l : list A) :
  (forall x, x ∈ l -> P x) -> filter P l = l.
Proof.
  induction l as [|x l IH]; intros Hall; [done|].
  rewrite filter_cons_True by (apply Hall; by left). f_equal. apply IH. intros y Hy.
  apply Hall. by right.
Qed.

(** * Total maps: an array of structures indexed by an integer *)

Definition fset {A} (f : Z -> A) (k : Z) (v : A) : Z -> A :=
  fun x => if x =? k then v else f x.

Lemma fset_eq {A} (f : Z -> A) k v : fset f k v k = v.
Proof. unfold fset. by rewrite Z.eqb_refl. Qed.

Lemma fset_ne {A} (f : Z -> A) k v x : x <> k -> fset f k v x = f x.
Proof. intros Hne. unfold fset. by destruct (Z.eqb_spec x k). Qed.

Lemma fset_case {A} (f : Z -> A) k v x :
  (x = k /\ fset f k v x = v) \/ (x <> k /\ fset f k v x = f x).
Proof. unfold fset. destruct (Z.eqb_spec x k); [by left|by right]. Qed.

Lemma fset_id {A} (f : Z -> A) i : fset f i (f i) = f.
Proof.
  apply functional_extensionality. intros x. unfold fset. by destruct (Z.eqb_spec x i) as [->|].
Qed.

Lemma fset_fset {A} (f : Z -> A) i x y : fset (fset f i x) i y = fset f i y.
Proof. apply functional_extensionality. intros j. unfold fset. by destruct (_ =? _). Qed.

#[export] Hint Rewrite @fset_eq : arr.

(** * Zooming: running a component's operation inside a larger state *)

Record lens (S A : Type) : Type := mkLens {
  lget : S -> A;
  lset : A -> S -> S;
}.
Arguments mkLens {S A} lget lset.
Arguments lget {S A} l s.
Arguments lset {S A} l a s.

Class LensLaws {S A} (L : lens S A) : Prop := {
  lget_lset : forall a s, lget L (lset L a s) = a;
  lset_lget : forall s, lset L (lget L s) s = s;
  lset_lset : forall a b s, lset L a (lset L b s) = lset L a s;
}.

(** Lenses on different parts of the state. *)
Class LensIndep {S A B} (L : lens S A) (W : lens S B) : Prop := {
  indep_comm : forall x w s, lset L x (lset W w s) = lset W w (lset L x s);
  indep_l : forall w s, lget L (lset W w s) = lget L s;
  indep_r : forall x s, lget W (lset L x s) = lget W s;
}.

Definition zoom {S X A} (L : lens S X) (m : M X A) : M S A :=
  fun s => match m (lget L s) with
           | Ok a x => Ok a (lset L x s)
           | Panic msg => Panic msg
           | Block c x => Block c (lset L x s)
           | NoFuel => NoFuel
           end.

Lemma wp_zoom {S X A} (L : lens S X) (m : M X A) (Q : A -> S -> Prop) s :
  wp m (fun a x => Q a (lset L x s)) (lget L s) -> wp (zoom L m) Q s.
Proof. unfold wp, zoom. by destruct (m (lget L s)). Qed.

(** * Spinlocks inside a component

    Within one component a spinlock is its [locked] flag: the component's
    operations run to completion between acquire() and release() (no other
    CPU interleaves inside a critical section), so a lock found held is held by
    the CPU itself and acquire() panics, and release() panics on a free lock.
    [Spinlock] models the lock itself, with its atomic swap, its owner and the
    interrupt nesting, over interleaved CPUs. *)

Definition acquire {S} (L : lens S bool) : M S unit :=
  let! locked := gets (lget L) in
  if locked : bool then panic "acquire"
  else modify (lset L true).

Definition release {S} (L : lens S bool) : M S unit :=
  let! locked := gets (lget L) in
  if locked : bool then modify (lset L false)
  else panic "release".

Section Locks.
Context {S : Type} (L : lens S bool).

Lemma wp_acquire (Q : unit -> S -> Prop) s :
  lget L s = false -> Q tt (lset L true s) -> wp (acquire L) Q s.
Proof.
  intros Hf HQ. apply wp_bind, wp_gets. rewrite Hf. by apply wp_modify.
Qed.

Lemma wp_release (Q : unit -> S -> Prop) s :
  lget L s = true -> Q tt (lset L false s) -> wp (release L) Q s.
Proof.
  intros Hf HQ. apply wp_bind, wp_gets. rewrite Hf. by apply wp_modify.
Qed.

Lemma wlp_lock (Q : unit -> S -> Prop) R s :
  (lget L s = false -> Q tt (lset L true s)) -> wlp (acquire L) Q R s.
Proof. intros HQ. unfold wlp, acquire, bind, gets. destruct (lget L s); [done|by apply HQ]. Qed.

Lemma wlp_unlock (Q : unit -> S -> Prop) R s :
  (lget L s = true -> Q tt (lset L false s)) -> wlp (release L) Q R s.
Proof. intros HQ. unfold wlp, release, bind, gets. destruct (lget L s); [by apply HQ|done]. Qed.
End Locks.

(** * Operations that do not sleep *)

Definition noblock {S A} (m : M S A) : Prop := forall s c s', m s <> Block c s'.

Section NoBlock.
Context {S : Type}.

Lemma nb_bind {A B} (m : M S A) (k : A -> M S B) :
  noblock m -> (forall a, noblock (k a)) -> noblock (bind m k).
Proof.
  intros Hm Hk s c s'. unfold bind. specialize (Hm s).
  destruct (m s) as [a s1| |c1 s1|] eqn:E; [apply Hk|done|by destruct (Hm c1 s1)|done].
Qed.
Lemma nb_ret {A} (a : A) : noblock (ret (S:=S) a).
Proof. done. Qed.
Lemma nb_gets {A} (f : S -> A) : noblock (gets f).
Proof. done. Qed.
Lemma nb_modify (f : S -> S) : noblock (modify f).
Proof. done. Qed.
Lemma nb_panic {A} msg : noblock (panic (S:=S) (A:=A) msg).
Proof. done. Qed.
Lemma nb_acquire (L : lens S bool) : noblock (acquire L).
Proof. intros s c s'. unfold acquire, bind, gets. by destruct (lget L s). Qed.
Lemma nb_release (L : lens S bool) : noblock (release L).
Proof. intros s c s'. unfold release, bind, gets. by destruct (lget L s). Qed.
Lemma nb_if {A} (b : bool) (m n : M S A) : noblock m -> noblock n -> noblock (if b then m else n).
Proof. by destruct b. Qed.
Lemma nb_for_each {A} (l : list A) (body : A -> M S unit) :
  (forall x, noblock (body x)) -> noblock (for_each l body).
Proof. intros Hb. induction l; [done|]. by apply nb_bind. Qed.
Lemma nb_loop {X B} fuel (body : X -> M S (X + B)) x :
  (forall x, noblock (body x)) -> noblock (loop fuel body x).
Proof.
  intros Hb. revert x. induction fuel as [|n IH]; intros x; [done|]. apply nb_bind; [done|].
  intros [x'|b]; [apply IH|done].
Qed.
Lemma nb_zoom {X A} (L : lens S X) (m : M X A) : noblock m -> noblock (zoom L m).
Proof.
  intros Hm s c s'. unfold zoom. specialize (Hm (lget L s)).
  destruct (m (lget L s)) as [a x| |c1 x|]; try done. by destruct (Hm c1 x).
Qed.
End NoBlock.

Create HintDb noblock.
#[export] Hint Resolve nb_ret nb_gets nb_modify nb_panic nb_acquire nb_release : noblock.
Ltac noblock :=
  repeat first
    [ solve [auto with noblock]
    | apply nb_bind; [|intros]
    | apply nb_if
    | apply nb_zoom
    | apply nb_for_each; intros
    | apply nb_loop; intros
    | match goal with |- noblock (match ?x with _ => _ end) => destruct x end ].

(** * Concrete runs *)

Definition run_val {S A} (r : res S A) : option A := match r with Ok a _ => Some a | _ => None end.
Definition run_st {S A} (s0 : S) (r : res S A) : S := match r with Ok _ s => s | _ => s0 end.
Lemma run_eq {S A} (s0 : S) (r : res S A) a : run_val r = Some a -> r = Ok a (run_st s0 r).
Proof. destruct r; intros H; by inversion H. Qed.

(** * Tactics *)

(** Case analysis on the boolean tests of the code, leaving Props for [lia]. *)
Ltac zcase_on b :=
  lazymatch b with
  | (?x =? ?y)%Z => destruct (Z.eqb_spec x y)
  | (?x <? ?y)%Z => destruct (Z.ltb_spec x y)
  | (?x <=? ?y)%Z => destruct (Z.leb_spec x y)
  | (?x >? ?y)%Z => rewrite (Z.gtb_ltb x y); destruct (Z.ltb_spec y x)
  | (?x >=? ?y)%Z => rewrite (Z.geb_leb x y); destruct (Z.leb_spec y x)
  | (?x || ?y)%bool => zcase_on x; [|zcase_on y]; cbn [orb]
  | (?x && ?y)%bool => zcase_on x; [zcase_on y|]; cbn [andb]
  | negb ?x => zcase_on x; cbn [negb]
  | _ => let E := fresh "E" in destruct b eqn:E
  end.
Ltac zcase :=
  match goal with
  | |- context [if ?b then _ else _] => zcase_on b
  end.

Create HintDb kwp.

Ltac wp_step :=
  lazymatch goal with
  | |- wp (bind _ _) _ _ => apply wp_bind
  | |- wp (ret _) _ _ => apply wp_ret
  | |- wp (gets _) _ _ => apply wp_gets
  | |- wp (modify _) _ _ => apply wp_modify
  | |- wp (zoom _ _) _ _ => apply wp_zoom
  | |- wp (acquire _) _ _ => apply wp_acquire; [try done|]
  | |- wp (release _) _ _ => apply wp_release; [try done|]
  | |- wp _ _ _ => progress autounfold with kwp
  end; cbn beta.
Ltac wp_steps := repeat wp_step.

Ltac wlp_step :=
  lazymatch goal with
  | |- wlp (bind _ _) _ _ _ => apply wlp_bind
  | |- wlp (ret _) _ _ _ => apply wlp_ret
  | |- wlp (gets _) _ _ _ => apply wlp_gets
  | |- wlp (modify _) _ _ _ => apply wlp_modify
  | |- wlp (panic _) _ _ _ => apply wlp_panic
  | |- wlp _ _ _ _ => progress autounfold with kwp
  end; cbn beta.
Ltac wlp_steps := repeat wlp_step.

(** Apply a specification of the head operation and weaken it. *)
Ltac wp_use H := eapply wp_mono; [apply H|cbn beta].

(** * Flattening bits of arithmetic *)

Lemma Z_div_mod_decomp a b : 0 < b -> a = b * (a / b) + a mod b /\ 0 <= a mod b < b.
Proof. intros. split; [by apply Z.div_mod; lia|by apply Z.mod_pos_bound]. Qed.

Ltac divmod a b :=
  let q := fresh "q" in let r := fresh "r" in
  let H := fresh "Hdm" in
  destruct (Z_div_mod_decomp a b ltac:(lia)) as [H ?];
  set (q := a / b) in *; set (r := a mod b) in *; clearbody q r.
