(* ===== verification/Ring.v ===== *)
(** Ring buffers: an array of [N] bytes with free-running read and write
    counters of width [W], as pipes, the console and the UART have them. *)

From S2P Require Import Prelude.

Section Ring.
Context (N W : Z).

Definition rfill (r w : Z) : Z := (w - r) mod W.
Definition rcont (data : list Z) (r w : Z) : list Z :=
  map (fun k => zget data ((r + k) mod N)) (seqZ 0 (rfill r w)).

Lemma length_rcont data r w : length (rcont data r w) = Z.to_nat (rfill r w).
Proof. unfold rcont. by rewrite length_map, length_seqZ. Qed.

Context (HN : 0 < N <= W) (HW : (N | W)).
#[local] Set Default Proof Using "Type HN HW".

Lemma rfill_range r w : 0 <= rfill r w < W.
Proof. apply Z.mod_pos_bound. lia. Qed.

Lemma mod_WN x : (x mod W) mod N = x mod N.
Proof. by apply Z.mod_mod_divide. Qed.

Lemma rfill_empty r w : 0 <= r < W -> 0 <= w < W -> r = w <-> rfill r w = 0.
Proof.
  intros Hr Hw. unfold rfill. split; intros He.
  - rewrite He, Z.sub_diag. apply Z.mod_0_l. lia.
  - apply Z.mod_divide in He as [k Hk]; [|lia]. assert (k = 0) by nia. lia.
Qed.

Lemma rfill_full r w : 0 <= w < W -> N < W -> w = (r + N) mod W <-> rfill r w = N.
Proof.
  intros Hw HNW. unfold rfill. split; intros He.
  - rewrite He, Zminus_mod_idemp_l. replace (r + N - r) with N by lia. apply Z.mod_small. lia.
  - divmod (w - r) W. subst r0. rewrite <- (Z.mod_small w W) by done.
    replace w with (r + N + q * W) by lia. by rewrite Z.mod_add by lia.
Qed.

(** The slot after the contents. *)
Lemma rpos r w : (r + rfill r w) mod N = w mod N.
Proof.
  unfold rfill. rewrite <- Zplus_mod_idemp_r, mod_WN, Zplus_mod_idemp_r. f_equal. lia.
Qed.

Lemma rfill_put r w : rfill r w < W - 1 -> rfill r ((w + 1) mod W) = rfill r w + 1.
Proof.
  intros Hf. pose proof (rfill_range r w). unfold rfill in *. rewrite Zminus_mod_idemp_l.
  replace (w + 1 - r) with (w - r + 1) by lia. rewrite <- Zplus_mod_idemp_l. apply Z.mod_small. lia.
Qed.

Lemma rfill_get r w : rfill r w <> 0 -> rfill ((r + 1) mod W) w = rfill r w - 1.
Proof.
  intros Hf. pose proof (rfill_range r w). unfold rfill in *. rewrite Zminus_mod_idemp_r.
  replace (w - (r + 1)) with (w - r - 1) by lia. rewrite <- Zminus_mod_idemp_l. apply Z.mod_small. lia.
Qed.

Lemma rfill_unput r w : rfill r w <> 0 -> rfill r ((w - 1) mod W) = rfill r w - 1.
Proof.
  intros Hf. pose proof (rfill_range r w). unfold rfill in *. rewrite Zminus_mod_idemp_l.
  replace (w - 1 - r) with (w - r - 1) by lia. rewrite <- Zminus_mod_idemp_l. apply Z.mod_small. lia.
Qed.

Lemma seqZ_snoc n : 0 <= n -> seqZ 0 (n + 1) = seqZ 0 n ++ [n].
Proof using Type. intros Hn. by rewrite seqZ_app by lia. Qed.

(** Writing the slot after the contents. *)
Lemma rcont_put data r w ch :
  length data = Z.to_nat N -> rfill r w < N -> rfill r w < W - 1 ->
  rcont (zset (w mod N) ch data) r ((w + 1) mod W) = rcont data r w ++ [ch].
Proof.
  intros Hl Hf HfW. pose proof (rfill_range r w) as Hfr. unfold rcont.
  rewrite rfill_put, seqZ_snoc, map_app by lia. cbn [map]. rewrite <- (rpos r w). f_equal.
  - apply map_ext_in. intros k Hk%list_elem_of_In%elem_of_seqZ.
    apply zget_zset_ne; [apply Z.mod_pos_bound; lia..|]. intros He.
    divmod (r + rfill r w) N. divmod (r + k) N. assert (q = q0) by nia. nia.
  - f_equal. apply zget_zset_eq. rewrite Hl. pose proof (Z.mod_pos_bound (r + rfill r w) N). lia.
Qed.

(** Writing outside a range of slots that ends where the write is. *)
Lemma rcont_zset data r w x ch :
  rfill r w + rfill w x < N -> 
  rcont (zset (x mod N) ch data) r w = rcont data r w.
Proof.
  intros Hf. pose proof (rfill_range r w). pose proof (rfill_range w x). unfold rcont.
  apply map_ext_in. intros k Hk%list_elem_of_In%elem_of_seqZ.
  assert (Hx : x mod N = (r + rfill r w + rfill w x) mod N).
  { rewrite <- Zplus_mod_idemp_l, rpos, Zplus_mod_idemp_l. symmetry. apply rpos. }
  rewrite Hx. apply zget_zset_ne; [apply Z.mod_pos_bound; lia..|]. intros He.
  divmod (r + rfill r w + rfill w x) N. divmod (r + k) N. assert (q = q0) by nia. nia.
Qed.

Lemma rcont_get data r w :
  rfill r w <> 0 -> rcont data r w = zget data (r mod N) :: rcont data ((r + 1) mod W) w.
Proof.
  intros Hf. pose proof (rfill_range r w) as Hfr. unfold rcont. rewrite rfill_get by done.
  replace (rfill r w) with (1 + (rfill r w - 1)) at 1 by lia.
  rewrite seqZ_app, map_app by lia. change (seqZ 0 1) with [0]. cbn [map app]. rewrite Z.add_0_r. f_equal.
  replace (seqZ (0 + 1) (rfill r w - 1)) with (map (Z.add 1) (seqZ 0 (rfill r w - 1)))
    by (rewrite fmap_add_seqZ; f_equal; lia).
  rewrite map_map. apply map_ext. intros k. f_equal.
  rewrite <- (Zplus_mod_idemp_l ((r + 1) mod W)), mod_WN, Zplus_mod_idemp_l. f_equal. lia.
Qed.

Lemma rcont_unput data r w :
  rfill r w <> 0 ->
  rcont data r w = rcont data r ((w - 1) mod W) ++ [zget data (((w - 1) mod W) mod N)].
Proof.
  intros Hf. pose proof (rfill_range r w) as Hfr. unfold rcont. rewrite rfill_unput by done.
  replace (rfill r w) with (rfill r w - 1 + 1) at 1 by lia. rewrite seqZ_snoc, map_app by lia. cbn [map].
  do 3 f_equal. rewrite <- rfill_unput by done. apply rpos.
Qed.

Lemma rcont_nil data r : rcont data r r = [].
Proof. unfold rcont, rfill. rewrite Z.sub_diag, Z.mod_0_l by lia. done. Qed.

Lemma rcont_app data r w e :
  rfill r e = rfill r w + rfill w e -> rcont data r e = rcont data r w ++ rcont data w e.
Proof.
  intros Hf. pose proof (rfill_range r w). pose proof (rfill_range w e). unfold rcont.
  rewrite Hf, seqZ_app, map_app by lia. f_equal.
  replace (seqZ (0 + rfill r w) (rfill w e)) with (map (Z.add (rfill r w)) (seqZ 0 (rfill w e)))
    by (rewrite fmap_add_seqZ; f_equal; lia).
  rewrite map_map. apply map_ext. intros k. f_equal.
  rewrite Z.add_assoc, <- Zplus_mod_idemp_l, rpos, Zplus_mod_idemp_l. done.
Qed.
End Ring.
