(* ===== verification/Riscv.v ===== *)
(** The machine interface: kernel/riscv.h (control registers, page and PTE
    macros), kernel/memlayout.h (address map) and kernel/param.h (limits).

    The registers of one hart are a map from register names to 64-bit values;
    each accessor of riscv.h reads or writes one of them.  The page macros are
    the C expressions over [Z], and the lemmas give their arithmetic meaning:
    rounding to pages, the PTE/physical-address round trip and the split of a
    virtual address into its three indices and its offset. *)

From S2P Require Import Prelude.

(** * kernel/param.h *)

Definition NPROC : Z := 64.
Definition NCPU : Z := 8.
Definition NOFILE : Z := 16.
Definition NFILE : Z := 100.
Definition NINODE : Z := 50.
Definition NDEV : Z := 10.
Definition ROOTDEV : Z := 1.
Definition MAXARG : Z := 32.
Definition MAXOPBLOCKS : Z := 10.
Definition LOGSIZE : Z := MAXOPBLOCKS * 3.
Definition NBUF : Z := MAXOPBLOCKS * 3.
Definition FSSIZE : Z := 2000.
Definition MAXPATH : Z := 128.

(** * Registers of a hart *)

Inductive reg : Type :=
| MHARTID | MSTATUS | MEPC | SSTATUS | SIP | SIE | MIE | SEPC | MEDELEG
| MIDELEG | STVEC | MTVEC | PMPCFG0 | PMPADDR0 | SATP | MSCRATCH | SCAUSE
| STVAL | MCOUNTEREN | TIME | SP | TP | RA.

#[export] Instance reg_eq_dec : EqDecision reg.
Proof. solve_decision. Defined.

Definition hart : Type := reg -> Z.

Definition csrr (r : reg) : M hart Z := gets (fun h => h r).
Definition csrw (r : reg) (x : Z) : M hart unit :=
  modify (fun h r' => if decide (r' = r) then u64 x else h r').

Definition r_mhartid : M hart Z := csrr MHARTID.
Definition r_mstatus : M hart Z := csrr MSTATUS.
Definition w_mstatus : Z -> M hart unit := csrw MSTATUS.
Definition w_mepc : Z -> M hart unit := csrw MEPC.
Definition r_sstatus : M hart Z := csrr SSTATUS.
Definition w_sstatus : Z -> M hart unit := csrw SSTATUS.
Definition r_sip : M hart Z := csrr SIP.
Definition w_sip : Z -> M hart unit := csrw SIP.
Definition r_sie : M hart Z := csrr SIE.
Definition w_sie : Z -> M hart unit := csrw SIE.
Definition r_mie : M hart Z := csrr MIE.
Definition w_mie : Z -> M hart unit := csrw MIE.
Definition w_sepc : Z -> M hart unit := csrw SEPC.
Definition r_sepc : M hart Z := csrr SEPC.
Definition r_medeleg : M hart Z := csrr MEDELEG.
Definition w_medeleg : Z -> M hart unit := csrw MEDELEG.
Definition r_mideleg : M hart Z := csrr MIDELEG.
Definition w_mideleg : Z -> M hart unit := csrw MIDELEG.
Definition w_stvec : Z -> M hart unit := csrw STVEC.
Definition r_stvec : M hart Z := csrr STVEC.
Definition w_mtvec : Z -> M hart unit := csrw MTVEC.
Definition w_pmpcfg0 : Z -> M hart unit := csrw PMPCFG0.
Definition w_pmpaddr0 : Z -> M hart unit := csrw PMPADDR0.
Definition w_satp : Z -> M hart unit := csrw SATP.
Definition r_satp : M hart Z := csrr SATP.
Definition w_mscratch : Z -> M hart unit := csrw MSCRATCH.
Definition r_scause : M hart Z := csrr SCAUSE.
Definition r_stval : M hart Z := csrr STVAL.
Definition w_mcounteren : Z -> M hart unit := csrw MCOUNTEREN.
Definition r_mcounteren : M hart Z := csrr MCOUNTEREN.
Definition r_time : M hart Z := csrr TIME.
Definition r_sp : M hart Z := csrr SP.
Definition r_tp : M hart Z := csrr TP.
Definition w_tp : Z -> M hart unit := csrw TP.
Definition r_ra : M hart Z := csrr RA.
(** Flushes the TLB, which the model does not have: the page table is always
    read from memory. *)
Definition sfence_vma : M hart unit := ret tt.

Definition MSTATUS_MPP_MASK : Z := Z.shiftl 3 11.
Definition MSTATUS_MPP_S : Z := Z.shiftl 1 11.
Definition MSTATUS_MIE : Z := Z.shiftl 1 3.
Definition SSTATUS_SPP : Z := Z.shiftl 1 8.
Definition SSTATUS_SPIE : Z := Z.shiftl 1 5.
Definition SSTATUS_SIE : Z := Z.shiftl 1 1.
Definition SIE_SEIE : Z := Z.shiftl 1 9.
Definition SIE_STIE : Z := Z.shiftl 1 5.
Definition SIE_SSIE : Z := Z.shiftl 1 1.
Definition MIE_MTIE : Z := Z.shiftl 1 7.

Definition intr_on : M hart unit :=
  let! x := r_sstatus in w_sstatus (Z.lor x SSTATUS_SIE).

Definition intr_off : M hart unit :=
  let! x := r_sstatus in w_sstatus (Z.land x (Z.lnot SSTATUS_SIE)).

Definition intr_get : M hart Z :=
  let! x := r_sstatus in
  ret (if Z.land x SSTATUS_SIE =? 0 then 0 else 1).

Definition SATP_SV39 : Z := Z.shiftl 8 60.
Definition MAKE_SATP (pagetable : Z) : Z := Z.lor SATP_SV39 (Z.shiftr pagetable 12).

(** * Pages and page-table entries *)

Definition PGSIZE : Z := 4096.
Definition PGSHIFT : Z := 12.

Definition PGROUNDUP (sz : Z) : Z :=
  Z.land (u64 (sz + PGSIZE - 1)) (Z.lnot (PGSIZE - 1)).
Definition PGROUNDDOWN (a : Z) : Z := Z.land a (Z.lnot (PGSIZE - 1)).

Definition PTE_V : Z := Z.shiftl 1 0.
Definition PTE_R : Z := Z.shiftl 1 1.
Definition PTE_W : Z := Z.shiftl 1 2.
Definition PTE_X : Z := Z.shiftl 1 3.
Definition PTE_U : Z := Z.shiftl 1 4.

Definition PA2PTE (pa : Z) : Z := u64 (Z.shiftl (Z.shiftr pa 12) 10).
Definition PTE2PA (pte : Z) : Z := u64 (Z.shiftl (Z.shiftr pte 10) 12).
Definition PTE_FLAGS (pte : Z) : Z := Z.land pte 0x3FF.

Definition PXMASK : Z := 0x1FF.
Definition PXSHIFT (level : Z) : Z := PGSHIFT + 9 * level.
Definition PX (level va : Z) : Z := Z.land (Z.shiftr va (PXSHIFT level)) PXMASK.

Definition MAXVA : Z := Z.shiftl 1 (9 + 9 + 9 + 12 - 1).

(** * kernel/memlayout.h *)

Definition UART0 : Z := 0x10000000.
Definition UART0_IRQ : Z := 10.
Definition VIRTIO0 : Z := 0x10001000.
Definition VIRTIO0_IRQ : Z := 1.
Definition CLINT : Z := 0x2000000.
Definition CLINT_MTIMECMP (hartid : Z) : Z := CLINT + 0x4000 + 8 * hartid.
Definition CLINT_MTIME : Z := CLINT + 0xBFF8.
Definition PLIC : Z := 0x0c000000.
Definition PLIC_SENABLE (hart : Z) : Z := PLIC + 0x2080 + hart * 0x100.
Definition PLIC_SPRIORITY (hart : Z) : Z := PLIC + 0x201000 + hart * 0x2000.
Definition PLIC_SCLAIM (hart : Z) : Z := PLIC + 0x201004 + hart * 0x2000.
Definition KERNBASE : Z := 0x80000000.
Definition PHYSTOP : Z := KERNBASE + 128 * 1024 * 1024.
Definition TRAMPOLINE : Z := MAXVA - PGSIZE.
Definition KSTACK (p : Z) : Z := TRAMPOLINE - (p + 1) * 2 * PGSIZE.
Definition TRAPFRAME : Z := TRAMPOLINE - PGSIZE.

(** * Arithmetic of the page macros *)

Definition aligned (a : Z) : Prop := a mod PGSIZE = 0.

Lemma land_lnot_pg a : Z.land a (Z.lnot (PGSIZE - 1)) = PGSIZE * (a / PGSIZE).
Proof.
  change (PGSIZE - 1) with (Z.ones 12).
  rewrite <- Z.ldiff_land, Z.ldiff_ones_r by lia.
  rewrite Z.shiftr_div_pow2, Z.shiftl_mul_pow2 by lia.
  change (2 ^ 12) with PGSIZE. lia.
Qed.

Lemma PGROUNDDOWN_spec a : PGROUNDDOWN a = PGSIZE * (a / PGSIZE).
Proof. apply land_lnot_pg. Qed.

Lemma PGROUNDDOWN_bounds a :
  PGROUNDDOWN a <= a < PGROUNDDOWN a + PGSIZE /\ aligned (PGROUNDDOWN a).
Proof.
  rewrite PGROUNDDOWN_spec. unfold aligned.
  rewrite Z.mul_comm, Z_mod_mult. unfold PGSIZE.
  pose proof (Z_div_mod_decomp a 4096). lia.
Qed.

Lemma PGROUNDDOWN_aligned a : aligned a -> PGROUNDDOWN a = a.
Proof.
  unfold aligned. rewrite PGROUNDDOWN_spec. intros H.
  pose proof (Z_div_mod_decomp a PGSIZE). unfold PGSIZE in *. lia.
Qed.

Lemma PGROUNDUP_spec sz :
  0 <= sz -> sz + PGSIZE - 1 < 2 ^ 64 ->
  PGROUNDUP sz = PGSIZE * ((sz + PGSIZE - 1) / PGSIZE).
Proof.
  intros. unfold PGROUNDUP. rewrite u64_small by (unfold is_u64, PGSIZE in *; lia).
  apply land_lnot_pg.
Qed.

Lemma PGROUNDUP_bounds sz :
  0 <= sz -> sz + PGSIZE - 1 < 2 ^ 64 ->
  sz <= PGROUNDUP sz < sz + PGSIZE /\ aligned (PGROUNDUP sz).
Proof.
  intros. rewrite PGROUNDUP_spec by done. unfold aligned.
  rewrite Z.mul_comm, Z_mod_mult. unfold PGSIZE in *.
  pose proof (Z_div_mod_decomp (sz + 4096 - 1) 4096). lia.
Qed.

Lemma PGROUNDUP_aligned sz :
  0 <= sz -> sz + PGSIZE - 1 < 2 ^ 64 -> aligned sz -> PGROUNDUP sz = sz.
Proof.
  intros H1 H2 Ha. destruct (PGROUNDUP_bounds sz H1 H2) as [? Hb].
  unfold aligned, PGSIZE in *.
  pose proof (Z_div_mod_decomp sz 4096).
  pose proof (Z_div_mod_decomp (PGROUNDUP sz) 4096). lia.
Qed.

Lemma aligned_add a b : aligned a -> aligned b -> aligned (a + b).
Proof.
  unfold aligned. intros Ha Hb. rewrite Zplus_mod, Ha, Hb. done.
Qed.
Lemma aligned_PGSIZE : aligned PGSIZE.
Proof. done. Qed.
Lemma aligned_mul k : aligned (k * PGSIZE).
Proof. unfold aligned. apply Z_mod_mult. Qed.

Lemma PTE2PA_PA2PTE pa flags :
  aligned pa -> 0 <= pa < 2 ^ 56 -> 0 <= flags < 2 ^ 10 ->
  PTE2PA (Z.lor (PA2PTE pa) flags) = pa.
Proof.
  intros Ha Hpa Hf. unfold PTE2PA, PA2PTE.
  assert (H1 : Z.shiftl (Z.shiftr pa 12) 10 = pa / 4096 * 1024).
  { by rewrite Z.shiftr_div_pow2, Z.shiftl_mul_pow2 by lia. }
  unfold aligned, PGSIZE in Ha. pose proof (Z_div_mod_decomp pa 4096 ltac:(lia)).
  rewrite H1, (u64_small (pa / 4096 * 1024)) by (unfold is_u64; lia).
  rewrite Z.shiftr_lor.
  replace (Z.shiftr flags 10) with 0
    by (rewrite Z.shiftr_div_pow2 by lia; symmetry; apply Z.div_small; lia).
  rewrite Z.lor_0_r, Z.shiftr_div_pow2 by lia.
  change (2 ^ 10) with 1024. rewrite Z.div_mul by lia.
  rewrite Z.shiftl_mul_pow2 by lia.
  rewrite u64_small; unfold is_u64; lia.
Qed.

Lemma PTE_FLAGS_PA2PTE pa flags :
  0 <= pa < 2 ^ 56 -> 0 <= flags < 2 ^ 10 ->
  PTE_FLAGS (Z.lor (PA2PTE pa) flags) = flags.
Proof.
  intros Hpa Hf. unfold PTE_FLAGS, PA2PTE.
  change 0x3FF with (Z.ones 10). rewrite Z.land_lor_distr_l.
  rewrite !Z.land_ones by lia. rewrite (Z.mod_small flags) by lia.
  rewrite Z.shiftr_div_pow2, Z.shiftl_mul_pow2 by lia.
  change (2 ^ 12) with 4096.
  assert (0 <= pa / 4096 < 2 ^ 44).
  { split; [apply Z.div_pos; lia|apply Z.div_lt_upper_bound; lia]. }
  rewrite u64_small by (unfold is_u64; lia).
  rewrite Z_mod_mult. done.
Qed.

Lemma PX_range level va : 0 <= PX level va < 512.
Proof.
  unfold PX. change PXMASK with (Z.ones 9). rewrite Z.land_ones by lia.
  apply Z.mod_pos_bound. lia.
Qed.

Lemma PX_spec level va :
  0 <= level -> PX level va = (va / 2 ^ (12 + 9 * level)) mod 512.
Proof.
  intros. unfold PX, PXSHIFT, PGSHIFT. change PXMASK with (Z.ones 9).
  by rewrite Z.land_ones, Z.shiftr_div_pow2 by lia.
Qed.

(** A user virtual address below [MAXVA] is its three indices and its offset. *)
Lemma va_decompose va :
  0 <= va < MAXVA ->
  va = PX 2 va * 2 ^ 30 + PX 1 va * 2 ^ 21 + PX 0 va * 2 ^ 12 + va mod PGSIZE
  /\ PX 2 va < 256.
Proof.
  intros Hva. change MAXVA with (2 ^ 38) in Hva.
  rewrite !PX_spec by lia. unfold PGSIZE.
  change (2 ^ (12 + 9 * 2)) with (2 ^ 30). change (2 ^ (12 + 9 * 1)) with (2 ^ 21).
  change (2 ^ (12 + 9 * 0)) with (2 ^ 12).
  change (2 ^ 30) with (4096 * 512 * 512). change (2 ^ 21) with (4096 * 512).
  change (2 ^ 12) with 4096. change (2 ^ 38) with (4096 * 512 * 512 * 256) in Hva.
  rewrite <- !Z.div_div by lia.
  pose proof (Z_div_mod_decomp va 4096 ltac:(lia)).
  pose proof (Z_div_mod_decomp (va / 4096) 512 ltac:(lia)).
  pose proof (Z_div_mod_decomp (va / 4096 / 512) 512 ltac:(lia)).
  assert (0 <= va / 4096 / 512 / 512 < 256).
  { rewrite !Z.div_div by lia. split; [apply Z.div_pos; lia|].
    apply Z.div_lt_upper_bound; lia. }
  rewrite (Z.mod_small (va / 4096 / 512 / 512)) by lia. lia.
Qed.

(** Two page-aligned addresses below [MAXVA] with the same indices are equal. *)
Lemma PX_inj va va' :
  0 <= va < MAXVA -> 0 <= va' < MAXVA -> aligned va -> aligned va' ->
  PX 2 va = PX 2 va' -> PX 1 va = PX 1 va' -> PX 0 va = PX 0 va' -> va = va'.
Proof.
  unfold aligned. intros Hv Hv' Ha Ha' H2 H1 H0.
  destruct (va_decompose va Hv) as [E _]. destruct (va_decompose va' Hv') as [E' _].
  rewrite E, E', Ha, Ha', H2, H1, H0. done.
Qed.

#[export] Hint Resolve aligned_add aligned_PGSIZE aligned_mul : mach.

(** * Interrupt flag *)

Definition sie_on (h : hart) : bool := negb (Z.land (h SSTATUS) SSTATUS_SIE =? 0).

Lemma intr_get_spec h : intr_get h = Ok (if sie_on h then 1 else 0) h.
Proof.
  unfold intr_get, sie_on, bind, r_sstatus, csrr, gets, ret.
  by destruct (_ =? 0).
Qed.
