(* ===== verification/CString.v ===== *)
(** Byte memory and kernel/string.c.

    Memory is a map from addresses to bytes; a [char *] that is only read is
    the function giving the byte at each offset, so that the same definition
    serves strings in memory and strings in arrays.  The copying routines are
    the loops of string.c; the theorems give their effect on every byte of
    memory, whatever the overlap of source and destination. *)

From S2P Require Import Prelude.

(** * Memory *)

Definition mem : Type := Z -> Z.

Definition mupd (m : mem) (a v : Z) : mem := fun x => if x =? a then v else m x.

Lemma mupd_eq m a v : mupd m a v a = v.
Proof. unfold mupd. by rewrite Z.eqb_refl. Qed.
Lemma mupd_ne m a v x : x <> a -> mupd m a v x = m x.
Proof. intros. unfold mupd. by destruct (Z.eqb_spec x a). Qed.

Definition bytes_ok (m : mem) : Prop := forall a, is_u8 (m a).

(** Little-endian words of [w] bytes. *)
Fixpoint load_le (w : nat) (m : mem) (a : Z) : Z :=
  match w with
  | O => 0
  | S w' => m a + 256 * load_le w' m (a + 1)
  end.

Fixpoint store_le (w : nat) (m : mem) (a v : Z) : mem :=
  match w with
  | O => m
  | S w' => store_le w' (mupd m a (v mod 256)) (a + 1) (v / 256)
  end.

Definition load64 (m : mem) (a : Z) : Z := load_le 8 m a.
Definition store64 (m : mem) (a v : Z) : mem := store_le 8 m a v.

Lemma store_le_other w m a v x :
  ~ (a <= x < a + Z.of_nat w) -> store_le w m a v x = m x.
Proof.
  revert m a v. induction w as [|w IH]; intros m a v Hx; [done|]. simpl.
  rewrite IH by lia. apply mupd_ne. lia.
Qed.

Lemma load_le_ext w m m' a :
  (forall x, a <= x < a + Z.of_nat w -> m x = m' x) ->
  load_le w m a = load_le w m' a.
Proof.
  revert a. induction w as [|w IH]; intros a H; [done|]. simpl.
  rewrite (H a) by lia. rewrite (IH (a + 1)); [done|]. intros. apply H. lia.
Qed.

Lemma load_store_le w m a v :
  0 <= v < 256 ^ Z.of_nat w -> load_le w (store_le w m a v) a = v.
Proof.
  revert m a v. induction w as [|w IH]; intros m a v Hv.
  - simpl in *. lia.
  - simpl load_le. simpl store_le. rewrite store_le_other, mupd_eq by lia.
    rewrite IH.
    + pose proof (Z_div_mod_decomp v 256). lia.
    + rewrite Nat2Z.inj_succ, Z.pow_succ_r in Hv by lia.
      split; [apply Z.div_pos; lia|apply Z.div_lt_upper_bound; lia].
Qed.

Lemma load_le_range w m a :
  bytes_ok m -> 0 <= load_le w m a < 256 ^ Z.of_nat w.
Proof.
  intros Hm. revert a. induction w as [|w IH]; intros a; simpl load_le; [simpl; lia|].
  rewrite Nat2Z.inj_succ, Z.pow_succ_r by lia.
  specialize (IH (a + 1)). specialize (Hm a). unfold is_u8 in Hm. lia.
Qed.

Lemma store_le_bytes_ok w m a v : bytes_ok m -> bytes_ok (store_le w m a v).
Proof.
  revert m a v. induction w as [|w IH]; intros m a v Hm; [done|]. simpl.
  apply IH. intros x. unfold mupd. destruct (_ =? _); [|done].
  apply (u8_range v).
Qed.

Lemma load64_store64 m a v : is_u64 v -> load64 (store64 m a v) a = v.
Proof. intros. apply load_store_le. unfold is_u64 in *. lia. Qed.

Lemma store64_other m a v x : ~ (a <= x < a + 8) -> store64 m a v x = m x.
Proof. intros. apply store_le_other. lia. Qed.

Lemma load64_ext m m' a :
  (forall x, a <= x < a + 8 -> m x = m' x) -> load64 m a = load64 m' a.
Proof. intros H. apply load_le_ext. intros. apply H. lia. Qed.

Lemma load64_store64_ne m a v b :
  b + 8 <= a \/ a + 8 <= b -> load64 (store64 m a v) b = load64 m b.
Proof. intros H. apply load64_ext. intros. apply store64_other. lia. Qed.

(** * memset *)

Fixpoint memset_loop (k : nat) (i : Z) (dst c : Z) (m : mem) : mem :=
  match k with
  | O => m
  | S k' => memset_loop k' (i + 1) dst c (mupd m (dst + i) (u8 c))
  end.

(** for(i = 0; i < n; i++) cdst[i] = c; *)
Definition memset (dst c n : Z) (m : mem) : mem := memset_loop (Z.to_nat n) 0 dst c m.

Lemma memset_loop_spec k i dst c m x :
  0 <= i ->
  memset_loop k i dst c m x =
    if (dst + i <=? x) && (x <? dst + i + Z.of_nat k) then u8 c else m x.
Proof.
  revert i m. induction k as [|k IH]; intros i m Hi; simpl.
  - zcase; lia || done.
  - rewrite IH by lia. unfold mupd. repeat zcase; try done; lia.
Qed.

Lemma memset_spec dst c n m x :
  0 <= n ->
  memset dst c n m x = if (dst <=? x) && (x <? dst + n) then u8 c else m x.
Proof.
  intros. unfold memset. rewrite memset_loop_spec by lia.
  repeat zcase; done || lia.
Qed.

Lemma load_le_memset0 w dst n m a :
  0 <= n -> dst <= a -> a + Z.of_nat w <= dst + n ->
  load_le w (memset dst 0 n m) a = 0.
Proof.
  intros Hn. revert a. induction w as [|w IH]; intros a Ha Hw; [done|].
  simpl. rewrite memset_spec by lia. rewrite IH by lia. zcase; done || lia.
Qed.

(** * memcmp *)

Fixpoint memcmp_loop (k : nat) (s1 s2 : Z -> Z) (i : Z) : Z :=
  match k with
  | O => 0
  | S k' => if negb (s1 i =? s2 i) then s1 i - s2 i else memcmp_loop k' s1 s2 (i + 1)
  end.

Definition memcmp (s1 s2 : Z -> Z) (n : Z) : Z := memcmp_loop (Z.to_nat n) s1 s2 0.

(** * memmove *)

Fixpoint memmove_bwd (k : nat) (d s : Z) (m : mem) : mem :=
  match k with
  | O => m
  | S k' => memmove_bwd k' (d - 1) (s - 1) (mupd m (d - 1) (m (s - 1)))
  end.

Fixpoint memmove_fwd (k : nat) (d s : Z) (m : mem) : mem :=
  match k with
  | O => m
  | S k' => memmove_fwd k' (d + 1) (s + 1) (mupd m d (m s))
  end.

Definition memmove (dst src n : Z) (m : mem) : mem :=
  if n =? 0 then m
  else if (src <? dst) && (src + n >? dst)
       then memmove_bwd (Z.to_nat n) (dst + n) (src + n) m
       else memmove_fwd (Z.to_nat n) dst src m.

Lemma memmove_fwd_spec k d s m x :
  (d <= s \/ s + Z.of_nat k <= d) ->
  memmove_fwd k d s m x =
    if (d <=? x) && (x <? d + Z.of_nat k) then m (s + (x - d)) else m x.
Proof.
  revert d s m. induction k as [|k IH]; intros d s m Hov; simpl.
  - zcase; lia || done.
  - rewrite IH by lia. unfold mupd. repeat zcase; try lia; f_equal; lia.
Qed.

Lemma memmove_bwd_spec k d s m x :
  s <= d ->
  memmove_bwd k d s m x =
    if (d - Z.of_nat k <=? x) && (x <? d) then m (s + (x - d)) else m x.
Proof.
  revert d s m. induction k as [|k IH]; intros d s m Hov; simpl.
  - zcase; lia || done.
  - rewrite IH by lia. unfold mupd. repeat zcase; try lia; f_equal; lia.
Qed.

(** memmove() copies the bytes the source held before the call, for every
    overlap, and changes no other byte. *)
Lemma memmove_spec dst src n m x :
  0 <= n ->
  memmove dst src n m x =
    if (dst <=? x) && (x <? dst + n) then m (src + (x - dst)) else m x.
Proof.
  intros Hn. unfold memmove. destruct (Z.eqb_spec n 0) as [->|Hn0].
  { repeat zcase; done || lia. }
  rewrite Z.gtb_ltb. destruct (Z.ltb_spec src dst); simpl.
  - destruct (Z.ltb_spec dst (src + n)); simpl.
    + rewrite memmove_bwd_spec by lia. repeat zcase; try lia; f_equal; lia.
    + rewrite memmove_fwd_spec by lia. repeat zcase; try lia; f_equal; lia.
  - rewrite memmove_fwd_spec by lia. repeat zcase; try lia; f_equal; lia.
Qed.

Definition memcpy (dst src n : Z) (m : mem) : mem := memmove dst src n m.

(** * Strings *)

Fixpoint strncmp_loop (k : nat) (p q : Z -> Z) (i : Z) : Z :=
  match k with
  | O => 0
  | S k' => if negb (p i =? 0) && (p i =? q i) then strncmp_loop k' p q (i + 1)
            else u8 (p i) - u8 (q i)
  end.

Definition strncmp (p q : Z -> Z) (n : Z) : Z := strncmp_loop (Z.to_nat n) p q 0.

Fixpoint strncpy_pad (k : nat) (s : Z) (m : mem) : mem :=
  match k with
  | O => m
  | S k' => strncpy_pad k' (s + 1) (mupd m s 0)
  end.

Fixpoint strncpy_loop (k : nat) (s t : Z) (m : mem) : mem :=
  match k with
  | O => m
  | S k' => let c := m t in
            let m' := mupd m s c in
            if negb (c =? 0) then strncpy_loop k' (s + 1) (t + 1) m'
            else strncpy_pad k' (s + 1) m'
  end.

Definition strncpy (s t n : Z) (m : mem) : mem := strncpy_loop (Z.to_nat n) s t m.

(** The loop of safestrcpy() copies at most [n - 1] bytes and stops after a
    NUL; the result is the position of the terminator it then stores. *)
Fixpoint safestrcpy_loop (k : nat) (s t : Z) (m : mem) : Z * mem :=
  match k with
  | O => (s, m)
  | S k' => let c := m t in
            let m' := mupd m s c in
            if negb (c =? 0) then safestrcpy_loop k' (s + 1) (t + 1) m' else (s + 1, m')
  end.

Definition safestrcpy (s t n : Z) (m : mem) : mem :=
  if n <=? 0 then m
  else let '(s', m') := safestrcpy_loop (Z.to_nat (n - 1)) s t m in mupd m' s' 0.

(** strlen() walks to the first NUL; [fuel] bounds the walk. *)
Fixpoint strlen_loop (fuel : nat) (s : Z -> Z) (n : Z) : option Z :=
  match fuel with
  | O => None
  | S f => if s n =? 0 then Some n else strlen_loop f s (n + 1)
  end.

Definition strlen (fuel : nat) (s : Z -> Z) : option Z := strlen_loop fuel s 0.

(** ** The string an array of [k] bytes holds: its bytes before the first NUL *)

Fixpoint str_at (k : nat) (p : Z -> Z) (i : Z) : list Z :=
  match k with
  | O => []
  | S k' => if p i =? 0 then [] else p i :: str_at k' p (i + 1)
  end.

Definition cstr (n : Z) (p : Z -> Z) : list Z := str_at (Z.to_nat n) p 0.

Lemma strncmp_loop_zero k p q i :
  (forall j, is_u8 (p j)) -> (forall j, is_u8 (q j)) ->
  strncmp_loop k p q i = 0 <-> str_at k p i = str_at k q i.
Proof.
  intros Hp Hq. revert i. induction k as [|k IH]; intros i; [done|]. simpl.
  pose proof (Hp i). pose proof (Hq i). rewrite !u8_small by done.
  destruct (Z.eqb_spec (p i) 0) as [E|E]; simpl.
  - destruct (Z.eqb_spec (q i) 0); simpl; split; intros; try done; lia.
  - destruct (Z.eqb_spec (p i) (q i)) as [E'|E'].
    + rewrite <- E'. rewrite (proj2 (Z.eqb_neq _ _) E). rewrite IH.
      split; [by intros ->|by intros [= ->]].
    + destruct (Z.eqb_spec (q i) 0); split; intros Hx; try done; try lia.
      injection Hx; intros; lia.
Qed.

Lemma safestrcpy_loop_pos k s t m s' m' :
  safestrcpy_loop k s t m = (s', m') -> s <= s' <= s + Z.of_nat k.
Proof.
  revert s t m. induction k as [|k IH]; intros s t m; simpl; [intros [= <- <-]; lia|].
  destruct (negb _).
  - intros H. apply IH in H. lia.
  - intros [= <- <-]. lia.
Qed.

Lemma safestrcpy_loop_spec k s t m s' m' :
  (s + Z.of_nat k <= t \/ t + Z.of_nat k < s) ->
  safestrcpy_loop k s t m = (s', m') ->
  (forall x, ~ (s <= x < s + Z.of_nat k) -> m' x = m x) /\
  str_at (S k) (mupd m' s' 0) s = str_at k m t.
Proof.
  revert s t m. induction k as [|k IH]; intros s t m Hov Hrun.
  - simpl in *. injection Hrun as <- <-. split; [done|]. by rewrite mupd_eq.
  - simpl in Hrun. destruct (Z.eqb_spec (m t) 0) as [E|E]; simpl in Hrun.
    + injection Hrun as <- <-. split.
      * intros x Hx. apply mupd_ne. lia.
      * cbn [str_at]. rewrite mupd_ne, mupd_eq, E by lia. done.
    + pose proof (safestrcpy_loop_pos _ _ _ _ _ _ Hrun) as Hpos.
      apply IH in Hrun as [Hfr Hs]; [|lia]. split.
      * intros x Hx. rewrite Hfr by lia. apply mupd_ne. lia.
      * assert (Hhd : mupd m' s' 0 s = m t).
        { rewrite mupd_ne, Hfr, mupd_eq by lia. done. }
        change (str_at (S (S k)) (mupd m' s' 0) s) with
          (if mupd m' s' 0 s =? 0 then []
           else mupd m' s' 0 s :: str_at (S k) (mupd m' s' 0) (s + 1)).
        rewrite Hhd, Hs. simpl.
        rewrite (proj2 (Z.eqb_neq _ _) E). f_equal.
        clear -Hov. assert (Hne : forall x, t + 1 <= x < t + 1 + Z.of_nat k ->
                                       mupd m s (m t) x = m x).
        { intros. apply mupd_ne. lia. }
        revert Hne. generalize (t + 1). induction k as [|k IH']; intros u Hne; [done|].
        simpl. rewrite Hne by lia. destruct (_ =? 0); [done|]. f_equal.
        apply IH'; [lia|]. intros. apply Hne. lia.
Qed.

Lemma strlen_loop_spec fuel s n r :
  strlen_loop fuel s n = Some r <->
  n <= r < n + Z.of_nat fuel /\ s r = 0 /\ forall j, n <= j < r -> s j <> 0.
Proof.
  revert n. induction fuel as [|f IH]; intros n; simpl.
  - split; [done|lia].
  - destruct (Z.eqb_spec (s n) 0) as [E|E].
    + split.
      * intros [= <-]. split; [lia|]. split; [done|lia].
      * intros (Hr & Hs & Hj). f_equal. destruct (decide (n = r)); [done|].
        exfalso. apply (Hj n); [lia|done].
    + rewrite IH. split.
      * intros (Hr & Hs & Hj). split; [lia|]. split; [done|]. intros j Hjr.
        destruct (decide (j = n)) as [->|]; [done|]. apply Hj. lia.
      * intros (Hr & Hs & Hj). split.
        { destruct (decide (r = n)) as [->|]; [done|lia]. }
        split; [done|]. intros. apply Hj. lia.
Qed.

#[global] Arguments load64 : simpl never.
#[global] Arguments store64 : simpl never.
#[global] Arguments memset : simpl never.
#[global] Arguments memmove : simpl never.
#[global] Arguments mupd : simpl never.
