(* ===== verification/Kalloc.v ===== *)
(** Physical page allocator: kernel/kalloc.c.

    The state is physical memory itself, the head of the free list and the
    allocator's lock.  The free list lives in the free pages ([struct run] is
    one 64-bit next pointer at the start of each free page), so kfree() and
    kalloc() are stores and loads in memory.  [kinv s l] says the list in
    memory is the list of pages [l]; the specifications give each operation's
    effect on [l] and on every byte of memory outside the page it handles. *)

From S2P Require Import Prelude Riscv CString.

(** Addresses the linker script and the assembly files define. *)
Class Image := {
  end_ : Z;        (** first address after the kernel (kernel.ld) *)
  etext : Z;       (** end of kernel text (kernel.ld) *)
  trampoline : Z;  (** trampoline.S *)
  end_bounds : KERNBASE <= end_ <= PHYSTOP;
  etext_bounds : KERNBASE < etext <= end_;
  etext_aligned : aligned etext;
  trampoline_bounds : KERNBASE <= trampoline < etext;
  trampoline_aligned : aligned trampoline;
}.

(** * State *)

Record kst : Type := mkKst {
  k_mem : mem;        (** physical memory *)
  k_freelist : Z;     (** kmem.freelist *)
  k_lock : bool;      (** kmem.lock *)
}.

Definition set_k_mem (m : mem) (s : kst) : kst := mkKst m (k_freelist s) (k_lock s).
Definition set_k_freelist (r : Z) (s : kst) : kst := mkKst (k_mem s) r (k_lock s).
Definition set_k_lock (b : bool) (s : kst) : kst := mkKst (k_mem s) (k_freelist s) b.

Definition kmem_lock : lens kst bool := mkLens k_lock set_k_lock.

Definition upd_mem (f : mem -> mem) : M kst unit :=
  modify (fun s => set_k_mem (f (k_mem s)) s).
Definition ld64 (a : Z) : M kst Z := gets (fun s => load64 (k_mem s) a).
Definition st64 (a v : Z) : M kst unit := upd_mem (fun m => store64 m a v).

#[export] Hint Unfold upd_mem ld64 st64 : kwp.

Section Kalloc.
Context `{Image}.

(** * Operations *)

Definition kfree (pa : Z) : M kst unit :=
  if negb (pa mod PGSIZE =? 0) || (pa <? end_) || (pa >=? PHYSTOP)
  then panic "kfree"
  else
    (* Fill with junk to catch dangling refs. *)
    upd_mem (memset pa 1 PGSIZE) ;;;
    acquire kmem_lock ;;;
    let! next := gets k_freelist in
    st64 pa next ;;;
    modify (set_k_freelist pa) ;;;
    release kmem_lock.

Definition kalloc : M kst Z :=
  acquire kmem_lock ;;;
  let! r := gets k_freelist in
  (if negb (r =? 0) then
     let! next := ld64 r in modify (set_k_freelist next)
   else ret tt) ;;;
  release kmem_lock ;;;
  (if negb (r =? 0) then upd_mem (memset r 5 PGSIZE) else ret tt) ;;;
  ret r.

Definition freerange (pa_start pa_end : Z) : M kst unit :=
  loop (S (Z.to_nat (pa_end - pa_start)))
    (fun p => if p + PGSIZE <=? pa_end
              then kfree p ;;; ret (inl (p + PGSIZE))
              else ret (inr tt))
    (PGROUNDUP pa_start).

Definition kinit : M kst unit :=
  modify (set_k_lock false) ;;;
  freerange end_ PHYSTOP.

(** * The free list in memory *)

Definition page_ok (pa : Z) : Prop := aligned pa /\ end_ <= pa < PHYSTOP.
Definition in_page (pa x : Z) : Prop := pa <= x < pa + PGSIZE.

Fixpoint is_freelist (m : mem) (r : Z) (l : list Z) : Prop :=
  match l with
  | [] => r = 0
  | x :: l' => r = x /\ is_freelist m (load64 m x) l'
  end.

Record kinv (s : kst) (l : list Z) : Prop := {
  kinv_list : is_freelist (k_mem s) (k_freelist s) l;
  kinv_nodup : NoDup l;
  kinv_pages : Forall page_ok l;
  kinv_lock : k_lock s = false;
  kinv_bytes : bytes_ok (k_mem s);
}.

Lemma page_ok_pos pa : page_ok pa -> 0 < pa /\ pa + PGSIZE <= PHYSTOP.
Proof.
  intros [Ha Hb]. pose proof end_bounds. unfold aligned, PHYSTOP, KERNBASE, PGSIZE in *.
  pose proof (Z_div_mod_decomp pa 4096). lia.
Qed.

Lemma aligned_lt_pages p q : aligned p -> aligned q -> p < q -> p + PGSIZE <= q.
Proof.
  unfold aligned, PGSIZE. intros Hp Hq Hlt.
  pose proof (Z_div_mod_decomp p 4096 ltac:(lia)).
  pose proof (Z_div_mod_decomp q 4096 ltac:(lia)). lia.
Qed.

Lemma pages_disjoint p q x :
  aligned p -> aligned q -> p <> q -> in_page p x -> ~ in_page q x.
Proof.
  unfold in_page. intros Hp Hq Hne Hx Hx'.
  destruct (Z.lt_total p q) as [Hlt|[?|Hlt]]; [|done|].
  - apply aligned_lt_pages in Hlt; [lia|done..].
  - apply aligned_lt_pages in Hlt; [lia|done..].
Qed.

Lemma is_freelist_ext m m' r l :
  (forall x y, x ∈ l -> in_page x y -> m' y = m y) ->
  is_freelist m r l -> is_freelist m' r l.
Proof.
  revert r. induction l as [|x l IH]; intros r Hext; simpl; [done|].
  intros [-> Hl]. split; [done|].
  rewrite (load64_ext m' m).
  - apply IH; [|done]. intros. eapply Hext; [|done]. by right.
  - intros y Hy. apply (Hext x); [by left|]. unfold in_page, PGSIZE. lia.
Qed.

(** A client that changes memory only outside the free pages keeps the
    allocator's invariant. *)
Lemma kinv_frame s s' l :
  kinv s l -> k_freelist s' = k_freelist s -> k_lock s' = k_lock s ->
  bytes_ok (k_mem s') ->
  (forall p y, p ∈ l -> in_page p y -> k_mem s' y = k_mem s y) ->
  kinv s' l.
Proof.
  intros [Hl Hn Hp Hk Hb] Hf Hlk Hb' Hext. split; try done.
  - rewrite Hf. by eapply is_freelist_ext.
  - by rewrite Hlk.
Qed.

Lemma memset_bytes_ok dst c n m : 0 <= n -> bytes_ok m -> bytes_ok (memset dst c n m).
Proof.
  intros Hn Hm x. rewrite memset_spec by done.
  destruct (_ && _); [apply u8_range|apply Hm].
Qed.

(** * Specifications *)

Lemma kfree_spec s l pa :
  kinv s l -> page_ok pa -> pa ∉ l ->
  wp (kfree pa) (fun _ s' =>
    kinv s' (pa :: l) /\
    (forall x, ~ in_page pa x -> k_mem s' x = k_mem s x)) s.
Proof.
  intros [Hl Hnd Hp Hk Hb] Hpa Hni. unfold kfree.
  destruct (page_ok_pos _ Hpa) as [Hpos Htop]. destruct Hpa as [Hal Hrng].
  unfold aligned in Hal. rewrite Hal. simpl.
  destruct (Z.ltb_spec pa end_); [lia|]. rewrite Z.geb_leb.
  destruct (Z.leb_spec PHYSTOP pa); [lia|]. cbn [orb].
  assert (Hnext : is_u64 (k_freelist s)).
  { destruct l as [|x l]; simpl in Hl; [unfold is_u64; lia|].
    destruct Hl as [-> _]. inversion_clear Hp as [|? ? Hx ?].
    apply page_ok_pos in Hx. destruct Hx. unfold is_u64, PHYSTOP, KERNBASE, PGSIZE in *. lia. }
  wp_steps. cbn. split.
  - split; cbn; try assumption; try reflexivity.
    + split; [done|]. rewrite load64_store64 by done.
      eapply is_freelist_ext; [|done]. intros p y Hpin Hy.
      assert (Hd : ~ in_page pa y).
      { eapply (pages_disjoint p); try done.
        - rewrite Forall_forall in Hp. by apply Hp.
        - intros ->. done. }
      unfold in_page, PGSIZE in Hd.
      rewrite store64_other by lia. rewrite memset_spec by (unfold PGSIZE; lia).
      zcase; unfold PGSIZE in *; lia || done.
    + by constructor.
    + constructor; [|done]. by split.
    + apply store_le_bytes_ok, memset_bytes_ok; [unfold PGSIZE; lia|done].
  - intros x Hx. unfold in_page, PGSIZE in Hx.
    rewrite store64_other by lia. rewrite memset_spec by (unfold PGSIZE; lia).
    zcase; unfold PGSIZE in *; lia || done.
Qed.

Lemma kalloc_spec s l :
  kinv s l ->
  wp kalloc (fun r s' =>
    match l with
    | [] => r = 0 /\ s' = s
    | x :: l' =>
        r = x /\ kinv s' l' /\
        (forall y, k_mem s' y = if (x <=? y) && (y <? x + PGSIZE) then 5 else k_mem s y)
    end) s.
Proof.
  intros [Hl Hnd Hp Hk Hb]. unfold kalloc.
  destruct s as [m f lk]; simpl in *. subst lk. wp_steps. cbn.
  destruct l as [|x l]; simpl in Hl.
  - subst f. simpl. wp_steps. done.
  - destruct Hl as [-> Hl]. inversion_clear Hp as [|? ? Hx Hp'].
    apply NoDup_cons in Hnd as [Hni Hnd].
    destruct (page_ok_pos _ Hx). destruct (Z.eqb_spec x 0); [lia|]. simpl.
    wp_steps. cbn. split; [done|].
    assert (Hm : forall y, memset x 5 PGSIZE m y =
                   if (x <=? y) && (y <? x + PGSIZE) then 5 else m y).
    { intros y. rewrite memset_spec by (unfold PGSIZE; lia). done. }
    split; [|exact Hm]. split; cbn; try assumption; try reflexivity.
    + eapply is_freelist_ext; [|done]. intros p y Hpin Hy. rewrite Hm.
      rewrite Forall_forall in Hp'.
      assert (Hd : ~ in_page x y).
      { eapply (pages_disjoint p); try done.
        - by apply Hp'.
        - by destruct Hx.
        - intros ->. done. }
      unfold in_page in Hd. zcase; lia || done.
    + apply memset_bytes_ok; [unfold PGSIZE; lia|done].
Qed.

(** Pages freerange(start, end) hands out, the last one first. *)
Definition range_pages (p0 : Z) (n : nat) : list Z :=
  rev (map (fun i => p0 + i * PGSIZE) (seqZ 0 (Z.of_nat n))).

Lemma range_pages_S p0 n : range_pages p0 (S n) = (p0 + Z.of_nat n * PGSIZE) :: range_pages p0 n.
Proof.
  unfold range_pages. rewrite seqZ_S.
  rewrite map_app, rev_app_distr. simpl. f_equal.
Qed.

Lemma elem_of_range_pages p0 n q :
  q ∈ range_pages p0 n <-> exists i, 0 <= i < Z.of_nat n /\ q = p0 + i * PGSIZE.
Proof.
  unfold range_pages.
  rewrite list_elem_of_In, <- in_rev, in_map_iff.
  split.
  - intros (i & <- & Hi). rewrite <- list_elem_of_In, elem_of_seqZ in Hi.
    exists i. split; [lia|done].
  - intros (i & Hi & ->). exists i. split; [done|].
    rewrite <- list_elem_of_In, elem_of_seqZ. lia.
Qed.

Lemma freerange_spec s pa_start pa_end :
  end_ <= pa_start -> pa_start + PGSIZE <= pa_end -> pa_end <= PHYSTOP ->
  kinv s [] ->
  wp (freerange pa_start pa_end) (fun _ s' =>
    kinv s' (range_pages (PGROUNDUP pa_start)
               (Z.to_nat ((pa_end - PGROUNDUP pa_start) / PGSIZE)))) s.
Proof.
  intros Hs Hse Htop Hinv. pose proof end_bounds as Hend.
  unfold PHYSTOP, KERNBASE, PGSIZE in *.
  destruct (PGROUNDUP_bounds pa_start) as [Hup Hal];
    [unfold PGSIZE; lia..|]. unfold PGSIZE in Hup.
  set (p0 := PGROUNDUP pa_start) in *.
  unfold freerange. fold p0.
  eapply wp_loop with
    (I := fun p s' => exists n, p = p0 + Z.of_nat n * 4096 /\ p < pa_end + 4096 /\
            (0 < Z.of_nat n -> p <= pa_end) /\ kinv s' (range_pages p0 n))
    (mu := fun p _ => Z.to_nat (pa_end - p)).
  - exists O. split; [lia|]. split; [lia|]. split; [lia|]. done.
  - lia.
  - intros p s' (n & -> & Hlt & Hle & Hk).
    unfold PGSIZE. zcase.
    + wp_steps. wp_use kfree_spec.
      * done.
      * split; [|unfold PHYSTOP, KERNBASE, PGSIZE in *; lia]. apply aligned_add; [done|apply aligned_mul].
      * intros Hin. apply elem_of_range_pages in Hin as (i & Hi & Heq).
        unfold PGSIZE in Heq. lia.
      * intros _ s'' [Hk' _]. wp_steps. split.
        -- exists (S n). rewrite range_pages_S. unfold PGSIZE in *.
           repeat split; try lia; apply Hk'.
        -- lia.
    + wp_steps.
      replace (Z.to_nat ((pa_end - p0) / 4096)) with n; [done|].
      assert (Hq : (pa_end - p0) / 4096 = Z.of_nat n).
      { symmetry. apply Z.div_unique with (pa_end - p0 - 4096 * Z.of_nat n); lia. }
      lia.
Qed.

(** * What clients see

    A client allocates pages, writes into the pages it owns and frees them.
    The contract is two sets of pages: the free ones, in the order they will
    be handed out, and the ones the client owns. *)

Inductive kop : Type :=
  | KAlloc
  | KFree (pa : Z)
  | KWrite (a v : Z).

Definition run_kop (o : kop) : M kst Z :=
  match o with
  | KAlloc => kalloc
  | KFree pa => kfree pa ;;; ret 0
  | KWrite a v => upd_mem (fun m => mupd m a v) ;;; ret 0
  end.

Fixpoint run_kops (os : list kop) : M kst (list Z) :=
  match os with
  | [] => ret []
  | o :: os' => let! r := run_kop o in let! rs := run_kops os' in ret (r :: rs)
  end.

Definition owns (owned : list Z) (a : Z) : bool :=
  existsb (fun p => (p <=? a) && (a <? p + PGSIZE)) owned.

(** [None] is a client that frees or writes what it does not own. *)
Definition spec_kop (o : kop) (free owned : list Z) : option (list Z * list Z * Z) :=
  match o with
  | KAlloc =>
      match free with
      | [] => Some ([], owned, 0)
      | x :: free' => Some (free', x :: owned, x)
      end
  | KFree pa =>
      if bool_decide (pa ∈ owned)
      then Some (pa :: free, filter (fun p => p <> pa) owned, 0) else None
  | KWrite a v =>
      if owns owned a && (0 <=? v) && (v <? 256) then Some (free, owned, 0) else None
  end.

Fixpoint spec_kops (os : list kop) (free owned : list Z)
  : option (list Z * list Z * list Z) :=
  match os with
  | [] => Some (free, owned, [])
  | o :: os' =>
      match spec_kop o free owned with
      | Some (free1, owned1, r) =>
          match spec_kops os' free1 owned1 with
          | Some (free2, owned2, rs) => Some (free2, owned2, r :: rs)
          | None => None
          end
      | None => None
      end
  end.

Record kclient (s : kst) (free owned : list Z) : Prop := {
  kc_inv : kinv s free;
  kc_nodup : NoDup (free ++ owned);
  kc_owned : Forall page_ok owned;
}.

Lemma kclient_alloc s free owned free' owned' r :
  kclient s free owned -> spec_kop KAlloc free owned = Some (free', owned', r) ->
  wp kalloc (fun r' s' => r' = r /\ kclient s' free' owned') s.
Proof.
  intros [HI HN HO] Hs. wp_use kalloc_spec; [done|]. intros r' s' Hr.
  destruct free as [|x free]; simpl in Hs; injection Hs as <- <- <-.
  - destruct Hr as [-> ->]. done.
  - destruct Hr as (-> & HI' & _). split; [done|]. split; [done| |].
    + rewrite <- Permutation_middle. exact HN.
    + constructor; [|done]. pose proof (kinv_pages _ _ HI) as Hp. by inv Hp.
Qed.

Lemma kclient_free s free owned pa :
  kclient s free owned -> pa ∈ owned ->
  wp (kfree pa) (fun _ s' => kclient s' (pa :: free) (filter (fun p => p <> pa) owned)) s.
Proof.
  intros [HI HN HO] Hin. apply NoDup_app in HN as (HNf & Hdis & HNo).
  rewrite Forall_forall in HO.
  wp_use kfree_spec; [done|by apply HO|by intros Hf; apply (Hdis pa)|].
  intros _ s' [HI' _]. split; [done| |].
  - simpl. constructor.
    + rewrite elem_of_app, list_elem_of_filter. intros [Hf|[? _]]; [by apply (Hdis pa)|done].
    + apply NoDup_app. split; [done|]. split; [|by apply NoDup_filter].
      intros y Hy. rewrite list_elem_of_filter. intros [_ Hy']. by apply (Hdis y).
  - apply Forall_forall. intros y. rewrite list_elem_of_filter. intros [_ Hy]. by apply HO.
Qed.

Lemma kclient_write s free owned a v :
  kclient s free owned -> owns owned a = true -> is_u8 v ->
  kclient (set_k_mem (mupd (k_mem s) a v) s) free owned.
Proof.
  intros [HI HN HO] Hown Hv. split; [|done|done].
  apply existsb_exists in Hown as (p & Hp & Hpa). apply list_elem_of_In in Hp.
  apply NoDup_app in HN as (_ & Hdis & _).
  pose proof (kinv_pages _ _ HI) as Hpg. rewrite Forall_forall in Hpg, HO.
  eapply kinv_frame; [exact HI|done|done|..].
  - intros x. cbn. unfold mupd. zcase; [done|]. apply HI.
  - intros q y Hq Hy. cbn. unfold mupd. destruct (Z.eqb_spec y a) as [->|]; [|done].
    exfalso. apply (pages_disjoint q p a); [by apply Hpg|by apply HO| |done|unfold in_page; lia].
    intros ->. by apply (Hdis p).
Qed.

Lemma kclient_step o s free owned free' owned' r :
  kclient s free owned -> spec_kop o free owned = Some (free', owned', r) ->
  wp (run_kop o) (fun r' s' => r' = r /\ kclient s' free' owned') s.
Proof.
  intros HC Hs. destruct o as [|pa|a v]; cbn [run_kop].
  - by eapply kclient_alloc.
  - cbn in Hs. case_bool_decide; [|done]. injection Hs as <- <- <-. wp_steps.
    wp_use kclient_free; [done|done|]. intros _ s' HC'. wp_steps. done.
  - cbn in Hs. destruct (owns owned a) eqn:Eo; [|done]. cbn in Hs.
    destruct (Z.leb_spec 0 v); [|done]. destruct (Z.ltb_spec v 256); [|done].
    injection Hs as <- <- <-. wp_steps. split; [done|].
    apply kclient_write; [done|done|]. unfold is_u8. lia.
Qed.

(** C1. The allocator refines its contract: for every sequence of
    allocations, frees and writes in which the client frees and writes only
    pages it owns, the code runs to completion without a panic, returns
    exactly what the contract returns (a page no one owns, or 0 when none is
    free), and no page is ever both free and owned, or owned twice. *)
Theorem kalloc_refines os : forall s free owned free' owned' rs,
  kclient s free owned -> spec_kops os free owned = Some (free', owned', rs) ->
  wp (run_kops os) (fun rs' s' => rs' = rs /\ kclient s' free' owned') s.
Proof.
  induction os as [|o os IH]; intros s free owned free' owned' rs HC Hs; cbn in Hs |- *.
  - injection Hs as <- <- <-. wp_steps. done.
  - destruct (spec_kop o free owned) as [[[free1 owned1] r]|] eqn:E1; [|done].
    destruct (spec_kops os free1 owned1) as [[[free2 owned2] rs2]|] eqn:E2; [|done].
    injection Hs as <- <- <-. wp_steps. eapply wp_mono; [by eapply kclient_step|].
    intros r' s1 [-> HC1]. wp_steps. eapply wp_mono; [by eapply IH|].
    intros rs' s2 [-> HC2]. wp_steps. done.
Qed.

(** After kinit() the free list holds every page between the end of the
    kernel and PHYSTOP, each once. *)
Theorem kinit_all_pages s :
  end_ + PGSIZE <= PHYSTOP -> bytes_ok (k_mem s) -> k_freelist s = 0 ->
  wp kinit (fun _ s' => exists l, kinv s' l /\ NoDup l /\
    forall pa, pa ∈ l <-> page_ok pa) s.
Proof.
  intros He Hb Hf. unfold kinit. wp_steps.
  eapply wp_mono; [apply freerange_spec; [lia|done|done|]; split; try done; constructor|].
  intros [] s' HK. eexists. split; [exact HK|]. split; [apply HK|]. intros pa.
  pose proof end_bounds as Hend. change PHYSTOP with 0x88000000 in *.
  change KERNBASE with 0x80000000 in *.
  destruct (PGROUNDUP_bounds end_) as [Hup Hal]; [unfold PGSIZE; lia..|].
  pose proof (Z_div_mod_decomp (0x88000000 - PGROUNDUP end_) 4096 ltac:(lia)).
  rewrite elem_of_range_pages. unfold page_ok, aligned, PGSIZE in *.
  pose proof (Z_div_mod_decomp pa 4096 ltac:(lia)).
  pose proof (Z_div_mod_decomp (PGROUNDUP end_) 4096 ltac:(lia)).
  change PHYSTOP with 0x88000000. split.
  - intros (i & Hi & ->). lia.
  - intros [Ha Hb']. exists ((pa - PGROUNDUP end_) / 4096).
    assert (E : pa - PGROUNDUP end_ = (pa / 4096 - PGROUNDUP end_ / 4096) * 4096) by lia.
    rewrite E, Z.div_mul by lia. lia.
Qed.
End Kalloc.

(** * A concrete kernel image *)

Program Definition demo_image : Image :=
  {| end_ := 0x80022000; etext := 0x80008000; trampoline := 0x80007000 |}.
Next Obligation. done. Qed.
Next Obligation. done. Qed.
Next Obligation. done. Qed.
Next Obligation. done. Qed.
Next Obligation. done. Qed.

#[local] Existing Instance demo_image.

Definition demo_page (i : Z) : Z := 0x80100000 + i * PGSIZE.

(** Two free pages linked in memory. *)
Definition demo_kst : kst :=
  mkKst (store64 (fun _ => 0) (demo_page 0) (demo_page 1)) (demo_page 0) false.

Lemma demo_kinv : kinv demo_kst [demo_page 0; demo_page 1].
Proof.
  split.
  - vm_compute. done.
  - by apply (bool_decide_unpack (NoDup [demo_page 0; demo_page 1])).
  - repeat constructor; done.
  - done.
  - by apply store_le_bytes_ok.
Qed.

Lemma kalloc_refines_witness :
  wp (run_kops [KAlloc; KWrite (demo_page 0 + 8) 7; KAlloc; KAlloc; KFree (demo_page 0); KAlloc])
     (fun rs' s' => rs' = [demo_page 0; 0; demo_page 1; 0; 0; demo_page 0] /\
        kclient s' [] [demo_page 0; demo_page 1]) demo_kst.
Proof.
  apply (kalloc_refines _ demo_kst [demo_page 0; demo_page 1] []).
  - split; [apply demo_kinv|rewrite app_nil_r; apply demo_kinv|constructor].
  - vm_compute. reflexivity.
Defined.

Lemma kinit_all_pages_witness :
  wp kinit (fun _ s' => exists l, kinv s' l /\ NoDup l /\ forall pa, pa ∈ l <-> page_ok pa)
     (mkKst (fun _ => 0) 0 true).
Proof. apply kinit_all_pages; done. Defined.
