(* ===== verification/Vm.v ===== *)
(** Page tables and user memory: kernel/vm.c (and proc_mapstacks of
    kernel/proc.c, which kvmmake() calls).

    The operations run on the allocator's state: page tables are pages of
    physical memory, a PTE is a 64-bit load or store.  A kernel buffer that is
    not a page of memory (a struct, a C string) is a list of bytes: copyout()
    takes the bytes to write, copyin() and copyinstr() return the bytes they
    have written to their destination together with the result code.  This
    file holds the definitions; [VmTree] and [VmSpec] hold the theory. *)

From S2P Require Import Prelude Riscv CString Kalloc.

(** memmove() from a kernel buffer into memory. *)
Fixpoint write_bytes (a : Z) (bs : list Z) (m : mem) : mem :=
  match bs with
  | [] => m
  | b :: bs' => write_bytes (a + 1) bs' (mupd m a b)
  end.

(** memmove() from memory into a kernel buffer. *)
Fixpoint read_bytes (n : nat) (a : Z) (m : mem) : list Z :=
  match n with
  | O => []
  | S n' => m a :: read_bytes n' (a + 1) m
  end.

Definition pte_valid (pte : Z) : bool := negb (Z.land pte PTE_V =? 0).

Section Vm.
Context `{Image}.

(** * walk *)

Fixpoint walk_loop (levels : list Z) (pagetable va : Z) (alloc : bool) : M kst (option Z) :=
  match levels with
  | [] => ret (Some pagetable)
  | level :: rest =>
      let pte := pagetable + 8 * PX level va in
      let! v := ld64 pte in
      if pte_valid v then walk_loop rest (PTE2PA v) va alloc
      else if negb alloc then ret None
      else
        let! p := kalloc in
        if p =? 0 then ret None
        else
          upd_mem (memset p 0 PGSIZE) ;;;
          st64 pte (Z.lor (PA2PTE p) PTE_V) ;;;
          walk_loop rest p va alloc
  end.

(** The address of the PTE for [va], or 0. *)
Definition walk (pagetable va : Z) (alloc : bool) : M kst Z :=
  if va >=? MAXVA then panic "walk"
  else
    let! r := walk_loop [2; 1] pagetable va alloc in
    match r with
    | None => ret 0
    | Some pt => ret (pt + 8 * PX 0 va)
    end.

Definition walkaddr (pagetable va : Z) : M kst Z :=
  if va >=? MAXVA then ret 0
  else
    let! pte := walk pagetable va false in
    if pte =? 0 then ret 0
    else
      let! v := ld64 pte in
      if Z.land v PTE_V =? 0 then ret 0
      else if Z.land v PTE_U =? 0 then ret 0
      else ret (PTE2PA v).

(** * mappages *)

Definition mappages (pagetable va size pa perm : Z) : M kst Z :=
  if size =? 0 then panic "mappages: size"
  else
    let a := PGROUNDDOWN va in
    let last := PGROUNDDOWN (u64 (va + size - 1)) in
    loop (S (Z.to_nat (u64 (last - a) / PGSIZE)))
      (fun '(a, pa) =>
         let! pte := walk pagetable a true in
         if pte =? 0 then ret (inr (-1))
         else
           let! v := ld64 pte in
           if pte_valid v then panic "mappages: remap"
           else
             st64 pte (Z.lor (Z.lor (PA2PTE pa) perm) PTE_V) ;;;
             if a =? last then ret (inr 0)
             else ret (inl (u64 (a + PGSIZE), u64 (pa + PGSIZE))))
      (a, pa).

Definition kvmmap (kpgtbl va pa sz perm : Z) : M kst unit :=
  let! r := mappages kpgtbl va sz pa perm in
  if negb (r =? 0) then panic "kvmmap" else ret tt.

(** * The kernel's page table *)

Definition proc_mapstacks (kpgtbl : Z) : M kst unit :=
  for_each (seqZ 0 NPROC) (fun p =>
    let! pa := kalloc in
    if pa =? 0 then panic "kalloc"
    else
      let va := KSTACK p in
      kvmmap kpgtbl va pa PGSIZE (Z.lor PTE_R PTE_W)).

Definition kvmmake : M kst Z :=
  let! kpgtbl := kalloc in
  upd_mem (memset kpgtbl 0 PGSIZE) ;;;
  (* uart registers *)
  kvmmap kpgtbl UART0 UART0 PGSIZE (Z.lor PTE_R PTE_W) ;;;
  (* virtio mmio disk interface *)
  kvmmap kpgtbl VIRTIO0 VIRTIO0 PGSIZE (Z.lor PTE_R PTE_W) ;;;
  (* PLIC *)
  kvmmap kpgtbl PLIC PLIC 0x400000 (Z.lor PTE_R PTE_W) ;;;
  (* kernel text, executable and read-only *)
  kvmmap kpgtbl KERNBASE KERNBASE (etext - KERNBASE) (Z.lor PTE_R PTE_X) ;;;
  (* kernel data and the physical RAM *)
  kvmmap kpgtbl etext etext (PHYSTOP - etext) (Z.lor PTE_R PTE_W) ;;;
  (* the trampoline, at the highest virtual address *)
  kvmmap kpgtbl TRAMPOLINE trampoline PGSIZE (Z.lor PTE_R PTE_X) ;;;
  proc_mapstacks kpgtbl ;;;
  ret kpgtbl.

(** * User page tables *)

Definition uvmunmap (pagetable va npages : Z) (do_free : bool) : M kst unit :=
  if negb (va mod PGSIZE =? 0) then panic "uvmunmap: not aligned"
  else
    loop (S (Z.to_nat npages))
      (fun a =>
         if a <? u64 (va + u64 (npages * PGSIZE)) then
           let! pte := walk pagetable a false in
           if pte =? 0 then panic "uvmunmap: walk"
           else
             let! v := ld64 pte in
             if Z.land v PTE_V =? 0 then panic "uvmunmap: not mapped"
             else if PTE_FLAGS v =? PTE_V then panic "uvmunmap: not a leaf"
             else
               (if do_free then kfree (PTE2PA v) else ret tt) ;;;
               st64 pte 0 ;;;
               ret (inl (u64 (a + PGSIZE)))
         else ret (inr tt))
      va.

Definition uvmcreate : M kst Z :=
  let! pagetable := kalloc in
  if pagetable =? 0 then ret 0
  else
    upd_mem (memset pagetable 0 PGSIZE) ;;;
    ret pagetable.

Definition uvmfirst (pagetable : Z) (src : list Z) : M kst unit :=
  if Z.of_nat (length src) >=? PGSIZE then panic "uvmfirst: more than a page"
  else
    let! mem := kalloc in
    upd_mem (memset mem 0 PGSIZE) ;;;
    let! _ := mappages pagetable 0 PGSIZE mem
                (Z.lor (Z.lor (Z.lor PTE_W PTE_R) PTE_X) PTE_U) in
    upd_mem (write_bytes mem src).

Definition uvmdealloc (pagetable oldsz newsz : Z) : M kst Z :=
  if newsz >=? oldsz then ret oldsz
  else
    (if PGROUNDUP newsz <? PGROUNDUP oldsz then
       let npages := i32 ((PGROUNDUP oldsz - PGROUNDUP newsz) / PGSIZE) in
       uvmunmap pagetable (PGROUNDUP newsz) (u64 npages) true
     else ret tt) ;;;
    ret newsz.

Definition uvmalloc (pagetable oldsz newsz xperm : Z) : M kst Z :=
  if newsz <? oldsz then ret oldsz
  else
    let oldsz := PGROUNDUP oldsz in
    loop (S (Z.to_nat (newsz - oldsz)))
      (fun a =>
         if a <? newsz then
           let! mem := kalloc in
           if mem =? 0 then
             let! _ := uvmdealloc pagetable a oldsz in
             ret (inr 0)
           else
             upd_mem (memset mem 0 PGSIZE) ;;;
             let! r := mappages pagetable a PGSIZE mem (Z.lor (Z.lor PTE_R PTE_U) xperm) in
             if negb (r =? 0) then
               kfree mem ;;;
               let! _ := uvmdealloc pagetable a oldsz in
               ret (inr 0)
             else ret (inl (u64 (a + PGSIZE)))
         else ret (inr newsz))
      oldsz.

(** [depth] bounds the recursion; a page table has three levels. *)
Fixpoint freewalk (depth : nat) (pagetable : Z) : M kst unit :=
  match depth with
  | O => fun _ => NoFuel
  | S d =>
      for_each (seqZ 0 512) (fun i =>
        let! pte := ld64 (pagetable + 8 * i) in
        if pte_valid pte && (Z.land pte (Z.lor (Z.lor PTE_R PTE_W) PTE_X) =? 0) then
          (* this PTE points to a lower-level page table. *)
          let child := PTE2PA pte in
          freewalk d child ;;;
          st64 (pagetable + 8 * i) 0
        else if pte_valid pte then panic "freewalk: leaf"
        else ret tt) ;;;
      kfree pagetable
  end.

Definition uvmfree (pagetable sz : Z) : M kst unit :=
  (if sz >? 0 then uvmunmap pagetable 0 (PGROUNDUP sz / PGSIZE) true else ret tt) ;;;
  freewalk 3 pagetable.

Definition uvmcopy (old new sz : Z) : M kst Z :=
  loop (S (Z.to_nat sz))
    (fun i =>
       if i <? sz then
         let! pte := walk old i false in
         if pte =? 0 then panic "uvmcopy: pte should exist"
         else
           let! v := ld64 pte in
           if Z.land v PTE_V =? 0 then panic "uvmcopy: page not present"
           else
             let pa := PTE2PA v in
             let flags := PTE_FLAGS v in
             let! mem := kalloc in
             if mem =? 0 then
               uvmunmap new 0 (i / PGSIZE) true ;;;
               ret (inr (-1))
             else
               upd_mem (memmove mem pa PGSIZE) ;;;
               let! r := mappages new i PGSIZE mem flags in
               if negb (r =? 0) then
                 kfree mem ;;;
                 uvmunmap new 0 (i / PGSIZE) true ;;;
                 ret (inr (-1))
               else ret (inl (u64 (i + PGSIZE)))
       else ret (inr 0))
    0.

Definition uvmclear (pagetable va : Z) : M kst unit :=
  let! pte := walk pagetable va false in
  if pte =? 0 then panic "uvmclear"
  else
    let! v := ld64 pte in
    st64 pte (Z.land v (Z.lnot PTE_U)).

(** * Copying between kernel and user memory *)

Definition copyout (pagetable dstva : Z) (src : list Z) : M kst Z :=
  loop (S (length src))
    (fun '(dstva, src) =>
       if 0 <? Z.of_nat (length src) then
         let va0 := PGROUNDDOWN dstva in
         let! pa0 := walkaddr pagetable va0 in
         if pa0 =? 0 then ret (inr (-1))
         else
           let n := PGSIZE - (dstva - va0) in
           let n := if n >? Z.of_nat (length src) then Z.of_nat (length src) else n in
           upd_mem (write_bytes (pa0 + (dstva - va0)) (take (Z.to_nat n) src)) ;;;
           ret (inl (u64 (va0 + PGSIZE), drop (Z.to_nat n) src))
       else ret (inr 0))
    (dstva, src).

(** Result code and the bytes written to the destination buffer. *)
Definition copyin (pagetable srcva len : Z) : M kst (Z * list Z) :=
  loop (S (Z.to_nat len))
    (fun '(srcva, len, dst) =>
       if 0 <? len then
         let va0 := PGROUNDDOWN srcva in
         let! pa0 := walkaddr pagetable va0 in
         if pa0 =? 0 then ret (inr (-1, dst))
         else
           let n := PGSIZE - (srcva - va0) in
           let n := if n >? len then len else n in
           let! bs := gets (fun s => read_bytes (Z.to_nat n) (pa0 + (srcva - va0)) (k_mem s)) in
           ret (inl (u64 (va0 + PGSIZE), len - n, dst ++ bs))
       else ret (inr (0, dst)))
    (srcva, len, []).

(** The inner loop of copyinstr() over one page: [n] bytes from [p]; returns
    whether a NUL was found, the remaining [max] and the bytes copied. *)
Fixpoint copyinstr_page (n : nat) (p max : Z) (dst : list Z) (m : mem) : bool * Z * list Z :=
  match n with
  | O => (false, max, dst)
  | S n' => if m p =? 0 then (true, max, dst ++ [0])
            else copyinstr_page n' (p + 1) (max - 1) (dst ++ [m p]) m
  end.

Definition copyinstr (pagetable srcva max : Z) : M kst (Z * list Z) :=
  loop (S (Z.to_nat max))
    (fun '(srcva, max, got_null, dst) =>
       if negb got_null && (0 <? max) then
         let va0 := PGROUNDDOWN srcva in
         let! pa0 := walkaddr pagetable va0 in
         if pa0 =? 0 then ret (inr (-1, dst))
         else
           let n := PGSIZE - (srcva - va0) in
           let n := if n >? max then max else n in
           let! r := gets (fun s => copyinstr_page (Z.to_nat n) (pa0 + (srcva - va0)) max dst (k_mem s)) in
           let '(got_null, max, dst) := r in
           ret (inl (u64 (va0 + PGSIZE), max, got_null, dst))
       else ret (inr (if got_null : bool then 0 else -1, dst)))
    (srcva, max, false, []).
End Vm.
