(* ===== verification/VmTree.v ===== *)
(** The shape of a page table in memory.

    [rep m root N] says that memory [m] holds at [root] an Sv39 page table
    whose page-table pages are the nodes [N]: a finite map from paths (lists of
    indices, the empty list for the root) to pages.  Interior entries are
    exactly the pointers to the children, entries without a child are invalid,
    and all nodes are distinct pages.  [pte_at m N va] is the leaf entry the
    table gives for [va] (0 when there is no leaf table). *)

From S2P Require Import Prelude Riscv CString Kalloc Vm.

Abbreviation tree := (gmap (list Z) Z).

Definition slot (p i : Z) : Z := p + 8 * i.
Definition node (N : tree) (p : Z) : Prop := exists k, N !! k = Some p.

Definition leaf_path (va : Z) : list Z := [PX 2 va; PX 1 va].

Definition pte_at (m : mem) (N : tree) (va : Z) : Z :=
  match N !! leaf_path va with
  | Some p => load64 m (slot p (PX 0 va))
  | None => 0
  end.

Section Tree.
Context `{Image}.

Record rep (m : mem) (root : Z) (N : tree) : Prop := {
  rep_root : N !! [] = Some root;
  rep_page : forall k p, N !! k = Some p -> page_ok p /\ (length k <= 2)%nat;
  rep_inj : forall k k' p, N !! k = Some p -> N !! k' = Some p -> k = k';
  rep_entry : forall k p i, N !! k = Some p -> (length k < 2)%nat -> 0 <= i < 512 ->
    match N !! (k ++ [i]) with
    | Some q => load64 m (slot p i) = Z.lor (PA2PTE q) PTE_V
    | None => pte_valid (load64 m (slot p i)) = false
    end;
  rep_parent : forall k i q, N !! (k ++ [i]) = Some q -> is_Some (N !! k) /\ 0 <= i < 512;
  (** only addresses below MAXVA are ever mapped *)
  rep_low : forall i r q, N !! (i :: r) = Some q -> i < 256;
}.

Lemma page_ok_bounds p : page_ok p -> aligned p /\ 0 < p < 2 ^ 56.
Proof.
  intros Hp. pose proof (page_ok_pos _ Hp) as Hq. destruct Hp as [? _]. split; [done|].
  unfold PHYSTOP, KERNBASE, PGSIZE in Hq. lia.
Qed.

Lemma pte_valid_ptr q : page_ok q -> pte_valid (Z.lor (PA2PTE q) PTE_V) = true.
Proof.
  intros Hq. unfold pte_valid. rewrite Z.land_lor_distr_l.
  change (Z.land PTE_V PTE_V) with 1. apply negb_true_iff, Z.eqb_neq.
  intros Hz. apply Z.lor_eq_0_iff in Hz. lia.
Qed.

Lemma PTE2PA_ptr q : page_ok q -> PTE2PA (Z.lor (PA2PTE q) PTE_V) = q.
Proof.
  intros Hq. destruct (page_ok_bounds _ Hq). apply PTE2PA_PA2PTE; [done|lia|].
  change PTE_V with 1. lia.
Qed.

Lemma lor_u64 a b : is_u64 a -> is_u64 b -> is_u64 (Z.lor a b).
Proof.
  unfold is_u64. intros Ha Hb. split; [apply Z.lor_nonneg; lia|].
  destruct (Z.eq_dec (Z.lor a b) 0) as [->|Hne]; [lia|].
  apply Z.log2_lt_pow2; [pose proof (proj2 (Z.lor_nonneg a b)); lia|].
  rewrite Z.log2_lor by lia. apply Z.max_lub_lt.
  - destruct (Z.eq_dec a 0) as [->|]; [simpl; lia|]. apply Z.log2_lt_pow2; lia.
  - destruct (Z.eq_dec b 0) as [->|]; [simpl; lia|]. apply Z.log2_lt_pow2; lia.
Qed.

Lemma PA2PTE_u64 pa : is_u64 (PA2PTE pa).
Proof. apply u64_range. Qed.

Lemma ptr_u64 q : is_u64 (Z.lor (PA2PTE q) PTE_V).
Proof. apply lor_u64; [apply PA2PTE_u64|]. unfold is_u64. change PTE_V with 1. lia. Qed.

(** ** Slots of distinct entries are disjoint words *)

Lemma slot_in_page p i x : 0 <= i < 512 -> slot p i <= x < slot p i + 8 -> in_page p x.
Proof. unfold slot, in_page, PGSIZE. lia. Qed.

Lemma slots_disjoint p p' i i' :
  aligned p -> aligned p' -> 0 <= i < 512 -> 0 <= i' < 512 ->
  p <> p' \/ i <> i' ->
  slot p i + 8 <= slot p' i' \/ slot p' i' + 8 <= slot p i.
Proof.
  intros Hp Hp' Hi Hi' Hne. unfold slot.
  destruct (Z.lt_total p p') as [Hlt|[->|Hlt]].
  - apply aligned_lt_pages in Hlt; [|done..]. unfold PGSIZE in *. lia.
  - lia.
  - apply aligned_lt_pages in Hlt; [|done..]. unfold PGSIZE in *. lia.
Qed.

Lemma load64_store64_slot m p p' i i' v :
  aligned p -> aligned p' -> 0 <= i < 512 -> 0 <= i' < 512 ->
  p <> p' \/ i <> i' ->
  load64 (store64 m (slot p i) v) (slot p' i') = load64 m (slot p' i').
Proof.
  intros. apply load64_store64_ne.
  destruct (slots_disjoint p p' i i'); try done; [by right|by left].
Qed.

Lemma load64_memset_slot m q c p i :
  aligned p -> aligned q -> p <> q -> 0 <= i < 512 ->
  load64 (memset q c PGSIZE m) (slot p i) = load64 m (slot p i).
Proof.
  intros Hp Hq Hne Hi. apply load64_ext. intros x Hx.
  apply slot_in_page in Hx; [|done].
  rewrite memset_spec by (unfold PGSIZE; lia).
  assert (~ in_page q x) by (by eapply (pages_disjoint p)).
  unfold in_page in *. zcase; lia || done.
Qed.

Lemma load64_memset0_slot m q i :
  0 <= i < 512 -> load64 (memset q 0 PGSIZE m) (slot q i) = 0.
Proof. intros Hi. apply load_le_memset0; unfold slot, PGSIZE; lia. Qed.

Section Rep.
Context (m : mem) (root : Z) (N : tree) (HR : rep m root N).

Lemma node_aligned k p : N !! k = Some p -> aligned p.
Proof using HR. intros Hk. by destruct (rep_page _ _ _ HR _ _ Hk) as [[? _] _]. Qed.

Lemma leaf_node_path va p : N !! leaf_path va = Some p -> aligned p.
Proof using HR. apply node_aligned. Qed.

(** ** Changes to memory that keep the tree *)

Lemma rep_frame m' :
  (forall k p i, N !! k = Some p -> 0 <= i < 512 ->
     load64 m' (slot p i) = load64 m (slot p i)) -> rep m' root N.
Proof using HR.
  intros Hext. split; try apply HR.
  intros k p i Hk Hlen Hi. pose proof (rep_entry _ _ _ HR _ _ _ Hk Hlen Hi).
  by rewrite (Hext k).
Qed.

Lemma rep_frame_bytes m' :
  (forall p x, node N p -> in_page p x -> m' x = m x) -> rep m' root N.
Proof using HR.
  intros Hext. apply rep_frame. intros k p i Hk Hi. apply load64_ext.
  intros x Hx. apply (Hext p); [by exists k|]. by eapply slot_in_page.
Qed.

Lemma pte_at_frame m' va :
  (forall p x, node N p -> in_page p x -> m' x = m x) ->
  pte_at m' N va = pte_at m N va.
Proof.
  intros Hext. unfold pte_at. destruct (N !! leaf_path va) as [p|] eqn:E; [|done].
  apply load64_ext. intros x Hx. apply (Hext p); [by eexists|].
  eapply slot_in_page; [apply PX_range|done].
Qed.

(** Writing a leaf entry. *)
Lemma rep_store_leaf k p i v :
  N !! k = Some p -> length k = 2%nat -> 0 <= i < 512 ->
  rep (store64 m (slot p i) v) root N.
Proof using HR.
  intros Hk Hlen Hi. split; try apply HR.
  intros k' p' i' Hk' Hlen' Hi'.
  pose proof (rep_entry _ _ _ HR _ _ _ Hk' Hlen' Hi') as He.
  rewrite load64_store64_slot; [done|by eapply node_aligned..|done|done|].
  left. intros ->. assert (k = k') by by eapply (rep_inj _ _ _ HR). subst. lia.
Qed.

Lemma pte_at_store_leaf va p v va' :
  N !! leaf_path va = Some p -> is_u64 v ->
  pte_at (store64 m (slot p (PX 0 va)) v) N va' =
    if decide (leaf_path va' = leaf_path va /\ PX 0 va' = PX 0 va) then v
    else pte_at m N va'.
Proof using HR.
  intros Hp Hv. unfold pte_at. case_decide as Hd.
  - destruct Hd as [-> ->]. rewrite Hp. by apply load64_store64.
  - destruct (N !! leaf_path va') as [p'|] eqn:E; [|done].
    apply load64_store64_slot; [by eapply leaf_node_path..|apply PX_range|apply PX_range|].
    destruct (decide (p = p')) as [->|]; [|by left]. right.
    intros Heq. apply Hd. split; [|done]. by eapply (rep_inj _ _ _ HR).
Qed.

(** Hooking a fresh zeroed page as a new page-table page. *)
Definition hook (p i q : Z) : mem :=
  store64 (memset q 0 PGSIZE m) (slot p i) (Z.lor (PA2PTE q) PTE_V).

Lemma hook_old k p i q k' p' i' :
  N !! k = Some p -> N !! k' = Some p' -> page_ok q -> ~ node N q ->
  0 <= i < 512 -> 0 <= i' < 512 -> (k, i) <> (k', i') ->
  load64 (hook p i q) (slot p' i') = load64 m (slot p' i').
Proof using HR.
  intros Hk Hk' [Hqa Hq] Hnq Hi Hi' Hne. unfold hook.
  rewrite load64_store64_slot; [|by eapply node_aligned..|done|done|].
  - apply load64_memset_slot; [by eapply node_aligned|done| |done].
    intros ->. apply Hnq. by exists k'.
  - destruct (decide (p = p')) as [->|]; [|by left]. right. intros ->. apply Hne.
    f_equal. by eapply (rep_inj _ _ _ HR).
Qed.

Lemma hook_new p i q i' :
  aligned p -> page_ok q -> p <> q -> 0 <= i < 512 -> 0 <= i' < 512 ->
  load64 (hook p i q) (slot q i') = 0.
Proof.
  intros Hp [Hqa Hq] Hne Hi Hi'. unfold hook.
  rewrite load64_store64_slot; [|done|done|done|done|by left].
  by apply load64_memset0_slot.
Qed.

Lemma rep_hook k p i q :
  N !! k = Some p -> (length k < 2)%nat -> 0 <= i < 512 ->
  N !! (k ++ [i]) = None -> page_ok q -> ~ node N q -> (k = [] -> i < 256) ->
  rep (hook p i q) root (<[k ++ [i] := q]> N).
Proof using HR.
  intros Hk Hlen Hi Hnone Hq Hnq Hlow.
  assert (Hpq : p <> q) by (intros ->; apply Hnq; by exists k).
  assert (Hchild : forall j, N !! ((k ++ [i]) ++ [j]) = None).
  { intros j. destruct (N !! ((k ++ [i]) ++ [j])) eqn:E; [|done].
    apply (rep_parent _ _ _ HR) in E as [[? ?] _]. congruence. }
  assert (Hne_app : forall j, (k ++ [i]) ++ [j] <> k ++ [i]).
  { intros j Hj. apply (f_equal length) in Hj. rewrite !length_app in Hj. simpl in Hj. lia. }
  split.
  - rewrite lookup_insert_ne; [apply HR|]. intros E. by destruct k.
  - intros k' p' Hk'. rewrite lookup_insert in Hk'. case_decide; [|by eapply (rep_page _ _ _ HR)].
    subst. injection Hk' as <-. split; [done|]. rewrite length_app. simpl. lia.
  - intros k1 k2 p' H1 H2. rewrite lookup_insert in H1, H2.
    repeat case_decide; simplify_eq; try done;
      [exfalso; apply Hnq; eexists; done..|by eapply (rep_inj _ _ _ HR)].
  - intros k' p' i' Hk' Hlen' Hi'. rewrite lookup_insert in Hk'. case_decide as Hd.
    + subst k'. injection Hk' as <-.
      rewrite lookup_insert_ne by (intros E; by eapply Hne_app).
      rewrite Hchild. rewrite hook_new; [done| |done..]. by eapply node_aligned.
    + rewrite lookup_insert. case_decide as Hd'.
      * apply app_inj_2 in Hd' as [-> [= ->]]; [|done].
        rewrite Hk in Hk'. injection Hk' as <-.
        unfold hook. apply load64_store64, ptr_u64.
      * pose proof (rep_entry _ _ _ HR _ _ _ Hk' Hlen' Hi') as He.
        rewrite (hook_old k p i q k' p' i'); try done. intros [= -> ->]. done.
  - intros k' j q' Hk'. rewrite lookup_insert in Hk'. case_decide as Hd.
    + apply app_inj_2 in Hd as [<- [= <-]]; [|done]. split; [|done].
      rewrite lookup_insert_ne; [by eexists|]. intros E.
      apply (f_equal length) in E. rewrite length_app in E. simpl in E. lia.
    + apply (rep_parent _ _ _ HR) in Hk' as [[p' Hp'] Hj]. split; [|done].
      rewrite lookup_insert. by case_decide.
  - intros j r q' Hk'. rewrite lookup_insert in Hk'. case_decide as Hd.
    + destruct k as [|j' k']; simpl in Hd.
      * injection Hd as <- _. by apply Hlow.
      * injection Hd as -> _. by eapply (rep_low _ _ _ HR).
    + by eapply (rep_low _ _ _ HR).
Qed.

Lemma pte_at_hook k p i q va :
  N !! k = Some p -> (length k < 2)%nat -> 0 <= i < 512 ->
  N !! (k ++ [i]) = None -> page_ok q -> ~ node N q ->
  pte_at (hook p i q) (<[k ++ [i] := q]> N) va = pte_at m N va.
Proof using HR.
  intros Hk Hlen Hi Hnone Hq Hnq. unfold pte_at.
  assert (Hpq : p <> q) by (intros ->; apply Hnq; by exists k).
  rewrite lookup_insert. case_decide as Hd.
  - rewrite <- Hd, Hnone. apply hook_new; [|done|done|done|apply PX_range].
    by eapply node_aligned.
  - destruct (N !! leaf_path va) as [p'|] eqn:E; [|done].
    eapply hook_old; try done; [apply PX_range|]. intros [= -> ?]. simpl in Hlen. lia.
Qed.
End Rep.
End Tree.
