(* ===== verification/VmWalk.v ===== *)
(** Specifications of walk(), walkaddr() and mappages() on well-formed page
    tables.

    [vmst s root N l]: the allocator's free list is [l], memory holds the page
    table [N] at [root], and no page-table page is free.  [grow] relates the
    state before and after an operation that may add page-table pages: they
    come from the front of the free list, the leaf entries are unchanged, and
    memory outside the page-table pages is unchanged. *)

From S2P Require Import Prelude Riscv CString Kalloc Vm VmTree.

Section Walk.
Context `{Image}.

Record vmst (s : kst) (root : Z) (N : tree) (l : list Z) : Prop := {
  vmst_k : kinv s l;
  vmst_rep : rep (k_mem s) root N;
  vmst_disj : forall p, node N p -> p ∉ l;
}.

Record grow (s : kst) (N : tree) (l : list Z) (s' : kst) (N' : tree) (l' : list Z)
    (used : list Z) : Prop := {
  grow_list : l = used ++ l';
  grow_sub : N ⊆ N';
  grow_nodes : forall p, node N' p <-> node N p \/ p ∈ used;
  grow_pte : forall va, pte_at (k_mem s') N' va = pte_at (k_mem s) N va;
  grow_frame : forall x, (forall p, node N' p -> ~ in_page p x) ->
                         k_mem s' x = k_mem s x;
}.

Lemma grow_refl s N l : grow s N l s N l [].
Proof. split; try done. intros p. split; [by left|]. intros [?|Hin]; [done|]. by apply elem_of_nil in Hin. Qed.

Lemma grow_trans s1 N1 l1 s2 N2 l2 s3 N3 l3 u1 u2 :
  grow s1 N1 l1 s2 N2 l2 u1 -> grow s2 N2 l2 s3 N3 l3 u2 ->
  grow s1 N1 l1 s3 N3 l3 (u1 ++ u2).
Proof.
  intros [El1 Hs1 Hn1 Hp1 Hf1] [El2 Hs2 Hn2 Hp2 Hf2]. split.
  - rewrite El1, El2. by rewrite app_assoc.
  - by etrans.
  - intros p. rewrite Hn2, Hn1, elem_of_app. tauto.
  - intros va. by rewrite Hp2, Hp1.
  - intros x Hx. rewrite Hf2 by done. apply Hf1. intros p Hp. apply Hx.
    apply Hn2. by left.
Qed.

(** ** Adding one page-table page *)

Lemma hook_step s root N l k p i :
  vmst s root N l -> N !! k = Some p -> (length k < 2)%nat -> 0 <= i < 512 ->
  N !! (k ++ [i]) = None -> (k = [] -> i < 256) ->
  wp kalloc (fun q s1 =>
    match l with
    | [] => q = 0 /\ s1 = s
    | x :: l' => q = x /\ x <> 0 /\
        let s2 := set_k_mem (hook (k_mem s1) p i q) s1 in
        let N2 := <[k ++ [i] := q]> N in
        vmst s2 root N2 l' /\ grow s N l s2 N2 l' [q]
    end) s.
Proof.
  intros [Hk HR Hd] Hkp Hlen Hi Hnone Hlow. wp_use kalloc_spec; [done|].
  intros q s1. destruct l as [|x l']; [done|]. intros (-> & Hk1 & Hm1).
  pose proof (kinv_pages _ _ Hk) as Hpg. inversion_clear Hpg as [|? ? Hx Hpg'].
  pose proof (kinv_nodup _ _ Hk) as Hnd. apply NoDup_cons in Hnd as [Hxl Hnd].
  assert (Hnx : ~ node N x).
  { intros Hn. apply (Hd _ Hn). by left. }
  assert (Hfr : forall p x0, node N p -> in_page p x0 -> k_mem s1 x0 = k_mem s x0).
  { intros p' y [k' Hk'] Hy. rewrite Hm1.
    assert (~ in_page x y).
    { eapply (pages_disjoint p'); try done; [by eapply node_aligned|by destruct Hx|].
      intros ->. apply Hnx. by exists k'. }
    unfold in_page in *. zcase; lia || done. }
  assert (HR1 : rep (k_mem s1) root N) by by eapply rep_frame_bytes.
  assert (Hnode : forall p', node (<[k ++ [i] := x]> N) p' <-> node N p' \/ p' = x).
  { intros p'. unfold node. split.
    - intros [k' Hk']. rewrite lookup_insert in Hk'. case_decide; simplify_eq; eauto.
    - intros [[k' Hk']| ->].
      + exists k'. rewrite lookup_insert_ne; [done|]. intros <-. congruence.
      + exists (k ++ [i]). apply lookup_insert_eq. }
  assert (Hhook : forall y, ~ in_page p y -> ~ in_page x y ->
            hook (k_mem s1) p i x y = k_mem s y).
  { intros y Hp Hy. unfold hook. rewrite store64_other.
    - rewrite memset_spec by (unfold PGSIZE; lia). rewrite Hm1.
      unfold in_page in *. repeat zcase; lia || done.
    - intros Hs. apply Hp. by eapply slot_in_page. }
  split; [done|]. split; [by apply page_ok_pos in Hx; lia|]. split.
  - split.
    + eapply kinv_frame; [exact Hk1|done|done| |].
      * apply store_le_bytes_ok, memset_bytes_ok; [unfold PGSIZE; lia|apply Hk1].
      * intros q y Hq Hy. simpl. rewrite Hhook.
        -- rewrite Hm1. assert (~ in_page x y).
           { eapply (pages_disjoint q); try done; [|by destruct Hx|congruence].
             rewrite Forall_forall in Hpg'. by apply Hpg'. }
           unfold in_page in *. zcase; lia || done.
        -- eapply (pages_disjoint q); try done; [|by eapply node_aligned|].
           ++ rewrite Forall_forall in Hpg'. by apply Hpg'.
           ++ intros ->. apply (Hd p); [by exists k|]. by right.
        -- eapply (pages_disjoint q); try done; [|by destruct Hx|congruence].
           rewrite Forall_forall in Hpg'. by apply Hpg'.
    + simpl. by apply rep_hook.
    + intros p' Hp' Hin. apply Hnode in Hp' as [Hp'|Hp'].
      * apply (Hd _ Hp'). by right.
      * by subst.
  - split; simpl.
    + done.
    + apply insert_subseteq. done.
    + intros p'. rewrite Hnode, list_elem_of_singleton. done.
    + intros va. erewrite pte_at_hook by done. by apply pte_at_frame.
    + intros y Hy. apply Hhook.
      * apply Hy, Hnode. left. by exists k.
      * apply Hy, Hnode. by right.
Qed.

(** ** walk *)

Definition path_of (levels : list Z) (va : Z) : list Z := map (fun lv => PX lv va) levels.

Lemma walk_loop_alloc levels va k p s root N l :
  vmst s root N l -> N !! k = Some p -> (length k + length levels = 2)%nat ->
  (forall lv rest, k = [] -> levels = lv :: rest -> PX lv va < 256) ->
  wp (walk_loop levels p va true) (fun r s' =>
    exists N' l' used, vmst s' root N' l' /\ grow s N l s' N' l' used /\
      (forall k', is_Some (N' !! k') -> is_Some (N !! k') \/ exists j, k' = k ++ path_of (take j levels) va) /\
      match r with
      | Some q => N' !! (k ++ path_of levels va) = Some q /\ (length used <= length levels)%nat
      | None => l' = [] /\ (length used < length levels)%nat
      end) s.
Proof.
  revert k p s N l. induction levels as [|lv rest IH]; intros k p s N l HV Hkp Hlen Hlow.
  - wp_steps. exists N, l, []. split; [done|]. split; [apply grow_refl|]. split; [by left|].
    simpl. rewrite app_nil_r. split; [done|lia].
  - cbn [walk_loop length path_of map] in *. wp_steps.
    pose proof (PX_range lv va) as Hi.
    change (p + 8 * PX lv va) with (slot p (PX lv va)).
    pose proof (rep_entry _ _ _ (vmst_rep _ _ _ _ HV) k p _ Hkp ltac:(lia) Hi) as He.
    destruct (N !! (k ++ [PX lv va])) as [q|] eqn:Eq.
    + destruct (rep_page _ _ _ (vmst_rep _ _ _ _ HV) _ _ Eq) as [Hq _].
      rewrite He, pte_valid_ptr, PTE2PA_ptr by done.
      eapply wp_mono; [eapply IH; [done|exact Eq|rewrite length_app; simpl; lia|
                                   intros ? ? Hnil; by destruct k]|].
      intros r s' (N' & l' & used & ? & ? & Hdom & Hr). exists N', l', used.
      split; [done|]. split; [done|]. split.
      { intros k' Hk'. destruct (Hdom k' Hk') as [?|[j ->]]; [by left|right]. exists (S j). by rewrite <- app_assoc. }
      rewrite <- app_assoc in Hr.
      destruct r; destruct Hr; split; try done; lia.
    + rewrite He. cbn [negb]. wp_steps. eapply wp_mono; [eapply hook_step; [done|done|lia|done|done|by intros; eapply Hlow]|].
      intros q s1 Hq. cbn beta. destruct l as [|x l'].
      * destruct Hq as [-> ->]. simpl. wp_steps. exists N, [], [].
        split; [done|]. split; [apply grow_refl|]. split; [by left|]. split; [done|simpl; lia].
      * destruct Hq as (-> & Hx0 & HV2 & HG). destruct (Z.eqb_spec x 0); [lia|].
        wp_steps. cbn [k_mem set_k_mem].
        change (store64 (memset x 0 PGSIZE (k_mem s1)) (slot p (PX lv va))
                  (Z.lor (PA2PTE x) PTE_V)) with (hook (k_mem s1) p (PX lv va) x).
        eapply wp_mono; [eapply IH; [exact HV2|apply lookup_insert_eq|rewrite length_app; simpl; lia|
                                     intros ? ? Hnil; by destruct k]|].
        intros r s' (N' & l2 & used & HV' & HG' & Hdom & Hr). exists N', l2, ([x] ++ used).
        split; [done|]. split; [by eapply grow_trans|]. split.
        { intros k' Hk'. destruct (Hdom k' Hk') as [Hs|[j ->]].
          - destruct (decide (k ++ [PX lv va] = k')) as [<-|Hne]; [right; by exists 1%nat|].
            rewrite lookup_insert_ne in Hs by done. by left.
          - right. exists (S j). by rewrite <- app_assoc. }
        rewrite <- app_assoc in Hr.
        destruct r; destruct Hr; split; try done; simpl; lia.
Qed.

(** The tables on the way to the entry of [va], below the root. *)
Definition on_path (va : Z) (k : list Z) : Prop := k = [PX 2 va] \/ k = leaf_path va.

Lemma walk_alloc_spec va s root N l :
  vmst s root N l -> 0 <= va < MAXVA ->
  wp (walk root va true) (fun r s' =>
    exists N' l' used, vmst s' root N' l' /\ grow s N l s' N' l' used /\
      (forall k, is_Some (N' !! k) -> is_Some (N !! k) \/ on_path va k) /\
      ((r = 0 /\ l' = [] /\ (length used < 2)%nat) \/
       (length used <= 2)%nat /\
       exists p, N' !! leaf_path va = Some p /\ r = slot p (PX 0 va) /\ r <> 0)) s.
Proof.
  intros HV Hva. unfold walk. rewrite Z.geb_leb. destruct (Z.leb_spec MAXVA va); [lia|].
  wp_steps. eapply wp_mono.
  { eapply (walk_loop_alloc [2; 1] va []); [done|apply (rep_root _ _ _ (vmst_rep _ _ _ _ HV))|done|].
    intros lv rest _ [= <- _]. by apply va_decompose. }
  intros r s' (N' & l' & used & HV' & HG & Hdom & Hr).
  assert (Hon : forall k, is_Some (N' !! k) -> is_Some (N !! k) \/ on_path va k).
  { intros k Hk. destruct (Hdom k Hk) as [?|[[|[|j]] ->]]; [by left| |right; by left|right; right; by destruct j].
    left. cbn. rewrite (rep_root _ _ _ (vmst_rep _ _ _ _ HV)). by eexists. }
  destruct r as [p|]; destruct Hr as [Hr Hlu]; wp_steps.
  - exists N', l', used. split; [done|]. split; [done|]. split; [done|]. right. split; [done|]. exists p.
    split; [exact Hr|]. split; [done|].
    destruct (rep_page _ _ _ (vmst_rep _ _ _ _ HV') _ _ Hr) as [Hp _].
    apply page_ok_pos in Hp. pose proof (PX_range 0 va). lia.
  - exists N', l', used. split; [done|]. split; [done|]. split; [done|]. by left.
Qed.

Lemma walk_loop_noalloc levels va k p s root N :
  rep (k_mem s) root N -> N !! k = Some p -> (length k + length levels = 2)%nat ->
  wp (walk_loop levels p va false) (fun r s' =>
    s' = s /\ r = N !! (k ++ path_of levels va)) s.
Proof.
  revert k p. induction levels as [|lv rest IH]; intros k p HR Hkp Hlen.
  - wp_steps. by rewrite app_nil_r.
  - cbn [walk_loop length path_of map] in *. wp_steps.
    pose proof (PX_range lv va) as Hi.
    change (p + 8 * PX lv va) with (slot p (PX lv va)).
    pose proof (rep_entry _ _ _ HR k p _ Hkp ltac:(lia) Hi) as He.
    destruct (N !! (k ++ [PX lv va])) as [q|] eqn:Eq.
    + destruct (rep_page _ _ _ HR _ _ Eq) as [Hq _].
      rewrite He, pte_valid_ptr, PTE2PA_ptr by done.
      eapply wp_mono; [eapply IH; [done|exact Eq|rewrite length_app; simpl; lia]|].
      intros r s' [-> ->]. split; [done|]. by rewrite <- app_assoc.
    + rewrite He. cbn [negb]. wp_steps. split; [done|].
      destruct (N !! (k ++ PX lv va :: path_of rest va)) as [q|] eqn:E; [|done].
      exfalso. destruct rest as [|lv' [|]]; simpl in *; [congruence| |lia].
      replace (k ++ [PX lv va; PX lv' va]) with ((k ++ [PX lv va]) ++ [PX lv' va]) in E
        by (by rewrite <- app_assoc).
      apply (rep_parent _ _ _ HR) in E as [[? ?] _]. congruence.
Qed.

(** walk(…, 0) finds the leaf slot the tree gives and changes nothing. *)
Definition slot_of (N : tree) (va : Z) : Z :=
  match N !! leaf_path va with Some p => slot p (PX 0 va) | None => 0 end.

Lemma walk_spec va s root N :
  rep (k_mem s) root N -> 0 <= va < MAXVA ->
  wp (walk root va false) (fun r s' => s' = s /\ r = slot_of N va) s.
Proof.
  intros HR Hva. unfold walk. rewrite Z.geb_leb. destruct (Z.leb_spec MAXVA va); [lia|].
  wp_steps. eapply wp_mono.
  { eapply (walk_loop_noalloc [2; 1] va []); [done|apply (rep_root _ _ _ HR)|done]. }
  intros r s' [-> ->]. unfold slot_of, leaf_path. simpl.
  by destruct (N !! [PX 2 va; PX 1 va]); wp_steps.
Qed.

Lemma slot_of_nonzero m root N va p :
  rep m root N -> N !! leaf_path va = Some p -> slot_of N va = slot p (PX 0 va) /\ slot_of N va <> 0.
Proof.
  intros HR Hp. unfold slot_of. rewrite Hp. split; [done|].
  destruct (rep_page _ _ _ HR _ _ Hp) as [Hpg _]. apply page_ok_pos in Hpg.
  pose proof (PX_range 0 va). unfold slot. lia.
Qed.

Lemma pte_at_slot m root N va :
  rep m root N -> slot_of N va <> 0 ->
  exists p, N !! leaf_path va = Some p /\ slot_of N va = slot p (PX 0 va) /\
            pte_at m N va = load64 m (slot_of N va).
Proof.
  intros HR Hs. unfold slot_of, pte_at in *.
  destruct (N !! leaf_path va) as [p|]; [|done]. by exists p.
Qed.

Lemma slot_of_zero_pte m root N va :
  rep m root N -> slot_of N va = 0 -> pte_at m N va = 0.
Proof.
  intros HR Hs. unfold pte_at. destruct (N !! leaf_path va) as [p|] eqn:E; [|done].
  by destruct (slot_of_nonzero _ _ _ _ _ HR E).
Qed.

(** The physical address of a user page: what walkaddr() returns. *)
Definition uaddr (pte : Z) : Z :=
  if Z.land pte PTE_V =? 0 then 0
  else if Z.land pte PTE_U =? 0 then 0 else PTE2PA pte.

Lemma walkaddr_spec va s root N :
  rep (k_mem s) root N -> 0 <= va ->
  wp (walkaddr root va) (fun r s' =>
    s' = s /\ r = if va <? MAXVA then uaddr (pte_at (k_mem s) N va) else 0) s.
Proof.
  intros HR Hva. unfold walkaddr. rewrite Z.geb_leb. destruct (Z.leb_spec MAXVA va).
  - wp_steps. split; [done|]. zcase; [lia|done].
  - wp_steps. eapply wp_mono; [apply walk_spec; [done|lia]|]. intros r s' [-> ->].
    destruct (Z.ltb_spec va MAXVA); [|lia].
    destruct (Z.eqb_spec (slot_of N va) 0) as [E|E].
    + wp_steps. split; [done|]. by rewrite (slot_of_zero_pte _ _ _ _ HR E).
    + destruct (pte_at_slot _ _ _ _ HR E) as (p & Hp & Hs & ->).
      wp_steps. unfold uaddr. do 2 (zcase; [wp_steps; done|]). by wp_steps.
Qed.
End Walk.
