(* ===== verification/VmMap.v ===== *)
(** Specifications of mappages() and uvmunmap(): what they do to the leaf
    entries, to the free list and to the rest of memory. *)

From S2P Require Import Prelude Riscv CString Kalloc Vm VmTree VmWalk.

Section Map.
Context `{Image}.

(** [extend]: page-table pages may have been added, taken from the front of
    the free list; nothing is said about the leaf entries. *)
Record extend (s : kst) (N : tree) (l : list Z) (s' : kst) (N' : tree) (l' : list Z)
    (used : list Z) : Prop := {
  ext_list : l = used ++ l';
  ext_sub : N ⊆ N';
  ext_nodes : forall p, node N' p <-> node N p \/ p ∈ used;
  ext_frame : forall x, (forall p, node N' p -> ~ in_page p x) ->
                        k_mem s' x = k_mem s x;
}.

Lemma grow_extend s N l s' N' l' used :
  grow s N l s' N' l' used -> extend s N l s' N' l' used.
Proof. intros []. by split. Qed.

Lemma extend_refl s N l : extend s N l s N l [].
Proof. apply grow_extend, grow_refl. Qed.

Lemma extend_trans s1 N1 l1 s2 N2 l2 s3 N3 l3 u1 u2 :
  extend s1 N1 l1 s2 N2 l2 u1 -> extend s2 N2 l2 s3 N3 l3 u2 ->
  extend s1 N1 l1 s3 N3 l3 (u1 ++ u2).
Proof.
  intros [El1 Hs1 Hn1 Hf1] [El2 Hs2 Hn2 Hf2]. split.
  - rewrite El1, El2. by rewrite app_assoc.
  - by etrans.
  - intros p. rewrite Hn2, Hn1, elem_of_app. tauto.
  - intros x Hx. rewrite Hf2 by done. apply Hf1. intros p Hp. apply Hx.
    apply Hn2. by left.
Qed.

Lemma leaf_path_inj va va' :
  0 <= va < MAXVA -> 0 <= va' < MAXVA -> aligned va -> aligned va' ->
  (leaf_path va' = leaf_path va /\ PX 0 va' = PX 0 va) <-> va' = va.
Proof.
  intros Hv Hv' Ha Ha'. split; [|by intros ->].
  intros [[= E2 E1] E0]. by apply PX_inj.
Qed.

(** Writing one leaf entry in place. *)
Lemma store_leaf s root N l va p v :
  vmst s root N l -> 0 <= va < MAXVA -> aligned va ->
  N !! leaf_path va = Some p -> is_u64 v ->
  let s' := set_k_mem (store64 (k_mem s) (slot p (PX 0 va)) v) s in
  vmst s' root N l /\ extend s N l s' N l [] /\
  (forall va', 0 <= va' < MAXVA -> aligned va' ->
     pte_at (k_mem s') N va' = if va' =? va then v else pte_at (k_mem s) N va').
Proof.
  intros [Hk HR Hd] Hva Hal Hp Hv s'.
  pose proof (PX_range 0 va) as Hi.
  assert (Hfr : forall x, ~ in_page p x -> k_mem s' x = k_mem s x).
  { intros x Hx. simpl. apply store64_other. intros Hs. apply Hx.
    by eapply slot_in_page. }
  assert (Hnp : node N p) by by eexists.
  split; [split|split].
  - eapply kinv_frame; [done|done|done| |].
    + apply store_le_bytes_ok, Hk.
    + intros q y Hq Hy. apply Hfr. eapply (pages_disjoint q); try done.
      * pose proof (kinv_pages _ _ Hk) as Hpg. rewrite Forall_forall in Hpg. by apply Hpg.
      * by eapply leaf_node_path.
      * intros ->. by apply (Hd p).
  - simpl. by eapply rep_store_leaf.
  - done.
  - split; [done|done| |].
    + intros q. split; [by left|]. intros [?|Hin]; [done|]. by apply elem_of_nil in Hin.
    + intros x Hx. apply Hfr. by apply Hx.
  - intros va' Hva' Hal'. simpl. erewrite pte_at_store_leaf by done.
    destruct (Z.eqb_spec va' va) as [->|Hne].
    + by rewrite decide_True.
    + rewrite decide_False; [done|]. by rewrite leaf_path_inj.
Qed.

(** * mappages *)

Definition mkpte (pa perm : Z) : Z := Z.lor (Z.lor (PA2PTE pa) perm) PTE_V.

Lemma mkpte_u64 pa perm : 0 <= perm < 2 ^ 10 -> is_u64 (mkpte pa perm).
Proof.
  intros. apply lor_u64; [apply lor_u64; [apply PA2PTE_u64|unfold is_u64; lia]|].
  unfold is_u64. change PTE_V with 1. lia.
Qed.

(** The pages [mappages va size] covers: from [map_first] up, [map_count] of them. *)
Definition map_first (va : Z) : Z := PGROUNDDOWN va.
Definition map_count (va size : Z) : Z :=
  (PGROUNDDOWN (va + size - 1) - PGROUNDDOWN va) / PGSIZE + 1.

Record mapped_upto (s : kst) (N : tree) (s' : kst) (N' : tree) (a0 j pa perm : Z) : Prop := {
  mu_pte : forall va', 0 <= va' < MAXVA -> aligned va' ->
    pte_at (k_mem s') N' va' =
      if (a0 <=? va') && (va' <? a0 + j * PGSIZE) then mkpte (pa + (va' - a0)) perm
      else pte_at (k_mem s) N va';
}.

Lemma aligned_between a va' :
  aligned a -> aligned va' -> a <= va' < a + PGSIZE -> va' = a.
Proof.
  intros Ha Hv Hb. destruct (Z.eq_dec va' a); [done|].
  assert (a < va') by lia. apply aligned_lt_pages in H0; [lia|done..].
Qed.

Lemma map_count_bounds va size :
  0 <= va -> 0 < size -> va + size <= MAXVA ->
  0 < map_count va size /\
  PGROUNDDOWN (va + size - 1) = map_first va + (map_count va size - 1) * PGSIZE /\
  map_first va + map_count va size * PGSIZE <= MAXVA.
Proof.
  intros Hva Hsz Hmax. unfold map_count, map_first.
  rewrite !PGROUNDDOWN_spec. unfold PGSIZE. change MAXVA with (4096 * 2 ^ 26) in *.
  replace (4096 * ((va + size - 1) / 4096) - 4096 * (va / 4096))
    with (((va + size - 1) / 4096 - va / 4096) * 4096) by lia.
  rewrite Z.div_mul by lia.
  pose proof (Z.div_le_mono va (va + size - 1) 4096 ltac:(lia) ltac:(lia)).
  pose proof (Z.div_lt_upper_bound (va + size - 1) 4096 (2 ^ 26) ltac:(lia) ltac:(lia)).
  lia.
Qed.

Lemma mappages_spec va size pa perm s root N l :
  vmst s root N l -> 0 <= va -> 0 < size -> va + size <= MAXVA ->
  0 <= pa -> pa + size + PGSIZE < 2 ^ 56 -> 0 <= perm < 2 ^ 10 ->
  (forall va', aligned va' ->
     map_first va <= va' < map_first va + map_count va size * PGSIZE ->
     pte_valid (pte_at (k_mem s) N va') = false) ->
  wp (mappages root va size pa perm) (fun r s' =>
    exists N' l' used j,
      vmst s' root N' l' /\ extend s N l s' N' l' used /\
      mapped_upto s N s' N' (map_first va) j pa perm /\
      (forall k, is_Some (N' !! k) -> is_Some (N !! k) \/ exists a, aligned a /\
         map_first va <= a < map_first va + map_count va size * PGSIZE /\ on_path a k) /\
      ((r = 0 /\ j = map_count va size /\ Z.of_nat (length used) <= 2 * map_count va size) \/
       (r = -1 /\ l' = [] /\ 0 <= j < map_count va size /\
        Z.of_nat (length used) < 2 * map_count va size))) s.
Proof.
  intros HV Hva Hsz Hmax Hpa Hpam Hperm Hfree. unfold mappages.
  destruct (Z.eqb_spec size 0) as [?|_]; [lia|].
  destruct (map_count_bounds va size Hva Hsz Hmax) as (Hn & Hlast & Hend).
  assert (Ha0 : aligned (map_first va) /\ 0 <= map_first va <= va).
  { unfold map_first. destruct (PGROUNDDOWN_bounds va) as [? ?]. split; [done|].
    rewrite PGROUNDDOWN_spec in *. unfold PGSIZE in *.
    pose proof (Z.div_pos va 4096). lia. }
  destruct Ha0 as [Hal0 Ha0].
  rewrite (u64_small (va + size - 1)) by (unfold is_u64; change MAXVA with (2 ^ 38) in Hmax; lia).
  rewrite Hlast. fold (map_first va).
  set (a0 := map_first va) in *. set (n := map_count va size) in *.
  replace (u64 (a0 + (n - 1) * PGSIZE - a0) / PGSIZE) with (n - 1).
  2:{ replace (a0 + (n - 1) * PGSIZE - a0) with ((n - 1) * PGSIZE) by lia.
      change MAXVA with (2 ^ 38) in *.
      rewrite u64_small by (unfold is_u64, PGSIZE in *; lia).
      symmetry. apply Z.div_mul. unfold PGSIZE. lia. }
  assert (Hnsz : (n - 1) * PGSIZE < size + PGSIZE).
  { destruct (PGROUNDDOWN_bounds va) as [? _].
    destruct (PGROUNDDOWN_bounds (va + size - 1)) as [? _].
    unfold a0, map_first in *. lia. }
  eapply wp_loop with
    (I := fun '(a, pa') s' => exists i N' l' used, 0 <= i < n /\
            a = a0 + i * PGSIZE /\ pa' = pa + i * PGSIZE /\
            vmst s' root N' l' /\ extend s N l s' N' l' used /\
            mapped_upto s N s' N' a0 i pa perm /\ Z.of_nat (length used) <= 2 * i /\
            forall k, is_Some (N' !! k) -> is_Some (N !! k) \/
              exists a, aligned a /\ a0 <= a < a0 + n * PGSIZE /\ on_path a k)
    (mu := fun '(a, _) _ => Z.to_nat (n - 1 - (a - a0) / PGSIZE)).
  - exists 0, N, l, []. split; [lia|]. split; [lia|]. split; [lia|]. split; [done|].
    split; [apply extend_refl|]. split; [|split; [simpl; lia|by left]]. split. intros va' ? ?. zcase; lia || done.
  - rewrite Z.sub_diag, Z.div_0_l by done. lia.
  - intros [a pa'] s' (i & N' & l' & used & Hi & -> & -> & HV' & HE & [Hpte] & Hlu & Hdom).
    assert (Hai : aligned (a0 + i * PGSIZE)) by (apply aligned_add; [done|apply aligned_mul]).
    assert (Hrng : 0 <= a0 + i * PGSIZE < MAXVA) by (unfold PGSIZE in *; lia).
    assert (Hap : 0 <= pa + i * PGSIZE < 2 ^ 56) by (unfold PGSIZE in *; lia).
    wp_steps. eapply wp_mono; [by apply walk_alloc_spec|].
    intros r s1 (N1 & l1 & u1 & HV1 & HG1 & Hdom1 & Hr). cbn beta.
    assert (Hdom' : forall k, is_Some (N1 !! k) -> is_Some (N !! k) \/
              exists a, aligned a /\ a0 <= a < a0 + n * PGSIZE /\ on_path a k).
    { intros k Hk. destruct (Hdom1 k Hk) as [Hk'|Hk']; [by apply Hdom|right].
      exists (a0 + i * PGSIZE). split; [done|]. split; [unfold PGSIZE; lia|done]. }
    pose proof (extend_trans _ _ _ _ _ _ _ _ _ _ _ HE (grow_extend _ _ _ _ _ _ _ HG1)) as HE1.
    destruct Hr as [(-> & -> & Hu1)|(Hu1 & p & Hp & -> & Hnz)].
    + simpl. wp_steps. exists N1, [], (used ++ u1), i. rewrite length_app.
      split; [done|]. split; [done|]. split; [|split; [done|right; repeat split; lia]].
      split. intros va' ? ?. rewrite (grow_pte _ _ _ _ _ _ _ HG1). by apply Hpte.
    + destruct (Z.eqb_spec (slot p (PX 0 (a0 + i * PGSIZE))) 0); [done|].
      wp_steps.
      assert (Hv : load64 (k_mem s1) (slot p (PX 0 (a0 + i * PGSIZE))) =
                   pte_at (k_mem s) N (a0 + i * PGSIZE)).
      { transitivity (pte_at (k_mem s1) N1 (a0 + i * PGSIZE)).
        - unfold pte_at. by rewrite Hp.
        - rewrite (grow_pte _ _ _ _ _ _ _ HG1), Hpte by done.
          zcase; unfold PGSIZE in *; lia || done. }
      rewrite Hv, Hfree by (try done; unfold PGSIZE in *; lia).
      wp_steps.
      destruct (store_leaf s1 root N1 l1 _ p (mkpte (pa + i * PGSIZE) perm) HV1 Hrng Hai Hp)
        as (HV2 & HE2 & Hpte2); [by apply mkpte_u64|].
      set (s2 := set_k_mem _ s1) in *.
      change (set_k_mem (store64 (k_mem s1) (slot p (PX 0 (a0 + i * PGSIZE)))
                (Z.lor (Z.lor (PA2PTE (pa + i * PGSIZE)) perm) PTE_V)) s1) with s2.
      pose proof (extend_trans _ _ _ _ _ _ _ _ _ _ _ HE1 HE2) as HE3.
      assert (Hmap : mapped_upto s N s2 N1 a0 (i + 1) pa perm).
      { split. intros va' Hva' Hal'. rewrite Hpte2 by done.
        destruct (Z.eqb_spec va' (a0 + i * PGSIZE)) as [->|Hne].
        - zcase; [|unfold PGSIZE in *; lia..]. f_equal; lia.
        - rewrite (grow_pte _ _ _ _ _ _ _ HG1), Hpte by done.
          destruct (Z.leb_spec a0 va'); simpl; [|done].
          destruct (Z.ltb_spec va' (a0 + i * PGSIZE)); destruct (Z.ltb_spec va' (a0 + (i + 1) * PGSIZE)); try done.
          + unfold PGSIZE in *; lia.
          + exfalso. apply Hne. apply aligned_between; [done|done|unfold PGSIZE in *; lia]. }
      destruct (Z.eqb_spec (a0 + i * PGSIZE) (a0 + (n - 1) * PGSIZE)) as [El|El].
      * wp_steps. exists N1, l1, ((used ++ u1) ++ []), (i + 1).
        split; [done|]. split; [done|]. split; [done|]. split; [done|]. left.
        rewrite !length_app. simpl. unfold PGSIZE in *. repeat split; lia.
      * wp_steps. change MAXVA with (2 ^ 38) in *.
        rewrite (u64_small (a0 + i * PGSIZE + PGSIZE)) by (unfold is_u64, PGSIZE in *; lia).
        rewrite (u64_small (pa + i * PGSIZE + PGSIZE)) by (unfold is_u64, PGSIZE in *; lia).
        split.
        -- exists (i + 1), N1, l1, ((used ++ u1) ++ []).
           split; [unfold PGSIZE in *; lia|]. split; [lia|]. split; [lia|]. do 3 (split; [done|]).
           split; [|done]. rewrite !length_app. simpl. lia.
        -- replace (a0 + i * PGSIZE + PGSIZE - a0) with ((i + 1) * PGSIZE) by lia.
           replace (a0 + i * PGSIZE - a0) with (i * PGSIZE) by lia.
           rewrite !Z.div_mul by done. unfold PGSIZE in *. lia.
Qed.

(** One page at an aligned address: the way the user-memory code calls it. *)
Lemma map_count_page va : aligned va -> map_first va = va /\ map_count va PGSIZE = 1.
Proof.
  intros Ha. unfold map_first, map_count. rewrite (PGROUNDDOWN_aligned va Ha).
  split; [done|]. rewrite PGROUNDDOWN_spec.
  replace ((va + PGSIZE - 1) / PGSIZE) with (va / PGSIZE).
  - unfold aligned in Ha. pose proof (Z_div_mod_decomp va PGSIZE). unfold PGSIZE in *.
    replace (4096 * (va / 4096) - va) with 0 by lia. done.
  - unfold aligned in Ha. pose proof (Z_div_mod_decomp va PGSIZE). unfold PGSIZE in *.
    apply Z.div_unique with 4095; lia.
Qed.

Lemma mappages_page va pa perm s root N l :
  vmst s root N l -> 0 <= va -> va + PGSIZE <= MAXVA -> aligned va ->
  0 <= pa -> pa < 2 ^ 55 -> 0 <= perm < 2 ^ 10 ->
  pte_valid (pte_at (k_mem s) N va) = false ->
  wp (mappages root va PGSIZE pa perm) (fun r s' =>
    exists N' l' used,
      vmst s' root N' l' /\ extend s N l s' N' l' used /\
      ((r = 0 /\ (length used <= 2)%nat /\ (forall va', 0 <= va' < MAXVA -> aligned va' ->
           pte_at (k_mem s') N' va' =
             if va' =? va then mkpte pa perm else pte_at (k_mem s) N va')) \/
       (r = -1 /\ l' = [] /\ (length used < 2)%nat /\ (forall va', 0 <= va' < MAXVA -> aligned va' ->
           pte_at (k_mem s') N' va' = pte_at (k_mem s) N va')))) s.
Proof.
  intros HV Hva Hmax Hal Hpa Hpam Hperm Hf.
  destruct (map_count_page va Hal) as [E1 E2].
  eapply wp_mono.
  { apply mappages_spec; try done; try (unfold PGSIZE; lia).
    rewrite E1, E2. intros va' Ha' Hr. rewrite (aligned_between va va'); done || lia. }
  intros r s' (N' & l' & used & j & HV' & HE & [Hp] & _ & Hr). exists N', l', used.
  split; [done|]. split; [done|]. rewrite E2 in Hr. rewrite E1 in Hp.
  destruct Hr as [(-> & -> & Hlu)|(-> & -> & Hj & Hlu)].
  - left. split; [done|]. split; [lia|]. intros va' Hv' Ha'. rewrite Hp by done.
    destruct (Z.eqb_spec va' va) as [->|Hne].
    + zcase; [|unfold PGSIZE in *; lia..]. f_equal; lia.
    + zcase; [|done..]. exfalso. apply Hne. apply aligned_between; done || lia.
  - right. replace j with 0 in * by lia. split; [done|]. split; [done|]. split; [lia|].
    intros va' Hv' Ha'. rewrite Hp by done. zcase; lia || done.
Qed.
End Map.
