(* ===== verification/VmUser.v ===== *)
(** User memory: uvmunmap(), uvmalloc(), uvmdealloc() on the address space of
    a process.

    [uvm s root N l sz] is the invariant of a process's user memory of size
    [sz]: every page below [sz] is mapped to its own physical page, which is
    neither free nor a page-table page, and nothing is mapped between [sz] and
    the trapframe. *)

From S2P Require Import Prelude Riscv CString Kalloc Vm VmTree VmWalk VmMap.

Section User.
Context `{Image}.

(** * The allocator under a live page table *)

Lemma kfree_vm s root N l pa :
  vmst s root N l -> page_ok pa -> pa ∉ l -> ~ node N pa ->
  wp (kfree pa) (fun _ s' =>
    vmst s' root N (pa :: l) /\
    (forall va, pte_at (k_mem s') N va = pte_at (k_mem s) N va) /\
    (forall x, ~ in_page pa x -> k_mem s' x = k_mem s x)) s.
Proof.
  intros [Hk HR Hd] Hpa Hni Hnn. wp_use kfree_spec; [done..|].
  intros _ s' [Hk' Hfr].
  assert (Hn : forall p x, node N p -> in_page p x -> k_mem s' x = k_mem s x).
  { intros p x Hp Hx. apply Hfr. eapply (pages_disjoint p); try done.
    - destruct Hp as [k Hk0]. by eapply node_aligned.
    - by destruct Hpa.
    - intros ->. done. }
  split; [split|split].
  - done.
  - by eapply rep_frame_bytes.
  - intros p Hp. apply not_elem_of_cons. split; [intros ->; done|by apply Hd].
  - intros va. by apply pte_at_frame.
  - done.
Qed.

Lemma kalloc_vm s root N l :
  vmst s root N l ->
  wp kalloc (fun r s' =>
    match l with
    | [] => r = 0 /\ s' = s
    | x :: l' =>
        r = x /\ x <> 0 /\ page_ok x /\ (~ node N x) /\ (x ∉ l') /\
        vmst s' root N l' /\
        (forall va, pte_at (k_mem s') N va = pte_at (k_mem s) N va) /\
        (forall y, ~ in_page x y -> k_mem s' y = k_mem s y)
    end) s.
Proof.
  intros [Hk HR Hd]. wp_use kalloc_spec; [done|]. intros r s'.
  destruct l as [|x l']; [done|]. intros (-> & Hk' & Hm).
  pose proof (kinv_pages _ _ Hk) as Hpg. inversion_clear Hpg as [|? ? Hx Hpg'].
  pose proof (kinv_nodup _ _ Hk) as Hnd. apply NoDup_cons in Hnd as [Hxl Hnd].
  assert (Hfr : forall y, ~ in_page x y -> k_mem s' y = k_mem s y).
  { intros y Hy. rewrite Hm. unfold in_page in Hy. zcase; lia || done. }
  assert (Hnx : ~ node N x) by (intros Hn; apply (Hd _ Hn); by left).
  assert (Hn : forall p y, node N p -> in_page p y -> k_mem s' y = k_mem s y).
  { intros p y Hp Hy. apply Hfr. eapply (pages_disjoint p); try done.
    - destruct Hp as [k Hk0]. by eapply node_aligned.
    - by destruct Hx.
    - intros ->. done. }
  split; [done|]. split; [apply page_ok_pos in Hx; lia|]. do 3 (split; [done|]).
  split; [split|split].
  - done.
  - by eapply rep_frame_bytes.
  - intros p Hp Hin. apply (Hd _ Hp). by right.
  - intros va. by apply pte_at_frame.
  - done.
Qed.

(** Writing inside a page that is neither free nor a page-table page. *)
Lemma vmst_write_page s root N l x m' :
  vmst s root N l -> page_ok x -> x ∉ l -> ~ node N x -> bytes_ok m' ->
  (forall y, ~ in_page x y -> m' y = k_mem s y) ->
  vmst (set_k_mem m' s) root N l /\
  (forall va, pte_at m' N va = pte_at (k_mem s) N va).
Proof.
  intros [Hk HR Hd] Hx Hxl Hxn Hb Hfr.
  assert (Hn : forall p y, node N p -> in_page p y -> m' y = k_mem s y).
  { intros p y Hp Hy. apply Hfr. eapply (pages_disjoint p); try done.
    - destruct Hp as [k Hk0]. by eapply node_aligned.
    - by destruct Hx.
    - intros ->. done. }
  split; [split|].
  - eapply kinv_frame; try done. intros p y Hp Hy. apply Hfr.
    eapply (pages_disjoint p); try done.
    + pose proof (kinv_pages _ _ Hk) as Hpg. rewrite Forall_forall in Hpg. by apply Hpg.
    + by destruct Hx.
    + intros ->. done.
  - by eapply rep_frame_bytes.
  - done.
  - intros va. by apply pte_at_frame.
Qed.

(** * uvmunmap *)

(** The physical pages mapped at the [n] pages from [va]. *)
Definition upages (m : mem) (N : tree) (va : Z) (n : Z) : list Z :=
  map (fun i => PTE2PA (pte_at m N (va + i * PGSIZE))) (seqZ 0 n).

Lemma upages_S m N va n :
  0 <= n -> upages m N va (n + 1) =
    upages m N va n ++ [PTE2PA (pte_at m N (va + n * PGSIZE))].
Proof.
  intros Hn. unfold upages.
  replace (n + 1) with (Z.of_nat (S (Z.to_nat n))) by lia.
  rewrite seqZ_S, map_app. simpl. rewrite Z2Nat.id by lia. done.
Qed.

Lemma elem_of_upages m N va n p :
  p ∈ upages m N va n <->
  exists i, 0 <= i < n /\ p = PTE2PA (pte_at m N (va + i * PGSIZE)).
Proof.
  unfold upages. rewrite list_elem_of_fmap. split.
  - intros (i & -> & Hi). apply elem_of_seqZ in Hi. exists i. split; [lia|done].
  - intros (i & Hi & ->). exists i. split; [done|]. apply elem_of_seqZ. lia.
Qed.

Lemma length_upages m N va n : length (upages m N va n) = Z.to_nat n.
Proof. unfold upages. rewrite length_map. apply length_seqZ. Qed.

Lemma upages_ext m m' N N' va n :
  (forall i, 0 <= i < n -> pte_at m' N' (va + i * PGSIZE) = pte_at m N (va + i * PGSIZE)) ->
  upages m' N' va n = upages m N va n.
Proof.
  intros Hext. unfold upages. apply map_ext_in. intros i Hi.
  apply list_elem_of_In, elem_of_seqZ in Hi. rewrite Hext; [done|lia].
Qed.

Definition leaf_ok (pte : Z) : Prop := pte_valid pte = true /\ PTE_FLAGS pte <> PTE_V.

Record unmappable (s : kst) (N : tree) (l : list Z) (va n : Z) (do_free : bool) : Prop := {
  um_leaf : forall i, 0 <= i < n -> leaf_ok (pte_at (k_mem s) N (va + i * PGSIZE));
  um_free : do_free = true ->
    NoDup (upages (k_mem s) N va n) /\
    (forall p, p ∈ upages (k_mem s) N va n -> page_ok p /\ (~ node N p) /\ p ∉ l);
}.

Lemma pte_valid_nz : pte_valid 0 = false.
Proof. done. Qed.

Lemma uvmunmap_spec s root N l va n do_free :
  vmst s root N l -> aligned va -> 0 <= va -> 0 <= n -> va + n * PGSIZE <= MAXVA ->
  unmappable s N l va n do_free ->
  wp (uvmunmap root va n do_free) (fun _ s' =>
    vmst s' root N (if do_free then rev (upages (k_mem s) N va n) ++ l else l) /\
    (forall va', 0 <= va' < MAXVA -> aligned va' ->
       pte_at (k_mem s') N va' =
         if (va <=? va') && (va' <? va + n * PGSIZE) then 0 else pte_at (k_mem s) N va') /\
    (forall x, (forall p, node N p -> ~ in_page p x) ->
       (do_free = true -> forall p, p ∈ upages (k_mem s) N va n -> ~ in_page p x) ->
       k_mem s' x = k_mem s x)) s.
Proof.
  intros HV Hal Hva Hn Hmax [Hleaf Hfree]. unfold uvmunmap.
  unfold aligned in Hal. rewrite Hal. cbn [negb Z.eqb]. fold (aligned va) in Hal.
  change MAXVA with (2 ^ 38) in *.
  rewrite (u64_small (n * PGSIZE)) by (unfold is_u64, PGSIZE in *; lia).
  rewrite (u64_small (va + n * PGSIZE)) by (unfold is_u64, PGSIZE in *; lia).
  set (ps := upages (k_mem s) N va).
  eapply wp_loop with
    (I := fun a s' => exists i, 0 <= i <= n /\ a = va + i * PGSIZE /\
            vmst s' root N (if do_free then rev (ps i) ++ l else l) /\
            (forall va', 0 <= va' < 2 ^ 38 -> aligned va' ->
               pte_at (k_mem s') N va' =
                 if (va <=? va') && (va' <? va + i * PGSIZE) then 0 else pte_at (k_mem s) N va') /\
            (forall x, (forall p, node N p -> ~ in_page p x) ->
               (do_free = true -> forall p, p ∈ ps i -> ~ in_page p x) ->
               k_mem s' x = k_mem s x))
    (mu := fun a _ => Z.to_nat (n - (a - va) / PGSIZE)).
  - exists 0. split; [lia|]. split; [lia|]. split; [|split].
    + by destruct do_free.
    + intros va' ? ?. zcase; lia || done.
    + done.
  - rewrite Z.sub_diag, Z.div_0_l by done. lia.
  - intros a s' (i & Hi & -> & HV' & Hpte & Hfr).
    destruct (Z.ltb_spec (va + i * PGSIZE) (va + n * PGSIZE)) as [Hlt|Hge].
    2:{ wp_steps. assert (i = n) as -> by (unfold PGSIZE in *; lia). done. }
    assert (Hin : 0 <= i < n) by (unfold PGSIZE in *; lia).
    assert (Hai : aligned (va + i * PGSIZE)) by (apply aligned_add; [done|apply aligned_mul]).
    assert (Hr : 0 <= va + i * PGSIZE < MAXVA)
      by (change MAXVA with (2 ^ 38); unfold PGSIZE in *; lia).
    assert (Hpi : pte_at (k_mem s') N (va + i * PGSIZE) = pte_at (k_mem s) N (va + i * PGSIZE)).
    { rewrite Hpte by done. zcase; unfold PGSIZE in *; lia || done. }
    destruct (Hleaf i Hin) as [Hv Hfl].
    pose proof (vmst_rep _ _ _ _ HV') as HR'.
    wp_steps. eapply wp_mono; [by apply walk_spec|]. intros r s1 [-> ->].
    destruct (Z.eqb_spec (slot_of N (va + i * PGSIZE)) 0) as [E|E].
    { exfalso. rewrite <- Hpi, (slot_of_zero_pte _ _ _ _ HR' E) in Hv. done. }
    destruct (pte_at_slot _ _ _ _ HR' E) as (p & Hp & Hs & Hld).
    wp_steps. rewrite <- Hld, Hpi.
    unfold pte_valid in Hv. destruct (Z.eqb_spec (Z.land (pte_at (k_mem s) N (va + i * PGSIZE)) PTE_V) 0); [done|].
    destruct (Z.eqb_spec (PTE_FLAGS (pte_at (k_mem s) N (va + i * PGSIZE))) PTE_V); [done|].
    set (pa := PTE2PA (pte_at (k_mem s) N (va + i * PGSIZE))).
    wp_steps.
    eapply wp_mono with (Q := fun _ s2 =>
      vmst s2 root N (if do_free then pa :: (rev (ps i) ++ l) else l) /\
      (forall va', pte_at (k_mem s2) N va' = pte_at (k_mem s') N va') /\
      (forall x, (do_free = true -> ~ in_page pa x) -> k_mem s2 x = k_mem s' x)).
    { destruct do_free; [|wp_steps; done].
      destruct (Hfree eq_refl) as [Hnd Hpg].
      assert (Hpa : pa ∈ ps n).
      { apply elem_of_upages. by exists i. }
      destruct (Hpg pa Hpa) as (Hok & Hnn & Hnl).
      eapply wp_mono; [apply kfree_vm; [done|done| |done]|].
      - rewrite elem_of_app, list_elem_of_In, <- in_rev, <- list_elem_of_In.
        intros [Hin'|Hin']; [|done]. apply elem_of_upages in Hin' as (j & Hj & Hj').
        assert (Hnth : forall u, 0 <= u < n ->
                  ps n !! Z.to_nat u = Some (PTE2PA (pte_at (k_mem s) N (va + u * PGSIZE)))).
        { intros u Hu. unfold ps, upages. rewrite list_lookup_fmap.
          rewrite lookup_seqZ_lt by lia. simpl. do 5 f_equal. lia. }
        assert (Z.to_nat i = Z.to_nat j); [|lia].
        eapply NoDup_lookup; [exact Hnd|by apply Hnth|].
        rewrite Hnth by lia. by rewrite <- Hj'.
      - intros _ s2 (HV2 & Hp2 & Hf2). split; [done|]. split; [done|].
        intros x Hx. apply Hf2. by apply Hx. }
    intros _ s2 (HV2 & Hp2 & Hf2). wp_steps. rewrite Hs.
    destruct (store_leaf s2 root N _ _ p 0 HV2 Hr Hai Hp) as (HV3 & HE3 & Hp3);
      [unfold is_u64; lia|].
    rewrite u64_small by (unfold is_u64, PGSIZE in *; lia).
    replace (va + i * PGSIZE + PGSIZE) with (va + (i + 1) * PGSIZE) by lia.
    split.
    + exists (i + 1). split; [lia|]. split; [done|]. split; [|split].
      * destruct do_free; [|done]. unfold ps. rewrite upages_S by lia.
        rewrite rev_app_distr. exact HV3.
      * intros va' Hv' Ha'. rewrite Hp3 by done.
        destruct (Z.eqb_spec va' (va + i * PGSIZE)) as [->|Hne].
        -- zcase; unfold PGSIZE in *; lia || done.
        -- rewrite Hp2, Hpte by done. destruct (Z.leb_spec va va'); simpl; [|done].
           destruct (Z.ltb_spec va' (va + i * PGSIZE)), (Z.ltb_spec va' (va + (i + 1) * PGSIZE));
             try done; [unfold PGSIZE in *; lia|].
           exfalso. apply Hne. apply aligned_between; [done|done|unfold PGSIZE in *; lia].
      * intros x Hx Hx'. rewrite (ext_frame _ _ _ _ _ _ _ HE3) by done.
        unfold ps in Hx'. rewrite upages_S in Hx' by lia.
        rewrite Hf2.
        -- apply Hfr; [done|]. intros Hdf q Hq. apply Hx'; [done|].
           apply elem_of_app. by left.
        -- intros Hdf. apply Hx'; [done|]. apply elem_of_app. right.
           by apply list_elem_of_singleton.
    + replace (va + (i + 1) * PGSIZE - va) with ((i + 1) * PGSIZE) by lia.
      replace (va + i * PGSIZE - va) with (i * PGSIZE) by lia.
      rewrite !Z.div_mul by done. lia.
Qed.

(** * The user memory of a process *)

Record uvm (s : kst) (root : Z) (N : tree) (l : list Z) (top : Z) : Prop := {
  uvm_vm : vmst s root N l;
  uvm_top : aligned top /\ 0 <= top <= TRAPFRAME;
  uvm_map : forall va, aligned va -> 0 <= va < top ->
    let pte := pte_at (k_mem s) N va in
    leaf_ok pte /\ page_ok (PTE2PA pte) /\ (~ node N (PTE2PA pte)) /\ (PTE2PA pte ∉ l);
  uvm_inj : forall va va', aligned va -> aligned va' -> 0 <= va < top -> 0 <= va' < top ->
    PTE2PA (pte_at (k_mem s) N va) = PTE2PA (pte_at (k_mem s) N va') -> va = va';
  uvm_none : forall va, aligned va -> top <= va < TRAPFRAME ->
    pte_valid (pte_at (k_mem s) N va) = false;
}.

(** The user pages below [top] keep their entries and their bytes. *)
Record same_user (s : kst) (N : tree) (s' : kst) (N' : tree) (top : Z) : Prop := {
  su_pte : forall va, aligned va -> 0 <= va < top ->
    pte_at (k_mem s') N' va = pte_at (k_mem s) N va;
  su_byte : forall va o, aligned va -> 0 <= va < top -> 0 <= o < PGSIZE ->
    k_mem s' (PTE2PA (pte_at (k_mem s) N va) + o) = k_mem s (PTE2PA (pte_at (k_mem s) N va) + o);
}.

Lemma same_user_refl s N top : same_user s N s N top.
Proof. by split. Qed.

Lemma same_user_trans s1 N1 s2 N2 s3 N3 top :
  same_user s1 N1 s2 N2 top -> same_user s2 N2 s3 N3 top -> same_user s1 N1 s3 N3 top.
Proof.
  intros [P1 B1] [P2 B2]. split.
  - intros. rewrite P2 by done. by apply P1.
  - intros va o Ha Hv Ho. rewrite <- B1 by done. rewrite <- P1 by done. by apply B2.
Qed.

Lemma same_user_mono s1 N1 s2 N2 top top' :
  top' <= top -> same_user s1 N1 s2 N2 top -> same_user s1 N1 s2 N2 top'.
Proof. intros Hle [P B]. split; intros; [apply P|apply B]; done || lia. Qed.

Lemma in_page_offset p o : 0 <= o < PGSIZE -> in_page p (p + o).
Proof. unfold in_page. lia. Qed.

Lemma mkpte_facts x perm :
  page_ok x -> 0 <= perm < 2 ^ 10 ->
  PTE2PA (mkpte x perm) = x /\ pte_valid (mkpte x perm) = true /\
  PTE_FLAGS (mkpte x perm) = Z.lor perm PTE_V.
Proof.
  intros Hx Hperm. destruct (page_ok_bounds _ Hx) as [Ha Hb]. unfold mkpte.
  rewrite <- !Z.lor_assoc.
  assert (Hlt : 0 <= Z.lor perm PTE_V < 2 ^ 10).
  { change PTE_V with 1. split; [apply Z.lor_nonneg; lia|].
    destruct (Z.eq_dec (Z.lor perm 1) 0) as [->|Hne]; [lia|].
    apply Z.log2_lt_pow2; [pose proof (proj2 (Z.lor_nonneg perm 1)); lia|].
    rewrite Z.log2_lor by lia. apply Z.max_lub_lt; [|simpl; lia].
    destruct (Z.eq_dec perm 0) as [->|]; [simpl; lia|]. apply Z.log2_lt_pow2; lia. }
  split; [apply PTE2PA_PA2PTE; done || lia|]. split.
  - unfold pte_valid. rewrite Z.lor_assoc, Z.land_lor_distr_l.
    change (Z.land PTE_V PTE_V) with 1. apply negb_true_iff, Z.eqb_neq.
    intros Hz. apply Z.lor_eq_0_iff in Hz. lia.
  - apply PTE_FLAGS_PA2PTE; done || lia.
Qed.

Lemma uvm_unmappable s root N l top o :
  uvm s root N l top -> aligned o -> 0 <= o <= top ->
  unmappable s N l o ((top - o) / PGSIZE) true /\ o + (top - o) / PGSIZE * PGSIZE = top.
Proof.
  intros HU Ho Hle. destruct (uvm_top _ _ _ _ _ HU) as [Htop Hrng].
  assert (Hn : o + (top - o) / PGSIZE * PGSIZE = top).
  { unfold aligned, PGSIZE in *.
    assert ((top - o) mod 4096 = 0) by (by rewrite Zminus_mod, Htop, Ho).
    pose proof (Z_div_mod_decomp (top - o) 4096 ltac:(lia)). lia. }
  assert (Hai : forall i, 0 <= i < (top - o) / PGSIZE ->
            aligned (o + i * PGSIZE) /\ 0 <= o + i * PGSIZE < top).
  { intros i Hi. split; [apply aligned_add; [done|apply aligned_mul]|].
    unfold PGSIZE in *. lia. }
  split; [|done]. split.
  - intros i Hi. destruct (Hai i Hi). by apply (uvm_map _ _ _ _ _ HU).
  - intros _. split.
    + unfold upages. apply NoDup_fmap_2_strong; [|apply NoDup_seqZ].
      intros i j Hi Hj E. apply elem_of_seqZ in Hi, Hj.
      destruct (Hai i ltac:(lia)), (Hai j ltac:(lia)).
      assert (o + i * PGSIZE = o + j * PGSIZE) by (eapply (uvm_inj _ _ _ _ _ HU); done).
      unfold PGSIZE in *. lia.
    + intros p Hp. apply elem_of_upages in Hp as (i & Hi & ->).
      destruct (Hai i Hi) as [Ha Hb]. by destruct (uvm_map _ _ _ _ _ HU _ Ha Hb).
Qed.

(** Unmapping (and freeing) the user pages from [o] up to the top. *)
Lemma uvm_shrink s root N l top o :
  uvm s root N l top -> aligned o -> 0 <= o <= top ->
  wp (uvmunmap root o ((top - o) / PGSIZE) true) (fun _ s' =>
    uvm s' root N (rev (upages (k_mem s) N o ((top - o) / PGSIZE)) ++ l) o /\
    same_user s N s' N o /\
    (forall va', 0 <= va' < MAXVA -> aligned va' -> ~ (o <= va' < top) ->
       pte_at (k_mem s') N va' = pte_at (k_mem s) N va') /\
    (forall x, (forall p, node N p -> ~ in_page p x) ->
       (forall p, p ∈ upages (k_mem s) N o ((top - o) / PGSIZE) -> ~ in_page p x) ->
       k_mem s' x = k_mem s x)) s.
Proof.
  intros HU Ho Hle. destruct (uvm_unmappable _ _ _ _ _ _ HU Ho Hle) as [Hum Hn].
  destruct (uvm_top _ _ _ _ _ HU) as [Htop Hrng].
  assert (Hmaxva : TRAPFRAME < MAXVA) by done.
  eapply wp_mono.
  { apply uvmunmap_spec; [apply HU|done|lia| |lia|done].
    apply Z.div_pos; [lia|done]. }
  set (n := (top - o) / PGSIZE) in *. rewrite Hn.
  intros _ s' (HV' & Hpte & Hfr).
  assert (Hsame : forall va, aligned va -> 0 <= va < o ->
            pte_at (k_mem s') N va = pte_at (k_mem s) N va).
  { intros va Ha Hv. rewrite Hpte by (try done; lia). zcase; lia || done. }
  split; [split|split; [split|split]].
  - done.
  - split; [done|lia].
  - intros va Ha Hv. rewrite Hsame by done.
    destruct (uvm_map _ _ _ _ _ HU va Ha ltac:(lia)) as (Hl & Hp & Hnn & Hnl).
    split; [done|]. split; [done|]. split; [done|].
    rewrite elem_of_app, list_elem_of_In, <- in_rev, <- list_elem_of_In.
    intros [Hin|Hin]; [|done]. apply elem_of_upages in Hin as (i & Hi & E).
    apply (uvm_inj _ _ _ _ _ HU) in E; [|done| |lia|].
    + unfold PGSIZE in *. lia.
    + apply aligned_add; [done|apply aligned_mul].
    + unfold PGSIZE in *. lia.
  - intros va va' Ha Ha' Hv Hv'. rewrite !Hsame by done.
    apply (uvm_inj _ _ _ _ _ HU); done || lia.
  - intros va Ha Hv. rewrite Hpte by (try done; lia). zcase; [done| |lia].
    apply (uvm_none _ _ _ _ _ HU); [done|lia].
  - done.
  - intros va o' Ha Hv Ho'. apply Hfr.
    + intros p Hp Hx.
      destruct (uvm_map _ _ _ _ _ HU va Ha ltac:(lia)) as (Hl & [Hpa Hpb] & Hnn & Hnl).
      eapply (pages_disjoint p (PTE2PA (pte_at (k_mem s) N va))); [|done| |exact Hx|by apply in_page_offset].
      * destruct Hp as [k Hk]. eapply node_aligned; [apply HU|done].
      * intros ->. done.
    + intros _ p Hp Hx. apply elem_of_upages in Hp as (i & Hi & ->).
      assert (Hai : aligned (o + i * PGSIZE)) by (apply aligned_add; [done|apply aligned_mul]).
      assert (Hbi : 0 <= o + i * PGSIZE < top) by (unfold PGSIZE in *; lia).
      destruct (uvm_map _ _ _ _ _ HU _ Hai Hbi) as (_ & [Hq _] & _).
      destruct (uvm_map _ _ _ _ _ HU va Ha ltac:(lia)) as (Hl & [Hpa Hpb] & Hnn & Hnl).
      eapply (pages_disjoint _ (PTE2PA (pte_at (k_mem s) N va)));
        [exact Hq|done| |exact Hx|by apply in_page_offset].
      intros E. apply (uvm_inj _ _ _ _ _ HU) in E; [|done..|lia].
      unfold PGSIZE in *. lia.
  - intros va' Hv Ha Hn'. rewrite Hpte by done. zcase; lia || done.
  - intros x Hx Hx'. by apply Hfr.
Qed.
End User.
