(* ===== verification/VmSpace.v ===== *)
(** One address space next to the free list, and what each step of the
    kernel does to it.

    A [view] is the state seen from one process: its page-table pages, the
    user pages below its top, the free list, and the pages the kernel holds in
    a local variable (allocated, not mapped yet).  [evolves] relates two views:
    user memory and the entries above it are kept, no page appears or is lost,
    and no byte outside the pages of the view changes.  The last two are what
    another process needs to know. *)

From S2P Require Import Prelude Riscv CString Kalloc Vm VmTree VmWalk VmMap VmUser.

Section Space.
Context `{Image}.

(** The entries above the user area (trapframe and trampoline) are kept. *)
Definition same_high (s : kst) (N : tree) (s' : kst) (N' : tree) : Prop :=
  forall va, aligned va -> TRAPFRAME <= va < MAXVA ->
    pte_at (k_mem s') N' va = pte_at (k_mem s) N va.

(** The physical pages below [top]. *)
Definition user_page (s : kst) (N : tree) (top q : Z) : Prop :=
  exists va, aligned va /\ 0 <= va < top /\ q = PTE2PA (pte_at (k_mem s) N va).

Record view : Type := mkView {
  v_st : kst;
  v_tree : tree;
  v_free : list Z;
  v_top : Z;
  v_held : list Z;
}.

(** The pages of the process: page tables and user memory. *)
Definition own (v : view) (q : Z) : Prop :=
  node (v_tree v) q \/ user_page (v_st v) (v_tree v) (v_top v) q.

(** All pages of the view. *)
Definition pages (v : view) (q : Z) : Prop := own v q \/ q ∈ v_free v \/ q ∈ v_held v.

Record vok (root : Z) (v : view) : Prop := {
  vo_uvm : uvm (v_st v) root (v_tree v) (v_free v) (v_top v);
  vo_held : forall x, x ∈ v_held v -> page_ok x /\ (x ∉ v_free v) /\ ~ own v x;
}.

Record evolves (keep : Z) (v v' : view) : Prop := {
  ev_user : same_user (v_st v) (v_tree v) (v_st v') (v_tree v') keep;
  ev_high : same_high (v_st v) (v_tree v) (v_st v') (v_tree v');
  ev_pages : forall q, pages v' q <-> pages v q;
  ev_frame : forall x, (forall q, pages v q -> ~ in_page q x) ->
    k_mem (v_st v') x = k_mem (v_st v) x;
}.

Lemma evolves_refl keep v : evolves keep v v.
Proof. by split; [apply same_user_refl|..]. Qed.

Lemma evolves_trans k1 k2 keep v1 v2 v3 :
  keep <= k1 -> keep <= k2 -> evolves k1 v1 v2 -> evolves k2 v2 v3 -> evolves keep v1 v3.
Proof.
  intros L1 L2 [U1 H1 P1 F1] [U2 H2 P2 F2]. split.
  - eapply same_user_trans; eapply same_user_mono; [exact L1|done|exact L2|done].
  - intros va Ha Hv. rewrite H2 by done. by apply H1.
  - intros q. by rewrite P2.
  - intros x Hx. rewrite F2 by (intros q Hq; by apply Hx, P1). by apply F1.
Qed.

(** * Facts about the pages of a view *)

Section Facts.
Context (root : Z) (v : view) (HV : vok root v).

Lemma own_page_aligned q : own v q -> aligned q.
Proof using HV.
  intros [[k Hk]|(va & Ha & Hv & ->)].
  - eapply node_aligned; [apply (vo_uvm _ _ HV)|done].
  - by destruct (uvm_map _ _ _ _ _ (vo_uvm _ _ HV) va Ha Hv) as (_ & [? _] & _).
Qed.

Lemma own_not_free q : own v q -> q ∉ v_free v.
Proof using HV.
  intros [Hn|(va & Ha & Hv & ->)].
  - by apply (vo_uvm _ _ HV).
  - by destruct (uvm_map _ _ _ _ _ (vo_uvm _ _ HV) va Ha Hv) as (_ & _ & _ & ?).
Qed.

Lemma user_not_node q : user_page (v_st v) (v_tree v) (v_top v) q -> ~ node (v_tree v) q.
Proof using HV.
  intros (va & Ha & Hv & ->).
  by destruct (uvm_map _ _ _ _ _ (vo_uvm _ _ HV) va Ha Hv) as (_ & _ & ? & _).
Qed.

Lemma free_page_ok q : q ∈ v_free v -> page_ok q.
Proof using HV.
  intros Hq. pose proof (kinv_pages _ _ (vmst_k _ _ _ _ (uvm_vm _ _ _ _ _ (vo_uvm _ _ HV)))) as Hp.
  rewrite Forall_forall in Hp. by apply Hp.
Qed.

Lemma user_page_intro va :
  aligned va -> 0 <= va < v_top v ->
  user_page (v_st v) (v_tree v) (v_top v) (PTE2PA (pte_at (k_mem (v_st v)) (v_tree v) va)).
Proof. intros Ha Hv. by exists va. Qed.

(** The memory of the process is kept by a change elsewhere. *)
Section Elsewhere.
Context (m' : mem).
Context (Hsame : forall q x, own v q -> in_page q x -> m' x = k_mem (v_st v) x).

Lemma elsewhere_rep : rep m' root (v_tree v).
Proof using HV Hsame.
  apply (rep_frame_bytes (k_mem (v_st v)) root); [apply (vo_uvm _ _ HV)|].
  intros p x Hp. apply Hsame. by left.
Qed.

Lemma elsewhere_pte va : pte_at m' (v_tree v) va = pte_at (k_mem (v_st v)) (v_tree v) va.
Proof using Hsame. apply pte_at_frame. intros p x Hp. apply Hsame. by left. Qed.
End Elsewhere.

(** A change of the free list and of memory outside the process. *)
Lemma view_elsewhere s' l' :
  kinv s' l' -> (forall q, own v q -> q ∉ l') ->
  (forall q x, own v q -> in_page q x -> k_mem s' x = k_mem (v_st v) x) ->
  uvm s' root (v_tree v) l' (v_top v) /\
  same_user (v_st v) (v_tree v) s' (v_tree v) (v_top v) /\
  same_high (v_st v) (v_tree v) s' (v_tree v) /\
  (forall q, user_page s' (v_tree v) (v_top v) q <->
             user_page (v_st v) (v_tree v) (v_top v) q).
Proof using HV.
  intros HK Hl Hsame. pose proof (vo_uvm _ _ HV) as HU.
  pose proof (elsewhere_pte _ Hsame) as Hp.
  split; [split|split; [split|split]].
  - split; [done|by apply elsewhere_rep|]. intros p Hn. apply Hl. by left.
  - apply HU.
  - intros va Ha Hv. rewrite Hp. destruct (uvm_map _ _ _ _ _ HU va Ha Hv) as (? & ? & ? & _).
    split; [done|]. split; [done|]. split; [done|]. apply Hl. right. by exists va.
  - intros va va' Ha Ha' Hv Hv'. rewrite !Hp. by apply HU.
  - intros va Ha Hv. rewrite Hp. by apply HU.
  - intros va Ha Hv. apply Hp.
  - intros va o Ha Hv Ho. eapply Hsame; [|by apply in_page_offset]. right. by exists va.
  - intros va Ha Hv. apply Hp.
  - intros q. unfold user_page. by setoid_rewrite Hp.
Qed.
End Facts.

(** * Steps *)

(** A change of memory inside a held page, and of the free list. *)
Lemma view_step root v s' l' h' :
  vok root v -> kinv s' l' ->
  (forall q, q ∈ l' \/ q ∈ h' <-> q ∈ v_free v \/ q ∈ v_held v) ->
  (forall q, q ∈ h' -> page_ok q /\ q ∉ l') ->
  (forall x, (forall q, q ∈ v_free v \/ q ∈ v_held v -> ~ in_page q x) -> k_mem s' x = k_mem (v_st v) x) ->
  let v' := mkView s' (v_tree v) l' (v_top v) h' in
  vok root v' /\ evolves (v_top v) v v'.
Proof.
  intros HV HK Hset Hh Hfr. cbn zeta.
  assert (Hown : forall q q', own v q -> q' ∈ v_free v \/ q' ∈ v_held v -> aligned q' /\ q <> q').
  { intros q q' Hq Hq'. split.
    - destruct Hq' as [Hq'|Hq']; [by apply (free_page_ok _ _ HV) in Hq' as [? _]|].
      by destruct (vo_held _ _ HV _ Hq') as ([? _] & _).
    - intros ->. destruct Hq' as [Hq'|Hq']; [by apply (own_not_free _ _ HV) in Hq|].
      by destruct (vo_held _ _ HV _ Hq') as (_ & _ & Hno). }
  destruct (view_elsewhere root v HV s' l') as (HU & HS & HH & HP).
  - done.
  - intros q Hq Hin. destruct (Hown q q Hq) as [_ ?]; [|done]. apply Hset. by left.
  - intros q x Hq Hx. apply Hfr. intros q' Hq'. destruct (Hown q q' Hq Hq') as [? ?].
    eapply (pages_disjoint q); [by eapply own_page_aligned|done..].
  - assert (Ho : forall q, own (mkView s' (v_tree v) l' (v_top v) h') q <-> own v q).
    { intros q. unfold own. cbn. by rewrite HP. }
    split; split; cbn; try done.
    + intros x Hx. destruct (Hh x Hx) as [? ?]. split; [done|]. split; [done|].
      rewrite Ho. intros Hq. destruct (Hown x x Hq) as [_ ?]; [|done]. apply Hset. by right.
    + intros q. unfold pages. cbn. rewrite Ho, <- Hset. done.
    + intros x Hx. apply Hfr. intros q Hq. apply Hx. by right.
Qed.

Lemma kalloc_view root s N l top :
  vok root (mkView s N l top []) ->
  wp kalloc (fun r s' =>
    match l with
    | [] => r = 0 /\ s' = s
    | x :: l' => r = x /\ x <> 0 /\
        vok root (mkView s' N l' top [x]) /\
        evolves top (mkView s N l top []) (mkView s' N l' top [x])
    end) s.
Proof.
  intros HV. pose proof (vmst_k _ _ _ _ (uvm_vm _ _ _ _ _ (vo_uvm _ _ HV))) as HK. cbn in HK.
  wp_use kalloc_spec; [done|]. intros r s'. destruct l as [|x l']; [done|].
  intros (-> & HK' & Hm). split; [done|].
  pose proof (kinv_nodup _ _ HK) as Hnd. apply NoDup_cons in Hnd as [Hxl _].
  assert (Hx : page_ok x) by (apply (free_page_ok _ _ HV); by left).
  split; [apply page_ok_pos in Hx; lia|].
  apply (view_step root (mkView s N (x :: l') top []) s' l' [x]); cbn; try done.
  - intros q. rewrite !elem_of_cons, !elem_of_nil. tauto.
  - intros q Hq. apply list_elem_of_singleton in Hq as ->. done.
  - intros y Hy. rewrite Hm. specialize (Hy x ltac:(left; by left)).
    unfold in_page in Hy. zcase; lia || done.
Qed.

Lemma kfree_view root s N l top x :
  vok root (mkView s N l top [x]) ->
  wp (kfree x) (fun _ s' =>
    vok root (mkView s' N (x :: l) top []) /\
    evolves top (mkView s N l top [x]) (mkView s' N (x :: l) top [])) s.
Proof.
  intros HV. destruct (vo_held _ _ HV x ltac:(by left)) as (Hx & Hxl & _). cbn in Hxl.
  wp_use kfree_spec; [apply HV|done|done|]. intros _ s' [HK' Hf].
  apply (view_step root (mkView s N l top [x]) s' (x :: l) []); cbn; try done.
  - intros q. rewrite !elem_of_cons, !elem_of_nil. tauto.
  - intros q Hq. by apply elem_of_nil in Hq.
  - intros y Hy. apply Hf, Hy. right. by left.
Qed.

(** Filling a held page. *)
Lemma fill_view root s N l top x m' :
  vok root (mkView s N l top [x]) -> bytes_ok m' ->
  (forall y, ~ in_page x y -> m' y = k_mem s y) ->
  vok root (mkView (set_k_mem m' s) N l top [x]) /\
  evolves top (mkView s N l top [x]) (mkView (set_k_mem m' s) N l top [x]).
Proof.
  intros HV Hb Hf. destruct (vo_held _ _ HV x ltac:(by left)) as (Hx & Hxl & _). cbn in Hxl.
  apply (view_step root (mkView s N l top [x])); cbn; try done.
  - eapply kinv_frame; [apply HV|done|done|done|]. cbn. intros q y Hq Hy. apply Hf.
    eapply (pages_disjoint q); [by eapply (free_page_ok _ _ HV)|by destruct Hx| |done].
    intros ->. done.
  - intros q Hq. apply list_elem_of_singleton in Hq as ->. done.
  - intros y Hy. apply Hf, Hy. right. by left.
Qed.

(** Page-table pages taken from the free list, entries below the top kept. *)
Section Extend.
Context (root : Z) (s s' : kst) (N N' : tree) (l l' used : list Z) (top x : Z).
Context (HV : vok root (mkView s N l top [x])).
Context (HV' : vmst s' root N' l') (HE : extend s N l s' N' l' used).
Context (Hlow : forall va, aligned va -> 0 <= va < top ->
  pte_at (k_mem s') N' va = pte_at (k_mem s) N va).

Lemma extend_not_node q :
  q = x \/ user_page s N top q -> (~ node N' q) /\ (q ∉ l').
Proof using HV HE.
  intros Hq. pose proof (ext_list _ _ _ _ _ _ _ HE) as Hl.
  assert (Hno : ~ node N q /\ q ∉ l).
  { destruct Hq as [->|Hq].
    - destruct (vo_held _ _ HV x ltac:(by left)) as (_ & ? & Hn). split; [|done].
      intros ?. apply Hn. by left.
    - split; [by apply (user_not_node _ _ HV)|]. apply (own_not_free _ _ HV). by right. }
  rewrite Hl, not_elem_of_app in Hno. destruct Hno as (Hn & Hu & Hl').
  split; [|done]. rewrite (ext_nodes _ _ _ _ _ _ _ HE). tauto.
Qed.

Lemma extend_bytes q o :
  q = x \/ user_page s N top q -> 0 <= o < PGSIZE -> k_mem s' (q + o) = k_mem s (q + o).
Proof using HV HV' HE.
  intros Hq Ho. destruct (extend_not_node q Hq) as [Hn _].
  apply (ext_frame _ _ _ _ _ _ _ HE). intros p Hp Hx.
  apply (pages_disjoint p q (q + o)); [| | |done|by apply in_page_offset].
  - destruct Hp as [k Hk]. eapply node_aligned; [apply HV'|done].
  - destruct Hq as [->|Hq].
    + by destruct (vo_held _ _ HV x ltac:(by left)) as ([? _] & _).
    + apply (own_page_aligned _ _ HV). by right.
  - intros ->. done.
Qed.

Lemma extend_user_page q : user_page s' N' top q <-> user_page s N top q.
Proof using Hlow.
  unfold user_page. split; intros (va & Ha & Hv & ->); exists va; (split; [done|]);
    (split; [done|]); by rewrite Hlow.
Qed.

Lemma extend_same_user : same_user s N s' N' top.
Proof using HV HV' HE Hlow.
  split; [done|]. intros va o Ha Hv Ho. apply extend_bytes; [|done]. right. by exists va.
Qed.

Lemma extend_map va :
  aligned va -> 0 <= va < top ->
  let pte := pte_at (k_mem s') N' va in
  leaf_ok pte /\ page_ok (PTE2PA pte) /\ (~ node N' (PTE2PA pte)) /\ (PTE2PA pte ∉ l').
Proof using HV HE Hlow.
  intros Ha Hv. cbn zeta. rewrite Hlow by done.
  destruct (uvm_map _ _ _ _ _ (vo_uvm _ _ HV) va Ha Hv) as (? & ? & _).
  destruct (extend_not_node (PTE2PA (pte_at (k_mem s) N va))) as [? ?]; [|done].
  right. by exists va.
Qed.

Lemma extend_inj va va' :
  aligned va -> aligned va' -> 0 <= va < top -> 0 <= va' < top ->
  PTE2PA (pte_at (k_mem s') N' va) = PTE2PA (pte_at (k_mem s') N' va') -> va = va'.
Proof using HV Hlow.
  intros Ha Ha' Hv Hv'. rewrite !Hlow by done. by apply (vo_uvm _ _ HV).
Qed.

Lemma extend_frame_view y :
  (forall q, pages (mkView s N l top [x]) q -> ~ in_page q y) -> k_mem s' y = k_mem s y.
Proof using HE.
  intros Hy. apply (ext_frame _ _ _ _ _ _ _ HE). intros p Hp. apply Hy.
  apply (ext_nodes _ _ _ _ _ _ _ HE) in Hp as [Hp|Hp]; [by left; left|].
  right. left. cbn. rewrite (ext_list _ _ _ _ _ _ _ HE). apply elem_of_app. by left.
Qed.

(** The page stays in the kernel's hands. *)
Lemma extend_hold :
  (forall va, aligned va -> top <= va < MAXVA -> pte_at (k_mem s') N' va = pte_at (k_mem s) N va) ->
  vok root (mkView s' N' l' top [x]) /\
  evolves top (mkView s N l top [x]) (mkView s' N' l' top [x]).
Proof using HV HV' HE Hlow.
  intros Hup. assert (HT : TRAPFRAME < MAXVA) by done.
  pose proof (vo_uvm _ _ HV) as HU. destruct (uvm_top _ _ _ _ _ HU) as [Hta Htr]. cbn in Hta, Htr.
  split; split; cbn.
  - split; [done|done|apply extend_map|apply extend_inj|].
    intros va Ha Hv. rewrite Hup by (done || lia). by apply HU.
  - intros y Hy. apply list_elem_of_singleton in Hy as ->.
    destruct (vo_held _ _ HV x ltac:(by left)) as (Hx & _ & Hno).
    destruct (extend_not_node x) as [Hn Hl]; [by left|]. split; [done|]. split; [done|].
    intros [Hn'|Hu]; [done|]. cbn in Hu. apply extend_user_page in Hu. apply Hno. by right.
  - apply extend_same_user.
  - intros va Ha Hv. apply Hup; [done|lia].
  - intros q. unfold pages, own. cbn. rewrite extend_user_page, (ext_nodes _ _ _ _ _ _ _ HE).
    rewrite (ext_list _ _ _ _ _ _ _ HE), elem_of_app. tauto.
  - apply extend_frame_view.
Qed.

(** The page is mapped at the old top. *)
Lemma extend_mapped perm :
  top + PGSIZE <= TRAPFRAME -> 0 <= perm < 2 ^ 10 -> Z.lor perm PTE_V <> PTE_V ->
  pte_at (k_mem s') N' top = mkpte x perm ->
  (forall va, aligned va -> top + PGSIZE <= va < MAXVA ->
     pte_at (k_mem s') N' va = pte_at (k_mem s) N va) ->
  vok root (mkView s' N' l' (top + PGSIZE) []) /\
  evolves top (mkView s N l top [x]) (mkView s' N' l' (top + PGSIZE) []).
Proof using HV HV' HE Hlow.
  intros Hmax Hperm Hlf Hnew Hup. assert (HT : TRAPFRAME < MAXVA) by done.
  pose proof (vo_uvm _ _ HV) as HU. destruct (uvm_top _ _ _ _ _ HU) as [Hta Htr]. cbn in Hta, Htr.
  destruct (vo_held _ _ HV x ltac:(by left)) as (Hx & _ & Hno).
  destruct (mkpte_facts x perm Hx Hperm) as (Hpa & Hval & Hfl).
  assert (Hcase : forall va, aligned va -> 0 <= va < top + PGSIZE -> 0 <= va < top \/ va = top).
  { intros va Ha Hv. destruct (Z.lt_ge_cases va top); [left; lia|right].
    apply aligned_between; done || lia. }
  assert (Hne : forall va, aligned va -> 0 <= va < top -> PTE2PA (pte_at (k_mem s') N' va) <> x).
  { intros va Ha Hv E. apply Hno. right. exists va. cbn. by rewrite <- E, Hlow. }
  assert (Hus : forall q, user_page s' N' (top + PGSIZE) q <-> user_page s N top q \/ q = x).
  { intros q. rewrite <- extend_user_page. split.
    - intros (va & Ha & Hv & ->). destruct (Hcase va Ha Hv) as [Hv'| ->].
      + left. by exists va.
      + right. by rewrite Hnew.
    - intros [(va & Ha & Hv & ->)| ->].
      + exists va. split; [done|]. split; [unfold PGSIZE; lia|done].
      + exists top. split; [done|]. split; [unfold PGSIZE; lia|]. by rewrite Hnew. }
  split; split; cbn; [split| | | | |].
  - done.
  - split; [by apply aligned_add|unfold PGSIZE in *; lia].
  - intros va Ha Hv. destruct (Hcase va Ha Hv) as [Hv'| ->]; [by apply extend_map|].
    cbn zeta. rewrite Hnew, Hpa. destruct (extend_not_node x) as [? ?]; [by left|].
    split; [|done]. split; [done|]. by rewrite Hfl.
  - intros va va' Ha Ha' Hv Hv' E.
    destruct (Hcase va Ha Hv) as [Hw| ->], (Hcase va' Ha' Hv') as [Hw'| ->]; try done.
    + by apply extend_inj.
    + rewrite Hnew, Hpa in E. by apply Hne in E.
    + rewrite Hnew, Hpa in E. symmetry in E. by apply Hne in E.
  - intros va Ha Hv. rewrite Hup by (done || lia). apply HU; [done|unfold PGSIZE in *; cbn; lia].
  - intros y Hy. by apply elem_of_nil in Hy.
  - apply extend_same_user.
  - intros va Ha Hv. apply Hup; [done|lia].
  - intros q. unfold pages, own. cbn. rewrite Hus, (ext_nodes _ _ _ _ _ _ _ HE).
    rewrite (ext_list _ _ _ _ _ _ _ HE), elem_of_app, elem_of_nil, list_elem_of_singleton. tauto.
  - apply extend_frame_view.
Qed.
End Extend.

(** Mapping the held page at the top of user memory. *)
Lemma map_view root s N l top x perm :
  vok root (mkView s N l top [x]) -> top + PGSIZE <= TRAPFRAME ->
  0 <= perm < 2 ^ 10 -> Z.lor perm PTE_V <> PTE_V ->
  wp (mappages root top PGSIZE x perm) (fun r s' =>
    exists N' l', (length l <= length l' + 2)%nat /\
      (forall o, 0 <= o < PGSIZE -> k_mem s' (x + o) = k_mem s (x + o)) /\
      ((r = 0 /\ vok root (mkView s' N' l' (top + PGSIZE) []) /\
        evolves top (mkView s N l top [x]) (mkView s' N' l' (top + PGSIZE) []) /\
        pte_at (k_mem s') N' top = mkpte x perm) \/
       (r = -1 /\ l' = [] /\ (length l < 2)%nat /\ vok root (mkView s' N' [] top [x]) /\
        evolves top (mkView s N l top [x]) (mkView s' N' [] top [x])))) s.
Proof.
  intros HV Hmax Hperm Hlf. pose proof (vo_uvm _ _ HV) as HU. cbn in HU.
  destruct (uvm_top _ _ _ _ _ HU) as [Hta Htr]. cbn in Hta, Htr.
  assert (HT : TRAPFRAME < MAXVA) by done.
  destruct (vo_held _ _ HV x ltac:(by left)) as (Hx & _ & _).
  pose proof (page_ok_pos _ Hx) as Hxb. change PHYSTOP with 0x88000000 in Hxb.
  eapply wp_mono.
  { apply mappages_page; [apply HU|lia|lia|done|lia|unfold PGSIZE in *; lia|done|].
    apply (uvm_none _ _ _ _ _ HU); [done|unfold PGSIZE in *; cbn; lia]. }
  intros r s' (N' & l' & used & HV' & HE & Hr). exists N', l'.
  pose proof (f_equal length (ext_list _ _ _ _ _ _ _ HE)) as Hlen. rewrite length_app in Hlen.
  split; [destruct Hr as [(_ & ? & _)|(_ & _ & ? & _)]; lia|].
  split; [intros o Ho; apply (extend_bytes root s s' N N' l l' used top x); try done; by left|].
  destruct Hr as [(-> & _ & Hp)|(-> & -> & Hlu & Hp)].
  - left. split; [done|]. apply and_assoc. split.
    + apply (extend_mapped root s s' N N' l l' used top x) with perm; try done.
      * intros va Ha Hv. rewrite Hp by (done || lia). zcase; lia || done.
      * rewrite Hp by (done || unfold PGSIZE in *; lia). by rewrite Z.eqb_refl.
      * intros va Ha Hv. rewrite Hp by (done || unfold PGSIZE in *; lia).
        zcase; unfold PGSIZE in *; lia || done.
    + rewrite Hp by (done || unfold PGSIZE in *; lia). by rewrite Z.eqb_refl.
  - right. split; [done|]. split; [done|]. split; [simpl in Hlen; lia|].
    apply (extend_hold root s s' N N' l [] used top x); try done.
    + intros va Ha Hv. apply Hp; done || lia.
    + intros va Ha Hv. apply Hp; done || lia.
Qed.

(** Unmapping and freeing the pages from [o] up. *)
Lemma unmap_view root s N l top o :
  vok root (mkView s N l top []) -> aligned o -> 0 <= o <= top ->
  wp (uvmunmap root o ((top - o) / PGSIZE) true) (fun _ s' =>
    exists l', l `suffix_of` l' /\ vok root (mkView s' N l' o []) /\
      evolves o (mkView s N l top []) (mkView s' N l' o [])) s.
Proof.
  intros HV Ho Hle. pose proof (vo_uvm _ _ HV) as HU. cbn in HU.
  destruct (uvm_top _ _ _ _ _ HU) as [Hta Htr]. assert (HT : TRAPFRAME < MAXVA) by done.
  eapply wp_mono; [by apply (uvm_shrink s root N l top o)|].
  intros _ s' (HU' & HS & HH & Hfr). eexists. split; [by eexists|].
  assert (Hup : forall q, q ∈ upages (k_mem s) N o ((top - o) / PGSIZE) <->
            exists va, aligned va /\ o <= va < top /\ q = PTE2PA (pte_at (k_mem s) N va)).
  { destruct (uvm_unmappable _ _ _ _ _ o HU Ho Hle) as [_ Hn]. intros q. rewrite elem_of_upages.
    unfold aligned in *. change PGSIZE with 4096 in *.
    pose proof (Z_div_mod_decomp o 4096 ltac:(lia)). split.
    - intros (i & Hi & ->). exists (o + i * 4096). split; [|split; [lia|done]].
      by rewrite Z.mod_add.
    - intros (va & Ha & Hv & ->). exists ((va - o) / 4096).
      pose proof (Z_div_mod_decomp va 4096 ltac:(lia)).
      assert (E : va - o = (va / 4096 - o / 4096) * 4096) by lia.
      rewrite E, Z.div_mul by lia. split; [lia|]. do 2 f_equal. lia. }
  split; split; cbn.
  - done.
  - intros x Hx. by apply elem_of_nil in Hx.
  - done.
  - intros va Ha Hv. apply HH; [lia|done|lia].
  - intros q. unfold pages, own. cbn.
    rewrite elem_of_app, list_elem_of_In, <- in_rev, <- list_elem_of_In, Hup. unfold user_page. split.
    + intros [[Hq|(va & Ha & Hv & ->)]|[[(va & Ha & Hv & ->)|Hq]|Hq]]; try tauto.
      * left. right. exists va. rewrite (su_pte _ _ _ _ _ HS) by done. split; [done|split; [lia|done]].
      * left. right. exists va. split; [done|split; [lia|done]].
    + intros [[Hq|(va & Ha & Hv & ->)]|[Hq|Hq]]; try tauto.
      destruct (Z.lt_ge_cases va o).
      * left. right. exists va. rewrite (su_pte _ _ _ _ _ HS) by (done || lia). split; [done|split; [lia|done]].
      * right. left. left. exists va. split; [done|split; [lia|done]].
  - intros x Hx. apply Hfr; intros q Hq; apply Hx; left; [by left|right].
    apply Hup in Hq as (va & Ha & Hv & ->). exists va. cbn. split; [done|split; [lia|done]].
Qed.
End Space.
