(* ===== verification/VmAlloc.v ===== *)
(** Growing and shrinking user memory: uvmalloc() and uvmdealloc(). *)

From S2P Require Import Prelude Riscv CString Kalloc Vm VmTree VmWalk VmMap VmUser VmSpace.

Section Alloc.
Context `{Image}.

(** Sizes up to the trapframe round without overflow. *)
Lemma PGROUNDUP_user sz :
  0 <= sz <= TRAPFRAME ->
  aligned (PGROUNDUP sz) /\ sz <= PGROUNDUP sz < sz + PGSIZE /\ PGROUNDUP sz <= TRAPFRAME.
Proof.
  intros Hsz. change TRAPFRAME with (2 ^ 38 - 8192) in *.
  destruct (PGROUNDUP_bounds sz) as [Hb Ha]; [unfold PGSIZE in *; lia..|].
  split; [done|]. split; [done|]. unfold aligned, PGSIZE in *.
  pose proof (Z_div_mod_decomp (PGROUNDUP sz) 4096 ltac:(lia)). lia.
Qed.

Lemma PGROUNDUP_mono a b : 0 <= a <= b -> b <= TRAPFRAME -> PGROUNDUP a <= PGROUNDUP b.
Proof.
  intros Hab Hb. change TRAPFRAME with (2 ^ 38 - 8192) in Hb.
  rewrite !PGROUNDUP_spec by (unfold PGSIZE; lia).
  apply Z.mul_le_mono_nonneg_l; [done|]. apply Z.div_le_mono; [done|lia].
Qed.

Lemma PGROUNDUP_top top : aligned top -> 0 <= top <= TRAPFRAME -> PGROUNDUP top = top.
Proof.
  intros Ha Ht. change TRAPFRAME with (2 ^ 38 - 8192) in Ht.
  apply PGROUNDUP_aligned; [unfold PGSIZE; lia..|done].
Qed.

(** * uvmdealloc *)

Lemma uvmdealloc_spec root s N l oldsz newsz :
  vok root (mkView s N l (PGROUNDUP oldsz) []) -> 0 <= newsz -> 0 <= oldsz <= TRAPFRAME ->
  wp (uvmdealloc root oldsz newsz) (fun r s' =>
    exists l', r = Z.min oldsz newsz /\ l `suffix_of` l' /\
      vok root (mkView s' N l' (PGROUNDUP r) []) /\
      evolves (PGROUNDUP r) (mkView s N l (PGROUNDUP oldsz) []) (mkView s' N l' (PGROUNDUP r) [])) s.
Proof.
  intros HV Hn Ho. unfold uvmdealloc. rewrite Z.geb_leb.
  destruct (Z.leb_spec oldsz newsz).
  { wp_steps. exists l. rewrite Z.min_l by lia. split; [done|]. split; [reflexivity|].
    split; [done|apply evolves_refl]. }
  rewrite Z.min_r by lia.
  destruct (PGROUNDUP_user oldsz) as (Hoa & Hob & Hot); [lia|].
  destruct (PGROUNDUP_user newsz) as (Hna & Hnb & Hnt); [lia|].
  pose proof (PGROUNDUP_mono newsz oldsz ltac:(lia) ltac:(lia)) as Hle.
  wp_steps. destruct (Z.ltb_spec (PGROUNDUP newsz) (PGROUNDUP oldsz)) as [Hlt|Hge].
  - assert (Hnp : 0 <= (PGROUNDUP oldsz - PGROUNDUP newsz) / PGSIZE < 2 ^ 26).
    { change TRAPFRAME with (2 ^ 38 - 8192) in Hot. unfold PGSIZE.
      split; [apply Z.div_pos; lia|apply Z.div_lt_upper_bound; lia]. }
    rewrite i32_small, u64_small by (unfold is_u64; lia).
    eapply wp_mono; [apply (unmap_view root s N l _ (PGROUNDUP newsz) HV); [done|lia]|].
    intros _ s' (l' & Hl & HV' & HE). wp_steps. by exists l'.
  - wp_steps. exists l. assert (PGROUNDUP newsz = PGROUNDUP oldsz) as -> by lia.
    split; [done|]. split; [reflexivity|]. split; [done|apply evolves_refl].
Qed.

(** Undoing an allocation down to the old top. *)
Lemma uvm_rollback root s N l top o :
  vok root (mkView s N l top []) -> aligned o -> 0 <= o <= top ->
  wp (uvmdealloc root top o) (fun _ s' =>
    exists l', vok root (mkView s' N l' o []) /\
      evolves o (mkView s N l top []) (mkView s' N l' o [])) s.
Proof.
  intros HV Ho Hle. destruct (uvm_top _ _ _ _ _ (vo_uvm _ _ HV)) as [Hta Htr]. cbn in Hta, Htr.
  pose proof (uvmdealloc_spec root s N l top o) as Hd.
  rewrite (PGROUNDUP_top top) in Hd by done.
  eapply wp_mono; [apply Hd; [done|lia|done]|]. intros r s' (l' & -> & _ & HV' & HE).
  rewrite Z.min_r, PGROUNDUP_top in HV', HE by (done || lia). by exists l'.
Qed.

(** * uvmalloc *)

(** Every byte of the user pages between [lo] and [hi] is zero. *)
Record zeroed (s : kst) (N : tree) (lo hi : Z) : Prop := {
  zd_byte : forall va o, aligned va -> lo <= va < hi -> 0 <= o < PGSIZE ->
    k_mem s (PTE2PA (pte_at (k_mem s) N va) + o) = 0;
}.

Definition user_perm (xperm : Z) : Z := Z.lor (Z.lor PTE_R PTE_U) xperm.

Lemma user_perm_ok xperm :
  0 <= xperm < 2 ^ 10 -> 0 <= user_perm xperm < 2 ^ 10 /\ Z.lor (user_perm xperm) PTE_V <> PTE_V.
Proof.
  intros Hx. unfold user_perm. change (Z.lor PTE_R PTE_U) with 18. change PTE_V with 1.
  assert (H0 : 0 <= Z.lor 18 xperm) by (apply Z.lor_nonneg; lia).
  split; [split; [done|]|].
  - destruct (Z.eq_dec (Z.lor 18 xperm) 0) as [->|Hne]; [lia|].
    apply Z.log2_lt_pow2; [lia|]. rewrite Z.log2_lor by lia. apply Z.max_lub_lt; [done|].
    destruct (Z.eq_dec xperm 0) as [->|]; [done|]. apply Z.log2_lt_pow2; lia.
  - intros E. apply (f_equal (fun z => Z.testbit z 1)) in E.
    rewrite !Z.lor_spec in E. simpl in E. done.
Qed.

Lemma zeroed_app s N s' N' lo mid hi :
  0 <= lo -> zeroed s N lo mid -> same_user s N s' N' mid -> zeroed s' N' mid hi ->
  zeroed s' N' lo hi.
Proof.
  intros Hlo [Hz] [HP HB] [Hz']. split. intros va o Ha Hv Ho.
  destruct (Z.lt_ge_cases va mid); [|apply Hz'; done || lia].
  rewrite HP by (done || lia). rewrite HB by (done || lia). apply Hz; done || lia.
Qed.

(** The pages uvmalloc() has to add. *)
Definition new_pages (oldsz newsz : Z) : Z :=
  Z.max 0 ((PGROUNDUP newsz - PGROUNDUP oldsz) / PGSIZE).

Lemma new_pages_spec oldsz newsz :
  0 <= oldsz <= newsz -> newsz <= TRAPFRAME ->
  PGROUNDUP newsz = PGROUNDUP oldsz + new_pages oldsz newsz * PGSIZE.
Proof.
  intros H0 H1. pose proof (PGROUNDUP_mono oldsz newsz H0 H1).
  destruct (PGROUNDUP_user oldsz) as (Ho & _); [lia|].
  destruct (PGROUNDUP_user newsz) as (Hn & _); [lia|]. unfold new_pages, aligned, PGSIZE in *.
  rewrite Z.max_r by (apply Z.div_pos; lia).
  pose proof (Z_div_mod_decomp (PGROUNDUP oldsz) 4096 ltac:(lia)).
  pose proof (Z_div_mod_decomp (PGROUNDUP newsz) 4096 ltac:(lia)).
  assert (E : PGROUNDUP newsz - PGROUNDUP oldsz =
              (PGROUNDUP newsz / 4096 - PGROUNDUP oldsz / 4096) * 4096) by lia.
  rewrite E, Z.div_mul by lia. lia.
Qed.

(** The body of the loop of uvmalloc() at the current top. *)
Definition grow_page (root a o xperm : Z) : M kst (Z + Z) :=
  let! mem := kalloc in
  if mem =? 0 then
    let! _ := uvmdealloc root a o in
    ret (inr 0)
  else
    upd_mem (memset mem 0 PGSIZE) ;;;
    let! r := mappages root a PGSIZE mem (user_perm xperm) in
    if negb (r =? 0) then
      kfree mem ;;;
      let! _ := uvmdealloc root a o in
      ret (inr 0)
    else ret (inl (u64 (a + PGSIZE))).

Lemma grow_page_spec root s N l a o xperm :
  vok root (mkView s N l a []) -> a + PGSIZE <= TRAPFRAME -> aligned o -> 0 <= o <= a ->
  0 <= xperm < 2 ^ 10 ->
  wp (grow_page root a o xperm) (fun r s' =>
    exists N' l',
      (r = inl (a + PGSIZE) /\ (length l <= length l' + 3)%nat /\
       vok root (mkView s' N' l' (a + PGSIZE) []) /\
       evolves a (mkView s N l a []) (mkView s' N' l' (a + PGSIZE) []) /\
       zeroed s' N' a (a + PGSIZE)) \/
      (r = inr 0 /\ (length l < 3)%nat /\ vok root (mkView s' N' l' o []) /\
       evolves o (mkView s N l a []) (mkView s' N' l' o []))) s.
Proof.
  intros HV Hmax Ho Hoa Hx. destruct (user_perm_ok xperm Hx) as [Hperm Hlf].
  destruct (uvm_top _ _ _ _ _ (vo_uvm _ _ HV)) as [Hta Htr]. cbn in Hta, Htr.
  unfold grow_page. wp_steps. eapply wp_mono; [by apply kalloc_view|].
  intros r s1 Hr. destruct l as [|x l].
  { destruct Hr as [-> ->]. simpl. wp_steps. eapply wp_mono; [by apply uvm_rollback|].
    intros _ s2 (l2 & HV2 & HE2). wp_steps. exists N, l2. right. split; [done|].
    split; [simpl; lia|]. done. }
  destruct Hr as (-> & Hx0 & HV1 & HE1). destruct (Z.eqb_spec x 0); [done|]. wp_steps.
  destruct (fill_view root s1 N l a x (memset x 0 PGSIZE (k_mem s1)) HV1) as [HV2 HE2].
  { apply memset_bytes_ok; [done|apply HV1]. }
  { intros y Hy. rewrite memset_spec by done. unfold in_page in Hy. zcase; lia || done. }
  set (s2 := set_k_mem (memset x 0 PGSIZE (k_mem s1)) s1) in *.
  pose proof (evolves_trans a a a _ _ _ ltac:(lia) ltac:(lia) HE1 HE2) as HE12.
  eapply wp_mono; [by apply (map_view root s2 N l a x (user_perm xperm) HV2)|].
  intros r s3 (N3 & l3 & Hlen & Hb3 & Hr). cbn [length].
  destruct Hr as [(-> & HV3 & HE3 & Hp3)|(-> & -> & Hlu & HV3 & HE3)];
    pose proof (evolves_trans a a a _ _ _ ltac:(lia) ltac:(lia) HE12 HE3) as HE13; simpl; wp_steps.
  - exists N3, l3. left. change TRAPFRAME with (2 ^ 38 - 8192) in Htr.
    rewrite u64_small by (unfold is_u64, PGSIZE in *; lia). split; [done|]. split; [lia|].
    split; [done|]. split; [done|]. split. intros va p Ha Hv Hp.
    rewrite (aligned_between a va Hta Ha) by done. rewrite Hp3.
    destruct (mkpte_facts x (user_perm xperm)) as (-> & _); [|done|].
    { by destruct (vo_held _ _ HV1 x ltac:(by left)). }
    rewrite Hb3 by done. unfold s2. simpl. rewrite memset_spec by done.
    zcase; unfold PGSIZE in *; lia || done.
  - eapply wp_mono; [by apply kfree_view|]. intros _ s4 [HV4 HE4]. wp_steps.
    eapply wp_mono; [by apply (uvm_rollback root s4 N3 [x] a o HV4)|].
    intros _ s5 (l5 & HV5 & HE5). wp_steps. exists N3, l5. right. split; [done|].
    split; [simpl; lia|]. split; [done|].
    refine (evolves_trans a _ _ _ _ _ _ _ HE13 _); [lia|reflexivity|].
    by refine (evolves_trans a _ _ _ _ _ _ _ HE4 HE5); [lia|reflexivity].
Qed.

Lemma uvmalloc_spec root s N l oldsz newsz xperm :
  vok root (mkView s N l (PGROUNDUP oldsz) []) -> 0 <= oldsz <= newsz -> newsz <= TRAPFRAME ->
  0 <= xperm < 2 ^ 10 ->
  wp (uvmalloc root oldsz newsz xperm) (fun r s' =>
    exists N' l' top', vok root (mkView s' N' l' top' []) /\
      evolves (PGROUNDUP oldsz) (mkView s N l (PGROUNDUP oldsz) []) (mkView s' N' l' top' []) /\
      ((r = newsz /\ top' = PGROUNDUP newsz /\
        zeroed s' N' (PGROUNDUP oldsz) (PGROUNDUP newsz)) \/
       (r = 0 /\ top' = PGROUNDUP oldsz /\
        Z.of_nat (length l) < 3 * new_pages oldsz newsz))) s.
Proof.
  intros HV Hsz Hmax Hx. unfold uvmalloc. destruct (Z.ltb_spec newsz oldsz); [lia|].
  destruct (PGROUNDUP_user oldsz) as (Hoa & Hob & Hot); [lia|].
  destruct (PGROUNDUP_user newsz) as (Hna & Hnb & Hnt); [lia|].
  pose proof (PGROUNDUP_mono oldsz newsz Hsz Hmax) as Hle.
  pose proof (new_pages_spec oldsz newsz Hsz Hmax) as Hcnt.
  set (o := PGROUNDUP oldsz) in *.
  eapply wp_loop with
    (I := fun a s' => exists i N' l', 0 <= i /\ a = o + i * PGSIZE /\ a <= PGROUNDUP newsz /\
            vok root (mkView s' N' l' a []) /\
            evolves o (mkView s N l o []) (mkView s' N' l' a []) /\
            zeroed s' N' o a /\ Z.of_nat (length l) <= Z.of_nat (length l') + 3 * i)
    (mu := fun a _ => Z.to_nat (newsz - a)).
  - exists 0, N, l. rewrite Z.add_0_r. split; [lia|]. split; [lia|]. split; [done|].
    split; [done|]. split; [apply evolves_refl|]. split; [split; intros; lia|lia].
  - lia.
  - intros a s' (i & N' & l' & Hi & -> & Hale & HV' & HE & HZ & Hlen).
    destruct (uvm_top _ _ _ _ _ (vo_uvm _ _ HV')) as [Hta Htr]. cbn in Hta, Htr.
    assert (Hroll : 0 <= o <= o + i * PGSIZE) by (unfold PGSIZE in *; lia).
    destruct (Z.ltb_spec (o + i * PGSIZE) newsz) as [Hlt|Hge].
    + assert (Hl : o + i * PGSIZE + PGSIZE <= PGROUNDUP newsz).
      { apply aligned_lt_pages; [done..|lia]. }
      eapply wp_mono; [apply (grow_page_spec root s' N' l' _ o xperm HV'); done || lia|].
      intros r s1 (N1 & l1 & [(-> & Hl1 & HV1 & HE1 & HZ1)|(-> & Hl1 & HV1 & HE1)]).
      * split; [|unfold PGSIZE in *; lia]. exists (i + 1), N1, l1.
        replace (o + (i + 1) * PGSIZE) with (o + i * PGSIZE + PGSIZE) by lia.
        split; [lia|]. split; [done|]. split; [done|]. split; [done|].
        split; [by refine (evolves_trans o (o + i * PGSIZE) o _ _ _ _ _ HE HE1); lia|]. split; [|lia].
        eapply zeroed_app; [lia|exact HZ|apply HE1|done].
      * exists N1, l1, o. split; [done|].
        split; [by refine (evolves_trans o o o _ _ _ _ _ HE HE1); lia|].
        right. split; [done|]. split; [done|]. unfold PGSIZE in *. lia.
    + wp_steps. exists N', l', (o + i * PGSIZE). split; [done|]. split; [done|]. left.
      assert (PGROUNDUP newsz = o + i * PGSIZE) as ->; [|done].
      destruct (Z.eq_dec (PGROUNDUP newsz) (o + i * PGSIZE)); [done|].
      assert (Hl : o + i * PGSIZE < PGROUNDUP newsz) by lia.
      apply aligned_lt_pages in Hl; [unfold PGSIZE in *; lia|done..].
Qed.
End Alloc.
