(* ===== verification/VmCopy.v ===== *)
(** Copying between the kernel and user memory: copyin(), copyout() and
    copyinstr() against the byte view of an address space.

    [ubyte m N va] is the byte a user process sees at [va], [None] where the
    kernel's walkaddr() refuses the address.  Each routine is total on every
    address and length; its result is stated in terms of that view. *)

From S2P Require Import Prelude Riscv CString Kalloc Vm VmTree VmWalk VmMap VmUser VmSpace.

Section Copy.
Context `{Image}.

Definition upage (m : mem) (N : tree) (va0 : Z) : Z :=
  if va0 <? MAXVA then uaddr (pte_at m N va0) else 0.

Definition ubyte (m : mem) (N : tree) (va : Z) : option Z :=
  let va0 := PGROUNDDOWN va in
  let pa := upage m N va0 in
  if pa =? 0 then None else Some (m (pa + (va - va0))).

Lemma length_read_bytes n a m : length (read_bytes n a m) = n.
Proof. revert a. induction n as [|n IH]; intros a; simpl; [done|]. by rewrite IH. Qed.

Lemma zget_read_bytes n a m i :
  0 <= i < Z.of_nat n -> zget (read_bytes n a m) i = m (a + i).
Proof.
  revert a i. induction n as [|n IH]; intros a i Hi; [lia|].
  destruct (Z.eq_dec i 0) as [->|Hne].
  - unfold zget. simpl. f_equal. lia.
  - unfold zget. replace (Z.to_nat i) with (S (Z.to_nat (i - 1))) by lia.
    simpl. fold (zget (read_bytes n (a + 1) m) (i - 1)). rewrite IH by lia.
    f_equal. lia.
Qed.

Lemma write_bytes_spec a bs m x :
  write_bytes a bs m x =
    if (a <=? x) && (x <? a + Z.of_nat (length bs)) then zget bs (x - a) else m x.
Proof.
  revert a m. induction bs as [|b bs IH]; intros a m; simpl.
  - zcase; lia || done.
  - rewrite IH. unfold mupd. repeat zcase; try lia; try done.
    + unfold zget. replace (Z.to_nat (x - a)) with (S (Z.to_nat (x - (a + 1)))) by lia. done.
    + unfold zget. subst. rewrite Z.sub_diag. done.
Qed.

Lemma ubyte_page va :
  0 <= va -> exists va0 off, va = va0 + off /\ aligned va0 /\ 0 <= va0 /\ 0 <= off < PGSIZE /\
    PGROUNDDOWN va = va0.
Proof.
  intros Hva. exists (PGROUNDDOWN va), (va - PGROUNDDOWN va).
  destruct (PGROUNDDOWN_bounds va) as [Hb Ha]. rewrite PGROUNDDOWN_spec in *.
  pose proof (Z.div_pos va PGSIZE Hva ltac:(done)). unfold PGSIZE in *. repeat split; done || lia.
Qed.

Lemma PGROUNDDOWN_add va0 off :
  aligned va0 -> 0 <= off < PGSIZE -> PGROUNDDOWN (va0 + off) = va0.
Proof.
  intros Ha Ho. destruct (PGROUNDDOWN_bounds (va0 + off)) as [Hb Hal].
  destruct (Z.lt_total (PGROUNDDOWN (va0 + off)) va0) as [Hlt|[?|Hlt]]; [|done|].
  - apply aligned_lt_pages in Hlt; [lia|done..].
  - apply aligned_lt_pages in Hlt; [lia|done..].
Qed.

Lemma walkaddr_upage va0 s root N :
  rep (k_mem s) root N -> 0 <= va0 ->
  wp (walkaddr root va0) (fun r s' => s' = s /\ r = upage (k_mem s) N va0) s.
Proof. intros. by apply walkaddr_spec. Qed.

Lemma upage_max m N va0 : upage m N va0 <> 0 -> va0 < MAXVA.
Proof. unfold upage. destruct (Z.ltb_spec va0 MAXVA); done. Qed.

(** * copyin *)

(** [bs] are the user bytes from [va] on. *)
Definition ureads (m : mem) (N : tree) (va : Z) (bs : list Z) : Prop :=
  forall i, 0 <= i < Z.of_nat (length bs) -> ubyte m N (va + i) = Some (zget bs i).

Lemma ureads_app m N va bs bs' :
  ureads m N va bs -> ureads m N (va + Z.of_nat (length bs)) bs' ->
  ureads m N va (bs ++ bs').
Proof.
  intros H1 H2 i Hi. rewrite length_app in Hi.
  destruct (Z.lt_ge_cases i (Z.of_nat (length bs))).
  - rewrite zget_app_l by lia. apply H1. lia.
  - rewrite zget_app_r by lia. rewrite <- H2 by lia. f_equal. lia.
Qed.

Lemma ureads_page m N va0 off n :
  aligned va0 -> 0 <= off -> 0 <= n -> off + n <= PGSIZE -> upage m N va0 <> 0 ->
  ureads m N (va0 + off) (read_bytes (Z.to_nat n) (upage m N va0 + off) m).
Proof.
  intros Ha Ho Hn Hon Hu i Hi. rewrite length_read_bytes in Hi.
  rewrite zget_read_bytes by lia. unfold ubyte.
  rewrite <- Z.add_assoc, PGROUNDDOWN_add by (done || lia).
  destruct (Z.eqb_spec (upage m N va0) 0); [done|]. do 2 f_equal. lia.
Qed.

Lemma copyin_spec s root N srcva len :
  rep (k_mem s) root N -> 0 <= srcva -> 0 <= len ->
  wp (copyin root srcva len) (fun '(r, bs) s' =>
    s' = s /\ ureads (k_mem s) N srcva bs /\
    ((r = 0 /\ Z.of_nat (length bs) = len) \/
     (r = -1 /\ Z.of_nat (length bs) < len /\
      ubyte (k_mem s) N (srcva + Z.of_nat (length bs)) = None))) s.
Proof.
  intros HR Hva Hlen. unfold copyin.
  eapply wp_loop with
    (I := fun '(a, n, bs) s' => s' = s /\ ureads (k_mem s) N srcva bs /\
            0 <= n /\ Z.of_nat (length bs) + n = len /\
            (0 < n -> a = srcva + Z.of_nat (length bs)))
    (mu := fun '(_, n, _) _ => Z.to_nat n).
  - split; [done|]. split; [intros i Hi; simpl in Hi; lia|].
    split; [done|]. split; [simpl; lia|]. intros _. simpl. lia.
  - lia.
  - intros [[a n] bs] s' (-> & Hrd & Hn & Hsum & Ha).
    destruct (Z.ltb_spec 0 n) as [Hpos|Hz].
    2:{ wp_steps. split; [done|]. split; [done|]. left. split; [done|lia]. }
    specialize (Ha Hpos). subst a. set (cur := srcva + Z.of_nat (length bs)) in *.
    destruct (ubyte_page cur) as (va0 & off & Hc & Hal & Hv0 & Hoff & Hrd0); [lia|].
    rewrite Hrd0. wp_steps. eapply wp_mono; [by apply walkaddr_upage|].
    intros pa s1 [-> ->]. destruct (Z.eqb_spec (upage (k_mem s) N va0) 0) as [E|E].
    { wp_steps. split; [done|]. split; [done|]. right. split; [done|]. split; [lia|].
      fold cur. unfold ubyte. rewrite Hrd0, E. done. }
    wp_steps. pose proof (upage_max _ _ _ E) as Hmax. change MAXVA with (2 ^ 38) in Hmax.
    rewrite u64_small by (unfold is_u64, PGSIZE in *; lia).
    replace (cur - va0) with off by lia. rewrite Z.gtb_ltb.
    assert (Hchunk : forall k, 0 <= k -> k <= n -> off + k <= PGSIZE ->
              ureads (k_mem s) N srcva (bs ++ read_bytes (Z.to_nat k) (upage (k_mem s) N va0 + off) (k_mem s))).
    { intros k Hk Hkn Hok. apply ureads_app; [done|]. fold cur. rewrite Hc. apply ureads_page; done || lia. }
    rewrite length_app, length_read_bytes.
    destruct (Z.ltb_spec n (PGSIZE - off)); rewrite ?length_app, ?length_read_bytes.
    + repeat split; try done; try lia. apply Hchunk; lia.
    + repeat split; try done; try lia. apply Hchunk; lia.
Qed.

(** * copyout *)

(** Every page walkaddr() hands out is the process's own. *)
Record ucopy_ok (s : kst) (N : tree) (l : list Z) : Prop := {
  uc_page : forall va0, aligned va0 -> 0 <= va0 -> upage (k_mem s) N va0 <> 0 ->
    page_ok (upage (k_mem s) N va0) /\ (~ node N (upage (k_mem s) N va0)) /\
    (upage (k_mem s) N va0 ∉ l);
  uc_inj : forall va0 va1, aligned va0 -> aligned va1 -> 0 <= va0 -> 0 <= va1 ->
    upage (k_mem s) N va0 <> 0 -> upage (k_mem s) N va0 = upage (k_mem s) N va1 -> va0 = va1;
}.

Record uwritten (s s' : kst) (N : tree) (va : Z) (bs : list Z) : Prop := {
  uw_pte : forall v, pte_at (k_mem s') N v = pte_at (k_mem s) N v;
  uw_byte : forall v, 0 <= v ->
    ubyte (k_mem s') N v =
      if (va <=? v) && (v <? va + Z.of_nat (length bs))
      then (fun _ => zget bs (v - va)) <$> ubyte (k_mem s) N v
      else ubyte (k_mem s) N v;
  uw_frame : forall x, (forall va0, aligned va0 -> 0 <= va0 -> upage (k_mem s) N va0 <> 0 ->
      ~ in_page (upage (k_mem s) N va0) x) -> k_mem s' x = k_mem s x;
}.

Lemma uwritten_nil s N va : uwritten s s N va [].
Proof. split; [done| |done]. intros v Hv. simpl. zcase; lia || done. Qed.

Lemma upage_ext m m' N va0 :
  (forall v, pte_at m' N v = pte_at m N v) -> upage m' N va0 = upage m N va0.
Proof. intros Hp. unfold upage. by rewrite Hp. Qed.

Lemma uwritten_app s s1 s2 N va bs1 bs2 :
  uwritten s s1 N va bs1 -> uwritten s1 s2 N (va + Z.of_nat (length bs1)) bs2 ->
  uwritten s s2 N va (bs1 ++ bs2).
Proof.
  intros [P1 B1 F1] [P2 B2 F2]. split; [intros v; by rewrite P2| |].
  2:{ intros x Hx. rewrite F2; [by apply F1|]. intros va0. rewrite (upage_ext _ _ _ _ P1). by apply Hx. }
  intros v Hv. rewrite B2, B1 by done. rewrite length_app.
  destruct (ubyte (k_mem s) N v) as [b|]; repeat zcase; simpl; try lia; try done.
  - rewrite zget_app_r by lia. do 2 f_equal. lia.
  - by rewrite zget_app_l by lia.
Qed.

Lemma copyout_chunk s root N l va0 off bs :
  vmst s root N l -> ucopy_ok s N l -> aligned va0 -> 0 <= va0 -> 0 <= off ->
  off + Z.of_nat (length bs) <= PGSIZE -> upage (k_mem s) N va0 <> 0 ->
  Forall is_u8 bs ->
  let s' := set_k_mem (write_bytes (upage (k_mem s) N va0 + off) bs (k_mem s)) s in
  vmst s' root N l /\ ucopy_ok s' N l /\ uwritten s s' N (va0 + off) bs.
Proof.
  intros HV [HC HI] Ha Hv0 Ho Hlen Hu Hbs s'.
  set (pa := upage (k_mem s) N va0) in *.
  destruct (HC va0 Ha Hv0 Hu) as (Hpok & Hpn & Hpl).
  assert (Hfr : forall y, ~ in_page pa y -> k_mem s' y = k_mem s y).
  { intros y Hy. simpl. rewrite write_bytes_spec. unfold in_page, PGSIZE in *. zcase; lia || done. }
  destruct (vmst_write_page s root N l pa (k_mem s') HV Hpok Hpl Hpn) as [HV' Hp'].
  { intros x. simpl. rewrite write_bytes_spec. zcase; [|by apply HV..].
    rewrite Forall_lookup in Hbs. eapply Hbs. apply zget_lookup. lia. }
  { done. }
  assert (Hup : forall v, upage (k_mem s') N v = upage (k_mem s) N v)
    by (intros v; by apply upage_ext).
  split; [done|]. split.
  - split.
    + intros v. rewrite Hup. apply HC.
    + intros v v' ? ? ? ?. rewrite !Hup. by apply HI.
  - split; [done| |by intros x Hx; apply Hfr, Hx]. intros v Hv.
    destruct (ubyte_page v Hv) as (w0 & o & -> & Hwa & Hw0 & Ho' & Hwr).
    unfold ubyte. rewrite Hwr, Hup.
    destruct (Z.eqb_spec (upage (k_mem s) N w0) 0) as [E|E]; [by destruct (_ && _)|].
    replace (w0 + o - w0) with o by lia. simpl. rewrite write_bytes_spec. fold pa.
    destruct (decide (w0 = va0)) as [->|Hne].
    + fold pa. repeat zcase; try lia; try done. do 2 f_equal. lia.
    + assert (Hd : ~ in_page pa (upage (k_mem s) N w0 + o)).
      { destruct (HC w0 Hwa Hw0 E) as ([Hq _] & _).
        eapply pages_disjoint; [exact Hq|by destruct Hpok| |by apply in_page_offset].
        intros Eq. apply Hne. by apply HI. }
      assert (Hwo : w0 + PGSIZE <= va0 \/ va0 + PGSIZE <= w0).
      { destruct (Z.lt_total w0 va0) as [Hlt|[?|Hlt]]; [|done|].
        - left. by apply aligned_lt_pages.
        - right. by apply aligned_lt_pages. }
      unfold in_page, PGSIZE in *. repeat zcase; try lia; done.
Qed.

Lemma copyout_spec s root N l dstva src :
  vmst s root N l -> ucopy_ok s N l -> 0 <= dstva -> Forall is_u8 src ->
  wp (copyout root dstva src) (fun r s' =>
    exists n, vmst s' root N l /\ ucopy_ok s' N l /\
      uwritten s s' N dstva (take n src) /\
      ((r = 0 /\ n = length src /\
        forall i, 0 <= i < Z.of_nat (length src) -> is_Some (ubyte (k_mem s) N (dstva + i))) \/
       (r = -1 /\ (n < length src)%nat /\
        ubyte (k_mem s) N (dstva + Z.of_nat n) = None))) s.
Proof.
  intros HV HC Hva Hsrc. unfold copyout.
  eapply wp_loop with
    (I := fun '(a, rest) s' => exists n, (n <= length src)%nat /\ rest = drop n src /\
            vmst s' root N l /\ ucopy_ok s' N l /\ uwritten s s' N dstva (take n src) /\
            ((n < length src)%nat -> a = dstva + Z.of_nat n) /\
            (forall i, 0 <= i < Z.of_nat n -> is_Some (ubyte (k_mem s) N (dstva + i))))
    (mu := fun '(_, rest) _ => length rest).
  - exists O. split; [lia|]. split; [done|]. split; [done|]. split; [done|].
    split; [apply uwritten_nil|]. split; [intros; simpl; lia|intros; simpl in *; lia].
  - lia.
  - intros [a rest] s' (n & Hn & -> & HV' & HC' & HW & Ha & Hsome).
    rewrite length_drop.
    destruct (Z.ltb_spec 0 (Z.of_nat (length src - n))) as [Hpos|Hz].
    2:{ wp_steps. exists n. split; [done|]. split; [done|]. split; [done|]. left.
        split; [done|]. split; [lia|]. intros i Hi. apply Hsome. lia. }
    specialize (Ha ltac:(lia)). subst a. set (cur := dstva + Z.of_nat n) in *.
    destruct (ubyte_page cur) as (va0 & off & Hc & Hal & Hv0 & Hoff & Hrd0); [lia|].
    rewrite Hrd0. wp_steps. eapply wp_mono; [apply walkaddr_upage; [apply HV'|done]|].
    intros pa s1 [-> ->].
    assert (Hup : upage (k_mem s') N va0 = upage (k_mem s) N va0)
      by (apply upage_ext, HW).
    destruct (Z.eqb_spec (upage (k_mem s') N va0) 0) as [E|E].
    { wp_steps. exists n. split; [done|]. split; [done|]. split; [done|]. right.
      split; [done|]. split; [lia|]. fold cur. unfold ubyte. by rewrite Hrd0, <- Hup, E. }
    wp_steps. pose proof (upage_max _ _ _ E) as Hmax. change MAXVA with (2 ^ 38) in Hmax.
    rewrite u64_small by (unfold is_u64, PGSIZE in *; lia).
    replace (cur - va0) with off by lia. rewrite Z.gtb_ltb.
    set (k := if Z.of_nat (length src - n) <? PGSIZE - off
              then Z.of_nat (length src - n) else PGSIZE - off).
    assert (Hk : 0 < k <= Z.of_nat (length src - n) /\ off + k <= PGSIZE /\
                 (k = PGSIZE - off \/ k = Z.of_nat (length src - n))).
    { unfold k. zcase; unfold PGSIZE in *; lia. }
    clearbody k. destruct Hk as (Hk & Hok & Hkor).
    assert (Hlt : length (take (Z.to_nat k) (drop n src)) = Z.to_nat k).
    { rewrite length_take, length_drop. lia. }
    destruct (copyout_chunk s' root N l va0 off (take (Z.to_nat k) (drop n src)))
      as (HV2 & HC2 & HW2); try done; [lia|rewrite Hlt; lia| |].
    { apply Forall_take, Forall_drop, Hsrc. }
    assert (Htk : take (n + Z.to_nat k) src = take n src ++ take (Z.to_nat k) (drop n src)).
    { by rewrite <- take_take_drop. }
    split.
    + exists (n + Z.to_nat k)%nat. split; [lia|]. split; [by rewrite drop_drop|].
      split; [done|]. split; [done|]. split; [|split].
      * rewrite Htk. eapply uwritten_app; [done|].
        rewrite length_take_le by lia. fold cur. by rewrite Hc.
      * intros Hlt'. destruct Hkor as [-> | ->]; [|lia].
        replace (dstva + Z.of_nat (n + Z.to_nat (PGSIZE - off))) with (cur + (PGSIZE - off)) by (unfold cur; lia).
        lia.
      * intros i Hi. destruct (Z.lt_ge_cases i (Z.of_nat n)); [apply Hsome; lia|].
        unfold ubyte. replace (dstva + i) with (va0 + (off + (i - Z.of_nat n))) by (unfold cur in Hc; lia).
        rewrite PGROUNDDOWN_add by (done || lia). rewrite <- Hup.
        destruct (Z.eqb_spec (upage (k_mem s') N va0) 0); [done|]. by eexists.
    + rewrite !length_drop. lia.
Qed.

(** In a process's address space walkaddr() hands out only its user pages. *)
Lemma vok_ucopy root v :
  vok root v ->
  (forall va, aligned va -> TRAPFRAME <= va < MAXVA ->
     uaddr (pte_at (k_mem (v_st v)) (v_tree v) va) = 0) ->
  ucopy_ok (v_st v) (v_tree v) (v_free v) /\
  (forall va0, aligned va0 -> 0 <= va0 -> upage (k_mem (v_st v)) (v_tree v) va0 <> 0 ->
     va0 < v_top v /\ upage (k_mem (v_st v)) (v_tree v) va0 =
       PTE2PA (pte_at (k_mem (v_st v)) (v_tree v) va0)).
Proof.
  intros HV Hhigh. pose proof (vo_uvm _ _ HV) as HU.
  assert (Hu : forall va0, aligned va0 -> 0 <= va0 -> upage (k_mem (v_st v)) (v_tree v) va0 <> 0 ->
     va0 < v_top v /\ upage (k_mem (v_st v)) (v_tree v) va0 =
       PTE2PA (pte_at (k_mem (v_st v)) (v_tree v) va0)).
  { intros va0 Ha Hv Hne. pose proof (upage_max _ _ _ Hne) as Hmax. unfold upage in Hne |- *.
    destruct (Z.ltb_spec va0 MAXVA); [|lia]. split.
    - destruct (Z.lt_ge_cases va0 (v_top v)); [done|]. exfalso. apply Hne.
      destruct (Z.lt_ge_cases va0 TRAPFRAME); [|apply Hhigh; done || lia].
      pose proof (uvm_none _ _ _ _ _ HU va0 Ha ltac:(lia)) as Hn.
      unfold uaddr, pte_valid in *. apply negb_false_iff, Z.eqb_eq in Hn. by rewrite Hn.
    - unfold uaddr in *. repeat destruct (_ =? 0); done. }
  split; [split|done].
  - intros va0 Ha Hv Hne. destruct (Hu va0 Ha Hv Hne) as [Hlt ->].
    by destruct (uvm_map _ _ _ _ _ HU va0 Ha ltac:(lia)) as (_ & ? & ? & ?).
  - intros va0 va1 Ha Ha' Hv Hv' Hne E.
    destruct (Hu va0 Ha Hv Hne) as [Hlt E0]. rewrite E in Hne.
    destruct (Hu va1 Ha' Hv' Hne) as [Hlt' E1]. rewrite E, E1 in E0.
    by apply (uvm_inj _ _ _ _ _ HU); [| |lia|lia|].
Qed.

(** * copyinstr *)

Lemma copyinstr_page_spec n : forall p max dst m, exists str found max',
  copyinstr_page n p max dst m = (found, max', dst ++ str) /\
  str = read_bytes (length str) p m /\ (length str <= n)%nat /\
  match found with
  | true => exists s0, str = s0 ++ [0] /\ 0 ∉ s0
  | false => length str = n /\ (0 ∉ str) /\ max' = max - Z.of_nat n
  end.
Proof.
  induction n as [|n IH]; intros p max dst m; cbn [copyinstr_page].
  - exists [], false, max. rewrite app_nil_r. split; [done|]. split; [done|]. split; [done|].
    split; [done|]. split; [apply not_elem_of_nil|lia].
  - destruct (Z.eqb_spec (m p) 0) as [E|E].
    + exists [0], true, max. split; [done|]. split; [simpl; by rewrite E|]. split; [simpl; lia|].
      exists []. split; [done|apply not_elem_of_nil].
    + destruct (IH (p + 1) (max - 1) (dst ++ [m p]) m) as (str & f & mx & -> & Hs & Hl & Hf).
      exists (m p :: str), f, mx. rewrite <- app_assoc. split; [done|].
      split; [simpl; by rewrite <- Hs|]. split; [simpl; lia|]. destruct f.
      * destruct Hf as (s0 & -> & H0). exists (m p :: s0). split; [done|].
        rewrite not_elem_of_cons. by split.
      * destruct Hf as (Hl' & H0 & ->). split; [simpl; lia|].
        rewrite not_elem_of_cons. split; [by split|lia].
Qed.

Lemma copyinstr_spec s root N srcva max :
  rep (k_mem s) root N -> 0 <= srcva -> 0 <= max ->
  wp (copyinstr root srcva max) (fun '(r, bs) s' =>
    s' = s /\ ureads (k_mem s) N srcva bs /\ Z.of_nat (length bs) <= max /\
    ((r = 0 /\ exists str, bs = str ++ [0] /\ 0 ∉ str) \/
     (r = -1 /\ (0 ∉ bs) /\
      (Z.of_nat (length bs) = max \/ ubyte (k_mem s) N (srcva + Z.of_nat (length bs)) = None)))) s.
Proof.
  intros HR Hva Hmax0. unfold copyinstr.
  eapply wp_loop with
    (I := fun '(a, n, found, bs) s' => s' = s /\ ureads (k_mem s) N srcva bs /\
            Z.of_nat (length bs) <= max /\
            match found : bool with
            | true => exists str, bs = str ++ [0] /\ 0 ∉ str
            | false => (0 ∉ bs) /\ 0 <= n /\ Z.of_nat (length bs) + n = max /\
                (0 < n -> a = srcva + Z.of_nat (length bs))
            end)
    (mu := fun '(_, n, found, _) _ => if found : bool then O else Z.to_nat n).
  - split; [done|]. split; [intros i Hi; simpl in Hi; lia|]. split; [simpl; lia|].
    split; [apply not_elem_of_nil|]. split; [lia|]. split; [simpl; lia|]. simpl. lia.
  - lia.
  - intros [[[a n] found] bs] s' (-> & Hrd & Hlm & Hf).
    destruct found; cbn [negb andb].
    { wp_steps. split; [done|]. split; [done|]. split; [done|]. by left. }
    destruct Hf as (Hno & Hn & Hsum & Ha). destruct (Z.ltb_spec 0 n) as [Hpos|Hz].
    2:{ wp_steps. split; [done|]. split; [done|]. split; [done|]. right. split; [done|].
        split; [done|]. left. lia. }
    specialize (Ha Hpos). subst a. set (cur := srcva + Z.of_nat (length bs)) in *.
    destruct (ubyte_page cur) as (va0 & off & Hc & Hal & Hv0 & Hoff & Hrd0); [lia|].
    rewrite Hrd0. wp_steps. eapply wp_mono; [by apply walkaddr_upage|].
    intros pa s1 [-> ->]. destruct (Z.eqb_spec (upage (k_mem s) N va0) 0) as [E|E].
    { wp_steps. split; [done|]. split; [done|]. split; [done|]. right. split; [done|].
      split; [done|]. right. fold cur. unfold ubyte. by rewrite Hrd0, E. }
    wp_steps. pose proof (upage_max _ _ _ E) as Hmax. change MAXVA with (2 ^ 38) in Hmax.
    replace (cur - va0) with off by lia. rewrite Z.gtb_ltb.
    set (k := if n <? PGSIZE - off then n else PGSIZE - off).
    assert (Hk : 0 < k <= n /\ off + k <= PGSIZE /\ (k < n -> k = PGSIZE - off))
      by (unfold k; zcase; unfold PGSIZE in *; lia).
    clearbody k. destruct Hk as (Hk & Hok & Hkn).
    destruct (copyinstr_page_spec (Z.to_nat k) (upage (k_mem s) N va0 + off) n bs (k_mem s))
      as (str & f & n' & -> & Hstr & Hsl & Hf).
    rewrite u64_small by (unfold is_u64, PGSIZE in *; lia). wp_steps.
    assert (Hrd' : ureads (k_mem s) N srcva (bs ++ str)).
    { apply ureads_app; [done|]. fold cur. rewrite Hc, Hstr.
      rewrite <- (Nat2Z.id (length str)). apply ureads_page; done || lia. }
    rewrite length_app. split; [|destruct f; lia].
    split; [done|]. split; [done|]. split; [lia|]. destruct f.
    + destruct Hf as (s0 & -> & H0). exists (bs ++ s0). rewrite app_assoc. split; [done|].
      rewrite not_elem_of_app. by split.
    + destruct Hf as (Hl' & H0 & ->). rewrite not_elem_of_app. split; [by split|]. lia.
Qed.
End Copy.
