(* ===== verification/VmFree.v ===== *)
(** Releasing an address space: freewalk() and uvmfree() give back every
    page-table page and every user page, each exactly once. *)

From S2P Require Import Prelude Riscv CString Kalloc Vm VmTree VmWalk VmMap VmUser VmSpace VmAlloc.

Section Free.
Context `{Image}.

(** [q] is a page-table page of the subtree at path [k]. *)
Definition insub (N : tree) (k : list Z) (q : Z) : Prop :=
  exists k', k `prefix_of` k' /\ N !! k' = Some q.

(** The parts of [rep] that do not depend on memory. *)
Record wft (N : tree) : Prop := {
  wft_page : forall k p, N !! k = Some p -> page_ok p /\ (length k <= 2)%nat;
  wft_inj : forall k k' p, N !! k = Some p -> N !! k' = Some p -> k = k';
  wft_parent : forall k i q, N !! (k ++ [i]) = Some q -> is_Some (N !! k) /\ 0 <= i < 512;
}.

Lemma rep_wft m root N : rep m root N -> wft N.
Proof. intros []. by split. Qed.

(** The entries of a subtree whose leaves are all clear. *)
Record subrep (m : mem) (N : tree) (k : list Z) : Prop := {
  sr_inner : forall k' p i, k `prefix_of` k' -> N !! k' = Some p -> (length k' < 2)%nat ->
    0 <= i < 512 ->
    match N !! (k' ++ [i]) with
    | Some q => load64 m (slot p i) = Z.lor (PA2PTE q) PTE_V
    | None => pte_valid (load64 m (slot p i)) = false
    end;
  sr_leaf : forall k' p i, k `prefix_of` k' -> N !! k' = Some p -> length k' = 2%nat ->
    0 <= i < 512 -> pte_valid (load64 m (slot p i)) = false;
}.

Section Static.
Context (N : tree) (HW : wft N).

Lemma insub_aligned k q : insub N k q -> aligned q.
Proof using HW. intros (k' & _ & Hk'). by destruct (wft_page _ HW _ _ Hk') as [[? _] _]. Qed.

Lemma prefix_closed k r q : N !! (k ++ r) = Some q -> is_Some (N !! k).
Proof using HW.
  revert q. induction r as [|i r IH] using rev_ind; intros q Hq.
  - rewrite app_nil_r in Hq. by eexists.
  - rewrite app_assoc in Hq. apply (wft_parent _ HW) in Hq as [[q' Hq'] _]. by eapply IH.
Qed.

Lemma insub_none k q : N !! k = None -> ~ insub N k q.
Proof using HW.
  intros Hn (k' & [r ->] & Hk'). apply prefix_closed in Hk' as [? ?]. congruence.
Qed.

(** A subtree is its root page and the subtrees of its children. *)
Lemma insub_unfold k p q :
  N !! k = Some p ->
  insub N k q <-> q = p \/ exists j, 0 <= j < 512 /\ insub N (k ++ [j]) q.
Proof using HW.
  intros Hk. split.
  - intros (k' & [r ->] & Hk'). destruct r as [|j r].
    + left. rewrite app_nil_r in Hk'. congruence.
    + right. replace (k ++ j :: r) with ((k ++ [j]) ++ r) in Hk' by (by rewrite <- app_assoc).
      destruct (prefix_closed _ _ _ Hk') as [q' Hq'].
      destruct (wft_parent _ HW _ _ _ Hq') as [_ Hj].
      exists j. split; [done|]. exists ((k ++ [j]) ++ r). split; [by exists r|done].
  - intros [->|(j & Hj & k' & Hpre & Hk')].
    + exists k. split; [done|done].
    + exists k'. split; [|done]. etrans; [|exact Hpre]. by exists [j].
Qed.

Lemma insub_child_root k p j q : N !! k = Some p -> insub N (k ++ [j]) q -> q <> p.
Proof using HW.
  intros Hk (k' & [r ->] & Hk') ->.
  assert (E : (k ++ [j]) ++ r = k) by by eapply (wft_inj _ HW).
  apply (f_equal length) in E. rewrite !length_app in E. simpl in E. lia.
Qed.

Lemma root_not_child k p j : N !! k = Some p -> ~ insub N (k ++ [j]) p.
Proof using HW. intros Hk Hin. by apply (insub_child_root k p j p Hk Hin). Qed.

Lemma insub_siblings k j j' q : insub N (k ++ [j]) q -> insub N (k ++ [j']) q -> j = j'.
Proof using HW.
  intros (k1 & [r1 ->] & H1) (k2 & [r2 ->] & H2).
  assert (E : (k ++ [j]) ++ r1 = (k ++ [j']) ++ r2) by by eapply (wft_inj _ HW).
  rewrite <- !app_assoc in E. apply app_inv_head in E. by injection E.
Qed.

Lemma subrep_child m k j : subrep m N k -> subrep m N (k ++ [j]).
Proof.
  intros [Hi Hl]. split; intros k' p i Hpre; [apply Hi|apply Hl];
    (etrans; [|exact Hpre]; by exists [j]).
Qed.

Lemma subrep_frame m m' k :
  (forall q x, insub N k q -> in_page q x -> m' x = m x) -> subrep m N k -> subrep m' N k.
Proof using HW.
  intros Hext [Hi Hl].
  assert (Hld : forall k' p i, k `prefix_of` k' -> N !! k' = Some p -> 0 <= i < 512 ->
            load64 m' (slot p i) = load64 m (slot p i)).
  { intros k' p i Hpre Hk' Hi'. apply load64_ext. intros x Hx.
    apply (Hext p); [by exists k'|]. by eapply slot_in_page. }
  split; intros k' p i Hpre Hk' Hlen Hi'; rewrite (Hld k') by done; [by apply Hi|by eapply Hl].
Qed.
End Static.

Lemma ptr_not_leaf q :
  page_ok q -> Z.land (Z.lor (PA2PTE q) PTE_V) (Z.lor (Z.lor PTE_R PTE_W) PTE_X) = 0.
Proof.
  intros Hq. destruct (page_ok_bounds _ Hq) as [_ Hb].
  assert (E : PTE_FLAGS (Z.lor (PA2PTE q) 1) = 1) by (apply PTE_FLAGS_PA2PTE; lia).
  unfold PTE_FLAGS in E. change PTE_V with 1.
  change (Z.lor (Z.lor PTE_R PTE_W) PTE_X) with (Z.land 0x3FF 14).
  rewrite Z.land_assoc, E. done.
Qed.

(** What the loop has freed after its first [j] entries: the subtrees of the
    children below [j]. *)
Record freed (s : kst) (N : tree) (k : list Z) (p : Z) (l : list Z) (j : Z) (s' : kst) : Prop := {
  fr_list : exists ps, kinv s' (ps ++ l) /\
    (forall q, q ∈ ps <-> exists i, 0 <= i < j /\ insub N (k ++ [i]) q);
  fr_mem : forall x, ~ in_page p x ->
    (forall i q, 0 <= i < j -> insub N (k ++ [i]) q -> ~ in_page q x) ->
    k_mem s' x = k_mem s x;
  fr_slot : forall i, j <= i < 512 -> load64 (k_mem s') (slot p i) = load64 (k_mem s) (slot p i);
}.

Lemma freewalk_spec d : forall k p s N l,
  wft N -> N !! k = Some p -> (length k + d = 3)%nat -> subrep (k_mem s) N k ->
  kinv s l -> (forall q, insub N k q -> q ∉ l) ->
  wp (freewalk d p) (fun _ s' =>
    (exists ps, kinv s' (ps ++ l) /\ (forall q, q ∈ ps <-> insub N k q)) /\
    (forall x, (forall q, insub N k q -> ~ in_page q x) -> k_mem s' x = k_mem s x)) s.
Proof.
  induction d as [|d IH]; intros k p s N l HW Hk Hlen HS HK Hnl.
  { destruct (wft_page _ HW _ _ Hk). lia. }
  destruct (wft_page _ HW _ _ Hk) as [Hp Hk2]. pose proof Hp as [Hpa _].
  assert (Hpl : p ∉ l) by (apply Hnl; exists k; done).
  cbn [freewalk]. wp_steps.
  eapply wp_for_each with (I := fun pre _ s' => freed s N k p l (Z.of_nat (length pre)) s').
  - split; [|done|done]. exists []. split; [done|]. intros q. split.
    + intros Hq. by apply elem_of_nil in Hq.
    + intros (i & Hi & _). simpl in Hi. lia.
  - intros pre j suf s' Hseq [(ps & HK' & Hps) Hmem Hslot].
    apply seqZ_split in Hseq as [Hj Hjr]. rewrite length_app. cbn [length].
    rewrite Nat2Z.inj_add. change (Z.of_nat 1) with 1. rewrite <- Hj in *.
    change (p + 8 * j) with (slot p j). wp_steps. rewrite Hslot by lia.
    destruct (N !! (k ++ [j])) as [q|] eqn:Eq.
    + (* a child page table *)
      destruct (wft_page _ HW _ _ Eq) as [Hq Hql]. rewrite length_app in Hql. simpl in Hql.
      pose proof (sr_inner _ _ _ HS k p j ltac:(done) Hk ltac:(lia) Hjr) as He.
      rewrite Eq in He. rewrite He, pte_valid_ptr, ptr_not_leaf, PTE2PA_ptr by done.
      cbn [andb Z.eqb]. wp_steps.
      assert (Hsib : forall i q', 0 <= i < j -> insub N (k ++ [i]) q' -> ~ insub N (k ++ [j]) q').
      { intros i q' Hi H1 H2. pose proof (insub_siblings N HW k _ _ q' H1 H2). lia. }
      eapply wp_mono.
      { apply (IH (k ++ [j]) q s' N (ps ++ l)); try done.
        - rewrite length_app. simpl. lia.
        - eapply (subrep_frame N HW (k_mem s)); [|by apply subrep_child].
          intros q' x Hq' Hx. apply Hmem.
          + eapply (pages_disjoint q'); [by eapply insub_aligned|done| |done].
            by eapply insub_child_root.
          + intros i q1 Hi Hq1. eapply (pages_disjoint q'); [by eapply insub_aligned..| |done].
            intros ->. by eapply Hsib.
        - intros q' Hq'. rewrite elem_of_app. intros [Hin|Hin].
          + apply Hps in Hin as (i & Hi & Hin). by eapply Hsib.
          + eapply Hnl; [|done]. apply (insub_unfold N HW k p); [done|]. right. by exists j. }
      intros _ s1 [(ps1 & HK1 & Hps1) Hm1]. wp_steps.
      assert (Hpn : p ∉ ps1 ++ ps ++ l).
      { rewrite !elem_of_app. intros [Hin|[Hin|Hin]]; [| |done].
        - apply Hps1 in Hin. by apply (root_not_child N HW k p j).
        - apply Hps in Hin as (i & _ & Hin). by apply (root_not_child N HW k p i). }
      assert (Hst : forall x, ~ in_page p x -> store64 (k_mem s1) (slot p j) 0 x = k_mem s1 x).
      { intros x Hx. apply store64_other. intros Hs. apply Hx. by eapply slot_in_page. }
      assert (Hp1 : forall x, in_page p x -> k_mem s1 x = k_mem s' x).
      { intros x Hx. apply Hm1. intros q' Hq'. eapply (pages_disjoint p); [done|by eapply insub_aligned| |done].
        intros ->. by apply (root_not_child N HW k _ j Hk). }
      split.
      * exists (ps1 ++ ps). rewrite <- app_assoc. split.
        -- eapply kinv_frame; [exact HK1|done|done|apply store_le_bytes_ok, HK1|].
           intros q' x Hq' Hx. apply Hst. eapply (pages_disjoint q'); [|done| |done].
           ++ pose proof (kinv_pages _ _ HK1) as Hpg. rewrite Forall_forall in Hpg. by apply Hpg.
           ++ intros ->. done.
        -- intros q'. rewrite elem_of_app, Hps1, Hps. split.
           ++ intros [Hin|(i & Hi & Hin)]; [exists j|exists i]; (split; [lia|done]).
           ++ intros (i & Hi & Hin). destruct (decide (i = j)) as [->|]; [by left|].
              right. exists i. split; [lia|done].
      * intros x Hx Hx'. cbn. rewrite Hst, Hm1 by (try done; intros; by eapply (Hx' j); [lia|]).
        apply Hmem; [done|]. intros i q' Hi. apply Hx'. lia.
      * intros i Hi. cbn. rewrite load64_store64_slot by (done || lia).
        transitivity (load64 (k_mem s') (slot p i)); [|apply Hslot; lia].
        apply load64_ext. intros x Hx. apply Hp1. eapply slot_in_page; [|done]. lia.
    + (* no child: the entry is not valid *)
      assert (Hinv : pte_valid (load64 (k_mem s) (slot p j)) = false).
      { destruct (decide (length k < 2)%nat).
        - pose proof (sr_inner _ _ _ HS k p j ltac:(done) Hk ltac:(lia) Hjr) as He.
          by rewrite Eq in He.
        - eapply (sr_leaf _ _ _ HS k); [done|done|lia|done]. }
      rewrite Hinv. cbn [andb]. wp_steps. split.
      * exists ps. split; [done|]. intros q. rewrite Hps. split.
        -- intros (i & Hi & Hin). exists i. split; [lia|done].
        -- intros (i & Hi & Hin). exists i. split; [|done].
           destruct (decide (i = j)) as [->|]; [|lia]. exfalso. by eapply insub_none.
      * intros x Hx Hx'. apply Hmem; [done|]. intros i q Hi. apply Hx'. lia.
      * intros i Hi. apply Hslot. lia.
  - intros s' [(ps & HK' & Hps) Hmem Hslot]. rewrite length_seqZ in *.
    change (Z.of_nat (Z.to_nat 512)) with 512 in *.
    wp_use kfree_spec; [exact HK'|done| |].
    + rewrite elem_of_app. intros [Hin|Hin]; [|done].
      apply Hps in Hin as (i & _ & Hin). by apply (root_not_child N HW k p i).
    + intros _ s1 [HK1 Hf1]. split.
      * exists (p :: ps). split; [done|]. intros q.
        rewrite (insub_unfold N HW k p q Hk), elem_of_cons, Hps. done.
      * intros x Hx. rewrite Hf1.
        -- apply Hmem.
           ++ apply Hx. apply (insub_unfold N HW k p); [done|]. by left.
           ++ intros i q Hi Hq. apply Hx. apply (insub_unfold N HW k p); [done|].
              right. by exists i.
        -- apply Hx. apply (insub_unfold N HW k p); [done|]. by left.
Qed.

(** Every leaf slot is the slot of an address below MAXVA. *)
Lemma leaf_va i2 i1 i0 :
  0 <= i2 < 256 -> 0 <= i1 < 512 -> 0 <= i0 < 512 ->
  exists va, 0 <= va < MAXVA /\ aligned va /\ leaf_path va = [i2; i1] /\ PX 0 va = i0.
Proof.
  intros H2 H1 H0. exists (((i2 * 512 + i1) * 512 + i0) * 4096).
  change MAXVA with (256 * 512 * 512 * 4096). split; [lia|].
  split; [apply aligned_mul|]. unfold leaf_path. rewrite !PX_spec by lia.
  change (2 ^ (12 + 9 * 2)) with (4096 * 512 * 512). change (2 ^ (12 + 9 * 1)) with (4096 * 512).
  change (2 ^ (12 + 9 * 0)) with 4096. rewrite <- !Z.div_div by lia.
  rewrite Z.div_mul by lia.
  assert (E1 : ((i2 * 512 + i1) * 512 + i0) / 512 = i2 * 512 + i1)
    by (symmetry; apply Z.div_unique with i0; lia).
  assert (E2 : (i2 * 512 + i1) / 512 = i2) by (symmetry; apply Z.div_unique with i1; lia).
  assert (E3 : ((i2 * 512 + i1) * 512 + i0) mod 512 = i0)
    by (symmetry; apply Z.mod_unique with (i2 * 512 + i1); lia).
  assert (E4 : (i2 * 512 + i1) mod 512 = i1) by (symmetry; apply Z.mod_unique with i2; lia).
  rewrite E1, E2, E3, E4, (Z.mod_small i2) by lia. done.
Qed.

Lemma subrep_of_rep m root N :
  rep m root N ->
  (forall va, aligned va -> 0 <= va < MAXVA -> pte_valid (pte_at m N va) = false) ->
  subrep m N [].
Proof.
  intros HR Hclear. split.
  - intros k' p i _ Hk' Hlen Hi. by apply (rep_entry _ _ _ HR).
  - intros k' p i _ Hk' Hlen Hi. destruct k' as [|i2 [|i1 [|]]]; try done.
    pose proof (rep_low _ _ _ HR _ _ _ Hk') as Hlow.
    destruct (rep_parent _ _ _ HR [i2] i1 p Hk') as [[q Hq] H1].
    destruct (rep_parent _ _ _ HR [] i2 q Hq) as [_ H2].
    destruct (leaf_va i2 i1 i) as (va & Hva & Hal & Hlp & H0); [lia..|].
    specialize (Hclear va Hal Hva). unfold pte_at in Hclear. rewrite Hlp, Hk', H0 in Hclear. done.
Qed.

Lemma freewalk_root s root N l :
  vmst s root N l ->
  (forall va, aligned va -> 0 <= va < MAXVA -> pte_valid (pte_at (k_mem s) N va) = false) ->
  wp (freewalk 3 root) (fun _ s' =>
    exists l', kinv s' l' /\ (forall q, q ∈ l' <-> node N q \/ q ∈ l) /\
      (forall x, (forall q, node N q -> ~ in_page q x) -> k_mem s' x = k_mem s x)) s.
Proof.
  intros HV Hclear. pose proof (vmst_rep _ _ _ _ HV) as HR.
  assert (Hin : forall q, insub N [] q <-> node N q).
  { intros q. unfold insub, node. split; [naive_solver|].
    intros [k Hk]. exists k. split; [by exists k|done]. }
  eapply wp_mono.
  { apply (freewalk_spec 3 [] root s N l); [by eapply rep_wft|apply HR|done| |apply HV|].
    - by eapply subrep_of_rep.
    - intros q Hq. apply HV. by apply Hin. }
  intros _ s' [(ps & HK & Hps) Hm]. exists (ps ++ l). split; [done|]. split.
  - intros q. by rewrite elem_of_app, Hps, Hin.
  - intros x Hx. apply Hm. intros q Hq. apply Hx. by apply Hin.
Qed.

(** uvmfree() of a table with nothing mapped above the user area. *)
Lemma uvmfree_spec root s N l sz :
  vok root (mkView s N l (PGROUNDUP sz) []) -> 0 <= sz <= TRAPFRAME ->
  (forall va, aligned va -> TRAPFRAME <= va < MAXVA -> pte_valid (pte_at (k_mem s) N va) = false) ->
  wp (uvmfree root sz) (fun _ s' =>
    exists l', kinv s' l' /\ (forall q, q ∈ l' <-> pages (mkView s N l (PGROUNDUP sz) []) q) /\
      (forall x, (forall q, pages (mkView s N l (PGROUNDUP sz) []) q -> ~ in_page q x) ->
         k_mem s' x = k_mem s x)) s.
Proof.
  intros HV Hsz Hhigh. destruct (PGROUNDUP_user sz Hsz) as (Hta & _ & Htt).
  assert (HT : TRAPFRAME < MAXVA) by done. unfold uvmfree. wp_steps.
  eapply wp_mono with (Q := fun _ s1 => exists l1, vok root (mkView s1 N l1 0 []) /\
    evolves 0 (mkView s N l (PGROUNDUP sz) []) (mkView s1 N l1 0 [])).
  { rewrite Z.gtb_ltb. destruct (Z.ltb_spec 0 sz).
    - destruct (uvm_top _ _ _ _ _ (vo_uvm _ _ HV)) as [_ Htr]. cbn in Htr.
      pose proof (unmap_view root s N l (PGROUNDUP sz) 0 HV ltac:(done) ltac:(lia)) as Hun.
      rewrite Z.sub_0_r in Hun. eapply wp_mono; [exact Hun|].
      intros _ s1 (l1 & _ & HV1 & HE1). by exists l1.
    - assert (sz = 0) as -> by lia. wp_steps. change (PGROUNDUP 0) with 0 in *.
      exists l. split; [done|apply evolves_refl]. }
  intros _ s1 (l1 & HV1 & HE1). pose proof (vo_uvm _ _ HV1) as HU1. cbn in HU1.
  assert (Hpg : forall q, pages (mkView s N l (PGROUNDUP sz) []) q <-> node N q \/ q ∈ l1).
  { intros q. rewrite <- (ev_pages _ _ _ HE1). unfold pages, own, user_page. cbn.
    rewrite elem_of_nil. split; [|tauto].
    intros [[?|(va & _ & Hv & _)]|[?|?]]; try tauto. lia. }
  eapply wp_mono.
  { apply freewalk_root; [apply HU1|]. intros va Ha Hv.
    destruct (Z.lt_ge_cases va TRAPFRAME); [apply (uvm_none _ _ _ _ _ HU1); [done|lia]|].
    rewrite (ev_high _ _ _ HE1) by (done || lia). apply Hhigh; [done|lia]. }
  intros _ s2 (l2 & HK2 & Hl2 & Hm2). exists l2. split; [done|]. split.
  - intros q. by rewrite Hl2, Hpg.
  - intros x Hx. rewrite Hm2 by (intros q Hq; apply Hx, Hpg; by left).
    by apply (ev_frame _ _ _ HE1).
Qed.
End Free.
