(* ===== verification/VmFork.v ===== *)
(** Copying an address space: uvmcopy().

    Parent and child are two views of the same memory.  The child's steps
    touch only its own pages and the free list, so the parent keeps its
    entries and its bytes. *)

From S2P Require Import Prelude Riscv CString Kalloc Vm VmTree VmWalk VmMap VmUser VmSpace VmAlloc.

Section Fork.
Context `{Image}.

(** The process of [vo] has no page of the other view. *)
Definition apart (vo vn : view) : Prop := forall q, own vo q -> ~ pages vn q.

(** An address space seen from the steps of another one. *)
Record bystander (old : Z) (s : kst) (N : tree) (top : Z) (s' : kst) (l' : list Z) (vn' : view)
    : Prop := {
  by_ok : vok old (mkView s' N l' top []);
  by_user : same_user s N s' N top;
  by_high : same_high s N s' N;
  by_apart : apart (mkView s' N l' top []) vn';
}.

Lemma bystander_step old new s N l top keep vn vn' :
  vok old (mkView s N l top []) -> apart (mkView s N l top []) vn -> v_st vn = s ->
  vok new vn' -> evolves keep vn vn' ->
  bystander old s N top (v_st vn') (v_free vn') vn'.
Proof.
  intros HO HA Hs HV HE. subst s.
  destruct (view_elsewhere old _ HO (v_st vn') (v_free vn')) as (HU & HS & HH & HP).
  - apply HV.
  - intros q Hq Hin. apply (HA q Hq). apply (ev_pages _ _ _ HE). right. by left.
  - intros q x Hq Hx. apply (ev_frame _ _ _ HE). intros q' Hq'.
    assert (Hal' : aligned q').
    { apply (ev_pages _ _ _ HE) in Hq' as [Hq'|[Hq'|Hq']].
      - by apply (own_page_aligned _ _ HV).
      - by apply (free_page_ok _ _ HV) in Hq' as [? _].
      - by destruct (vo_held _ _ HV _ Hq') as ([? _] & _). }
    eapply (pages_disjoint q); [by apply (own_page_aligned _ _ HO)|done| |done].
    intros ->. by apply (HA q').
  - split; [|done|done|].
    + split; [done|]. intros x Hx. by apply elem_of_nil in Hx.
    + intros q Hq Hpg. apply (HA q).
      * destruct Hq as [Hq|Hq]; [by left|right]. by apply HP.
      * by apply (ev_pages _ _ _ HE).
Qed.

(** The child's pages below [i] are copies of the parent's. *)
Record copied (s : kst) (No : tree) (s' : kst) (Nn : tree) (i : Z) : Prop := {
  cp_flags : forall va, aligned va -> 0 <= va < i ->
    PTE_FLAGS (pte_at (k_mem s') Nn va) = PTE_FLAGS (pte_at (k_mem s) No va);
  cp_byte : forall va o, aligned va -> 0 <= va < i -> 0 <= o < PGSIZE ->
    k_mem s' (PTE2PA (pte_at (k_mem s') Nn va) + o) =
    k_mem s (PTE2PA (pte_at (k_mem s) No va) + o);
}.

Lemma copied_extend s No s1 N1 s2 N2 i :
  aligned i -> 0 <= i -> copied s No s1 N1 i -> same_user s1 N1 s2 N2 i ->
  PTE_FLAGS (pte_at (k_mem s2) N2 i) = PTE_FLAGS (pte_at (k_mem s) No i) ->
  (forall o, 0 <= o < PGSIZE ->
     k_mem s2 (PTE2PA (pte_at (k_mem s2) N2 i) + o) = k_mem s (PTE2PA (pte_at (k_mem s) No i) + o)) ->
  copied s No s2 N2 (i + PGSIZE).
Proof.
  intros Hi H0 [Hf Hb] [HP HB] Hf' Hb'.
  assert (Hcase : forall va, aligned va -> 0 <= va < i + PGSIZE -> 0 <= va < i \/ va = i).
  { intros va Ha Hv. destruct (Z.lt_ge_cases va i); [left; lia|right].
    apply aligned_between; done || lia. }
  split.
  - intros va Ha Hv. destruct (Hcase va Ha Hv) as [Hv'| ->]; [|done]. rewrite HP by done. by apply Hf.
  - intros va o Ha Hv Ho. destruct (Hcase va Ha Hv) as [Hv'| ->]; [|by apply Hb'].
    rewrite HP, HB by done. by apply Hb.
Qed.

(** One round of the loop, with the parent's entry [v] already loaded. *)
Definition copy_page (new i v : Z) : M kst (Z + Z) :=
  let pa := PTE2PA v in
  let flags := PTE_FLAGS v in
  let! mem := kalloc in
  if mem =? 0 then
    uvmunmap new 0 (i / PGSIZE) true ;;;
    ret (inr (-1))
  else
    upd_mem (memmove mem pa PGSIZE) ;;;
    let! r := mappages new i PGSIZE mem flags in
    if negb (r =? 0) then
      kfree mem ;;;
      uvmunmap new 0 (i / PGSIZE) true ;;;
      ret (inr (-1))
    else ret (inl (u64 (i + PGSIZE))).

Lemma undo_copy new s N l i :
  vok new (mkView s N l i []) ->
  wp (uvmunmap new 0 (i / PGSIZE) true) (fun _ s' => exists l',
    vok new (mkView s' N l' 0 []) /\
    evolves 0 (mkView s N l i []) (mkView s' N l' 0 [])) s.
Proof.
  intros HV. destruct (uvm_top _ _ _ _ _ (vo_uvm _ _ HV)) as [Hta Htr]. cbn in Hta, Htr.
  pose proof (unmap_view new s N l i 0 HV ltac:(done) ltac:(lia)) as Hun.
  rewrite Z.sub_0_r in Hun. eapply wp_mono; [exact Hun|]. intros _ s' (l' & _ & ? & ?). by exists l'.
Qed.

Lemma leaf_flags v :
  leaf_ok v -> is_u64 v ->
  0 <= PTE_FLAGS v < 2 ^ 10 /\ Z.lor (PTE_FLAGS v) PTE_V = PTE_FLAGS v /\ PTE_FLAGS v <> PTE_V.
Proof.
  intros [Hv Hf] Hu. split; [|split; [|done]].
  - unfold PTE_FLAGS. change 0x3FF with (Z.ones 10). rewrite Z.land_ones by done. apply Z.mod_pos_bound. done.
  - apply Z.bits_inj'. intros n Hn. rewrite Z.lor_spec.
    destruct (Z.eq_dec n 0) as [->|].
    + unfold PTE_FLAGS. rewrite Z.land_spec. change (Z.testbit 0x3FF 0) with true.
      change (Z.testbit PTE_V 0) with true. rewrite andb_true_r, orb_true_r.
      unfold pte_valid in Hv. apply negb_true_iff, Z.eqb_neq in Hv.
      destruct (Z.testbit v 0) eqn:E; [done|]. exfalso. apply Hv.
      change PTE_V with (Z.ones 1). rewrite Z.land_ones by done. change (2 ^ 1) with 2.
      by rewrite <- Z.bit0_mod, E.
    + change PTE_V with (2 ^ 0). rewrite (Z.pow2_bits_false 0) by lia. apply orb_false_r.
Qed.

Lemma pte_at_u64 m N va : bytes_ok m -> is_u64 (pte_at m N va).
Proof.
  intros Hb. unfold pte_at. destruct (N !! leaf_path va); [|done].
  unfold is_u64, load64. by apply (load_le_range 8).
Qed.

Section Round.
Context (old new : Z) (s : kst) (No Nn : tree) (l : list Z) (top i : Z).
Context (HO : vok old (mkView s No l top [])) (HN : vok new (mkView s Nn l i [])).
Context (HA : apart (mkView s No l top []) (mkView s Nn l i [])).
Context (Hi : i < top).

Lemma copy_page_spec :
  wp (copy_page new i (pte_at (k_mem s) No i)) (fun r s' =>
    exists N' l',
      (r = inl (i + PGSIZE) /\ (length l <= length l' + 3)%nat /\
       vok new (mkView s' N' l' (i + PGSIZE) []) /\
       evolves i (mkView s Nn l i []) (mkView s' N' l' (i + PGSIZE) []) /\
       PTE_FLAGS (pte_at (k_mem s') N' i) = PTE_FLAGS (pte_at (k_mem s) No i) /\
       (forall o, 0 <= o < PGSIZE ->
          k_mem s' (PTE2PA (pte_at (k_mem s') N' i) + o) =
          k_mem s (PTE2PA (pte_at (k_mem s) No i) + o))) \/
      (r = inr (-1) /\ (length l < 3)%nat /\ vok new (mkView s' N' l' 0 []) /\
       evolves 0 (mkView s Nn l i []) (mkView s' N' l' 0 []))) s.
Proof using HO HN HA Hi.
  destruct (uvm_top _ _ _ _ _ (vo_uvm _ _ HN)) as [Hia Hir]. cbn in Hia, Hir.
  destruct (uvm_top _ _ _ _ _ (vo_uvm _ _ HO)) as [Hta Htr]. cbn in Hta, Htr.
  destruct (uvm_map _ _ _ _ _ (vo_uvm _ _ HO) i Hia) as (Hleaf & Hpok & _); [cbn; lia|].
  cbn in Hleaf, Hpok. set (v := pte_at (k_mem s) No i) in *.
  destruct (leaf_flags v) as (Hfr & HfV & Hfn); [done|apply pte_at_u64, HN|].
  assert (Hmax : i + PGSIZE <= TRAPFRAME) by (pose proof (aligned_lt_pages _ _ Hia Hta Hi); lia).
  unfold copy_page. wp_steps. eapply wp_mono; [by apply kalloc_view|].
  intros r s1 Hr. destruct l as [|x l1].
  { destruct Hr as [-> ->]. simpl. wp_steps. eapply wp_mono; [by apply undo_copy|].
    intros _ s2 (l2 & HV2 & HE2). wp_steps. exists Nn, l2. right. split; [done|].
    split; [simpl; lia|]. done. }
  destruct Hr as (-> & Hx0 & HV1 & HE1). destruct (Z.eqb_spec x 0); [done|]. wp_steps.
  assert (Hxok : page_ok x) by (by destruct (vo_held _ _ HV1 x ltac:(by left))).
  destruct (fill_view new s1 Nn l1 i x (memmove x (PTE2PA v) PGSIZE (k_mem s1)) HV1) as [HV2 HE2].
  { intros y. rewrite memmove_spec by done. zcase; apply HV1. }
  { intros y Hy. rewrite memmove_spec by done. unfold in_page in Hy. zcase; lia || done. }
  set (s2 := set_k_mem (memmove x (PTE2PA v) PGSIZE (k_mem s1)) s1) in *.
  pose proof (evolves_trans i i i _ _ _ ltac:(lia) ltac:(lia) HE1 HE2) as HE12.
  assert (Hsrc : forall o, 0 <= o < PGSIZE -> k_mem s1 (PTE2PA v + o) = k_mem s (PTE2PA v + o)).
  { destruct (bystander_step old new s No (x :: l1) top i _ _ HO HA eq_refl HV1 HE1) as [_ [_ Hb] _ _].
    intros o Ho. apply Hb; [done|lia|done]. }
  eapply wp_mono; [apply (map_view new s2 Nn l1 i x (PTE_FLAGS v) HV2); [done..|by rewrite HfV]|].
  intros r s3 (N3 & l3 & Hlen & Hb3 & Hr). cbn [length].
  destruct Hr as [(-> & HV3 & HE3 & Hp3)|(-> & -> & Hlu & HV3 & HE3)];
    pose proof (evolves_trans i i i _ _ _ ltac:(lia) ltac:(lia) HE12 HE3) as HE13; simpl; wp_steps.
  - exists N3, l3. left. change TRAPFRAME with (2 ^ 38 - 8192) in Htr.
    rewrite u64_small by (unfold is_u64, PGSIZE in *; lia). split; [done|]. split; [lia|].
    split; [done|]. split; [done|]. rewrite Hp3.
    destruct (mkpte_facts x (PTE_FLAGS v) Hxok Hfr) as (-> & _ & ->). split; [done|].
    intros o Ho. rewrite Hb3 by done. unfold s2. simpl. rewrite memmove_spec by done.
    zcase; [|unfold PGSIZE in *; lia..]. rewrite <- Hsrc by done. f_equal. lia.
  - eapply wp_mono; [by apply kfree_view|]. intros _ s4 [HV4 HE4]. wp_steps.
    eapply wp_mono; [by apply (undo_copy new s4 N3 [x] i HV4)|].
    intros _ s5 (l5 & HV5 & HE5). wp_steps. exists N3, l5. right. split; [done|].
    split; [simpl; lia|]. split; [done|].
    refine (evolves_trans i 0 0 _ _ _ _ _ HE13 _); [lia|reflexivity|].
    by refine (evolves_trans i 0 0 _ _ _ _ _ HE4 HE5); [lia|reflexivity].
Qed.
End Round.

Lemma bystander_trans old s N top s1 l1 v1 s2 l2 v2 :
  bystander old s N top s1 l1 v1 -> bystander old s1 N top s2 l2 v2 ->
  bystander old s N top s2 l2 v2.
Proof.
  intros [_ U1 H1 _] [O2 U2 H2 A2]. split; [done|by eapply same_user_trans| |done].
  intros va Ha Hv. rewrite H2 by done. by apply H1.
Qed.

(** The lookup of the parent's entry at the start of a round. *)
Lemma parent_pte old s N l top i :
  vok old (mkView s N l top []) -> aligned i -> 0 <= i < top ->
  wp (walk old i false) (fun pte s' =>
    s' = s /\ pte <> 0 /\ load64 (k_mem s) pte = pte_at (k_mem s) N i /\
    Z.land (pte_at (k_mem s) N i) PTE_V <> 0) s.
Proof.
  intros HO Ha Hi. pose proof (vo_uvm _ _ HO) as HU. cbn in HU.
  destruct (uvm_top _ _ _ _ _ HU) as [_ Htr]. assert (HT : TRAPFRAME < MAXVA) by done.
  destruct (uvm_map _ _ _ _ _ HU i Ha Hi) as ([Hv _] & _).
  unfold pte_valid in Hv. apply negb_true_iff, Z.eqb_neq in Hv.
  eapply wp_mono; [apply (walk_spec i s old N); [apply HU|lia]|].
  intros pte s' [-> ->].
  destruct (Z.eq_dec (slot_of N i) 0) as [E|E].
  - exfalso. apply Hv. erewrite slot_of_zero_pte; [done|apply HU|done].
  - destruct (pte_at_slot (k_mem s) old N i) as (p & _ & _ & ->); [apply HU|done|]. 
    split; [done|]. split; [done|]. split; [done|]. 
    destruct (pte_at_slot (k_mem s) old N i) as (p' & _ & _ & <-); [apply HU|done|]. done.
Qed.

Lemma uvmcopy_spec old new s No Nn l sz :
  vok old (mkView s No l (PGROUNDUP sz) []) -> vok new (mkView s Nn l 0 []) ->
  apart (mkView s No l (PGROUNDUP sz) []) (mkView s Nn l 0 []) -> 0 <= sz <= TRAPFRAME ->
  wp (uvmcopy old new sz) (fun r s' =>
    exists N' l' top',
      vok new (mkView s' N' l' top' []) /\
      evolves 0 (mkView s Nn l 0 []) (mkView s' N' l' top' []) /\
      bystander old s No (PGROUNDUP sz) s' l' (mkView s' N' l' top' []) /\
      ((r = 0 /\ top' = PGROUNDUP sz /\ copied s No s' N' (PGROUNDUP sz)) \/
       (r = -1 /\ top' = 0 /\ Z.of_nat (length l) < 3 * (PGROUNDUP sz / PGSIZE)))) s.
Proof.
  intros HO HN HA Hsz. destruct (PGROUNDUP_user sz Hsz) as (Hta & Htb & Htt).
  set (top := PGROUNDUP sz) in *.
  assert (Hdiv : top = top / PGSIZE * PGSIZE).
  { unfold aligned, PGSIZE in *. pose proof (Z_div_mod_decomp top 4096 ltac:(lia)). lia. }
  unfold uvmcopy. eapply wp_loop with
    (I := fun i s' => exists k N' l', 0 <= k /\ i = k * PGSIZE /\ i <= top /\
            vok new (mkView s' N' l' i []) /\
            evolves 0 (mkView s Nn l 0 []) (mkView s' N' l' i []) /\
            bystander old s No top s' l' (mkView s' N' l' i []) /\
            copied s No s' N' i /\ Z.of_nat (length l) <= Z.of_nat (length l') + 3 * k)
    (mu := fun i _ => Z.to_nat (sz - i)).
  - exists 0, Nn, l. split; [lia|]. split; [lia|]. split; [lia|]. split; [done|].
    split; [apply evolves_refl|]. split; [by split; [|apply same_user_refl|..]|].
    split; [split; intros; lia|lia].
  - lia.
  - intros i s' (k & N' & l' & Hk & Ei & Hle & HV & HE & HB & HC & Hlen).
    assert (Hia : aligned i) by (subst i; apply aligned_mul).
    assert (Hi0 : 0 <= i) by (unfold PGSIZE in *; lia).
    destruct (Z.ltb_spec i sz) as [Hlt|Hge].
    + pose proof (by_ok _ _ _ _ _ _ _ HB) as HO'.
      pose proof (by_apart _ _ _ _ _ _ _ HB) as HA'.
      pose proof (aligned_lt_pages i top Hia Hta ltac:(lia)) as Hnext.
      wp_steps. eapply wp_mono; [apply (parent_pte old s' No l' top i HO'); done || lia|].
      intros pte s1 (-> & Hp0 & Hld & HpV). destruct (Z.eqb_spec pte 0); [done|]. wp_steps.
      rewrite Hld. destruct (Z.eqb_spec (Z.land (pte_at (k_mem s') No i) PTE_V) 0); [done|].
      eapply wp_mono; [apply (copy_page_spec old new s' No N' l' top i); done || lia|].
      intros r s1 (N1 & l1 & [(-> & Hl1 & HV1 & HE1 & Hf1 & Hb1)|(-> & Hl1 & HV1 & HE1)]);
        pose proof (bystander_trans _ _ _ _ _ _ _ _ _ _ HB
          (bystander_step old new s' No l' top _ _ _ HO' HA' eq_refl HV1 HE1)) as HB1.
      * split; [|unfold PGSIZE in *; lia]. exists (k + 1), N1, l1.
        split; [lia|]. split; [unfold PGSIZE in *; lia|]. split; [done|]. split; [done|].
        split; [by refine (evolves_trans 0 i 0 _ _ _ _ _ HE HE1)|]. split; [done|]. split; [|lia].
        destruct (by_user _ _ _ _ _ _ _ HB) as [HP HBy].
        apply (copied_extend s No s' N' s1 N1 i); try done; [apply HE1|..].
        -- rewrite Hf1, HP by (done || lia). done.
        -- intros o Ho. rewrite Hb1, HP, HBy by (done || lia). done.
      * exists N1, l1, 0. split; [done|].
        split; [by refine (evolves_trans 0 0 0 _ _ _ _ _ HE HE1)|]. split; [done|]. right.
        split; [done|]. split; [done|]. unfold PGSIZE in *. lia.
    + assert (i = top) as ->.
      { destruct (Z.eq_dec i top); [done|].
        pose proof (aligned_lt_pages i top Hia Hta ltac:(lia)). unfold PGSIZE in *; lia. }
      wp_steps. exists N', l', top. split; [done|]. split; [done|]. split; [done|]. by left.
Qed.
End Fork.
