(* ===== verification/VmProps.v ===== *)
(** Properties of virtual memory that combine several routines of vm.c, and
    a concrete machine state on which they are exercised. *)

From S2P Require Import Prelude Riscv CString Kalloc Vm VmTree VmWalk.
From S2P Require Import VmMap VmUser VmSpace VmAlloc VmCopy VmFree VmFork.

Section Props.
Context `{Image}.

(** * A new page table *)

Definition root_tree (root : Z) : tree := {[ [] := root ]}.

Lemma root_tree_node root q : node (root_tree root) q <-> q = root.
Proof.
  unfold node, root_tree. split.
  - intros [k Hk]. by apply lookup_singleton_Some in Hk as [_ ->].
  - intros ->. exists []. apply lookup_singleton_eq.
Qed.

Lemma root_tree_rep m root :
  page_ok root -> (forall i, 0 <= i < 512 -> load64 m (slot root i) = 0) ->
  rep m root (root_tree root).
Proof.
  intros Hr Hz. unfold root_tree. split.
  - apply lookup_singleton_eq.
  - intros k p Hk. apply lookup_singleton_Some in Hk as [<- <-]. split; [done|simpl; lia].
  - intros k k' p Hk Hk'. apply lookup_singleton_Some in Hk as [<- _], Hk' as [<- _]. done.
  - intros k p i Hk _ Hi. apply lookup_singleton_Some in Hk as [<- <-].
    rewrite lookup_singleton_ne by done. by rewrite Hz.
  - intros k i q Hk. apply lookup_singleton_Some in Hk as [E _]. by destruct k.
  - intros i r q Hk. by apply lookup_singleton_Some in Hk as [E _].
Qed.

Lemma root_tree_pte m root va : pte_at m (root_tree root) va = 0.
Proof. unfold pte_at, root_tree. by rewrite lookup_singleton_ne. Qed.

Lemma root_tree_vok s root l :
  kinv s l -> rep (k_mem s) root (root_tree root) -> root ∉ l ->
  vok root (mkView s (root_tree root) l 0 []).
Proof.
  intros HK HR Hl. split; cbn.
  - split; [|done|intros; lia|intros; lia|intros; by rewrite root_tree_pte].
    split; [done|done|]. intros p Hp. by apply root_tree_node in Hp as ->.
  - intros x Hx. by apply elem_of_nil in Hx.
Qed.

Lemma uvmcreate_spec s l :
  kinv s l ->
  wp uvmcreate (fun r s' =>
    match l with
    | [] => r = 0 /\ s' = s
    | x :: l' => r = x /\ x <> 0 /\ vok x (mkView s' (root_tree x) l' 0 []) /\
        (forall y, ~ in_page x y -> k_mem s' y = k_mem s y)
    end) s.
Proof.
  intros HK. unfold uvmcreate. wp_steps. wp_use kalloc_spec; [done|].
  intros r s1. destruct l as [|x l']; [by intros [-> ->]|]. intros (-> & HK1 & Hm).
  pose proof (kinv_nodup _ _ HK) as Hnd. apply NoDup_cons in Hnd as [Hxl _].
  pose proof (kinv_pages _ _ HK) as Hpg. apply Forall_cons in Hpg as [Hx Hpg].
  pose proof (page_ok_pos _ Hx) as Hx0. destruct (Z.eqb_spec x 0); [lia|]. wp_steps.
  assert (Hf : forall y, ~ in_page x y -> memset x 0 PGSIZE (k_mem s1) y = k_mem s1 y).
  { intros y Hy. rewrite memset_spec by done. unfold in_page in Hy. zcase; lia || done. }
  split; [done|]. split; [done|]. split.
  - apply root_tree_vok; [| |done].
    + eapply kinv_frame; [exact HK1|done|done|apply memset_bytes_ok; [done|apply HK1]|].
      intros q y Hq Hy. cbn. apply Hf. rewrite Forall_forall in Hpg.
      eapply (pages_disjoint q); [by apply Hpg|by destruct Hx| |done]. intros ->. done.
    + apply root_tree_rep; [done|]. intros i Hi. cbn [k_mem set_k_mem]. apply load64_memset0_slot; assumption.
  - intros y Hy. cbn. rewrite Hf, Hm by done. unfold in_page in Hy. zcase; lia || done.
Qed.

(** The life of an address space: create, grow to [sz], release. *)
Definition uvm_life (sz xperm : Z) : M kst Z :=
  let! pt := uvmcreate in
  if pt =? 0 then ret 0
  else
    let! r := uvmalloc pt 0 sz xperm in
    uvmfree pt r ;;;
    ret r.


(** * Copying *)

(** The pages above the user area are not accessible to user code. *)
Definition high_closed (s : kst) (N : tree) : Prop :=
  forall va, aligned va -> TRAPFRAME <= va < MAXVA -> uaddr (pte_at (k_mem s) N va) = 0.

Lemma uaddr_flags pte pte' :
  PTE_FLAGS pte' = PTE_FLAGS pte ->
  (uaddr pte' = 0 /\ uaddr pte = 0) \/ (uaddr pte' = PTE2PA pte' /\ uaddr pte = PTE2PA pte).
Proof.
  intros Hf.
  assert (Hb : forall b, Z.land 0x3FF b = b -> Z.land pte' b = Z.land pte b).
  { intros b <-. rewrite !Z.land_assoc. unfold PTE_FLAGS in Hf. by rewrite Hf. }
  unfold uaddr. rewrite (Hb PTE_V), (Hb PTE_U) by done.
  repeat destruct (_ =? 0); tauto.
Qed.

(** A copy of an address space shows the same byte at every address. *)
Lemma ubyte_copied root root' v v' :
  vok root v -> vok root' v' -> v_top v' = v_top v ->
  high_closed (v_st v) (v_tree v) -> high_closed (v_st v') (v_tree v') ->
  copied (v_st v) (v_tree v) (v_st v') (v_tree v') (v_top v) ->
  forall a, 0 <= a -> ubyte (k_mem (v_st v')) (v_tree v') a = ubyte (k_mem (v_st v)) (v_tree v) a.
Proof.
  intros HV HV' Ht Hh Hh' [Hf Hb] a Ha.
  destruct (ubyte_page a Ha) as (va0 & o & -> & Hal & Hv0 & Ho & Hrd).
  unfold ubyte. rewrite Hrd. replace (va0 + o - va0) with o by lia.
  destruct (Z.lt_ge_cases va0 (v_top v)) as [Hlt|Hge].
  - pose proof (uvm_map _ _ _ _ _ (vo_uvm _ _ HV) va0 Hal ltac:(lia)) as (_ & Hp & _).
    pose proof (uvm_map _ _ _ _ _ (vo_uvm _ _ HV') va0 Hal ltac:(lia)) as (_ & Hp' & _).
    apply page_ok_pos in Hp as [Hp _], Hp' as [Hp' _].
    destruct (uvm_top _ _ _ _ _ (vo_uvm _ _ HV)) as [_ Htr].
    assert (HT : TRAPFRAME < MAXVA) by done. unfold upage.
    destruct (Z.ltb_spec va0 MAXVA); [|lia].
    destruct (uaddr_flags _ _ (Hf va0 Hal ltac:(lia))) as [[-> ->]|[-> ->]]; [done|].
    destruct (Z.eqb_spec (PTE2PA (pte_at (k_mem (v_st v')) (v_tree v') va0)) 0); [lia|].
    destruct (Z.eqb_spec (PTE2PA (pte_at (k_mem (v_st v)) (v_tree v) va0)) 0); [lia|].
    f_equal. apply Hb; done || lia.
  - destruct (vok_ucopy _ _ HV Hh) as [_ Hu]. destruct (vok_ucopy _ _ HV' Hh') as [_ Hu'].
    destruct (Z.eqb_spec (upage (k_mem (v_st v')) (v_tree v') va0) 0) as [_|E'];
      [|destruct (Hu' va0 Hal Hv0 E'); lia].
    destruct (Z.eqb_spec (upage (k_mem (v_st v)) (v_tree v) va0) 0) as [_|E]; [done|].
    destruct (Hu va0 Hal Hv0 E). lia.
Qed.

Lemma same_user_copied s N s' N' top : same_user s N s' N' top -> copied s N s' N' top.
Proof.
  intros [HP HB]. split.
  - intros va Ha Hv. by rewrite HP.
  - intros va o Ha Hv Ho. rewrite HP by done. by apply HB.
Qed.

Lemma high_closed_keep s N s' N' : high_closed s N -> same_high s N s' N' -> high_closed s' N'.
Proof. intros Hc Hs va Ha Hv. rewrite Hs by done. by apply Hc. Qed.

(** Writing into one process is invisible in another one. *)
Lemma uwritten_apart root root' v v' s1 va bs :
  vok root v -> vok root' v' -> v_st v = v_st v' -> apart v v' ->
  high_closed (v_st v') (v_tree v') ->
  uwritten (v_st v') s1 (v_tree v') va bs ->
  forall q x, own v q -> in_page q x -> k_mem s1 x = k_mem (v_st v) x.
Proof.
  intros HV HV' Hs HA Hh HW q x Hq Hx. rewrite Hs. apply (uw_frame _ _ _ _ _ HW).
  intros va0 Ha Hv Hne Hx'. destruct (vok_ucopy _ _ HV' Hh) as [_ Hu].
  destruct (Hu va0 Ha Hv Hne) as [Hlt E]. rewrite E in Hx'.
  assert (Ho : own v' (PTE2PA (pte_at (k_mem (v_st v')) (v_tree v') va0))) by (right; by exists va0; split_and!).
  eapply (pages_disjoint q _ x); [by apply (own_page_aligned _ _ HV)| | |exact Hx|exact Hx'].
  - by apply (own_page_aligned _ _ HV').
  - intros ->. apply (HA _ Hq). by left.
Qed.


(** copyout() and copyin() are inverse through user memory: when copyout()
    reports success for a buffer, copyin() from the same address reports
    success and returns that buffer. *)
Theorem copyout_copyin s root N l va bs :
  vmst s root N l -> ucopy_ok s N l -> 0 <= va -> Forall is_u8 bs ->
  wp (let! r := copyout root va bs in
      let! r' := copyin root va (Z.of_nat (length bs)) in ret (r, r'))
    (fun '(r, r') s' => r = 0 -> r' = (0, bs)) s.
Proof.
  intros HV HC Hva Hbs. wp_steps. eapply wp_mono; [by apply (copyout_spec s root N l)|].
  intros r s1 (n & HV1 & HC1 & HW & Hr). wp_steps.
  eapply wp_mono; [apply (copyin_spec s1 root N); [apply HV1|done|lia]|].
  intros [r' bs'] s2 (-> & Hrd & Hr'). wp_steps. intros ->.
  destruct Hr as [(_ & -> & Hsome)|(? & _)]; [|done]. rewrite take_ge in HW by lia.
  assert (Hb : forall i, 0 <= i < Z.of_nat (length bs) ->
            ubyte (k_mem s1) N (va + i) = Some (zget bs i)).
  { intros i Hi. rewrite (uw_byte _ _ _ _ _ HW) by lia. zcase; [|lia..].
    destruct (Hsome i Hi) as [b ->]. simpl. do 2 f_equal. lia. }
  destruct Hr' as [[-> Hl]|(-> & Hl & Hnone)].
  - f_equal. apply list_eq_zget; [lia|]. intros i Hi.
    specialize (Hrd i ltac:(lia)). rewrite Hb in Hrd by lia. by injection Hrd.
  - rewrite Hb in Hnone by lia. done.
Qed.

(** copyinstr() reads exactly the string at the user address: on success
    the buffer holds the bytes up to and including the first NUL, at most
    [max] of them; it fails exactly when there is no NUL among the first [max]
    bytes the process can access. *)
Theorem copyinstr_string s root N va max :
  rep (k_mem s) root N -> 0 <= va -> 0 <= max ->
  wp (copyinstr root va max) (fun '(r, bs) s' => s' = s /\
    (r = 0 /\ (exists str, bs = str ++ [0] /\ ureads (k_mem s) N va bs /\
        (0 ∉ str) /\ Z.of_nat (length bs) <= max) \/
     r = -1 /\ ~ (exists i, 0 <= i < max /\ ubyte (k_mem s) N (va + i) = Some 0 /\
        (forall j, 0 <= j < i -> is_Some (ubyte (k_mem s) N (va + j)))))) s.
Proof.
  intros HR Hva Hmax. eapply wp_mono; [by apply copyinstr_spec|].
  intros [r bs] s' (-> & Hrd & Hlm & Hr). split; [done|].
  destruct Hr as [(-> & str & -> & H0)|(-> & H0 & Hend)].
  - left. split; [done|]. by exists str.
  - right. split; [done|]. intros (i & Hi & Hz & Hall).
    destruct (Z.lt_ge_cases i (Z.of_nat (length bs))).
    + rewrite Hrd in Hz by lia. injection Hz as Hz. apply H0. rewrite <- Hz.
      eapply list_elem_of_lookup_2. apply zget_lookup. lia.
    + destruct Hend as [?|Hn]; [lia|].
      destruct (Z.eq_dec i (Z.of_nat (length bs))) as [->|]; [congruence|].
      destruct (Hall (Z.of_nat (length bs)) ltac:(lia)) as [? ?]. congruence.
Qed.

(** mappages() installs the translation it was asked for: on success
    walkaddr() of every address of the range gives the corresponding physical
    page when the mapping is a user one, addresses outside the range translate
    as before, and failure means the free list ran out. *)
Theorem mappages_walkaddr s root N l va size pa perm va' :
  vmst s root N l -> 0 <= va -> 0 < size -> va + size <= MAXVA ->
  page_ok pa -> page_ok (pa + size + PGSIZE) -> 0 <= perm < 2 ^ 10 -> Z.land perm PTE_U <> 0 ->
  (forall a, aligned a -> map_first va <= a < map_first va + map_count va size * PGSIZE ->
     pte_valid (pte_at (k_mem s) N a) = false) ->
  0 <= va' < MAXVA -> aligned va' ->
  wp (let! r := mappages root va size pa perm in
      let! q := walkaddr root va' in ret (r, q)) (fun '(r, q) s' =>
    (r = 0 /\ q = if (map_first va <=? va') && (va' <? map_first va + map_count va size * PGSIZE)
                  then pa + (va' - map_first va) else uaddr (pte_at (k_mem s) N va')) \/
    (r = -1 /\ Z.of_nat (length l) < 2 * map_count va size)) s.
Proof.
  intros HV Hva Hsz Hmax Hpa Hpa2 Hperm HU Hfree Hv' Ha'.
  pose proof (page_ok_pos _ Hpa) as [Hp0 _]. pose proof (page_ok_pos _ Hpa2) as [_ Hp2].
  change PHYSTOP with 0x88000000 in Hp2.
  wp_steps. eapply wp_mono; [apply mappages_spec; done || unfold PGSIZE in *; lia|].
  intros r s1 (N1 & l1 & used & j & HV1 & HE1 & [Hp1] & _ & Hr). wp_steps.
  eapply wp_mono; [apply (walkaddr_spec va' s1 root N1); [apply HV1|lia]|].
  intros q s2 [-> ->]. wp_steps. destruct (Z.ltb_spec va' MAXVA); [|lia].
  destruct Hr as [(-> & -> & Hu)|(-> & -> & Hj & Hu)].
  2:{ right. split; [done|]. rewrite (ext_list _ _ _ _ _ _ _ HE1), app_nil_r. done. }
  left. split; [done|]. rewrite Hp1 by done.
  destruct ((map_first va <=? va') && (va' <? map_first va + map_count va size * PGSIZE)) eqn:E; [|done].
  apply andb_true_iff in E as [E1 E2]. apply Z.leb_le in E1. apply Z.ltb_lt in E2.
  destruct (map_count_bounds va size Hva Hsz Hmax) as (Hn & Hlast & _).
  destruct (PGROUNDDOWN_bounds (va + size - 1)) as [Hb1 Hbl].
  assert (Hle : va' <= PGROUNDDOWN (va + size - 1)).
  { destruct (Z.lt_ge_cases (PGROUNDDOWN (va + size - 1)) va') as [Hlt|]; [|done].
    pose proof (aligned_lt_pages _ _ Hbl Ha' Hlt). unfold PGSIZE in *. lia. }
  destruct (PGROUNDDOWN_bounds va) as [Hb2 Hal]. fold (map_first va) in Hb2, Hal.
  assert (Hin : page_ok (pa + (va' - map_first va))).
  { destruct Hpa as [Hpa ?], Hpa2 as [_ ?]. split; [|unfold PGSIZE in *; lia].
    unfold aligned in *. by rewrite Z.add_mod, Zminus_mod, Hpa, Ha', Hal. }
  destruct (mkpte_facts _ perm Hin Hperm) as (HPA & Hval & Hfl). unfold uaddr.
  rewrite HPA. unfold pte_valid in Hval. apply negb_true_iff in Hval. rewrite Hval.
  destruct (Z.eqb_spec (Z.land (mkpte (pa + (va' - map_first va)) perm) PTE_U) 0) as [Hz|]; [|done].
  exfalso. apply HU. unfold mkpte in Hz. rewrite !Z.land_lor_distr_l in Hz.
  apply Z.lor_eq_0_iff in Hz as [Hz _]. apply Z.lor_eq_0_iff in Hz as [_ Hz]. done.
Qed.
End Props.

(** * A concrete machine

    Six free pages, a process with one read-only user page at address 0, and
    the empty page table of its child. *)

Module Demo.

#[local] Existing Instance demo_image.

Definition free_pages : list Z := demo_page <$> [0; 1; 2; 3; 4; 5].
Definition root : Z := demo_page 10.
Definition mid : Z := demo_page 11.
Definition low : Z := demo_page 12.
Definition upg : Z := demo_page 13.
Definition croot : Z := demo_page 20.

Definition tree0 : tree := <[ [] := root ]> (<[ [0] := mid ]> {[ [0; 0] := low ]}).

Fixpoint link (l : list Z) (m : mem) : mem :=
  match l with
  | [] => m
  | p :: l' => match l' with [] => m | q :: _ => store64 (link l' m) p q end
  end.

Definition mem0 : mem :=
  store64 (store64 (store64 (link free_pages (fun _ => 0))
    (slot root 0) (Z.lor (PA2PTE mid) PTE_V))
    (slot mid 0) (Z.lor (PA2PTE low) PTE_V))
    (slot low 0) (mkpte upg (Z.lor PTE_R PTE_U)).

Definition st0 : kst := mkKst mem0 (demo_page 0) false.

Lemma link_bytes_ok l m : bytes_ok m -> bytes_ok (link l m).
Proof.
  intros Hm. induction l as [|p l IH]; [done|]. destruct l as [|q l]; [done|].
  by apply store_le_bytes_ok.
Qed.

Lemma st0_kinv : kinv st0 free_pages.
Proof.
  split.
  - vm_compute. by repeat split.
  - by apply (bool_decide_unpack (NoDup free_pages)).
  - unfold free_pages. repeat constructor; done.
  - done.
  - do 3 apply store_le_bytes_ok. by apply link_bytes_ok.
Qed.

Lemma tree0_cases k p :
  tree0 !! k = Some p ->
  (k = [] /\ p = root) \/ (k = [0] /\ p = mid) \/ (k = [0; 0] /\ p = low).
Proof.
  unfold tree0. rewrite !lookup_insert_Some, lookup_singleton_Some. naive_solver.
Qed.

(** All entries of the page-table pages, by evaluation. *)
Definition entries_ok : bool :=
  forallb (fun i => (load64 mem0 (slot root i) =? if i =? 0 then Z.lor (PA2PTE mid) PTE_V else 0) &&
                    (load64 mem0 (slot mid i) =? if i =? 0 then Z.lor (PA2PTE low) PTE_V else 0) &&
                    (load64 mem0 (slot low i) =? if i =? 0 then mkpte upg (Z.lor PTE_R PTE_U) else 0) &&
                    (load64 mem0 (slot croot i) =? 0))
    (seqZ 0 512).

Lemma entries i : 0 <= i < 512 ->
  load64 mem0 (slot root i) = (if i =? 0 then Z.lor (PA2PTE mid) PTE_V else 0) /\
  load64 mem0 (slot mid i) = (if i =? 0 then Z.lor (PA2PTE low) PTE_V else 0) /\
  load64 mem0 (slot low i) = (if i =? 0 then mkpte upg (Z.lor PTE_R PTE_U) else 0) /\
  load64 mem0 (slot croot i) = 0.
Proof.
  intros Hi. assert (E : entries_ok = true) by (vm_compute; reflexivity).
  unfold entries_ok in E. rewrite forallb_forall in E.
  assert (Hin : In i (seqZ 0 512)) by (apply list_elem_of_In, elem_of_seqZ; lia).
  apply E in Hin. rewrite !andb_true_iff, !Z.eqb_eq in Hin. tauto.
Qed.

Lemma st0_rep : rep mem0 root tree0.
Proof.
  split.
  - done.
  - intros k p Hk. apply tree0_cases in Hk as [[-> ->]|[[-> ->]|[-> ->]]]; (split; [done|simpl; lia]).
  - intros k k' p Hk Hk'.
    apply tree0_cases in Hk as [[-> ->]|[[-> ->]|[-> ->]]];
      apply tree0_cases in Hk' as [[-> ?]|[[-> ?]|[-> ?]]]; done.
  - intros k p i Hk Hl Hi. destruct (entries i Hi) as (Hr & Hm & _).
    apply tree0_cases in Hk as [[-> ->]|[[-> ->]|[-> ->]]]; simpl in Hl; [| |lia].
    + destruct (Z.eqb_spec i 0) as [->|Hne]; [done|]. cbn [app].
      destruct (tree0 !! [i]) as [q|] eqn:E; [|by rewrite Hr].
      apply tree0_cases in E. naive_solver.
    + destruct (Z.eqb_spec i 0) as [->|Hne]; [done|]. cbn [app].
      destruct (tree0 !! [0; i]) as [q|] eqn:E; [|by rewrite Hm].
      apply tree0_cases in E. naive_solver.
  - intros k i q Hk. apply tree0_cases in Hk as [[E ->]|[[E ->]|[E ->]]].
    + by destruct k.
    + destruct k as [|? [|]]; simplify_eq/=. split; [by eexists|lia].
    + destruct k as [|? [|? [|]]]; simplify_eq/=. split; [by eexists|lia].
  - intros i r q Hk. apply tree0_cases in Hk. naive_solver lia.
Qed.

Lemma pte0 va :
  0 <= va < MAXVA -> aligned va ->
  pte_at mem0 tree0 va = if va =? 0 then mkpte upg (Z.lor PTE_R PTE_U) else 0.
Proof.
  intros Hv Ha. destruct (Z.eqb_spec va 0) as [->|Hne]; [vm_compute; reflexivity|].
  unfold pte_at. destruct (tree0 !! leaf_path va) as [p|] eqn:E; [|done].
  apply tree0_cases in E as [[E ->]|[[E ->]|[E ->]]]; [done|done|].
  destruct (entries (PX 0 va) (PX_range 0 va)) as (_ & _ & -> & _).
  destruct (Z.eqb_spec (PX 0 va) 0) as [E0|]; [|done].
  exfalso. apply Hne. by apply (leaf_path_inj 0 va).
Qed.

Lemma parent_ok : vok root (mkView st0 tree0 free_pages PGSIZE []).
Proof.
  assert (Hva : forall va, aligned va -> 0 <= va < PGSIZE -> va = 0)
    by (intros va Ha Hv; by apply aligned_between).
  split; cbn.
  - split.
    + split; [apply st0_kinv|apply st0_rep|]. intros p [k Hk].
      apply tree0_cases in Hk as [[_ ->]|[[_ ->]|[_ ->]]];
        by apply (bool_decide_unpack (_ ∉ free_pages)).
    + done.
    + intros va Ha Hv. rewrite (Hva va Ha Hv). rewrite pte0 by done. cbn [Z.eqb].
      split; [by vm_compute|]. split; [by vm_compute|]. split.
      * intros [k Hk]. by apply tree0_cases in Hk as [[_ E]|[[_ E]|[_ E]]].
      * by apply (bool_decide_unpack (_ ∉ free_pages)).
    + intros va va' Ha Ha' Hv Hv' _. rewrite (Hva va), (Hva va'); done.
    + intros va Ha Hv. assert (TRAPFRAME < MAXVA) by done.
      rewrite pte0 by (done || unfold PGSIZE in *; lia). zcase; [unfold PGSIZE in *; lia|done].
  - intros x Hx. by apply elem_of_nil in Hx.
Qed.

Lemma parent_closed : high_closed st0 tree0.
Proof.
  intros va Ha Hv. assert (0 < TRAPFRAME) by done. cbn. rewrite pte0 by (done || lia).
  zcase; [lia|done].
Qed.

Lemma child_ok : vok croot (mkView st0 (root_tree croot) free_pages 0 []).
Proof.
  apply root_tree_vok; [apply st0_kinv| |by apply (bool_decide_unpack (_ ∉ free_pages))].
  apply root_tree_rep; [done|]. intros i Hi. exact (proj2 (proj2 (proj2 (entries i Hi)))).
Qed.

Lemma child_closed : high_closed st0 (root_tree croot).
Proof. intros va Ha Hv. by rewrite root_tree_pte. Qed.

Lemma parent_child_apart :
  apart (mkView st0 tree0 free_pages PGSIZE []) (mkView st0 (root_tree croot) free_pages 0 []).
Proof.
  intros q Hq Hp. destruct Hp as [[Hc|(va & _ & Hv & _)]|[Hf|Hf]].
  - apply root_tree_node in Hc as ->. destruct Hq as [[k Hk]|(va & Ha & Hv & E)].
    + by apply tree0_cases in Hk as [[_ E]|[[_ E]|[_ E]]].
    + cbn in Hv, E. rewrite (aligned_between 0 va) in E by done. by rewrite pte0 in E.
  - cbn in Hv. lia.
  - by apply (own_not_free _ _ parent_ok) in Hq.
  - by apply elem_of_nil in Hf.
Qed.
End Demo.

(** * The properties at work on it *)

#[local] Existing Instance demo_image.



Lemma copyout_copyin_witness :
  wp (let! r := copyout Demo.root 4090 [1; 2; 3] in
      let! r' := copyin Demo.root 4090 3 in ret (r, r'))
    (fun '(r, r') s' => r = 0 -> r' = (0, [1; 2; 3])) Demo.st0.
Proof.
  apply (copyout_copyin Demo.st0 Demo.root Demo.tree0 Demo.free_pages 4090 [1; 2; 3]).
  - apply Demo.parent_ok.
  - apply (vok_ucopy _ _ Demo.parent_ok Demo.parent_closed).
  - done.
  - repeat constructor; done.
Defined.

Lemma copyinstr_string_witness :
  wp (copyinstr Demo.root 0 16) (fun '(r, bs) s' => s' = Demo.st0 /\
    (r = 0 /\ (exists str, bs = str ++ [0] /\ ureads Demo.mem0 Demo.tree0 0 bs /\
        (0 ∉ str) /\ Z.of_nat (length bs) <= 16) \/
     r = -1 /\ ~ (exists i, 0 <= i < 16 /\ ubyte Demo.mem0 Demo.tree0 (0 + i) = Some 0 /\
        (forall j, 0 <= j < i -> is_Some (ubyte Demo.mem0 Demo.tree0 (0 + j)))))) Demo.st0.
Proof. apply (copyinstr_string Demo.st0 Demo.root Demo.tree0 0 16); [apply Demo.st0_rep|done|done]. Defined.

Lemma mappages_walkaddr_witness :
  wp (let! r := mappages Demo.croot PGSIZE PGSIZE Demo.upg (Z.lor PTE_R PTE_U) in
      let! q := walkaddr Demo.croot PGSIZE in ret (r, q)) (fun '(r, q) s' =>
    (r = 0 /\ q = Demo.upg) \/ (r = -1 /\ 6 < 2 * map_count PGSIZE PGSIZE)) Demo.st0.
Proof.
  apply (mappages_walkaddr Demo.st0 Demo.croot (root_tree Demo.croot) Demo.free_pages
           PGSIZE PGSIZE Demo.upg (Z.lor PTE_R PTE_U) PGSIZE); try done.
  - apply Demo.child_ok.
  - intros a _ _. by rewrite root_tree_pte.
Defined.
