(* ===== verification/VmKernel.v ===== *)
(** The kernel's page table: kvmmake(), proc_mapstacks(). *)

From S2P Require Import Prelude Riscv CString Kalloc Vm VmTree VmWalk VmMap VmUser VmProps.

Section Kernel.
Context `{Image}.

(** * Page-table pages *)

(** The tables the kernel's mappings can need: the root, one for each gigabyte
    and one for each two megabytes they touch. *)
Definition ktables : gset (list Z) := list_to_set
  ([[]; [0]; [2]; [255]; [0; 96]; [0; 97]; [0; 128]; [255; 511]] ++ map (fun i => [2; i]) (seqZ 0 64)).

Lemma ktables_size : size ktables = 72%nat.
Proof. by vm_compute. Qed.
Lemma ktables_root : [] ∈ ktables.
Proof. by apply (bool_decide_eq_true _). Qed.

(** Distinct pages need distinct places in the tree. *)
Lemma places_count (used : list Z) (N : tree) (X : gset (list Z)) :
  NoDup used -> (forall p, p ∈ used -> exists k, k ∈ X /\ N !! k = Some p) -> (length used <= size X)%nat.
Proof.
  revert X. induction used as [|p used IH]; intros X Hnd Hk; [cbn; lia|].
  apply NoDup_cons in Hnd as [Hp Hnd]. destruct (Hk p) as (k & HkX & Hkp); [by left|].
  assert (Hsz : size (X ∖ {[k]}) = (size X - 1)%nat).
  { rewrite size_difference by set_solver. by rewrite size_singleton. }
  assert (Hpos : (1 <= size X)%nat) by
    (rewrite <- (size_singleton (C := gset (list Z)) k); apply subseteq_size; set_solver).
  assert (Hle : (length used <= size (X ∖ {[k]}))%nat).
  { apply IH; [done|]. intros q Hq. destruct (Hk q) as (k' & Hk'X & Hk'q); [by right|]. exists k'. split; [|done].
    assert (k' <> k) by (intros ->; congruence). set_solver. }
  cbn. lia.
Qed.

(** The table so far, with tables left for all that is still to be mapped and
    [c] pages besides. *)
Record ktab (s : kst) (root : Z) (N : tree) (l : list Z) (c : Z) : Prop := {
  kt_vm : vmst s root N l;
  kt_dom : dom N ⊆ ktables;
  kt_room : Z.of_nat (size (ktables ∖ dom N)) + c < Z.of_nat (length l);
}.

Lemma ktab_extend s root N l c s' N' l' used :
  ktab s root N l c -> vmst s' root N' l' -> extend s N l s' N' l' used -> dom N' ⊆ ktables ->
  Z.of_nat (size (ktables ∖ dom N')) + c < Z.of_nat (length l').
Proof.
  intros [HV Hd Hr] HV' [El Hsub Hn Hf] Hd'.
  assert (Hnd : NoDup used).
  { pose proof (kinv_nodup _ _ (vmst_k _ _ _ _ HV)) as Hl. rewrite El in Hl. by apply NoDup_app in Hl as [? _]. }
  assert (Hle : (length used <= size ((ktables ∖ dom N) ∩ dom N'))%nat).
  { apply (places_count used N'); [done|]. intros p Hp.
    destruct (proj2 (Hn p) (or_intror Hp)) as [k Hk]. exists k. split; [|done].
    assert (Hk' : k ∈ dom N') by (by apply elem_of_dom_2 in Hk).
    assert (Hno : k ∉ dom N).
    { intros [p' Hp']%elem_of_dom. pose proof (lookup_weaken _ _ _ _ Hp' Hsub) as Hq.
      rewrite Hk in Hq. injection Hq as <-. apply (vmst_disj _ _ _ _ HV p); [by exists k|].
      rewrite El. apply elem_of_app. by left. }
    set_solver. }
  assert (Hsz : (size (ktables ∖ dom N) = size ((ktables ∖ dom N) ∩ dom N') + size (ktables ∖ dom N'))%nat).
  { assert (HNN : dom N ⊆ dom N') by (by apply subseteq_dom).
    generalize (dom N') (dom N) ktables HNN. clear. intros D' D K Hsub.
    rewrite <- size_union by set_solver. f_equal. apply set_eq. intros k.
    destruct (decide (k ∈ D')); set_solver. }
  rewrite El, length_app in Hr. lia.
Qed.

Lemma ktab_not_full s root N l c : ktab s root N l c -> 0 <= c -> l <> [].
Proof. intros [_ _ Hr] Hc ->. cbn in Hr. lia. Qed.

(** * kvmmap() *)

Lemma map_count_pages va size :
  aligned va -> aligned size -> 0 <= va -> 0 < size ->
  map_first va = va /\ map_count va size * PGSIZE = size.
Proof.
  intros Ha Hs Hva Hsz. unfold map_first, map_count. rewrite (PGROUNDDOWN_aligned va Ha). split; [done|].
  rewrite PGROUNDDOWN_spec. unfold aligned, PGSIZE in *.
  pose proof (Z_div_mod_decomp va 4096 ltac:(done)). pose proof (Z_div_mod_decomp size 4096 ltac:(done)).
  assert (E : (va + size - 1) / 4096 = va / 4096 + size / 4096 - 1).
  { symmetry. apply Z.div_unique with 4095; lia. }
  rewrite E. replace (4096 * (va / 4096 + size / 4096 - 1) - va) with ((size / 4096 - 1) * 4096) by lia.
  rewrite Z.div_mul by done. lia.
Qed.

Lemma kvmmap_spec va size pa perm s root N l c :
  ktab s root N l c -> 0 <= c -> aligned va -> aligned size -> 0 <= va -> 0 < size -> va + size <= MAXVA ->
  0 <= pa -> pa + size + PGSIZE < 2 ^ 56 -> 0 <= perm < 2 ^ 10 ->
  (forall a, aligned a -> va <= a < va + size ->
     [PX 2 a] ∈ ktables /\ leaf_path a ∈ ktables /\ pte_valid (pte_at (k_mem s) N a) = false) ->
  wp (kvmmap root va pa size perm) (fun _ s' => exists N' l' used,
    ktab s' root N' l' c /\ extend s N l s' N' l' used /\
    forall a, 0 <= a < MAXVA -> aligned a ->
      pte_at (k_mem s') N' a = if (va <=? a) && (a <? va + size) then mkpte (pa + (a - va)) perm
                               else pte_at (k_mem s) N a) s.
Proof.
  intros HK Hc Ha Hs Hva Hsz Hmax Hpa Hpm Hperm Hreg.
  destruct (map_count_pages va size Ha Hs Hva Hsz) as [E1 E2].
  unfold kvmmap. apply wp_bind. eapply wp_mono.
  { apply (mappages_spec va size pa perm s root N l); try done; [apply HK|]. rewrite E1, E2. intros a Haa Hr.
    by apply Hreg. }
  rewrite E1, E2. intros r s' (N' & l' & used & j & HV' & HE & [Hp] & Hdom & Hr).
  assert (Hd' : dom N' ⊆ ktables).
  { intros k Hk%elem_of_dom. destruct (Hdom k Hk) as [Hk'|(a & Haa & Har & [->| ->])].
    - by apply (kt_dom _ _ _ _ _ HK), elem_of_dom.
    - exact (proj1 (Hreg a Haa Har)).
    - exact (proj1 (proj2 (Hreg a Haa Har))). }
  pose proof (ktab_extend _ _ _ _ _ _ _ _ _ HK HV' HE Hd') as Hroom.
  assert (HK' : ktab s' root N' l' c) by (by split).
  destruct Hr as [(-> & -> & _)|(-> & -> & _)].
  - apply wp_ret. exists N', l', used. split; [done|]. split; [done|]. intros a Hav Haa. by rewrite Hp, E2.
  - exfalso. by apply (ktab_not_full _ _ _ _ _ HK' Hc).
Qed.

(** * What is mapped *)

Definition krw : Z := Z.lor PTE_R PTE_W.
Definition krx : Z := Z.lor PTE_R PTE_X.

(** The page and the permissions of a page of kernel virtual memory, before the
    stacks: devices, text, data and free memory where they are, the trampoline
    page at the top. *)
Definition kmap0 (va : Z) : option (Z * Z) :=
  if (va =? UART0) || (va =? VIRTIO0) then Some (va, krw)
  else if (PLIC <=? va) && (va <? PLIC + 0x400000) then Some (va, krw)
  else if (KERNBASE <=? va) && (va <? etext) then Some (va, krx)
  else if (etext <=? va) && (va <? PHYSTOP) then Some (va, krw)
  else if va =? TRAMPOLINE then Some (trampoline, krx)
  else None.

(** With the stacks of processes 0 to [n] - 1, in the pages [stk]. *)
Definition kstack_idx (va : Z) : Z := (TRAMPOLINE - va) / (2 * PGSIZE) - 1.
Definition kmap (n : Z) (stk : Z -> Z) (va : Z) : option (Z * Z) :=
  let p := kstack_idx va in
  if (0 <=? p) && (p <? n) && (KSTACK p =? va) then Some (stk p, krw) else kmap0 va.

Definition pte_of (o : option (Z * Z)) : Z :=
  match o with Some (pa, perm) => mkpte pa perm | None => 0 end.

Lemma kstack_idx_KSTACK p : kstack_idx (KSTACK p) = p.
Proof.
  unfold kstack_idx, KSTACK. replace (TRAMPOLINE - (TRAMPOLINE - (p + 1) * 2 * PGSIZE)) with ((p + 1) * (2 * PGSIZE)) by lia.
  rewrite Z.div_mul by done. lia.
Qed.

(** The constants of the layout, for arithmetic. *)
Lemma layout :
  UART0 = 0x10000000 /\ VIRTIO0 = 0x10001000 /\ PLIC = 0x0c000000 /\ KERNBASE = 0x80000000 /\
  PHYSTOP = 0x88000000 /\ TRAMPOLINE = 0x3ffffff000 /\ MAXVA = 0x4000000000 /\ PGSIZE = 4096 /\ NPROC = 64.
Proof. done. Qed.

Lemma KSTACK_range p : 0 <= p < NPROC -> 0x3fffe00000 < KSTACK p <= TRAMPOLINE - 2 * PGSIZE /\ aligned (KSTACK p).
Proof.
  intros Hp. unfold NPROC in Hp. change (KSTACK p) with (0x3ffffff000 - (p + 1) * 2 * 4096).
  change (TRAMPOLINE - 2 * PGSIZE) with 0x3fffffd000. split; [lia|]. unfold aligned, PGSIZE.
  replace (0x3ffffff000 - (p + 1) * 2 * 4096) with ((67108863 - 2 * (p + 1)) * 4096) by lia. by apply Z.mod_mul.
Qed.

(** The tables of an address, from where it lies. *)
Lemma ktables_at a g m :
  0 <= a -> g * 2 ^ 30 + m * 2 ^ 21 <= a < g * 2 ^ 30 + (m + 1) * 2 ^ 21 -> 0 <= g < 512 -> 0 <= m < 512 ->
  PX 2 a = g /\ PX 1 a = m.
Proof.
  intros Ha Hr Hg Hm. rewrite !PX_spec by lia. change (12 + 9 * 2) with 30. change (12 + 9 * 1) with 21.
  assert (E1 : a / 2 ^ 30 = g) by (symmetry; apply Z.div_unique with (a - g * 2 ^ 30); lia).
  assert (E2 : a / 2 ^ 21 = g * 512 + m) by (symmetry; apply Z.div_unique with (a - (g * 512 + m) * 2 ^ 21); lia).
  rewrite E1, E2. split; [by apply Z.mod_small|]. rewrite Z.add_comm, Z.mod_add by lia. by apply Z.mod_small.
Qed.

Definition ktable_ok (a : Z) : Prop := [PX 2 a] ∈ ktables /\ leaf_path a ∈ ktables.

Lemma ktable_elem k : bool_decide (k ∈ ktables) = true -> k ∈ ktables.
Proof. apply bool_decide_eq_true. Qed.

Lemma ktable_fixed a g m :
  0 <= a -> g * 2 ^ 30 + m * 2 ^ 21 <= a < g * 2 ^ 30 + (m + 1) * 2 ^ 21 -> 0 <= g < 512 -> 0 <= m < 512 ->
  bool_decide ([g] ∈ ktables) && bool_decide ([g; m] ∈ ktables) = true -> ktable_ok a.
Proof.
  intros Ha Hr Hg Hm [H1 H2]%andb_true_iff. destruct (ktables_at a g m Ha Hr Hg Hm) as [E2 E1].
  unfold ktable_ok, leaf_path. rewrite E2, E1. split; by apply ktable_elem.
Qed.

Lemma ktable_ram a : KERNBASE <= a < PHYSTOP -> ktable_ok a.
Proof.
  change KERNBASE with 0x80000000. change PHYSTOP with 0x88000000. intros Ha.
  set (m := (a - 0x80000000) / 2 ^ 21).
  assert (Hm : 0 <= m < 64) by (split; [apply Z.div_pos; lia|apply Z.div_lt_upper_bound; lia]).
  assert (Hr : 0x80000000 + m * 2 ^ 21 <= a < 0x80000000 + (m + 1) * 2 ^ 21).
  { pose proof (Z_div_mod_decomp (a - 0x80000000) (2 ^ 21) ltac:(lia)). fold m in H0. lia. }
  destruct (ktables_at a 2 m) as [E2 E1]; [lia|lia|lia|lia|]. unfold ktable_ok, leaf_path. rewrite E2, E1.
  split; [apply ktable_elem; by vm_compute|]. unfold ktables. apply elem_of_list_to_set, elem_of_app. right.
  apply list_elem_of_fmap. exists m. split; [done|]. apply elem_of_seqZ. lia.
Qed.

#[local] Opaque ktables.

(** * Building the table *)

(** The table maps what [f] says. *)
Record kstage (s : kst) (root : Z) (N : tree) (l : list Z) (c : Z) (f : Z -> option (Z * Z)) : Prop := {
  ks_tab : ktab s root N l c;
  ks_pte : forall a, 0 <= a < MAXVA -> aligned a -> pte_at (k_mem s) N a = pte_of (f a);
}.

Definition map_region (va pa size perm : Z) (f : Z -> option (Z * Z)) (a : Z) : option (Z * Z) :=
  if (va <=? a) && (a <? va + size) then Some (pa + (a - va), perm) else f a.

Lemma kvmmap_stage va size pa perm s root N l c f (Q : unit -> kst -> Prop) :
  kstage s root N l c f -> 0 <= c -> aligned va -> aligned size -> 0 <= va -> 0 < size -> va + size <= MAXVA ->
  0 <= pa -> pa + size + PGSIZE < 2 ^ 56 -> 0 <= perm < 2 ^ 10 ->
  (forall a, aligned a -> va <= a < va + size -> ktable_ok a /\ f a = None) ->
  (forall s' N' l' used, kstage s' root N' l' c (map_region va pa size perm f) -> extend s N l s' N' l' used -> Q tt s') ->
  wp (kvmmap root va pa size perm) Q s.
Proof.
  intros [HK Hf] Hc Ha Hs Hva Hsz Hmax Hpa Hpm Hperm Hreg HQ. eapply wp_mono.
  { apply (kvmmap_spec va size pa perm s root N l c HK Hc Ha Hs Hva Hsz Hmax Hpa Hpm Hperm). intros a Haa Hr.
    destruct (Hreg a Haa Hr) as [[H1 H2] H3]. split; [done|]. split; [done|]. rewrite Hf by (lia || done). by rewrite H3. }
  intros [] s' (N' & l' & used & HK' & HE & Hp). apply (HQ s' N' l' used); [|done]. split; [done|].
  intros a Hav Haa. rewrite Hp by done. unfold map_region. destruct (_ && _); [done|]. by apply Hf.
Qed.

Lemma kstage_ext s root N l c f g :
  (forall a, 0 <= a < MAXVA -> aligned a -> f a = g a) -> kstage s root N l c f -> kstage s root N l c g.
Proof. intros He [HK Hf]. split; [done|]. intros a Hav Haa. rewrite <- He by done. by apply Hf. Qed.

Ltac region_case := repeat (zcase; try (exfalso; lia)); try done.

(** The six regions give [kmap0]. *)
Lemma kmap0_regions a :
  0 <= a < MAXVA -> aligned a ->
  map_region TRAMPOLINE trampoline PGSIZE krx
    (map_region etext etext (PHYSTOP - etext) krw
      (map_region KERNBASE KERNBASE (etext - KERNBASE) krx
        (map_region PLIC PLIC 0x400000 krw
          (map_region VIRTIO0 VIRTIO0 PGSIZE krw
            (map_region UART0 UART0 PGSIZE krw (fun _ => None)))))) a = kmap0 a.
Proof.
  intros Hav Haa. destruct layout as (EU & EV & EP & EK & ES & ET & EM & EG & _).
  pose proof etext_bounds as Het. pose proof end_bounds as Hen. unfold map_region, kmap0.
  assert (Hq : a = 4096 * (a / 4096)).
  { unfold aligned, PGSIZE in Haa. pose proof (Z_div_mod_decomp a 4096 ltac:(done)). lia. }
  set (q := a / 4096) in *. clearbody q. rewrite EU, EV, EP, EK, ES, ET, EM, EG in *.
  assert (Hid : forall v, v + (a - v) = a) by lia. rewrite !Hid.
  region_case. do 2 f_equal. lia.
Qed.

(** A page of the table without a mapping yet. *)
Ltac unmapped :=
  unfold map_region;
  destruct layout as (EU & EV & EP & EK & ES & ET & EM & EG & _);
  rewrite ?EU, ?EV, ?EP, ?EK, ?ES, ?ET, ?EM, ?EG in *; region_case.

(** An empty root, before the code [k] that fills it. *)
Lemma kvm_root {A} (k : Z -> M kst A) (Q : A -> kst -> Prop) s x l c :
  kinv s (x :: l) -> 71 + c < Z.of_nat (length l) ->
  (forall s', kstage s' x (root_tree x) l c (fun _ => None) -> wp (k x) Q s') ->
  wp (let! kpgtbl := kalloc in upd_mem (memset kpgtbl 0 PGSIZE) ;;; k kpgtbl) Q s.
Proof.
  intros HK Hlen HQ. pose proof (uvmcreate_spec s (x :: l) HK) as Hu. unfold uvmcreate in Hu.
  apply wp_bind_inv in Hu. apply wp_bind. pose proof (kalloc_spec s (x :: l) HK) as Hx.
  eapply wp_mono; [exact (wp_conj _ _ _ _ Hu Hx)|]. cbn beta.
  intros r s1 (Hs & -> & _ & _). pose proof (kinv_pages _ _ HK) as Hpg. apply Forall_cons in Hpg as [Hp _].
  apply page_ok_pos in Hp as [Hp _]. destruct (Z.eqb_spec x 0); [lia|].
  apply wp_bind_inv in Hs. apply wp_bind. eapply wp_mono; [exact Hs|]. cbn beta.
  intros [] s' (_ & _ & HV & _). apply HQ.
  assert (Hd : dom (root_tree x) = {[ [] ]}) by apply dom_singleton_L. split; [split|].
  - apply HV.
  - rewrite Hd. intros k0 ->%elem_of_singleton. apply ktables_root.
  - rewrite Hd, size_difference, ktables_size, size_singleton; [lia|].
    intros k0 ->%elem_of_singleton. apply ktables_root.
  - intros a _ _. apply root_tree_pte.
Qed.

(** The calls of kvmmap() in kvmmake(), before the code [k]. *)
Definition kvm_regions {A} (kpgtbl : Z) (k : M kst A) : M kst A :=
  kvmmap kpgtbl UART0 UART0 PGSIZE krw ;;;
  kvmmap kpgtbl VIRTIO0 VIRTIO0 PGSIZE krw ;;;
  kvmmap kpgtbl PLIC PLIC 0x400000 krw ;;;
  kvmmap kpgtbl KERNBASE KERNBASE (etext - KERNBASE) krx ;;;
  kvmmap kpgtbl etext etext (PHYSTOP - etext) krw ;;;
  kvmmap kpgtbl TRAMPOLINE trampoline PGSIZE krx ;;;
  k.

Lemma aligned_sub x y : aligned x -> aligned y -> aligned (x - y).
Proof. unfold aligned. intros Hx Hy. by rewrite Zminus_mod, Hx, Hy. Qed.

Lemma kvm_regions_spec {A} (k : M kst A) (Q : A -> kst -> Prop) s root N l c :
  kstage s root N l c (fun _ => None) -> 0 <= c -> end_ < PHYSTOP ->
  (forall s' N' l', kstage s' root N' l' c kmap0 -> wp k Q s') ->
  wp (kvm_regions root k) Q s.
Proof.
  intros HS Hc Hend HQ. pose proof etext_bounds as Het. pose proof end_bounds as Hen. pose proof etext_aligned as Hea.
  pose proof trampoline_bounds as Htb.
  assert (Hst : PHYSTOP < 2 ^ 40 /\ 0 < KERNBASE /\ PHYSTOP < MAXVA /\ aligned KERNBASE /\ aligned PHYSTOP) by done.
  destruct Hst as (Hps & Hkb & Hpm & Hka & Hpa).
  unfold kvm_regions. apply wp_bind. apply (kvmmap_stage UART0 PGSIZE UART0 krw _ _ _ _ _ _ _ HS);
    [done|done|done|done|done|done|done|done|done| | ].
  { intros a Ha Hr. split; [|done]. unfold UART0, PGSIZE in Hr. apply (ktable_fixed a 0 128); [lia|lia|done|done|by vm_compute]. }
  clear HS. intros s1 N1 l1 _ HS _. apply wp_bind. apply (kvmmap_stage VIRTIO0 PGSIZE VIRTIO0 krw _ _ _ _ _ _ _ HS);
    [done|done|done|done|done|done|done|done|done| | ].
  { intros a Ha Hr. split; [|by unmapped]. unfold VIRTIO0, PGSIZE in Hr. apply (ktable_fixed a 0 128); [lia|lia|done|done|by vm_compute]. }
  clear HS. intros s2 N2 l2 _ HS _. apply wp_bind. apply (kvmmap_stage PLIC 0x400000 PLIC krw _ _ _ _ _ _ _ HS);
    [done|done|done|done|done|done|done|done|done| | ].
  { intros a Ha Hr. split; [|by unmapped]. change PLIC with 0x0c000000 in Hr.
    destruct (Z.lt_ge_cases a 0x0c200000); [apply (ktable_fixed a 0 96)|apply (ktable_fixed a 0 97)];
      [lia|lia|done|done|by vm_compute|lia|lia|done|done|by vm_compute]. }
  clear HS. intros s3 N3 l3 _ HS _. apply wp_bind.
  apply (kvmmap_stage KERNBASE (etext - KERNBASE) KERNBASE krx _ _ _ _ _ _ _ HS);
    [done|done|by apply aligned_sub|lia|lia|lia|lia|unfold PGSIZE; lia|done| | ].
  { intros a Ha Hr. split; [apply ktable_ram; lia|by unmapped]. }
  clear HS. intros s4 N4 l4 _ HS _. apply wp_bind.
  apply (kvmmap_stage etext (PHYSTOP - etext) etext krw _ _ _ _ _ _ _ HS);
    [done|done|by apply aligned_sub|lia|lia|lia|lia|unfold PGSIZE; lia|done| | ].
  { intros a Ha Hr. split; [apply ktable_ram; lia|by unmapped]. }
  clear HS. intros s5 N5 l5 _ HS _. apply wp_bind.
  apply (kvmmap_stage TRAMPOLINE PGSIZE trampoline krx _ _ _ _ _ _ _ HS);
    [done|done|done|done|done|done|lia|unfold PGSIZE; lia|done| | ].
  { intros a Ha Hr. split; [|by unmapped]. change TRAMPOLINE with 0x3ffffff000 in Hr.
    apply (ktable_fixed a 255 511); [lia|unfold PGSIZE in Hr; lia|done|done|by vm_compute]. }
  clear HS. intros s6 N6 l6 _ HS _. apply (HQ s6 N6 l6). eapply kstage_ext; [|exact HS]. apply kmap0_regions.
Qed.

(** The pages of the first [n] stacks: distinct pages of memory, not free and
    not part of the page table. *)
Record kstacks (n : Z) (stk : Z -> Z) (N : tree) (l : list Z) : Prop := {
  kk_page : forall p, 0 <= p < n -> page_ok (stk p);
  kk_free : forall p, 0 <= p < n -> stk p ∉ l;
  kk_node : forall p, 0 <= p < n -> ~ node N (stk p);
  kk_inj : forall p q, 0 <= p < n -> 0 <= q < n -> stk p = stk q -> p = q;
}.

Lemma kstacks_extend n stk s N l s' N' l' used :
  kstacks n stk N l -> extend s N l s' N' l' used -> kstacks n stk N' l'.
Proof.
  intros [A B C D] [El _ Hn _]. split; try done.
  - intros p Hp Hin. apply (B p Hp). rewrite El. apply elem_of_app. by right.
  - intros p Hp [Ho|Hu]%Hn; [by apply (C p)|]. apply (B p Hp). rewrite El. apply elem_of_app. by left.
Qed.

Lemma kstacks_add n stk N x l :
  0 <= n -> kstacks n stk N (x :: l) -> page_ok x -> (x ∉ l) -> ~ node N x -> kstacks (n + 1) (fset stk n x) N l.
Proof.
  intros Hn [A B C D] Hx Hl Hno.
  assert (Hold : forall p, 0 <= p < n -> stk p <> x) by (intros p Hp E; apply (B p Hp); rewrite E; by left).
  assert (Hcase : forall p, 0 <= p < n + 1 -> p = n \/ p <> n /\ 0 <= p < n) by lia.
  split.
  - intros p [->|[Hne Hp]]%Hcase; [by rewrite fset_eq|rewrite fset_ne by done; by apply A].
  - intros p [->|[Hne Hp]]%Hcase; [by rewrite fset_eq|rewrite fset_ne by done]. intros Hin. apply (B p Hp). by right.
  - intros p [->|[Hne Hp]]%Hcase; [by rewrite fset_eq|rewrite fset_ne by done; by apply C].
  - intros p q [->|[Hnp Hp]]%Hcase [->|[Hnq Hq]]%Hcase; rewrite ?fset_eq, ?fset_ne by done; [done| | |by apply D].
    + intros E. symmetry in E. by apply Hold in E.
    + intros E. by apply Hold in E.
Qed.

(** One more stack in the map. *)
Lemma kmap_add n stk x a :
  0 <= n < NPROC -> 0 <= a < MAXVA -> aligned a ->
  map_region (KSTACK n) x PGSIZE krw (kmap n stk) a = kmap (n + 1) (fset stk n x) a.
Proof.
  intros Hn Hav Ha. pose proof (KSTACK_range n Hn) as [_ Hal]. unfold map_region.
  destruct (decide (a = KSTACK n)) as [->|Hne].
  - destruct (_ && _) eqn:E; [|unfold PGSIZE in E; lia]. unfold kmap. rewrite kstack_idx_KSTACK.
    destruct ((0 <=? n) && (n <? n + 1) && (KSTACK n =? KSTACK n)) eqn:E2; [|lia]. rewrite fset_eq. do 2 f_equal. lia.
  - destruct (_ && _) eqn:E.
    { apply andb_true_iff in E as [E1%Z.leb_le E2%Z.ltb_lt]. exfalso. apply Hne. by apply aligned_between. }
    unfold kmap.
    set (p := kstack_idx a). destruct (decide (p = n)) as [Hp|Hp].
    + rewrite Hp. destruct (Z.eqb_spec (KSTACK n) a); [congruence|]. by rewrite !andb_false_r.
    + replace (p <? n + 1) with (p <? n) by lia.
      destruct ((0 <=? p) && (p <? n) && (KSTACK p =? a)); [|done]. by rewrite fset_ne.
Qed.

Lemma proc_mapstacks_spec s root N l :
  kstage s root N l NPROC kmap0 ->
  wp (proc_mapstacks root) (fun _ s' => exists N' l' stk,
    kstage s' root N' l' 0 (kmap NPROC stk) /\ kstacks NPROC stk N' l') s.
Proof.
  intros HS. unfold proc_mapstacks.
  apply (wp_for_range (fun i s' => exists N' l' stk,
           kstage s' root N' l' (NPROC - i) (kmap i stk) /\ kstacks i stk N' l')); [done| | |].
  - exists N, l, (fun _ => 0). split; [|split; lia]. eapply kstage_ext; [|exact HS]. intros a Hav Ha. unfold kmap.
    destruct ((0 <=? kstack_idx a) && (kstack_idx a <? 0) && _) eqn:E; [lia|done].
  - intros i s1 Hi (N1 & l1 & stk & [HK Hf] & Hs). apply wp_bind.
    eapply wp_mono; [apply (kalloc_vm s1 root N1 l1), HK|]. intros pa s2. destruct l1 as [|x l2].
    { intros _. pose proof (kt_room _ _ _ _ _ HK) as Hr. cbn in Hr. lia. }
    intros (-> & Hx0 & Hxp & Hxn & Hxl & HV2 & Hp2 & _). destruct (Z.eqb_spec x 0); [lia|].
    assert (HS2 : kstage s2 root N1 l2 (NPROC - (i + 1)) (kmap i stk)).
    { split; [split|].
      - done.
      - apply HK.
      - pose proof (kt_room _ _ _ _ _ HK) as Hr. cbn [length] in Hr. lia.
      - intros a Hav Ha. rewrite Hp2. by apply Hf. }
    pose proof (KSTACK_range i Hi) as [Hr Ha]. pose proof (page_ok_pos _ Hxp) as Hxb.
    destruct layout as (_ & _ & _ & _ & EPS & ET & EM & EG & _).
    apply (kvmmap_stage (KSTACK i) PGSIZE x krw _ _ _ _ _ _ _ HS2);
      [lia|done|done|lia|done|rewrite ET, EM, EG in *; lia|lia|rewrite EPS, EG in *; lia|done| | ].
    + intros a Ha' Hr'. assert (Ea : a = KSTACK i) by (by apply aligned_between). subst a.
      split; [apply (ktable_fixed _ 255 511); [lia|rewrite ET, EG in *; lia|done|done|by vm_compute]|].
      unfold kmap. rewrite kstack_idx_KSTACK. destruct ((0 <=? i) && (i <? i) && _) eqn:E; [lia|].
      pose proof etext_bounds. pose proof end_bounds. clear EPS ET EM EG. unfold kmap0. unmapped.
    + intros s3 N3 l3 used HS3 HE. exists N3, l3, (fset stk i x). split.
      * eapply kstage_ext; [|exact HS3]. intros a Hav Haa. by apply kmap_add.
      * eapply kstacks_extend; [|exact HE]. by apply kstacks_add; [lia|..].
  - intros s' (N' & l' & stk & HS' & Hs). by exists N', l', stk.
Qed.

Lemma kvmmake_spec s l :
  kinv s l -> 136 < Z.of_nat (length l) ->
  wp kvmmake (fun root s' => exists N l' stk,
    kstage s' root N l' 0 (kmap NPROC stk) /\ kstacks NPROC stk N l') s.
Proof.
  intros HK Hl. destruct l as [|x l0] eqn:El; [cbn in Hl; lia|].
  assert (Hend : end_ < PHYSTOP).
  { pose proof (kinv_pages _ _ HK) as Hp. apply Forall_cons in Hp as [Hp _]. destruct Hp as [_ Hp].
    unfold PGSIZE in *. lia. }
  change kvmmake with (let! kpgtbl := kalloc in upd_mem (memset kpgtbl 0 PGSIZE) ;;;
                       kvm_regions kpgtbl (proc_mapstacks kpgtbl ;;; ret kpgtbl)).
  eapply (kvm_root _ _ s x l0 NPROC HK); [cbn [length] in Hl; unfold NPROC; lia|]. intros s1 HS1.
  apply (kvm_regions_spec _ _ s1 _ _ _ _ HS1); [done|done|]. intros s2 N2 l2 HS2. apply wp_bind.
  eapply wp_mono; [by apply (proc_mapstacks_spec _ _ _ _ HS2)|]. intros [] s3 Hq. by apply wp_ret.
Qed.

(** * The table in use *)

(** The entry of [va], found as the hardware and walk() find it; 0 for none. *)
Definition read_pte (pagetable va : Z) : M kst Z :=
  let! pte := walk pagetable va false in
  if pte =? 0 then ret 0 else ld64 pte.

Lemma read_pte_spec s root N va :
  rep (k_mem s) root N -> 0 <= va < MAXVA ->
  wp (read_pte root va) (fun v s' => v = pte_at (k_mem s) N va /\ s' = s) s.
Proof.
  intros HR Hva. unfold read_pte. apply wp_bind. eapply wp_mono; [by apply (walk_spec va s root N)|].
  intros r s' [-> ->]. destruct (Z.eqb_spec (slot_of N va) 0) as [E|E].
  - apply wp_ret. by rewrite (slot_of_zero_pte _ _ _ _ HR E).
  - destruct (pte_at_slot _ _ _ _ HR E) as (p & _ & _ & ->). by wp_steps.
Qed.

(** What can be mapped: device registers and memory from [etext] on for reading
    and writing, kernel text for reading and executing. *)
Lemma kmap_pages n stk N l va pa perm :
  kstacks n stk N l -> kmap n stk va = Some (pa, perm) -> aligned va ->
  aligned pa /\ 0 < pa < PHYSTOP /\
  (perm = krw /\ ~ (KERNBASE <= pa < etext) \/ perm = krx /\ KERNBASE <= pa < etext).
Proof.
  intros Hk He Ha. pose proof etext_bounds as Het. pose proof end_bounds as Hen.
  pose proof trampoline_bounds as Htb. pose proof trampoline_aligned as Hta.
  destruct layout as (EU & EV & EP & EK & ES & ET & EM & EG & _).
  rewrite EK, ES in *. unfold kmap in He.
  destruct ((0 <=? kstack_idx va) && (kstack_idx va <? n) && _) eqn:E.
  - injection He as <- <-. assert (Hp : 0 <= kstack_idx va < n) by lia.
    destruct (kk_page _ _ _ _ Hk _ Hp) as [Hpa Hpb]. rewrite ES in *. split; [done|]. split; [lia|]. left. split; [done|lia].
  - unfold kmap0 in He. rewrite EU, EV, EP, EK, ES, ET in He. clear E.
    revert He. repeat (zcase; try discriminate); intros [= <- <-]; (split; [done|]); (split; [lia|]);
      first [left; split; [done|lia] | right; split; [done|lia]].
Qed.

Lemma mkpte_fields pa perm :
  aligned pa -> 0 <= pa < 2 ^ 56 -> perm = krw \/ perm = krx ->
  PTE2PA (mkpte pa perm) = pa /\ PTE_FLAGS (mkpte pa perm) = Z.lor perm PTE_V.
Proof.
  intros Ha Hb Hp. unfold mkpte. rewrite <- !Z.lor_assoc.
  assert (Hlt : 0 <= Z.lor perm PTE_V < 2 ^ 10) by (by destruct Hp as [->| ->]).
  split; [by apply PTE2PA_PA2PTE|by apply PTE_FLAGS_PA2PTE].
Qed.

(** Below and above every stack there is nothing. *)
Lemma kmap_guard n stk p :
  0 <= p < NPROC -> kmap n stk (KSTACK p - PGSIZE) = None /\ kmap n stk (KSTACK p + PGSIZE) = None.
Proof.
  intros Hp. pose proof etext_bounds as Het. pose proof end_bounds as Hen.
  assert (Hnone : forall va q, va = 0x3ffffff000 - (2 * q + 1) * 4096 -> 0 <= q <= 64 -> kmap n stk va = None).
  { intros va q Hva Hq. unfold kmap.
    assert (Hne : forall i, KSTACK i <> va).
    { intros i. change (KSTACK i) with (0x3ffffff000 - (i + 1) * 2 * 4096). lia. }
    destruct (Z.eqb_spec (KSTACK (kstack_idx va)) va) as [E|_]; [by apply Hne in E|]. rewrite andb_false_r.
    unfold kmap0. destruct layout as (EU & EV & EP & EK & ES & ET & EM & EG & _).
    rewrite EU, EV, EP, EK, ES, ET in *. region_case. }
  unfold NPROC in Hp. change (KSTACK p) with (0x3ffffff000 - (p + 1) * 2 * 4096). change PGSIZE with 4096.
  split; [apply (Hnone _ (p + 1)); lia|apply (Hnone _ p); lia].
Qed.

(** C8. The kernel's page table.  After kinit() and kvmmake() the table maps
    exactly the device registers, the kernel text, the rest of memory up to
    PHYSTOP, all at their physical addresses, the trampoline page at the top
    and NPROC kernel stacks below it, and nothing else.  The stacks are in
    distinct pages that are no longer free, with an unmapped page below and
    above each.  No physical page can be both written and executed, through
    whatever addresses.  Neither allocation nor kvmmap() fails, provided memory
    has 138 pages after the kernel: the table needs 72, the stacks 64. *)
Theorem kernel_page_table s :
  end_ + 138 * PGSIZE <= PHYSTOP -> bytes_ok (k_mem s) -> k_freelist s = 0 ->
  wp (kinit ;;; kvmmake) (fun root s' => exists l stk, kinv s' l /\
    (forall va, 0 <= va < MAXVA -> aligned va ->
       wp (read_pte root va) (fun v s2 => s2 = s' /\
         match kmap NPROC stk va with
         | None => v = 0
         | Some (pa, perm) => PTE2PA v = pa /\ PTE_FLAGS v = Z.lor perm PTE_V
         end) s') /\
    (forall p, 0 <= p < NPROC ->
       kmap NPROC stk (KSTACK p) = Some (stk p, krw) /\ page_ok (stk p) /\ (stk p ∉ l) /\
       kmap NPROC stk (KSTACK p - PGSIZE) = None /\ kmap NPROC stk (KSTACK p + PGSIZE) = None) /\
    (forall p q, 0 <= p < NPROC -> 0 <= q < NPROC -> stk p = stk q -> p = q) /\
    (forall va va' pa perm perm', aligned va -> aligned va' ->
       kmap NPROC stk va = Some (pa, perm) -> kmap NPROC stk va' = Some (pa, perm') ->
       perm = perm' /\ (perm = krw \/ perm = krx))) s.
Proof.
  intros He Hb Hf. apply wp_bind. unfold kinit. wp_steps. pose proof end_bounds as Hen.
  eapply wp_mono; [apply freerange_spec; [lia|unfold PGSIZE in *; lia|done|split; try done; constructor]|].
  intros [] s1 HK1. eapply wp_mono; [eapply kvmmake_spec; [exact HK1|]|].
  { unfold range_pages. rewrite length_rev, length_map, length_seqZ. destruct (PGROUNDUP_bounds end_) as [Hup _];
      [unfold PGSIZE; destruct layout as (_ & _ & _ & EK & ES & _); rewrite EK, ES in *; lia..|].
    assert (Hq : 137 <= (PHYSTOP - PGROUNDUP end_) / PGSIZE) by (apply Z.div_le_lower_bound; unfold PGSIZE in *; lia).
    lia. }
  cbn beta. intros root s2 (N & l & stk & [HK Hp] & Hs). exists l, stk. split; [apply HK|].
  assert (Hst : PHYSTOP < 2 ^ 56) by done. split_and!.
  - intros va Hva Ha. eapply wp_mono; [apply (read_pte_spec s2 root N va); [apply HK|done]|].
    intros v s3 [-> ->]. split; [done|]. rewrite Hp by done.
    destruct (kmap NPROC stk va) as [[pa perm]|] eqn:E; [|done].
    destruct (kmap_pages _ _ _ _ _ _ _ Hs E Ha) as (Hal & Hpb & Hperm). apply mkpte_fields; [done|lia|naive_solver].
  - intros p Hpp. destruct (kmap_guard NPROC stk p Hpp) as [G1 G2]. split_and!; try done; try by apply Hs.
    unfold kmap. rewrite kstack_idx_KSTACK.
    destruct ((0 <=? p) && (p <? NPROC) && (KSTACK p =? KSTACK p)) eqn:E; [done|]. lia.
  - apply Hs.
  - intros va va' pa perm perm' Ha Ha' E E'.
    destruct (kmap_pages _ _ _ _ _ _ _ Hs E Ha) as (_ & _ & P), (kmap_pages _ _ _ _ _ _ _ Hs E' Ha') as (_ & _ & P').
    naive_solver.
Qed.
End Kernel.

Lemma kernel_page_table_witness :
  wp (@kinit demo_image ;;; @kvmmake demo_image) (fun root s' => exists stk,
    wp (read_pte root KERNBASE) (fun v s2 => s2 = s' /\
      PTE2PA v = KERNBASE /\ PTE_FLAGS v = Z.lor krx PTE_V) s' /\
    wp (read_pte root (KSTACK 3)) (fun v s2 => s2 = s' /\
      PTE2PA v = stk 3 /\ PTE_FLAGS v = Z.lor krw PTE_V) s' /\
    wp (read_pte root (KSTACK 3 - PGSIZE)) (fun v s2 => s2 = s' /\ v = 0) s')
    (mkKst (fun _ => 0) 0 true).
Proof.
  eapply wp_mono; [apply (@kernel_page_table demo_image (mkKst (fun _ => 0) 0 true)); done|].
  cbn beta. intros root s' (l & stk & _ & Hr & Hs & _). exists stk. split_and!.
  - exact (Hr KERNBASE ltac:(done) ltac:(done)).
  - exact (Hr (KSTACK 3) ltac:(done) ltac:(done)).
  - exact (Hr (KSTACK 3 - PGSIZE) ltac:(done) ltac:(done)).
Defined.
