(* ===== verification/Spinlock.v ===== *)
(** Spin locks and interrupt nesting over several CPUs: kernel/spinlock.c,
    and cpuid() and mycpu() of kernel/proc.c.

    Every CPU runs acquire() and release() as the code does, one memory access
    at a time: the swap on [locked], the store to [cpu] and the swap back are
    separate steps, so that other CPUs can run between them.  [step] is that
    machine; the invariant [lock_inv] gives mutual exclusion, the exactness of
    holding() and that no CPU takes an interrupt while it holds a lock. *)

From S2P Require Import Prelude Riscv.

(** * State *)

Record spinlock : Type := mkSpinlock {
  locked : Z;            (** is the lock held? *)
  lk_name : string;      (** name of lock *)
  lk_cpu : option Z;     (** the cpu holding the lock, [None] for 0 *)
}.

(** The fields of [struct cpu] push_off() and pop_off() use. *)
Record cpu : Type := mkCpu {
  noff : Z;              (** depth of push_off() nesting *)
  intena : Z;            (** were interrupts enabled before push_off()? *)
}.

Record mach : Type := mkMach {
  harts : Z -> hart;     (** the registers of each CPU *)
  cpus : Z -> cpu;       (** cpus[NCPU] *)
  locks : Z -> spinlock;
}.

Definition lens_hart (h : Z) : lens mach hart :=
  mkLens (fun m => harts m h) (fun r m => mkMach (fset (harts m) h r) (cpus m) (locks m)).
Definition lens_cpu (c : Z) : lens mach cpu :=
  mkLens (fun m => cpus m c) (fun r m => mkMach (harts m) (fset (cpus m) c r) (locks m)).
Definition lens_lock (k : Z) : lens mach spinlock :=
  mkLens (fun m => locks m k) (fun r m => mkMach (harts m) (cpus m) (fset (locks m) k r)).

Definition set_lk_cpu (c : option Z) (l : spinlock) : spinlock := mkSpinlock (locked l) (lk_name l) c.
Definition set_locked (v : Z) (l : spinlock) : spinlock := mkSpinlock v (lk_name l) (lk_cpu l).

(** * Operations, run by the CPU whose registers are [h] *)

Definition cpuid (h : Z) : M mach Z :=
  let! id := zoom (lens_hart h) r_tp in
  ret (i32 id).

Definition mycpu (h : Z) : M mach Z :=
  let! id := cpuid h in
  ret id.

Definition initlock (lk : Z) (name : string) : M mach unit :=
  modify (lset (lens_lock lk) (mkSpinlock 0 name None)).

Definition holding (h lk : Z) : M mach bool :=
  let! l := gets (fun m => locks m lk) in
  let! c := mycpu h in
  ret (negb (locked l =? 0) && bool_decide (lk_cpu l = Some c)).

Definition push_off (h : Z) : M mach unit :=
  let! old := zoom (lens_hart h) intr_get in
  zoom (lens_hart h) intr_off ;;;
  let! c := mycpu h in
  let! r := gets (fun m => cpus m c) in
  (if noff r =? 0 then modify (lset (lens_cpu c) (mkCpu (noff r) old)) else ret tt) ;;;
  let! r := gets (fun m => cpus m c) in
  modify (lset (lens_cpu c) (mkCpu (i32 (noff r + 1)) (intena r))).

Definition pop_off (h : Z) : M mach unit :=
  let! c := mycpu h in
  let! on := zoom (lens_hart h) intr_get in
  if negb (on =? 0) then panic "pop_off - interruptible"
  else
    let! r := gets (fun m => cpus m c) in
    if noff r <? 1 then panic "pop_off"
    else
      modify (lset (lens_cpu c) (mkCpu (i32 (noff r - 1)) (intena r))) ;;;
      let! r := gets (fun m => cpus m c) in
      if (noff r =? 0) && negb (intena r =? 0) then zoom (lens_hart h) intr_on
      else ret tt.

(** __sync_lock_test_and_set(&lk->locked, 1): returns the old value. *)
Definition test_and_set (lk : Z) : M mach Z :=
  let! l := gets (fun m => locks m lk) in
  modify (lset (lens_lock lk) (set_locked 1 l)) ;;;
  ret (locked l).

(** The parts of acquire() and release() between two accesses to the lock. *)

Definition acquire_enter (h lk : Z) : M mach unit :=
  push_off h ;;;
  let! r := holding h lk in
  if r : bool then panic "acquire" else ret tt.

Definition acquire_exit (h lk : Z) : M mach unit :=
  let! c := mycpu h in
  modify (fun m => lset (lens_lock lk) (set_lk_cpu (Some c) (locks m lk)) m).

Definition release_enter (h lk : Z) : M mach unit :=
  let! r := holding h lk in
  if negb r then panic "release"
  else modify (fun m => lset (lens_lock lk) (set_lk_cpu None (locks m lk)) m).

Definition release_exit (h lk : Z) : M mach unit :=
  modify (fun m => lset (lens_lock lk) (set_locked 0 (locks m lk)) m) ;;;
  pop_off h.

(** The whole calls.  When the lock is taken the CPU spins until another one
    runs: [Block]. *)
Definition acquire (h lk : Z) : M mach unit :=
  acquire_enter h lk ;;;
  let! old := test_and_set lk in
  if negb (old =? 0) then (fun m => Block lk m) else acquire_exit h lk.

Definition release (h lk : Z) : M mach unit :=
  release_enter h lk ;;;
  release_exit h lk.

(** * What each operation computes *)

Definition set_sie (b : bool) (r : hart) : hart :=
  fun x => if decide (x = SSTATUS)
           then (if b then u64 (Z.lor (r SSTATUS) SSTATUS_SIE)
                 else u64 (Z.land (r SSTATUS) (Z.lnot SSTATUS_SIE)))
           else r x.

(** CPU [h] has its number in tp and a 64-bit sstatus. *)
Record hart_ok (h : Z) (r : hart) : Prop := {
  ho_tp : r TP = h;
  ho_id : 0 <= h < NCPU;
  ho_ss : is_u64 (r SSTATUS);
}.

Lemma sie_off r : sie_on (set_sie false r) = false.
Proof.
  unfold sie_on, set_sie. rewrite decide_True by done. apply negb_false_iff, Z.eqb_eq.
  unfold u64. change SSTATUS_SIE with (Z.land (Z.ones 64) 2). rewrite Z.land_assoc.
  rewrite <- Z.land_ones by done. rewrite <- (Z.land_assoc _ (Z.ones 64) (Z.ones 64)).
  rewrite Z.land_diag. rewrite <- !Z.land_assoc.
  rewrite (Z.land_comm (Z.lnot _)), <- !Z.land_assoc.
  change (Z.land 2 (Z.lnot (Z.land (Z.ones 64) 2))) with 0. by rewrite !Z.land_0_r.
Qed.

Lemma sie_set r : is_u64 (r SSTATUS) -> sie_on (set_sie true r) = true.
Proof.
  intros Hr. unfold sie_on, set_sie. rewrite decide_True by done.
  apply negb_true_iff, Z.eqb_neq. rewrite u64_small.
  - rewrite Z.land_lor_distr_l. intros E. apply Z.lor_eq_0_iff in E as [_ E]. done.
  - unfold is_u64 in *. change SSTATUS_SIE with 2. split; [apply Z.lor_nonneg; lia|].
    destruct (Z.eq_dec (Z.lor (r SSTATUS) 2) 0) as [->|]; [lia|].
    apply Z.log2_lt_pow2; [pose proof (proj2 (Z.lor_nonneg (r SSTATUS) 2)); lia|].
    rewrite Z.log2_lor by lia. apply Z.max_lub_lt; [|done].
    destruct (Z.eq_dec (r SSTATUS) 0) as [->|]; [done|]. apply Z.log2_lt_pow2; lia.
Qed.

Lemma set_sie_ok h r b : hart_ok h r -> hart_ok h (set_sie b r).
Proof.
  intros [Ht Hi Hs]. split; [done|done|]. unfold set_sie. rewrite decide_True by done.
  destruct b; apply u64_range.
Qed.

Lemma intr_off_eq r : intr_off r = Ok tt (set_sie false r).
Proof. done. Qed.

Lemma intr_on_eq r : intr_on r = Ok tt (set_sie true r).
Proof. done. Qed.

Lemma mycpu_eq h m : hart_ok h (harts m h) -> exists m',
  mycpu h m = Ok h m' /\ harts m' = fset (harts m) h (harts m h) /\
  cpus m' = cpus m /\ locks m' = locks m.
Proof.
  intros [Ht Hi _]. eexists. unfold mycpu, cpuid, bind, zoom, r_tp, csrr, gets, ret. cbn.
  rewrite Ht, i32_small by (unfold NCPU in Hi; lia). done.
Qed.

(** Two machines with the same contents. *)
Record meq (m m' : mach) : Prop := {
  meq_harts : forall h, harts m' h = harts m h;
  meq_cpus : forall c, cpus m' c = cpus m c;
  meq_locks : forall k, locks m' k = locks m k;
}.

(** The effect of an operation on the CPU's own registers and counters. *)
Definition local_step (h : Z) (r : hart) (c : cpu) (m m' : mach) : Prop :=
  (forall x, harts m' x = if x =? h then r else harts m x) /\
  (forall x, cpus m' x = if x =? h then c else cpus m x) /\
  (forall k, locks m' k = locks m k).

Lemma push_off_ok h m :
  hart_ok h (harts m h) ->
  exists m', push_off h m = Ok tt m' /\
    local_step h (set_sie false (harts m h))
      (mkCpu (i32 (noff (cpus m h) + 1))
             (if noff (cpus m h) =? 0 then (if sie_on (harts m h) then 1 else 0)
              else intena (cpus m h))) m m'.
Proof.
  intros HO. pose proof (set_sie_ok _ _ false HO) as [Ht Hi _].
  unfold push_off, mycpu, cpuid, bind, zoom, gets, modify, ret. cbn [lget lset lens_hart].
  rewrite intr_get_spec. cbn [lget lset lens_hart harts cpus locks].
  rewrite fset_eq, intr_off_eq. cbn. rewrite fset_eq.
  unfold r_tp, csrr, gets. cbn [harts cpus locks]. rewrite Ht.
  rewrite i32_small by (unfold NCPU in Hi; lia). cbn [harts cpus locks].
  destruct (Z.eqb_spec (noff (cpus m h)) 0) as [E|E]; cbn; rewrite ?fset_eq; cbn;
    (eexists; split; [reflexivity|]); unfold local_step, fset; cbn;
    (split; [intros x; by destruct (Z.eqb_spec x h)|split; [|done]]);
    intros x; by destruct (Z.eqb_spec x h).
Qed.

Lemma pop_off_ok h m :
  hart_ok h (harts m h) -> sie_on (harts m h) = false -> 1 <= noff (cpus m h) ->
  exists m', pop_off h m = Ok tt m' /\
    local_step h (if (i32 (noff (cpus m h) - 1) =? 0) && negb (intena (cpus m h) =? 0)
                  then set_sie true (harts m h) else harts m h)
      (mkCpu (i32 (noff (cpus m h) - 1)) (intena (cpus m h))) m m'.
Proof.
  intros [Ht Hi Hs] Hoff Hn.
  unfold pop_off, mycpu, cpuid, bind, zoom, gets, modify, ret. cbn [lget lset lens_hart].
  unfold r_tp, csrr, gets. cbn [harts cpus locks]. rewrite Ht.
  rewrite (i32_small h) by (unfold NCPU in Hi; lia). cbn [harts cpus locks].
  rewrite fset_eq, intr_get_spec, Hoff. cbn.
  destruct (Z.ltb_spec (noff (cpus m h)) 1); [lia|]. cbn. rewrite fset_eq. cbn.
  destruct (_ && _) eqn:E; cbn; rewrite ?fset_eq, ?intr_on_eq;
    (eexists; split; [reflexivity|]); unfold local_step, fset; cbn;
    (split; [intros x; by destruct (Z.eqb_spec x h)|split; [|done]]);
    intros x; by destruct (Z.eqb_spec x h).
Qed.

Lemma holding_ok h lk m :
  hart_ok h (harts m h) ->
  exists m', holding h lk m = Ok (negb (locked (locks m lk) =? 0) &&
                                  bool_decide (lk_cpu (locks m lk) = Some h)) m' /\ meq m m'.
Proof.
  intros HO. destruct (mycpu_eq h m HO) as (m' & E & Hh & Hc & Hl).
  exists m'. unfold holding, bind, gets. rewrite E. unfold ret. split; [done|].
  split; [|by rewrite Hc|by rewrite Hl].
  intros x. rewrite Hh. by destruct (fset_case (harts m) h (harts m h) x) as [[-> ->]|[_ ->]].
Qed.

(** * CPUs interleaved *)

(** Where a CPU is: outside the lock code, spinning in acquire(), between the
    successful swap and the end of acquire(), or in release() after the owner
    has been cleared. *)
Inductive pc : Type :=
| Run
| Spin (lk : Z)
| Got (lk : Z)
| Rel (lk : Z).

Record sys : Type := mkSys {
  mc : mach;
  pcs : Z -> pc;
  held : Z -> gset Z;    (** locks whose acquire() has returned and which are not released *)
  depth : Z -> Z;        (** push_off()s of the CPU's own that are not popped *)
}.

(** One step of CPU [h].  A CPU pops only what it pushed, and it switches
    interrupts by hand only outside push_off(). *)
Inductive hstep (h : Z) (s : sys) : sys -> Prop :=
| st_acquire lk m' :
    pcs s h = Run -> noff (cpus (mc s) h) < 2 ^ 31 - 1 ->
    acquire_enter h lk (mc s) = Ok tt m' ->
    hstep h s (mkSys m' (fset (pcs s) h (Spin lk)) (held s) (depth s))
| st_spin lk old m' :
    pcs s h = Spin lk -> test_and_set lk (mc s) = Ok old m' -> old <> 0 ->
    hstep h s (mkSys m' (pcs s) (held s) (depth s))
| st_swap lk m' :
    pcs s h = Spin lk -> test_and_set lk (mc s) = Ok 0 m' ->
    hstep h s (mkSys m' (fset (pcs s) h (Got lk)) (held s) (depth s))
| st_got lk m' :
    pcs s h = Got lk -> acquire_exit h lk (mc s) = Ok tt m' ->
    hstep h s (mkSys m' (fset (pcs s) h Run) (fset (held s) h ({[lk]} ∪ held s h)) (depth s))
| st_release lk m' :
    pcs s h = Run -> release_enter h lk (mc s) = Ok tt m' ->
    hstep h s (mkSys m' (fset (pcs s) h (Rel lk)) (fset (held s) h (held s h ∖ {[lk]})) (depth s))
| st_unlock lk m' :
    pcs s h = Rel lk -> release_exit h lk (mc s) = Ok tt m' ->
    hstep h s (mkSys m' (fset (pcs s) h Run) (held s) (depth s))
| st_push m' :
    pcs s h = Run -> noff (cpus (mc s) h) < 2 ^ 31 - 1 -> push_off h (mc s) = Ok tt m' ->
    hstep h s (mkSys m' (pcs s) (held s) (fset (depth s) h (depth s h + 1)))
| st_pop m' :
    pcs s h = Run -> 0 < depth s h -> pop_off h (mc s) = Ok tt m' ->
    hstep h s (mkSys m' (pcs s) (held s) (fset (depth s) h (depth s h - 1)))
| st_intr b :
    pcs s h = Run -> noff (cpus (mc s) h) = 0 ->
    hstep h s (mkSys (lset (lens_hart h) (set_sie b (harts (mc s) h)) (mc s))
                 (pcs s) (held s) (depth s)).

Definition step (s s' : sys) : Prop := exists h, 0 <= h < NCPU /\ hstep h s s'.

Record booted (s : sys) : Prop := {
  bo_hart : forall h, 0 <= h < NCPU -> hart_ok h (harts (mc s) h);
  bo_pc : forall h, pcs s h = Run;
  bo_held : forall h, held s h = ∅;
  bo_depth : forall h, depth s h = 0;
  bo_noff : forall h, noff (cpus (mc s) h) = 0;
  bo_lock : forall lk, locked (locks (mc s) lk) = 0 /\ lk_cpu (locks (mc s) lk) = None;
}.

(** * The invariant *)

Definition owns (s : sys) (h lk : Z) : Prop :=
  lk ∈ held s h \/ pcs s h = Got lk \/ pcs s h = Rel lk.

Definition in_lock (p : pc) : Z := match p with Run => 0 | _ => 1 end.

Record lock_inv (s : sys) : Prop := {
  li_hart : forall h, 0 <= h < NCPU -> hart_ok h (harts (mc s) h);
  li_owned : forall h lk, owns s h lk -> locked (locks (mc s) lk) <> 0;
  li_excl : forall h h' lk, owns s h lk -> owns s h' lk -> h = h';
  li_cpu : forall h lk, lk_cpu (locks (mc s) lk) = Some h <-> lk ∈ held s h;
  li_fresh : forall h lk, pcs s h = Spin lk \/ pcs s h = Got lk \/ pcs s h = Rel lk -> lk ∉ held s h;
  li_noff : forall h, 0 <= h < NCPU ->
    noff (cpus (mc s) h) = depth s h + Z.of_nat (size (held s h)) + in_lock (pcs s h) /\
    0 <= depth s h /\ noff (cpus (mc s) h) < 2 ^ 31;
  li_off : forall h, 0 <= h < NCPU -> 0 < noff (cpus (mc s) h) -> sie_on (harts (mc s) h) = false;
}.

Lemma booted_inv s : booted s -> lock_inv s.
Proof.
  intros [Hh Hp Hd Hn Ho Hl].
  assert (Hown : forall h lk, ~ owns s h lk).
  { intros h lk [Hin|[E|E]]; [rewrite Hd in Hin; set_solver|rewrite Hp in E; done..]. }
  split; try done.
  - intros h lk Hw. by apply Hown in Hw.
  - intros h h' lk Hw. by apply Hown in Hw.
  - intros h lk. destruct (Hl lk) as [_ ->]. rewrite Hd. set_solver.
  - intros h lk _. rewrite Hd. set_solver.
  - intros h _. rewrite Ho, Hn, Hd, Hp, size_empty. simpl. lia.
  - intros h _. rewrite Ho. lia.
Qed.

(** Changes of one CPU's registers and counters, of one lock. *)
Section Preserve.
Context (s : sys) (HI : lock_inv s) (h : Z) (Hh : 0 <= h < NCPU).

Lemma lock_same m' k : (forall k, locks m' k = locks (mc s) k) ->
  locked (locks m' k) = locked (locks (mc s) k) /\ lk_cpu (locks m' k) = lk_cpu (locks (mc s) k).
Proof. intros E. by rewrite E. Qed.

(** A step that leaves the locks and the lists of held locks alone. *)
Lemma inv_local r c m' p d :
  local_step h r c (mc s) m' -> hart_ok h r ->
  (forall lk, owns (mkSys m' p (held s) d) h lk <-> owns s h lk) ->
  (forall x, x <> h -> p x = pcs s x /\ d x = depth s x) ->
  (forall lk, p h = Spin lk \/ p h = Got lk \/ p h = Rel lk -> lk ∉ held s h) ->
  noff c = d h + Z.of_nat (size (held s h)) + in_lock (p h) -> 0 <= d h -> noff c < 2 ^ 31 ->
  (0 < noff c -> sie_on r = false) ->
  lock_inv (mkSys m' p (held s) d).
Proof using HI.
  intros (Eh & Ec & El) Hr How Hoth Hfr Hn Hd Hb Hoff.
  assert (Hows : forall x lk, owns (mkSys m' p (held s) d) x lk <-> owns s x lk).
  { intros x lk. destruct (Z.eq_dec x h) as [->|Hne]; [apply How|].
    unfold owns. cbn. by destruct (Hoth x Hne) as [-> _]. }
  split; cbn.
  - intros x Hx. rewrite Eh. destruct (Z.eqb_spec x h) as [->|]; [done|by apply HI].
  - intros x lk Hw. rewrite El. apply Hows in Hw. by eapply li_owned.
  - intros x x' lk Hw Hw'. apply Hows in Hw, Hw'. by eapply li_excl.
  - intros x lk. rewrite El. by apply HI.
  - intros x lk. destruct (Z.eq_dec x h) as [->|Hne]; [apply Hfr|].
    destruct (Hoth x Hne) as [-> _]. by apply HI.
  - intros x Hx. rewrite Ec. destruct (Z.eqb_spec x h) as [->|Hne]; [done|].
    destruct (Hoth x Hne) as [-> ->]. by apply HI.
  - intros x Hx. rewrite Ec, Eh. destruct (Z.eqb_spec x h) as [->|Hne]; [done|]. by apply HI.
Qed.
End Preserve.

Lemma local_meq h r c m m1 m2 : local_step h r c m m1 -> meq m1 m2 -> local_step h r c m m2.
Proof.
  intros (Eh & Ec & El) [Mh Mc Ml]. split; [|split].
  - intros x. by rewrite Mh.
  - intros x. by rewrite Mc.
  - intros k. by rewrite Ml.
Qed.

Section Steps.
Context (s : sys) (HI : lock_inv s) (h : Z) (Hh : 0 <= h < NCPU).

Lemma hart_h : hart_ok h (harts (mc s) h).
Proof using HI Hh. by apply HI. Qed.

Lemma noff_h :
  noff (cpus (mc s) h) = depth s h + Z.of_nat (size (held s h)) + in_lock (pcs s h) /\
  0 <= depth s h /\ noff (cpus (mc s) h) < 2 ^ 31.
Proof using HI Hh. by apply HI. Qed.

Lemma inv_acquire lk m' :
  pcs s h = Run -> noff (cpus (mc s) h) < 2 ^ 31 - 1 -> acquire_enter h lk (mc s) = Ok tt m' ->
  lock_inv (mkSys m' (fset (pcs s) h (Spin lk)) (held s) (depth s)).
Proof using HI Hh.
  intros Hp Hb E. destruct noff_h as (Hn & Hd & _). rewrite Hp in Hn. simpl in Hn.
  destruct (push_off_ok h (mc s) hart_h) as (m1 & E1 & L1).
  unfold acquire_enter, bind in E. rewrite E1 in E.
  assert (HO1 : hart_ok h (harts m1 h)).
  { destruct L1 as (-> & _). rewrite Z.eqb_refl. apply set_sie_ok, hart_h. }
  destruct (holding_ok h lk m1 HO1) as (m2 & E2 & M2). rewrite E2 in E.
  destruct (_ && _) eqn:Eh in E; [done|]. injection E as <-.
  pose proof (local_meq _ _ _ _ _ _ L1 M2) as L2.
  assert (Hnl : lk ∉ held s h).
  { intros Hin. destruct L1 as (_ & _ & El). rewrite El in Eh.
    apply andb_false_iff in Eh as [Eh|Eh].
    - apply negb_false_iff, Z.eqb_eq in Eh. eapply (li_owned _ HI h lk); [by left|done].
    - apply bool_decide_eq_false in Eh. apply Eh. by apply (li_cpu _ HI). }
  eapply inv_local; [exact HI|exact L2|apply set_sie_ok, hart_h| | | | | | |].
  - intros k. unfold owns. cbn. rewrite fset_eq, Hp. naive_solver.
  - intros x Hx. by rewrite fset_ne.
  - rewrite fset_eq. naive_solver.
  - rewrite fset_eq. cbn. rewrite i32_small by lia. lia.
  - done.
  - cbn. rewrite i32_small by lia. lia.
  - intros _. apply sie_off.
Qed.

Lemma inv_push m' :
  pcs s h = Run -> noff (cpus (mc s) h) < 2 ^ 31 - 1 -> push_off h (mc s) = Ok tt m' ->
  lock_inv (mkSys m' (pcs s) (held s) (fset (depth s) h (depth s h + 1))).
Proof using HI Hh.
  intros Hp Hb E. destruct noff_h as (Hn & Hd & _). rewrite Hp in Hn. simpl in Hn.
  destruct (push_off_ok h (mc s) hart_h) as (m1 & E1 & L1). rewrite E1 in E. injection E as <-.
  eapply inv_local; [exact HI|exact L1|apply set_sie_ok, hart_h| | | | | | |]; rewrite ?fset_eq, ?Hp; cbn.
  - done.
  - intros x Hx. by rewrite fset_ne.
  - naive_solver.
  - rewrite i32_small by lia. lia.
  - lia.
  - rewrite i32_small by lia. lia.
  - intros _. apply sie_off.
Qed.

(** The end of a nesting level, for a client's pop_off() and for release(). *)
Lemma pop_off_inv m1 m' d :
  hart_ok h (harts m1 h) -> cpus m1 h = cpus (mc s) h -> harts m1 h = harts (mc s) h ->
  1 <= noff (cpus (mc s) h) -> pop_off h m1 = Ok tt m' -> noff (cpus (mc s) h) - 1 = d ->
  exists r c, local_step h r c m1 m' /\ hart_ok h r /\ noff c = d /\ (0 < noff c -> sie_on r = false).
Proof using HI Hh.
  intros HO Ec Eh Hn E Hd. destruct noff_h as (_ & _ & Hb).
  assert (Hoff : sie_on (harts m1 h) = false) by (rewrite Eh; apply (li_off _ HI); [done|lia]).
  destruct (pop_off_ok h m1 HO Hoff) as (m2 & E2 & L2); [by rewrite Ec|].
  rewrite E2 in E. injection E as <-. rewrite Ec, Eh in *. eexists _, _. split; [exact L2|].
  rewrite i32_small in * by lia. cbn. split; [|split; [done|]].
  - destruct (_ && _); [by apply set_sie_ok|done].
  - intros Hpos. destruct (Z.eqb_spec (noff (cpus (mc s) h) - 1) 0); [lia|]. done.
Qed.

Lemma inv_pop m' :
  pcs s h = Run -> 0 < depth s h -> pop_off h (mc s) = Ok tt m' ->
  lock_inv (mkSys m' (pcs s) (held s) (fset (depth s) h (depth s h - 1))).
Proof using HI Hh.
  intros Hp Hpos E. destruct noff_h as (Hn & Hd & Hb). rewrite Hp in Hn. simpl in Hn.
  destruct (pop_off_inv (mc s) m' (noff (cpus (mc s) h) - 1)) as (r & c & L & Hr & Hc & Hoff);
    [apply hart_h|done|done|lia|done|done|].
  eapply inv_local; [exact HI|exact L|done| | | | | | |]; rewrite ?fset_eq, ?Hp; cbn.
  - done.
  - intros x Hx. by rewrite fset_ne.
  - naive_solver.
  - lia.
  - lia.
  - lia.
  - done.
Qed.

Lemma inv_intr b :
  pcs s h = Run -> noff (cpus (mc s) h) = 0 ->
  lock_inv (mkSys (lset (lens_hart h) (set_sie b (harts (mc s) h)) (mc s)) (pcs s) (held s) (depth s)).
Proof using HI Hh.
  intros Hp H0. destruct noff_h as (Hn & Hd & Hb).
  eapply (inv_local s HI h (set_sie b (harts (mc s) h)) (cpus (mc s) h)); try done.
  - split; [|split; [|done]]; cbn.
    + intros x. unfold fset. done.
    + intros x. by destruct (Z.eqb_spec x h) as [->|].
  - apply set_sie_ok, hart_h.
  - intros lk Hlk. by apply (li_fresh _ HI).
  - lia.
Qed.
End Steps.

(** Steps on a lock. *)
Section LockSteps.
Context (s : sys) (HI : lock_inv s) (h : Z) (Hh : 0 <= h < NCPU).

Lemma inv_spin lk old m' :
  pcs s h = Spin lk -> test_and_set lk (mc s) = Ok old m' -> old <> 0 ->
  lock_inv (mkSys m' (pcs s) (held s) (depth s)).
Proof using HI.
  intros Hp E Hne. unfold test_and_set, bind, gets, modify, ret in E. injection E as <- <-.
  destruct HI as [H1 H2 H3 H4 H5 H6 H7]. split; cbn; try done.
  - intros x k Hw. destruct (fset_case (locks (mc s)) lk (set_locked 1 (locks (mc s) lk)) k)
      as [[-> ->]|[_ ->]]; [done|]. by eapply H2.
  - intros x k. destruct (fset_case (locks (mc s)) lk (set_locked 1 (locks (mc s) lk)) k)
      as [[-> ->]|[_ ->]]; apply H4.
Qed.

Lemma inv_swap lk m' :
  pcs s h = Spin lk -> test_and_set lk (mc s) = Ok 0 m' ->
  lock_inv (mkSys m' (fset (pcs s) h (Got lk)) (held s) (depth s)).
Proof using HI Hh.
  intros Hp E. unfold test_and_set, bind, gets, modify, ret in E. injection E as E0 <-.
  assert (Hno : forall x, ~ owns s x lk) by (intros x Hw; by apply (li_owned _ HI) in Hw).
  pose proof (li_fresh _ HI h lk ltac:(by left)) as Hfr.
  assert (Hows : forall x k, owns (mkSys (lset (lens_lock lk) (set_locked 1 (locks (mc s) lk)) (mc s))
     (fset (pcs s) h (Got lk)) (held s) (depth s)) x k -> owns s x k \/ (x = h /\ k = lk)).
  { intros x k. unfold owns. cbn.
    destruct (fset_case (pcs s) h (Got lk) x) as [[-> ->]|[_ ->]]; naive_solver. }
  split; cbn.
  - apply HI.
  - intros x k Hw. destruct (fset_case (locks (mc s)) lk (set_locked 1 (locks (mc s) lk)) k)
      as [[-> ->]|[Hne ->]]; [done|]. apply Hows in Hw as [Hw|[_ ?]]; [|done]. by eapply li_owned.
  - intros x x' k Hw Hw'. apply Hows in Hw as [Hw|[-> ->]], Hw' as [Hw'|[-> ?]]; subst; try done.
    + by eapply li_excl.
    + by apply Hno in Hw.
    + by apply Hno in Hw'.
  - intros x k. destruct (fset_case (locks (mc s)) lk (set_locked 1 (locks (mc s) lk)) k)
      as [[-> ->]|[_ ->]]; apply (li_cpu _ HI).
  - intros x k. destruct (fset_case (pcs s) h (Got lk) x) as [[-> ->]|[_ ->]]; [|by apply HI].
    intros [?|[[= ->]|?]]; done.
  - intros x Hx. destruct (li_noff _ HI x Hx) as (Hn & Hd & Hb).
    destruct (fset_case (pcs s) h (Got lk) x) as [[-> ->]|[_ ->]]; [|done].
    rewrite Hp in Hn. done.
  - apply HI.
Qed.

Lemma inv_got lk m' :
  pcs s h = Got lk -> acquire_exit h lk (mc s) = Ok tt m' ->
  lock_inv (mkSys m' (fset (pcs s) h Run) (fset (held s) h ({[lk]} ∪ held s h)) (depth s)).
Proof using HI Hh.
  intros Hp E. destruct (mycpu_eq h (mc s)) as (m1 & E1 & Eh & Ec & El); [by apply HI|].
  unfold acquire_exit, bind in E. rewrite E1 in E. injection E as <-. cbn. rewrite Ec, El.
  assert (Hhart : forall x, harts m1 x = harts (mc s) x).
  { intros x. rewrite Eh. by destruct (fset_case (harts (mc s)) h (harts (mc s) h) x) as [[-> ->]|[_ ->]]. }
  pose proof (li_fresh _ HI h lk ltac:(naive_solver)) as Hfr.
  assert (How : owns s h lk) by (unfold owns; naive_solver).
  set (L' := fset (locks (mc s)) lk (set_lk_cpu (Some h) (locks (mc s) lk))).
  assert (Hlk : forall k, locked (L' k) = locked (locks (mc s) k)).
  { intros k. unfold L'. by destruct (fset_case (locks (mc s)) lk
      (set_lk_cpu (Some h) (locks (mc s) lk)) k) as [[-> ->]|[_ ->]]. }
  assert (Hows : forall x k, owns (mkSys (mkMach (harts m1) (cpus (mc s)) L') (fset (pcs s) h Run)
     (fset (held s) h ({[lk]} ∪ held s h)) (depth s)) x k -> owns s x k).
  { intros x k. unfold owns. cbn. unfold fset. destruct (Z.eqb_spec x h) as [->|]; [|done].
    rewrite elem_of_union, elem_of_singleton. naive_solver. }
  split; cbn.
  - intros x Hx. rewrite Hhart. by apply HI.
  - intros x k Hw. rewrite Hlk. apply Hows in Hw. by eapply li_owned.
  - intros x x' k Hw Hw'. apply Hows in Hw, Hw'. by eapply li_excl.
  - intros x k. unfold L', fset. destruct (Z.eqb_spec k lk) as [->|Hk]; cbn.
    + destruct (Z.eqb_spec x h) as [->|Hx]; [set_solver|].
      split; [congruence|]. intros Hin. exfalso. apply Hx. eapply (li_excl _ HI); [by left|done].
    + rewrite (li_cpu _ HI). destruct (Z.eqb_spec x h) as [->|Hx]; [set_solver|done].
  - intros x k. unfold fset. destruct (Z.eqb_spec x h) as [->|]; [naive_solver|by apply HI].
  - intros x Hx. destruct (li_noff _ HI x Hx) as (Hn & Hd & Hb). unfold fset.
    destruct (Z.eqb_spec x h) as [->|]; [|done]. rewrite size_union by set_solver.
    rewrite size_singleton, Hn, Hp. simpl. rewrite Hn, Hp in Hb. simpl in Hb. lia.
  - intros x Hx. rewrite Hhart. by apply HI.
Qed.

Lemma inv_release lk m' :
  pcs s h = Run -> release_enter h lk (mc s) = Ok tt m' ->
  lock_inv (mkSys m' (fset (pcs s) h (Rel lk)) (fset (held s) h (held s h ∖ {[lk]})) (depth s)).
Proof using HI Hh.
  intros Hp E. destruct (holding_ok h lk (mc s)) as (m1 & E1 & M1); [by apply HI|].
  unfold release_enter, bind in E. rewrite E1 in E. destruct (_ && _) eqn:Eb in E; [|done].
  injection E as <-. apply andb_true_iff in Eb as [_ Eb]. apply bool_decide_eq_true in Eb.
  apply (li_cpu _ HI) in Eb as Hin.
  destruct M1 as [Mh Mc Ml]. cbn. set (L' := fset (locks m1) lk (set_lk_cpu None (locks m1 lk))).
  assert (Hlk : forall k, locked (L' k) = locked (locks (mc s) k)).
  { intros k. unfold L', fset. destruct (Z.eqb_spec k lk) as [->|]; cbn; by rewrite Ml. }
  assert (Hows : forall x k, owns (mkSys (mkMach (harts m1) (cpus m1) L') (fset (pcs s) h (Rel lk))
     (fset (held s) h (held s h ∖ {[lk]})) (depth s)) x k -> owns s x k).
  { intros x k. unfold owns. cbn. unfold fset. destruct (Z.eqb_spec x h) as [->|]; [|done].
    rewrite elem_of_difference. intros [[? _]|[?|[= ->]]]; [by left|done|by left]. }
  split; cbn.
  - intros x Hx. rewrite Mh. by apply HI.
  - intros x k Hw. rewrite Hlk. apply Hows in Hw. by eapply li_owned.
  - intros x x' k Hw Hw'. apply Hows in Hw, Hw'. by eapply li_excl.
  - intros x k. unfold L', fset. destruct (Z.eqb_spec k lk) as [->|Hk]; cbn.
    + split; [done|]. destruct (Z.eqb_spec x h) as [->|Hx]; [set_solver|].
      intros Hin'. exfalso. apply Hx. eapply (li_excl _ HI); by left.
    + rewrite Ml, (li_cpu _ HI). destruct (Z.eqb_spec x h) as [->|Hx]; [set_solver|done].
  - intros x k. unfold fset. destruct (Z.eqb_spec x h) as [->|]; [|by apply HI].
    intros [?|[?|[= ->]]]; [done|done|set_solver].
  - intros x Hx. destruct (li_noff _ HI x Hx) as (Hn & Hd & Hb). rewrite Mc. unfold fset.
    destruct (Z.eqb_spec x h) as [->|]; [|done]. rewrite Hp in Hn. simpl in Hn |- *.
    pose proof (size_union_alt {[lk]} (held s h)) as Hsz. rewrite size_singleton in Hsz.
    replace ({[lk]} ∪ held s h) with (held s h) in Hsz by set_solver. lia.
  - intros x Hx. rewrite Mc, Mh. by apply HI.
Qed.

Lemma inv_unlock lk m' :
  pcs s h = Rel lk -> release_exit h lk (mc s) = Ok tt m' ->
  lock_inv (mkSys m' (fset (pcs s) h Run) (held s) (depth s)).
Proof using HI Hh.
  intros Hp E. unfold release_exit, bind, modify in E.
  destruct (li_noff _ HI h Hh) as (Hn & Hd & Hb). rewrite Hp in Hn. simpl in Hn.
  pose proof (li_fresh _ HI h lk ltac:(naive_solver)) as Hfr.
  assert (How : owns s h lk) by (unfold owns; naive_solver).
  destruct (pop_off_inv s HI h Hh (lset (lens_lock lk) (set_locked 0 (locks (mc s) lk)) (mc s)) m'
    (noff (cpus (mc s) h) - 1)) as (r & c & (Eh & Ec & El) & Hr & Hc & Hoff);
    [| | | |exact E|done|]; cbn; [by apply HI|done|done|lia|]. cbn in Eh, Ec, El.
  assert (Hlk : forall k, k <> lk -> locks m' k = locks (mc s) k).
  { intros k Hk. rewrite El. by rewrite fset_ne. }
  assert (Hlk' : lk_cpu (locks m' lk) = lk_cpu (locks (mc s) lk)) by (by rewrite El, fset_eq).
  assert (Hows : forall x k, owns (mkSys m' (fset (pcs s) h Run) (held s) (depth s)) x k ->
            owns s x k /\ k <> lk).
  { intros x k. unfold owns. cbn. unfold fset. destruct (Z.eqb_spec x h) as [->|Hx].
    - intros [Hin|[?|?]]; [|done|done]. split; [by left|]. intros ->. done.
    - intros Hw. split; [done|]. intros ->. apply Hx. by apply (li_excl _ HI x h lk). }
  split; cbn.
  - intros x Hx. rewrite Eh. destruct (Z.eqb_spec x h) as [->|]; [done|by apply HI].
  - intros x k Hw. apply Hows in Hw as [Hw Hk]. rewrite Hlk by done. by eapply li_owned.
  - intros x x' k Hw Hw'. apply Hows in Hw as [Hw _], Hw' as [Hw' _]. by eapply li_excl.
  - intros x k. destruct (Z.eq_dec k lk) as [->|Hk]; [rewrite Hlk'|rewrite Hlk by done]; apply (li_cpu _ HI).
  - intros x k. unfold fset. destruct (Z.eqb_spec x h) as [->|]; [naive_solver|by apply HI].
  - intros x Hx. rewrite Ec. unfold fset. destruct (Z.eqb_spec x h) as [->|]; [|by apply HI].
    simpl. lia.
  - intros x Hx. rewrite Ec, Eh. destruct (Z.eqb_spec x h) as [->|]; [done|by apply HI].
Qed.
End LockSteps.

Lemma step_inv s s' : lock_inv s -> step s s' -> lock_inv s'.
Proof.
  intros HI (h & Hh & Hs). destruct Hs.
  - by eapply inv_acquire.
  - by eapply (inv_spin s HI h).
  - by eapply inv_swap.
  - by eapply inv_got.
  - by eapply inv_release.
  - by eapply inv_unlock.
  - by eapply inv_push.
  - by eapply inv_pop.
  - by eapply inv_intr.
Qed.

Lemma reachable_inv s s' : booted s -> rtc step s s' -> lock_inv s'.
Proof.
  intros Hb Hr. apply booted_inv in Hb. induction Hr as [|s1 s2 s3 Hs _ IH]; [done|].
  apply IH. by eapply step_inv.
Qed.

(** C6. Mutual exclusion: in every state the CPUs can reach, whatever the
    order of their memory accesses, a lock whose acquire() has returned on two
    CPUs and which neither has released is held by one and the same CPU; the
    lock word is set; and that CPU does not take interrupts. *)
Theorem mutual_exclusion s0 s h1 h2 lk :
  booted s0 -> rtc step s0 s -> 0 <= h1 < NCPU -> lk ∈ held s h1 ->
  (lk ∈ held s h2 -> h1 = h2) /\ locked (locks (mc s) lk) <> 0 /\
  sie_on (harts (mc s) h1) = false.
Proof.
  intros Hb Hr Hh H1. pose proof (reachable_inv _ _ Hb Hr) as HI. split; [|split].
  - intros H2. eapply (li_excl _ HI); by left.
  - eapply (li_owned _ HI). by left.
  - apply (li_off _ HI); [done|]. destruct (li_noff _ HI h1 Hh) as (-> & ? & _).
    assert (size (held s h1) <> 0)%nat.
    { intros E. apply size_empty_inv in E. set_solver. }
    assert (0 <= in_lock (pcs s h1)) by (by destruct (pcs s h1)). lia.
Qed.

(** holding() is exact: evaluated by a CPU outside the lock code it
    answers whether that very CPU holds the lock, even while other CPUs are in
    the middle of acquire() or release().  So release() of a held lock never
    panics, and acquire() panics exactly on a lock the CPU already holds. *)
Theorem holding_exact s0 s h lk :
  booted s0 -> rtc step s0 s -> 0 <= h < NCPU ->
  (exists m', holding h lk (mc s) = Ok (bool_decide (lk ∈ held s h)) m') /\
  (lk ∈ held s h -> exists m', release_enter h lk (mc s) = Ok tt m') /\
  ((lk ∈ held s h /\ acquire_enter h lk (mc s) = Panic "acquire") \/
   ((lk ∉ held s h) /\ exists m', acquire_enter h lk (mc s) = Ok tt m')).
Proof.
  intros Hb Hr Hh. pose proof (reachable_inv _ _ Hb Hr) as HI.
  pose proof (li_hart _ HI h Hh) as HO.
  assert (Heq : forall m, (forall k, locks m k = locks (mc s) k) ->
     negb (locked (locks m lk) =? 0) && bool_decide (lk_cpu (locks m lk) = Some h) =
     bool_decide (lk ∈ held s h)).
  { intros m Em. rewrite Em. rewrite (bool_decide_ext _ _ (li_cpu _ HI h lk)).
    destruct (decide (lk ∈ held s h)) as [Hin|Hin].
    - pose proof (li_owned _ HI h lk ltac:(by left)) as Hl.
      rewrite bool_decide_true by done. by destruct (Z.eqb_spec (locked (locks (mc s) lk)) 0).
    - rewrite bool_decide_false by done. by rewrite andb_false_r. }
  destruct (holding_ok h lk (mc s) HO) as (m1 & E1 & M1). rewrite Heq in E1 by done.
  split; [by exists m1|]. split.
  { intros Hin. unfold release_enter, bind. rewrite E1, bool_decide_true by done. by eexists. }
  destruct (push_off_ok h (mc s) HO) as (m2 & E2 & (Eh2 & _ & El2)).
  assert (HO2 : hart_ok h (harts m2 h)) by (rewrite Eh2, Z.eqb_refl; by apply set_sie_ok).
  destruct (holding_ok h lk m2 HO2) as (m3 & E3 & _). rewrite Heq in E3 by done.
  unfold acquire_enter, bind. rewrite E2, E3. case_bool_decide; [by left|right].
  split; [done|]. by eexists.
Qed.

(** * Interrupt nesting on one CPU *)

Inductive nest : Type := Push | Pop.

Definition run_nest (h : Z) (o : nest) : M mach unit :=
  match o with Push => push_off h | Pop => pop_off h end.

Fixpoint run_nests (h : Z) (os : list nest) : M mach unit :=
  match os with
  | [] => ret tt
  | o :: os' => run_nest h o ;;; run_nests h os'
  end.

(** [d] push_off()s are open before the sequence; every prefix keeps the
    count non-negative and the whole sequence closes all of them. *)
Fixpoint balanced (d : nat) (os : list nest) : bool :=
  match os with
  | [] => (d =? 0)%nat
  | Push :: os' => balanced (S d) os'
  | Pop :: os' => match d with O => false | S d' => balanced d' os' end
  end.

(** The state [d] levels deep in a region that started with interrupts [b]
    and nesting [n0]. *)
Definition nested (h n0 i0 : Z) (b : bool) (d : nat) (m : mach) : Prop :=
  hart_ok h (harts m h) /\ noff (cpus m h) = n0 + Z.of_nat d /\
  match d with
  | O => sie_on (harts m h) = b
  | S _ => sie_on (harts m h) = false /\
           intena (cpus m h) = if n0 =? 0 then (if b then 1 else 0) else i0
  end.

Lemma run_nests_spec h os : forall n0 i0 b d m,
  0 <= n0 -> n0 + Z.of_nat d + Z.of_nat (length os) < 2 ^ 31 - 1 ->
  (0 < n0 -> b = false) -> (d = O -> 0 < n0 -> intena (cpus m h) = i0) ->
  balanced d os = true -> nested h n0 i0 b d m ->
  exists m', run_nests h os m = Ok tt m' /\ nested h n0 i0 b 0 m'.
Proof.
  induction os as [|[|] os IH]; intros n0 i0 b d m Hn0 Hb Hbf Hi0 Hbal HN; cbn [run_nests balanced length] in *.
  - apply Nat.eqb_eq in Hbal as ->. by exists m.
  - destruct HN as (HO & Hn & Hd). destruct (push_off_ok h m HO) as (m1 & E1 & (Eh & Ec & _)).
    unfold bind. cbn [run_nest]. rewrite E1. apply (IH n0 i0 b (S d)); try done; [lia|].
    unfold nested. rewrite Eh, Ec, Z.eqb_refl. cbn. split; [by apply set_sie_ok|].
    rewrite i32_small by lia. split; [lia|]. split; [apply sie_off|].
    destruct d as [|d].
    + rewrite Hd. destruct (Z.eqb_spec (noff (cpus m h)) 0), (Z.eqb_spec n0 0); lia.
    + destruct Hd as [_ ->]. destruct (Z.eqb_spec (noff (cpus m h)) 0); [lia|done].
  - destruct d as [|d]; [done|]. destruct HN as (HO & Hn & Hoff & Hint).
    destruct (pop_off_ok h m HO Hoff) as (m1 & E1 & (Eh & Ec & _)); [lia|].
    unfold bind. cbn [run_nest]. rewrite E1. rewrite i32_small in * by lia.
    assert (Hint1 : intena (cpus m1 h) = intena (cpus m h)) by (by rewrite Ec, Z.eqb_refl).
    apply (IH n0 i0 b d); try done; [lia| |].
    { intros -> Hp. rewrite Hint1, Hint. destruct (Z.eqb_spec n0 0); [lia|done]. }
    unfold nested. rewrite Hint1, Eh, Ec, Z.eqb_refl. cbn. split; [|split; [lia|]].
    { destruct (_ && _); [by apply set_sie_ok|done]. }
    rewrite Hint. destruct d as [|d].
    + destruct (Z.eqb_spec n0 0) as [->|].
      * replace (noff (cpus m h) - 1) with 0 by lia. cbn. destruct b; cbn; [|done]. apply sie_set, HO.
      * destruct (Z.eqb_spec (noff (cpus m h) - 1) 0); [lia|]. cbn. rewrite Hoff. symmetry. apply Hbf. lia.
    + destruct (Z.eqb_spec (noff (cpus m h) - 1) 0); [lia|]. done.
Qed.

(** push_off() and pop_off() nest: any balanced sequence of them runs
    without a panic and leaves the nesting depth and the interrupt flag as it
    found them, on or off. *)
Theorem push_pop_balanced h os m :
  hart_ok h (harts m h) -> 0 <= noff (cpus m h) ->
  noff (cpus m h) + Z.of_nat (length os) < 2 ^ 31 - 1 ->
  (0 < noff (cpus m h) -> sie_on (harts m h) = false) -> balanced 0 os = true ->
  exists m', run_nests h os m = Ok tt m' /\
    noff (cpus m' h) = noff (cpus m h) /\ sie_on (harts m' h) = sie_on (harts m h).
Proof.
  intros HO Hn Hb Hoff Hbal.
  destruct (run_nests_spec h os (noff (cpus m h)) (intena (cpus m h)) (sie_on (harts m h)) 0 m)
    as (m' & E & (_ & Hn' & Hs')); try done; [lia| |].
  - split; [done|]. split; [lia|done].
  - exists m'. split; [done|]. split; [lia|done].
Qed.

(** * A run of two CPUs *)

Module Demo.

Definition m0 : mach :=
  mkMach (fun h r => match r with TP => h | SSTATUS => 2 | _ => 0 end)
         (fun _ => mkCpu 0 0) (fun _ => mkSpinlock 0 "demo" None).
Definition s0 : sys := mkSys m0 (fun _ => Run) (fun _ => ∅) (fun _ => 0).

Definition after {A} (m : mach) (r : res mach A) : mach :=
  match r with Ok _ m' => m' | _ => m end.

(** CPU 0 takes lock 5 while CPU 1 spins on it. *)
Definition m1 : mach := after m0 (acquire_enter 0 5 m0).
Definition s1 : sys := mkSys m1 (fset (pcs s0) 0 (Spin 5)) (held s0) (depth s0).
Definition m2 : mach := after m1 (acquire_enter 1 5 m1).
Definition s2 : sys := mkSys m2 (fset (pcs s1) 1 (Spin 5)) (held s1) (depth s1).
Definition m3 : mach := after m2 (test_and_set 5 m2).
Definition s3 : sys := mkSys m3 (fset (pcs s2) 0 (Got 5)) (held s2) (depth s2).
Definition m4 : mach := after m3 (test_and_set 5 m3).
Definition s4 : sys := mkSys m4 (pcs s3) (held s3) (depth s3).
Definition m5 : mach := after m4 (acquire_exit 0 5 m4).
Definition s5 : sys :=
  mkSys m5 (fset (pcs s4) 0 Run) (fset (held s4) 0 ({[5]} ∪ held s4 0)) (depth s4).

Lemma boot : booted s0.
Proof. by split. Qed.

Lemma run : rtc step s0 s5.
Proof.
  apply (rtc_l _ _ s1); [exists 0; split; [done|]; by apply st_acquire|].
  apply (rtc_l _ _ s2); [exists 1; split; [done|]; by apply st_acquire|].
  apply (rtc_l _ _ s3); [exists 0; split; [done|]; by apply st_swap|].
  apply (rtc_l _ _ s4); [exists 1; split; [done|]; by apply (st_spin 1 s3 5 1)|].
  apply (rtc_l _ _ s5); [exists 0; split; [done|]; by apply st_got|]. apply rtc_refl.
Qed.
End Demo.

Lemma mutual_exclusion_witness :
  5 ∈ held Demo.s5 0 /\ (5 ∈ held Demo.s5 1 -> 0 = 1) /\ locked (locks (mc Demo.s5) 5) <> 0 /\
  sie_on (harts (mc Demo.s5) 0) = false.
Proof.
  assert (Hin : 5 ∈ held Demo.s5 0) by (cbn; set_solver).
  split; [exact Hin|].
  apply (mutual_exclusion Demo.s0 Demo.s5 0 1 5 Demo.boot Demo.run); [done|exact Hin].
Defined.

Lemma holding_exact_witness :
  (exists m', holding 1 5 (mc Demo.s5) = Ok (bool_decide (5 ∈ held Demo.s5 1)) m') /\
  (5 ∈ held Demo.s5 1 -> exists m', release_enter 1 5 (mc Demo.s5) = Ok tt m') /\
  ((5 ∈ held Demo.s5 1 /\ acquire_enter 1 5 (mc Demo.s5) = Panic "acquire") \/
   ((5 ∉ held Demo.s5 1) /\ exists m', acquire_enter 1 5 (mc Demo.s5) = Ok tt m')).
Proof.
  apply (holding_exact Demo.s0 Demo.s5 1 5 Demo.boot Demo.run). done.
Defined.

Lemma push_pop_balanced_witness :
  exists m', run_nests 3 [Push; Push; Pop; Push; Pop; Pop] Demo.m0 = Ok tt m' /\
    noff (cpus m' 3) = 0 /\ sie_on (harts m' 3) = true.
Proof.
  apply (push_pop_balanced 3 [Push; Push; Pop; Push; Pop; Pop] Demo.m0); done.
Defined.
