(* ===== verification/Sleeplock.v ===== *)
(** Sleep locks: kernel/sleeplock.c.

    The lock's inner spin lock is a flag of its own; [pid] is myproc()->pid of
    the process running the call.  A process that finds the lock taken calls
    sleep(), which gives up the inner lock: the call blocks on the lock's
    channel and, when it is woken, starts again from the inner acquire(), as
    the while loop does.  wakeup() is recorded in the component's list of woken
    channels; its effect on processes is [Proc.wakeup]. *)

From S2P Require Import Prelude.

Record sleeplock : Type := mkSleeplock {
  sl_locked : Z;      (** is the lock held? *)
  sl_lk : bool;       (** spinlock protecting this sleep lock *)
  sl_name : string;   (** name of lock *)
  sl_pid : Z;         (** process holding lock *)
}.

Definition set_sl_lk (b : bool) (l : sleeplock) : sleeplock :=
  mkSleeplock (sl_locked l) b (sl_name l) (sl_pid l).
Definition set_sl_locked (v pid : Z) (l : sleeplock) : sleeplock :=
  mkSleeplock v (sl_lk l) (sl_name l) pid.

Definition no_sleeplock : sleeplock := mkSleeplock 0 false "" 0.

Section Sleeplock.
Context {S : Type} (L : lens S sleeplock) (W : lens S (list Z)) (chan : Z).

Definition inner_lock : lens S bool :=
  mkLens (fun s => sl_lk (lget L s)) (fun b s => lset L (set_sl_lk b (lget L s)) s).

Definition wakeup (c : Z) : M S unit := modify (fun s => lset W (c :: lget W s) s).

Definition initsleeplock (name : string) : M S unit :=
  modify (fun s => lset L (set_sl_lk false (lget L s)) s) ;;;
  modify (fun s => lset L (mkSleeplock 0 (sl_lk (lget L s)) name 0) s).

Definition acquiresleep (pid : Z) : M S unit :=
  acquire inner_lock ;;;
  let! l := gets (lget L) in
  if negb (sl_locked l =? 0) then
    (* sleep(lk, &lk->lk) *)
    release inner_lock ;;; (fun s => Block chan s)
  else
    modify (fun s => lset L (set_sl_locked 1 pid (lget L s)) s) ;;;
    release inner_lock.

Definition releasesleep : M S unit :=
  acquire inner_lock ;;;
  modify (fun s => lset L (set_sl_locked 0 0 (lget L s)) s) ;;;
  wakeup chan ;;;
  release inner_lock.

Definition holdingsleep (pid : Z) : M S bool :=
  acquire inner_lock ;;;
  let! l := gets (lget L) in
  let r := negb (sl_locked l =? 0) && (sl_pid l =? pid) in
  release inner_lock ;;;
  ret r.

(** * Behaviour *)

Context `{!LensLaws L, !LensLaws W, !LensIndep L W}.

Lemma set_inner_same (l : sleeplock) : sl_lk l = false -> set_sl_lk false (set_sl_lk true l) = l.
Proof. destruct l; simpl. by intros ->. Qed.

Ltac lens_simpl :=
  repeat first [rewrite lget_lset | rewrite indep_l | rewrite indep_r | rewrite indep_comm
               | rewrite lset_lset | progress cbn].

Lemma acquiresleep_free pid s :
  sl_lk (lget L s) = false -> sl_locked (lget L s) = 0 ->
  acquiresleep pid s = Ok tt (lset L (set_sl_locked 1 pid (lget L s)) s).
Proof using LensLaws0 LensLaws1 LensIndep0.
  intros Hl Hf. unfold acquiresleep, acquire, release, bind, gets, modify, inner_lock. cbn.
  rewrite Hl. lens_simpl. rewrite Hf. lens_simpl.
  do 2 f_equal. destruct (lget L s); cbn in *. by subst.
Qed.

Lemma acquiresleep_taken pid s :
  sl_lk (lget L s) = false -> sl_locked (lget L s) <> 0 -> acquiresleep pid s = Block chan s.
Proof using LensLaws0 LensLaws1 LensIndep0.
  intros Hl Hf. unfold acquiresleep, acquire, release, bind, gets, modify, inner_lock. cbn.
  rewrite Hl. lens_simpl. destruct (Z.eqb_spec (sl_locked (lget L s)) 0); [done|]. lens_simpl.
  rewrite set_inner_same by done. by rewrite lset_lget.
Qed.

Lemma holdingsleep_eq pid s :
  sl_lk (lget L s) = false ->
  holdingsleep pid s = Ok (negb (sl_locked (lget L s) =? 0) && (sl_pid (lget L s) =? pid)) s.
Proof using LensLaws0 LensLaws1 LensIndep0.
  intros Hl. unfold holdingsleep, acquire, release, bind, gets, modify, inner_lock, ret. cbn.
  rewrite Hl. lens_simpl. rewrite set_inner_same by done. by rewrite lset_lget.
Qed.

Lemma releasesleep_eq s :
  sl_lk (lget L s) = false ->
  releasesleep s = Ok tt (lset W (chan :: lget W s) (lset L (set_sl_locked 0 0 (lget L s)) s)).
Proof using LensLaws0 LensLaws1 LensIndep0.
  intros Hl. unfold releasesleep, wakeup, acquire, release, bind, gets, modify, inner_lock. cbn.
  rewrite Hl. lens_simpl. do 3 f_equal. destruct (lget L s); cbn in *. by subst.
Qed.
End Sleeplock.

(** A sleep lock on its own. *)
Definition sl_self : lens (sleeplock * list Z) sleeplock := mkLens fst (fun l s => (l, s.2)).
Definition sl_woken : lens (sleeplock * list Z) (list Z) := mkLens snd (fun w s => (s.1, w)).

#[export] Instance sl_self_laws : LensLaws sl_self.
Proof. by split; intros; destruct s. Qed.
#[export] Instance sl_woken_laws : LensLaws sl_woken.
Proof. by split; intros; destruct s. Qed.

#[export] Instance sl_indep : LensIndep sl_self sl_woken.
Proof. by split; intros; destruct s. Qed.

(** The calls several processes make on one lock, one after the other. *)
Inductive slop : Type :=
| SlAcquire (pid : Z)
| SlRelease (pid : Z).

(** The owner after a call; [None] is a call that does not happen: an acquire
    that sleeps, a release by a process that does not hold the lock. *)
Definition spec_slop (o : slop) (owner : option Z) : option (option Z) :=
  match o, owner with
  | SlAcquire pid, None => Some (Some pid)
  | SlRelease pid, Some p => if pid =? p then Some None else None
  | _, _ => None
  end.

(** As the callers use it: releasesleep() after holdingsleep(). *)
Definition run_slop (chan : Z) (o : slop) : M (sleeplock * list Z) unit :=
  match o with
  | SlAcquire pid => acquiresleep sl_self chan pid
  | SlRelease pid =>
      let! r := holdingsleep sl_self pid in
      if r : bool then releasesleep sl_self sl_woken chan else panic "release"
  end.

Definition sl_owner (l : sleeplock) : option Z :=
  if sl_locked l =? 0 then None else Some (sl_pid l).

(** A sleep lock has at most one owner: a call succeeds exactly when the
    abstract lock allows it (acquire when free, release by the owner, which
    wakes the waiters); an acquire of a held lock sleeps on the lock's channel
    without changing the lock, and a release by another process is refused. *)
Theorem sleeplock_refines chan o l w :
  sl_lk l = false ->
  match spec_slop o (sl_owner l) with
  | Some owner' => exists l' w', run_slop chan o (l, w) = Ok tt (l', w') /\
      sl_owner l' = owner' /\ sl_lk l' = false /\
      w' = match o with SlAcquire _ => w | SlRelease _ => chan :: w end
  | None => match o with
            | SlAcquire _ => run_slop chan o (l, w) = Block chan (l, w)
            | SlRelease _ => run_slop chan o (l, w) = Panic "release"
            end
  end.
Proof.
  intros Hl. unfold sl_owner. destruct o as [pid|pid]; cbn [run_slop spec_slop].
  - destruct (Z.eqb_spec (sl_locked l) 0) as [E|E].
    + rewrite (acquiresleep_free sl_self sl_woken) by (done || apply _). cbn. by eexists _, _.
    + by rewrite (acquiresleep_taken sl_self sl_woken) by (done || apply _).
  - unfold bind. rewrite (holdingsleep_eq sl_self sl_woken) by (done || apply _). cbn.
    destruct (Z.eqb_spec (sl_locked l) 0) as [E|E]; cbn; [done|].
    rewrite (Z.eqb_sym pid). destruct (Z.eqb_spec (sl_pid l) pid) as [E'|E']; [|done].
    rewrite (releasesleep_eq sl_self sl_woken) by (done || apply _). cbn. by eexists _, _.
Qed.

Lemma sleeplock_refines_witness :
  exists l' w', run_slop 9 (SlAcquire 3) (no_sleeplock, []) = Ok tt (l', w') /\
    sl_owner l' = Some 3 /\ sl_lk l' = false /\ w' = [].
Proof. exact (sleeplock_refines 9 (SlAcquire 3) no_sleeplock [] eq_refl). Defined.
