(* ===== verification/BlockCache.v ===== *)
(** The contract of the block layer: the disk as its driver presents it, and a
    buffer cache as a finite map from block numbers to the blocks in use.

    A client that follows the locking rules cannot tell this from bio.c with
    its thirty buffers and its LRU list; [BioSim] proves it.  The log and the
    file system are written against the operations here.  [ca_disk] keeps,
    next to the blocks, the sequence of block writes the disk has performed:
    what a crash leaves is the disk after some prefix of it. *)

From S2P Require Import Prelude Riscv.

Definition BSIZE : Z := 1024.
Definition zeroblock : list Z := replicate (Z.to_nat BSIZE) 0.

(** * The disk *)

Record disk : Type := mkDisk {
  d_block : Z -> list Z;           (** contents, by block number *)
  d_hist : list (Z * list Z);      (** the writes performed, oldest first *)
}.

Definition disk_write (b : Z) (data : list Z) (d : disk) : disk :=
  mkDisk (fset (d_block d) b data) (d_hist d ++ [(b, data)]).

(** Contents after a sequence of writes. *)
Definition apply_writes (ws : list (Z * list Z)) (f : Z -> list Z) : Z -> list Z :=
  fold_left (fun g w => fset g w.1 w.2) ws f.

(** * The cache *)

Record cbuf : Type := mkCbuf {
  cb_data : list Z;
  cb_ref : Z;                      (** references: processes using it, pins *)
  cb_owner : option Z;             (** the process that has it locked *)
}.

Record bcache : Type := mkBcache {
  ca_disk : disk;
  ca_buf : gmap Z cbuf;
}.

Definition set_ca_disk (d : disk) (t : bcache) : bcache := mkBcache d (ca_buf t).
Definition set_ca_buf (m : gmap Z cbuf) (t : bcache) : bcache := mkBcache (ca_disk t) m.

(** A locked buffer with the contents of the block; its handle is the block
    number.  A process that has to wait for the lock keeps its reference. *)
Definition bread (pid b : Z) : M bcache Z := fun t =>
  match ca_buf t !! b with
  | Some c =>
      match cb_owner c with
      | None => Ok b (set_ca_buf (<[b := mkCbuf (cb_data c) (cb_ref c + 1) (Some pid)]> (ca_buf t)) t)
      | Some _ => Block b (set_ca_buf (<[b := mkCbuf (cb_data c) (cb_ref c + 1) (cb_owner c)]> (ca_buf t)) t)
      end
  | None =>
      if Z.of_nat (size (ca_buf t)) <? NBUF
      then Ok b (set_ca_buf (<[b := mkCbuf (d_block (ca_disk t) b) 1 (Some pid)]> (ca_buf t)) t)
      else Panic "bget: no buffers"
  end.

(** Drop a reference; an unreferenced block leaves the map. *)
Definition unref (b : Z) (c : cbuf) (m : gmap Z cbuf) : gmap Z cbuf :=
  if cb_ref c =? 1 then delete b m
  else <[b := mkCbuf (cb_data c) (cb_ref c - 1) (cb_owner c)]> m.

Definition bwrite (pid b : Z) : M bcache unit := fun t =>
  match ca_buf t !! b with
  | Some c => if bool_decide (cb_owner c = Some pid)
              then Ok tt (set_ca_disk (disk_write b (cb_data c) (ca_disk t)) t)
              else Panic "bwrite"
  | None => Panic "bwrite"
  end.

Definition brelse (pid b : Z) : M bcache unit := fun t =>
  match ca_buf t !! b with
  | Some c => if bool_decide (cb_owner c = Some pid)
              then Ok tt (set_ca_buf (unref b (mkCbuf (cb_data c) (cb_ref c) None) (ca_buf t)) t)
              else Panic "brelse"
  | None => Panic "brelse"
  end.

Definition bpin (b : Z) : M bcache unit := fun t =>
  match ca_buf t !! b with
  | Some c => Ok tt (set_ca_buf (<[b := mkCbuf (cb_data c) (cb_ref c + 1) (cb_owner c)]> (ca_buf t)) t)
  | None => Panic "bpin"
  end.

Definition bunpin (b : Z) : M bcache unit := fun t =>
  match ca_buf t !! b with
  | Some c => Ok tt (set_ca_buf (unref b c (ca_buf t)) t)
  | None => Panic "bunpin"
  end.

(** b->data, read and written by the process that has the buffer locked. *)
Definition get_data (b : Z) : M bcache (list Z) := fun t =>
  match ca_buf t !! b with
  | Some c => Ok (cb_data c) t
  | None => Panic "data"
  end.

Definition set_data (b : Z) (data : list Z) : M bcache unit := fun t =>
  match ca_buf t !! b with
  | Some c => Ok tt (set_ca_buf (<[b := mkCbuf data (cb_ref c) (cb_owner c)]> (ca_buf t)) t)
  | None => Panic "data"
  end.

(** What a reader of the cache sees: the cached copy, else the disk. *)
Definition bview (t : bcache) (b : Z) : list Z :=
  match ca_buf t !! b with
  | Some c => cb_data c
  | None => d_block (ca_disk t) b
  end.

(** * Rules *)

Section Rules.
Context (pid : Z).

Lemma wp_bread_miss b (Q : Z -> bcache -> Prop) t :
  ca_buf t !! b = None -> Z.of_nat (size (ca_buf t)) < NBUF ->
  Q b (set_ca_buf (<[b := mkCbuf (d_block (ca_disk t) b) 1 (Some pid)]> (ca_buf t)) t) ->
  wp (bread pid b) Q t.
Proof.
  intros Hn Hs HQ. unfold wp, bread. rewrite Hn.
  by destruct (Z.ltb_spec (Z.of_nat (size (ca_buf t))) NBUF); [|lia].
Qed.

Lemma wp_bread_hit b c (Q : Z -> bcache -> Prop) t :
  ca_buf t !! b = Some c -> cb_owner c = None ->
  Q b (set_ca_buf (<[b := mkCbuf (cb_data c) (cb_ref c + 1) (Some pid)]> (ca_buf t)) t) ->
  wp (bread pid b) Q t.
Proof. intros Hc Ho HQ. unfold wp, bread. by rewrite Hc, Ho. Qed.

Lemma wp_get_data b c (Q : list Z -> bcache -> Prop) t :
  ca_buf t !! b = Some c -> Q (cb_data c) t -> wp (get_data b) Q t.
Proof. intros Hc HQ. unfold wp, get_data. by rewrite Hc. Qed.

Lemma wp_set_data b data c (Q : unit -> bcache -> Prop) t :
  ca_buf t !! b = Some c ->
  Q tt (set_ca_buf (<[b := mkCbuf data (cb_ref c) (cb_owner c)]> (ca_buf t)) t) ->
  wp (set_data b data) Q t.
Proof. intros Hc HQ. unfold wp, set_data. by rewrite Hc. Qed.

Lemma wp_bwrite b c (Q : unit -> bcache -> Prop) t :
  ca_buf t !! b = Some c -> cb_owner c = Some pid ->
  Q tt (set_ca_disk (disk_write b (cb_data c) (ca_disk t)) t) -> wp (bwrite pid b) Q t.
Proof. intros Hc Ho HQ. unfold wp, bwrite. rewrite Hc. by rewrite bool_decide_true. Qed.

Lemma wp_brelse b c (Q : unit -> bcache -> Prop) t :
  ca_buf t !! b = Some c -> cb_owner c = Some pid ->
  Q tt (set_ca_buf (unref b (mkCbuf (cb_data c) (cb_ref c) None) (ca_buf t)) t) ->
  wp (brelse pid b) Q t.
Proof. intros Hc Ho HQ. unfold wp, brelse. rewrite Hc. by rewrite bool_decide_true. Qed.

Lemma wp_bpin b c (Q : unit -> bcache -> Prop) t :
  ca_buf t !! b = Some c ->
  Q tt (set_ca_buf (<[b := mkCbuf (cb_data c) (cb_ref c + 1) (cb_owner c)]> (ca_buf t)) t) ->
  wp (bpin b) Q t.
Proof. intros Hc HQ. unfold wp, bpin. by rewrite Hc. Qed.

Lemma wp_bunpin b c (Q : unit -> bcache -> Prop) t :
  ca_buf t !! b = Some c -> Q tt (set_ca_buf (unref b c (ca_buf t)) t) -> wp (bunpin b) Q t.
Proof. intros Hc HQ. unfold wp, bunpin. by rewrite Hc. Qed.
End Rules.

(** * Sequences of disk writes *)

Definition disk_writes (ws : list (Z * list Z)) (d : disk) : disk :=
  mkDisk (apply_writes ws (d_block d)) (d_hist d ++ ws).

Lemma disk_writes_snoc ws b data d :
  disk_write b data (disk_writes ws d) = disk_writes (ws ++ [(b, data)]) d.
Proof. unfold disk_write, disk_writes, apply_writes. cbn. by rewrite fold_left_app, <- app_assoc. Qed.

Lemma disk_writes_nil d : disk_writes [] d = d.
Proof. destruct d. unfold disk_writes. cbn. by rewrite app_nil_r. Qed.

Lemma disk_writes_app ws ws' d : disk_writes ws' (disk_writes ws d) = disk_writes (ws ++ ws') d.
Proof. unfold disk_writes, apply_writes. cbn. by rewrite fold_left_app, <- app_assoc. Qed.

Lemma apply_writes_app ws ws' f : apply_writes (ws ++ ws') f = apply_writes ws' (apply_writes ws f).
Proof. unfold apply_writes. by rewrite fold_left_app. Qed.

Lemma apply_writes_other ws f b : b ∉ ws.*1 -> apply_writes ws f b = f b.
Proof.
  revert f. induction ws as [|[x d] ws IH]; intros f Hb; simpl; [done|].
  apply not_elem_of_cons in Hb as [Hx Hb]. rewrite IH by done. by apply fset_ne.
Qed.

Lemma apply_writes_in ws f b d :
  (b, d) ∈ ws -> NoDup ws.*1 -> apply_writes ws f b = d.
Proof.
  revert f. induction ws as [|[x y] ws IH]; intros f Hin Hnd; [by apply elem_of_nil in Hin|].
  simpl in Hnd |- *. apply NoDup_cons in Hnd as [Hx Hnd].
  apply elem_of_cons in Hin as [[= -> ->]|Hin].
  - rewrite apply_writes_other by done. apply fset_eq.
  - by apply IH.
Qed.
