(* ===== verification/Bio.v ===== *)
(** Buffer cache: kernel/bio.c.

    The cache is an array of buffers threaded on a doubly linked list through
    prev and next, most recently used first.  A [struct buf *] is the index of
    the buffer, and [HEAD] stands for &bcache.head.  The disk is the one
    [BlockCache] describes: virtio_disk_rw() moves one block between it and
    the buffer. *)

From S2P Require Import Prelude Riscv Sleeplock BlockCache.

Record buf : Type := mkBuf {
  b_valid : Z;          (** has data been read from disk? *)
  b_disk : Z;           (** does disk "own" buf? *)
  b_dev : Z;
  b_blockno : Z;
  b_lock : sleeplock;
  b_refcnt : Z;
  b_prev : Z;           (** LRU cache list *)
  b_next : Z;
  b_data : list Z;
}.

Record bst : Type := mkBst {
  bc_lock : bool;       (** bcache.lock *)
  bc_buf : Z -> buf;    (** bcache.buf and, at [HEAD], bcache.head *)
  bc_disk : disk;
  bc_woken : list Z;    (** channels passed to wakeup() *)
}.

Definition HEAD : Z := NBUF.

Definition bcache_lock : lens bst bool :=
  mkLens bc_lock (fun b s => mkBst b (bc_buf s) (bc_disk s) (bc_woken s)).
Definition woken : lens bst (list Z) :=
  mkLens bc_woken (fun w s => mkBst (bc_lock s) (bc_buf s) (bc_disk s) w).

Definition upd_buf (i : Z) (f : buf -> buf) (s : bst) : bst :=
  mkBst (bc_lock s) (fset (bc_buf s) i (f (bc_buf s i))) (bc_disk s) (bc_woken s).

Definition with_valid (v : Z) (b : buf) : buf :=
  mkBuf v (b_disk b) (b_dev b) (b_blockno b) (b_lock b) (b_refcnt b) (b_prev b) (b_next b) (b_data b).
Definition with_disk (v : Z) (b : buf) : buf :=
  mkBuf (b_valid b) v (b_dev b) (b_blockno b) (b_lock b) (b_refcnt b) (b_prev b) (b_next b) (b_data b).
Definition with_block (dev no : Z) (b : buf) : buf :=
  mkBuf (b_valid b) (b_disk b) dev no (b_lock b) (b_refcnt b) (b_prev b) (b_next b) (b_data b).
Definition with_lock (l : sleeplock) (b : buf) : buf :=
  mkBuf (b_valid b) (b_disk b) (b_dev b) (b_blockno b) l (b_refcnt b) (b_prev b) (b_next b) (b_data b).
Definition with_refcnt (v : Z) (b : buf) : buf :=
  mkBuf (b_valid b) (b_disk b) (b_dev b) (b_blockno b) (b_lock b) v (b_prev b) (b_next b) (b_data b).
Definition with_prev (v : Z) (b : buf) : buf :=
  mkBuf (b_valid b) (b_disk b) (b_dev b) (b_blockno b) (b_lock b) (b_refcnt b) v (b_next b) (b_data b).
Definition with_next (v : Z) (b : buf) : buf :=
  mkBuf (b_valid b) (b_disk b) (b_dev b) (b_blockno b) (b_lock b) (b_refcnt b) (b_prev b) v (b_data b).
Definition with_data (v : list Z) (b : buf) : buf :=
  mkBuf (b_valid b) (b_disk b) (b_dev b) (b_blockno b) (b_lock b) (b_refcnt b) (b_prev b) (b_next b) v.

Definition buf_lock (i : Z) : lens bst sleeplock :=
  mkLens (fun s => b_lock (bc_buf s i)) (fun l s => upd_buf i (with_lock l) s).

#[export] Instance buf_lock_laws i : LensLaws (buf_lock i).
Proof.
  split; intros; unfold buf_lock, upd_buf; cbn; rewrite ?fset_eq; cbn.
  - done.
  - destruct s as [l f d w]. cbn. f_equal.
    replace (with_lock (b_lock (f i)) (f i)) with (f i) by (by destruct (f i)). apply fset_id.
  - f_equal. apply fset_fset.
Qed.

#[export] Instance woken_laws : LensLaws woken.
Proof. by split; intros; destruct s. Qed.

#[export] Instance buf_lock_woken i : LensIndep (buf_lock i) woken.
Proof. by split; intros; destruct s. Qed.

Definition bget_field {A} (f : buf -> A) (i : Z) : M bst A := gets (fun s => f (bc_buf s i)).
Definition bset (i : Z) (f : buf -> buf) : M bst unit := modify (upd_buf i f).

#[export] Hint Unfold bget_field bset : kwp.

(** * Operations *)

Definition binit : M bst unit :=
  modify (lset bcache_lock false) ;;;
  (* Create linked list of buffers *)
  bset HEAD (with_prev HEAD) ;;;
  bset HEAD (with_next HEAD) ;;;
  for_each (seqZ 0 NBUF) (fun b =>
    let! hn := bget_field b_next HEAD in
    bset b (with_next hn) ;;;
    bset b (with_prev HEAD) ;;;
    initsleeplock (buf_lock b) "buffer" ;;;
    let! hn := bget_field b_next HEAD in
    bset hn (with_prev b) ;;;
    bset HEAD (with_next b)).

(** Is the block already cached?  Walks the list forward from head.next. *)
Definition bget_cached (dev blockno : Z) : M bst (option Z) :=
  let! first := bget_field b_next HEAD in
  loop (S (Z.to_nat NBUF))
    (fun b =>
       if b =? HEAD then ret (inr None)
       else
         let! d := bget_field b_dev b in
         let! n := bget_field b_blockno b in
         if (d =? dev) && (n =? blockno) then ret (inr (Some b))
         else let! nx := bget_field b_next b in ret (inl nx))
    first.

(** The least recently used unused buffer.  Walks the list backward from
    head.prev. *)
Definition bget_lru : M bst (option Z) :=
  let! last := bget_field b_prev HEAD in
  loop (S (Z.to_nat NBUF))
    (fun b =>
       if b =? HEAD then ret (inr None)
       else
         let! r := bget_field b_refcnt b in
         if r =? 0 then ret (inr (Some b))
         else let! pv := bget_field b_prev b in ret (inl pv))
    last.

Definition bget (pid dev blockno : Z) : M bst Z :=
  acquire bcache_lock ;;;
  let! hit := bget_cached dev blockno in
  match hit with
  | Some b =>
      bset b (fun r => with_refcnt (u32 (b_refcnt r + 1)) r) ;;;
      release bcache_lock ;;;
      acquiresleep (buf_lock b) b pid ;;;
      ret b
  | None =>
      (* Not cached.  Recycle the least recently used (LRU) unused buffer. *)
      let! free := bget_lru in
      match free with
      | Some b =>
          bset b (with_block dev blockno) ;;;
          bset b (with_valid 0) ;;;
          bset b (with_refcnt 1) ;;;
          release bcache_lock ;;;
          acquiresleep (buf_lock b) b pid ;;;
          ret b
      | None => panic "bget: no buffers"
      end
  end.

(** The disk request as its completion leaves things. *)
Definition virtio_disk_rw (b : Z) (write : bool) : M bst unit :=
  let! r := gets (fun s => bc_buf s b) in
  if write then
    modify (fun s => mkBst (bc_lock s) (bc_buf s)
                       (disk_write (b_blockno r) (b_data r) (bc_disk s)) (bc_woken s)) ;;;
    bset b (with_disk 0)
  else
    let! d := gets (fun s => d_block (bc_disk s) (b_blockno r)) in
    bset b (with_data d) ;;;
    bset b (with_disk 0).

Definition bread (pid dev blockno : Z) : M bst Z :=
  let! b := bget pid dev blockno in
  let! v := bget_field b_valid b in
  (if v =? 0 then virtio_disk_rw b false ;;; bset b (with_valid 1) else ret tt) ;;;
  ret b.

Definition bwrite (pid b : Z) : M bst unit :=
  let! h := holdingsleep (buf_lock b) pid in
  if negb h then panic "bwrite" else virtio_disk_rw b true.

(** The end of brelse(): take the buffer out of the list and put it in front. *)
Definition to_front (b : Z) : M bst unit :=
  let! nx := bget_field b_next b in
  let! pv := bget_field b_prev b in
  bset nx (with_prev pv) ;;;
  let! pv := bget_field b_prev b in
  let! nx := bget_field b_next b in
  bset pv (with_next nx) ;;;
  let! hn := bget_field b_next HEAD in
  bset b (with_next hn) ;;;
  bset b (with_prev HEAD) ;;;
  let! hn := bget_field b_next HEAD in
  bset hn (with_prev b) ;;;
  bset HEAD (with_next b).

Definition brelse (pid b : Z) : M bst unit :=
  let! h := holdingsleep (buf_lock b) pid in
  if negb h then panic "brelse"
  else
    releasesleep (buf_lock b) woken b ;;;
    acquire bcache_lock ;;;
    bset b (fun r => with_refcnt (u32 (b_refcnt r - 1)) r) ;;;
    let! n := bget_field b_refcnt b in
    (if n =? 0 then
       (* no one is waiting for it. *)
       to_front b
     else ret tt) ;;;
    release bcache_lock.

Definition bpin (b : Z) : M bst unit :=
  acquire bcache_lock ;;;
  bset b (fun r => with_refcnt (u32 (b_refcnt r + 1)) r) ;;;
  release bcache_lock.

Definition bunpin (b : Z) : M bst unit :=
  acquire bcache_lock ;;;
  bset b (fun r => with_refcnt (u32 (b_refcnt r - 1)) r) ;;;
  release bcache_lock.
