(* ===== verification/BioSim.v ===== *)
(** bio.c implements the block cache of [BlockCache].

    [bsim dev order s t]: the buffers in use of state [s] are the entries of
    the map of [t], no two buffers hold the same block, an unused valid buffer
    agrees with the disk, and prev/next thread all buffers in [order].  Each
    operation of bio.c takes related states to related states and gives the
    same result: success, panic or sleep. *)

From S2P Require Import Prelude Riscv Sleeplock BlockCache Bio.

(** * The list of buffers *)

Definition linked (s : bst) (a b : Z) : Prop :=
  b_next (bc_buf s a) = b /\ b_prev (bc_buf s b) = a.

(** [l] is the path along next from [a] to [z], and along prev back. *)
Fixpoint chain (s : bst) (a : Z) (l : list Z) (z : Z) : Prop :=
  match l with
  | [] => linked s a z
  | x :: l' => linked s a x /\ chain s x l' z
  end.

Lemma chain_app s a l1 x l2 z :
  chain s a (l1 ++ x :: l2) z <-> chain s a l1 x /\ chain s x l2 z.
Proof. revert a. induction l1 as [|y l1 IH]; intros a; simpl; [done|]. rewrite IH. tauto. Qed.

Lemma chain_next s a l z : chain s a l z -> b_next (bc_buf s a) = hd z l.
Proof. destruct l; simpl; [by intros []|by intros [[] _]]. Qed.

Lemma chain_prev s a l z : chain s a l z -> b_prev (bc_buf s z) = default a (last l).
Proof.
  destruct l as [|y l _] using rev_ind; [by intros []|].
  rewrite chain_app. intros [_ [_ ?]]. by rewrite last_snoc.
Qed.

Lemma chain_ext s s' a l z :
  (forall y, y = a \/ y ∈ l -> b_next (bc_buf s' y) = b_next (bc_buf s y)) ->
  (forall y, y ∈ l \/ y = z -> b_prev (bc_buf s' y) = b_prev (bc_buf s y)) ->
  chain s a l z -> chain s' a l z.
Proof.
  revert a. induction l as [|x l IH]; intros a Hn Hp; simpl.
  - intros [E1 E2]. split; [rewrite Hn by tauto|rewrite Hp by tauto]; done.
  - intros [[E1 E2] Hc]. split.
    + split; [rewrite Hn by tauto|rewrite Hp by (left; left)]; done.
    + apply IH; [|intros y Hy; apply Hp; destruct Hy; [left; by right|by right]|done].
      intros y Hy. apply Hn. right. destruct Hy as [->|]; [by left|by right].
Qed.

(** Links after buffer [i] is taken out between [a] and [z]. *)
Lemma chain_unlink s s' l1 i l2 :
  NoDup (l1 ++ i :: l2) -> HEAD ∉ l1 ++ i :: l2 ->
  chain s HEAD (l1 ++ i :: l2) HEAD ->
  (forall y, b_next (bc_buf s' y) = if y =? default HEAD (last l1) then hd HEAD l2 else b_next (bc_buf s y)) ->
  (forall y, b_prev (bc_buf s' y) = if y =? hd HEAD l2 then default HEAD (last l1) else b_prev (bc_buf s y)) ->
  chain s' HEAD (l1 ++ l2) HEAD.
Proof.
  intros Hnd Hh Hc Hn Hp. apply chain_app in Hc as [Hc1 Hc2].
  apply NoDup_app in Hnd as (Hnd1 & Hdis & Hnd2). apply NoDup_cons in Hnd2 as [Hi2 Hnd2].
  rewrite not_elem_of_app, not_elem_of_cons in Hh. destruct Hh as (Hh1 & Hhi & Hh2).
  assert (Hz : hd HEAD l2 = HEAD \/ hd HEAD l2 ∈ l2) by (destruct l2; [by left|right; by left]).
  assert (Hleft : chain s' HEAD l1 (hd HEAD l2)).
  { destruct l1 as [|x l1 _] using rev_ind.
    - split; [rewrite Hn|rewrite Hp]; by rewrite Z.eqb_refl.
    - rewrite last_snoc in Hn, Hp. simpl in Hn, Hp. apply chain_app in Hc1 as [Hc1 _].
      apply NoDup_app in Hnd1 as (_ & Hx & _). apply not_elem_of_app in Hh1 as [Hh1 Hhx].
      apply chain_app. split; [|split; [rewrite Hn|rewrite Hp]; by rewrite Z.eqb_refl].
      eapply chain_ext; [| |exact Hc1]; intros y Hy.
      + rewrite Hn. destruct (Z.eqb_spec y x) as [->|]; [|done]. exfalso.
        destruct Hy as [-> |Hy]; [apply Hhx; by left|]. apply (Hx x Hy). by left.
      + rewrite Hp. destruct (Z.eqb_spec y (hd HEAD l2)) as [->|]; [|done]. exfalso.
        assert (Hin : hd HEAD l2 ∈ l1 ++ [x]) by (apply elem_of_app; destruct Hy as [?| ->]; [by left|right; by left]).
        destruct Hz as [Hz|Hz]; [rewrite Hz in Hin; by apply not_elem_of_app in Hin|].
        apply (Hdis _ Hin). by right. }
  destruct l2 as [|z l2]; [by rewrite app_nil_r|]. apply chain_app. split; [done|].
  simpl in Hp. apply NoDup_cons in Hnd2 as [Hz2 _]. destruct Hc2 as [_ Hc2].
  assert (Ha : default HEAD (last l1) = HEAD \/ default HEAD (last l1) ∈ l1).
  { destruct l1 as [|x l1 _] using rev_ind; [by left|]. rewrite last_snoc. right.
    apply elem_of_app. right. by left. }
  eapply chain_ext; [| |exact Hc2]; intros y Hy.
  - rewrite Hn. destruct (Z.eqb_spec y (default HEAD (last l1))) as [E|]; [|done]. exfalso.
    assert (Hin : y ∈ z :: l2) by (destruct Hy as [-> |?]; [by left|by right]).
    destruct Ha as [Ha|Ha]; [rewrite E, Ha in Hin; done|].
    rewrite <- E in Ha. apply (Hdis _ Ha). by right.
  - rewrite Hp. destruct (Z.eqb_spec y z) as [->|]; [|done]. exfalso.
    destruct Hy as [?|Hy]; [done|]. apply Hh2. rewrite Hy. by left.
Qed.

(** Links after buffer [i] is put in front. *)
Lemma chain_push s s' i L :
  i ∉ L -> i <> HEAD -> HEAD ∉ L -> NoDup L -> chain s HEAD L HEAD ->
  (forall y, b_next (bc_buf s' y) =
     if y =? HEAD then i else if y =? i then hd HEAD L else b_next (bc_buf s y)) ->
  (forall y, b_prev (bc_buf s' y) =
     if y =? hd HEAD L then i else if y =? i then HEAD else b_prev (bc_buf s y)) ->
  chain s' HEAD (i :: L) HEAD.
Proof.
  intros Hi Hih Hh Hnd Hc Hn Hp.
  assert (Hhd : i <> hd HEAD L).
  { destruct L; simpl; [done|]. intros ->. apply Hi. by left. }
  split.
  - split; [by rewrite Hn, Z.eqb_refl|]. rewrite Hp, Z.eqb_refl.
    by destruct (Z.eqb_spec i (hd HEAD L)).
  - assert (Hl : linked s' i (hd HEAD L)).
    { split; [|by rewrite Hp, Z.eqb_refl]. rewrite Hn, Z.eqb_refl. by destruct (Z.eqb_spec i HEAD). }
    destruct L as [|y L]; [done|]. split; [done|]. destruct Hc as [_ Hc].
    simpl in Hp. apply NoDup_cons in Hnd as [Hy _].
    apply not_elem_of_cons in Hh as [Hhy HhL]. apply not_elem_of_cons in Hi as [Hiy HiL].
    eapply chain_ext; [| |exact Hc]; intros x Hx.
    + rewrite Hn. destruct (Z.eqb_spec x HEAD) as [->|]; [by destruct Hx|].
      destruct (Z.eqb_spec x i) as [->|]; [by destruct Hx|done].
    + rewrite Hp. destruct (Z.eqb_spec x y) as [->|]; [by destruct Hx|].
      destruct (Z.eqb_spec x i) as [->|]; [by destruct Hx|done].
Qed.

(** * The rest of a buffer *)

Record pay : Type := mkPay {
  p_valid : Z; p_dev : Z; p_no : Z; p_lock : sleeplock; p_ref : Z; p_data : list Z;
}.

Definition payload (b : buf) : pay :=
  mkPay (b_valid b) (b_dev b) (b_blockno b) (b_lock b) (b_refcnt b) (b_data b).

Definition in_range (i : Z) : Prop := 0 <= i < NBUF.

(** A buffer in use and its entry. *)
Record agrees (p : pay) (c : cbuf) : Prop := {
  ag_valid : p_valid p <> 0;
  ag_data : p_data p = cb_data c;
  ag_ref : p_ref p = cb_ref c;
  ag_owner : sl_owner (p_lock p) = cb_owner c;
}.

Record psim (dev : Z) (P : Z -> pay) (t : bcache) : Prop := {
  ps_inner : forall i, in_range i -> sl_lk (p_lock (P i)) = false;
  ps_dev : forall i, in_range i -> p_dev (P i) = dev \/ (p_valid (P i) = 0 /\ p_ref (P i) = 0 /\ p_dev (P i) = 0);
  ps_uniq : forall i j, in_range i -> in_range j -> p_dev (P i) = dev -> p_dev (P j) = dev ->
    p_no (P i) = p_no (P j) -> i = j;
  ps_used : forall i, in_range i -> p_ref (P i) <> 0 ->
    exists c, ca_buf t !! p_no (P i) = Some c /\ agrees (P i) c;
  ps_free : forall i, in_range i -> p_ref (P i) = 0 ->
    sl_locked (p_lock (P i)) = 0 /\
    (p_valid (P i) <> 0 -> p_data (P i) = d_block (ca_disk t) (p_no (P i)));
  ps_map : forall b c, ca_buf t !! b = Some c ->
    exists i, in_range i /\ p_ref (P i) <> 0 /\ p_no (P i) = b;
}.

Lemma psim_ext dev P P' t : (forall i, in_range i -> P' i = P i) -> psim dev P t -> psim dev P' t.
Proof.
  intros E [H1 H2 H3 H4 H5 H6]. split.
  - intros i Hi. rewrite E by done. by apply H1.
  - intros i Hi. rewrite E by done. by apply H2.
  - intros i j Hi Hj. rewrite !E by done. by apply H3.
  - intros i Hi. rewrite E by done. by apply H4.
  - intros i Hi. rewrite E by done. by apply H5.
  - intros b c Hc. destruct (H6 b c Hc) as (i & Hi & Hr & Hn). exists i. by rewrite E.
Qed.

Section Update.
Context (dev : Z) (P : Z -> pay) (t : bcache) (HS : psim dev P t) (Hdev : dev <> 0).

Lemma used_dev i : in_range i -> p_ref (P i) <> 0 -> p_dev (P i) = dev.
Proof using HS. intros Hi Hr. destruct (ps_dev _ _ _ HS i Hi) as [?|(_ & ? & _)]; done. Qed.

(** No other buffer has the block of a buffer in use, or of a new one. *)
Definition alone (i b : Z) : Prop :=
  forall j, in_range j -> j <> i -> p_dev (P j) = dev -> p_no (P j) <> b.

Lemma alone_same i : in_range i -> p_dev (P i) = dev -> alone i (p_no (P i)).
Proof using HS. intros Hi Hd j Hj Hne Hdj E. apply Hne. by apply (ps_uniq _ _ _ HS). Qed.

(** Buffer [i] is in use for block [p_no p'], referenced by entry [c']. *)
Lemma psim_use i p' c' d' :
  in_range i -> p_dev p' = dev -> sl_lk (p_lock p') = false -> p_ref p' <> 0 -> agrees p' c' ->
  (p_no p' = p_no (P i) \/ p_ref (P i) = 0) -> alone i (p_no p') ->
  (forall b, b <> p_no p' -> d_block d' b = d_block (ca_disk t) b) ->
  psim dev (fset P i p') (mkBcache d' (<[p_no p' := c']> (ca_buf t))).
Proof using HS Hdev.
  intros Hi Hd Hlk Hr Ha Hold Hal Hdisk.
  split; cbn; unfold fset.
  - intros j Hj. destruct (Z.eqb_spec j i); [done|by apply HS].
  - intros j Hj. destruct (Z.eqb_spec j i); [by left|by apply HS].
  - intros j k Hj Hk. destruct (Z.eqb_spec j i) as [->|Hji], (Z.eqb_spec k i) as [->|Hki]; intros D1 D2 E.
    + done.
    + by destruct (Hal k Hk Hki D2).
    + by destruct (Hal j Hj Hji D1).
    + by apply (ps_uniq _ _ _ HS).
  - intros j Hj. destruct (Z.eqb_spec j i) as [->|Hji]; intros Hrj.
    + exists c'. split; [apply lookup_insert_eq|done].
    + destruct (ps_used _ _ _ HS j Hj Hrj) as (c & Hc & Hag). exists c. split; [|done].
      rewrite lookup_insert_ne; [done|]. intros E.
      apply (Hal j Hj Hji); [by apply used_dev|done].
  - intros j Hj. destruct (Z.eqb_spec j i) as [->|Hji]; [done|]. intros Hrj.
    destruct (ps_free _ _ _ HS j Hj Hrj) as [Hu Hv]. split; [done|]. intros Hval.
    rewrite Hdisk; [by apply Hv|]. apply Hal; [done|done|].
    by destruct (ps_dev _ _ _ HS j Hj) as [?|(? & _)].
  - intros b c. rewrite lookup_insert_Some. intros [[<- <-]|[Hne Hc]].
    + exists i. by rewrite Z.eqb_refl.
    + destruct (ps_map _ _ _ HS b c Hc) as (j & Hj & Hrj & Hnj). exists j.
      destruct (Z.eqb_spec j i) as [->|]; [|done]. exfalso. destruct Hold; congruence.
Qed.

(** The last reference to buffer [i] goes; its contents are on disk. *)
Lemma psim_drop i p' :
  in_range i -> p_dev p' = dev -> sl_lk (p_lock p') = false -> p_ref p' = 0 ->
  sl_locked (p_lock p') = 0 -> p_no p' = p_no (P i) -> p_ref (P i) <> 0 ->
  p_data p' = d_block (ca_disk t) (p_no p') ->
  psim dev (fset P i p') (mkBcache (ca_disk t) (delete (p_no p') (ca_buf t))).
Proof using HS Hdev.
  intros Hi Hd Hlk Hr Hun Hno Hri Hdata.
  assert (Hal : alone i (p_no p')) by (rewrite Hno; apply alone_same; [done|by apply used_dev]).
  split; cbn; unfold fset.
  - intros j Hj. destruct (Z.eqb_spec j i); [done|by apply HS].
  - intros j Hj. destruct (Z.eqb_spec j i); [by left|by apply HS].
  - intros j k Hj Hk. destruct (Z.eqb_spec j i) as [->|Hji], (Z.eqb_spec k i) as [->|Hki]; intros D1 D2 E.
    + done.
    + by destruct (Hal k Hk Hki D2).
    + by destruct (Hal j Hj Hji D1).
    + by apply (ps_uniq _ _ _ HS).
  - intros j Hj. destruct (Z.eqb_spec j i) as [->|Hji]; intros Hrj; [done|].
    destruct (ps_used _ _ _ HS j Hj Hrj) as (c & Hc & Hag). exists c. split; [|done].
    rewrite lookup_delete_ne; [done|]. intros E. apply (Hal j Hj Hji); [by apply used_dev|done].
  - intros j Hj. destruct (Z.eqb_spec j i) as [->|Hji]; [done|]. by apply HS.
  - intros b c. rewrite lookup_delete_Some. intros [Hne Hc].
    destruct (ps_map _ _ _ HS b c Hc) as (j & Hj & Hrj & Hnj). exists j.
    destruct (Z.eqb_spec j i) as [->|]; [|done]. congruence.
Qed.

(** The entries of the map and the buffers in use are as many. *)
Lemma used_count order :
  order ≡ₚ seqZ 0 NBUF ->
  size (ca_buf t) = length (filter (fun i => p_ref (P i) <> 0) order).
Proof using HS.
  intros Ho. set (U := filter _ order).
  assert (HU : forall i, i ∈ U <-> in_range i /\ p_ref (P i) <> 0).
  { intros i. unfold U. rewrite list_elem_of_filter, Ho, elem_of_seqZ. unfold in_range. naive_solver lia. }
  assert (Hnd : NoDup ((fun i => p_no (P i)) <$> U)).
  { apply NoDup_fmap_2_strong.
    - intros i j Hi Hj E. apply HU in Hi as [Hi Hri], Hj as [Hj Hrj].
      apply (ps_uniq _ _ _ HS); try done; by apply used_dev.
    - apply NoDup_filter. rewrite Ho. apply NoDup_seqZ. }
  rewrite <- (length_fmap (fun i => p_no (P i))), <- (size_list_to_set (C := gset Z)) by done.
  rewrite <- size_dom. f_equal. apply set_eq. intros b.
  rewrite elem_of_dom, elem_of_list_to_set, list_elem_of_fmap. split.
  - intros [c Hc]. destruct (ps_map _ _ _ HS b c Hc) as (i & Hi & Hr & Hn). exists i. by rewrite HU.
  - intros (i & -> & Hi). apply HU in Hi as [Hi Hr].
    destruct (ps_used _ _ _ HS i Hi Hr) as (c & Hc & _). by exists c.
Qed.
End Update.

(** * The simulation *)

Record bsim (dev : Z) (order : list Z) (s : bst) (t : bcache) : Prop := {
  bs_lock : bc_lock s = false;
  bs_chain : chain s HEAD order HEAD;
  bs_perm : order ≡ₚ seqZ 0 NBUF;
  bs_pay : psim dev (fun i => payload (bc_buf s i)) t;
  bs_disk : bc_disk s = ca_disk t;
  bs_dev : dev <> 0;
}.

Lemma bind_ok {S A B} (m : M S A) (k : A -> M S B) s a s' :
  m s = Ok a s' -> bind m k s = k a s'.
Proof. intros E. unfold bind. by rewrite E. Qed.

Section Walks.
Context (s : bst) (order : list Z) (Hc : chain s HEAD order HEAD) (Hp : order ≡ₚ seqZ 0 NBUF).

Lemma order_range i : i ∈ order <-> in_range i.
Proof using Hp. rewrite Hp, elem_of_seqZ. unfold in_range. lia. Qed.

Lemma order_length : length order = Z.to_nat NBUF.
Proof using Hp. rewrite Hp, length_seqZ. done. Qed.

Lemma bget_cached_spec dev b :
  wp (bget_cached dev b) (fun r s' => s' = s /\
    match r with
    | Some i => in_range i /\ b_dev (bc_buf s i) = dev /\ b_blockno (bc_buf s i) = b
    | None => forall i, in_range i -> ~ (b_dev (bc_buf s i) = dev /\ b_blockno (bc_buf s i) = b)
    end) s.
Proof using Hc Hp.
  unfold bget_cached. wp_steps.
  eapply wp_loop_idx with (n := length order)
    (I := fun n x s' => s' = s /\ exists pre suf a, order = pre ++ suf /\ n = length suf /\
            chain s a suf HEAD /\ x = hd HEAD suf /\
            forall i, i ∈ pre -> ~ (b_dev (bc_buf s i) = dev /\ b_blockno (bc_buf s i) = b)).
  - split; [done|]. exists [], order, HEAD. split; [done|]. split; [done|]. split; [done|].
    split; [by apply chain_next in Hc|]. intros i Hi. by apply elem_of_nil in Hi.
  - rewrite order_length. lia.
  - intros n x s' (-> & pre & suf & a & Ho & -> & Hch & -> & Hno).
    destruct suf as [|y suf]; simpl hd.
    { rewrite Z.eqb_refl. wp_steps. split; [done|]. rewrite app_nil_r in Ho. subst pre.
      intros i Hi. apply Hno. by apply order_range. }
    assert (Hy : in_range y).
    { apply order_range. rewrite Ho. apply elem_of_app. right. by left. }
    destruct (Z.eqb_spec y HEAD) as [->|_]; [by unfold in_range, HEAD in Hy; lia|]. wp_steps.
    destruct Hch as [_ Hch]. zcase; [by wp_steps| |].
    + wp_steps. exists (length suf). split; [simpl; lia|]. split; [done|].
      exists (pre ++ [y]), suf, y. rewrite <- app_assoc. split; [done|]. split; [done|].
      split; [done|]. split; [by apply chain_next in Hch|].
      intros i. rewrite elem_of_app, list_elem_of_singleton. intros [?| ->]; [by apply Hno|tauto].
    + wp_steps. exists (length suf). split; [simpl; lia|]. split; [done|].
      exists (pre ++ [y]), suf, y. rewrite <- app_assoc. split; [done|]. split; [done|].
      split; [done|]. split; [by apply chain_next in Hch|].
      intros i. rewrite elem_of_app, list_elem_of_singleton. intros [?| ->]; [by apply Hno|tauto].
Qed.

Lemma bget_lru_spec :
  wp bget_lru (fun r s' => s' = s /\
    match r with
    | Some i => in_range i /\ b_refcnt (bc_buf s i) = 0
    | None => forall i, in_range i -> b_refcnt (bc_buf s i) <> 0
    end) s.
Proof using Hc Hp.
  unfold bget_lru. wp_steps.
  eapply wp_loop_idx with (n := length order)
    (I := fun n x s' => s' = s /\ exists pre suf z, order = pre ++ suf /\ n = length pre /\
            chain s HEAD pre z /\ x = default HEAD (last pre) /\
            forall i, i ∈ suf -> b_refcnt (bc_buf s i) <> 0).
  - split; [done|]. exists order, [], HEAD. rewrite app_nil_r. split; [done|]. split; [done|].
    split; [done|]. split; [by apply chain_prev in Hc|]. intros i Hi. by apply elem_of_nil in Hi.
  - rewrite order_length. lia.
  - intros n x s' (-> & pre & suf & z & Ho & -> & Hch & -> & Hno).
    destruct pre as [|y pre _] using rev_ind; simpl default.
    { rewrite Z.eqb_refl. wp_steps. split; [done|]. simpl in Ho. subst suf.
      intros i Hi. apply Hno. by apply order_range. }
    rewrite last_snoc. simpl default.
    assert (Hy : in_range y).
    { apply order_range. rewrite Ho, <- app_assoc. apply elem_of_app. right. by left. }
    destruct (Z.eqb_spec y HEAD) as [->|_]; [by unfold in_range, HEAD in Hy; lia|]. wp_steps.
    apply chain_app in Hch as [Hch _]. zcase; [by wp_steps|]. wp_steps.
    exists (length pre). split; [rewrite length_app; simpl; lia|]. split; [done|].
    exists pre, (y :: suf), y. rewrite Ho, <- app_assoc. split; [done|]. split; [done|].
    split; [done|]. split; [by apply chain_prev in Hch|].
    intros i. rewrite elem_of_cons. intros [-> |?]; [done|by apply Hno].
Qed.
End Walks.

(** Changing one buffer, links aside. *)
Lemma payload_upd i f s j :
  payload (bc_buf (upd_buf i f s) j) = fset (fun x => payload (bc_buf s x)) i (payload (f (bc_buf s i))) j.
Proof. unfold upd_buf, fset. cbn. by destruct (j =? i). Qed.

Definition same_links (s s' : bst) : Prop :=
  forall y, b_next (bc_buf s' y) = b_next (bc_buf s y) /\ b_prev (bc_buf s' y) = b_prev (bc_buf s y).

Lemma chain_same s s' a l z : same_links s s' -> chain s a l z -> chain s' a l z.
Proof. intros Hs. apply chain_ext; intros y _; apply Hs. Qed.

Lemma upd_same_links i f s :
  b_next (f (bc_buf s i)) = b_next (bc_buf s i) -> b_prev (f (bc_buf s i)) = b_prev (bc_buf s i) ->
  same_links s (upd_buf i f s).
Proof. intros Hn Hp y. unfold upd_buf, fset. cbn. by destruct (Z.eqb_spec y i) as [->|]. Qed.

(** The state after buffer [i] has been replaced by [nb], which has the same
    place in the list, and [disk] by [d]. *)
Lemma bsim_replace dev order s t i nb d w t' :
  bsim dev order s t ->
  b_next nb = b_next (bc_buf s i) -> b_prev nb = b_prev (bc_buf s i) ->
  psim dev (fset (fun j => payload (bc_buf s j)) i (payload nb)) t' -> ca_disk t' = d ->
  bsim dev order (mkBst false (fset (bc_buf s) i nb) d w) t'.
Proof.
  intros [Hl Hc Hp HP Hd Hdev] Hn Hpv HS' Hd'.
  split; cbn; try done.
  - eapply chain_same; [|exact Hc]. intros y. cbn. unfold fset. by destruct (Z.eqb_spec y i) as [->|].
  - eapply psim_ext; [|exact HS']. intros j _. unfold fset. by destruct (j =? i).
Qed.

(** The three ways bget() can go. *)
Lemma bget_eq pid dev order s t b :
  bsim dev order s t ->
  (exists i, in_range i /\ b_dev (bc_buf s i) = dev /\ b_blockno (bc_buf s i) = b /\
      bget pid dev b s =
        bind (acquiresleep (buf_lock i) i pid) (fun _ => ret i)
          (upd_buf i (fun r => with_refcnt (u32 (b_refcnt r + 1)) r) s)) \/
   ((forall i, in_range i -> ~ (b_dev (bc_buf s i) = dev /\ b_blockno (bc_buf s i) = b)) /\
    ((exists i, in_range i /\ b_refcnt (bc_buf s i) = 0 /\
       bget pid dev b s =
         bind (acquiresleep (buf_lock i) i pid) (fun _ => ret i)
           (upd_buf i (fun r => with_refcnt 1 (with_valid 0 (with_block dev b r))) s)) \/
     ((forall i, in_range i -> b_refcnt (bc_buf s i) <> 0) /\
      bget pid dev b s = Panic "bget: no buffers"))).
Proof.
  intros [Hl Hc Hp HP Hd Hdev].
  destruct s as [lk f dk w]. cbn in Hl. subst lk.
  set (s1 := mkBst true f dk w).
  assert (Hc1 : chain s1 HEAD order HEAD) by (eapply chain_same; [|exact Hc]; done).
  unfold bget. rewrite (bind_ok _ _ _ tt s1) by done.
  destruct (proj1 (wp_ok _ _ _) (bget_cached_spec s1 order Hc1 Hp dev b)) as (r & s2 & E & -> & Hr).
  rewrite (bind_ok _ _ _ _ _ E). destruct r as [i|].
  - left. exists i. destruct Hr as (Hi & Hdi & Hbi). split; [done|]. split; [done|]. split; [done|].
    unfold bset. rewrite (bind_ok _ _ _ tt (upd_buf i (fun r => with_refcnt (u32 (b_refcnt r + 1)) r) s1)) by done.
    done.
  - right. split; [done|].
    destruct (proj1 (wp_ok _ _ _) (bget_lru_spec s1 order Hc1 Hp)) as (r & s2 & E2 & -> & Hr2).
    rewrite (bind_ok _ _ _ _ _ E2). destruct r as [i|].
    + left. exists i. destruct Hr2 as [Hi Hri]. split; [done|]. split; [done|].
      unfold bset, modify, bind, release, gets. cbn. unfold upd_buf. cbn.
      rewrite !fset_fset, !fset_eq. done.
    + right. done.
Qed.

(** Changes of links leave the rest of every buffer alone. *)
Definition same_pay (s s' : bst) : Prop :=
  (forall y, payload (bc_buf s' y) = payload (bc_buf s y)) /\
  bc_lock s' = bc_lock s /\ bc_disk s' = bc_disk s /\ bc_woken s' = bc_woken s.

Lemma same_pay_trans s1 s2 s3 : same_pay s1 s2 -> same_pay s2 s3 -> same_pay s1 s3.
Proof.
  intros (P1 & L1 & D1 & W1) (P2 & L2 & D2 & W2). split; [intros y; by rewrite P2|].
  by rewrite L2, D2, W2.
Qed.

Lemma same_pay_prev i v s : same_pay s (upd_buf i (with_prev v) s).
Proof. split; [|done]. intros y. cbn. unfold fset. by destruct (Z.eqb_spec y i) as [->|]. Qed.

Lemma same_pay_next i v s : same_pay s (upd_buf i (with_next v) s).
Proof. split; [|done]. intros y. cbn. unfold fset. by destruct (Z.eqb_spec y i) as [->|]. Qed.

Lemma next_prev i v s y : b_next (bc_buf (upd_buf i (with_prev v) s) y) = b_next (bc_buf s y).
Proof. cbn. unfold fset. by destruct (Z.eqb_spec y i) as [->|]. Qed.
Lemma prev_next i v s y : b_prev (bc_buf (upd_buf i (with_next v) s) y) = b_prev (bc_buf s y).
Proof. cbn. unfold fset. by destruct (Z.eqb_spec y i) as [->|]. Qed.
Lemma next_next i v s y :
  b_next (bc_buf (upd_buf i (with_next v) s) y) = if y =? i then v else b_next (bc_buf s y).
Proof. cbn. unfold fset. by destruct (Z.eqb_spec y i) as [->|]. Qed.
Lemma prev_prev i v s y :
  b_prev (bc_buf (upd_buf i (with_prev v) s) y) = if y =? i then v else b_prev (bc_buf s y).
Proof. cbn. unfold fset. by destruct (Z.eqb_spec y i) as [->|]. Qed.

Lemma to_front_spec s order i :
  chain s HEAD order HEAD -> order ≡ₚ seqZ 0 NBUF -> in_range i ->
  exists s' order', to_front i s = Ok tt s' /\ same_pay s s' /\
    chain s' HEAD order' HEAD /\ order' ≡ₚ seqZ 0 NBUF.
Proof.
  intros Hc Hp Hi. assert (Hin : i ∈ order) by (by apply (order_range order)).
  apply list_elem_of_split in Hin as (l1 & l2 & ->).
  assert (Hnd : NoDup (l1 ++ i :: l2)) by (rewrite Hp; apply NoDup_seqZ).
  assert (Hh : HEAD ∉ l1 ++ i :: l2) by (rewrite Hp, elem_of_seqZ; unfold HEAD; lia).
  assert (Hni : b_next (bc_buf s i) = hd HEAD l2 /\ b_prev (bc_buf s i) = default HEAD (last l1)).
  { apply chain_app in Hc as [Hc1 Hc2]. by apply chain_next in Hc2; apply chain_prev in Hc1. }
  destruct Hni as [Hni Hpi]. set (a := default HEAD (last l1)) in *. set (z := hd HEAD l2) in *.
  set (s1 := upd_buf z (with_prev a) s). set (s2 := upd_buf a (with_next z) s1).
  assert (Hc2 : chain s2 HEAD (l1 ++ l2) HEAD).
  { apply (chain_unlink s s2 l1 i l2); [done|done|done|..]; intros y; unfold s2, s1; fold a z.
    - by rewrite next_next, next_prev.
    - by rewrite prev_next, prev_prev. }
  apply NoDup_app in Hnd as (Hnd1 & Hdis & Hnd2). apply NoDup_cons in Hnd2 as [Hi2 Hnd2].
  rewrite not_elem_of_app, not_elem_of_cons in Hh. destruct Hh as (Hh1 & Hhi & Hh2).
  assert (HiL : i ∉ l1 ++ l2).
  { rewrite not_elem_of_app. split; [|done]. intros Hin. apply (Hdis i Hin). by left. }
  set (h := hd HEAD (l1 ++ l2)).
  assert (Hh : b_next (bc_buf s2 HEAD) = h) by (by apply chain_next in Hc2).
  assert (Hih : i <> HEAD) by done.
  set (s3 := upd_buf i (with_next h) s2). set (s4 := upd_buf i (with_prev HEAD) s3).
  set (s5 := upd_buf h (with_prev i) s4). set (s6 := upd_buf HEAD (with_next i) s5).
  exists s6, (i :: l1 ++ l2). split; [|split; [|split]].
  - assert (Hz : i <> z).
    { unfold z. destruct l2; simpl; [done|]. intros ->. apply Hi2. by left. }
    unfold to_front, bget_field, bset, bind, gets, modify. rewrite Hni, Hpi. fold s1.
    assert (E1 : b_prev (bc_buf s1 i) = a).
    { unfold s1. rewrite prev_prev, Hpi. by destruct (i =? z). }
    assert (E2 : b_next (bc_buf s1 i) = z) by (unfold s1; by rewrite next_prev).
    rewrite E1, E2. fold s2. rewrite Hh. fold s3. fold s4.
    assert (E3 : b_next (bc_buf s4 HEAD) = h).
    { unfold s4, s3. rewrite next_prev, next_next. by destruct (Z.eqb_spec HEAD i). }
    rewrite E3. done.
  - repeat (eapply same_pay_trans; [|apply same_pay_next || apply same_pay_prev]). by split.
  - apply (chain_push s2); [done|done|by rewrite not_elem_of_app| |done| |].
    + apply NoDup_app. split; [done|]. split; [|done]. intros y Hy Hy2. apply (Hdis y Hy). by right.
    + intros y. unfold s6, s5, s4, s3. by rewrite next_next, !next_prev, next_next.
    + intros y. unfold s6, s5, s4, s3. by rewrite prev_next, !prev_prev, prev_next.
  - rewrite <- Hp. by rewrite Permutation_middle.
Qed.

Lemma bsim_links dev order order' s s' t :
  bsim dev order s t -> (forall y, payload (bc_buf s' y) = payload (bc_buf s y)) ->
  bc_lock s' = false -> bc_disk s' = bc_disk s ->
  chain s' HEAD order' HEAD -> order' ≡ₚ seqZ 0 NBUF -> bsim dev order' s' t.
Proof.
  intros [Hl Hc Hp HP Hd Hdev] Hpay Hl' Hd' Hc' Hp'. split; try done; [|congruence].
  eapply psim_ext; [|exact HP]. intros i _. apply Hpay.
Qed.

(** * Operation by operation *)

Definition sim_res {A B} (dev : Z) (R : bst -> A -> B -> Prop)
    (r : res bst A) (r' : res bcache B) : Prop :=
  match r, r' with
  | Ok a s', Ok b t' => (exists order', bsim dev order' s' t') /\ R s' a b
  | Panic m, Panic m' => m = m'
  | Block _ s', Block _ t' => exists order', bsim dev order' s' t'
  | _, _ => False
  end.

(** Buffer [i] is the one in use for block [b]. *)
Definition handle (s : bst) (i b : Z) : Prop :=
  in_range i /\ b_blockno (bc_buf s i) = b /\ b_refcnt (bc_buf s i) <> 0.

(** Only buffer [i] has changed, and it was for block [b] if it was in use. *)
Definition others (s : bst) (i b : Z) (s' : bst) : Prop :=
  (forall j, j <> i -> payload (bc_buf s' j) = payload (bc_buf s j)) /\
  (b_refcnt (bc_buf s i) <> 0 -> b_blockno (bc_buf s i) = b) /\
  b_blockno (bc_buf s' i) = b /\ b_dev (bc_buf s' i) <> 0.

Lemma others_upd s i b nb lk d w :
  (b_refcnt (bc_buf s i) <> 0 -> b_blockno (bc_buf s i) = b) -> b_blockno nb = b -> b_dev nb <> 0 ->
  others s i b (mkBst lk (fset (bc_buf s) i nb) d w).
Proof.
  intros Ho Hn Hd. split; [|by cbn; rewrite fset_eq]. intros j Hj. cbn. by rewrite fset_ne.
Qed.

(** Reference counts stay in the range of a uint. *)
Definition refs_ok (t : bcache) : Prop :=
  forall b c, ca_buf t !! b = Some c -> 1 <= cb_ref c < 2 ^ 32 - 1.

Section Sim.
Context (pid dev : Z) (order : list Z) (s : bst) (t : bcache).
Context (HB : bsim dev order s t) (Hrefs : refs_ok t).

Lemma handle_entry i b :
  handle s i b -> exists c, ca_buf t !! b = Some c /\ agrees (payload (bc_buf s i)) c /\
    b_dev (bc_buf s i) = dev /\ sl_lk (b_lock (bc_buf s i)) = false /\
    1 <= b_refcnt (bc_buf s i) < 2 ^ 32 - 1.
Proof using HB Hrefs.
  intros (Hi & <- & Hr). pose proof (bs_pay _ _ _ _ HB) as HP.
  destruct (ps_used _ _ _ HP i Hi Hr) as (c & Hc & Ha). exists c. split; [done|]. split; [done|].
  split; [by apply (used_dev _ _ _ HP i)|]. split; [by apply (ps_inner _ _ _ HP)|].
  destruct Ha as [_ _ Er _]. cbn in Er. rewrite Er. by eapply Hrefs.
Qed.

Lemma free_not_mapped i b :
  in_range i -> b_dev (bc_buf s i) = dev -> b_blockno (bc_buf s i) = b ->
  b_refcnt (bc_buf s i) = 0 -> ca_buf t !! b = None.
Proof using HB.
  intros Hi Hd Hb Hr. pose proof (bs_pay _ _ _ _ HB) as HP.
  destruct (ca_buf t !! b) as [c|] eqn:E; [|done].
  destruct (ps_map _ _ _ HP b c E) as (j & Hj & Hrj & Hnj).
  assert (j = i) as ->; [|done].
  apply (ps_uniq _ _ _ HP); try done; [by apply (used_dev _ _ _ HP)|]. by rewrite Hnj.
Qed.

Lemma has_room i : in_range i -> b_refcnt (bc_buf s i) = 0 -> Z.of_nat (size (ca_buf t)) < NBUF.
Proof using HB.
  intros Hi Hr. pose proof (bs_perm _ _ _ _ HB) as Hp.
  rewrite (used_count dev _ _ (bs_pay _ _ _ _ HB) order) by done.
  assert (Hin : i ∈ order) by (by apply (order_range order)).
  pose proof (length_filter_lt (fun i => p_ref (payload (bc_buf s i)) <> 0) order i Hin) as Hlt.
  specialize (Hlt ltac:(cbn; lia)). rewrite (order_length order) in Hlt by done.
  unfold NBUF, MAXOPBLOCKS in *. lia.
Qed.

Lemma no_room :
  (forall i, in_range i -> b_refcnt (bc_buf s i) <> 0) -> Z.of_nat (size (ca_buf t)) = NBUF.
Proof using HB.
  intros Hall. pose proof (bs_perm _ _ _ _ HB) as Hp.
  rewrite (used_count dev _ _ (bs_pay _ _ _ _ HB) order) by done.
  rewrite filter_all; [rewrite (order_length order) by done; done|].
  intros i Hi. apply Hall. by apply (order_range order).
Qed.

(** What bread() does to the buffer bget() returns. *)
Definition fill (d : Z -> list Z) (r : buf) : buf :=
  if b_valid r =? 0 then with_valid 1 (with_disk 0 (with_data (d (b_blockno r)) r)) else r.

Lemma bread_fill i g b :
  bget pid dev b s = Ok i (upd_buf i g s) ->
  bread pid dev b s = Ok i (upd_buf i (fun _ => fill (d_block (bc_disk s)) (g (bc_buf s i))) s).
Proof.
  intros E. unfold bread. rewrite (bind_ok _ _ _ _ _ E).
  unfold bget_field, bset, virtio_disk_rw, bind, gets, modify, ret, fill. cbn. rewrite fset_eq.
  destruct (Z.eqb_spec (b_valid (g (bc_buf s i))) 0); cbn; [|done].
  unfold upd_buf. cbn. rewrite !fset_eq, !fset_fset. done.
Qed.

Lemma upd_lock i f : lset (buf_lock i) (set_sl_locked 1 pid (b_lock (f (bc_buf s i)))) (upd_buf i f s) =
  upd_buf i (fun r => with_lock (set_sl_locked 1 pid (b_lock (f r))) (f r)) s.
Proof. unfold buf_lock, upd_buf. cbn. by rewrite fset_eq, fset_fset. Qed.

(** The lock taken on buffer [i] after [f]. *)
Lemma acquire_after i f :
  sl_lk (b_lock (f (bc_buf s i))) = false ->
  acquiresleep (buf_lock i) i pid (upd_buf i f s) =
    if sl_locked (b_lock (f (bc_buf s i))) =? 0
    then Ok tt (upd_buf i (fun r => with_lock (set_sl_locked 1 pid (b_lock (f r))) (f r)) s)
    else Block i (upd_buf i f s).
Proof.
  intros Hl. assert (E : lget (buf_lock i) (upd_buf i f s) = b_lock (f (bc_buf s i)))
    by (cbn; by rewrite fset_eq).
  destruct (Z.eqb_spec (sl_locked (b_lock (f (bc_buf s i)))) 0) as [E0|E0].
  - rewrite (acquiresleep_free (buf_lock i) woken) by (apply _ || by rewrite E). rewrite E.
    by rewrite <- upd_lock.
  - rewrite (acquiresleep_taken (buf_lock i) woken) by (apply _ || by rewrite E). done.
Qed.

(** A fresh reference to a block nobody uses, through buffer [i]. *)
Lemma bread_new i b nb :
  in_range i -> b_refcnt (bc_buf s i) = 0 -> ca_buf t !! b = None ->
  alone dev (fun j => payload (bc_buf s j)) i b ->
  b_next nb = b_next (bc_buf s i) -> b_prev nb = b_prev (bc_buf s i) ->
  payload nb = mkPay (b_valid nb) dev b (b_lock nb) 1 (d_block (ca_disk t) b) ->
  b_valid nb <> 0 -> sl_owner (b_lock nb) = Some pid -> sl_lk (b_lock nb) = false ->
  sim_res dev (fun s' i b => handle s' i b /\ others s i b s') (Ok i (upd_buf i (fun _ => nb) s)) (BlockCache.bread pid b t).
Proof using HB.
  intros Hi Hr Hnone Hal Hn Hp Hpay Hv Ho Hl. unfold BlockCache.bread. rewrite Hnone.
  pose proof (has_room i Hi Hr) as Hroom. destruct (Z.ltb_spec (Z.of_nat (size (ca_buf t))) NBUF); [|lia].
  injection Hpay as Hpd Hpn Hpr Hpdt.
  split; [|split; [split; [done|]; cbn; rewrite fset_eq; split; [done|lia]|apply others_upd; [done|done|cbn; rewrite Hpd; apply HB]]].
  exists order. unfold upd_buf. rewrite (bs_lock _ _ _ _ HB).
  eapply bsim_replace; [exact HB|done|done| |by rewrite (bs_disk _ _ _ _ HB)].
  unfold set_ca_buf. rewrite <- Hpn at 1.
  refine (psim_use dev _ t (bs_pay _ _ _ _ HB) (bs_dev _ _ _ _ HB) i (payload nb) _ _ Hi _ _ _ _ _ _ _);
    cbn; try done.
  - lia.
  - by right.
  - by rewrite Hpn.
Qed.

(** The block is cached but no one uses it. *)
Lemma bread_unused b i :
  in_range i -> b_dev (bc_buf s i) = dev -> b_blockno (bc_buf s i) = b ->
  b_refcnt (bc_buf s i) = 0 ->
  bget pid dev b s =
    bind (acquiresleep (buf_lock i) i pid) (fun _ => ret i)
      (upd_buf i (fun r => with_refcnt (u32 (b_refcnt r + 1)) r) s) ->
  sim_res dev (fun s' i b => handle s' i b /\ others s i b s') (bread pid dev b s) (BlockCache.bread pid b t).
Proof using HB.
  intros Hi Hd Hb Hr E. pose proof (bs_pay _ _ _ _ HB) as HP.
  pose proof (ps_inner _ _ _ HP i Hi) as Hin. cbn in Hin.
  destruct (ps_free _ _ _ HP i Hi Hr) as [Hun Hval]. cbn in Hun, Hval.
  assert (Ha := acquire_after i (fun r => with_refcnt (u32 (b_refcnt r + 1)) r) Hin). cbn in Ha.
  rewrite Hun in Ha. cbn in Ha. rewrite (bind_ok _ _ _ _ _ Ha) in E. rewrite (bread_fill _ _ _ E).
  assert (Hu : u32 (b_refcnt (bc_buf s i) + 1) = 1) by (by rewrite Hr).
  apply bread_new; try done.
  - by apply (free_not_mapped i).
  - rewrite <- Hb. by apply (alone_same _ _ _ HP i).
  - unfold fill. by destruct (_ =? 0).
  - unfold fill. by destruct (_ =? 0).
  - unfold fill, payload. cbn. destruct (Z.eqb_spec (b_valid (bc_buf s i)) 0) as [|Hv]; cbn;
      rewrite Hd, Hb, Hu; [by rewrite (bs_disk _ _ _ _ HB)|]. by rewrite Hval, Hb.
  - unfold fill. cbn. by destruct (Z.eqb_spec (b_valid (bc_buf s i)) 0).
  - unfold fill. cbn. by destruct (_ =? 0).
  - unfold fill. cbn. by destruct (_ =? 0).
Qed.

(** The block is not cached. *)
Lemma bread_miss b i :
  (forall j, in_range j -> ~ (b_dev (bc_buf s j) = dev /\ b_blockno (bc_buf s j) = b)) ->
  in_range i -> b_refcnt (bc_buf s i) = 0 ->
  bget pid dev b s =
    bind (acquiresleep (buf_lock i) i pid) (fun _ => ret i)
      (upd_buf i (fun r => with_refcnt 1 (with_valid 0 (with_block dev b r))) s) ->
  sim_res dev (fun s' i b => handle s' i b /\ others s i b s') (bread pid dev b s) (BlockCache.bread pid b t).
Proof using HB.
  intros Hmiss Hi Hr E. pose proof (bs_pay _ _ _ _ HB) as HP.
  pose proof (ps_inner _ _ _ HP i Hi) as Hin. cbn in Hin.
  destruct (ps_free _ _ _ HP i Hi Hr) as [Hun _]. cbn in Hun.
  assert (Ha := acquire_after i (fun r => with_refcnt 1 (with_valid 0 (with_block dev b r))) Hin). cbn in Ha.
  rewrite Hun in Ha. cbn in Ha. rewrite (bind_ok _ _ _ _ _ Ha) in E. rewrite (bread_fill _ _ _ E).
  apply bread_new; try done.
  - destruct (ca_buf t !! b) as [c|] eqn:Ec; [|done].
    destruct (ps_map _ _ _ HP b c Ec) as (j & Hj & Hrj & Hnj). exfalso. apply (Hmiss j Hj).
    split; [by apply (used_dev _ _ _ HP j)|done].
  - intros j Hj _ Hdj Hnj. by apply (Hmiss j Hj).
  - unfold fill, payload. cbn. by rewrite (bs_disk _ _ _ _ HB).
Qed.

(** The entry of a block in use after a change of its buffer. *)
Lemma handle_update i b nb c' d w :
  handle s i b -> payload nb = mkPay (b_valid nb) dev b (b_lock nb) (cb_ref c') (cb_data c') ->
  b_next nb = b_next (bc_buf s i) -> b_prev nb = b_prev (bc_buf s i) ->
  b_valid nb <> 0 -> sl_lk (b_lock nb) = false -> sl_owner (b_lock nb) = cb_owner c' ->
  1 <= cb_ref c' -> (forall b', b' <> b -> d_block d b' = d_block (ca_disk t) b') ->
  bsim dev order (mkBst false (fset (bc_buf s) i nb) d w) (mkBcache d (<[b := c']> (ca_buf t))).
Proof using HB Hrefs.
  intros Hh Hpay Hn Hp Hv Hl Ho Hr Hd. pose proof (bs_pay _ _ _ _ HB) as HP.
  destruct (handle_entry i b Hh) as (c & Hc & _ & Hdev & _). destruct Hh as (Hi & Hb & Hri).
  injection Hpay as Hpd Hpn Hpr Hpdt.
  eapply bsim_replace; [exact HB|done|done| |done]. rewrite <- Hpn.
  refine (psim_use dev _ t HP (bs_dev _ _ _ _ HB) i (payload nb) _ _ Hi _ _ _ _ _ _ _); cbn; try done.
  - lia.
  - left. congruence.
  - rewrite Hpn, <- Hb. by apply (alone_same _ _ _ HP i).
  - by rewrite Hpn.
Qed.

(** The block is in use: its lock is free, or the caller sleeps. *)
Lemma bread_used b i :
  handle s i b ->
  bget pid dev b s =
    bind (acquiresleep (buf_lock i) i pid) (fun _ => ret i)
      (upd_buf i (fun r => with_refcnt (u32 (b_refcnt r + 1)) r) s) ->
  sim_res dev (fun s' i b => handle s' i b /\ others s i b s') (bread pid dev b s) (BlockCache.bread pid b t).
Proof using HB Hrefs.
  intros Hh E. destruct (handle_entry i b Hh) as (c & Hc & [Hv Hdt Href Hown] & Hdev & Hin & Hrng).
  cbn in Hv, Hdt, Href, Hown. unfold sl_owner in Hown. pose proof Hh as (Hi & Hb & _).
  assert (Ha := acquire_after i (fun r => with_refcnt (u32 (b_refcnt r + 1)) r) Hin). cbn in Ha.
  assert (Hu : u32 (b_refcnt (bc_buf s i) + 1) = b_refcnt (bc_buf s i) + 1)
    by (apply u32_small; unfold is_u32; lia).
  unfold BlockCache.bread. rewrite Hc.
  destruct (Z.eqb_spec (sl_locked (b_lock (bc_buf s i))) 0) as [Hl|Hl]; rewrite <- Hown.
  - rewrite (bind_ok _ _ _ _ _ Ha) in E. rewrite (bread_fill _ _ _ E). unfold fill. cbn.
    destruct (Z.eqb_spec (b_valid (bc_buf s i)) 0); [done|].
    split; [|split; [split; [done|]; cbn; rewrite fset_eq; cbn; rewrite Hu; split; [done|lia]|apply others_upd; [done|done|cbn; rewrite Hdev; apply HB]]].
    exists order. unfold upd_buf. rewrite (bs_lock _ _ _ _ HB), (bs_disk _ _ _ _ HB).
    apply (handle_update i b); cbn; try done; [|lia].
    unfold payload. cbn. by rewrite Hdev, Hb, Hu, Href, Hdt.
  - unfold bread. unfold bind at 1. rewrite E. unfold bind. rewrite Ha.
    exists order. unfold upd_buf. rewrite (bs_lock _ _ _ _ HB), (bs_disk _ _ _ _ HB).
    apply (handle_update i b); cbn; try done; [| |lia].
    + unfold payload. cbn. by rewrite Hdev, Hb, Hu, Href, Hdt.
    + unfold sl_owner. by destruct (Z.eqb_spec (sl_locked (b_lock (bc_buf s i))) 0).
Qed.

Lemma bread_sim b : sim_res dev (fun s' i b => handle s' i b /\ others s i b s') (bread pid dev b s) (BlockCache.bread pid b t).
Proof using HB Hrefs.
  destruct (bget_eq pid dev order s t b HB) as [(i & Hi & Hd & Hb & E)|[Hmiss [(i & Hi & Hr & E)|[Hall E]]]].
  - destruct (Z.eq_dec (b_refcnt (bc_buf s i)) 0) as [Hr|Hr].
    + by apply (bread_unused b i).
    + by apply (bread_used b i).
  - by apply (bread_miss b i).
  - unfold bread, bind. rewrite E. unfold BlockCache.bread.
    pose proof (bs_pay _ _ _ _ HB) as HP. destruct (ca_buf t !! b) as [c|] eqn:Ec.
    + destruct (ps_map _ _ _ HP b c Ec) as (j & Hj & Hrj & Hnj). exfalso. apply (Hmiss j Hj).
      split; [by apply (used_dev _ _ _ HP j)|done].
    + rewrite (no_room Hall), Z.ltb_irrefl. done.
Qed.

Lemma owner_test i b c :
  handle s i b -> ca_buf t !! b = Some c ->
  holdingsleep (buf_lock i) pid s = Ok (bool_decide (cb_owner c = Some pid)) s.
Proof using HB Hrefs.
  intros Hh Hc. destruct (handle_entry i b Hh) as (c' & Hc' & [_ _ _ Ho] & _ & Hl & _).
  assert (c' = c) as -> by congruence.
  rewrite (holdingsleep_eq (buf_lock i) woken) by (apply _ || done). cbn [buf_lock lget].
  cbn in Ho. unfold sl_owner in Ho. rewrite <- Ho. f_equal.
  destruct (Z.eqb_spec (sl_locked (b_lock (bc_buf s i))) 0); cbn; [done|].
  destruct (Z.eqb_spec (sl_pid (b_lock (bc_buf s i))) pid) as [->|Hne].
  - by rewrite bool_decide_true.
  - rewrite bool_decide_false; [done|]. congruence.
Qed.

Lemma bwrite_sim i b :
  handle s i b -> sim_res dev (fun s' _ _ => others s i b s') (bwrite pid i s) (BlockCache.bwrite pid b t).
Proof using HB Hrefs.
  intros Hh. destruct (handle_entry i b Hh) as (c & Hc & [Hv Hdt Hr Ho] & Hd & Hl & Hrng).
  pose proof Hh as (Hi & Hb & Hri). cbn in Hv, Hdt, Hr, Ho.
  unfold bwrite. rewrite (bind_ok _ _ _ _ _ (owner_test i b c Hh Hc)).
  unfold BlockCache.bwrite. rewrite Hc. case_bool_decide; [|done].
  unfold virtio_disk_rw, bset, bind, gets, modify, upd_buf. cbn. split; [|apply others_upd; [done|done|cbn; rewrite Hd; apply HB]]. exists order.
  rewrite (bs_lock _ _ _ _ HB), (bs_disk _ _ _ _ HB), Hb, Hdt.
  unfold set_ca_disk. rewrite <- (insert_id (ca_buf t) b c Hc).
  apply (handle_update i b); cbn; try done.
  - unfold payload. cbn. congruence.
  - lia.
  - intros b' Hb'. by rewrite fset_ne.
Qed.

(** Reference counts changed on a block that stays in use. *)
Lemma ref_sim i b v w :
  handle s i b -> 1 <= v ->
  forall c, ca_buf t !! b = Some c ->
  bsim dev order (mkBst false (fset (bc_buf s) i (with_refcnt v (bc_buf s i))) (bc_disk s) w)
    (set_ca_buf (<[b := mkCbuf (cb_data c) v (cb_owner c)]> (ca_buf t)) t).
Proof using HB Hrefs.
  intros Hh Hv c Hc. destruct (handle_entry i b Hh) as (c' & Hc' & [Hva Hdt Hr Ho] & Hd & Hl & Hrng).
  assert (c' = c) as -> by congruence. pose proof Hh as (Hi & Hb & Hri). cbn in Hva, Hdt, Hr, Ho.
  rewrite (bs_disk _ _ _ _ HB). apply (handle_update i b); cbn; try done.
  unfold payload. cbn. congruence.
Qed.

Lemma bpin_sim i b :
  handle s i b -> sim_res dev (fun s' _ _ => others s i b s') (bpin i s) (BlockCache.bpin b t).
Proof using HB Hrefs.
  intros Hh. destruct (handle_entry i b Hh) as (c & Hc & [_ _ Hr _] & Hd & _ & Hrng). cbn in Hr.
  pose proof Hh as (Hi & Hb & _).
  unfold bpin, BlockCache.bpin, acquire, release, bset, bind, gets, modify. cbn.
  rewrite (bs_lock _ _ _ _ HB), Hc. cbn. split; [|apply others_upd; [done|done|cbn; rewrite Hd; apply HB]]. exists order.
  rewrite u32_small by (unfold is_u32; lia). rewrite <- Hr. apply (ref_sim i b); [done|lia|done].
Qed.

(** The last reference goes. *)
Lemma drop_sim i b l w :
  handle s i b -> cb_ref (mkCbuf (b_data (bc_buf s i)) 1 None) = b_refcnt (bc_buf s i) ->
  b_data (bc_buf s i) = d_block (ca_disk t) b -> sl_locked l = 0 -> sl_lk l = false ->
  bsim dev order
    (mkBst false (fset (bc_buf s) i (with_refcnt 0 (with_lock l (bc_buf s i)))) (bc_disk s) w)
    (set_ca_buf (delete b (ca_buf t)) t).
Proof using HB Hrefs.
  intros Hh Hr Hdt Hun Hl. destruct (handle_entry i b Hh) as (c & Hc & _ & Hd & _).
  pose proof Hh as (Hi & Hb & Hri).
  eapply bsim_replace; [exact HB|done|done| |by rewrite (bs_disk _ _ _ _ HB)].
  unfold set_ca_buf. rewrite <- Hb.
  refine (psim_drop dev _ t (bs_pay _ _ _ _ HB) (bs_dev _ _ _ _ HB) i
            (payload (with_refcnt 0 (with_lock l (bc_buf s i)))) Hi _ _ _ _ _ _ _); cbn; try done.
  by rewrite Hb.
Qed.

Lemma bunpin_sim i b :
  handle s i b ->
  (forall c, ca_buf t !! b = Some c -> cb_ref c = 1 ->
     cb_owner c = None /\ cb_data c = d_block (ca_disk t) b) ->
  sim_res dev (fun s' _ _ => others s i b s') (bunpin i s) (BlockCache.bunpin b t).
Proof using HB Hrefs.
  intros Hh Hclean. destruct (handle_entry i b Hh) as (c & Hc & [_ Hdt Hr Ho] & Hd & Hl & Hrng).
  cbn in Hdt, Hr, Ho. pose proof Hh as (Hi & Hb & _).
  unfold bunpin, BlockCache.bunpin, acquire, release, bset, bind, gets, modify. cbn.
  rewrite (bs_lock _ _ _ _ HB), Hc. cbn. split; [|apply others_upd; [done|done|cbn; rewrite Hd; apply HB]]. exists order.
  rewrite u32_small by (unfold is_u32; lia). unfold unref.
  destruct (Z.eqb_spec (cb_ref c) 1) as [E|E].
  - destruct (Hclean c Hc E) as [Hown Hcl].
    replace (with_refcnt (b_refcnt (bc_buf s i) - 1) (bc_buf s i))
      with (with_refcnt 0 (with_lock (b_lock (bc_buf s i)) (bc_buf s i)))
      by (unfold with_refcnt, with_lock; cbn; f_equal; lia).
    apply drop_sim; cbn; try done; [lia|congruence|].
    unfold sl_owner in Ho. destruct (Z.eqb_spec (sl_locked (b_lock (bc_buf s i))) 0); [done|congruence].
  - rewrite <- Hr in *. apply (ref_sim i b); [done|lia|done].
Qed.

(** The buffer as brelse() leaves it. *)
Definition released (r : buf) : buf :=
  with_refcnt (u32 (b_refcnt r - 1)) (with_lock (set_sl_locked 0 0 (b_lock r)) r).

Lemma brelse_eq i c b :
  handle s i b -> ca_buf t !! b = Some c -> cb_owner c = Some pid ->
  brelse pid i s =
    bind (if b_refcnt (released (bc_buf s i)) =? 0 then to_front i else ret tt)
      (fun _ => release bcache_lock)
      (mkBst true (fset (bc_buf s) i (released (bc_buf s i))) (bc_disk s) (i :: bc_woken s)).
Proof using HB Hrefs.
  intros Hh Hc Ho. unfold brelse. rewrite (bind_ok _ _ _ _ _ (owner_test i b c Hh Hc)).
  rewrite bool_decide_true by done. cbn [negb].
  destruct (handle_entry i b Hh) as (c' & _ & _ & _ & Hl & _).
  rewrite (bind_ok _ _ _ _ _ (releasesleep_eq (buf_lock i) woken i s Hl)).
  unfold acquire, bset, bget_field. unfold bind at 1, gets at 1. cbn [lget bcache_lock].
  destruct s as [lk f d w]. cbn. pose proof (bs_lock _ _ _ _ HB) as Hlk. cbn in Hlk. subst lk.
  unfold bind, gets, modify, upd_buf. cbn. rewrite !fset_eq, !fset_fset. done.
Qed.

Lemma brelse_sim i b :
  handle s i b ->
  (forall c, ca_buf t !! b = Some c -> cb_ref c = 1 -> cb_data c = d_block (ca_disk t) b) ->
  sim_res dev (fun s' _ _ => others s i b s') (brelse pid i s) (BlockCache.brelse pid b t).
Proof using HB Hrefs.
  intros Hh Hclean. destruct (handle_entry i b Hh) as (c & Hc & [Hv Hdt Hr Ho] & Hd & Hl & Hrng).
  cbn in Hv, Hdt, Hr, Ho. pose proof Hh as (Hi & Hb & _).
  unfold BlockCache.brelse. rewrite Hc. case_bool_decide as Hown.
  2:{ unfold brelse. rewrite (bind_ok _ _ _ _ _ (owner_test i b c Hh Hc)).
      by rewrite bool_decide_false. }
  rewrite (brelse_eq i c b Hh Hc Hown). unfold released at 1. cbn [b_refcnt with_refcnt].
  rewrite u32_small by (unfold is_u32; lia). unfold unref. cbn [cb_ref].
  set (s2 := mkBst true _ _ _).
  destruct (Z.eqb_spec (b_refcnt (bc_buf s i) - 1) 0) as [E|E], (Z.eqb_spec (cb_ref c) 1) as [E'|E']; try lia.
  - assert (HB1 : bsim dev order (mkBst false (bc_buf s2) (bc_disk s) (i :: bc_woken s))
                    (set_ca_buf (delete b (ca_buf t)) t)).
    { unfold s2, released. cbn [bc_buf]. rewrite u32_small by (unfold is_u32; lia). rewrite E.
      apply drop_sim; cbn; try done; [lia|]. rewrite Hdt. by apply Hclean. }
    destruct (to_front_spec s2 order i) as (s3 & order' & E3 & (Hp3 & Hl3 & Hd3 & Hw3) & Hc3 & Hpm3);
      [eapply chain_same; [|apply HB1]; done|apply HB|done|].
    rewrite (bind_ok _ _ _ _ _ E3). unfold release, bind, gets, modify. cbn. rewrite Hl3. cbn.
    split; [|split; [|split; [done|]]].
    2:{ intros j Hj. cbn. rewrite Hp3. unfold s2. cbn. by rewrite fset_ne. }
    2:{ cbn. pose proof (Hp3 i) as Hpi. unfold s2 in Hpi. cbn in Hpi. rewrite fset_eq in Hpi.
        injection Hpi as _ -> -> _ _ _. split; [done|]. rewrite Hd. apply HB. }
    exists order'. eapply bsim_links; [exact HB1|done|done|done| |done].
    eapply chain_same; [|exact Hc3]. done.
  - unfold ret, bind, release, gets, modify. cbn. split; [|apply others_upd; [done|done|cbn; rewrite Hd; apply HB]]. exists order.
    unfold released. rewrite u32_small by (unfold is_u32; lia). rewrite (bs_disk _ _ _ _ HB).
    apply (handle_update i b); cbn; try done; [|lia].
    unfold payload. cbn. congruence.
Qed.

(** b->data of a buffer in use. *)
Lemma data_sim i b :
  handle s i b -> BlockCache.get_data b t = Ok (b_data (bc_buf s i)) t.
Proof using HB Hrefs.
  intros Hh. destruct (handle_entry i b Hh) as (c & Hc & [_ Hdt _ _] & _).
  unfold get_data. cbn in Hdt. by rewrite Hc, Hdt.
Qed.

Lemma set_data_sim i b data :
  handle s i b ->
  sim_res dev (fun s' _ _ => others s i b s') (Ok tt (upd_buf i (with_data data) s)) (BlockCache.set_data b data t).
Proof using HB Hrefs.
  intros Hh. destruct (handle_entry i b Hh) as (c & Hc & [Hv Hdt Hr Ho] & Hd & Hl & Hrng).
  cbn in Hv, Hdt, Hr, Ho. pose proof Hh as (Hi & Hb & _).
  unfold set_data. rewrite Hc. split; [|apply others_upd; [done|done|cbn; rewrite Hd; apply HB]]. exists order. unfold upd_buf.
  rewrite (bs_lock _ _ _ _ HB), (bs_disk _ _ _ _ HB). apply (handle_update i b); cbn; try done; [|lia].
  unfold payload. cbn. congruence.
Qed.
End Sim.
