(* ===== verification/BioProps.v ===== *)
(** Properties of the buffer cache: binit() sets up a cache that stands for an
    empty map, and every disciplined sequence of calls gives on bio.c what it
    gives on the map. *)

From S2P Require Import Prelude Riscv Sleeplock BlockCache Bio BioSim.

(** * Initialisation *)

(** A buffer of zeroed memory, its lock and links aside. *)
Definition zero_pay (p : pay) : Prop :=
  p_valid p = 0 /\ p_dev p = 0 /\ p_ref p = 0.

Lemma link_front s i L :
  i ∉ L -> i <> HEAD -> HEAD ∉ L -> NoDup L -> chain s HEAD L HEAD ->
  chain (upd_buf HEAD (with_next i) (upd_buf (hd HEAD L) (with_prev i)
          (upd_buf i (with_prev HEAD) (upd_buf i (with_next (hd HEAD L)) s)))) HEAD (i :: L) HEAD.
Proof.
  intros Hi Hih Hh Hnd Hc. apply (chain_push s); try done.
  - intros y. by rewrite next_next, !next_prev, next_next.
  - intros y. by rewrite prev_next, !prev_prev, prev_next.
Qed.

Lemma zero_upd j f s :
  (forall b, zero_pay (payload b) -> zero_pay (payload (f b))) ->
  (forall i, in_range i -> zero_pay (payload (bc_buf s i))) ->
  forall i, in_range i -> zero_pay (payload (bc_buf (upd_buf j f s) i)).
Proof.
  intros Hf Hz i Hi. cbn. unfold fset. destruct (Z.eqb_spec i j) as [<-|]; [by apply Hf, Hz|by apply Hz].
Qed.

Lemma lock_next j v s i : b_lock (bc_buf (upd_buf j (with_next v) s) i) = b_lock (bc_buf s i).
Proof. cbn. unfold fset. by destruct (Z.eqb_spec i j) as [->|]. Qed.

Lemma lock_prev j v s i : b_lock (bc_buf (upd_buf j (with_prev v) s) i) = b_lock (bc_buf s i).
Proof. cbn. unfold fset. by destruct (Z.eqb_spec i j) as [->|]. Qed.

Lemma binit_spec s :
  (forall i, in_range i -> zero_pay (payload (bc_buf s i))) ->
  wp binit (fun _ s' =>
    bc_lock s' = false /\ chain s' HEAD (reverse (seqZ 0 NBUF)) HEAD /\ bc_disk s' = bc_disk s /\
    (forall i, in_range i -> zero_pay (payload (bc_buf s' i)) /\
       b_lock (bc_buf s' i) = mkSleeplock 0 false "buffer" 0)) s.
Proof.
  intros Hz. unfold binit. wp_steps.
  eapply wp_for_each with (I := fun pre _ s' =>
    bc_lock s' = false /\ chain s' HEAD (reverse pre) HEAD /\ bc_disk s' = bc_disk s /\
    (forall i, in_range i -> zero_pay (payload (bc_buf s' i))) /\
    (forall i, i ∈ pre -> b_lock (bc_buf s' i) = mkSleeplock 0 false "buffer" 0)).
  - split; [done|]. split; [|split; [done|split]].
    + split; cbn; by rewrite !fset_eq.
    + intros i Hi. cbn. rewrite !fset_ne by (unfold in_range, HEAD in *; lia). by apply Hz.
    + intros i Hi. by apply elem_of_nil in Hi.
  - intros pre b suf s1 Hseq (Hl & Hc & Hd & Hzp & Hlk).
    assert (Hb : (b ∉ pre) /\ in_range b /\ NoDup pre /\ HEAD ∉ pre).
    { assert (Hnd : NoDup (pre ++ b :: suf)) by (rewrite <- Hseq; apply NoDup_seqZ).
      assert (Hr : forall x, x ∈ pre ++ b :: suf -> in_range x).
      { intros x. rewrite <- Hseq, elem_of_seqZ. unfold in_range. lia. }
      apply NoDup_app in Hnd as (Hnd & Hdis & _). split; [|split; [|split; [done|]]].
      - intros Hin. apply (Hdis b Hin). by left.
      - apply Hr, elem_of_app. right. by left.
      - intros Hin. assert (Hh : in_range HEAD) by (apply Hr, elem_of_app; by left).
        unfold in_range, HEAD in Hh. lia. }
    destruct Hb as (Hbp & Hbr & Hnd & Hhp).
    assert (Hbh : b <> HEAD) by (unfold in_range, HEAD in *; lia).
    wp_steps. rewrite (chain_next _ _ _ _ Hc). set (h := hd HEAD (reverse pre)).
    set (s2 := upd_buf b (with_prev HEAD) (upd_buf b (with_next h) s1)).
    set (l' := mkSleeplock 0 false "buffer" 0).
    assert (Ei : initsleeplock (buf_lock b) "buffer" s2 = Ok tt (upd_buf b (with_lock l') s2)).
    { unfold initsleeplock, bind, modify. cbn. unfold upd_buf. cbn. rewrite !fset_eq, !fset_fset. done. }
    fold s2. apply wp_ok. exists tt, (upd_buf b (with_lock l') s2). split; [done|]. wp_steps.
    assert (Hn3 : b_next (bc_buf (upd_buf b (with_lock l') s2) HEAD) = h).
    { unfold s2. cbn. rewrite !fset_ne by congruence. by rewrite (chain_next _ _ _ _ Hc). }
    rewrite Hn3. rewrite reverse_snoc.
    split; [done|]. split; [|split; [done|split]].
    + eapply chain_same; [|apply (link_front s1 b (reverse pre))]; fold h.
      * intros y. unfold s2. cbn. unfold fset. repeat zcase; subst; try done.
      * by rewrite elem_of_reverse.
      * done.
      * by rewrite elem_of_reverse.
      * by rewrite reverse_Permutation.
      * done.
    + unfold s2. by repeat (apply zero_upd; [done|]).
    + intros i. rewrite elem_of_app, list_elem_of_singleton. unfold s2.
      rewrite lock_next, lock_prev. cbn. unfold fset. intros Hi.
      destruct (Z.eqb_spec i b) as [->|Hne]; [done|]. destruct Hi as [Hi|Hi]; [by apply Hlk|done].
  - intros s1 (Hl & Hc & Hd & Hzp & Hlk). split; [done|]. split; [done|]. split; [done|].
    intros i Hi. split; [by apply Hzp|]. apply Hlk, elem_of_seqZ. unfold in_range in Hi. lia.
Qed.

Lemma binit_sim s dev :
  dev <> 0 -> (forall i, in_range i -> zero_pay (payload (bc_buf s i))) ->
  wp binit (fun _ s' => bsim dev (reverse (seqZ 0 NBUF)) s' (mkBcache (bc_disk s) ∅)) s.
Proof.
  intros Hdev Hz. eapply wp_mono; [by apply binit_spec|].
  intros _ s' (Hl & Hc & Hd & Hall).
  split; try done; [by rewrite reverse_Permutation|].
  split; cbn.
  - intros i Hi. by destruct (Hall i Hi) as [_ ->].
  - intros i Hi. destruct (Hall i Hi) as [(? & ? & ?) _]. by right.
  - intros i j Hi _ Hdi. destruct (Hall i Hi) as [(_ & E & _) _]. cbn in E. congruence.
  - intros i Hi Hr. by destruct (Hall i Hi) as [(_ & _ & E) _].
  - intros i Hi _. destruct (Hall i Hi) as [(E & _) ->]. split; [done|]. cbn in E. congruence.
  - intros b c Hc'. by rewrite lookup_empty in Hc'.
Qed.

(** * Sequences of calls *)

Inductive bop : Type :=
| BRead (b : Z)
| BSet (b : Z) (data : list Z)
| BWrite (b : Z)
| BRelse (b : Z)
| BPin (b : Z)
| BUnpin (b : Z).

(** The calls on the map; a read returns the data. *)
Definition run_spec (pid : Z) (o : bop) : M bcache (list Z) :=
  match o with
  | BRead b => let! h := BlockCache.bread pid b in get_data h
  | BSet b data => set_data b data ;;; ret []
  | BWrite b => BlockCache.bwrite pid b ;;; ret []
  | BRelse b => BlockCache.brelse pid b ;;; ret []
  | BPin b => BlockCache.bpin b ;;; ret []
  | BUnpin b => BlockCache.bunpin b ;;; ret []
  end.

(** The same calls on bio.c.  The client keeps the buffer bread() returned for
    each block: [H]. *)
Definition run_bio (pid dev : Z) (o : bop) : M (gmap Z Z * bst) (list Z) := fun '(H, s) =>
  let on (b : Z) (m : Z -> M bst unit) : res (gmap Z Z * bst) (list Z) :=
    match H !! b with
    | None => Panic "no buffer"
    | Some i => match m i s with
                | Ok _ s' => Ok [] (H, s')
                | Panic e => Panic e
                | Block c s' => Block c (H, s')
                | NoFuel => NoFuel
                end
    end in
  match o with
  | BRead b => match bread pid dev b s with
               | Ok i s' => Ok (b_data (bc_buf s' i)) (<[b := i]> H, s')
               | Panic e => Panic e
               | Block c s' => Block c (H, s')
               | NoFuel => NoFuel
               end
  | BSet b data => on b (fun i => bset i (with_data data))
  | BWrite b => on b (bwrite pid)
  | BRelse b => on b (brelse pid)
  | BPin b => on b bpin
  | BUnpin b => on b bunpin
  end.

(** What a client must respect: it works on blocks in use, and it gives up the
    last reference to a block only when the disk has its contents. *)
Definition allowed (o : bop) (t : bcache) : bool :=
  match o with
  | BRead b => match ca_buf t !! b with Some c => cb_ref c <? 2 ^ 31 | None => true end
  | BSet b _ | BWrite b => bool_decide (is_Some (ca_buf t !! b))
  | BPin b => match ca_buf t !! b with Some c => cb_ref c <? 2 ^ 31 | None => false end
  | BRelse b => match ca_buf t !! b with
                | Some c => negb (cb_ref c =? 1) || bool_decide (cb_data c = d_block (ca_disk t) b)
                | None => false
                end
  | BUnpin b => match ca_buf t !! b with
                | Some c => negb (cb_ref c =? 1) ||
                    (bool_decide (cb_owner c = None) && bool_decide (cb_data c = d_block (ca_disk t) b))
                | None => false
                end
  end.

Fixpoint run_specs (pid : Z) (os : list bop) (t : bcache) : option (list (list Z) * bcache) :=
  match os with
  | [] => Some ([], t)
  | o :: os' =>
      if allowed o t then
        match run_spec pid o t with
        | Ok r t' => match run_specs pid os' t' with
                     | Some (rs, t'') => Some (r :: rs, t'')
                     | None => None
                     end
        | _ => None
        end
      else None
  end.

Fixpoint run_bios (pid dev : Z) (os : list bop) : M (gmap Z Z * bst) (list (list Z)) :=
  match os with
  | [] => ret []
  | o :: os' => let! r := run_bio pid dev o in let! rs := run_bios pid dev os' in ret (r :: rs)
  end.

(** The client's table and the reference counts. *)
Record client (H : gmap Z Z) (s : bst) (t : bcache) : Prop := {
  cl_tab : forall b, is_Some (ca_buf t !! b) -> exists i, H !! b = Some i /\ handle s i b;
  cl_ref : forall b c, ca_buf t !! b = Some c -> 1 <= cb_ref c <= 2 ^ 31;
}.

(** Entries other than the one of block [b] are untouched, and the entry of
    [b] is not created. *)
Definition only (b : Z) (t t' : bcache) : Prop :=
  (forall b', b' <> b -> ca_buf t' !! b' = ca_buf t !! b') /\
  (forall c, ca_buf t' !! b = Some c -> 1 <= cb_ref c <= 2 ^ 31).

Lemma client_step dev order order' H H' s t s' t' i b :
  client H s t -> bsim dev order s t -> bsim dev order' s' t' ->
  others s i b s' -> only b t t' -> in_range i ->
  H' !! b = Some i -> (forall b', b' <> b -> H' !! b' = H !! b') ->
  client H' s' t'.
Proof.
  intros [Htab Href] HB HS' (Hoth & Hwas & Hno & Hdv) [Honly Hrb] Hi Hb Hne.
  split.
  - intros b' Hb'. destruct (decide (b' = b)) as [->|Hbb].
    + exists i. split; [done|]. split; [done|]. split; [done|]. intros Hr.
      destruct Hb' as [c Hc]. pose proof (bs_pay _ _ _ _ HS') as HP'.
      destruct (ps_map _ _ _ HP' b c Hc) as (j & Hj & Hrj & Hnj).
      cbn in Hrj, Hnj. assert (j = i) as ->; [|done].
      destruct (decide (j = i)) as [->|Hji]; [done|].
      assert (Hd' : b_dev (bc_buf s' j) = dev) by (by apply (used_dev _ _ _ HP' j)).
      destruct (ps_dev _ _ _ HP' i Hi) as [Hdi|(Hv & _ & Hdi)]; cbn in Hdi; [|done].
      apply (ps_uniq _ _ _ HP'); cbn; congruence.
    + rewrite Honly in Hb' by done. destruct (Htab b' Hb') as (j & Hj & Hr & Hnj & Hrj).
      exists j. rewrite Hne by done. split; [done|].
      assert (Hji : j <> i) by (intros ->; apply Hbb; rewrite <- Hnj; by apply Hwas).
      pose proof (Hoth j Hji) as E. injection E as _ _ En _ Er _.
      split; [done|]. rewrite En, Er. done.
  - intros b' c Hc. destruct (decide (b' = b)) as [->|Hbb]; [by apply Hrb|].
    rewrite Honly in Hc by done. by eapply Href.
Qed.

Section Step.
Context (pid dev : Z) (order : list Z) (H : gmap Z Z) (s : bst) (t : bcache).
Context (HB : bsim dev order s t) (HC : client H s t).

Lemma client_refs : refs_ok t.
Proof using HC. intros b c Hc. pose proof (cl_ref _ _ _ HC b c Hc). lia. Qed.

Lemma only_upd b c' : 1 <= cb_ref c' <= 2 ^ 31 -> only b t (set_ca_buf (<[b := c']> (ca_buf t)) t).
Proof.
  intros Hr. split; cbn; [intros b' Hb'; by rewrite lookup_insert_ne|].
  intros c. rewrite lookup_insert_eq. by intros [= <-].
Qed.

Lemma only_unref b c :
  1 <= cb_ref c <= 2 ^ 31 -> only b t (set_ca_buf (unref b c (ca_buf t)) t).
Proof.
  intros Hr. unfold unref. destruct (Z.eqb_spec (cb_ref c) 1).
  - split; cbn; [intros b' Hb'; by rewrite lookup_delete_ne|].
    intros c'. by rewrite lookup_delete_eq.
  - apply only_upd. cbn. lia.
Qed.

(** A call on a buffer in use. *)
Lemma call_step (m : Z -> M bst unit) (m' : M bcache unit) b (r : list Z) t' :
  is_Some (ca_buf t !! b) ->
  (forall i, handle s i b -> sim_res dev (fun s' _ _ => others s i b s') (m i s) (m' t)) ->
  (forall t', m' t = Ok tt t' -> only b t t') ->
  bind m' (fun _ => ret []) t = Ok r t' ->
  exists H' s' order',
    match H !! b with
    | None => Panic "no buffer"
    | Some i => match m i s with
                | Ok _ s' => Ok [] (H, s')
                | Panic e => Panic e
                | Block c s' => Block c (H, s')
                | NoFuel => NoFuel
                end
    end = Ok (S := gmap Z Z * bst) r (H', s') /\ bsim dev order' s' t' /\ client H' s' t'.
Proof using HB HC.
  intros Hb Hsim Hon E. destruct (cl_tab _ _ _ HC b Hb) as (i & Hi & Hh). rewrite Hi.
  specialize (Hsim i Hh). unfold bind in E. destruct (m' t) as [[] t1| | |] eqn:E1; try done.
  injection E as <- <-. unfold sim_res in Hsim.
  destruct (m i s) as [[] s'| | |]; try done. destruct Hsim as [[order' HB'] Ho].
  exists H, s', order'. split; [done|]. split; [done|].
  eapply (client_step dev order order' H H s t s' t1 i b); try done; [by apply Hon|by destruct Hh].
Qed.

Lemma run_bio_step o r t' :
  allowed o t = true -> run_spec pid o t = Ok r t' ->
  exists H' s' order', run_bio pid dev o (H, s) = Ok r (H', s') /\
    bsim dev order' s' t' /\ client H' s' t'.
Proof using HB HC.
  pose proof client_refs as HR. intros Ha E.
  destruct o as [b|b data|b|b|b|b]; cbn [run_spec run_bio allowed] in *.
  - pose proof (bread_sim pid dev order s t HB HR b) as Hsim. unfold bind in E.
    destruct (BlockCache.bread pid b t) as [h t1| | |] eqn:Er; try done.
    unfold sim_res in Hsim. destruct (bread pid dev b s) as [i s1| | |]; try done.
    destruct Hsim as ([order' HB'] & Hh & Ho).
    assert (h = b) as ->.
    { clear Ha. unfold BlockCache.bread in Er.
      destruct (ca_buf t !! b) as [c|]; [destruct (cb_owner c)|destruct (_ <? _)]; by inversion Er. }
    assert (Hon : only b t t1).
    { unfold BlockCache.bread in Er. destruct (ca_buf t !! b) as [c|] eqn:Ec.
      - pose proof (cl_ref _ _ _ HC b c Ec). apply Z.ltb_lt in Ha.
        destruct (cb_owner c); [done|]. injection Er as <-. apply only_upd. cbn. lia.
      - destruct (_ <? _); [|done]. injection Er as <-. apply only_upd. cbn. lia. }
    assert (HC' : client (<[b := i]> H) s1 t1).
    { eapply (client_step dev order order' H _ s t s1 t1 i b); try done.
      - by destruct Hh.
      - apply lookup_insert_eq.
      - intros b' Hb'. by rewrite lookup_insert_ne. }
    assert (HR1 : refs_ok t1) by (intros b' c Hc; pose proof (cl_ref _ _ _ HC' b' c Hc); lia).
    rewrite (data_sim dev order' s1 t1 HB' HR1 i b Hh) in E. injection E as <- <-.
    by exists (<[b := i]> H), s1, order'.
  - apply bool_decide_eq_true in Ha. pose proof Ha as [c Hc].
    eapply (call_step (fun i => bset i (with_data data)) (set_data b data)); [done| | |exact E].
    + intros i Hh. by apply (set_data_sim dev order s t HB HR i b data).
    + intros t1. unfold set_data. rewrite Hc. intros [= <-]. apply only_upd.
      exact (cl_ref _ _ _ HC b c Hc).
  - apply bool_decide_eq_true in Ha. pose proof Ha as [c Hc].
    eapply (call_step (bwrite pid) (BlockCache.bwrite pid b)); [done| | |exact E].
    + intros i Hh. by apply (bwrite_sim pid dev order s t HB HR i b).
    + intros t1. unfold BlockCache.bwrite. rewrite Hc. destruct (bool_decide _); [|done].
      intros [= <-]. split; cbn; [done|]. intros c'. apply (cl_ref _ _ _ HC).
  - destruct (ca_buf t !! b) as [c|] eqn:Hc; [|done].
    eapply (call_step (brelse pid) (BlockCache.brelse pid b)); [by rewrite Hc| | |exact E].
    + intros i Hh. apply (brelse_sim pid dev order s t HB HR i b Hh).
      intros c' Hc' Hr. assert (c' = c) as -> by congruence. rewrite Hr in Ha.
      by apply bool_decide_eq_true in Ha.
    + intros t1. unfold BlockCache.brelse. rewrite Hc.
      destruct (bool_decide (cb_owner c = Some pid)); [|done].
      intros [= <-]. apply only_unref.
      exact (cl_ref _ _ _ HC b c Hc).
  - destruct (ca_buf t !! b) as [c|] eqn:Hc; [|done]. apply Z.ltb_lt in Ha.
    eapply (call_step bpin (BlockCache.bpin b)); [by rewrite Hc| | |exact E].
    + intros i Hh. by apply (bpin_sim dev order s t HB HR i b).
    + intros t1. unfold BlockCache.bpin. rewrite Hc. intros [= <-]. apply only_upd. cbn.
      pose proof (cl_ref _ _ _ HC b c Hc). lia.
  - destruct (ca_buf t !! b) as [c|] eqn:Hc; [|done].
    eapply (call_step bunpin (BlockCache.bunpin b)); [by rewrite Hc| | |exact E].
    + intros i Hh. apply (bunpin_sim dev order s t HB HR i b Hh).
      intros c' Hc' Hr. assert (c' = c) as -> by congruence. rewrite Hr in Ha.
      apply andb_true_iff in Ha as [H1 H2]. by apply bool_decide_eq_true in H1, H2.
    + intros t1. unfold BlockCache.bunpin. rewrite Hc. intros [= <-]. apply only_unref.
      exact (cl_ref _ _ _ HC b c Hc).
Qed.
End Step.

Lemma run_bios_sim pid dev os : forall order H s t rs t',
  bsim dev order s t -> client H s t -> run_specs pid os t = Some (rs, t') ->
  exists H' s' order', run_bios pid dev os (H, s) = Ok rs (H', s') /\
    bsim dev order' s' t' /\ client H' s' t'.
Proof.
  induction os as [|o os IH]; intros order H s t rs t' HB HC E; cbn [run_specs run_bios] in *.
  - injection E as <- <-. by exists H, s, order.
  - destruct (allowed o t) eqn:Ha; [|done].
    destruct (run_spec pid o t) as [r t1| | |] eqn:Er; try done.
    destruct (run_specs pid os t1) as [[rs1 t2]|] eqn:Es; [|done]. injection E as <- <-.
    destruct (run_bio_step pid dev order H s t HB HC o r t1 Ha Er) as (H1 & s1 & o1 & E1 & HB1 & HC1).
    destruct (IH o1 H1 s1 t1 rs1 t2 HB1 HC1 Es) as (H2 & s2 & o2 & E2 & HB2 & HC2).
    exists H2, s2, o2. split; [|done]. by rewrite (bind_ok _ _ _ _ _ E1), (bind_ok _ _ _ _ _ E2).
Qed.


Definition demo_bst : bst :=
  mkBst false (fun _ => mkBuf 0 0 0 0 no_sleeplock 0 0 0 []) (mkDisk (fun b => [b]) []) [].

