(* ===== verification/Fields.v ===== *)
(** Fields of structures stored in a block or a file: little-endian integers
    and runs of bytes at an offset of a list of bytes. *)

From S2P Require Import Prelude.

Fixpoint get_le (w : nat) (l : list Z) (off : Z) : Z :=
  match w with
  | O => 0
  | S w' => zget l off + 256 * get_le w' l (off + 1)
  end.

Fixpoint put_le (w : nat) (off v : Z) (l : list Z) : list Z :=
  match w with
  | O => l
  | S w' => put_le w' (off + 1) (v / 256) (zset off (v mod 256) l)
  end.

Definition get16 (l : list Z) (off : Z) : Z := get_le 2 l off.
Definition get32 (l : list Z) (off : Z) : Z := get_le 4 l off.
Definition put16 (off v : Z) (l : list Z) : list Z := put_le 2 off v l.
Definition put32 (off v : Z) (l : list Z) : list Z := put_le 4 off v l.

(** [n] bytes from [off]; overwriting the bytes from [off] with [bs]. *)
Definition slice (off n : Z) (l : list Z) : list Z := take (Z.to_nat n) (drop (Z.to_nat off) l).
Fixpoint splice (off : Z) (bs l : list Z) : list Z :=
  match bs with
  | [] => l
  | b :: bs' => splice (off + 1) bs' (zset off b l)
  end.

Lemma length_put_le w off v l : length (put_le w off v l) = length l.
Proof.
  revert off v l. induction w as [|w IH]; intros off v l; simpl; [done|].
  by rewrite IH, length_zset.
Qed.

Lemma put_le_other w off v l i :
  0 <= off -> off + Z.of_nat w <= Z.of_nat (length l) -> 0 <= i ->
  ~ (off <= i < off + Z.of_nat w) -> zget (put_le w off v l) i = zget l i.
Proof.
  revert off v l. induction w as [|w IH]; intros off v l Ho Hl Hi Hn; simpl; [done|].
  rewrite IH by (rewrite ?length_zset; lia). apply zget_zset_ne; lia.
Qed.

Lemma get_le_ext w l l' off :
  (forall i, off <= i < off + Z.of_nat w -> zget l i = zget l' i) -> get_le w l off = get_le w l' off.
Proof.
  revert off. induction w as [|w IH]; intros off He; simpl; [done|].
  rewrite (He off) by lia. rewrite (IH (off + 1)); [done|]. intros. apply He. lia.
Qed.

Lemma get_put_le w off v l :
  0 <= off -> off + Z.of_nat w <= Z.of_nat (length l) -> 0 <= v < 256 ^ Z.of_nat w ->
  get_le w (put_le w off v l) off = v.
Proof.
  revert off v l. induction w as [|w IH]; intros off v l Ho Hl Hv; [simpl in *; lia|].
  simpl get_le. simpl put_le.
  rewrite put_le_other by (rewrite ?length_zset; lia). rewrite zget_zset_eq by lia.
  rewrite IH.
  - pose proof (Z_div_mod_decomp v 256). lia.
  - lia.
  - rewrite length_zset. lia.
  - rewrite Nat2Z.inj_succ, Z.pow_succ_r in Hv by lia.
    split; [apply Z.div_pos; lia|apply Z.div_lt_upper_bound; lia].
Qed.

Lemma get_put_le_other w w' off off' v l :
  0 <= off -> off + Z.of_nat w <= Z.of_nat (length l) -> 0 <= off' ->
  off' + Z.of_nat w' <= off \/ off + Z.of_nat w <= off' ->
  get_le w' (put_le w off v l) off' = get_le w' l off'.
Proof. intros. apply get_le_ext. intros i Hi. apply put_le_other; lia. Qed.

Lemma get_le_range w l off :
  Forall is_u8 l -> 0 <= off -> off + Z.of_nat w <= Z.of_nat (length l) ->
  0 <= get_le w l off < 256 ^ Z.of_nat w.
Proof.
  intros Hf. revert off. induction w as [|w IH]; intros off Ho Hl; [simpl; lia|].
  simpl get_le. rewrite Nat2Z.inj_succ, Z.pow_succ_r by lia. specialize (IH (off + 1) ltac:(lia) ltac:(lia)).
  rewrite Forall_lookup in Hf. pose proof (Hf _ _ (zget_lookup l off ltac:(lia))) as Hb.
  unfold is_u8 in Hb. lia.
Qed.

Lemma length_splice off bs l : length (splice off bs l) = length l.
Proof.
  revert off l. induction bs as [|b bs IH]; intros off l; simpl; [done|]. by rewrite IH, length_zset.
Qed.

Lemma zget_splice off bs l i :
  0 <= off -> off + Z.of_nat (length bs) <= Z.of_nat (length l) -> 0 <= i ->
  zget (splice off bs l) i =
    if (off <=? i) && (i <? off + Z.of_nat (length bs)) then zget bs (i - off) else zget l i.
Proof.
  revert off l. induction bs as [|b bs IH]; intros off l Ho Hl Hi; simpl.
  - zcase; lia || done.
  - simpl in Hl. rewrite IH by (rewrite ?length_zset; lia). rewrite zget_zset by lia.
    repeat zcase; try lia; try done.
    + unfold zget. replace (Z.to_nat (i - off)) with (S (Z.to_nat (i - (off + 1)))) by lia. done.
    + subst i. rewrite Z.sub_diag. done.
Qed.

Lemma length_slice off n l :
  0 <= off -> 0 <= n -> off + n <= Z.of_nat (length l) -> length (slice off n l) = Z.to_nat n.
Proof. intros. unfold slice. rewrite length_take, length_drop. lia. Qed.

Lemma zget_slice off n l i :
  0 <= off -> 0 <= i < n -> off + n <= Z.of_nat (length l) -> zget (slice off n l) i = zget l (off + i).
Proof.
  intros Ho Hi Hl. unfold zget, slice. rewrite !list_lookup_total_alt.
  rewrite lookup_take_lt, lookup_drop by lia. do 2 f_equal. lia.
Qed.
