(* ===== verification/Log.v ===== *)
(** Write-ahead log: kernel/log.c.

    The log works on the block cache of [BlockCache]; log.dev is the device of
    that cache.  [struct logheader] is the integer n and the array block[] of
    LOGSIZE integers, both in memory and at the start of the header block. *)

From S2P Require Import Prelude Riscv Fields BlockCache.

Record lg : Type := mkLg {
  l_lock : bool;
  l_start : Z;
  l_size : Z;
  l_outstanding : Z;      (** how many FS sys calls are executing. *)
  l_committing : Z;       (** in commit(), please wait. *)
  l_n : Z;                (** lh.n *)
  l_block : list Z;       (** lh.block *)
  l_bc : bcache;
  l_woken : list Z;
}.

Definition log_lock : lens lg bool :=
  mkLens l_lock (fun b s => mkLg b (l_start s) (l_size s) (l_outstanding s) (l_committing s)
                                 (l_n s) (l_block s) (l_bc s) (l_woken s)).
Definition log_bc : lens lg bcache :=
  mkLens l_bc (fun b s => mkLg (l_lock s) (l_start s) (l_size s) (l_outstanding s) (l_committing s)
                               (l_n s) (l_block s) b (l_woken s)).
Definition set_l_region (start size : Z) (s : lg) : lg :=
  mkLg (l_lock s) start size (l_outstanding s) (l_committing s) (l_n s) (l_block s) (l_bc s) (l_woken s).
Definition set_l_outstanding (v : Z) (s : lg) : lg :=
  mkLg (l_lock s) (l_start s) (l_size s) v (l_committing s) (l_n s) (l_block s) (l_bc s) (l_woken s).
Definition set_l_committing (v : Z) (s : lg) : lg :=
  mkLg (l_lock s) (l_start s) (l_size s) (l_outstanding s) v (l_n s) (l_block s) (l_bc s) (l_woken s).
Definition set_l_n (v : Z) (s : lg) : lg :=
  mkLg (l_lock s) (l_start s) (l_size s) (l_outstanding s) (l_committing s) v (l_block s) (l_bc s) (l_woken s).
Definition set_l_block (v : list Z) (s : lg) : lg :=
  mkLg (l_lock s) (l_start s) (l_size s) (l_outstanding s) (l_committing s) (l_n s) v (l_bc s) (l_woken s).
Definition log_wakeup : M lg unit :=
  modify (fun s => mkLg (l_lock s) (l_start s) (l_size s) (l_outstanding s) (l_committing s)
                        (l_n s) (l_block s) (l_bc s) (0 :: l_woken s)).

(** sleep(&log, &log.lock): gives up the lock and blocks. *)
Definition log_sleep : M lg unit := release log_lock ;;; (fun s => Block 0 s).

(** Offsets in [struct logheader]. *)
Definition lh_n : Z := 0.
Definition lh_block (i : Z) : Z := 4 + 4 * i.
Definition sizeof_logheader : Z := 4 + 4 * LOGSIZE.

Section Log.
Context (pid : Z).

Definition blk {A} (m : M bcache A) : M lg A := zoom log_bc m.

(** Copy committed blocks from log to their home location *)
Definition install_trans (recovering : Z) : M lg unit :=
  let! n := gets l_n in
  for_each (seqZ 0 n) (fun tail =>
    let! start := gets l_start in
    let! lbuf := blk (bread pid (start + tail + 1)) in
    let! home := gets (fun s => zget (l_block s) tail) in
    let! dbuf := blk (bread pid home) in
    let! data := blk (get_data lbuf) in
    blk (set_data dbuf data) ;;;
    blk (bwrite pid dbuf) ;;;
    (if recovering =? 0 then blk (bunpin dbuf) else ret tt) ;;;
    blk (brelse pid lbuf) ;;;
    blk (brelse pid dbuf)).

(** Read the log header from disk into the in-memory log header *)
Definition read_head : M lg unit :=
  let! start := gets l_start in
  let! buf := blk (bread pid start) in
  let! lh := blk (get_data buf) in
  modify (set_l_n (i32 (get32 lh lh_n))) ;;;
  let! n := gets l_n in
  for_each (seqZ 0 n) (fun i =>
    modify (fun s => set_l_block (zset i (i32 (get32 lh (lh_block i))) (l_block s)) s)) ;;;
  blk (brelse pid buf).

(** The header block with the in-memory log header stored in it. *)
Definition fill_head (n : Z) (block : list Z) (hb : list Z) : list Z :=
  fold_left (fun hb i => put32 (lh_block i) (u32 (zget block i)) hb) (seqZ 0 n) (put32 lh_n (u32 n) hb).

(** Write in-memory log header to disk. *)
Definition write_head : M lg unit :=
  let! start := gets l_start in
  let! buf := blk (bread pid start) in
  let! hb := blk (get_data buf) in
  let! n := gets l_n in
  let! block := gets l_block in
  blk (set_data buf (fill_head n block hb)) ;;;
  blk (bwrite pid buf) ;;;
  blk (brelse pid buf).

Definition recover_from_log : M lg unit :=
  read_head ;;;
  install_trans 1 ;;;
  modify (set_l_n 0) ;;;
  write_head.

Definition initlog (logstart nlog : Z) : M lg unit :=
  if sizeof_logheader >=? BSIZE then panic "initlog: too big logheader"
  else
    modify (lset log_lock false) ;;;
    modify (set_l_region logstart nlog) ;;;
    recover_from_log.

(** A process that has to wait gives up log.lock; when it is woken the loop
    starts again with the lock held. *)
Definition begin_op : M lg unit :=
  acquire log_lock ;;;
  let! s := gets id in
  if negb (l_committing s =? 0) then log_sleep
  else if l_n s + (l_outstanding s + 1) * MAXOPBLOCKS >? LOGSIZE then
    (* this op might exhaust log space; wait for commit. *)
    log_sleep
  else
    modify (set_l_outstanding (l_outstanding s + 1)) ;;;
    release log_lock.

(** Copy modified blocks from cache to log. *)
Definition write_log : M lg unit :=
  let! n := gets l_n in
  for_each (seqZ 0 n) (fun tail =>
    let! start := gets l_start in
    let! to := blk (bread pid (start + tail + 1)) in
    let! b := gets (fun s => zget (l_block s) tail) in
    let! from := blk (bread pid b) in
    let! data := blk (get_data from) in
    blk (set_data to data) ;;;
    blk (bwrite pid to) ;;;
    blk (brelse pid from) ;;;
    blk (brelse pid to)).

Definition commit : M lg unit :=
  let! n := gets l_n in
  if n >? 0 then
    write_log ;;;
    write_head ;;;
    install_trans 0 ;;;
    modify (set_l_n 0) ;;;
    write_head
  else ret tt.

Definition end_op : M lg unit :=
  acquire log_lock ;;;
  modify (fun s => set_l_outstanding (l_outstanding s - 1) s) ;;;
  let! s := gets id in
  if negb (l_committing s =? 0) then panic "log.committing"
  else
    let! do_commit :=
      (if l_outstanding s =? 0 then
         modify (set_l_committing 1) ;;; ret true
       else
         (* begin_op() may be waiting for log space *)
         log_wakeup ;;; ret false) in
    release log_lock ;;;
    if do_commit : bool then
      commit ;;;
      acquire log_lock ;;;
      modify (set_l_committing 0) ;;;
      log_wakeup ;;;
      release log_lock
    else ret tt.

(** The first index of [b] among the first [n] logged blocks, or [n]. *)
Fixpoint absorb (fuel : nat) (i n b : Z) (block : list Z) : Z :=
  match fuel with
  | O => i
  | S f => if i <? n then if zget block i =? b then i else absorb f (i + 1) n b block else i
  end.

Definition log_write (b : Z) : M lg unit :=
  acquire log_lock ;;;
  let! s := gets id in
  if (l_n s >=? LOGSIZE) || (l_n s >=? l_size s - 1) then panic "too big a transaction"
  else if l_outstanding s <? 1 then panic "log_write outside of trans"
  else
    let i := absorb (Z.to_nat (l_n s)) 0 (l_n s) b (l_block s) in
    modify (set_l_block (zset i b (l_block s))) ;;;
    (if i =? l_n s then
       (* Add new block to log? *)
       blk (bpin b) ;;;
       modify (set_l_n (l_n s + 1))
     else ret tt) ;;;
    release log_lock.
End Log.
