(* ===== verification/LogProps.v ===== *)
(** Crash safety of the log, and the reservation of log space. *)

From S2P Require Import Prelude Riscv Fields BlockCache Log.

#[local] Hint Unfold blk : kwp.

(** The log state with the disk replaced, the cache replaced. *)
Definition put_bc (t : bcache) (s : lg) : lg := lset log_bc t s.

Ltac blk_get := cbn; first [done | apply lookup_insert_eq
  | (rewrite lookup_insert_ne by done; first [done | apply lookup_insert_eq])].

Section Rounds.
Context (pid : Z).

(** One round of write_log(): a cached block is copied to a log block. *)
Lemma write_log_round s tail c :
  let t := l_bc s in
  let to := l_start s + tail + 1 in
  let b := zget (l_block s) tail in
  ca_buf t !! to = None -> Z.of_nat (size (ca_buf t)) < NBUF ->
  ca_buf t !! b = Some c -> cb_owner c = None -> 0 < cb_ref c ->
  wp (let! start := gets l_start in
      let! to := blk (bread pid (start + tail + 1)) in
      let! b := gets (fun s => zget (l_block s) tail) in
      let! from := blk (bread pid b) in
      let! data := blk (get_data from) in
      blk (set_data to data) ;;;
      blk (bwrite pid to) ;;;
      blk (brelse pid from) ;;;
      blk (brelse pid to))
    (fun _ s' => s' = put_bc (set_ca_disk (disk_write to (cb_data c) (ca_disk t)) t) s) s.
Proof.
  intros t to b Ht Hs Hb Ho Hr. assert (Hne : to <> b) by congruence.
  subst t. destruct s as [lk st sz out com n blocks [d m] wk]. cbn in *. subst to.
  wp_steps. apply wp_bread_miss; [done|done|]. cbn.
  wp_steps. cbn. fold b. eapply wp_bread_hit; [blk_get|done|].
  wp_steps. eapply wp_get_data; [blk_get|].
  wp_steps. eapply wp_set_data; [blk_get|].
  wp_steps. eapply wp_bwrite; [blk_get|done|].
  wp_steps. eapply wp_brelse; [blk_get|done|]. cbn.
  unfold unref. cbn. destruct (Z.eqb_spec (cb_ref c + 1) 1); [lia|].
  wp_steps. eapply wp_brelse; [blk_get|done|]. cbn.
  unfold unref, set_ca_buf, set_ca_disk, put_bc. cbn. do 2 f_equal.
  apply map_eq. intros k. destruct (decide (k = st + tail + 1)) as [->|Hk].
  - by rewrite lookup_delete_eq.
  - rewrite lookup_delete_ne by done. destruct (decide (k = b)) as [->|Hk'].
    + rewrite lookup_insert_eq, Hb. destruct c; cbn in *. f_equal. f_equal; [lia|done].
    + by repeat rewrite lookup_insert_ne by done.
Qed.

(** One round of install_trans(): at commit the home block is pinned in the
    cache and loses its pin; at recovery the cache is as it was. *)
Definition install_round (recovering tail : Z) : M lg unit :=
  let! start := gets l_start in
  let! lbuf := blk (bread pid (start + tail + 1)) in
  let! home := gets (fun s => zget (l_block s) tail) in
  let! dbuf := blk (bread pid home) in
  let! data := blk (get_data lbuf) in
  blk (set_data dbuf data) ;;;
  blk (bwrite pid dbuf) ;;;
  (if recovering =? 0 then blk (bunpin dbuf) else ret tt) ;;;
  blk (brelse pid lbuf) ;;;
  blk (brelse pid dbuf).

Lemma install_commit_round s tail c :
  let t := l_bc s in
  let L := l_start s + tail + 1 in
  let b := zget (l_block s) tail in
  let data := d_block (ca_disk t) L in
  ca_buf t !! L = None -> Z.of_nat (size (ca_buf t)) < NBUF ->
  ca_buf t !! b = Some c -> cb_owner c = None -> 0 < cb_ref c ->
  wp (install_round 0 tail)
    (fun _ s' => s' = put_bc (mkBcache (disk_write b data (ca_disk t))
                                (unref b (mkCbuf data (cb_ref c) None) (ca_buf t))) s) s.
Proof.
  intros t L b data Ht Hs Hb Ho Hr. assert (Hne : L <> b) by congruence.
  assert (Hne' : b <> L) by congruence. subst data t.
  destruct s as [lk st sz out com n blocks [d m] wk]. cbn in *. subst L. unfold install_round.
  wp_steps. apply wp_bread_miss; [done|done|]. cbn.
  wp_steps. cbn. fold b. eapply wp_bread_hit; [blk_get|done|].
  wp_steps. eapply wp_get_data; [blk_get|].
  wp_steps. eapply wp_set_data; [blk_get|].
  wp_steps. eapply wp_bwrite; [blk_get|done|].
  wp_steps. eapply wp_bunpin; [blk_get|]. unfold unref. cbn.
  destruct (Z.eqb_spec (cb_ref c + 1) 1); [lia|].
  wp_steps. eapply wp_brelse; [cbn; rewrite !(lookup_insert_ne _ b) by done; apply lookup_insert_eq|done|].
  unfold unref. cbn.
  wp_steps. eapply wp_brelse; [cbn; rewrite lookup_delete_ne by done; apply lookup_insert_eq|done|].
  unfold unref, set_ca_buf, set_ca_disk, put_bc. cbn. do 2 f_equal.
  replace (cb_ref c + 1 - 1) with (cb_ref c) by lia.
  destruct (cb_ref c =? 1); apply map_eq; intros k;
    (destruct (decide (k = b)) as [->|Hk];
     [rewrite ?lookup_delete_eq, ?lookup_insert_eq; done|]);
    rewrite ?(lookup_delete_ne _ b), ?(lookup_insert_ne _ b) by done;
    (destruct (decide (k = st + tail + 1)) as [->|Hk'];
     [by rewrite lookup_delete_eq|by rewrite lookup_delete_ne, !lookup_insert_ne by done]).
Qed.

Lemma install_recover_round s tail :
  let t := l_bc s in
  let L := l_start s + tail + 1 in
  let b := zget (l_block s) tail in
  ca_buf t = ∅ -> L <> b ->
  wp (install_round 1 tail)
    (fun _ s' => s' = put_bc (set_ca_disk (disk_write b (d_block (ca_disk t) L) (ca_disk t)) t) s) s.
Proof.
  intros t L b Ht Hne. subst t.
  destruct s as [lk st sz out com n blocks [d m] wk]. cbn in *. subst m L. unfold install_round.
  wp_steps. apply wp_bread_miss; [done|done|]. cbn.
  wp_steps. cbn. fold b. apply wp_bread_miss; [cbn; by rewrite lookup_insert_ne| |].
  { cbn. rewrite map_size_insert_None by done. rewrite map_size_empty. vm_compute. done. }
  wp_steps. eapply wp_get_data; [blk_get|].
  wp_steps. eapply wp_set_data; [blk_get|].
  wp_steps. eapply wp_bwrite; [blk_get|done|].
  wp_steps. eapply wp_brelse; [cbn; rewrite !(lookup_insert_ne _ b) by done; apply lookup_insert_eq|done|].
  unfold unref. cbn.
  wp_steps. eapply wp_brelse; [cbn; rewrite lookup_delete_ne by done; apply lookup_insert_eq|done|].
  unfold unref, set_ca_buf, set_ca_disk, put_bc. cbn. do 2 f_equal.
  apply map_eq; intros k. rewrite lookup_empty.
  destruct (decide (k = b)) as [->|Hk]; [by rewrite lookup_delete_eq|].
  rewrite lookup_delete_ne by done.
  destruct (decide (k = st + tail + 1)) as [->|Hk']; [by rewrite lookup_delete_eq|].
  by rewrite lookup_delete_ne, !lookup_insert_ne by done.
Qed.

(** write_head(): one write of the header block, the cache as it was. *)
Lemma write_head_spec s :
  let t := l_bc s in
  ca_buf t !! l_start s = None -> Z.of_nat (size (ca_buf t)) < NBUF ->
  wp (write_head pid)
    (fun _ s' => s' = put_bc (set_ca_disk (disk_write (l_start s)
        (fill_head (l_n s) (l_block s) (d_block (ca_disk t) (l_start s))) (ca_disk t)) t) s) s.
Proof.
  intros t Ht Hs. subst t. destruct s as [lk st sz out com n blocks [d m] wk]. cbn in *.
  unfold write_head. wp_steps. apply wp_bread_miss; [done|done|]. cbn.
  wp_steps. eapply wp_get_data; [blk_get|].
  wp_steps. eapply wp_set_data; [blk_get|].
  wp_steps. eapply wp_bwrite; [blk_get|done|].
  wp_steps. eapply wp_brelse; [blk_get|done|].
  unfold unref, set_ca_buf, set_ca_disk, put_bc. cbn. do 2 f_equal.
  by rewrite !delete_insert_eq, delete_id.
Qed.
End Rounds.

(** * What a commit writes *)

(** The blocks of the transaction with the contents the cache has for them,
    the copies written to the log, and the whole sequence of disk writes. *)
Definition logged (s : lg) : list (Z * list Z) :=
  map (fun b => (b, bview (l_bc s) b)) (take (Z.to_nat (l_n s)) (l_block s)).

Fixpoint log_writes (pos : Z) (ws : list (Z * list Z)) : list (Z * list Z) :=
  match ws with
  | [] => []
  | w :: ws' => (pos, w.2) :: log_writes (pos + 1) ws'
  end.

Definition head1 (s : lg) : list Z :=
  fill_head (l_n s) (l_block s) (d_block (ca_disk (l_bc s)) (l_start s)).
Definition head0 (s : lg) : list Z := fill_head 0 (l_block s) (head1 s).

Definition commit_writes (s : lg) : list (Z * list Z) :=
  log_writes (l_start s + 1) (logged s) ++ [(l_start s, head1 s)] ++
  logged s ++ [(l_start s, head0 s)].

(** The cache after the pins of [bs] are dropped. *)
Definition unpin (bs : list Z) (m : gmap Z cbuf) : gmap Z cbuf :=
  fold_left (fun m b => match m !! b with Some c => unref b c m | None => m end) bs m.

(** When the log may commit: no operation is under way, so no buffer is
    locked; the blocks of the transaction are distinct, outside the log's
    region, and pinned; the cache holds no block of the log's region and has
    room for one more. *)
Definition in_region (s : lg) (b : Z) : Prop := l_start s <= b < l_start s + l_size s.

Record committable (s : lg) : Prop := {
  cm_n : 0 <= l_n s <= LOGSIZE;
  cm_size : l_n s < l_size s;
  cm_len : length (l_block s) = Z.to_nat LOGSIZE;
  cm_nodup : NoDup (take (Z.to_nat (l_n s)) (l_block s));
  cm_home : forall b, b ∈ take (Z.to_nat (l_n s)) (l_block s) -> 0 <= b < 2 ^ 31 /\ ~ in_region s b;
  cm_pinned : forall b, b ∈ take (Z.to_nat (l_n s)) (l_block s) ->
    exists c, ca_buf (l_bc s) !! b = Some c /\ cb_owner c = None /\ 0 < cb_ref c;
  cm_region : forall b, in_region s b -> ca_buf (l_bc s) !! b = None;
  cm_room : Z.of_nat (size (ca_buf (l_bc s))) < NBUF;
}.

Lemma length_log_writes pos ws : length (log_writes pos ws) = length ws.
Proof. revert pos. induction ws as [|w ws IH]; intros pos; simpl; by rewrite ?IH. Qed.

Lemma lookup_log_writes pos ws i :
  log_writes pos ws !! i = (fun w => (pos + Z.of_nat i, w.2)) <$> ws !! i.
Proof.
  revert pos i. induction ws as [|w ws IH]; intros pos [|i]; simpl; try done.
  - by rewrite Z.add_0_r.
  - rewrite IH. by replace (pos + 1 + Z.of_nat i) with (pos + Z.of_nat (S i)) by lia.
Qed.

Lemma log_writes_fst pos ws x :
  x ∈ (log_writes pos ws).*1 -> pos <= x < pos + Z.of_nat (length ws).
Proof.
  intros Hx. apply list_elem_of_lookup in Hx as [i Hi].
  rewrite list_lookup_fmap, lookup_log_writes in Hi.
  destruct (ws !! i) as [w|] eqn:E; [|done]. apply lookup_lt_Some in E. simplify_eq/=. lia.
Qed.

Lemma log_writes_nodup pos ws : NoDup (log_writes pos ws).*1.
Proof.
  revert pos. induction ws as [|w ws IH]; intros pos; simpl; [constructor|].
  apply NoDup_cons. split; [|done]. intros Hin. apply log_writes_fst in Hin. lia.
Qed.

(** The log's copies are on the disk. *)
Lemma log_writes_read pos ws f i b d :
  ws !! i = Some (b, d) -> apply_writes (log_writes pos ws) f (pos + Z.of_nat i) = d.
Proof.
  intros Hi. apply apply_writes_in; [|apply log_writes_nodup].
  apply list_elem_of_lookup. exists i. by rewrite lookup_log_writes, Hi.
Qed.

Lemma length_logged s : committable s -> length (logged s) = Z.to_nat (l_n s).
Proof. intros [Hn _ Hl _ _ _ _ _]. unfold logged. rewrite length_map, length_take, Hl. lia. Qed.

Lemma lookup_logged s i :
  committable s -> 0 <= i < l_n s ->
  logged s !! Z.to_nat i = Some (zget (l_block s) i, bview (l_bc s) (zget (l_block s) i)).
Proof.
  intros [Hn _ Hl _ _ _ _ _] Hi. unfold logged.
  rewrite list_lookup_fmap, lookup_take_lt, zget_lookup by lia. done.
Qed.

Lemma logged_fst s : (logged s).*1 = take (Z.to_nat (l_n s)) (l_block s).
Proof. unfold logged. rewrite <- list_fmap_compose. apply list_fmap_id. Qed.

Lemma logged_elem s i :
  committable s -> 0 <= i < l_n s -> zget (l_block s) i ∈ take (Z.to_nat (l_n s)) (l_block s).
Proof.
  intros Hc Hi. rewrite <- logged_fst. apply list_elem_of_fmap.
  eexists. split; [|eapply list_elem_of_lookup_2, lookup_logged; done]. done.
Qed.

Lemma write_log_spec pid s :
  committable s ->
  wp (write_log pid)
    (fun _ s' => s' = put_bc (set_ca_disk
        (disk_writes (log_writes (l_start s + 1) (logged s)) (ca_disk (l_bc s))) (l_bc s)) s) s.
Proof.
  intros Hc. pose proof Hc as [Hn Hsz Hl Hnd Hh Hp Hr Hroom]. unfold write_log.
  set (W := log_writes (l_start s + 1) (logged s)).
  apply wp_bind, wp_gets.
  apply (wp_for_range (fun i s' => s' = put_bc (set_ca_disk
          (disk_writes (take (Z.to_nat i) W) (ca_disk (l_bc s))) (l_bc s)) s)); [lia| | |].
  - rewrite take_0, disk_writes_nil. by destruct s as [? ? ? ? ? ? ? [? ?] ?].
  - intros i s' Hi ->.
    destruct (Hp _ (logged_elem s i Hc Hi)) as (c & Hb & Ho & Href).
    eapply wp_mono; [apply (write_log_round pid) with (c := c); try done|].
    { cbn. apply Hr. unfold in_region. lia. }
    intros [] s' ->. unfold put_bc, set_ca_disk. cbn. f_equal. f_equal.
    rewrite disk_writes_snoc. f_equal.
    replace (Z.to_nat (i + 1)) with (S (Z.to_nat i)) by lia.
    rewrite (take_S_r _ _ (l_start s + i + 1, cb_data c)); [done|].
    unfold W. rewrite lookup_log_writes, (lookup_logged s i Hc Hi). cbn.
    unfold bview. rewrite Hb. do 2 f_equal. lia.
  - intros s' ->. rewrite firstn_all2; [done|].
    unfold W. rewrite length_log_writes, length_logged; done.
Qed.

Lemma unpin_other bs m b : b ∉ bs -> unpin bs m !! b = m !! b.
Proof.
  revert m. induction bs as [|x bs IH]; intros m Hb; simpl; [done|].
  apply not_elem_of_cons in Hb as [Hx Hb]. rewrite IH by done.
  destruct (m !! x) as [c|] eqn:E; [|done]. unfold unref.
  destruct (cb_ref c =? 1); [by rewrite lookup_delete_ne|by rewrite lookup_insert_ne].
Qed.

Lemma unpin_size bs m : (size (unpin bs m) <= size m)%nat.
Proof.
  revert m. induction bs as [|x bs IH]; intros m; simpl; [done|].
  etrans; [apply IH|]. destruct (m !! x) as [c|] eqn:E; [|done]. unfold unref.
  destruct (cb_ref c =? 1).
  - rewrite map_size_delete, E. simpl. lia.
  - rewrite map_size_insert, E. simpl. lia.
Qed.

Lemma unpin_snoc bs b m :
  unpin (bs ++ [b]) m = match unpin bs m !! b with Some c => unref b c (unpin bs m) | None => unpin bs m end.
Proof. unfold unpin. by rewrite fold_left_app. Qed.

Lemma take_in {A} (l : list A) n i x : (i <= n)%nat -> x ∈ take i l -> x ∈ take n l.
Proof.
  intros Hi Hx. apply list_elem_of_lookup in Hx as [j Hj]. apply lookup_take_Some in Hj as [Hj Hlt].
  apply list_elem_of_lookup. exists j. apply lookup_take_Some. split; [done|lia].
Qed.

Lemma prefix_new (l : list Z) n i :
  NoDup (take n l) -> 0 <= i < Z.of_nat n -> i < Z.of_nat (length l) ->
  zget l i ∉ take (Z.to_nat i) l.
Proof.
  intros Hnd Hi Hl Hx. apply list_elem_of_lookup in Hx as [j Hj].
  apply lookup_take_Some in Hj as [Hj Hlt].
  assert (j = Z.to_nat i); [|lia].
  eapply NoDup_lookup; [exact Hnd| |]; rewrite lookup_take_lt by lia; [exact Hj|].
  apply zget_lookup. lia.
Qed.

(** install_trans() at commit, once the disk has the log's copies. *)
Lemma install_commit_spec pid s d1 :
  committable s ->
  (forall i, 0 <= i < l_n s ->
     d_block d1 (l_start s + i + 1) = bview (l_bc s) (zget (l_block s) i)) ->
  wp (install_trans pid 0)
    (fun _ s' => s' = put_bc (mkBcache (disk_writes (logged s) d1)
                         (unpin (take (Z.to_nat (l_n s)) (l_block s)) (ca_buf (l_bc s)))) s)
    (put_bc (set_ca_disk d1 (l_bc s)) s).
Proof.
  intros Hc Hd1. pose proof Hc as [Hn Hsz Hl Hnd Hh Hp Hr Hroom]. unfold install_trans.
  apply wp_bind, wp_gets. cbn [put_bc l_n lset log_bc].
  apply (wp_for_range (fun i s' => s' = put_bc (mkBcache
          (disk_writes (take (Z.to_nat i) (logged s)) d1)
          (unpin (take (Z.to_nat i) (l_block s)) (ca_buf (l_bc s)))) s)); [lia| | |].
  - by rewrite !take_0, disk_writes_nil.
  - intros i s' Hi ->. fold (install_round pid 0 i).
    set (b := zget (l_block s) i). pose proof (logged_elem s i Hc Hi) as Hin. fold b in Hin.
    destruct (Hp _ Hin) as (c & Hb & Ho & Href).
    assert (Hnb : b ∉ take (Z.to_nat i) (l_block s)) by (eapply prefix_new; [done|lia|lia]).
    assert (Hreg : in_region s (l_start s + i + 1)) by (unfold in_region; lia).
    assert (Hout : l_start s + i + 1 ∉ take (Z.to_nat i) (l_block s)).
    { intros Hx. apply (take_in _ (Z.to_nat (l_n s))) in Hx; [|lia]. by apply Hh in Hx as [_ Hx]. }
    assert (Hdata : d_block (disk_writes (take (Z.to_nat i) (logged s)) d1) (l_start s + i + 1) =
                    cb_data c).
    { cbn. rewrite apply_writes_other.
      - rewrite Hd1 by done. unfold bview. fold b. by rewrite Hb.
      - rewrite fmap_take, logged_fst, take_take, Nat.min_l by lia. done. }
    eapply wp_mono; [apply (install_commit_round pid) with (c := c); try done|].
    + cbn. rewrite unpin_other by done. by apply Hr.
    + cbn. pose proof (unpin_size (take (Z.to_nat i) (l_block s)) (ca_buf (l_bc s))). lia.
    + cbn. by rewrite unpin_other.
    + intros [] s' ->. unfold put_bc. cbn -[disk_writes]. rewrite Hdata, disk_writes_snoc.
      replace (Z.to_nat (i + 1)) with (S (Z.to_nat i)) by lia.
      rewrite (take_S_r (l_block s) _ b) by (apply zget_lookup; lia).
      rewrite (take_S_r (logged s) _ (b, cb_data c)).
      2:{ rewrite (lookup_logged s i Hc Hi). unfold bview. fold b. by rewrite Hb. }
      rewrite unpin_snoc, unpin_other, Hb by done. by destruct c; cbn in Ho; subst.
  - intros s' ->. rewrite (firstn_all2 (logged s)); [done|]. rewrite length_logged; done.
Qed.

Lemma logged_nodup s : committable s -> NoDup (logged s).*1.
Proof. intros Hc. rewrite logged_fst. apply Hc. Qed.

(** commit(): the exact sequence of disk writes, and the pins dropped. *)
Lemma commit_spec pid s :
  committable s -> 0 < l_n s ->
  wp (commit pid)
    (fun _ s' => s' = put_bc (mkBcache (disk_writes (commit_writes s) (ca_disk (l_bc s)))
                         (unpin (take (Z.to_nat (l_n s)) (l_block s)) (ca_buf (l_bc s))))
                       (set_l_n 0 s)) s.
Proof.
  intros Hc Hpos. pose proof Hc as [Hn Hsz Hl Hnd Hh Hp Hr Hroom].
  set (t := l_bc s). set (W := log_writes (l_start s + 1) (logged s)).
  assert (Hst : ca_buf t !! l_start s = None) by (apply Hr; unfold in_region; lia).
  assert (HW : l_start s ∉ W.*1).
  { intros Hx. apply log_writes_fst in Hx. lia. }
  assert (HL : l_start s ∉ (logged s).*1).
  { rewrite logged_fst. intros Hx. apply Hh in Hx as [_ Hx]. apply Hx. unfold in_region. lia. }
  unfold commit. apply wp_bind, wp_gets. destruct (Z.gtb_spec (l_n s) 0); [|lia].
  apply wp_bind. wp_use (write_log_spec pid s Hc). intros [] s1 ->. fold t W.
  apply wp_bind. eapply wp_mono; [by apply write_head_spec|]. cbn beta. intros [] s2 ->.
  cbn -[disk_writes disk_write]. rewrite disk_writes_snoc.
  replace (d_block (disk_writes W (ca_disk t)) (l_start s)) with (d_block (ca_disk t) (l_start s))
    by (cbn; by rewrite apply_writes_other).
  fold t. change (fill_head _ _ _) with (head1 s).
  apply wp_bind. eapply wp_mono; [apply (install_commit_spec pid s); [done|]|].
  { intros i Hi. cbn. rewrite apply_writes_app. cbn. rewrite fset_ne by lia.
    replace (l_start s + i + 1) with (l_start s + 1 + Z.of_nat (Z.to_nat i)) by lia.
    eapply log_writes_read. by apply lookup_logged. }
  cbn beta. intros [] s3 ->. rewrite disk_writes_app.
  apply wp_bind, wp_modify. eapply wp_mono; [apply write_head_spec|].
  - cbn. rewrite unpin_other; [done|]. by rewrite <- logged_fst.
  - cbn. pose proof (unpin_size (take (Z.to_nat (l_n s)) (l_block s)) (ca_buf (l_bc s))). lia.
  - cbn beta. intros [] s4 ->. unfold put_bc, commit_writes. cbn -[disk_writes disk_write].
    rewrite disk_writes_snoc. fold W. rewrite <- !app_assoc. do 6 f_equal.
    unfold head0. do 3 f_equal. cbn. rewrite apply_writes_app. cbn.
    by rewrite apply_writes_other, fset_eq.
Qed.

(** * The header block *)

(** [hb] is a header that lists the home blocks [bs]. *)
Record header (hb : list Z) (bs : list Z) : Prop := {
  hd_len : length hb = Z.to_nat BSIZE;
  hd_n : get32 hb lh_n = Z.of_nat (length bs);
  hd_max : Z.of_nat (length bs) <= LOGSIZE;
  hd_block : forall i, 0 <= i < Z.of_nat (length bs) -> get32 hb (lh_block i) = zget bs i;
  hd_range : forall i, 0 <= i < Z.of_nat (length bs) -> 0 <= zget bs i < 2 ^ 31;
}.

(** The fields put so far. *)
Lemma fill_fields j block hb0 hb :
  (forall i, 0 <= i < Z.of_nat j -> 0 <= zget block i < 2 ^ 31) ->
  Z.of_nat j <= LOGSIZE -> length hb0 = Z.to_nat BSIZE ->
  hb = fold_left (fun hb i => put32 (lh_block i) (u32 (zget block i)) hb) (seqZ 0 (Z.of_nat j)) hb0 ->
  length hb = Z.to_nat BSIZE /\ get32 hb lh_n = get32 hb0 lh_n /\
  (forall i, 0 <= i < Z.of_nat j -> get32 hb (lh_block i) = zget block i).
Proof.
  revert hb. induction j as [|j IH]; intros hb Hr Hj Hl ->; [split_and!; [done|done|lia]|].
  replace (seqZ 0 (Z.of_nat (S j))) with (seqZ 0 (Z.of_nat j) ++ [Z.of_nat j]).
  2:{ replace (Z.of_nat (S j)) with (Z.of_nat j + 1) by lia. rewrite seqZ_app by lia. done. }
  rewrite fold_left_app. cbn [fold_left].
  destruct (IH _ ltac:(intros; apply Hr; lia) ltac:(lia) Hl eq_refl) as (Hlen & H0 & Hi).
  set (h := fold_left _ _ _) in *. unfold put32, get32, lh_block, lh_n, LOGSIZE, MAXOPBLOCKS, BSIZE in *.
  split_and!.
  - by rewrite length_put_le.
  - rewrite get_put_le_other; [done|lia|rewrite Hlen; lia|lia|lia].
  - intros i Hii. destruct (decide (i = Z.of_nat j)) as [->|Hne].
    + specialize (Hr (Z.of_nat j) ltac:(lia)). rewrite u32_small by (unfold is_u32; lia).
      apply get_put_le; [lia|rewrite Hlen; lia|cbn; lia].
    + rewrite get_put_le_other; [apply Hi; lia|lia|rewrite Hlen; lia|lia|lia].
Qed.

Lemma fill_head_header n block hb :
  length hb = Z.to_nat BSIZE -> 0 <= n <= LOGSIZE -> n <= Z.of_nat (length block) ->
  (forall i, 0 <= i < n -> 0 <= zget block i < 2 ^ 31) ->
  header (fill_head n block hb) (take (Z.to_nat n) block).
Proof.
  intros Hl Hn Hb Hr. assert (Hlt : Z.of_nat (length (take (Z.to_nat n) block)) = n).
  { rewrite length_take. lia. }
  assert (Hg : forall i, 0 <= i < n -> zget (take (Z.to_nat n) block) i = zget block i).
  { intros i Hi. unfold zget. rewrite !list_lookup_total_alt, lookup_take_lt by lia. done. }
  pose proof (fill_fields (Z.to_nat n) block (put32 lh_n (u32 n) hb) (fill_head n block hb)) as Hf.
  rewrite Z2Nat.id in Hf by lia. specialize (Hf ltac:(done) ltac:(lia)).
  destruct Hf as (H1 & H2 & H3); [by unfold put32; rewrite length_put_le|done|].
  split; rewrite ?Hlt; [done| |lia| |].
  - rewrite H2. unfold get32, put32, LOGSIZE, MAXOPBLOCKS, BSIZE in *.
    rewrite u32_small by (unfold is_u32; lia).
    apply get_put_le; [done|rewrite Hl; unfold lh_n; lia|cbn; lia].
  - intros i Hi. rewrite Hg, H3 by done. done.
  - intros i Hi. rewrite Hg by done. by apply Hr.
Qed.

(** read_head() reads the header back. *)
Lemma read_head_spec pid s bs :
  ca_buf (l_bc s) = ∅ -> length (l_block s) = Z.to_nat LOGSIZE ->
  header (d_block (ca_disk (l_bc s)) (l_start s)) bs ->
  wp (read_head pid) (fun _ s' => exists block,
    s' = set_l_n (Z.of_nat (length bs)) (set_l_block block s) /\
    length block = Z.to_nat LOGSIZE /\ take (length bs) block = bs) s.
Proof.
  intros Hm Hl [Hlen Hn Hmax Hblk Hrng].
  destruct s as [lk st sz out com n block [d m] wk].
  cbn [l_bc ca_buf ca_disk d_block l_start l_block] in *. subst m.
  set (hb := d_block d st) in *. unfold read_head.
  wp_steps. cbn [lget log_bc l_bc l_start]. apply wp_bread_miss; [done|done|].
  wp_steps. eapply wp_get_data; [blk_get|].
  wp_steps. cbn -[i32 get32 lh_n lh_block]. fold hb. rewrite Hn.
  rewrite i32_small by (unfold LOGSIZE, MAXOPBLOCKS in *; lia).
  apply (wp_for_range (fun i s' => exists block',
    s' = mkLg lk st sz out com (Z.of_nat (length bs)) block'
           (mkBcache d {[st := mkCbuf hb 1 (Some pid)]}) wk /\
    length block' = Z.to_nat LOGSIZE /\ forall j, 0 <= j < i -> zget block' j = zget bs j)).
  - lia.
  - exists block. split; [by rewrite insert_empty|]. split; [done|lia].
  - intros i s' Hi (block' & -> & Hl' & Hb'). apply wp_modify. eexists. split; [done|].
    rewrite length_zset. split; [done|]. intros j Hj.
    cbn [l_block]. rewrite zget_zset by lia. destruct (Z.eqb_spec j i) as [->|Hne]; [|apply Hb'; lia].
    rewrite Hblk by lia. apply i32_small. specialize (Hrng i ltac:(lia)). lia.
  - intros s' (block' & -> & Hl' & Hb'). wp_steps.
    eapply wp_brelse; [cbn; apply lookup_singleton_eq|done|]. cbn.
    exists block'. split; [|split; [done|]].
    + unfold unref, set_l_n, set_l_block. cbn. by rewrite delete_singleton_eq.
    + apply list_eq_zget; [rewrite length_take; lia|]. intros j Hj.
      rewrite length_take in Hj. rewrite <- Hb' by lia.
      unfold zget. rewrite !list_lookup_total_alt, lookup_take_lt by lia. done.
Qed.

(** * Recovery *)

(** The writes of install_trans() at recovery: the home blocks [bs] with the
    contents [f] has for the log's blocks, from [pos] on. *)
Fixpoint installs (pos : Z) (f : Z -> list Z) (bs : list Z) : list (Z * list Z) :=
  match bs with
  | [] => []
  | b :: bs' => (b, f pos) :: installs (pos + 1) f bs'
  end.

Lemma lookup_installs pos f bs i :
  installs pos f bs !! i = (fun b => (b, f (pos + Z.of_nat i))) <$> bs !! i.
Proof.
  revert pos i. induction bs as [|b bs IH]; intros pos [|i]; simpl; try done.
  - by rewrite Z.add_0_r.
  - rewrite IH. by replace (pos + 1 + Z.of_nat i) with (pos + Z.of_nat (S i)) by lia.
Qed.

Lemma length_installs pos f bs : length (installs pos f bs) = length bs.
Proof. revert pos. induction bs as [|b bs IH]; intros pos; simpl; by rewrite ?IH. Qed.

Lemma installs_fst pos f bs : (installs pos f bs).*1 = bs.
Proof. revert pos. induction bs as [|b bs IH]; intros pos; simpl; by rewrite ?IH. Qed.

Lemma install_recover_spec pid s bs :
  let f := d_block (ca_disk (l_bc s)) in
  let ws := installs (l_start s + 1) f bs in
  ca_buf (l_bc s) = ∅ -> l_n s = Z.of_nat (length bs) -> take (length bs) (l_block s) = bs ->
  Z.of_nat (length bs) < l_size s -> (forall b, b ∈ bs -> ~ in_region s b) ->
  wp (install_trans pid 1)
    (fun _ s' => s' = put_bc (set_ca_disk (disk_writes ws (ca_disk (l_bc s))) (l_bc s)) s) s.
Proof.
  intros f ws Hm Hn Hbs Hsz Hout. unfold install_trans. apply wp_bind, wp_gets.
  apply (wp_for_range (fun i s' => s' = put_bc (set_ca_disk
          (disk_writes (take (Z.to_nat i) ws) (ca_disk (l_bc s))) (l_bc s)) s)); [lia| | |].
  - rewrite take_0, disk_writes_nil. by destruct s as [? ? ? ? ? ? ? [? ?] ?].
  - intros i s' Hi ->. fold (install_round pid 1 i).
    assert (Hb : bs !! Z.to_nat i = Some (zget (l_block s) i)).
    { rewrite <- Hbs, lookup_take_lt by lia. apply zget_lookup.
      apply (f_equal length) in Hbs. rewrite length_take in Hbs. lia. }
    assert (Hreg : in_region s (l_start s + i + 1)) by (unfold in_region; lia).
    eapply wp_mono; [apply (install_recover_round pid); [done|]|].
    { cbn. intros He. eapply (Hout (zget (l_block s) i)); [by eapply list_elem_of_lookup_2|].
      by rewrite <- He. }
    intros [] s' ->. unfold put_bc, set_ca_disk. cbn -[disk_writes disk_write].
    rewrite disk_writes_snoc.
    replace (Z.to_nat (i + 1)) with (S (Z.to_nat i)) by lia.
    rewrite (take_S_r _ _ (zget (l_block s) i, f (l_start s + i + 1))).
    2:{ unfold ws. rewrite lookup_installs, Hb. cbn. do 3 f_equal. lia. }
    do 6 f_equal. cbn. apply apply_writes_other.
    intros Hx. rewrite fmap_take in Hx. unfold ws in Hx. rewrite installs_fst in Hx.
    eapply (Hout (l_start s + i + 1)); [|done]. rewrite <- (firstn_all bs).
    eapply take_in; [|exact Hx]. lia.
  - intros s' ->. rewrite firstn_all2; [done|]. unfold ws. rewrite length_installs. lia.
Qed.

(** recover_from_log() on a disk whose header lists [bs]. *)
Lemma recover_spec pid s bs :
  let f := d_block (ca_disk (l_bc s)) in
  ca_buf (l_bc s) = ∅ -> length (l_block s) = Z.to_nat LOGSIZE -> header (f (l_start s)) bs ->
  Z.of_nat (length bs) < l_size s -> (forall b, b ∈ bs -> ~ in_region s b) ->
  wp (recover_from_log pid)
    (fun _ s' => exists block h0,
       s' = put_bc (set_ca_disk (disk_writes (installs (l_start s + 1) f bs ++ [(l_start s, h0)])
                                    (ca_disk (l_bc s))) (l_bc s))
              (set_l_n 0 (set_l_block block s)) /\
       length block = Z.to_nat LOGSIZE /\ header h0 []) s.
Proof.
  intros f Hm Hl Hh Hsz Hout. unfold recover_from_log.
  apply wp_bind. wp_use (read_head_spec pid s bs Hm Hl Hh). intros [] s1 (block & -> & Hlb & Hbs).
  apply wp_bind. eapply wp_mono; [apply (install_recover_spec pid _ bs); done|].
  cbn beta. intros [] s2 ->. apply wp_bind, wp_modify.
  eapply wp_mono; [apply write_head_spec; cbn; by rewrite Hm|].
  cbn beta. intros [] s3 ->. exists block. eexists.
  split; [unfold put_bc, set_ca_disk; cbn -[disk_writes disk_write]; by rewrite disk_writes_snoc|].
  split; [done|]. cbn. change (@nil Z) with (take (Z.to_nat 0) block).
  apply fill_head_header; [|done|lia|lia].
  fold f. rewrite apply_writes_other; [apply Hh|]. rewrite installs_fst. intros Hx.
  apply (Hout _ Hx). unfold in_region. lia.
Qed.

(** * Crash states *)

(** Equal outside the log's region. *)
Definition agree (st sz : Z) (f g : Z -> list Z) : Prop :=
  forall b, ~ (st <= b < st + sz) -> f b = g b.

(** Disks from which recovery reaches [g]: an empty log over it, or a
    committed log whose installation completes it. *)
Inductive crash_to (st sz : Z) (g f : Z -> list Z) : Prop :=
| ct_clean : header (f st) [] -> agree st sz f g -> crash_to st sz g f
| ct_pending bs :
    header (f st) bs -> NoDup bs -> Z.of_nat (length bs) < sz ->
    (forall b, b ∈ bs -> ~ (st <= b < st + sz)) ->
    (forall i b, bs !! i = Some b -> f (st + 1 + Z.of_nat i) = g b) ->
    (forall b, ~ (st <= b < st + sz) -> b ∉ bs -> f b = g b) ->
    crash_to st sz g f.

(** Writing any of the listed home blocks with its new contents. *)
Lemma pending_write st sz g f bs ws :
  header (f st) bs -> NoDup bs -> Z.of_nat (length bs) < sz ->
  (forall b, b ∈ bs -> ~ (st <= b < st + sz)) ->
  (forall i b, bs !! i = Some b -> f (st + 1 + Z.of_nat i) = g b) ->
  (forall b, ~ (st <= b < st + sz) -> b ∉ bs -> f b = g b) ->
  (forall x, x ∈ ws.*1 -> x ∈ bs) ->
  crash_to st sz g (apply_writes ws f).
Proof.
  intros Hh Hnd Hsz Hout Hlog Hoth Hws.
  assert (Hreg : forall x, st <= x < st + sz -> apply_writes ws f x = f x).
  { intros x Hx. apply apply_writes_other. intros Hin. by apply (Hout x (Hws _ Hin)). }
  apply (ct_pending _ _ _ _ bs); [by rewrite Hreg by lia|done|done|done| |].
  - intros i b Hi. pose proof (lookup_lt_Some _ _ _ Hi). rewrite Hreg by lia. by apply Hlog.
  - intros b Hb Hnb. rewrite apply_writes_other; [by apply Hoth|]. intros Hin. by apply Hnb, Hws.
Qed.

(** All of them written, and the header cleared. *)
Lemma pending_done st sz g f (bs : list Z) ws h0 :
  0 < sz -> header h0 [] ->
  (forall b, ~ (st <= b < st + sz) -> b ∉ bs -> f b = g b) ->
  (forall b, b ∈ bs -> (b, g b) ∈ ws) -> NoDup ws.*1 -> (forall x, x ∈ ws.*1 -> x ∈ bs) ->
  let f' := apply_writes (ws ++ [(st, h0)]) f in
  header (f' st) [] /\ agree st sz f' g.
Proof.
  intros Hsz Hh Hoth Hin Hnd Hsub f'. unfold f'. rewrite apply_writes_app. cbn.
  rewrite fset_eq. split; [done|]. intros b Hb. rewrite fset_ne by lia.
  destruct (decide (b ∈ bs)) as [Hbs|Hbs].
  - apply apply_writes_in; [by apply Hin|done].
  - rewrite apply_writes_other; [by apply Hoth|]. intros Hx. by apply Hbs, Hsub.
Qed.

Lemma take_snoc_cases {A} k (l : list A) x :
  take k (l ++ [x]) = take k l \/ take k (l ++ [x]) = l ++ [x].
Proof.
  destruct (decide (k <= length l)%nat); [left|right].
  - by rewrite take_app_le.
  - apply firstn_all2. rewrite length_app. simpl. lia.
Qed.

(** Recovery from a crash state of [g]: every state it goes through is again
    one, and the last one is [g] with an empty log. *)
Lemma recover_reaches pid s g :
  ca_buf (l_bc s) = ∅ -> length (l_block s) = Z.to_nat LOGSIZE -> 0 < l_size s ->
  crash_to (l_start s) (l_size s) g (d_block (ca_disk (l_bc s))) ->
  wp (recover_from_log pid)
    (fun _ s' => exists ws,
       ca_disk (l_bc s') = disk_writes ws (ca_disk (l_bc s)) /\ ca_buf (l_bc s') = ∅ /\ l_n s' = 0 /\
       (forall k, crash_to (l_start s) (l_size s) g (apply_writes (take k ws) (d_block (ca_disk (l_bc s))))) /\
       header (d_block (ca_disk (l_bc s')) (l_start s)) [] /\
       agree (l_start s) (l_size s) (d_block (ca_disk (l_bc s'))) g) s.
Proof.
  intros Hm Hl Hsz Hct. set (f := d_block (ca_disk (l_bc s))) in *. destruct Hct as [Hh Ha|bs Hh Hnd Hlt Hout Hlog Hoth].
  - eapply wp_mono; [apply (recover_spec pid s []); try done; by intros b Hb%elem_of_nil|].
    cbn beta. intros [] s' (block & h0 & -> & Hlb & Hh0). exists [(l_start s, h0)]. cbn. fold f.
    assert (Hag : agree (l_start s) (l_size s) (fset f (l_start s) h0) g).
    { intros b Hb. rewrite fset_ne by lia. by apply Ha. }
    rewrite fset_eq. split_and!; [done|done|done| |done|done].
    intros [|k]; cbn; [by apply ct_clean|]. rewrite take_nil. cbn. apply ct_clean; [by rewrite fset_eq|done].
  - eapply wp_mono; [apply (recover_spec pid s bs); done|].
    cbn beta. intros [] s' (block & h0 & -> & Hlb & Hh0). eexists. split; [done|].
    cbn -[disk_writes]. fold f. set (ws := installs (l_start s + 1) f bs).
    assert (Hfst : ws.*1 = bs) by apply installs_fst.
    assert (Hdone : let f' := apply_writes (ws ++ [(l_start s, h0)]) f in
              header (f' (l_start s)) [] /\ agree (l_start s) (l_size s) f' g).
    { apply (pending_done _ _ _ _ bs); [done|done|done| |by rewrite Hfst|by rewrite Hfst].
      intros b Hb. apply list_elem_of_lookup in Hb as [i Hi]. apply list_elem_of_lookup. exists i.
      unfold ws. rewrite lookup_installs, Hi. cbn. by rewrite (Hlog i b). }
    split_and!; [done|done| |apply Hdone|apply Hdone].
    intros k. destruct (take_snoc_cases k ws (l_start s, h0)) as [-> | ->].
    + eapply pending_write; [done..|]. intros x Hx. rewrite fmap_take, Hfst in Hx.
      by eapply elem_of_take in Hx as (i & Hi & _); eapply list_elem_of_lookup_2.
    + by apply ct_clean; apply Hdone.
Qed.

(** * Crashes during a commit *)

(** The contents the transaction asks for. *)
Definition after_commit (s : lg) (b : Z) : list Z :=
  if decide (b ∈ take (Z.to_nat (l_n s)) (l_block s)) then bview (l_bc s) b
  else d_block (ca_disk (l_bc s)) b.

Lemma elem_logged s b d : (b, d) ∈ logged s <-> b ∈ take (Z.to_nat (l_n s)) (l_block s) /\ d = bview (l_bc s) b.
Proof.
  unfold logged. rewrite list_elem_of_fmap. split.
  - intros (x & [= -> ->] & Hx). done.
  - intros [Hb ->]. by exists b.
Qed.

Lemma logged_after s i b d :
  committable s -> logged s !! i = Some (b, d) -> d = after_commit s b.
Proof.
  intros Hc Hi. apply list_elem_of_lookup_2, elem_logged in Hi as [Hb ->].
  unfold after_commit. by rewrite decide_True.
Qed.

(** Once the header is written, the log is pending. *)
Lemma commit_pending s j :
  committable s -> length (d_block (ca_disk (l_bc s)) (l_start s)) = Z.to_nat BSIZE ->
  let f := apply_writes (log_writes (l_start s + 1) (logged s) ++ [(l_start s, head1 s)])
             (d_block (ca_disk (l_bc s))) in
  crash_to (l_start s) (l_size s) (after_commit s) (apply_writes (take j (logged s)) f).
Proof.
  intros Hc Hlen f. pose proof Hc as [Hn Hsz Hl Hnd Hh Hp Hr Hroom].
  assert (Htl : length (take (Z.to_nat (l_n s)) (l_block s)) = Z.to_nat (l_n s)).
  { rewrite length_take. lia. }
  apply (pending_write _ _ _ _ (take (Z.to_nat (l_n s)) (l_block s))); unfold f; rewrite ?apply_writes_app; cbn.
  - rewrite fset_eq. apply fill_head_header; [done|done|lia|]. intros i Hi.
    by apply Hh, logged_elem.
  - done.
  - rewrite Htl. lia.
  - intros b Hb. by apply Hh.
  - intros i b Hi. pose proof (lookup_lt_Some _ _ _ Hi). rewrite fset_ne by lia.
    assert (Hli : logged s !! i = Some (b, bview (l_bc s) b)).
    { unfold logged. by rewrite list_lookup_fmap, Hi. }
    rewrite (log_writes_read _ _ _ i _ _ Hli). by eapply logged_after.
  - intros b Hb Hnb. rewrite fset_ne by lia. rewrite apply_writes_other.
    + unfold after_commit. by rewrite decide_False.
    + intros Hx. apply log_writes_fst in Hx. rewrite length_logged in Hx by done. lia.
  - intros x Hx. rewrite fmap_take, logged_fst, take_take in Hx.
    eapply take_in; [|exact Hx]. lia.
Qed.

(** The disk after the first [k] writes of a commit. *)
Lemma commit_crash s k :
  committable s -> header (d_block (ca_disk (l_bc s)) (l_start s)) [] ->
  crash_to (l_start s) (l_size s)
    (if (k <=? Z.to_nat (l_n s))%nat then d_block (ca_disk (l_bc s)) else after_commit s)
    (apply_writes (take k (commit_writes s)) (d_block (ca_disk (l_bc s)))).
Proof.
  intros Hc Hh. pose proof (length_logged s Hc) as Hlen. pose proof Hc as [Hn Hsz Hl _ Hout _ _ _].
  set (W := log_writes (l_start s + 1) (logged s)).
  assert (HW : length W = Z.to_nat (l_n s)) by (unfold W; by rewrite length_log_writes).
  unfold commit_writes. fold W. destruct (Nat.leb_spec k (Z.to_nat (l_n s))) as [Hk|Hk].
  - rewrite take_app_le by lia.
    assert (Hsame : forall b, ~ (l_start s < b < l_start s + l_size s) ->
              apply_writes (take k W) (d_block (ca_disk (l_bc s))) b = d_block (ca_disk (l_bc s)) b).
    { intros b Hb. apply apply_writes_other. intros Hx. rewrite fmap_take in Hx.
      assert (Hx' : b ∈ W.*1) by (rewrite <- (firstn_all (W.*1)); eapply take_in; [|exact Hx];
        rewrite length_fmap; lia).
      apply log_writes_fst in Hx'. lia. }
    apply ct_clean; [by rewrite Hsame by lia|]. intros b Hb. apply Hsame. lia.
  - rewrite app_assoc, take_app_ge by (rewrite length_app; simpl; lia).
    rewrite apply_writes_app. rewrite length_app, HW. simpl length.
    set (j := (k - (Z.to_nat (l_n s) + 1))%nat).
    destruct (take_snoc_cases j (logged s) (l_start s, head0 s)) as [-> | ->].
    { apply (commit_pending s j Hc). apply Hh. }
    assert (Hd : let f' := apply_writes (logged s ++ [(l_start s, head0 s)])
                   (apply_writes (W ++ [(l_start s, head1 s)]) (d_block (ca_disk (l_bc s)))) in
                 header (f' (l_start s)) [] /\ agree (l_start s) (l_size s) f' (after_commit s)).
    { apply (pending_done _ _ _ _ (take (Z.to_nat (l_n s)) (l_block s))).
      - lia.
      - apply (fill_head_header 0 (l_block s)); [|done|lia|lia].
        apply (fill_head_header (l_n s) (l_block s)); [apply Hh|done|lia|].
        intros i Hi. by apply Hout, logged_elem.
      - intros b Hb Hnb. rewrite apply_writes_app. cbn. rewrite fset_ne by lia.
        rewrite apply_writes_other; [unfold after_commit; by rewrite decide_False|].
        intros Hx. apply log_writes_fst in Hx. lia.
      - intros b Hb. apply elem_logged. split; [done|]. unfold after_commit. by rewrite decide_True.
      - by apply logged_nodup.
      - by rewrite logged_fst. }
    apply ct_clean; apply Hd.
Qed.

(** A machine that starts up with disk contents [f]: nothing cached. *)
Record booted (st sz : Z) (f : Z -> list Z) (r : lg) : Prop := {
  bt_start : l_start r = st;
  bt_size : l_size r = sz;
  bt_len : length (l_block r) = Z.to_nat LOGSIZE;
  bt_cache : ca_buf (l_bc r) = ∅;
  bt_disk : d_block (ca_disk (l_bc r)) = f;
}.

(** Disks left by any number of start-ups that crash during recovery, each
    after some of the writes recovery performs. *)
Inductive reboots (pid st sz : Z) : (Z -> list Z) -> (Z -> list Z) -> Prop :=
| rb_none f : reboots pid st sz f f
| rb_crash f r r' ws j f' :
    booted st sz f r -> recover_from_log pid r = Ok tt r' ->
    d_hist (ca_disk (l_bc r')) = d_hist (ca_disk (l_bc r)) ++ ws ->
    reboots pid st sz (apply_writes (take j ws) f) f' ->
    reboots pid st sz f f'.

Lemma reboots_crash pid st sz g f f' :
  0 < sz -> reboots pid st sz f f' -> crash_to st sz g f -> crash_to st sz g f'.
Proof.
  intros Hsz Hr. induction Hr as [f|f r r' ws j f' [<- <- Hl Hm <-] Hrun Hh _ IH]; [done|].
  intros Hct. apply IH.
  pose proof (recover_reaches pid r g Hm Hl Hsz Hct) as Hwp.
  unfold wp in Hwp. rewrite Hrun in Hwp. destruct Hwp as (ws' & Hd & _ & _ & Hk & _).
  rewrite Hd in Hh. cbn in Hh. apply app_inv_head in Hh as <-. apply Hk.
Qed.

(** C2. A transaction is atomic with respect to crashes.  commit() always
    completes, and let the machine stop after any number [k] of the disk
    writes it performs, and again any number of times during recovery: the
    recovery that finally completes leaves every block outside the log either
    with its contents before the transaction, when the header block was not
    yet written ([k <= n]), or with all the transaction's contents, when it
    was; and the log is empty. *)
Theorem log_crash_atomic pid s :
  committable s -> 0 < l_n s -> header (d_block (ca_disk (l_bc s)) (l_start s)) [] ->
  wp (commit pid) (fun _ s' => exists ws,
    d_hist (ca_disk (l_bc s')) = d_hist (ca_disk (l_bc s)) ++ ws /\
    d_block (ca_disk (l_bc s')) = apply_writes ws (d_block (ca_disk (l_bc s))) /\
    l_n s' = 0 /\
    forall k f r,
      reboots pid (l_start s) (l_size s)
        (apply_writes (take k ws) (d_block (ca_disk (l_bc s)))) f ->
      booted (l_start s) (l_size s) f r ->
      wp (recover_from_log pid) (fun _ r' =>
        header (d_block (ca_disk (l_bc r')) (l_start s)) [] /\
        agree (l_start s) (l_size s) (d_block (ca_disk (l_bc r')))
          (if (k <=? Z.to_nat (l_n s))%nat then d_block (ca_disk (l_bc s)) else after_commit s)) r) s.
Proof.
  intros Hc Hpos Hh. assert (Hsz : 0 < l_size s) by (destruct Hc; lia).
  wp_use (commit_spec pid s Hc Hpos). intros [] s' ->.
  exists (commit_writes s). do 3 (split; [done|]). intros k f r Hrb [Hst Hsize Hl Hm Hd].
  eapply reboots_crash in Hrb; [|done|by apply commit_crash].
  eapply wp_mono; [apply recover_reaches with (g := if (k <=? Z.to_nat (l_n s))%nat
                     then d_block (ca_disk (l_bc s)) else after_commit s); try done|].
  - by rewrite Hsize.
  - by rewrite Hst, Hsize, Hd.
  - cbn beta. rewrite Hst, Hsize. intros [] r' (ws & _ & _ & _ & _ & Hh' & Ha). done.
Qed.

Module LogDemo.
Definition home : list Z := replicate 1024 7.
Definition st0 : lg :=
  mkLg false 2 30 0 1 1 (50 :: replicate 29 0)
    (mkBcache (mkDisk (fun _ => zeroblock) []) {[50 := mkCbuf home 1 None]}) [].

Lemma st0_ok : committable st0.
Proof.
  split; [done|done|done|apply NoDup_singleton| | | |].
  - intros b Hb. apply list_elem_of_singleton in Hb as ->. split; [lia|]. unfold in_region. cbn. lia.
  - intros b Hb. apply list_elem_of_singleton in Hb as ->. by exists (mkCbuf home 1 None).
  - intros b Hb. unfold in_region in Hb. cbn in *. rewrite lookup_singleton_ne; [done|lia].
  - done.
Qed.

Lemma st0_header : header (d_block (ca_disk (l_bc st0)) (l_start st0)) [].
Proof. split; try done; cbn; lia. Qed.
End LogDemo.

Lemma log_crash_atomic_witness :
  wp (commit 1) (fun _ s' => exists ws,
    d_hist (ca_disk (l_bc s')) = [] ++ ws /\
    d_block (ca_disk (l_bc s')) = apply_writes ws (fun _ => zeroblock) /\ l_n s' = 0 /\
    forall k f r,
      reboots 1 2 30 (apply_writes (take k ws) (fun _ => zeroblock)) f -> booted 2 30 f r ->
      wp (recover_from_log 1) (fun _ r' =>
        header (d_block (ca_disk (l_bc r')) 2) [] /\
        agree 2 30 (d_block (ca_disk (l_bc r')))
          (if (k <=? 1)%nat then fun _ => zeroblock else after_commit LogDemo.st0)) r) LogDemo.st0.
Proof.
  exact (log_crash_atomic 1 LogDemo.st0 LogDemo.st0_ok eq_refl LogDemo.st0_header).
Defined.
