(* ===== verification/LogSpace.v ===== *)
(** Reservation of log space: operations that stay within MAXOPBLOCKS blocks
    each never overflow the log, and the last one to end commits. *)

From S2P Require Import Prelude Riscv Fields BlockCache Log LogProps.

#[local] Hint Unfold blk : kwp.

(** * log_write() *)

Lemma absorb_spec fuel i n b block :
  i <= n -> n - i <= Z.of_nat fuel ->
  let r := absorb fuel i n b block in
  i <= r <= n /\ (forall j, i <= j < r -> zget block j <> b) /\ (r < n -> zget block r = b).
Proof.
  revert i. induction fuel as [|f IH]; intros i Hi Hf; simpl; [split_and!; lia|].
  repeat zcase; [split_and!; try lia; done| |split_and!; lia].
  destruct (IH (i + 1) ltac:(lia) ltac:(lia)) as (H1 & H2 & H3).
  split_and!; [lia|lia| |done]. intros j Hj. destruct (decide (j = i)) as [->|Hne]; [done|].
  apply H2. lia.
Qed.

Lemma zset_id (l : list Z) i : 0 <= i < Z.of_nat (length l) -> zset i (zget l i) l = l.
Proof. intros Hi. apply list_insert_id. by apply zget_lookup. Qed.

Lemma take_zset (l : list Z) n b :
  0 <= n < Z.of_nat (length l) ->
  take (Z.to_nat (n + 1)) (zset n b l) = take (Z.to_nat n) l ++ [b].
Proof.
  intros Hn. replace (Z.to_nat (n + 1)) with (S (Z.to_nat n)) by lia.
  rewrite (take_S_r _ _ b) by (apply list_lookup_insert_eq; lia).
  f_equal. apply take_insert_ge. lia.
Qed.

Definition in_log (s : lg) (b : Z) : Prop := b ∈ take (Z.to_nat (l_n s)) (l_block s).

(** The two outcomes: the block is in the transaction already, or it is added
    to it and pinned. *)
Lemma log_write_spec s b c (Q : unit -> lg -> Prop) :
  l_lock s = false -> 0 <= l_n s -> l_n s < LOGSIZE -> l_n s < l_size s - 1 ->
  1 <= l_outstanding s -> length (l_block s) = Z.to_nat LOGSIZE ->
  ca_buf (l_bc s) !! b = Some c ->
  (in_log s b -> Q tt s) ->
  (~ in_log s b ->
     Q tt (set_l_n (l_n s + 1) (set_l_block (zset (l_n s) b (l_block s))
        (put_bc (set_ca_buf (<[b := mkCbuf (cb_data c) (cb_ref c + 1) (cb_owner c)]> (ca_buf (l_bc s)))
                   (l_bc s)) s)))) ->
  wp (log_write b) Q s.
Proof.
  intros Hlk Hn0 Hn1 Hn2 Ho Hl Hc Hin Hnew.
  destruct (absorb_spec (Z.to_nat (l_n s)) 0 (l_n s) b (l_block s) ltac:(lia) ltac:(lia)) as (Hr & Hlt & Heq).
  destruct s as [lk st sz out com n blocks [d m] wk].
  cbn [l_lock l_n l_size l_outstanding l_block l_bc ca_buf in_log] in *. subst lk.
  unfold log_write. wp_steps. cbn [id l_n l_size l_outstanding l_block lset log_lock].
  repeat zcase; try lia.
  - rewrite e. wp_steps. eapply wp_bpin; [exact Hc|]. wp_steps. apply Hnew.
    unfold in_log. cbn. intros Hb. apply list_elem_of_lookup in Hb as [j Hj].
    apply lookup_take_Some in Hj as [Hj Hjn]. apply (Hlt (Z.of_nat j)); [lia|].
    unfold zget. rewrite Nat2Z.id, list_lookup_total_alt, Hj. done.
  - wp_steps. rewrite <- (Heq ltac:(lia)) at 2. cbn.
    rewrite zset_id by lia. apply Hin. unfold in_log. cbn.
    rewrite <- (Heq ltac:(lia)). apply list_elem_of_lookup.
    exists (Z.to_nat (absorb (Z.to_nat n) 0 n b blocks)).
    rewrite lookup_take_lt by lia. apply zget_lookup. lia.
Qed.

(** * Operations under way

    A configuration is the log's state and, for each operation between its
    begin_op() and its end_op(), how many blocks it has passed to
    log_write(). *)

Definition config : Type := lg * list Z.

Definition room_left (us : list Z) : Z := foldr (fun u a => (MAXOPBLOCKS - u) + a) 0 us.

(** What the callers promise: they pass buffers they have locked, of blocks
    outside the log's region; between the calls the cache changes as it likes
    but keeps the pinned blocks and stays off the log's region; when the last
    operation ends no buffer is locked, and one is free. *)
Definition cache_ok (s : lg) (t : bcache) : Prop :=
  (forall b, in_log s b -> exists c, ca_buf t !! b = Some c /\ 0 < cb_ref c) /\
  (forall b, in_region s b -> ca_buf t !! b = None).

Definition quiescent (t : bcache) : Prop :=
  (forall b c, ca_buf t !! b = Some c -> cb_owner c = None) /\ Z.of_nat (size (ca_buf t)) < NBUF.

Definition loggable (s : lg) (b : Z) : Prop :=
  0 <= b < 2 ^ 31 /\ (~ in_region s b) /\ (exists c, ca_buf (l_bc s) !! b = Some c /\ 0 < cb_ref c).

Inductive log_step : config -> config -> Prop :=
| ls_begin s s' us :
    begin_op s = Ok tt s' -> log_step (s, us) (s', us ++ [0])
| ls_write s s' us i u b :
    us !! i = Some u -> u < MAXOPBLOCKS -> loggable s b ->
    log_write b s = Ok tt s' -> log_step (s, us) (s', <[i := u + 1]> us)
| ls_cache s t us :
    cache_ok s t -> log_step (s, us) (put_bc t s, us)
| ls_end pid s s' us i u :
    us !! i = Some u -> (length us = 1%nat -> quiescent (l_bc s)) ->
    end_op pid s = Ok tt s' -> log_step (s, us) (s', delete i us).

Record log_inv (s : lg) (us : list Z) : Prop := {
  li_lock : l_lock s = false;
  li_com : l_committing s = 0;
  li_out : l_outstanding s = Z.of_nat (length us);
  li_us : Forall (fun u => 0 <= u <= MAXOPBLOCKS) us;
  li_n : 0 <= l_n s;
  li_space : l_n s + room_left us <= LOGSIZE;
  li_size : l_n s < l_size s;
  li_len : length (l_block s) = Z.to_nat LOGSIZE;
  li_nodup : NoDup (take (Z.to_nat (l_n s)) (l_block s));
  li_home : forall b, in_log s b -> 0 <= b < 2 ^ 31 /\ ~ in_region s b;
  li_cache : cache_ok s (l_bc s);
}.

Lemma room_left_pos us : Forall (fun u => 0 <= u <= MAXOPBLOCKS) us -> 0 <= room_left us.
Proof. induction 1; simpl; lia. Qed.

Lemma room_left_app us vs : room_left (us ++ vs) = room_left us + room_left vs.
Proof. induction us as [|u us IH]; simpl; [done|lia]. Qed.

Lemma room_left_split us i u :
  us !! i = Some u ->
  room_left us = (MAXOPBLOCKS - u) + room_left (delete i us) /\
  (forall v, room_left (<[i := v]> us) = (MAXOPBLOCKS - v) + room_left (delete i us)).
Proof.
  revert i. induction us as [|x us IH]; intros [|i] Hi; simplify_eq/=; [done|].
  destruct (IH i Hi) as [He Hv]. split; [lia|]. intros v. rewrite Hv. lia.
Qed.

Lemma room_left_outstanding us :
  Forall (fun u => 0 <= u <= MAXOPBLOCKS) us -> room_left us <= MAXOPBLOCKS * Z.of_nat (length us).
Proof. induction 1; simpl; lia. Qed.

(** begin_op() sleeps, or reserves MAXOPBLOCKS blocks. *)
Lemma begin_op_inv s us :
  log_inv s us ->
  (exists s', begin_op s = Ok tt s' /\ log_inv s' (us ++ [0])) \/
  begin_op s = Block 0 s /\ LOGSIZE < l_n s + (Z.of_nat (length us) + 1) * MAXOPBLOCKS.
Proof.
  intros [Hlk Hcom Hout Hus Hn Hsp Hsz Hlen Hnd Hh Hc].
  destruct s as [lk st sz out com n blocks t wk]. cbn in Hlk, Hcom, Hout. subst lk com out.
  unfold begin_op, bind, acquire, gets, modify, release, log_sleep. cbn -[MAXOPBLOCKS LOGSIZE].
  zcase; [right; by split|left]. eexists. split; [done|].
  split; try done; cbn -[MAXOPBLOCKS LOGSIZE].
  - rewrite length_app. simpl. lia.
  - apply Forall_app. split; [done|]. apply Forall_singleton. done.
  - rewrite room_left_app. cbn -[MAXOPBLOCKS LOGSIZE].
    pose proof (room_left_outstanding us Hus). cbn -[MAXOPBLOCKS LOGSIZE] in *. lia.
Qed.

(** log_write() by an operation with blocks left. *)
Lemma log_write_inv s us i u b :
  log_inv s us -> us !! i = Some u -> u < MAXOPBLOCKS -> loggable s b -> l_n s < l_size s - 1 ->
  wp (log_write b) (fun _ s' => log_inv s' (<[i := u + 1]> us) /\ in_log s' b) s.
Proof.
  intros [Hlk Hcom Hout Hus Hn Hsp Hsz Hlen Hnd Hh [Hc Hreg]] Hi Hu (Hb & Hbr & c & Hbc & Href) Hsz'.
  destruct (room_left_split us i u Hi) as [He Hv].
  pose proof (Forall_lookup_1 _ _ _ _ Hus Hi) as Hu0. cbn beta in Hu0.
  assert (Hrest : 0 <= room_left (delete i us)).
  { apply room_left_pos. by apply Forall_delete. }
  assert (Hus' : Forall (fun u => 0 <= u <= MAXOPBLOCKS) (<[i := u + 1]> us)).
  { apply Forall_insert; [done|lia]. }
  pose proof (lookup_lt_Some _ _ _ Hi) as Hlt.
  eapply log_write_spec; try done; try lia.
  - intros Hin. split; [|done]. split; try done; [by rewrite length_insert|]. rewrite Hv. lia.
  - intros Hnin. set (s' := set_l_n _ _).
    assert (Htk : take (Z.to_nat (l_n s')) (l_block s') = take (Z.to_nat (l_n s)) (l_block s) ++ [b]).
    { apply take_zset. lia. }
    assert (Hil : forall x, in_log s' x <-> in_log s x \/ x = b).
    { intros x. unfold in_log. rewrite Htk, elem_of_app, list_elem_of_singleton. done. }
    split; [|by apply Hil; right]. split; try done; cbn -[MAXOPBLOCKS LOGSIZE].
    + by rewrite length_insert.
    + lia.
    + rewrite Hv. lia.
    + lia.
    + by rewrite length_zset.
    + change (NoDup (take (Z.to_nat (l_n s')) (l_block s'))). rewrite Htk.
      apply NoDup_app. split_and!; [done| |apply NoDup_singleton].
      intros x Hx Hx'. apply list_elem_of_singleton in Hx' as ->. done.
    + intros x Hx. apply Hil in Hx as [Hx| ->]; [by apply Hh|done].
    + split.
      * intros x Hx. cbn. destruct (decide (x = b)) as [->|Hxb].
        -- rewrite lookup_insert_eq. eexists. split; [done|]. cbn. lia.
        -- rewrite lookup_insert_ne by done. apply Hil in Hx as [Hx|Hx]; [by apply Hc|done].
      * intros x Hx. cbn. rewrite lookup_insert_ne; [by apply Hreg|]. intros <-. done.
Qed.

(** commit() of a quiescent log, empty or not. *)
Lemma commit_total pid s :
  committable s ->
  wp (commit pid) (fun _ s' => exists t, s' = put_bc t (set_l_n 0 s) /\
      forall b, in_region s b -> ca_buf t !! b = None) s.
Proof.
  intros Hc. destruct (decide (0 < l_n s)) as [Hpos|Hz].
  - wp_use (commit_spec pid s Hc Hpos). intros [] s' ->. eexists. split; [done|].
    intros b Hb. cbn. rewrite unpin_other; [by apply Hc|]. intros Hx.
    by apply (cm_home s Hc) in Hx as [_ Hx].
  - pose proof (cm_n s Hc). unfold commit. apply wp_bind, wp_gets.
    destruct (Z.gtb_spec (l_n s) 0); [lia|]. apply wp_ret. exists (l_bc s). split; [|apply Hc].
    destruct s as [lk st sz out com n blocks t wk]. unfold put_bc, set_l_n. cbn in *. f_equal. lia.
Qed.

Lemma inv_committable s us :
  log_inv s us -> length us = 1%nat -> quiescent (l_bc s) ->
  committable (lset log_lock false (set_l_committing 1 (set_l_outstanding 0 s))).
Proof.
  intros [Hlk Hcom Hout Hus Hn Hsp Hsz Hlen Hnd Hh [Hc Hreg]] Hl1 [Hq Hr].
  pose proof (room_left_pos us Hus).
  split; try done; [cbn -[LOGSIZE MAXOPBLOCKS]; lia|].
  intros b Hb. destruct (Hc b Hb) as (c & Hbc & Href). exists c. split_and!; [done| |done]. by eapply Hq.
Qed.

Lemma end_op_inv pid s us i u :
  log_inv s us -> us !! i = Some u -> (length us = 1%nat -> quiescent (l_bc s)) ->
  wp (end_op pid) (fun _ s' => log_inv s' (delete i us) /\ (length us = 1%nat -> l_n s' = 0)) s.
Proof.
  intros HI Hi Hq. pose proof HI as [Hlk Hcom Hout Hus Hn Hsp Hsz Hlen Hnd Hh Hc].
  pose proof (lookup_lt_Some _ _ _ Hi) as Hlt.
  destruct (room_left_split us i u Hi) as [He _].
  pose proof (Forall_lookup_1 _ _ _ _ Hus Hi) as Hu0. cbn beta in Hu0.
  assert (Hld : length (delete i us) = (length us - 1)%nat) by (rewrite length_delete; [lia|done]).
  unfold end_op. apply wp_bind, wp_acquire; [done|]. apply wp_bind, wp_modify, wp_bind, wp_gets.
  cbn [id l_committing l_outstanding set_l_outstanding lset log_lock]. rewrite Hcom, Hout. cbn [negb Z.eqb].
  apply wp_bind. destruct (Z.eqb_spec (Z.of_nat (length us) - 1) 0) as [H1|H1].
  - apply wp_bind, wp_modify, wp_ret, wp_bind, wp_release; [done|].
    apply wp_bind. eapply wp_mono.
    { pose proof (inv_committable s us HI ltac:(lia) (Hq ltac:(lia))) as Hcm.
      replace (Z.of_nat (length us) - 1) with 0 by lia. exact (commit_total pid _ Hcm). }
    cbn beta. intros [] s' (t & -> & Ht).
    apply wp_bind, wp_acquire; [done|]. apply wp_bind, wp_modify, wp_bind, wp_modify, wp_release; [done|].
    split; [|done]. assert (Hd : delete i us = []) by (apply length_zero_iff_nil; lia).
    rewrite Hd. split; cbn -[LOGSIZE MAXOPBLOCKS]; try done; try lia; try by constructor.
    + intros b Hb. unfold in_log in Hb. cbn in Hb. by apply elem_of_nil in Hb.
    + split; [|exact Ht]. intros b Hb. unfold in_log in Hb. cbn in Hb. by apply elem_of_nil in Hb.
  - apply wp_bind, wp_modify, wp_ret, wp_bind, wp_release; [done|]. apply wp_ret.
    split; [|lia]. split; cbn -[LOGSIZE MAXOPBLOCKS]; try done; try lia.
    by apply Forall_delete.
Qed.

Lemma log_step_inv s us s' us' : log_step (s, us) (s', us') -> log_inv s us -> log_inv s' us'.
Proof.
  intros Hst HI. inversion Hst as [? ? ? Hb|? ? ? i u b Hi Hu Hl Hw|? t ? Ht|pid ? ? ? i u Hi Hq He]; subst.
  - destruct (begin_op_inv _ _ HI) as [(s1 & Hs1 & HI')|[Hs1 _]]; simplify_eq/=; congruence.
  - assert (Hsz : l_n s < l_size s - 1).
    { revert Hw. unfold log_write, bind, acquire, gets. cbn.
      rewrite (li_lock s us HI). cbn -[LOGSIZE].
      destruct (Z.geb_spec (l_n s) LOGSIZE); [done|]. destruct (Z.geb_spec (l_n s) (l_size s - 1)); [done|lia]. }
    pose proof (log_write_inv _ _ _ _ _ HI Hi Hu Hl Hsz) as Hwp. unfold wp in Hwp.
    rewrite Hw in Hwp. apply Hwp.
  - destruct HI. by split.
  - pose proof (end_op_inv pid _ _ _ _ HI Hi Hq) as Hwp. unfold wp in Hwp. rewrite He in Hwp. apply Hwp.
Qed.

Lemma log_steps_inv c c' : rtc log_step c c' -> log_inv c.1 c.2 -> log_inv c'.1 c'.2.
Proof.
  induction 1 as [|c [s us] c' Hst _ IH]; [done|]. intros HI. apply IH.
  destruct c as [s0 us0]. by eapply log_step_inv.
Qed.


Module SpaceDemo.
Definition st0 (nlog : Z) (bufs : gmap Z cbuf) : lg :=
  mkLg false 2 nlog 0 0 0 (replicate 30 0) (mkBcache (mkDisk (fun _ => zeroblock) []) bufs) [].
Definition st1 : lg := set_l_outstanding 1 (st0 31 ∅).

Lemma st0_inv : log_inv (st0 31 ∅) [].
Proof.
  split; try done; try by constructor.
  - intros b Hb. unfold in_log in Hb. cbn in Hb. by apply elem_of_nil in Hb.
  - split; intros b Hb; [|done]. unfold in_log in Hb. cbn in Hb. by apply elem_of_nil in Hb.
Qed.

Lemma st1_run : rtc log_step (st0 31 ∅, []) (st1, [0]).
Proof. apply rtc_once. by apply (ls_begin _ _ []). Qed.
End SpaceDemo.


