(* ===== verification/Fs.v ===== *)
(** The file system: kernel/fs.c, with kernel/fs.h, kernel/file.h (struct
    inode) and kernel/stat.h.

    The state holds the log with the block cache under it, the superblock, the
    inode table and the memory that file data is copied from and to.  There is
    one disk device, so the cache is that of the device and the [dev] arguments
    select nothing.  [pid] is the running process, [pagetable] its page table
    and [cwd] its current directory.  A pointer to an inode is an index into
    the table, [NULL] the null pointer. *)

From S2P Require Import Prelude Riscv CString Kalloc Vm Sleeplock Fields BlockCache Log.

(** * On-disk layout *)

Definition ROOTINO : Z := 1.
Definition FSMAGIC : Z := 0x10203040.
Definition NDIRECT : Z := 12.
Definition NINDIRECT : Z := BSIZE / 4.
Definition MAXFILE : Z := NDIRECT + NINDIRECT.
Definition DIRSIZ : Z := 14.
Definition sizeof_dinode : Z := 64.
Definition sizeof_dirent : Z := 16.
Definition T_DIR : Z := 1.
Definition T_FILE : Z := 2.
Definition T_DEVICE : Z := 3.

Record superblock : Type := mkSuperblock {
  sb_magic : Z;
  sb_size : Z;
  sb_nblocks : Z;
  sb_ninodes : Z;
  sb_nlog : Z;
  sb_logstart : Z;
  sb_inodestart : Z;
  sb_bmapstart : Z;
}.

Definition IPB : Z := BSIZE / sizeof_dinode.
Definition IBLOCK (i : Z) (sb : superblock) : Z := i / IPB + sb_inodestart sb.
Definition BPB : Z := BSIZE * 8.
Definition BBLOCK (b : Z) (sb : superblock) : Z := b / BPB + sb_bmapstart sb.

(** struct superblock at the start of a block. *)
Definition get_sb (d : list Z) : superblock :=
  mkSuperblock (get32 d 0) (get32 d 4) (get32 d 8) (get32 d 12) (get32 d 16) (get32 d 20)
    (get32 d 24) (get32 d 28).

(** struct dirent *)
Record dirent : Type := mkDirent { de_inum : Z; de_name : list Z }.
Definition get_dirent (d : list Z) : dirent := mkDirent (get16 d 0) (slice 2 DIRSIZ d).
Definition put_dirent (de : dirent) : list Z :=
  splice 2 (de_name de) (put16 0 (u16 (de_inum de)) (replicate (Z.to_nat sizeof_dirent) 0)).

(** * In-memory state *)

Record inode : Type := mkInode {
  i_dev : Z;              (** device number *)
  i_inum : Z;             (** inode number *)
  i_ref : Z;              (** reference count *)
  i_lock : sleeplock;     (** protects everything below here *)
  i_valid : Z;            (** inode has been read from disk? *)
  i_type : Z;             (** copy of disk inode *)
  i_major : Z;
  i_minor : Z;
  i_nlink : Z;
  i_size : Z;
  i_addrs : list Z;
}.

Definition set_i_id (dev inum ref valid : Z) (ip : inode) : inode :=
  mkInode dev inum ref (i_lock ip) valid (i_type ip) (i_major ip) (i_minor ip) (i_nlink ip)
    (i_size ip) (i_addrs ip).
Definition set_i_ref (v : Z) (ip : inode) : inode :=
  set_i_id (i_dev ip) (i_inum ip) v (i_valid ip) ip.
Definition set_i_valid (v : Z) (ip : inode) : inode :=
  set_i_id (i_dev ip) (i_inum ip) (i_ref ip) v ip.
Definition set_i_lock (l : sleeplock) (ip : inode) : inode :=
  mkInode (i_dev ip) (i_inum ip) (i_ref ip) l (i_valid ip) (i_type ip) (i_major ip) (i_minor ip)
    (i_nlink ip) (i_size ip) (i_addrs ip).
Definition set_i_disk (type major minor nlink size : Z) (addrs : list Z) (ip : inode) : inode :=
  mkInode (i_dev ip) (i_inum ip) (i_ref ip) (i_lock ip) (i_valid ip) type major minor nlink size addrs.
Definition set_i_type (v : Z) (ip : inode) : inode :=
  set_i_disk v (i_major ip) (i_minor ip) (i_nlink ip) (i_size ip) (i_addrs ip) ip.
Definition set_i_nlink (v : Z) (ip : inode) : inode :=
  set_i_disk (i_type ip) (i_major ip) (i_minor ip) v (i_size ip) (i_addrs ip) ip.
Definition set_i_dev (major minor nlink : Z) (ip : inode) : inode :=
  set_i_disk (i_type ip) major minor nlink (i_size ip) (i_addrs ip) ip.
Definition set_i_size (v : Z) (ip : inode) : inode :=
  set_i_disk (i_type ip) (i_major ip) (i_minor ip) (i_nlink ip) v (i_addrs ip) ip.
Definition set_i_addrs (v : list Z) (ip : inode) : inode :=
  set_i_disk (i_type ip) (i_major ip) (i_minor ip) (i_nlink ip) (i_size ip) v ip.

Definition NULL : Z := -1.

Record fsys : Type := mkFsys {
  fs_log : lg;
  fs_sb : superblock;
  fs_itlock : bool;         (** itable.lock *)
  fs_inode : Z -> inode;    (** itable.inode *)
  fs_woken : list Z;        (** channels passed to wakeup() *)
  fs_vm : kst;              (** memory *)
  fs_out : list string;     (** lines printed on the console *)
}.

Definition put_log (l : lg) (s : fsys) : fsys :=
  mkFsys l (fs_sb s) (fs_itlock s) (fs_inode s) (fs_woken s) (fs_vm s) (fs_out s).
Definition put_inodes (f : Z -> inode) (s : fsys) : fsys :=
  mkFsys (fs_log s) (fs_sb s) (fs_itlock s) f (fs_woken s) (fs_vm s) (fs_out s).
Definition fsl : lens fsys lg := mkLens fs_log put_log.
Definition fvm : lens fsys kst :=
  mkLens fs_vm (fun v s => mkFsys (fs_log s) (fs_sb s) (fs_itlock s) (fs_inode s) (fs_woken s) v (fs_out s)).
Definition itable_lock : lens fsys bool :=
  mkLens fs_itlock (fun b s => mkFsys (fs_log s) (fs_sb s) b (fs_inode s) (fs_woken s) (fs_vm s) (fs_out s)).
Definition fwoken : lens fsys (list Z) :=
  mkLens fs_woken (fun w s => mkFsys (fs_log s) (fs_sb s) (fs_itlock s) (fs_inode s) w (fs_vm s) (fs_out s)).
Definition set_sb (sb : superblock) (s : fsys) : fsys :=
  mkFsys (fs_log s) sb (fs_itlock s) (fs_inode s) (fs_woken s) (fs_vm s) (fs_out s).
Definition printf_line (msg : string) : M fsys unit :=
  modify (fun s => mkFsys (fs_log s) (fs_sb s) (fs_itlock s) (fs_inode s) (fs_woken s) (fs_vm s)
                          (fs_out s ++ [msg])).

Definition ilk (ip : Z) : lens fsys sleeplock :=
  mkLens (fun s => i_lock (fs_inode s ip))
         (fun l s => put_inodes (fset (fs_inode s) ip (set_i_lock l (fs_inode s ip))) s).
Definition iget_field {A} (f : inode -> A) (ip : Z) : M fsys A := gets (fun s => f (fs_inode s ip)).
Definition iset (ip : Z) (f : inode -> inode) : M fsys unit :=
  modify (fun s => put_inodes (fset (fs_inode s) ip (f (fs_inode s ip))) s).

(** struct dinode at offset [off] of a block. *)
Definition get_addrs (d : list Z) (off : Z) (n : Z) : list Z :=
  map (fun i => get32 d (off + 4 * i)) (seqZ 0 n).
Definition put_addrs (off n : Z) (addrs : list Z) (d : list Z) : list Z :=
  fold_left (fun d i => put32 (off + 4 * i) (zget addrs i) d) (seqZ 0 n) d.

Definition get_dinode (d : list Z) (off : Z) (ip : inode) : inode :=
  set_i_disk (i16 (get16 d off)) (i16 (get16 d (off + 2))) (i16 (get16 d (off + 4)))
    (i16 (get16 d (off + 6))) (get32 d (off + 8)) (get_addrs d (off + 12) (NDIRECT + 1)) ip.

Definition put_dinode (ip : inode) (off : Z) (d : list Z) : list Z :=
  let d := put16 off (u16 (i_type ip)) d in
  let d := put16 (off + 2) (u16 (i_major ip)) d in
  let d := put16 (off + 4) (u16 (i_minor ip)) d in
  let d := put16 (off + 6) (u16 (i_nlink ip)) d in
  let d := put32 (off + 8) (i_size ip) d in
  put_addrs (off + 12) (NDIRECT + 1) (i_addrs ip) d.

(** A bit of the free map. *)
Definition bit_mask (bi : Z) : Z := Z.shiftl 1 (bi mod 8).
Definition bit_clear (d : list Z) (bi : Z) : bool := Z.land (zget d (bi / 8)) (bit_mask bi) =? 0.
Definition mark_bit (bi : Z) (d : list Z) : list Z :=
  zset (bi / 8) (u8 (Z.lor (zget d (bi / 8)) (bit_mask bi))) d.
Definition unmark_bit (bi : Z) (d : list Z) : list Z :=
  zset (bi / 8) (u8 (Z.land (zget d (bi / 8)) (Z.lnot (bit_mask bi)))) d.

(** The first index the scan accepts. *)
Fixpoint scan (f : Z -> bool) (n : nat) (i : Z) : option Z :=
  match n with
  | O => None
  | S n' => if f i then Some i else scan f n' (i + 1)
  end.

Section Fs.
Context (pid : Z) (pagetable : Z).

Definition bkm {A} (m : M bcache A) : M fsys A := zoom fsl (blk m).
Definition bread_ (dev b : Z) : M fsys Z := bkm (bread pid b).
Definition brelse_ (b : Z) : M fsys unit := bkm (brelse pid b).
Definition data_ (b : Z) : M fsys (list Z) := bkm (get_data b).
Definition store_ (b : Z) (d : list Z) : M fsys unit := bkm (set_data b d).
Definition log_write_ (b : Z) : M fsys unit := zoom fsl (log_write b).

(** ** Super block *)

Definition readsb (dev : Z) : M fsys unit :=
  let! bp := bread_ dev 1 in
  let! d := data_ bp in
  modify (set_sb (get_sb d)) ;;;
  brelse_ bp.

Definition fsinit (dev : Z) : M fsys unit :=
  readsb dev ;;;
  let! sb := gets fs_sb in
  if negb (sb_magic sb =? FSMAGIC) then panic "invalid file system"
  else zoom fsl (initlog pid (sb_logstart sb) (sb_nlog sb)).

(** ** Blocks *)

Definition bzero (dev bno : Z) : M fsys unit :=
  let! bp := bread_ dev bno in
  store_ bp zeroblock ;;;
  log_write_ bp ;;;
  brelse_ bp.

(** The blocks of the free map, and in each the bits below sb.size. *)
Definition balloc (dev : Z) : M fsys Z :=
  let! sb := gets fs_sb in
  let! r := for_first (map (Z.mul BPB) (seqZ 0 ((sb_size sb + BPB - 1) / BPB))) (fun b =>
    let! bp := bread_ dev (BBLOCK b sb) in
    let! d := data_ bp in
    match scan (bit_clear d) (Z.to_nat (Z.min BPB (sb_size sb - b))) 0 with
    | Some bi =>
        store_ bp (mark_bit bi d) ;;;     (* Mark block in use. *)
        log_write_ bp ;;;
        brelse_ bp ;;;
        bzero dev (b + bi) ;;;
        ret (Some (b + bi))
    | None =>
        brelse_ bp ;;;
        ret None
    end) in
  match r with
  | Some b => ret b
  | None => printf_line "balloc: out of blocks" ;;; ret 0
  end.

Definition bfree (dev b : Z) : M fsys unit :=
  let! sb := gets fs_sb in
  let! bp := bread_ dev (BBLOCK b sb) in
  let bi := b mod BPB in
  let! d := data_ bp in
  if bit_clear d bi then panic "freeing free block"
  else
    store_ bp (unmark_bit bi d) ;;;
    log_write_ bp ;;;
    brelse_ bp.

(** ** Inodes *)

Definition iinit : M fsys unit :=
  modify (lset itable_lock false) ;;;
  for_each (seqZ 0 NINODE) (fun i => initsleeplock (ilk i) "inode").

Definition iget (dev inum : Z) : M fsys Z :=
  acquire itable_lock ;;;
  let! tab := gets fs_inode in
  (* Is the inode already in the table? *)
  match scan (fun ip => (i_ref (tab ip) >? 0) && (i_dev (tab ip) =? dev) && (i_inum (tab ip) =? inum))
             (Z.to_nat NINODE) 0 with
  | Some ip =>
      iset ip (fun n => set_i_ref (i_ref n + 1) n) ;;;
      release itable_lock ;;;
      ret ip
  | None =>
      (* Recycle an inode entry. *)
      match scan (fun ip => i_ref (tab ip) =? 0) (Z.to_nat NINODE) 0 with
      | None => panic "iget: no inodes"
      | Some ip =>
          iset ip (set_i_id dev inum 1 0) ;;;
          release itable_lock ;;;
          ret ip
      end
  end.

Definition ialloc (dev type : Z) : M fsys Z :=
  let! sb := gets fs_sb in
  let! r := for_first (seqZ 1 (sb_ninodes sb - 1)) (fun inum =>
    let! bp := bread_ dev (IBLOCK inum sb) in
    let! d := data_ bp in
    let off := (inum mod IPB) * sizeof_dinode in
    if i16 (get16 d off) =? 0 then
      (* a free inode *)
      store_ bp (put16 off (u16 type) (splice off (replicate (Z.to_nat sizeof_dinode) 0) d)) ;;;
      log_write_ bp ;;;
      brelse_ bp ;;;
      let! ip := iget dev inum in
      ret (Some ip)
    else
      brelse_ bp ;;;
      ret None) in
  match r with
  | Some ip => ret ip
  | None => printf_line "ialloc: no inodes" ;;; ret NULL
  end.

(** Copy a modified in-memory inode to disk. *)
Definition iupdate (ip : Z) : M fsys unit :=
  let! sb := gets fs_sb in
  let! n := iget_field id ip in
  let! bp := bread_ (i_dev n) (IBLOCK (i_inum n) sb) in
  let! d := data_ bp in
  store_ bp (put_dinode n ((i_inum n mod IPB) * sizeof_dinode) d) ;;;
  log_write_ bp ;;;
  brelse_ bp.

Definition idup (ip : Z) : M fsys Z :=
  acquire itable_lock ;;;
  iset ip (fun n => set_i_ref (i_ref n + 1) n) ;;;
  release itable_lock ;;;
  ret ip.

Definition ilock (ip : Z) : M fsys unit :=
  let! ref := iget_field i_ref ip in
  if (ip =? NULL) || (ref <? 1) then panic "ilock"
  else
    acquiresleep (ilk ip) ip pid ;;;
    let! n := iget_field id ip in
    if i_valid n =? 0 then
      let! sb := gets fs_sb in
      let! bp := bread_ (i_dev n) (IBLOCK (i_inum n) sb) in
      let! d := data_ bp in
      iset ip (get_dinode d ((i_inum n mod IPB) * sizeof_dinode)) ;;;
      brelse_ bp ;;;
      iset ip (set_i_valid 1) ;;;
      let! t := iget_field i_type ip in
      if t =? 0 then panic "ilock: no type" else ret tt
    else ret tt.

Definition iunlock (ip : Z) : M fsys unit :=
  if ip =? NULL then panic "iunlock"
  else
    let! h := holdingsleep (ilk ip) pid in
    let! ref := iget_field i_ref ip in
    if negb h || (ref <? 1) then panic "iunlock"
    else releasesleep (ilk ip) fwoken ip.

(** ** Inode content *)

(** The disk block address of the nth block of the inode, allocated if there is
    none; 0 if out of disk space. *)
Definition bmap (ip bn : Z) : M fsys Z :=
  let! dev := iget_field i_dev ip in
  if bn <? NDIRECT then
    let! addr := iget_field (fun n => zget (i_addrs n) bn) ip in
    if addr =? 0 then
      let! addr := balloc dev in
      if addr =? 0 then ret 0
      else
        iset ip (fun n => set_i_addrs (zset bn addr (i_addrs n)) n) ;;;
        ret addr
    else ret addr
  else
    let bn := bn - NDIRECT in
    if bn <? NINDIRECT then
      (* Load indirect block, allocating if necessary. *)
      let! addr := iget_field (fun n => zget (i_addrs n) NDIRECT) ip in
      let! addr :=
        (if addr =? 0 then
           let! addr := balloc dev in
           if addr =? 0 then ret 0
           else
             iset ip (fun n => set_i_addrs (zset NDIRECT addr (i_addrs n)) n) ;;;
             ret addr
         else ret addr) in
      if addr =? 0 then ret 0
      else
        let! bp := bread_ dev addr in
        let! a := data_ bp in
        let addr := get32 a (4 * bn) in
        let! addr :=
          (if addr =? 0 then
             let! addr := balloc dev in
             (if negb (addr =? 0) then
                store_ bp (put32 (4 * bn) addr a) ;;;
                log_write_ bp
              else ret tt) ;;;
             ret addr
           else ret addr) in
        brelse_ bp ;;;
        ret addr
    else panic "bmap: out of range".

(** Truncate inode (discard contents). *)
Definition itrunc (ip : Z) : M fsys unit :=
  let! dev := iget_field i_dev ip in
  for_each (seqZ 0 NDIRECT) (fun i =>
    let! addr := iget_field (fun n => zget (i_addrs n) i) ip in
    if negb (addr =? 0) then
      bfree dev addr ;;;
      iset ip (fun n => set_i_addrs (zset i 0 (i_addrs n)) n)
    else ret tt) ;;;
  let! addr := iget_field (fun n => zget (i_addrs n) NDIRECT) ip in
  (if negb (addr =? 0) then
     let! bp := bread_ dev addr in
     for_each (seqZ 0 NINDIRECT) (fun j =>
       let! a := data_ bp in
       if negb (get32 a (4 * j) =? 0) then bfree dev (get32 a (4 * j)) else ret tt) ;;;
     brelse_ bp ;;;
     bfree dev addr ;;;
     iset ip (fun n => set_i_addrs (zset NDIRECT 0 (i_addrs n)) n)
   else ret tt) ;;;
  iset ip (set_i_size 0) ;;;
  iupdate ip.

(** Drop a reference to an in-memory inode. *)
Definition iput (ip : Z) : M fsys unit :=
  acquire itable_lock ;;;
  let! n := iget_field id ip in
  (if (i_ref n =? 1) && negb (i_valid n =? 0) && (i_nlink n =? 0) then
     (* inode has no links and no other references: truncate and free. *)
     acquiresleep (ilk ip) ip pid ;;;
     release itable_lock ;;;
     itrunc ip ;;;
     iset ip (set_i_type 0) ;;;
     iupdate ip ;;;
     iset ip (set_i_valid 0) ;;;
     releasesleep (ilk ip) fwoken ip ;;;
     acquire itable_lock
   else ret tt) ;;;
  iset ip (fun n => set_i_ref (i_ref n - 1) n) ;;;
  release itable_lock.

Definition iunlockput (ip : Z) : M fsys unit :=
  iunlock ip ;;;
  iput ip.

(** struct stat *)
Record stat : Type := mkStat {
  st_dev : Z;
  st_ino : Z;
  st_type : Z;
  st_nlink : Z;
  st_size : Z;
}.

Definition stati (ip : Z) : M fsys stat :=
  let! n := iget_field id ip in
  ret (mkStat (i_dev n) (i_inum n) (i_type n) (i_nlink n) (i_size n)).

(** Copy to or from either a user address or a kernel address. *)
Definition either_copyout (user_dst : bool) (dst : Z) (src : list Z) : M fsys Z :=
  if user_dst then zoom fvm (copyout pagetable dst src)
  else zoom fvm (upd_mem (write_bytes dst src)) ;;; ret 0.

Definition either_copyin (user_src : bool) (src len : Z) : M fsys (Z * list Z) :=
  if user_src then zoom fvm (copyin pagetable src len)
  else
    let! m := gets (fun s => k_mem (fs_vm s)) in
    ret (0, read_bytes (Z.to_nat len) src m).

(** The loop of readi(), over a destination of type [A]: an address, or a
    variable of the caller.  [out] is the copy of one block's bytes; it gives
    the destination advanced, or None if either_copyout() fails. *)
Definition readi_to {A} (out : A -> list Z -> M fsys (option A)) (ip : Z) (dst : A) (off n : Z)
    : M fsys (Z * A) :=
  let! dev := iget_field i_dev ip in
  let! size := iget_field i_size ip in
  if (off >? size) || (u32 (off + n) <? off) then ret (0, dst)
  else
    let n := if u32 (off + n) >? size then size - off else n in
    loop (S (Z.to_nat n))
      (fun '(tot, off, dst) =>
         if tot <? n then
           let! addr := bmap ip (off / BSIZE) in
           if addr =? 0 then ret (inr (tot, dst))
           else
             let! bp := bread_ dev addr in
             let m := Z.min (n - tot) (BSIZE - off mod BSIZE) in
             let! d := data_ bp in
             let! r := out dst (slice (off mod BSIZE) m d) in
             match r with
             | None => brelse_ bp ;;; ret (inr (-1, dst))
             | Some dst => brelse_ bp ;;; ret (inl (tot + m, off + m, dst))
             end
         else ret (inr (tot, dst)))
      (0, off, dst).

Definition out_addr (user_dst : bool) (dst : Z) (bs : list Z) : M fsys (option Z) :=
  let! r := either_copyout user_dst dst bs in
  ret (if r =? -1 then None else Some (u64 (dst + Z.of_nat (length bs)))).
Definition out_var (dst : list Z) (bs : list Z) : M fsys (option (list Z)) := ret (Some (dst ++ bs)).

Definition readi (ip : Z) (user_dst : bool) (dst off n : Z) : M fsys Z :=
  let! r := readi_to (out_addr user_dst) ip dst off n in ret r.1.
(** readi(ip, 0, &v, off, sizeof(v)) for a local variable v. *)
Definition readi_var (ip off n : Z) : M fsys (Z * list Z) := readi_to out_var ip [] off n.

(** The loop of writei(): [inp src m] is the copy of [m] bytes, with success or
    not, the bytes that reached the buffer, and the source advanced. *)
Definition writei_from {A} (inp : A -> Z -> M fsys (bool * list Z * A)) (ip : Z) (src : A) (off n : Z)
    : M fsys Z :=
  let! dev := iget_field i_dev ip in
  let! size := iget_field i_size ip in
  if (off >? size) || (u32 (off + n) <? off) then ret (-1)
  else if u32 (off + n) >? MAXFILE * BSIZE then ret (-1)
  else
    let! r := loop (S (Z.to_nat n))
      (fun '(tot, off, src) =>
         if tot <? n then
           let! addr := bmap ip (off / BSIZE) in
           if addr =? 0 then ret (inr (tot, off))
           else
             let! bp := bread_ dev addr in
             let m := Z.min (n - tot) (BSIZE - off mod BSIZE) in
             let! r := inp src m in
             let '(ok, bs, src) := r in
             let! d := data_ bp in
             store_ bp (splice (off mod BSIZE) bs d) ;;;
             if ok : bool then
               log_write_ bp ;;;
               brelse_ bp ;;;
               ret (inl (tot + m, off + m, src))
             else
               brelse_ bp ;;;
               ret (inr (tot, off))
         else ret (inr (tot, off)))
      (0, off, src) in
    let '(tot, off) := r in
    let! size := iget_field i_size ip in
    (if off >? size then iset ip (set_i_size off) else ret tt) ;;;
    iupdate ip ;;;
    ret tot.

Definition in_addr (user_src : bool) (src m : Z) : M fsys (bool * list Z * Z) :=
  let! r := either_copyin user_src src m in
  ret (negb (r.1 =? -1), r.2, u64 (src + m)).
Definition in_var (src : list Z) (m : Z) : M fsys (bool * list Z * list Z) :=
  ret (true, take (Z.to_nat m) src, drop (Z.to_nat m) src).

Definition writei (ip : Z) (user_src : bool) (src off n : Z) : M fsys Z :=
  writei_from (in_addr user_src) ip src off n.
(** writei(ip, 0, &v, off, sizeof(v)) for a local variable v. *)
Definition writei_var (ip : Z) (v : list Z) (off : Z) : M fsys Z :=
  writei_from in_var ip v off (Z.of_nat (length v)).

(** ** Directories *)

Definition namecmp (s t : list Z) : Z := strncmp (zget s) (zget t) DIRSIZ.

(** The entry, or [NULL], and the byte offset of the entry. *)
Definition dirlookup (dp : Z) (name : list Z) : M fsys (Z * Z) :=
  let! t := iget_field i_type dp in
  let! dev := iget_field i_dev dp in
  let! size := iget_field i_size dp in
  if negb (t =? T_DIR) then panic "dirlookup not DIR"
  else
    let! r := for_first (map (Z.mul sizeof_dirent) (seqZ 0 ((size + sizeof_dirent - 1) / sizeof_dirent)))
      (fun off =>
         let! r := readi_var dp off sizeof_dirent in
         if negb (r.1 =? sizeof_dirent) then panic "dirlookup read"
         else
           let de := get_dirent r.2 in
           if de_inum de =? 0 then ret None
           else if namecmp name (de_name de) =? 0 then
             (* entry matches path element *)
             let! ip := iget dev (de_inum de) in
             ret (Some (ip, off))
           else ret None) in
    match r with
    | Some r => ret r
    | None => ret (NULL, 0)
    end.

(** strncpy(de.name, name, DIRSIZ) *)
Fixpoint strncpy_name (k : nat) (name : list Z) (i : Z) : list Z :=
  match k with
  | O => []
  | S k' => if zget name i =? 0 then replicate k 0 else zget name i :: strncpy_name k' name (i + 1)
  end.

Definition dirlink (dp : Z) (name : list Z) (inum : Z) : M fsys Z :=
  (* Check that name is not present. *)
  let! r := dirlookup dp name in
  if negb (r.1 =? NULL) then
    iput r.1 ;;;
    ret (-1)
  else
    (* Look for an empty dirent. *)
    let! size := iget_field i_size dp in
    let! r := for_first (map (Z.mul sizeof_dirent) (seqZ 0 ((size + sizeof_dirent - 1) / sizeof_dirent)))
      (fun off =>
         let! r := readi_var dp off sizeof_dirent in
         if negb (r.1 =? sizeof_dirent) then panic "dirlink read"
         else if de_inum (get_dirent r.2) =? 0 then ret (Some off)
         else ret None) in
    let off := match r with
               | Some off => off
               | None => sizeof_dirent * ((size + sizeof_dirent - 1) / sizeof_dirent)
               end in
    let de := mkDirent inum (strncpy_name (Z.to_nat DIRSIZ) name 0) in
    let! w := writei_var dp (put_dirent de) off in
    if negb (w =? sizeof_dirent) then ret (-1) else ret 0.

(** ** Paths *)

(** A path is the bytes from the pointer on, up to the NUL at the latest. *)
Definition at_end (path : list Z) : bool :=
  match path with [] => true | c :: _ => c =? 0 end.
Definition SLASH : Z := 47.

Fixpoint skip_slash (path : list Z) : list Z :=
  match path with
  | c :: p => if c =? SLASH then skip_slash p else path
  | [] => []
  end.

(** The element up to the next slash or the end, and what follows it. *)
Fixpoint take_elem (path : list Z) : list Z * list Z :=
  match path with
  | c :: p => if (c =? SLASH) || (c =? 0) then ([], path)
              else let '(e, r) := take_elem p in (c :: e, r)
  | [] => ([], [])
  end.

(** The rest of the path and the new contents of the buffer [name]. *)
Definition skipelem (path name : list Z) : option (list Z * list Z) :=
  let path := skip_slash path in
  if at_end path then None
  else
    let '(s, path) := take_elem path in
    let len := Z.of_nat (length s) in
    let name := if len >=? DIRSIZ then splice 0 (take (Z.to_nat DIRSIZ) s) name
                else zset len 0 (splice 0 s name) in
    Some (skip_slash path, name).

Section Names.
Context (cwd : Z).

(** The inode, or [NULL], and the final contents of [name]. *)
Definition namex (path : list Z) (nameiparent : bool) (name : list Z) : M fsys (Z * list Z) :=
  let! ip := (match path with
              | c :: _ => if c =? SLASH then iget ROOTDEV ROOTINO else idup cwd
              | [] => idup cwd
              end) in
  let! r := loop (S (length path))
    (fun '(path, name, ip) =>
       match skipelem path name with
       | Some (path, name) =>
           ilock ip ;;;
           let! t := iget_field i_type ip in
           if negb (t =? T_DIR) then
             iunlockput ip ;;;
             ret (inr (inl (NULL, name)))
           else if nameiparent && at_end path then
             (* Stop one level early. *)
             iunlock ip ;;;
             ret (inr (inl (ip, name)))
           else
             let! r := dirlookup ip name in
             if r.1 =? NULL then
               iunlockput ip ;;;
               ret (inr (inl (NULL, name)))
             else
               iunlockput ip ;;;
               ret (inl (path, name, r.1))
       | None => ret (inr (inr (ip, name)))
       end)
    (path, name, ip) in
  match r with
  | inl r => ret r
  | inr (ip, name) =>
      if nameiparent : bool then
        iput ip ;;;
        ret (NULL, name)
      else ret (ip, name)
  end.

Definition namei (path : list Z) : M fsys Z :=
  let! r := namex path false (replicate (Z.to_nat DIRSIZ) 0) in ret r.1.

Definition nameiparent (path name : list Z) : M fsys (Z * list Z) := namex path true name.
End Names.
End Fs.
