(* ===== verification/FsView.v ===== *)
(** Blocks as the file system sees them.

    [fsok H w V l]: inside a transaction, with no other process using the
    cache, the running process has the buffers of the blocks [H] locked, may
    add [w] more blocks to the transaction, and sees the contents [V].  Each
    block operation has a rule that says how [H], [w] and [V] change; the
    proofs about the file system use these rules only. *)

From S2P Require Import Prelude Riscv CString Kalloc Vm Sleeplock Fields BlockCache Log.
From S2P Require Import LogProps LogSpace Fs.

#[global] Instance in_log_dec l b : Decision (in_log l b).
Proof. unfold in_log. apply _. Defined.

Lemma size_list_to_set_le (l : list Z) : (size (list_to_set l : gset Z) <= length l)%nat.
Proof.
  induction l as [|x l IH]; [by rewrite list_to_set_nil, size_empty|].
  rewrite list_to_set_cons. simpl length.
  pose proof (size_union_alt ({[x]} : gset Z) (list_to_set l)) as Hu. rewrite size_singleton in Hu.
  pose proof (subseteq_size (list_to_set l ∖ {[x]} : gset Z) (list_to_set l) ltac:(set_solver)). lia.
Qed.

Section View.
Context (pid : Z).

Record fsok (H : gset Z) (w : Z) (V : Z -> list Z) (l : lg) : Prop := {
  fo_lock : l_lock l = false;
  fo_out : 1 <= l_outstanding l;
  fo_n : 0 <= l_n l;
  fo_w : 0 <= w;
  fo_max : l_n l + w <= LOGSIZE;
  fo_size : l_n l + w < l_size l;
  fo_len : length (l_block l) = Z.to_nat LOGSIZE;
  fo_room : l_n l + w + 3 <= NBUF;
  fo_held : forall b, b ∈ H -> exists c, ca_buf (l_bc l) !! b = Some c;
  fo_cached : forall b c, ca_buf (l_bc l) !! b = Some c ->
    cb_owner c = (if decide (b ∈ H) then Some pid else None) /\
    cb_ref c = (if decide (b ∈ H) then 1 else 0) + (if decide (in_log l b) then 1 else 0) /\
    (b ∈ H \/ in_log l b);
  fo_logged : forall b, in_log l b -> exists c, ca_buf (l_bc l) !! b = Some c;
  fo_clean : forall b c, ca_buf (l_bc l) !! b = Some c -> ~ in_log l b ->
    cb_data c = d_block (ca_disk (l_bc l)) b;
  fo_view : forall b, bview (l_bc l) b = V b;
}.

(** The cache holds no more than the logged and the locked blocks. *)
Lemma fsok_cache_size H w V l :
  fsok H w V l -> Z.of_nat (size (ca_buf (l_bc l))) <= l_n l + Z.of_nat (size H).
Proof.
  intros Hok. pose proof (fo_n _ _ _ _ Hok).
  assert (Hsub : dom (ca_buf (l_bc l)) ⊆ H ∪ list_to_set (take (Z.to_nat (l_n l)) (l_block l))).
  { intros b Hb. apply elem_of_dom in Hb as [c Hc].
    destruct (fo_cached _ _ _ _ Hok b c Hc) as (_ & _ & [Hb|Hb]); [set_solver|].
    apply elem_of_union. right. by apply elem_of_list_to_set. }
  apply subseteq_size in Hsub. rewrite size_dom in Hsub.
  pose proof (size_union_alt H (list_to_set (take (Z.to_nat (l_n l)) (l_block l)) : gset Z)) as Hu.
  assert (Hd : (size (list_to_set (take (Z.to_nat (l_n l)) (l_block l)) ∖ H : gset Z)
                <= Z.to_nat (l_n l))%nat).
  { etrans; [apply (subseteq_size _ (list_to_set (take (Z.to_nat (l_n l)) (l_block l)))); set_solver|].
    etrans; [apply size_list_to_set_le|]. rewrite length_take. lia. }
  lia.
Qed.

(** Replacing the cache's entry for one block. *)
Lemma fsok_entry H w V l H' V' m' b :
  fsok H w V l ->
  (forall x, x <> b -> m' !! x = ca_buf (l_bc l) !! x) ->
  (forall x, x <> b -> (x ∈ H' <-> x ∈ H)) ->
  (forall x, x <> b -> V' x = V x) ->
  match m' !! b with
  | Some c =>
      cb_owner c = (if decide (b ∈ H') then Some pid else None) /\
      cb_ref c = (if decide (b ∈ H') then 1 else 0) + (if decide (in_log l b) then 1 else 0) /\
      (b ∈ H' \/ in_log l b) /\
      (~ in_log l b -> cb_data c = d_block (ca_disk (l_bc l)) b) /\ V' b = cb_data c
  | None => (b ∉ H') /\ (~ in_log l b) /\ V' b = d_block (ca_disk (l_bc l)) b
  end ->
  fsok H' w V' (put_bc (set_ca_buf m' (l_bc l)) l).
Proof.
  intros [H1 H2 H3 Hw H4 H5 H6 H7 Hheld Hcach Hlog Hcl Hv] Hm HH HV Hb.
  assert (Hil : forall x, in_log (put_bc (set_ca_buf m' (l_bc l)) l) x <-> in_log l x) by done.
  split; try done.
  - intros x Hx. cbn. destruct (decide (x = b)) as [->|Hne].
    + destruct (m' !! b); [by eexists|]. by destruct Hb.
    + rewrite Hm by done. by apply Hheld, HH.
  - intros x c. cbn. destruct (decide (x = b)) as [->|Hne]; intros Hc.
    + rewrite Hc in Hb. destruct Hb as (? & ? & ? & _). split_and!; try done. 
    + rewrite Hm in Hc by done. destruct (Hcach x c Hc) as (Ho & Hr & Hi).
      pose proof (HH x Hne). split_and!; [| |tauto].
      * destruct (decide (x ∈ H')), (decide (x ∈ H)); tauto.
      * rewrite Hr. f_equal. destruct (decide (x ∈ H')), (decide (x ∈ H)); tauto.
  - intros x Hx. cbn. destruct (decide (x = b)) as [->|Hne].
    + destruct (m' !! b); [by eexists|]. by destruct Hb as (_ & Hb & _).
    + rewrite Hm by done. by apply Hlog.
  - intros x c. cbn. destruct (decide (x = b)) as [->|Hne]; intros Hc Hn.
    + rewrite Hc in Hb. by apply Hb.
    + rewrite Hm in Hc by done. by apply Hcl.
  - intros x. unfold bview. cbn. destruct (decide (x = b)) as [->|Hne].
    + destruct (m' !! b); symmetry; apply Hb.
    + rewrite Hm, HV by done. rewrite <- Hv. done.
Qed.

Lemma fsok_weaken H w w' V l : fsok H w V l -> 0 <= w' <= w -> fsok H w' V l.
Proof. intros [] Hw. split; try done; lia. Qed.

Lemma fsok_ext H w V V' l : (forall b, V b = V' b) -> fsok H w V l -> fsok H w V' l.
Proof. intros He []. split; try done. intros b. rewrite <- He. done. Qed.

Lemma fsok_bread H w V l b (Q : Z -> lg -> Prop) :
  fsok H w V l -> b ∉ H -> (size H <= 2)%nat ->
  (forall l', fsok ({[b]} ∪ H) w V l' -> Q b l') -> wp (blk (bread pid b)) Q l.
Proof.
  intros Hok Hb Hsz HQ. pose proof (fsok_cache_size _ _ _ _ Hok) as Hcs.
  pose proof (fo_view _ _ _ _ Hok b) as Hv. unfold bview in Hv.
  unfold blk. apply wp_zoom. cbn [lget log_bc].
  assert (Hin : b ∈ {[b]} ∪ H) by set_solver.
  destruct (ca_buf (l_bc l) !! b) as [c|] eqn:Ec.
  - destruct (fo_cached _ _ _ _ Hok b c Ec) as (Ho & Hr & Hi). rewrite decide_False in Ho by done.
    rewrite (decide_False (P := b ∈ H)) in Hr by done.
    eapply wp_bread_hit; [exact Ec|done|]. apply HQ.
    eapply (fsok_entry _ _ _ _ _ _ _ b); [exact Hok|by intros; rewrite lookup_insert_ne|set_solver|done|].
    rewrite lookup_insert_eq. cbn. rewrite (decide_True (P := b ∈ {[b]} ∪ H)), (decide_True (P := b ∈ {[b]} ∪ H)) by done.
    split_and!; [done|lia|by left| |done]. intros. by apply (fo_clean _ _ _ _ Hok).
  - apply wp_bread_miss; [exact Ec|pose proof (fo_room _ _ _ _ Hok); pose proof (fo_w _ _ _ _ Hok); lia|].
    apply HQ.
    assert (~ in_log l b). { intros Hl. destruct (fo_logged _ _ _ _ Hok b Hl). congruence. }
    eapply (fsok_entry _ _ _ _ _ _ _ b); [exact Hok|by intros; rewrite lookup_insert_ne|set_solver|done|].
    rewrite lookup_insert_eq. cbn. rewrite (decide_True (P := b ∈ {[b]} ∪ H)), (decide_True (P := b ∈ {[b]} ∪ H)) by done.
    rewrite decide_False by done. split_and!; [done|done|by left|done|done].
Qed.

Lemma fsok_get H w V l b (Q : list Z -> lg -> Prop) :
  fsok H w V l -> b ∈ H -> Q (V b) l -> wp (blk (get_data b)) Q l.
Proof.
  intros Hok Hb HQ. destruct (fo_held _ _ _ _ Hok b Hb) as [c Hc].
  unfold blk. apply wp_zoom. cbn [lget log_bc].
  eapply wp_get_data; [exact Hc|]. pose proof (fo_view _ _ _ _ Hok b) as Hv. unfold bview in Hv.
  rewrite Hc in Hv. rewrite Hv. by destruct l.
Qed.

Lemma fsok_brelse H w V l b (Q : unit -> lg -> Prop) :
  fsok H w V l -> b ∈ H -> (forall l', fsok (H ∖ {[b]}) w V l' -> Q tt l') ->
  wp (blk (brelse pid b)) Q l.
Proof.
  intros Hok Hb HQ. destruct (fo_held _ _ _ _ Hok b Hb) as [c Hc].
  pose proof (fo_view _ _ _ _ Hok b) as Hv. unfold bview in Hv. rewrite Hc in Hv.
  destruct (fo_cached _ _ _ _ Hok b c Hc) as (Ho & Hr & Hi). rewrite decide_True in Ho by done.
  rewrite (decide_True (P := b ∈ H)) in Hr by done.
  assert (Hn : b ∉ H ∖ {[b]}) by set_solver.
  unfold blk. apply wp_zoom. cbn [lget log_bc]. eapply wp_brelse; [exact Hc|done|]. apply HQ.
  unfold unref. cbn [cb_ref cb_data cb_owner].
  destruct (decide (in_log l b)) as [Hl|Hl]; (destruct (Z.eqb_spec (cb_ref c) 1); [try lia|try lia]).
  - eapply (fsok_entry _ _ _ _ _ _ _ b); [exact Hok|by intros; rewrite lookup_insert_ne|set_solver|done|].
    rewrite lookup_insert_eq. cbn. rewrite (decide_False (P := b ∈ H ∖ {[b]})), (decide_False (P := b ∈ H ∖ {[b]})), decide_True by done.
    split_and!; [done|lia|by right|done|done].
  - eapply (fsok_entry _ _ _ _ _ _ _ b); [exact Hok|by intros; rewrite lookup_delete_ne|set_solver|done|].
    rewrite lookup_delete_eq. split_and!; [done|done|]. rewrite <- Hv. by apply (fo_clean _ _ _ _ Hok).
Qed.

(** b->data changed and logged. *)
Lemma fsok_update H w V l b d (Q : unit -> lg -> Prop) :
  fsok H w V l -> b ∈ H -> 0 < w ->
  (forall l', fsok H (w - 1) (fset V b d) l' -> Q tt l') ->
  wp (blk (set_data b d) ;;; log_write b) Q l.
Proof.
  intros Hok Hb Hw HQ. destruct (fo_held _ _ _ _ Hok b Hb) as [c Hc].
  pose proof Hok as [H1 H2 H3 _ H4 H5 H6 H7 Hheld Hcach Hlog Hcl Hv].
  destruct (Hcach b c Hc) as (Ho & Hr & Hi). rewrite decide_True in Ho by done.
  rewrite (decide_True (P := b ∈ H)) in Hr by done.
  unfold blk. apply wp_bind, wp_zoom. cbn [lget log_bc].
  eapply wp_set_data; [exact Hc|]. set (m1 := <[b := _]> _).
  eapply log_write_spec with (c := mkCbuf d (cb_ref c) (cb_owner c)); try done.
  - cbn. lia.
  - cbn. lia.
  - cbn. unfold m1. by rewrite lookup_insert_eq.
  - intros Hil. apply HQ. apply fsok_weaken with w; [|lia].
    eapply (fsok_entry _ _ _ _ _ _ _ b); [exact Hok|by intros; unfold m1; rewrite lookup_insert_ne|done| |].
    + intros x Hx. by apply fset_ne.
    + unfold m1. rewrite lookup_insert_eq. cbn. rewrite (decide_True (P := b ∈ H)), (decide_True (P := b ∈ H)) by done.
      split_and!; [done|done|by left|done|apply fset_eq].
  - intros Hil. change (~ in_log l b) in Hil. apply HQ. set (l' := set_l_n _ _).
    assert (Htk : forall x, in_log l' x <-> in_log l x \/ x = b).
    { intros x. unfold in_log. change (l_block l') with (zset (l_n l) b (l_block l)).
      change (l_n l') with (l_n l + 1). rewrite take_zset by lia.
      rewrite elem_of_app, list_elem_of_singleton. done. }
    assert (Hm : forall x, ca_buf (l_bc l') !! x =
      if decide (x = b) then Some (mkCbuf d (cb_ref c + 1) (cb_owner c)) else ca_buf (l_bc l) !! x).
    { intros x. cbn. unfold m1. destruct (decide (x = b)) as [->|Hx]; [by rewrite lookup_insert_eq|].
      by rewrite !lookup_insert_ne. }
    rewrite decide_False in Hr by done.
    split; try done; try (cbn -[LOGSIZE NBUF]; rewrite ?length_zset; lia).
    + intros x Hx. rewrite Hm. destruct (decide (x = b)); [by eexists|by apply Hheld].
    + intros x c'. rewrite Hm. destruct (decide (x = b)) as [->|Hx]; intros Hc'; simplify_eq/=.
      * rewrite (decide_True (P := b ∈ H)), (decide_True (P := b ∈ H)) by done. rewrite decide_True by (apply Htk; by right).
        split_and!; [done|lia|by left].
      * destruct (Hcach x c' Hc') as (Hox & Hrx & Hix). split_and!; [done| |rewrite Htk; tauto].
        rewrite Hrx. f_equal. specialize (Htk x).
        destruct (decide (in_log l x)), (decide (in_log l' x)); tauto.
    + intros x Hx. rewrite Hm. destruct (decide (x = b)) as [->|Hxb]; [by eexists|].
      apply Htk in Hx as [Hx|Hx]; [by apply Hlog|done].
    + intros x c'. rewrite Hm. destruct (decide (x = b)) as [->|Hx]; intros Hc' Hn.
      * exfalso. apply Hn, Htk. by right.
      * apply Hcl; [done|]. intros Hl. apply Hn, Htk. by left.
    + intros x. unfold bview. rewrite Hm. destruct (decide (x = b)) as [->|Hx].
      * cbn. by rewrite fset_eq.
      * rewrite fset_ne by done. rewrite <- Hv. done.
Qed.
End View.

(** * The same rules for the file system's state *)

Section FsRules.
Context (pid : Z).

Lemma wp_bread_ H w V s dev b (Q : Z -> fsys -> Prop) :
  fsok pid H w V (fs_log s) -> b ∉ H -> (size H <= 2)%nat ->
  (forall l', fsok pid ({[b]} ∪ H) w V l' -> Q b (put_log l' s)) -> wp (bread_ pid dev b) Q s.
Proof. intros. unfold bread_, bkm. apply wp_zoom. eapply fsok_bread; eauto. Qed.

Lemma wp_data_ H w V s b (Q : list Z -> fsys -> Prop) :
  fsok pid H w V (fs_log s) -> b ∈ H -> Q (V b) s -> wp (data_ b) Q s.
Proof.
  intros. unfold data_, bkm. apply wp_zoom. eapply fsok_get; [done|done|]. cbn. by destruct s.
Qed.

Lemma wp_brelse_ H w V s b (Q : unit -> fsys -> Prop) :
  fsok pid H w V (fs_log s) -> b ∈ H ->
  (forall l', fsok pid (H ∖ {[b]}) w V l' -> Q tt (put_log l' s)) -> wp (brelse_ pid b) Q s.
Proof. intros. unfold brelse_, bkm. apply wp_zoom. eapply fsok_brelse; eauto. Qed.

Lemma wp_update_ {A} H w V s b d (k : M fsys A) (Q : A -> fsys -> Prop) :
  fsok pid H w V (fs_log s) -> b ∈ H -> 0 < w ->
  (forall l', fsok pid H (w - 1) (fset V b d) l' -> wp k Q (put_log l' s)) ->
  wp (store_ b d ;;; log_write_ b ;;; k) Q s.
Proof.
  intros Hok Hb Hw HQ. unfold store_, log_write_, bkm.
  pose proof (fsok_update pid H w V (fs_log s) b d
    (fun _ l' => wp k Q (put_log l' s)) Hok Hb Hw HQ) as Hu.
  apply wp_bind_inv in Hu. apply wp_bind, wp_zoom. eapply wp_mono; [exact Hu|].
  cbn beta. intros [] l1 H1. apply wp_bind, wp_zoom. exact H1.
Qed.

Lemma wp_update_' H w V s b d (Q : unit -> fsys -> Prop) :
  fsok pid H w V (fs_log s) -> b ∈ H -> 0 < w ->
  (forall l', fsok pid H (w - 1) (fset V b d) l' -> Q tt (put_log l' s)) ->
  wp (store_ b d ;;; log_write_ b) Q s.
Proof.
  intros Hok Hb Hw HQ. unfold store_, log_write_, bkm.
  pose proof (fsok_update pid H w V (fs_log s) b d
    (fun _ l' => Q tt (put_log l' s)) Hok Hb Hw HQ) as Hu.
  apply wp_bind_inv in Hu. apply wp_bind, wp_zoom. eapply wp_mono; [exact Hu|].
  cbn beta. intros [] l1 H1. apply wp_zoom. eapply wp_mono; [exact H1|]. by intros [].
Qed.

Lemma rel_union (H : gset Z) b : b ∉ H -> ({[b]} ∪ H) ∖ {[b]} = H.
Proof. set_solver. Qed.
End FsRules.
