(* ===== verification/FsAlloc.v ===== *)
(** The block allocator of the file system: the free map as a set of blocks,
    balloc() and bfree(). *)

From S2P Require Import Prelude Riscv CString Kalloc Vm Sleeplock Fields BlockCache Log.
From S2P Require Import LogProps LogSpace Fs FsView.

(** * Bits *)

Lemma land_bit x k : 0 <= k -> (Z.land x (Z.shiftl 1 k) =? 0) = negb (Z.testbit x k).
Proof.
  intros Hk. rewrite Z.shiftl_1_l.
  destruct (Z.testbit x k) eqn:E; simpl.
  - apply Z.eqb_neq. intros H0. apply (f_equal (fun z => Z.testbit z k)) in H0.
    rewrite Z.land_spec, Z.pow2_bits_true, E, Z.bits_0 in H0 by lia. done.
  - apply Z.eqb_eq. apply Z.bits_inj'. intros n Hn. rewrite Z.land_spec, Z.bits_0.
    destruct (decide (n = k)) as [->|Hne]; [by rewrite E|].
    rewrite Z.pow2_bits_false by lia. apply andb_false_r.
Qed.

Lemma bit_clear_testbit d bi :
  bit_clear d bi = negb (Z.testbit (zget d (bi / 8)) (bi mod 8)).
Proof. unfold bit_clear, bit_mask. apply land_bit. apply Z.mod_pos_bound. lia. Qed.

Lemma testbit_u8 x k : 0 <= k < 8 -> Z.testbit (u8 x) k = Z.testbit x k.
Proof. intros. unfold u8. apply Z.mod_pow2_bits_low. lia. Qed.

(** Setting a bit changes that bit only. *)
Lemma bit_clear_mark d bi bj :
  0 <= bi < 8 * Z.of_nat (length d) -> 0 <= bj ->
  bit_clear (mark_bit bi d) bj = if bj =? bi then false else bit_clear d bj.
Proof.
  intros Hi Hj. rewrite !bit_clear_testbit. unfold mark_bit, bit_mask.
  divmod bi 8. divmod bj 8. rewrite zget_zset by lia.
  destruct (Z.eqb_spec q0 q) as [->|Hq].
  - rewrite testbit_u8, Z.lor_spec, Z.shiftl_1_l by lia.
    destruct (Z.eqb_spec bj bi) as [He|Hne].
    + replace r0 with r by lia. rewrite Z.pow2_bits_true by lia. by rewrite orb_true_r.
    + rewrite Z.pow2_bits_false by lia. by rewrite orb_false_r.
  - destruct (Z.eqb_spec bj bi); [lia|done].
Qed.

Lemma bit_clear_unmark d bi bj :
  0 <= bi < 8 * Z.of_nat (length d) -> 0 <= bj ->
  bit_clear (unmark_bit bi d) bj = if bj =? bi then true else bit_clear d bj.
Proof.
  intros Hi Hj. rewrite !bit_clear_testbit. unfold unmark_bit, bit_mask.
  divmod bi 8. divmod bj 8. rewrite zget_zset by lia.
  destruct (Z.eqb_spec q0 q) as [->|Hq].
  - rewrite testbit_u8, Z.land_spec, Z.lnot_spec, Z.shiftl_1_l by lia.
    destruct (Z.eqb_spec bj bi) as [He|Hne].
    + replace r0 with r by lia. rewrite Z.pow2_bits_true by lia. by rewrite andb_false_r.
    + rewrite Z.pow2_bits_false by lia. by rewrite andb_true_r.
  - destruct (Z.eqb_spec bj bi); [lia|done].
Qed.

Lemma scan_spec f n i :
  match scan f n i with
  | Some j => i <= j < i + Z.of_nat n /\ f j = true /\ forall k, i <= k < j -> f k = false
  | None => forall k, i <= k < i + Z.of_nat n -> f k = false
  end.
Proof.
  revert i. induction n as [|n IH]; intros i; simpl; [intros; lia|].
  destruct (f i) eqn:E; [split_and!; [lia|lia|done|lia]|].
  specialize (IH (i + 1)). destruct (scan f n (i + 1)) as [j|].
  - destruct IH as (Hj & Hf & Hk). split_and!; [lia|lia|done|]. intros k Hki.
    destruct (decide (k = i)) as [->|Hne]; [done|]. apply Hk. lia.
  - intros k Hk. destruct (decide (k = i)) as [->|Hne]; [done|]. apply IH. lia.
Qed.

(** * The free map *)

Definition used (sb : superblock) (V : Z -> list Z) (b : Z) : bool :=
  negb (bit_clear (V (BBLOCK b sb)) (b mod BPB)).

Definition is_map (sb : superblock) (x : Z) : Prop := exists b, 0 <= b < sb_size sb /\ x = BBLOCK b sb.

(** The blocks of the map are whole and are themselves marked as used. *)
Record map_ok (sb : superblock) (V : Z -> list Z) : Prop := {
  mo_len : forall x, is_map sb x -> length (V x) = Z.to_nat BSIZE;
  mo_used : forall x, is_map sb x -> 0 <= x < sb_size sb -> used sb V x = true;
}.

(** The contents after block [b] is allocated, and after it is freed. *)
Definition alloc_view (sb : superblock) (V : Z -> list Z) (b : Z) : Z -> list Z :=
  fset (fset V (BBLOCK b sb) (mark_bit (b mod BPB) (V (BBLOCK b sb)))) b zeroblock.
Definition free_view (sb : superblock) (V : Z -> list Z) (b : Z) : Z -> list Z :=
  fset V (BBLOCK b sb) (unmark_bit (b mod BPB) (V (BBLOCK b sb))).

Lemma BBLOCK_inj sb x y : BBLOCK x sb = BBLOCK y sb -> x mod BPB = y mod BPB -> x = y.
Proof.
  unfold BBLOCK. intros H1 H2. pose proof (Z_div_mod_decomp x BPB ltac:(done)).
  pose proof (Z_div_mod_decomp y BPB ltac:(done)). lia.
Qed.

Lemma mod_BPB b : 0 <= b mod BPB < 8 * Z.of_nat (Z.to_nat BSIZE).
Proof. pose proof (Z.mod_pos_bound b BPB ltac:(done)). unfold BPB, BSIZE in *. lia. Qed.

Lemma used_alloc sb V b x :
  map_ok sb V -> 0 <= b < sb_size sb -> used sb V b = false -> 0 <= x < sb_size sb ->
  used sb (alloc_view sb V b) x = (x =? b) || used sb V x.
Proof.
  intros [Hl Hm] Hb Hf Hx. assert (Hbm : ~ is_map sb b) by (intros Hmb; rewrite Hm in Hf by done; done).
  assert (Hne : BBLOCK x sb <> b) by (intros <-; apply Hbm; by exists x).
  unfold used, alloc_view. rewrite (fset_ne _ b) by done.
  destruct (fset_case V (BBLOCK b sb) (mark_bit (b mod BPB) (V (BBLOCK b sb))) (BBLOCK x sb))
    as [[He ->]|[He ->]].
  - rewrite bit_clear_mark by (rewrite ?Hl by (by exists b); pose proof (mod_BPB b); pose proof (mod_BPB x); lia).
    rewrite <- He. destruct (Z.eqb_spec (x mod BPB) (b mod BPB)) as [Hm'|Hm'].
    + rewrite (BBLOCK_inj sb x b He Hm'). by rewrite Z.eqb_refl.
    + destruct (Z.eqb_spec x b) as [->|]; done.
  - destruct (Z.eqb_spec x b) as [->|]; done.
Qed.

Lemma used_free sb V b x :
  map_ok sb V -> 0 <= b < sb_size sb -> 0 <= x < sb_size sb ->
  used sb (free_view sb V b) x = negb (x =? b) && used sb V x.
Proof.
  intros [Hl Hm] Hb Hx. unfold used, free_view.
  destruct (fset_case V (BBLOCK b sb) (unmark_bit (b mod BPB) (V (BBLOCK b sb))) (BBLOCK x sb))
    as [[He ->]|[He ->]].
  - rewrite bit_clear_unmark by (rewrite ?Hl by (by exists b); pose proof (mod_BPB b); pose proof (mod_BPB x); lia).
    rewrite <- He. destruct (Z.eqb_spec (x mod BPB) (b mod BPB)) as [Hm'|Hm'].
    + rewrite (BBLOCK_inj sb x b He Hm'). by rewrite Z.eqb_refl.
    + destruct (Z.eqb_spec x b) as [->|]; done.
  - destruct (Z.eqb_spec x b) as [->|]; done.
Qed.

Lemma map_ok_alloc sb V b :
  map_ok sb V -> 0 <= b < sb_size sb -> used sb V b = false -> map_ok sb (alloc_view sb V b).
Proof.
  intros Hok Hb Hf. pose proof Hok as [Hl Hm]. split.
  - intros x Hx. unfold alloc_view.
    destruct (fset_case (fset V (BBLOCK b sb) (mark_bit (b mod BPB) (V (BBLOCK b sb)))) b zeroblock x)
      as [[-> ->]|[_ ->]]; [done|].
    destruct (fset_case V (BBLOCK b sb) (mark_bit (b mod BPB) (V (BBLOCK b sb))) x) as [[-> ->]|[_ ->]];
      [|by apply Hl]. unfold mark_bit. rewrite length_zset. apply Hl. by exists b.
  - intros x Hx Hr. rewrite used_alloc by done. rewrite Hm by done. apply orb_true_r.
Qed.

Lemma map_ok_free sb V b :
  map_ok sb V -> 0 <= b < sb_size sb -> ~ is_map sb b -> map_ok sb (free_view sb V b).
Proof.
  intros Hok Hb Hnb. pose proof Hok as [Hl Hm]. split.
  - intros x Hx. unfold free_view.
    destruct (fset_case V (BBLOCK b sb) (unmark_bit (b mod BPB) (V (BBLOCK b sb))) x) as [[-> ->]|[_ ->]];
      [|by apply Hl]. unfold unmark_bit. rewrite length_zset. apply Hl. by exists b.
  - intros x Hx Hr. rewrite used_free by done. rewrite Hm by done.
    destruct (Z.eqb_spec x b) as [->|]; done.
Qed.

(** * balloc() and bfree() *)

Definition printed (msg : string) (s : fsys) : fsys :=
  mkFsys (fs_log s) (fs_sb s) (fs_itlock s) (fs_inode s) (fs_woken s) (fs_vm s) (fs_out s ++ [msg]).

Section Alloc.
Context (pid : Z).

Lemma bzero_spec H w V s dev b (Q : unit -> fsys -> Prop) :
  fsok pid H w V (fs_log s) -> b ∉ H -> (size H <= 2)%nat -> 0 < w ->
  (forall l', fsok pid H (w - 1) (fset V b zeroblock) l' -> Q tt (put_log l' s)) ->
  wp (bzero pid dev b) Q s.
Proof.
  intros Hok Hb Hsz Hw HQ. unfold bzero.
  apply wp_bind. eapply wp_bread_; [done|done|done|]. intros l1 H1.
  eapply wp_update_; [exact H1|set_solver|done|]. intros l2 H2.
  eapply wp_brelse_; [exact H2|set_solver|]. intros l3 H3. rewrite rel_union in H3 by done.
  by apply HQ.
Qed.

Lemma balloc_spec H w V s dev (Q : Z -> fsys -> Prop) :
  let sb := fs_sb s in
  fsok pid H w V (fs_log s) -> (size H <= 2)%nat -> 2 <= w -> map_ok sb V ->
  (forall x, is_map sb x -> x ∉ H) ->
  (forall b, 0 <= b < sb_size sb -> used sb V b = false -> b ∉ H) ->
  (forall b l', 0 <= b < sb_size sb -> used sb V b = false ->
     (forall x, 0 <= x < b -> used sb V x = true) ->
     fsok pid H (w - 2) (alloc_view sb V b) l' -> Q b (put_log l' s)) ->
  ((forall x, 0 <= x < sb_size sb -> used sb V x = true) ->
   forall l', fsok pid H w V l' -> Q 0 (printed "balloc: out of blocks" (put_log l' s))) ->
  wp (balloc pid dev) Q s.
Proof.
  intros sb Hok Hsz Hw Hmap HmH HfH HQ HQ0. unfold balloc. apply wp_bind, wp_gets. fold sb. apply wp_bind.
  apply (wp_for_first (fun done _ s' => exists l', s' = put_log l' s /\ fsok pid H w V l' /\
           forall x, 0 <= x < sb_size sb -> x < BPB * Z.of_nat (length done) -> used sb V x = true)).
  - exists (fs_log s). split; [by destruct s|]. split; [done|]. cbn. lia.
  - intros done b todo s' Hl (l' & -> & Hok' & Hlow).
    assert (Hb : b = BPB * Z.of_nat (length done) /\ b < sb_size sb).
    { assert (Hlk : map (Z.mul BPB) (seqZ 0 ((sb_size sb + BPB - 1) / BPB)) !! length done = Some b).
      { rewrite Hl. by apply list_lookup_middle. }
      apply list_lookup_fmap_Some_1 in Hlk as (i & -> & Hi). apply lookup_seqZ in Hi as [-> Hi].
      split; [done|]. pose proof (Z_div_mod_decomp (sb_size sb + BPB - 1) BPB ltac:(done)).
      unfold BPB, BSIZE in *. nia. }
    destruct Hb as [Hbe Hbs].
    assert (Hbb : BBLOCK b sb = Z.of_nat (length done) + sb_bmapstart sb).
    { unfold BBLOCK. rewrite Hbe, Z.mul_comm, Z.div_mul; done. }
    assert (Hsame : forall bi, 0 <= bi < BPB -> BBLOCK (b + bi) sb = BBLOCK b sb /\ (b + bi) mod BPB = bi).
    { intros bi Hbi. rewrite Hbb. unfold BBLOCK. rewrite Hbe.
      rewrite (Z.add_comm (BPB * _)), (Z.mul_comm BPB), Z.div_add, Z.mod_add by done.
      rewrite Z.div_small, Z.mod_small by done. done. }
    assert (Hm : is_map sb (BBLOCK b sb)) by (exists b; unfold BPB, BSIZE in *; lia).
    apply wp_bind. eapply wp_bread_; [exact Hok'|by apply HmH|done|]. intros l1 H1.
    apply wp_bind. eapply wp_data_; [exact H1|set_solver|].
    pose proof (scan_spec (bit_clear (V (BBLOCK b sb))) (Z.to_nat (Z.min BPB (sb_size sb - b))) 0) as Hsc.
    destruct (scan _ _ _) as [bi|].
    + destruct Hsc as (Hbi & Hclr & Hall).
      destruct (Hsame bi ltac:(lia)) as [HB HM].
      assert (Hfree : used sb V (b + bi) = false) by (unfold used; rewrite HB, HM, Hclr; done).
      assert (HbH : b + bi ∉ H) by (apply HfH; [unfold BPB, BSIZE in *; lia|done]).
      eapply wp_update_; [exact H1|set_solver|lia|]. intros l2 H2.
      apply wp_bind. eapply wp_brelse_; [exact H2|set_solver|]. intros l3 H3.
      rewrite rel_union in H3 by (by apply HmH).
      apply wp_bind. eapply bzero_spec; [exact H3|done|done|lia|]. intros l4 H4.
      apply wp_ret. cbn. apply wp_ret. apply HQ.
      * unfold BPB, BSIZE in *; lia.
      * done.
      * intros x Hx. destruct (decide (x < b)); [apply Hlow; lia|].
        destruct (Hsame (x - b) ltac:(lia)) as [HB' HM']. rewrite Zplus_minus in HB', HM'.
        unfold used. rewrite HB', HM'. rewrite Hall by lia. done.
      * unfold alloc_view. rewrite HB, HM. replace (w - 2) with (w - 1 - 1) by lia. exact H4.
    + apply wp_bind. eapply wp_brelse_; [exact H1|set_solver|]. intros l2 H2.
      rewrite rel_union in H2 by (by apply HmH). apply wp_ret.
      exists l2. split; [done|]. split; [done|]. intros x Hx Hxl. rewrite length_app in Hxl. cbn in Hxl.
      destruct (decide (x < b)); [apply Hlow; lia|].
      assert (0 <= x - b < BPB) by lia.
      destruct (Hsame (x - b) ltac:(lia)) as [HB' HM']. rewrite Zplus_minus in HB', HM'.
      unfold used. rewrite HB', HM'. rewrite Hsc by lia. done.
  - intros s' (l' & -> & Hok' & Hlow). apply wp_bind, wp_modify, wp_ret.
    apply HQ0; [|done]. intros x Hx. apply Hlow; [done|]. rewrite length_map, length_seqZ.
    pose proof (Z_div_mod_decomp (sb_size sb + BPB - 1) BPB ltac:(done)). unfold BPB, BSIZE in *. lia.
Qed.

Lemma bfree_spec H w V s dev b (Q : unit -> fsys -> Prop) :
  let sb := fs_sb s in
  fsok pid H w V (fs_log s) -> (size H <= 2)%nat -> 0 < w -> BBLOCK b sb ∉ H -> used sb V b = true ->
  (forall l', fsok pid H (w - 1) (free_view sb V b) l' -> Q tt (put_log l' s)) ->
  wp (bfree pid dev b) Q s.
Proof.
  intros sb Hok Hsz Hw Hb Hu HQ. unfold bfree. apply wp_bind, wp_gets. fold sb.
  apply wp_bind. eapply wp_bread_; [done|done|done|]. intros l1 H1.
  apply wp_bind. eapply wp_data_; [exact H1|set_solver|].
  unfold used in Hu. destruct (bit_clear _ _); [done|].
  eapply wp_update_; [exact H1|set_solver|done|]. intros l2 H2.
  eapply wp_brelse_; [exact H2|set_solver|]. intros l3 H3. rewrite rel_union in H3 by done.
  by apply HQ.
Qed.
End Alloc.

(** * Refinement: an allocator over a set of blocks *)

Inductive bop : Type :=
| BAlloc
| BFree (b : Z).

(** [U] tells the blocks in use, [own] are the blocks the client has been given
    and not freed.  A client frees only what it owns. *)
Definition spec_bop (size : Z) (o : bop) (U : Z -> bool) (own : list Z)
    : option (Z * (Z -> bool) * list Z) :=
  match o with
  | BAlloc => match scan (fun b => negb (U b)) (Z.to_nat size) 0 with
              | Some b => Some (b, fset U b true, b :: own)
              | None => Some (0, U, own)
              end
  | BFree b => if bool_decide (b ∈ own)
               then Some (0, fset U b false, filter (fun x => x <> b) own) else None
  end.

Fixpoint spec_bops (size : Z) (os : list bop) (U : Z -> bool) (own : list Z)
    : option (list Z * (Z -> bool) * list Z) :=
  match os with
  | [] => Some ([], U, own)
  | o :: os' =>
      match spec_bop size o U own with
      | Some (r, U, own) =>
          match spec_bops size os' U own with
          | Some (rs, U, own) => Some (r :: rs, U, own)
          | None => None
          end
      | None => None
      end
  end.

Definition run_bop (pid dev : Z) (o : bop) : M fsys Z :=
  match o with
  | BAlloc => balloc pid dev
  | BFree b => bfree pid dev b ;;; ret 0
  end.

Fixpoint run_bops (pid dev : Z) (os : list bop) : M fsys (list Z) :=
  match os with
  | [] => ret []
  | o :: os' =>
      let! r := run_bop pid dev o in
      let! rs := run_bops pid dev os' in
      ret (r :: rs)
  end.

(** The state after allocator calls: the map represents [U], the client's
    blocks are in use and are not map blocks, and blocks that were in use, map
    blocks and the client's aside, have their contents. *)
Record alloc_inv (pid w : Z) (sb : superblock) (U0 : Z -> bool) (V0 : Z -> list Z)
    (U : Z -> bool) (own : list Z) (s : fsys) (V : Z -> list Z) : Prop := {
  ai_sb : fs_sb s = sb;
  ai_ok : fsok pid ∅ w V (fs_log s);
  ai_map : map_ok sb V;
  ai_used : forall b, 0 <= b < sb_size sb -> used sb V b = U b;
  ai_own : forall b, b ∈ own -> 0 <= b < sb_size sb /\ U b = true /\ U0 b = false;
  ai_keep : forall b, U0 b = true -> U b = true;
  ai_rest : forall b, U0 b = true -> ~ is_map sb b -> V b = V0 b;
}.

Lemma bop_step pid dev w sb U0 V0 U own s V o r U' own' :
  (forall b, is_map sb b -> 0 <= b < sb_size sb -> U0 b = true) ->
  alloc_inv pid w sb U0 V0 U own s V -> 2 <= w ->
  spec_bop (sb_size sb) o U own = Some (r, U', own') ->
  wp (run_bop pid dev o) (fun r' s' => r' = r /\ exists V', alloc_inv pid (w - 2) sb U0 V0 U' own' s' V') s.
Proof.
  intros H0 [Hsb Hok Hmap Hu Hown Hkeep Hrest] Hw Hsp. destruct o as [|b]; cbn in *.
  - pose proof (scan_spec (fun b => negb (U b)) (Z.to_nat (sb_size sb)) 0) as Hsc.
    apply (balloc_spec pid ∅ w V s dev); rewrite ?Hsb;
      [done|rewrite size_empty; lia|done|done|intros ? _; apply not_elem_of_empty
      |intros ? _ _; apply not_elem_of_empty| |].
    + intros b l' Hb Hf Hlow Hok'. rewrite Hu in Hf by done.
      destruct (scan _ _ _) as [b'|]; [|specialize (Hsc b ltac:(lia)); apply negb_false_iff in Hsc; congruence].
      destruct Hsc as (Hb' & Hfb & Hlow'). apply negb_true_iff in Hfb.
      assert (b' = b) as ->.
      { destruct (Z.lt_trichotomy b' b) as [Hlt|[->|Hlt]]; [|done|].
        - specialize (Hlow b' ltac:(lia)). rewrite Hu in Hlow by lia. congruence.
        - specialize (Hlow' b ltac:(lia)). apply negb_false_iff in Hlow'. congruence. }
      injection Hsp as <- <- <-. split; [done|]. exists (alloc_view sb V b). split; try done.
      * apply map_ok_alloc; [done|done|]. by rewrite Hu.
      * intros x Hx. rewrite used_alloc, Hu by (rewrite ?Hu; done).
        destruct (fset_case U b true x) as [[-> ->]|[Hne ->]]; [by rewrite Z.eqb_refl|].
        destruct (Z.eqb_spec x b); done.
      * intros x Hx. apply elem_of_cons in Hx as [->|Hx].
        -- split; [done|]. rewrite fset_eq. split; [done|].
           destruct (U0 b) eqn:E; [|done]. rewrite Hkeep in Hf; done.
        -- destruct (Hown x Hx) as (Hr & Hux & Hx0). destruct (fset_case U b true x) as [[-> ->]|[_ ->]]; done.
      * intros x Hx. destruct (fset_case U b true x) as [[-> ->]|[_ ->]]; [done|by apply Hkeep].
      * intros x Hx Hm. rewrite <- Hrest by done.
        assert (x <> b) by (pose proof (Hkeep x Hx); congruence).
        unfold alloc_view. rewrite !fset_ne; [done| |done]. intros ->. apply Hm. by exists b.
    + intros Hall l' Hok'. destruct (scan _ _ _) as [b'|].
      { destruct Hsc as (Hb' & Hfb & _). apply negb_true_iff in Hfb.
        rewrite <- Hu, Hall in Hfb by lia. done. }
      injection Hsp as <- <- <-. split; [done|]. exists V. split; try done. cbn. by apply fsok_weaken with w; [|lia].
  - destruct (bool_decide_reflect (b ∈ own)) as [Hin|]; [|done]. injection Hsp as <- <- <-.
    destruct (Hown b Hin) as (Hb & Hub & Hu0).
    assert (Hnm : ~ is_map sb b) by (intros Hm; rewrite H0 in Hu0; done).
    apply wp_bind. apply (bfree_spec pid ∅ w V s dev); rewrite ?Hsb;
      [done|rewrite size_empty; lia|lia|apply not_elem_of_empty|by rewrite Hu|].
    intros l' Hok'. apply wp_ret. split; [done|]. exists (free_view sb V b). split; try done.
    + cbn. by apply fsok_weaken with (w - 1); [|lia].
    + by apply map_ok_free.
    + intros x Hx. rewrite used_free, Hu by done.
      destruct (fset_case U b false x) as [[-> ->]|[Hne ->]]; [by rewrite Z.eqb_refl|].
      destruct (Z.eqb_spec x b); done.
    + intros x Hx. apply list_elem_of_filter in Hx as [Hne Hx].
      destruct (Hown x Hx) as (Hr & Hux & Hx0). by rewrite fset_ne.
    + intros x Hx. destruct (fset_case U b false x) as [[-> ->]|[_ ->]]; [congruence|by apply Hkeep].
    + intros x Hx Hm. rewrite <- Hrest by done.
      unfold free_view. rewrite fset_ne; [done|]. intros ->. apply Hm. by exists b.
Qed.

Lemma bops_run pid dev sb U0 V0 os w U own s V rs U' own' :
  (forall b, is_map sb b -> 0 <= b < sb_size sb -> U0 b = true) ->
  alloc_inv pid w sb U0 V0 U own s V -> 2 * Z.of_nat (length os) <= w ->
  spec_bops (sb_size sb) os U own = Some (rs, U', own') ->
  wp (run_bops pid dev os) (fun r s' => r = rs /\
    exists V', alloc_inv pid (w - 2 * Z.of_nat (length os)) sb U0 V0 U' own' s' V') s.
Proof.
  intros H0. revert w U own s V rs. induction os as [|o os IH]; intros w U own s V rs HI Hw Hsp.
  - cbn in *. injection Hsp as <- <- <-. split; [done|]. exists V. by rewrite Z.sub_0_r.
  - cbn [spec_bops] in Hsp. cbn [length] in Hw |- *.
    destruct (spec_bop _ o U own) as [[[r U1] own1]|] eqn:E1; [|done].
    destruct (spec_bops _ os U1 own1) as [[[rs1 U2] own2]|] eqn:E2; [|done]. injection Hsp as <- <- <-.
    cbn [run_bops]. apply wp_bind. eapply wp_mono; [eapply (bop_step pid dev); [exact H0|exact HI|lia|exact E1]|].
    cbn beta. intros r' s1 (-> & V1 & HI1).
    apply wp_bind. eapply wp_mono; [eapply IH; [exact HI1|lia|exact E2]|].
    cbn beta. intros rs' s2 (-> & V2 & HI2). apply wp_ret. split; [done|]. exists V2.
    replace (w - 2 * Z.of_nat (S (length os))) with (w - 2 - 2 * Z.of_nat (length os)) by lia. done.
Qed.


Module AllocDemo.
(** A disk of 60 blocks, 48 of them in use, the free map in block 45. *)
Definition bmap0 : list Z := replicate 6 255 ++ replicate 1018 0.
Definition V0 (b : Z) : list Z := if b =? 45 then bmap0 else zeroblock.
Definition sb0 : superblock := mkSuperblock FSMAGIC 60 12 200 30 2 32 45.
Definition no_inode : inode := mkInode 0 0 0 no_sleeplock 0 0 0 0 0 0 [].
Definition log0 : lg :=
  mkLg false 2 31 1 0 0 (replicate 30 0) (mkBcache (mkDisk V0 []) ∅) [].
Definition s0 : fsys := mkFsys log0 sb0 false (fun _ => no_inode) [] (mkKst (fun _ => 0) 0 false) [].

Lemma log0_ok : fsok 1 ∅ 10 V0 log0.
Proof.
  split; try done.
  - intros b Hb. unfold in_log in Hb. cbn in Hb. by apply elem_of_nil in Hb.
Qed.

Lemma map0_ok : map_ok sb0 V0.
Proof.
  assert (Hm : forall x, is_map sb0 x -> x = 45).
  { intros x (b & Hb & ->). unfold BBLOCK. cbn in *. rewrite Z.div_small; [done|]. unfold BPB, BSIZE. lia. }
  split; intros x Hx; apply Hm in Hx as ->; [done|]. intros _. vm_compute. done.
Qed.
End AllocDemo.

