(* ===== verification/FsFile.v ===== *)
(** Files as byte sequences: bmap(), readi(), writei(). *)

From S2P Require Import Prelude Riscv CString Kalloc Vm Sleeplock Fields BlockCache Log.
From S2P Require Import LogProps LogSpace Fs FsView FsAlloc.

(** * The blocks and the bytes of a file *)

Definition ind (n : inode) : Z := zget (i_addrs n) NDIRECT.

(** The address of block [bn] of the inode, 0 if it has none. *)
Definition faddr (V : Z -> list Z) (n : inode) (bn : Z) : Z :=
  if bn <? NDIRECT then zget (i_addrs n) bn
  else if ind n =? 0 then 0 else get32 (V (ind n)) (4 * (bn - NDIRECT)).

Definition fbyte (V : Z -> list Z) (n : inode) (i : Z) : Z :=
  zget (V (faddr V n (i / BSIZE))) (i mod BSIZE).

(** The blocks that belong to a file. *)
Definition owns (V : Z -> list Z) (n : inode) (b : Z) : Prop :=
  b <> 0 /\ (b = ind n \/ exists bn, 0 <= bn < MAXFILE /\ b = faddr V n bn).

Record file_ok (sb : superblock) (V : Z -> list Z) (n : inode) : Prop := {
  fk_len : length (i_addrs n) = 13%nat;
  fk_used : forall b, owns V n b -> 0 <= b < sb_size sb /\ used sb V b = true /\ ~ is_map sb b;
  fk_block : forall b, owns V n b -> length (V b) = Z.to_nat BSIZE;
  fk_inj : forall x y, 0 <= x < MAXFILE -> 0 <= y < MAXFILE ->
    faddr V n x <> 0 -> faddr V n x = faddr V n y -> x = y;
  fk_ind : forall x, 0 <= x < MAXFILE -> faddr V n x <> 0 -> faddr V n x <> ind n;
  fk_size : 0 <= i_size n <= MAXFILE * BSIZE;
  fk_nohole : forall x, 0 <= x -> x * BSIZE < i_size n -> faddr V n x <> 0;
}.

Lemma faddr_owns V n bn : 0 <= bn < MAXFILE -> faddr V n bn <> 0 -> owns V n (faddr V n bn).
Proof. intros Hb Hn. split; [done|]. right. by exists bn. Qed.

Lemma ind_owns V n : ind n <> 0 -> owns V n (ind n).
Proof. intros Hn. split; [done|]. by left. Qed.

Lemma MAXFILE_val : MAXFILE = 268.
Proof. done. Qed.

(** * Growth: a block added to a file *)

(** From [V], [n] to [V'], [n']: the file keeps its blocks and their contents,
    blocks it gains were free and are zeroed, other blocks in use are as they
    were (the free map and the file's indirect block aside). *)
Record grows (sb : superblock) (V : Z -> list Z) (n : inode) (V' : Z -> list Z) (n' : inode) : Prop := {
  gr_ok : file_ok sb V' n';
  gr_map : map_ok sb V';
  gr_same : exists a, n' = set_i_addrs a n;
  gr_addr : forall x, 0 <= x < MAXFILE -> faddr V n x <> 0 -> faddr V' n' x = faddr V n x;
  gr_new : forall x, 0 <= x < MAXFILE -> faddr V n x = 0 -> faddr V' n' x <> 0 ->
    V' (faddr V' n' x) = zeroblock;
  gr_ind : ind n' = ind n \/ ind n = 0 /\ ind n' <> 0 /\ used sb V (ind n') = false;
  gr_keep : forall b, 0 <= b < sb_size sb -> used sb V b = true -> ~ is_map sb b -> b <> ind n -> V' b = V b;
  gr_used : forall b, 0 <= b < sb_size sb -> used sb V b = true -> used sb V' b = true;
  gr_own : forall b, owns V' n' b -> owns V n b \/ used sb V b = false;
}.

Lemma set_i_addrs_id n : set_i_addrs (i_addrs n) n = n.
Proof. by destruct n. Qed.

Lemma grows_refl sb V n : file_ok sb V n -> map_ok sb V -> grows sb V n V n.
Proof.
  intros Hf Hm. split; try done; try by left.
  exists (i_addrs n). by rewrite set_i_addrs_id.
Qed.

(** Adding one block [b], as a data block or as the indirect block. *)
Lemma grows_one sb V n V' n' a b :
  file_ok sb V n -> map_ok sb V' -> n' = set_i_addrs a n -> length a = 13%nat ->
  b <> 0 -> 0 <= b < sb_size sb -> used sb V b = false -> ~ is_map sb b ->
  V' b = zeroblock ->
  (forall c, 0 <= c < sb_size sb -> used sb V c = true -> ~ is_map sb c -> c <> ind n -> V' c = V c) ->
  (ind n <> 0 -> length (V' (ind n)) = Z.to_nat BSIZE) ->
  (forall x, 0 <= x < sb_size sb -> used sb V' x = (x =? b) || used sb V x) ->
  (ind n' = ind n /\ (exists bn, 0 <= bn < MAXFILE /\ faddr V n bn = 0 /\ faddr V' n' bn = b /\
     forall x, 0 <= x < MAXFILE -> x <> bn -> faddr V' n' x = faddr V n x)) \/
  (ind n = 0 /\ ind n' = b /\ forall x, 0 <= x < MAXFILE -> faddr V' n' x = faddr V n x) ->
  grows sb V n V' n'.
Proof.
  intros Hf Hm Hn' Hla Hb0 Hb Hub Hmb HVb HVc HVi Hu Hcase.
  pose proof Hf as [Hl Hus Hbl Hinj Hind Hsz Hnh].
  assert (Hown : forall c, owns V' n' c -> c = b \/ owns V n c).
  { intros c [Hc0 Hc]. destruct Hcase as [[Hi (bn & Hbn & Hz & Hnew & Hoth)]|(Hi0 & Hi & Hoth)].
    - destruct Hc as [->|(x & Hx & ->)]; [right; split; [done|by left]|].
      destruct (decide (x = bn)) as [->|Hne]; [by left|right]. rewrite Hoth in Hc0 |- * by done.
      split; [done|]. right. by exists x.
    - destruct Hc as [->|(x & Hx & ->)]; [by left|right]. rewrite Hoth in Hc0 |- * by done.
      split; [done|]. right. by exists x. }
  assert (Hnob : ~ owns V n b) by (intros Ho; destruct (Hus b Ho) as (_ & ? & _); congruence).
  assert (Hnx : forall x, 0 <= x < MAXFILE -> faddr V n x <> b).
  { intros x Hx He. apply Hnob. split; [done|]. right. by exists x. }
  assert (Hni : ind n <> b) by (intros He; apply Hnob; split; [done|by left]).
  split.
  - split.
    + by rewrite Hn'.
    + intros c Hc. destruct (Hown c Hc) as [->|Ho].
      * split; [done|]. rewrite Hu, Z.eqb_refl by done. done.
      * destruct (Hus c Ho) as (Hr & Huc & Hmc). split; [done|]. rewrite Hu, Huc, orb_true_r by done. done.
    + intros c Hc. destruct (Hown c Hc) as [->|Ho]; [by rewrite HVb|].
      destruct (Hus c Ho) as (Hr & Huc & Hmc). destruct (decide (c = ind n)) as [->|Hne].
      * apply HVi. by destruct Ho.
      * rewrite HVc by done. by apply Hbl.
    + intros x y Hx Hy H0 He. destruct Hcase as [[Hi (bn & Hbn & Hz & Hnew & Hoth)]|(Hi0 & Hi & Hoth)].
      * destruct (decide (x = bn)) as [->|Hxn], (decide (y = bn)) as [->|Hyn]; [done| | |].
        -- rewrite Hnew, Hoth in He by done. exfalso. by apply (Hnx y).
        -- rewrite Hnew, Hoth in He by done. exfalso. by apply (Hnx x).
        -- rewrite !Hoth in * by done. by apply Hinj.
      * rewrite !Hoth in * by done. by apply Hinj.
    + intros x Hx H0. destruct Hcase as [[Hi (bn & Hbn & Hz & Hnew & Hoth)]|(Hi0 & Hi & Hoth)].
      * rewrite Hi. destruct (decide (x = bn)) as [->|Hne]; [congruence|]. rewrite Hoth in H0 |- * by done.
        by apply Hind.
      * rewrite Hi, Hoth by done. by apply Hnx.
    + by rewrite Hn'.
    + intros x Hx0 Hx. rewrite Hn' in Hx. cbn in Hx. pose proof (Hnh x Hx0 Hx) as Hne.
      assert (Hxr : 0 <= x < MAXFILE) by (unfold BSIZE in *; lia).
      destruct Hcase as [[Hi (bn & Hbn & Hz & Hnew & Hoth)]|(Hi0 & Hi & Hoth)]; [|by rewrite Hoth].
      destruct (decide (x = bn)) as [->|]; [done|by rewrite Hoth].
  - done.
  - by exists a.
  - intros x Hx Hne. destruct Hcase as [[Hi (bn & Hbn & Hz & Hnew & Hoth)]|(Hi0 & Hi & Hoth)]; [|by apply Hoth].
    apply Hoth; [done|]. by intros ->.
  - intros x Hx Hz0 Hne. destruct Hcase as [[Hi (bn & Hbn & Hz & Hnew & Hoth)]|(Hi0 & Hi & Hoth)].
    + destruct (decide (x = bn)) as [->|Hxn]; [by rewrite Hnew|]. rewrite Hoth in Hne by done. done.
    + rewrite Hoth in Hne by done. done.
  - destruct Hcase as [[Hi _]|(Hi0 & Hi & _)]; [by left|right]. by rewrite Hi.
  - done.
  - intros c Hr Hc. rewrite Hu, Hc by done. apply orb_true_r.
  - intros c Hc. destruct (Hown c Hc) as [->|Ho]; [by right|by left].
Qed.

Lemma grows_trans sb V n V1 n1 V2 n2 :
  grows sb V n V1 n1 -> grows sb V1 n1 V2 n2 -> grows sb V n V2 n2.
Proof.
  intros [Ho1 Hm1 [a1 ->] Ha1 Hn1 Hi1 Hk1 Hu1 Hw1] [Ho2 Hm2 [a2 ->] Ha2 Hn2 Hi2 Hk2 Hu2 Hw2].
  assert (Hback : forall b, owns V2 (set_i_addrs a2 (set_i_addrs a1 n)) b ->
            used sb V1 b = false -> used sb V b = false).
  { intros b Hb Hf. destruct (used sb V b) eqn:E; [|done].
    rewrite Hu1 in Hf; [done|by apply (fk_used _ _ _ Ho2)|done]. }
  split; try done.
  - by exists a2.
  - intros x Hx Hne. rewrite Ha2; [by apply Ha1|done|]. by rewrite Ha1.
  - intros x Hx Hz Hne. destruct (decide (faddr V1 (set_i_addrs a1 n) x = 0)) as [Hz1|Hz1]; [by apply Hn2|].
    rewrite Ha2 by done. destruct (fk_used _ _ _ Ho1 _ (faddr_owns _ _ _ Hx Hz1)) as (Hr & Hux & Hmx).
    rewrite Hk2; [by apply Hn1|done|done|done|by apply (fk_ind _ _ _ Ho1)].
  - destruct Hi1 as [Hi1|(Hi1 & Hn & Hf1)], Hi2 as [Hi2|(Hi2 & Hn' & Hf2)].
    + left. congruence.
    + right. split; [congruence|]. split; [done|]. apply Hback; [by apply ind_owns|done].
    + right. rewrite Hi2. done.
    + right. split; [done|]. split; [done|]. apply Hback; [by apply ind_owns|done].
  - intros b Hr Hb Hmb Hne. rewrite Hk2, Hk1; try done; [by apply Hu1|].
    destruct Hi1 as [Hi1|(Hi1 & Hn & Hf1)]; [by rewrite Hi1|]. intros ->. congruence.
  - intros b Hr Hb. apply Hu2; [done|]. by apply Hu1.
  - intros b Hb. destruct (Hw2 b Hb) as [Hb1|Hb1]; [by apply Hw1|right]. by apply Hback.
Qed.

Section Bmap.
Context (pid : Z).

(** A block the file has. *)
Lemma bmap_hit sb w V s ip bn (Q : Z -> fsys -> Prop) :
  let n := fs_inode s ip in
  fsok pid ∅ w V (fs_log s) -> file_ok sb V n -> 0 <= bn < MAXFILE -> faddr V n bn <> 0 ->
  (forall l', fsok pid ∅ w V l' -> Q (faddr V n bn) (put_log l' s)) ->
  wp (bmap pid ip bn) Q s.
Proof.
  intros n Hok Hf Hbn Hne HQ. unfold bmap. apply wp_bind, wp_gets. fold n.
  unfold faddr in *. destruct (Z.ltb_spec bn NDIRECT) as [Hd|Hd].
  - apply wp_bind, wp_gets. fold n. destruct (Z.eqb_spec (zget (i_addrs n) bn) 0) as [|_]; [done|].
    apply wp_ret. specialize (HQ (fs_log s) Hok). by destruct s.
  - destruct (Z.ltb_spec (bn - NDIRECT) NINDIRECT) as [Hi|Hi]; [|unfold MAXFILE in *; lia].
    destruct (Z.eqb_spec (ind n) 0) as [|Hind]; [done|].
    apply wp_bind, wp_gets. fold n. fold (ind n). apply wp_bind.
    destruct (Z.eqb_spec (ind n) 0) as [|_]; [done|]. apply wp_ret.
    destruct (Z.eqb_spec (ind n) 0) as [|_]; [done|].
    apply wp_bind. eapply wp_bread_; [exact Hok|apply not_elem_of_empty|rewrite size_empty; lia|]. intros l1 H1.
    apply wp_bind. eapply wp_data_; [exact H1|set_solver|].
    apply wp_bind. destruct (Z.eqb_spec (get32 (V (ind n)) (4 * (bn - NDIRECT))) 0) as [|_]; [done|].
    apply wp_ret. apply wp_bind. eapply wp_brelse_; [exact H1|set_solver|]. intros l2 H2.
    rewrite rel_union in H2 by set_solver. apply wp_ret. by apply HQ.
Qed.

(** What a call may change besides the log and the inode [ip]: console
    output. *)
Record frame (ip : Z) (s s' : fsys) : Prop := {
  fr_sb : fs_sb s' = fs_sb s;
  fr_itlock : fs_itlock s' = fs_itlock s;
  fr_woken : fs_woken s' = fs_woken s;
  fr_vm : fs_vm s' = fs_vm s;
  fr_inode : forall j, j <> ip -> fs_inode s' j = fs_inode s j;
}.

Lemma frame_refl ip s : frame ip s s.
Proof. done. Qed.
Lemma frame_log ip s l : frame ip s (put_log l s).
Proof. done. Qed.
Lemma frame_trans ip s s1 s2 : frame ip s s1 -> frame ip s1 s2 -> frame ip s s2.
Proof.
  intros [A1 A2 A3 A4 A5] [B1 B2 B3 B4 B5]. split; try congruence. intros j Hj. rewrite B5, A5; done.
Qed.

Definition put_inode (ip : Z) (n : inode) (s : fsys) : fsys := put_inodes (fset (fs_inode s) ip n) s.
Lemma frame_inode ip s n : frame ip s (put_inode ip n s).
Proof. split; try done. intros j Hj. by apply fset_ne. Qed.

Lemma get32_zero off : 0 <= off -> off + 4 <= BSIZE -> get32 zeroblock off = 0.
Proof.
  intros Ho Hl. assert (Hz : forall i, 0 <= i < BSIZE -> zget zeroblock i = 0).
  { intros i Hi. unfold zeroblock. apply zget_replicate. lia. }
  unfold get32. cbn [get_le]. rewrite !Hz by lia. done.
Qed.

(** A free block that balloc() returns, added to a file. *)
Section Cases.
Context (sb : superblock) (V : Z -> list Z) (n : inode).
Context (Hf : file_ok sb V n) (Hm : map_ok sb V) (H0 : used sb V 0 = true).
#[local] Set Default Proof Using "Hf Hm H0".

Lemma fresh_facts b :
  0 <= b < sb_size sb -> used sb V b = false ->
  b <> 0 /\ (~ is_map sb b) /\ b <> ind n /\
  (forall c, 0 <= c < sb_size sb -> used sb V c = true -> ~ is_map sb c -> alloc_view sb V b c = V c).
Proof.
  intros Hb Hu. assert (Hmb : ~ is_map sb b) by (intros Hx; rewrite (mo_used _ _ Hm) in Hu; done).
  split_and!; [by intros ->; congruence|done| |].
  - intros ->. destruct (decide (ind n = 0)) as [He|He]; [rewrite He in Hu; congruence|].
    destruct (fk_used _ _ _ Hf _ (ind_owns V n He)) as (_ & ? & _). congruence.
  - intros c Hc Huc Hmc. unfold alloc_view. rewrite !fset_ne; [done| |by intros ->; congruence].
    intros ->. apply Hmc. by exists b.
Qed.

Lemma alloc_view_ind b :
  0 <= b < sb_size sb -> used sb V b = false -> ind n <> 0 -> alloc_view sb V b (ind n) = V (ind n).
Proof.
  intros Hb Hu Hi. destruct (fk_used _ _ _ Hf _ (ind_owns V n Hi)) as (Hr & Hui & Hmi).
  by apply fresh_facts.
Qed.

Lemma grows_direct b bn :
  0 <= b < sb_size sb -> used sb V b = false -> 0 <= bn < NDIRECT -> zget (i_addrs n) bn = 0 ->
  let n' := set_i_addrs (zset bn b (i_addrs n)) n in
  grows sb V n (alloc_view sb V b) n' /\ faddr (alloc_view sb V b) n' bn = b.
Proof.
  intros Hb Hu Hbn Hz n'. destruct (fresh_facts b Hb Hu) as (Hb0 & Hmb & Hbi & Hkeep).
  pose proof (fk_len _ _ _ Hf) as Hlen.
  assert (Hat : faddr (alloc_view sb V b) n' bn = b).
  { unfold faddr. destruct (Z.ltb_spec bn NDIRECT); [|lia]. cbn. apply zget_zset_eq. unfold NDIRECT in *. lia. }
  assert (Hin : ind n' = ind n).
  { unfold ind, n'. cbn. unfold NDIRECT in *. apply zget_zset_ne; lia. }
  split; [|done].
  eapply (grows_one _ _ _ _ _ _ b); try done.
  - by apply map_ok_alloc.
  - by rewrite length_zset.
  - unfold alloc_view. apply fset_eq.
  - intros c Hr Huc Hmc _. by apply Hkeep.
  - intros Hi. rewrite alloc_view_ind by done. apply (fk_block _ _ _ Hf). by apply ind_owns.
  - intros x Hx. by apply used_alloc.
  - left. split; [done|]. exists bn. split_and!; [lia|rewrite MAXFILE_val; unfold NDIRECT in *; lia| |done|].
    + unfold faddr. destruct (Z.ltb_spec bn NDIRECT); [done|lia].
    + intros x Hx Hne. unfold faddr. destruct (Z.ltb_spec x NDIRECT).
      * unfold n'. cbn. apply zget_zset_ne; lia.
      * rewrite Hin. destruct (Z.eqb_spec (ind n) 0) as [|Hi]; [done|]. by rewrite alloc_view_ind.
Qed.

Lemma grows_indirect b :
  0 <= b < sb_size sb -> used sb V b = false -> ind n = 0 ->
  let n' := set_i_addrs (zset NDIRECT b (i_addrs n)) n in
  grows sb V n (alloc_view sb V b) n' /\ ind n' = b.
Proof.
  intros Hb Hu Hz n'. destruct (fresh_facts b Hb Hu) as (Hb0 & Hmb & Hbi & Hkeep).
  pose proof (fk_len _ _ _ Hf) as Hlen.
  assert (Hin : ind n' = b).
  { unfold ind, n'. cbn. apply zget_zset_eq. unfold NDIRECT. lia. }
  split; [|done].
  eapply (grows_one _ _ _ _ _ _ b); try done.
  - by apply map_ok_alloc.
  - by rewrite length_zset.
  - unfold alloc_view. apply fset_eq.
  - intros c Hr Huc Hmc _. by apply Hkeep.
  - intros x Hx. by apply used_alloc.
  - right. split_and!; [done|done|]. intros x Hx. unfold faddr. destruct (Z.ltb_spec x NDIRECT).
    + unfold n'. cbn. unfold NDIRECT in *. apply zget_zset_ne; lia.
    + rewrite Hin, Hz. rewrite Z.eqb_refl. destruct (Z.eqb_spec b 0) as [|_]; [done|].
      unfold alloc_view. rewrite fset_eq. rewrite MAXFILE_val in Hx.
      apply get32_zero; unfold BSIZE, NDIRECT in *; lia.
Qed.

Lemma grows_entry b bn :
  0 <= b < sb_size sb -> sb_size sb <= 2 ^ 32 -> used sb V b = false -> NDIRECT <= bn < MAXFILE -> ind n <> 0 ->
  get32 (V (ind n)) (4 * (bn - NDIRECT)) = 0 ->
  let V' := fset (alloc_view sb V b) (ind n) (put32 (4 * (bn - NDIRECT)) b (V (ind n))) in
  grows sb V n V' n /\ faddr V' n bn = b.
Proof.
  intros Hb Hs32 Hu Hbn Hi Hz V'. destruct (fresh_facts b Hb Hu) as (Hb0 & Hmb & Hbi & Hkeep).
  assert (Hli : length (V (ind n)) = 1024%nat) by (by apply (fk_block _ _ _ Hf), ind_owns).
  destruct (fk_used _ _ _ Hf _ (ind_owns V n Hi)) as (Hri & Hui & Hmi).
  rewrite MAXFILE_val in Hbn. unfold NDIRECT in Hbn.
  assert (Hat : faddr V' n bn = b).
  { unfold faddr, NDIRECT. destruct (Z.ltb_spec bn 12); [lia|]. destruct (Z.eqb_spec (ind n) 0); [done|].
    unfold V'. rewrite fset_eq. apply get_put_le; [unfold NDIRECT; lia|rewrite Hli; unfold NDIRECT; lia|].
    change (256 ^ Z.of_nat 4) with (2 ^ 32). lia. }
  assert (Hmap' : map_ok sb V').
  { destruct (map_ok_alloc sb V b Hm Hb Hu) as [Hl' Hu']. split.
    - intros x Hx. unfold V'. rewrite fset_ne; [by apply Hl'|]. by intros ->.
    - intros x Hx Hr. unfold used, V'. rewrite fset_ne; [by apply Hu'|]. intros He. apply Hmi. rewrite <- He. by exists x. }
  split; [|done].
  eapply (grows_one _ _ _ _ _ (i_addrs n) b); try done.
  - by rewrite set_i_addrs_id.
  - apply (fk_len _ _ _ Hf).
  - unfold V'. rewrite fset_ne by done. unfold alloc_view. apply fset_eq.
  - intros c Hr Huc Hmc Hne. unfold V'. rewrite fset_ne by done. by apply Hkeep.
  - intros _. unfold V'. rewrite fset_eq. unfold put32. by rewrite length_put_le.
  - intros x Hx. rewrite <- used_alloc by done. unfold used, V'. rewrite fset_ne; [done|].
    intros He. apply Hmi. rewrite <- He. by exists x.
  - left. split; [done|]. exists bn. split_and!; [lia|rewrite MAXFILE_val; lia| |done|].
    + unfold faddr, NDIRECT. destruct (Z.ltb_spec bn 12); [lia|]. by destruct (Z.eqb_spec (ind n) 0).
    + intros x Hx Hne. unfold faddr. destruct (Z.ltb_spec x NDIRECT); [done|].
      destruct (Z.eqb_spec (ind n) 0); [done|]. unfold V'. rewrite fset_eq.
      rewrite MAXFILE_val in Hx. unfold NDIRECT in *.
      apply get_put_le_other; [lia|rewrite Hli; lia|lia|lia].
Qed.
End Cases.

(** The disk as bmap() needs it: the free map is in order, block 0 is in use,
    and block numbers fit in 32 bits. *)
Record disk_ok (sb : superblock) (V : Z -> list Z) : Prop := {
  dk_map : map_ok sb V;
  dk_zero : used sb V 0 = true;
  dk_size : 0 < sb_size sb <= 2 ^ 32;
}.

Lemma disk_ok_grows sb V n V' n' : disk_ok sb V -> grows sb V n V' n' -> disk_ok sb V'.
Proof. intros [Hm Hz Hs] Hg. split; [apply Hg| |done]. apply (gr_used _ _ _ _ _ Hg); [lia|done]. Qed.

(** balloc() for a process that holds at most blocks in use. *)
Lemma balloc_file H w V s dev (Q : Z -> fsys -> Prop) :
  let sb := fs_sb s in
  fsok pid H w V (fs_log s) -> (size H <= 2)%nat -> 2 <= w -> disk_ok sb V ->
  (forall b, b ∈ H -> 0 <= b < sb_size sb /\ used sb V b = true /\ ~ is_map sb b) ->
  (forall b l', 0 <= b < sb_size sb -> used sb V b = false ->
     fsok pid H (w - 2) (alloc_view sb V b) l' -> b <> 0 -> Q b (put_log l' s)) ->
  (forall l', (forall x, 0 <= x < sb_size sb -> used sb V x = true) -> fsok pid H w V l' ->
     Q 0 (printed "balloc: out of blocks" (put_log l' s))) ->
  wp (balloc pid dev) Q s.
Proof.
  intros sb Hok Hsz Hw [Hm Hz Hs] HH HQ HQ0.
  apply (balloc_spec pid H w V s dev); try done.
  - intros x Hx Hin. by apply (HH x Hin).
  - intros b Hb Hu Hin. destruct (HH b Hin) as (_ & ? & _). fold sb in Hu. congruence.
  - intros b l' Hb Hu _ Hok'. apply HQ; try done. intros ->. fold sb in Hu. congruence.
  - intros Hall l' Hok'. by apply HQ0.
Qed.

Definition bmap_post (sb : superblock) (V : Z -> list Z) (ip bn w : Z) (s : fsys) (r : Z) (s' : fsys) : Prop :=
  frame ip s s' /\ exists V' w', w <= w' /\ fsok pid ∅ w' V' (fs_log s') /\
    grows sb V (fs_inode s ip) V' (fs_inode s' ip) /\
    r = faddr V' (fs_inode s' ip) bn /\
    (r = 0 -> forall b, 0 <= b < sb_size sb -> used sb V' b = true).

(** The entry of the indirect block, allocated if there is none. *)
Lemma bmap_entry w V s ip bn :
  let n := fs_inode s ip in let sb := fs_sb s in
  fsok pid ∅ w V (fs_log s) -> 3 <= w -> disk_ok sb V -> file_ok sb V n ->
  NDIRECT <= bn < MAXFILE -> ind n <> 0 ->
  wp (let! bp := bread_ pid (i_dev n) (ind n) in
      let! a := data_ bp in
      let addr := get32 a (4 * (bn - NDIRECT)) in
      let! addr :=
        (if addr =? 0 then
           let! addr := balloc pid (i_dev n) in
           (if negb (addr =? 0) then
              store_ bp (put32 (4 * (bn - NDIRECT)) addr a) ;;;
              log_write_ bp
            else ret tt) ;;;
           ret addr
         else ret addr) in
      brelse_ pid bp ;;;
      ret addr) (bmap_post sb V ip bn (w - 3) s) s.
Proof.
  intros n sb Hok Hw Hd Hf Hbn Hi.
  assert (Hfa : faddr V n bn = get32 (V (ind n)) (4 * (bn - NDIRECT))).
  { unfold faddr. destruct (Z.ltb_spec bn NDIRECT); [lia|]. by destruct (Z.eqb_spec (ind n) 0). }
  apply wp_bind. eapply wp_bread_; [exact Hok|apply not_elem_of_empty|rewrite size_empty; lia|]. intros l1 H1.
  apply wp_bind. eapply wp_data_; [exact H1|set_solver|]. apply wp_bind.
  destruct (Z.eqb_spec (get32 (V (ind n)) (4 * (bn - NDIRECT))) 0) as [Hz|Hz].
  - apply wp_bind. eapply balloc_file; [exact H1| |lia|exact Hd| | |].
    + rewrite union_empty_r_L, size_singleton. lia.
    + intros b Hb. assert (b = ind n) as -> by set_solver. by apply (fk_used _ _ _ Hf), ind_owns.
    + intros b l2 Hb Hub H2 Hb0. destruct (Z.eqb_spec b 0) as [|_]; [done|]. cbn [negb].
      apply wp_bind. eapply wp_update_' ; [exact H2|set_solver|lia|]. intros l3 H3. apply wp_ret.
      destruct (grows_entry sb V n Hf (dk_map _ _ Hd) (dk_zero _ _ Hd) b bn Hb
                 ltac:(apply Hd) Hub Hbn Hi Hz) as [Hg Hat].
      apply wp_bind. eapply wp_brelse_; [exact H3|set_solver|]. intros l4 H4. apply wp_ret.
      rewrite rel_union in H4 by apply not_elem_of_empty.
      split; [done|]. eexists _, (w - 2 - 1). split; [lia|]. split; [exact H4|].
      split; [exact Hg|]. split; [by symmetry|done].
    + intros l2 Hall H2. cbn [negb Z.eqb]. apply wp_bind, wp_ret, wp_ret.
      apply wp_bind. eapply wp_brelse_; [exact H2|set_solver|]. intros l4 H4. apply wp_ret.
      rewrite rel_union in H4 by apply not_elem_of_empty.
      split; [done|]. exists V, w. split; [lia|]. split; [exact H4|].
      split; [apply grows_refl; [done|apply Hd]|]. split; [change (0 = faddr V n bn); congruence|done].
  - apply wp_ret. apply wp_bind. eapply wp_brelse_; [exact H1|set_solver|]. intros l2 H2. apply wp_ret.
    rewrite rel_union in H2 by apply not_elem_of_empty.
    split; [done|]. exists V, w. split; [lia|]. split; [exact H2|].
    split; [apply grows_refl; [done|apply Hd]|]. split; [change (get32 (V (ind n)) (4 * (bn - NDIRECT)) = faddr V n bn); congruence|done].
Qed.

Lemma bmap_spec w V s ip bn :
  let n := fs_inode s ip in let sb := fs_sb s in
  fsok pid ∅ w V (fs_log s) -> 5 <= w -> disk_ok sb V -> file_ok sb V n -> 0 <= bn < MAXFILE ->
  wp (bmap pid ip bn) (bmap_post sb V ip bn (w - 5) s) s.
Proof.
  intros n sb Hok Hw Hd Hf Hbn. unfold bmap. apply wp_bind, wp_gets. fold n.
  destruct (Z.ltb_spec bn NDIRECT) as [Hdir|Hdir].
  - apply wp_bind, wp_gets. fold n.
    assert (Hfa : faddr V n bn = zget (i_addrs n) bn).
    { unfold faddr. by destruct (Z.ltb_spec bn NDIRECT); [|lia]. }
    assert (Hself : bmap_post sb V ip bn (w - 5) s (zget (i_addrs n) bn) s \/ zget (i_addrs n) bn = 0).
    { destruct (decide (zget (i_addrs n) bn = 0)) as [|Hne]; [by right|left].
      split; [done|]. exists V, w. split; [lia|]. split; [done|].
      split; [apply grows_refl; [done|apply Hd]|]. split; [change (zget (i_addrs n) bn = faddr V n bn); congruence|done]. }
    destruct (Z.eqb_spec (zget (i_addrs n) bn) 0) as [Hz|Hz]; [|by apply wp_ret; destruct Hself].
    apply wp_bind. eapply balloc_file; [exact Hok|rewrite size_empty; lia|lia|exact Hd|by intros b Hb%not_elem_of_empty| |].
    + intros b l1 Hb Hub H1 Hb0. destruct (Z.eqb_spec b 0) as [|_]; [done|].
      apply wp_bind, wp_modify, wp_ret.
      destruct (grows_direct sb V n Hf (dk_map _ _ Hd) (dk_zero _ _ Hd) b bn Hb Hub ltac:(lia) Hz) as [Hg Hat].
      split; [split; try done; intros j Hj; by apply fset_ne|].
      exists (alloc_view sb V b), (w - 2). cbn [fs_inode put_inodes put_log fs_log]. rewrite fset_eq.
      split; [lia|]. split; [exact H1|]. split; [exact Hg|]. split; [by symmetry|done].
    + intros l1 Hall H1. cbn [Z.eqb]. apply wp_ret. split; [done|]. exists V, w. split; [lia|].
      split; [exact H1|]. split; [apply grows_refl; [done|apply Hd]|]. split; [change (0 = faddr V n bn); congruence|done].
  - destruct (Z.ltb_spec (bn - NDIRECT) NINDIRECT) as [Hi|Hi]; [|unfold MAXFILE in *; lia].
    apply wp_bind, wp_gets. fold n. fold (ind n). apply wp_bind.
    destruct (Z.eqb_spec (ind n) 0) as [Hz|Hz].
    + apply wp_bind. eapply balloc_file; [exact Hok|rewrite size_empty; lia|lia|exact Hd|by intros b Hb%not_elem_of_empty| |].
      * intros b l1 Hb Hub H1 Hb0. destruct (Z.eqb_spec b 0) as [|_]; [done|].
        apply wp_bind, wp_modify, wp_ret. destruct (Z.eqb_spec b 0) as [|_]; [done|].
        destruct (grows_indirect sb V n Hf (dk_map _ _ Hd) (dk_zero _ _ Hd) b Hb Hub Hz) as [Hg Hin].
        set (n1 := set_i_addrs (zset NDIRECT b (i_addrs n)) n) in *.
        set (s1 := put_inodes _ _).
        assert (Hn1 : fs_inode s1 ip = n1) by (unfold s1; cbn; by rewrite fset_eq).
        pose proof (bmap_entry (w - 2) (alloc_view sb V b) s1 ip bn) as He.
        rewrite Hn1 in He. cbn zeta in He. change (fs_sb s1) with sb in He. rewrite Hin in He.
        eapply wp_mono; [apply He; [exact H1|lia|by eapply disk_ok_grows|apply Hg|lia|done]|].
        intros r s2 (Hfr & V2 & w2 & Hw2 & H2 & Hg2 & Hr & Hr0). rewrite Hn1 in Hg2.
        split; [eapply frame_trans; [|exact Hfr]; split; try done; intros j Hj; by apply fset_ne|].
        exists V2, w2. split; [lia|]. split; [done|]. split; [by eapply grows_trans|]. done.
      * intros l1 Hall H1. cbn [Z.eqb]. apply wp_ret. cbn [Z.eqb]. apply wp_ret. split; [done|].
        exists V, w. split; [lia|]. split; [exact H1|]. split; [apply grows_refl; [done|apply Hd]|].
        split; [|done]. unfold faddr. destruct (Z.ltb_spec bn NDIRECT); [lia|].
        change (fs_inode _ ip) with n. rewrite Hz. done.
    + apply wp_ret. destruct (Z.eqb_spec (ind n) 0) as [|_]; [done|].
      eapply wp_mono; [apply bmap_entry; [exact Hok|lia|exact Hd|exact Hf|lia|done]|].
      intros r s2 (Hfr & V2 & w2 & Hw2 & H2). split; [done|]. exists V2, w2. split; [lia|done].
Qed.
End Bmap.
