(* ===== verification/FsRead.v ===== *)
(** readi(): the bytes of a file, to any destination. *)

From S2P Require Import Prelude Riscv CString Kalloc Vm Sleeplock Fields BlockCache Log.
From S2P Require Import LogProps LogSpace Fs FsView FsAlloc FsFile.

(** [k] bytes of the file from offset [off]. *)
Definition fbytes (V : Z -> list Z) (n : inode) (off k : Z) : list Z := map (fbyte V n) (seqZ off k).

Lemma length_fbytes V n off k : length (fbytes V n off k) = Z.to_nat k.
Proof. unfold fbytes. by rewrite length_map, length_seqZ. Qed.

Lemma fbytes_app V n off j k :
  0 <= j -> 0 <= k -> fbytes V n off (j + k) = fbytes V n off j ++ fbytes V n (off + j) k.
Proof. intros. unfold fbytes. by rewrite seqZ_app, map_app. Qed.

Lemma zget_fbytes V n off k i : 0 <= i < k -> zget (fbytes V n off k) i = fbyte V n (off + i).
Proof.
  intros Hi. unfold zget, fbytes. rewrite list_lookup_total_alt, list_lookup_fmap.
  rewrite lookup_seqZ_lt by lia. cbn. do 2 f_equal. lia.
Qed.

(** Bytes within one block. *)
Lemma block_split o i : 0 <= o -> 0 <= i < BSIZE - o mod BSIZE ->
  (o + i) / BSIZE = o / BSIZE /\ (o + i) mod BSIZE = o mod BSIZE + i.
Proof.
  intros Ho Hi. pose proof (Z_div_mod_decomp o BSIZE ltac:(done)) as [He Hr].
  assert (E : o + i = BSIZE * (o / BSIZE) + (o mod BSIZE + i)) by lia.
  split.
  - symmetry. eapply Z.div_unique; [left|exact E]. lia.
  - symmetry. eapply Z.mod_unique; [left|exact E]. lia.
Qed.

Lemma block_bytes V n o m :
  0 <= o -> 0 <= m <= BSIZE - o mod BSIZE -> length (V (faddr V n (o / BSIZE))) = Z.to_nat BSIZE ->
  slice (o mod BSIZE) m (V (faddr V n (o / BSIZE))) = fbytes V n o m.
Proof.
  intros Ho Hm Hl. pose proof (Z.mod_pos_bound o BSIZE ltac:(done)).
  apply list_eq_zget; rewrite length_slice by (rewrite ?Hl; lia); [by rewrite length_fbytes|].
  intros i Hi. rewrite zget_slice, zget_fbytes by (rewrite ?Hl; lia).
  unfold fbyte. destruct (block_split o i Ho ltac:(lia)) as [-> ->]. done.
Qed.

(** The number of bytes readi() transfers. *)
Definition readlen (n : inode) (off cnt : Z) : Z :=
  if off >? i_size n then 0 else Z.min cnt (i_size n - off).

Section Read.
Context (pid : Z) {A : Type} (out : A -> list Z -> M fsys (option A)).

(** [R bs a vm]: the destination [a] and memory [vm] after the bytes [bs]. *)
Context (R : list Z -> A -> kst -> Prop).
Context (Hout : forall bs a bs' s, R bs a (fs_vm s) ->
  wp (out a bs') (fun r s' => exists a' vm', r = Some a' /\ s' = lset fvm vm' s /\ R (bs ++ bs') a' vm') s).
#[local] Set Default Proof Using "Type*".

Record read_frame (s s' : fsys) : Prop := {
  rf_sb : fs_sb s' = fs_sb s;
  rf_itlock : fs_itlock s' = fs_itlock s;
  rf_woken : fs_woken s' = fs_woken s;
  rf_inode : fs_inode s' = fs_inode s;
  rf_out : fs_out s' = fs_out s;
}.

Lemma readi_to_spec sb w V s ip dst off cnt :
  let n := fs_inode s ip in let k := readlen n off cnt in
  fsok pid ∅ w V (fs_log s) -> file_ok sb V n -> 0 <= off -> 0 <= cnt -> off + cnt < 2 ^ 32 ->
  R [] dst (fs_vm s) ->
  wp (readi_to pid out ip dst off cnt)
    (fun r s' => r.1 = k /\ read_frame s s' /\ fsok pid ∅ w V (fs_log s') /\
                 R (fbytes V n off k) r.2 (fs_vm s')) s.
Proof.
  intros n k Hok Hf Ho Hc Hov HR. unfold readi_to.
  apply wp_bind, wp_gets, wp_bind, wp_gets. fold n. unfold k, readlen. clear k.
  rewrite u32_small by (unfold is_u32; lia).
  destruct (Z.gtb_spec off (i_size n)) as [Hgt|Hle]; cbn [orb]; [by apply wp_ret|].
  destruct (Z.ltb_spec (off + cnt) off) as [|_]; [lia|].
  set (k := Z.min cnt (i_size n - off)).
  replace (if off + cnt >? i_size n then i_size n - off else cnt) with k
    by (unfold k; destruct (Z.gtb_spec (off + cnt) (i_size n)); lia).
  apply (wp_loop (fun '(tot, o, a) s' => 0 <= tot <= k /\ o = off + tot /\ read_frame s s' /\
            fsok pid ∅ w V (fs_log s') /\ R (fbytes V n off tot) a (fs_vm s'))
          (fun '(tot, _, _) _ => Z.to_nat (k - tot))).
  - unfold k. split_and!; try done; lia.
  - unfold k. lia.
  - intros [[tot o] a] s1 (Ht & -> & Hfr & Hok1 & HR1).
    destruct (Z.ltb_spec tot k) as [Hlt|Hge].
    2:{ apply wp_ret. assert (tot = k) as -> by lia. done. }
    set (o := off + tot) in *. pose proof (Z.mod_pos_bound o BSIZE ltac:(done)) as Hmod.
    assert (Hn1 : fs_inode s1 ip = n) by (by rewrite (rf_inode _ _ Hfr)).
    assert (Hbn : 0 <= o / BSIZE < MAXFILE).
    { pose proof (fk_size _ _ _ Hf). split; [apply Z.div_pos; [lia|done]|].
      apply Z.div_lt_upper_bound; [done|]. unfold k in *. lia. }
    assert (Hne : faddr V n (o / BSIZE) <> 0).
    { apply (fk_nohole _ _ _ Hf); [lia|]. pose proof (Z.mul_div_le o BSIZE ltac:(done)). unfold k in *. lia. }
    apply wp_bind. eapply (bmap_hit pid sb w V); rewrite ?Hn1; try done. intros l2 H2.
    destruct (Z.eqb_spec (faddr V n (o / BSIZE)) 0) as [|_]; [done|].
    apply wp_bind. eapply wp_bread_; [exact H2|apply not_elem_of_empty|rewrite size_empty; lia|]. intros l3 H3.
    apply wp_bind. eapply wp_data_; [exact H3|set_solver|].
    set (m := Z.min (k - tot) (BSIZE - o mod BSIZE)).
    rewrite block_bytes; [|lia|lia|by apply (fk_block _ _ _ Hf), faddr_owns].
    apply wp_bind. eapply wp_mono; [apply (Hout (fbytes V n off tot)); exact HR1|].
    cbn beta. intros r s4 (a' & vm' & -> & -> & HR4).
    apply wp_bind. eapply wp_brelse_; [exact H3|set_solver|]. intros l5 H5. apply wp_ret.
    rewrite rel_union in H5 by apply not_elem_of_empty. cbn.
    split; [|unfold m; lia]. split_and!; [unfold m; lia|unfold m; lia|unfold o; lia| |done|].
    + by destruct Hfr.
    + rewrite fbytes_app by (unfold m; lia). done.
Qed.
End Read.
