(* ===== verification/FsInode.v ===== *)
(** Inodes on disk: struct dinode is written and read back, iupdate(). *)

From S2P Require Import Prelude Riscv CString Kalloc Vm Sleeplock Fields BlockCache Log.
From S2P Require Import LogProps LogSpace Fs FsView.

(** The fields of an inode have the widths of the C types. *)
Record inode_wf (n : inode) : Prop := {
  iw_type : - 2 ^ 15 <= i_type n < 2 ^ 15;
  iw_major : - 2 ^ 15 <= i_major n < 2 ^ 15;
  iw_minor : - 2 ^ 15 <= i_minor n < 2 ^ 15;
  iw_nlink : - 2 ^ 15 <= i_nlink n < 2 ^ 15;
  iw_size : is_u32 (i_size n);
  iw_len : length (i_addrs n) = 13%nat;
  iw_addrs : forall i, 0 <= i < 13 -> is_u32 (zget (i_addrs n) i);
}.

Lemma i16_u16 x : - 2 ^ 15 <= x < 2 ^ 15 -> i16 (u16 x) = x.
Proof.
  intros Hx. unfold i16, u16. rewrite Zplus_mod_idemp_l. rewrite Z.mod_small; lia.
Qed.

Section Put.
Context (w : nat) (off v : Z) (d : list Z).
Context (Ho : 0 <= off) (Hl : off + Z.of_nat w <= Z.of_nat (length d)).
#[local] Set Default Proof Using "Ho Hl".

Lemma put_get16_ne o : 0 <= o -> o + 2 <= off \/ off + Z.of_nat w <= o ->
  get16 (put_le w off v d) o = get16 d o.
Proof. intros. unfold get16. apply get_put_le_other; lia. Qed.
Lemma put_get32_ne o : 0 <= o -> o + 4 <= off \/ off + Z.of_nat w <= o ->
  get32 (put_le w off v d) o = get32 d o.
Proof. intros. unfold get32. apply get_put_le_other; lia. Qed.
End Put.

Lemma get16_put16 off v d :
  0 <= off -> off + 2 <= Z.of_nat (length d) -> is_u16 v -> get16 (put16 off v d) off = v.
Proof. intros Ho Hl Hv. apply get_put_le; [lia|lia|]. unfold is_u16 in Hv. cbn. lia. Qed.
Lemma get32_put32 off v d :
  0 <= off -> off + 4 <= Z.of_nat (length d) -> is_u32 v -> get32 (put32 off v d) off = v.
Proof. intros Ho Hl Hv. apply get_put_le; [lia|lia|]. unfold is_u32 in Hv. cbn. lia. Qed.

(** The array of addresses. *)
Lemma put_addrs_spec j off addrs d :
  0 <= off -> off + 4 * Z.of_nat j <= Z.of_nat (length d) ->
  (forall i, 0 <= i < Z.of_nat j -> is_u32 (zget addrs i)) ->
  let d' := put_addrs off (Z.of_nat j) addrs d in
  length d' = length d /\
  (forall i, 0 <= i < Z.of_nat j -> get32 d' (off + 4 * i) = zget addrs i) /\
  (forall i, 0 <= i -> ~ (off <= i < off + 4 * Z.of_nat j) -> zget d' i = zget d i).
Proof.
  intros Ho. induction j as [|j IH]; intros Hl Hr; [split_and!; [done|lia|done]|].
  destruct (IH ltac:(lia) ltac:(intros; apply Hr; lia)) as (Hlen & Hget & Hoth).
  unfold put_addrs. replace (seqZ 0 (Z.of_nat (S j))) with (seqZ 0 (Z.of_nat j) ++ [Z.of_nat j]).
  2:{ replace (Z.of_nat (S j)) with (Z.of_nat j + 1) by lia. rewrite seqZ_app by lia. done. }
  rewrite fold_left_app. cbn [fold_left]. fold (put_addrs off (Z.of_nat j) addrs d).
  set (d1 := put_addrs off (Z.of_nat j) addrs d) in *. unfold put32. split_and!.
  - by rewrite length_put_le.
  - intros i Hi. destruct (decide (i = Z.of_nat j)) as [->|Hne].
    + apply get32_put32; [lia|lia|apply Hr; lia].
    + rewrite put_get32_ne by lia. apply Hget. lia.
  - intros i Hi Hn. rewrite put_le_other by lia. apply Hoth; lia.
Qed.

(** Reading back what was written, at the same place and at another. *)
Lemma dinode_roundtrip n off d m :
  inode_wf n -> 0 <= off -> off + sizeof_dinode <= Z.of_nat (length d) ->
  get_dinode (put_dinode n off d) off m =
    set_i_disk (i_type n) (i_major n) (i_minor n) (i_nlink n) (i_size n) (i_addrs n) m.
Proof.
  intros [Ht Hma Hmi Hn Hs Hla Had] Ho Hl. unfold sizeof_dinode in Hl.
  unfold put_dinode. cbn zeta. set (d5 := put32 _ _ _).
  assert (Hl5 : length d5 = length d) by (unfold d5, put32, put16; by rewrite !length_put_le).
  destruct (put_addrs_spec 13 (off + 12) (i_addrs n) d5) as (Hlen & Hget & Hoth); [lia|lia|exact Had|].
  change (Z.of_nat 13) with (NDIRECT + 1) in *. set (d6 := put_addrs _ _ _ _) in *.
  assert (Hlow : forall o w, off <= o -> o + Z.of_nat w <= off + 12 -> get_le w d6 o = get_le w d5 o).
  { intros o w Ho1 Ho2. apply get_le_ext. intros i Hi. apply Hoth; lia. }
  unfold get_dinode. f_equal.
  - unfold get16. rewrite Hlow by lia. unfold d5, put32, put16.
    repeat (rewrite get_put_le_other; [|rewrite ?length_put_le; lia..]).
    change (i16 (get16 (put16 off (u16 (i_type n)) d) off) = i_type n).
    rewrite get16_put16 by (lia || apply u16_range). by apply i16_u16.
  - unfold get16. rewrite Hlow by lia. unfold d5, put32, put16.
    do 3 (rewrite get_put_le_other; [|rewrite ?length_put_le; lia..]).
    rewrite (get_put_le 2) by (rewrite ?length_put_le; try lia; apply u16_range). by apply i16_u16.
  - unfold get16. rewrite Hlow by lia. unfold d5, put32, put16.
    do 2 (rewrite get_put_le_other; [|rewrite ?length_put_le; lia..]).
    rewrite (get_put_le 2) by (rewrite ?length_put_le; try lia; apply u16_range). by apply i16_u16.
  - unfold get16. rewrite Hlow by lia. unfold d5, put32, put16.
    rewrite get_put_le_other; [|rewrite ?length_put_le; lia..].
    rewrite (get_put_le 2) by (rewrite ?length_put_le; try lia; apply u16_range). by apply i16_u16.
  - unfold get32. rewrite Hlow by lia. unfold d5, put32, put16.
    apply (get_put_le 4); rewrite ?length_put_le; try lia. unfold is_u32 in Hs. cbn. lia.
  - apply list_eq_zget; unfold get_addrs; rewrite length_map, length_seqZ; [by rewrite Hla|].
    intros i Hi. rewrite <- Hget by lia. unfold zget. rewrite list_lookup_total_alt, list_lookup_fmap.
    rewrite lookup_seqZ_lt by lia. rewrite Z.add_0_l, Z2Nat.id by lia. done.
Qed.

Lemma put_dinode_other n off d i :
  0 <= off -> off + sizeof_dinode <= Z.of_nat (length d) ->
  (forall j, 0 <= j < 13 -> is_u32 (zget (i_addrs n) j)) ->
  0 <= i -> ~ (off <= i < off + sizeof_dinode) -> zget (put_dinode n off d) i = zget d i.
Proof.
  intros Ho Hl Had Hi Hn. unfold sizeof_dinode in *. unfold put_dinode. cbn zeta. set (d5 := put32 _ _ _).
  assert (Hl5 : length d5 = length d) by (unfold d5, put32, put16; by rewrite !length_put_le).
  destruct (put_addrs_spec 13 (off + 12) (i_addrs n) d5) as (_ & _ & Hoth); [lia|lia|exact Had|].
  change (NDIRECT + 1) with (Z.of_nat 13). rewrite Hoth by lia.
  unfold d5, put32, put16. by rewrite !put_le_other by (rewrite ?length_put_le; lia).
Qed.

Lemma length_put_dinode n off d :
  0 <= off -> off + sizeof_dinode <= Z.of_nat (length d) ->
  (forall j, 0 <= j < 13 -> is_u32 (zget (i_addrs n) j)) ->
  length (put_dinode n off d) = length d.
Proof.
  intros Ho Hl Had. unfold sizeof_dinode in *. unfold put_dinode. cbn zeta. set (d5 := put32 _ _ _).
  assert (Hl5 : length d5 = length d) by (unfold d5, put32, put16; by rewrite !length_put_le).
  destruct (put_addrs_spec 13 (off + 12) (i_addrs n) d5) as (Hlen & _ & _); [lia|lia|exact Had|].
  change (NDIRECT + 1) with (Z.of_nat 13). by rewrite Hlen.
Qed.

(** * iupdate() *)

Definition ioff (inum : Z) : Z := (inum mod IPB) * sizeof_dinode.

Lemma ioff_range inum : 0 <= ioff inum /\ ioff inum + sizeof_dinode <= BSIZE.
Proof.
  unfold ioff, sizeof_dinode. pose proof (Z.mod_pos_bound inum IPB ltac:(done)) as H.
  change IPB with 16 in *. unfold BSIZE. lia.
Qed.

Lemma iupdate_spec pid H w V s ip (Q : unit -> fsys -> Prop) :
  let n := fs_inode s ip in
  let b := IBLOCK (i_inum n) (fs_sb s) in
  fsok pid H w V (fs_log s) -> b ∉ H -> (size H <= 2)%nat -> 0 < w ->
  (forall l', fsok pid H (w - 1) (fset V b (put_dinode n (ioff (i_inum n)) (V b))) l' ->
     Q tt (put_log l' s)) ->
  wp (iupdate pid ip) Q s.
Proof.
  intros n b Hok Hb Hsz Hw HQ. unfold iupdate. apply wp_bind, wp_gets, wp_bind, wp_gets.
  unfold id. fold n b. apply wp_bind. eapply wp_bread_; [done|done|done|]. intros l1 H1.
  apply wp_bind. eapply wp_data_; [exact H1|set_solver|].
  eapply wp_update_; [exact H1|set_solver|done|]. intros l2 H2.
  eapply wp_brelse_; [exact H2|set_solver|]. intros l3 H3. rewrite rel_union in H3 by done.
  by apply HQ.
Qed.
