(* ===== verification/FsWrite.v ===== *)
(** writei(): bytes written to a file, blocks allocated as needed. *)

From S2P Require Import Prelude Riscv CString Kalloc Vm Sleeplock Fields BlockCache Log.
From S2P Require Import LogProps LogSpace Fs FsView FsAlloc FsFile FsRead FsInode.

(** The byte of a file, 0 where it has no block. *)
Definition fbyte0 (V : Z -> list Z) (n : inode) (i : Z) : Z :=
  if faddr V n (i / BSIZE) =? 0 then 0 else fbyte V n i.

(** From [V], [n] to [V'], [n'] with the bytes [bs] written at [off]: the size
    in the inode is not yet changed. *)
Record wrote (sb : superblock) (V : Z -> list Z) (n : inode) (off : Z) (bs : list Z)
    (V' : Z -> list Z) (n' : inode) : Prop := {
  wr_ok : file_ok sb V' n';
  wr_disk : disk_ok sb V';
  wr_same : exists a, n' = set_i_addrs a n;
  wr_addr : forall x, 0 <= x < MAXFILE -> faddr V n x <> 0 -> faddr V' n' x = faddr V n x;
  wr_byte : forall i, 0 <= i < MAXFILE * BSIZE ->
    fbyte0 V' n' i = if (off <=? i) && (i <? off + Z.of_nat (length bs)) then zget bs (i - off)
                     else fbyte0 V n i;
  wr_alloc : forall i, 0 <= i < MAXFILE * BSIZE -> off <= i < off + Z.of_nat (length bs) ->
    faddr V' n' (i / BSIZE) <> 0;
  wr_keep : forall b, 0 < b < sb_size sb -> used sb V b = true -> ~ is_map sb b -> ~ owns V n b ->
    V' b = V b;
  wr_used : forall b, 0 <= b < sb_size sb -> used sb V b = true -> used sb V' b = true;
  wr_own : forall b, owns V' n' b -> owns V n b \/ used sb V b = false;
}.

Lemma wrote_nil sb V n off : file_ok sb V n -> disk_ok sb V -> wrote sb V n off [] V n.
Proof.
  intros Hf Hd. split; try done.
  - exists (i_addrs n). by rewrite set_i_addrs_id.
  - intros i Hi. cbn [length]. destruct ((off <=? i) && (i <? off + Z.of_nat 0)) eqn:E; [|done].
    apply andb_true_iff in E as [E1%Z.leb_le E2%Z.ltb_lt]. lia.
  - cbn. lia.
  - intros b Hb. by left.
Qed.

Lemma faddr_range sb V n i : file_ok sb V n -> 0 <= i < MAXFILE * BSIZE -> 0 <= i / BSIZE < MAXFILE.
Proof.
  intros _ Hi. split; [apply Z.div_pos; [lia|done]|]. apply Z.div_lt_upper_bound; [done|]. lia.
Qed.

(** Growth does not change the bytes. *)
Lemma wrote_grow sb V n off bs V1 n1 V2 n2 :
  wrote sb V n off bs V1 n1 -> grows sb V1 n1 V2 n2 -> wrote sb V n off bs V2 n2.
Proof.
  intros [Hok Hd [a ->] Ha Hb Hal Hk Hu How] Hg. pose proof Hg as [Gok Gm [a2 ->] Ga Gn Gi Gk Gu Gw].
  split; try done.
  - by eapply disk_ok_grows.
  - by exists a2.
  - intros x Hx Hne. rewrite Ga; [by apply Ha|done|]. by rewrite Ha.
  - intros i Hi. rewrite <- Hb by done. unfold fbyte0.
    pose proof (faddr_range sb _ _ i Hok Hi) as Hr.
    destruct (Z.eqb_spec (faddr V1 (set_i_addrs a n) (i / BSIZE)) 0) as [Hz|Hz].
    + destruct (Z.eqb_spec (faddr V2 (set_i_addrs a2 (set_i_addrs a n)) (i / BSIZE)) 0) as [|Hz2]; [done|].
      unfold fbyte. rewrite Gn by done. unfold zeroblock. apply zget_replicate.
      pose proof (Z.mod_pos_bound i BSIZE ltac:(done)). lia.
    + rewrite (Ga _ Hr Hz). destruct (Z.eqb_spec (faddr V1 (set_i_addrs a n) (i / BSIZE)) 0) as [|_]; [done|].
      unfold fbyte. rewrite (Ga _ Hr Hz).
      destruct (fk_used _ _ _ Hok _ (faddr_owns _ _ _ Hr Hz)) as (Hrg & Hux & Hmx).
      rewrite Gk; [done|done|done|done|by apply (fk_ind _ _ _ Hok)].
  - intros i Hi Hio. rewrite Ga; [by apply Hal|by eapply faddr_range|by apply Hal].
  - intros b Hr Hub Hm Hno. rewrite Gk, Hk; try done; [lia|apply Hu; [lia|done]|]. intros ->.
    destruct (How _ (ind_owns V1 (set_i_addrs a n) ltac:(lia))) as [|]; [done|congruence].
  - intros b Hr Hub. apply Gu; [done|]. by apply Hu.
  - intros b Hb'. destruct (Gw b Hb') as [Hb1|Hb1]; [by apply How|].
    right. destruct (used sb V b) eqn:E; [|done]. rewrite Hu in Hb1; [done| |done].
    by apply (fk_used _ _ _ Gok).
Qed.

(** Overwriting a data block of the file with one of the same length. *)
Section Data.
Context (sb : superblock) (V : Z -> list Z) (n : inode) (bn : Z) (d : list Z).
Context (Hf : file_ok sb V n) (Hbn : 0 <= bn < MAXFILE) (Hne : faddr V n bn <> 0).
Context (Hd : length d = Z.to_nat BSIZE).
#[local] Set Default Proof Using "Hf Hbn Hne Hd".

Let a := faddr V n bn.
Let V' := fset V a d.

Lemma data_faddr x : faddr V' n x = faddr V n x.
Proof.
  unfold faddr. destruct (x <? NDIRECT); [done|]. destruct (ind n =? 0); [done|].
  unfold V'. rewrite fset_ne; [done|]. intros He. by apply (fk_ind _ _ _ Hf bn Hbn Hne).
Qed.

Lemma data_owns b : owns V' n b <-> owns V n b.
Proof. unfold owns. by setoid_rewrite data_faddr. Qed.

Lemma data_used x : 0 <= x < sb_size sb -> used sb V' x = used sb V x.
Proof.
  intros Hx. unfold used, V'. rewrite fset_ne; [done|]. intros He.
  destruct (fk_used _ _ _ Hf _ (faddr_owns _ _ _ Hbn Hne)) as (_ & _ & Hm). apply Hm.
  fold a. rewrite <- He. by exists x.
Qed.

Lemma data_map : map_ok sb V -> map_ok sb V'.
Proof.
  intros [Hl Hu]. destruct (fk_used _ _ _ Hf _ (faddr_owns _ _ _ Hbn Hne)) as (_ & _ & Hm). split.
  - intros x Hx. unfold V'. rewrite fset_ne; [by apply Hl|]. intros ->. done.
  - intros x Hx Hr. rewrite data_used by done. by apply Hu.
Qed.

Lemma data_disk : disk_ok sb V -> disk_ok sb V'.
Proof. intros [Hm Hz Hs]. split; [by apply data_map| |done]. rewrite data_used by lia. done. Qed.

Lemma data_file : file_ok sb V' n.
Proof.
  pose proof Hf as [Hl Hus Hbl Hinj Hind Hsz Hnh]. split; try done.
  - intros b Hb. apply data_owns in Hb. destruct (Hus b Hb) as (Hr & Hub & Hm). split; [done|].
    by rewrite data_used.
  - intros b Hb. apply data_owns in Hb. destruct (fset_case V a d b) as [[-> E]|[_ E]];
      unfold V'; rewrite E; [done|by apply Hbl].
  - intros x y. rewrite !data_faddr. apply Hinj.
  - intros x. rewrite data_faddr. apply Hind.
  - intros x. rewrite data_faddr. apply Hnh.
Qed.

Lemma data_byte i :
  0 <= i < MAXFILE * BSIZE ->
  fbyte0 V' n i = if i / BSIZE =? bn then zget d (i mod BSIZE) else fbyte0 V n i.
Proof.
  intros Hi. pose proof (faddr_range sb V n i Hf Hi) as Hr. unfold fbyte0, fbyte. rewrite data_faddr.
  destruct (Z.eqb_spec (i / BSIZE) bn) as [->|Hbn'].
  - destruct (Z.eqb_spec (faddr V n bn) 0); [done|]. unfold V'. by rewrite fset_eq.
  - destruct (Z.eqb_spec (faddr V n (i / BSIZE)) 0); [done|]. unfold V'. rewrite fset_ne; [done|].
    intros He. apply Hbn'. by apply (fk_inj _ _ _ Hf).
Qed.
End Data.

(** The next bytes, within one block. *)
Lemma wrote_block sb V n off bs V1 n1 chunk :
  let o := off + Z.of_nat (length bs) in
  let a := faddr V1 n1 (o / BSIZE) in
  wrote sb V n off bs V1 n1 -> 0 <= off -> o + Z.of_nat (length chunk) <= MAXFILE * BSIZE ->
  o < MAXFILE * BSIZE -> a <> 0 -> Z.of_nat (length chunk) <= BSIZE - o mod BSIZE ->
  wrote sb V n off (bs ++ chunk) (fset V1 a (splice (o mod BSIZE) chunk (V1 a))) n1.
Proof.
  intros o a [Hok Hd [ad ->] Ha Hb Hal Hk Hu How] Hoff Hmax Ho Hne Hch.
  set (n1 := set_i_addrs ad n) in *.
  assert (Hbn : 0 <= o / BSIZE < MAXFILE) by (eapply faddr_range; [exact Hok|lia]).
  pose proof (Z.mod_pos_bound o BSIZE ltac:(done)) as Hmod.
  assert (Hla : length (V1 a) = Z.to_nat BSIZE) by (by apply (fk_block _ _ _ Hok), faddr_owns).
  set (d := splice (o mod BSIZE) chunk (V1 a)).
  assert (Hld : length d = Z.to_nat BSIZE) by (unfold d; by rewrite length_splice).
  assert (Hfa : forall x, faddr (fset V1 a d) n1 x = faddr V1 n1 x) by (intros; by eapply data_faddr).
  split.
  - by eapply data_file.
  - by eapply data_disk.
  - by exists ad.
  - intros x Hx Hx0. rewrite Hfa. by apply Ha.
  - intros i Hi. unfold a. erewrite data_byte by done. rewrite length_app.
    pose proof (Z_div_mod_decomp i BSIZE ltac:(done)) as [Hie Him].
    pose proof (Z_div_mod_decomp o BSIZE ltac:(done)) as [Hoe Hom].
    destruct (Z.eqb_spec (i / BSIZE) (o / BSIZE)) as [He|He].
    + unfold d. rewrite zget_splice by (rewrite ?Hla; lia).
      destruct (decide (o mod BSIZE <= i mod BSIZE < o mod BSIZE + Z.of_nat (length chunk))) as [Hin|Hin].
      * replace ((off <=? i) && (i <? off + Z.of_nat (length bs + length chunk))) with true
          by (symmetry; apply andb_true_iff; split; [apply Z.leb_le|apply Z.ltb_lt]; lia).
        replace ((o mod BSIZE <=? i mod BSIZE) && (i mod BSIZE <? o mod BSIZE + Z.of_nat (length chunk))) with true
          by (symmetry; apply andb_true_iff; split; [apply Z.leb_le|apply Z.ltb_lt]; lia).
        rewrite zget_app_r by lia. f_equal. lia.
      * replace ((o mod BSIZE <=? i mod BSIZE) && (i mod BSIZE <? o mod BSIZE + Z.of_nat (length chunk))) with false
          by (symmetry; apply andb_false_iff; rewrite Z.leb_gt, Z.ltb_ge; lia).
        specialize (Hb i Hi). unfold fbyte0 in Hb at 1. rewrite He in Hb. fold a in Hb.
        destruct (Z.eqb_spec a 0); [done|]. unfold fbyte in Hb at 1. rewrite He in Hb. fold a in Hb. rewrite Hb.
        repeat zcase; try lia; try done. rewrite zget_app_l by lia. done.
    + rewrite Hb by done. repeat zcase; try lia; try done. 
      * by rewrite zget_app_l by lia.
      * exfalso. apply He. destruct (block_split o (i - o) ltac:(lia) ltac:(lia)) as [E _].
        by replace (o + (i - o)) with i in E by lia.
  - intros i Hi Hio. rewrite Hfa. rewrite length_app in Hio.
    destruct (decide (i < o)) as [Hlt|Hge]; [apply Hal; lia|].
    destruct (block_split o (i - o) ltac:(lia) ltac:(lia)) as [E _].
    replace (o + (i - o)) with i in E by lia. by rewrite E.
  - intros b Hr Hub Hm Hno. rewrite fset_ne; [by apply Hk|]. intros ->.
    destruct (How a) as [|]; [by apply faddr_owns|done|congruence].
  - intros b Hr Hub. unfold a. rewrite (data_used sb) by done. by apply Hu.
  - intros b Hb'. apply How. by apply (data_owns sb V1 n1 (o / BSIZE) d Hok Hbn Hne Hld).
Qed.

(** Changing a block that is neither the file's nor the free map's. *)
Section Foreign.
Context (sb : superblock) (V : Z -> list Z) (n : inode) (b : Z) (d : list Z).
Context (Hnm : ~ is_map sb b) (Hno : ~ owns V n b) (Hb : b <> 0).
#[local] Set Default Proof Using "Hnm Hno Hb".

Lemma foreign_faddr x : faddr (fset V b d) n x = faddr V n x.
Proof.
  unfold faddr. destruct (x <? NDIRECT); [done|]. destruct (Z.eqb_spec (ind n) 0) as [|Hi]; [done|].
  rewrite fset_ne; [done|]. intros He. apply Hno. rewrite <- He. by apply ind_owns.
Qed.

Lemma foreign_owns c : owns (fset V b d) n c <-> owns V n c.
Proof. unfold owns. by setoid_rewrite foreign_faddr. Qed.

Lemma foreign_used x : 0 <= x < sb_size sb -> used sb (fset V b d) x = used sb V x.
Proof.
  intros Hx. unfold used. rewrite fset_ne; [done|]. intros He. apply Hnm. rewrite <- He. by exists x.
Qed.

Lemma foreign_disk : disk_ok sb V -> disk_ok sb (fset V b d).
Proof.
  intros [[Hl Hu] Hz Hs]. split; [split|by rewrite foreign_used by lia|done].
  - intros x Hx. rewrite fset_ne; [by apply Hl|]. by intros ->.
  - intros x Hx Hr. rewrite foreign_used by done. by apply Hu.
Qed.

Lemma foreign_file : file_ok sb V n -> file_ok sb (fset V b d) n.
Proof.
  intros [Hl Hus Hbl Hinj Hind Hsz Hnh]. split; try done.
  - intros c Hc. apply foreign_owns in Hc. destruct (Hus c Hc) as (Hr & Huc & Hm).
    rewrite foreign_used by done. done.
  - intros c Hc. apply foreign_owns in Hc. rewrite fset_ne; [by apply Hbl|]. by intros ->.
  - intros x y. rewrite !foreign_faddr. apply Hinj.
  - intros x. rewrite foreign_faddr. apply Hind.
  - intros x. rewrite foreign_faddr. apply Hnh.
Qed.

Lemma foreign_byte i : 0 <= i < MAXFILE * BSIZE -> file_ok sb V n -> fbyte0 (fset V b d) n i = fbyte0 V n i.
Proof.
  intros Hi Hf. pose proof (faddr_range sb V n i Hf Hi) as Hr. unfold fbyte0, fbyte. rewrite foreign_faddr.
  destruct (Z.eqb_spec (faddr V n (i / BSIZE)) 0) as [|Hz]; [done|]. rewrite fset_ne; [done|].
  intros He. apply Hno. rewrite <- He. by apply faddr_owns.
Qed.
End Foreign.

(** Extending the size over bytes that have been written. *)
Lemma file_ok_size sb V n sz :
  file_ok sb V n -> 0 <= sz <= MAXFILE * BSIZE ->
  (forall x, 0 <= x -> x * BSIZE < sz -> faddr V n x <> 0) -> file_ok sb V (set_i_size sz n).
Proof. intros [Hl Hus Hbl Hinj Hind Hsz Hnh] Hs Hn. by split. Qed.

(** * writei() *)

(** The blocks still to write, from offset [o] to [e]. *)
Definition blocks_left (o e : Z) : Z := if o <? e then (e - 1) / BSIZE - o / BSIZE + 1 else 0.

Lemma block_end o x : x = o + (BSIZE - o mod BSIZE) -> x mod BSIZE = 0.
Proof.
  intros ->. pose proof (Z_div_mod_decomp o BSIZE ltac:(done)) as [Ho _].
  replace (o + _) with ((o / BSIZE + 1) * BSIZE) by lia. by apply Z.mod_mul.
Qed.

Lemma blocks_left_step o e m :
  0 <= o < e -> m = Z.min (e - o) (BSIZE - o mod BSIZE) ->
  0 < m /\ 0 <= blocks_left (o + m) e /\ blocks_left (o + m) e + 1 <= blocks_left o e.
Proof.
  intros Ho ->. unfold blocks_left. pose proof (Z_div_mod_decomp o BSIZE ltac:(done)) as [Hoe Hom].
  pose proof (Z_div_mod_decomp (e - 1) BSIZE ltac:(done)) as [Hee Hem].
  set (m := Z.min _ _). assert (Hm : 0 < m) by lia. split; [done|].
  destruct (Z.ltb_spec o e); [|lia]. destruct (Z.ltb_spec (o + m) e) as [Hlt|Hge].
  - assert (Hom' : o + m = BSIZE * (o / BSIZE + 1)) by lia.
    assert (Hdiv : (o + m) / BSIZE = o / BSIZE + 1) by (rewrite Hom', Z.mul_comm; by apply Z.div_mul).
    assert ((o + m) / BSIZE <= (e - 1) / BSIZE) by (apply Z.div_le_mono; [done|lia]). lia.
  - assert (o / BSIZE <= (e - 1) / BSIZE) by (apply Z.div_le_mono; [done|lia]). lia.
Qed.

Section Write.
Context (pid : Z) {A : Type} (inp : A -> Z -> M fsys (bool * list Z * A)).

(** [Src rest a vm]: the source [a] has the bytes [rest] to give. *)
Context (Src : list Z -> A -> kst -> Prop).
Context (Hinp : forall rest a m s, Src rest a (fs_vm s) -> 0 <= m <= Z.of_nat (length rest) ->
  wp (inp a m) (fun r s' => exists a', r = (true, take (Z.to_nat m) rest, a') /\ s' = s /\
                  Src (drop (Z.to_nat m) rest) a' (fs_vm s)) s).
#[local] Set Default Proof Using "Type*".

(** The inode's block on disk: in use, not the free map, not the file's. *)
Record iblock_ok (sb : superblock) (V : Z -> list Z) (n : inode) : Prop := {
  ib_range : 0 < IBLOCK (i_inum n) sb < sb_size sb;
  ib_used : used sb V (IBLOCK (i_inum n) sb) = true;
  ib_map : ~ is_map sb (IBLOCK (i_inum n) sb);
  ib_own : ~ owns V n (IBLOCK (i_inum n) sb);
}.

(** The outcome of writing [v] at [off]: [r] bytes reach the file. *)
Record written (sb : superblock) (V : Z -> list Z) (n : inode) (off : Z) (bs : list Z)
    (V' : Z -> list Z) (n' : inode) : Prop := {
  wt_ok : file_ok sb V' n';
  wt_disk : disk_ok sb V';
  wt_inode : exists a, n' = set_i_size (Z.max (i_size n) (off + Z.of_nat (length bs))) (set_i_addrs a n);
  wt_byte : forall i, 0 <= i < i_size n' ->
    fbyte V' n' i = if (off <=? i) && (i <? off + Z.of_nat (length bs)) then zget bs (i - off)
                    else fbyte V n i;
  wt_iblock : V' (IBLOCK (i_inum n) sb) =
    put_dinode n' (ioff (i_inum n)) (V (IBLOCK (i_inum n) sb));
  wt_keep : forall b, 0 < b < sb_size sb -> used sb V b = true -> ~ is_map sb b -> ~ owns V n b ->
    b <> IBLOCK (i_inum n) sb -> V' b = V b;
  wt_used : forall b, 0 <= b < sb_size sb -> used sb V b = true -> used sb V' b = true;
  wt_own : forall b, owns V' n' b -> owns V n b \/ used sb V b = false;
}.

Lemma wrote_finish sb V n off bs V1 n1 :
  file_ok sb V n -> wrote sb V n off bs V1 n1 -> iblock_ok sb V n -> 0 <= off <= i_size n ->
  off + Z.of_nat (length bs) <= MAXFILE * BSIZE ->
  let e := off + Z.of_nat (length bs) in
  let n2 := if e >? i_size n1 then set_i_size e n1 else n1 in
  let b := IBLOCK (i_inum n) sb in
  written sb V n off bs (fset V1 b (put_dinode n2 (ioff (i_inum n)) (V1 b))) n2.
Proof.
  intros Hf0 [Hok Hd [a ->] Ha Hb Hal Hk Hu How] [Ir Iu Im Io] Hoff Hmax e n2 b. fold b in Ir, Iu, Im, Io.
  set (n1 := set_i_addrs a n) in *. set (d := put_dinode _ _ _).
  assert (Hn2 : n2 = set_i_size (Z.max (i_size n) e) n1).
  { unfold n2, n1. cbn. destruct (Z.gtb_spec e (i_size n)); [by rewrite Z.max_r by lia|].
    rewrite Z.max_l by lia. by destruct n. }
  assert (Hno : ~ owns V1 n2 b).
  { rewrite Hn2. intros Hx. change (owns V1 n1 b) in Hx. destruct (How b Hx); [done|congruence]. }
  assert (Hf2 : file_ok sb V1 n2).
  { rewrite Hn2. apply file_ok_size; [done|pose proof (fk_size _ _ _ Hf0); lia|]. intros x Hx Hxs.
    destruct (decide (x * BSIZE < i_size n)) as [Hlt|Hge]; [by apply (fk_nohole _ _ _ Hok)|].
    pose proof (Hal (x * BSIZE) ltac:(lia) ltac:(lia)) as Hx2. by rewrite Z.div_mul in Hx2. }
  assert (Hb0 : b <> 0) by (unfold b; lia).
  assert (Hf3 : file_ok sb (fset V1 b d) n2) by (by apply foreign_file).
  split.
  - done.
  - by eapply foreign_disk.
  - by exists a.
  - intros i Hi. assert (Hr : 0 <= i < MAXFILE * BSIZE) by (pose proof (fk_size _ _ _ Hf2); lia).
    assert (Hsame : fbyte (fset V1 b d) n2 i = fbyte0 V1 n1 i).
    { transitivity (fbyte0 (fset V1 b d) n2 i).
      - unfold fbyte0. destruct (Z.eqb_spec (faddr (fset V1 b d) n2 (i / BSIZE)) 0) as [Hz|]; [|done].
        exfalso. apply (fk_nohole _ _ _ Hf3 (i / BSIZE)); [apply Z.div_pos; [lia|done]| |done].
        pose proof (Z.mul_div_le i BSIZE ltac:(done)). lia.
      - erewrite foreign_byte by done. by rewrite Hn2. }
    rewrite Hsame, Hb by done. fold e.
    destruct ((off <=? i) && (i <? e)) eqn:E; [done|].
    unfold fbyte0. destruct (Z.eqb_spec (faddr V n (i / BSIZE)) 0) as [Hz|]; [|done].
    exfalso. apply (fk_nohole _ _ _ Hf0 (i / BSIZE)); [apply Z.div_pos; [lia|done]| |done].
    rewrite Hn2 in Hi. cbn in Hi. apply andb_false_iff in E. rewrite Z.leb_gt, Z.ltb_ge in E.
    pose proof (Z.mul_div_le i BSIZE ltac:(done)). lia.
  - rewrite fset_eq. unfold d. by rewrite Hk.
  - intros c Hr Huc Hm Hnc Hne. rewrite fset_ne by done. by apply Hk.
  - intros c Hr Huc. erewrite (foreign_used sb V1 n2) by done. by apply Hu.
  - intros c Hc. apply (foreign_owns sb V1 n2 b d) in Hc; [|done..]. apply How. by rewrite Hn2 in Hc.
Qed.

(** After the loop: the size and the inode on disk. *)
Lemma writei_tail V s ip off v tot s1 V1 w1 (Q : Z -> fsys -> Prop) :
  let n := fs_inode s ip in let sb := fs_sb s in
  file_ok sb V n -> iblock_ok sb V n -> 0 <= off <= i_size n -> 0 <= tot <= Z.of_nat (length v) ->
  off + tot <= MAXFILE * BSIZE -> frame ip s s1 ->
  fsok pid ∅ w1 V1 (fs_log s1) -> 1 <= w1 -> wrote sb V n off (take (Z.to_nat tot) v) V1 (fs_inode s1 ip) ->
  (forall s' V' w', frame ip s s' -> fsok pid ∅ w' V' (fs_log s') ->
     (forall b, 0 <= b < sb_size sb -> used sb V' b = used sb V1 b) ->
     written sb V n off (take (Z.to_nat tot) v) V' (fs_inode s' ip) -> Q tot s') ->
  wp (let! size := iget_field i_size ip in
      (if off + tot >? size then iset ip (set_i_size (off + tot)) else ret tt) ;;;
      iupdate pid ip ;;;
      ret tot) Q s1.
Proof.
  intros n sb Hf Hib Hoff Ht Hmax Hfr Hok1 Hw1 Hwr HQ.
  assert (Hlen : Z.of_nat (length (take (Z.to_nat tot) v)) = tot) by (rewrite length_take; lia).
  pose proof (wrote_finish sb V n off _ V1 _ Hf Hwr Hib Hoff ltac:(by rewrite Hlen)) as Hfin.
  cbn zeta in Hfin. rewrite Hlen in Hfin.
  set (n1 := fs_inode s1 ip) in *. set (n2 := if off + tot >? i_size n1 then _ else n1) in *.
  apply wp_bind, wp_gets. fold n1. apply wp_bind.
  assert (Hinum : i_inum n2 = i_inum n).
  { destruct (wr_same _ _ _ _ _ _ _ Hwr) as [a Ha]. unfold n2. destruct (_ >? _); cbn; by rewrite Ha. }
  assert (Hgo : forall s2, fs_log s2 = fs_log s1 -> fs_inode s2 ip = n2 -> frame ip s s2 ->
            wp (iupdate pid ip ;;; ret tot) Q s2).
  { intros s2 Hl2 Hi2 Hfr2. apply wp_bind.
    apply (iupdate_spec pid ∅ w1 V1); rewrite ?Hl2; [done|apply not_elem_of_empty|rewrite size_empty; lia|lia|].
    intros l' Hok'. apply wp_ret. rewrite Hi2, Hinum, (fr_sb _ _ _ Hfr2) in Hok'. fold sb in Hok'.
    eapply HQ; [| exact Hok'| |].
    - eapply frame_trans; [exact Hfr2|done].
    - intros b Hb. destruct Hib as [Ir Iu Im Io]. unfold used. rewrite fset_ne; [done|]. intros He.
      apply Im. rewrite <- He. by exists b.
    - change (fs_inode (put_log l' s2) ip) with (fs_inode s2 ip). rewrite Hi2. exact Hfin. }
  destruct (off + tot >? i_size n1) eqn:E.
  - apply wp_modify. apply Hgo; [done|cbn; by rewrite fset_eq|].
    eapply frame_trans; [exact Hfr|]. apply (frame_inode ip s1).
  - apply wp_ret. by apply Hgo.
Qed.

Lemma writei_from_spec w V s ip src off v :
  let n := fs_inode s ip in let sb := fs_sb s in let e := off + Z.of_nat (length v) in
  fsok pid ∅ w V (fs_log s) -> disk_ok sb V -> file_ok sb V n -> iblock_ok sb V n ->
  0 <= off <= i_size n -> e <= MAXFILE * BSIZE ->
  6 * blocks_left off e + 1 <= w -> Src v src (fs_vm s) ->
  wp (writei_from pid inp ip src off (Z.of_nat (length v)))
    (fun r s' => frame ip s s' /\ 0 <= r <= Z.of_nat (length v) /\ exists V' w',
       fsok pid ∅ w' V' (fs_log s') /\
       written sb V n off (take (Z.to_nat r) v) V' (fs_inode s' ip) /\
       (r < Z.of_nat (length v) -> (r = 0 \/ (off + r) mod BSIZE = 0) /\
          forall b, 0 <= b < sb_size sb -> used sb V' b = true)) s.
Proof.
  intros n sb e Hok Hd Hf Hib Hoff Hmax Hw Hsrc. pose proof (fk_size _ _ _ Hf) as Hsz.
  assert (HM : MAXFILE * BSIZE = 274432) by done.
  unfold writei_from. apply wp_bind, wp_gets, wp_bind, wp_gets. fold n.
  rewrite u32_small by (unfold is_u32; lia).
  destruct (Z.gtb_spec off (i_size n)) as [|_]; [lia|]. cbn [orb].
  destruct (Z.ltb_spec (off + Z.of_nat (length v)) off) as [|_]; [lia|]. fold e.
  destruct (Z.gtb_spec e (MAXFILE * BSIZE)) as [|_]; [lia|].
  apply wp_bind.
  apply (wp_loop (fun '(tot, o, a) s1 => 0 <= tot <= Z.of_nat (length v) /\
            (tot < Z.of_nat (length v) -> tot = 0 \/ (off + tot) mod BSIZE = 0) /\ o = off + tot /\ frame ip s s1 /\
            exists V1 w1, 6 * blocks_left o e + 1 <= w1 /\ fsok pid ∅ w1 V1 (fs_log s1) /\
              wrote sb V n off (take (Z.to_nat tot) v) V1 (fs_inode s1 ip) /\
              Src (drop (Z.to_nat tot) v) a (fs_vm s1))
          (fun '(tot, _, _) _ => Z.to_nat (Z.of_nat (length v) - tot))).
  - split_and!; [lia|lia|by left|lia|done|]. exists V, w. split_and!; try done. by apply wrote_nil.
  - lia.
  - intros [[tot o] a] s1 (Ht & Hal & -> & Hfr & V1 & w1 & Hw1 & Hok1 & Hwr & Hs1).
    assert (Hbl : 0 <= blocks_left (off + tot) e).
    { unfold blocks_left. destruct (Z.ltb_spec (off + tot) e); [|lia].
      assert ((off + tot) / BSIZE <= (e - 1) / BSIZE) by (apply Z.div_le_mono; [done|lia]). lia. }
    assert (Hexit : forall s2 V2 w2, frame ip s s2 -> fsok pid ∅ w2 V2 (fs_log s2) -> 1 <= w2 ->
              wrote sb V n off (take (Z.to_nat tot) v) V2 (fs_inode s2 ip) ->
              (tot < Z.of_nat (length v) -> forall b, 0 <= b < sb_size sb -> used sb V2 b = true) ->
              wp (let! size := iget_field i_size ip in
                  (if off + tot >? size then iset ip (set_i_size (off + tot)) else ret tt) ;;;
                  iupdate pid ip ;;; ret tot)
                (fun r s' => frame ip s s' /\ 0 <= r <= Z.of_nat (length v) /\ exists V' w',
                   fsok pid ∅ w' V' (fs_log s') /\
                   written sb V n off (take (Z.to_nat r) v) V' (fs_inode s' ip) /\
                   (r < Z.of_nat (length v) -> (r = 0 \/ (off + r) mod BSIZE = 0) /\
                      forall b, 0 <= b < sb_size sb -> used sb V' b = true)) s2).
    { intros s2 V2 w2 Hfr2 Hok2 Hw2 Hwr2 Hfull.
      eapply (writei_tail V s ip off v tot s2 V2 w2); [done|done|done|done|lia|done|done|done|done|].
      intros s' V' w' Hfr' Hok' Hus' Hwt. split; [done|]. split; [done|]. exists V', w'.
      split; [done|]. split; [done|]. intros Hlt. split; [by apply Hal|].
      intros b Hb. rewrite Hus' by done. by apply Hfull. }
    clear Hal. assert (Hin : forall a : Z, a ∈ ({[a]} ∪ ∅ : gset Z)) by (clear; set_solver).
    destruct (Z.ltb_spec tot (Z.of_nat (length v))) as [Hlt|Hge].
    2:{ apply wp_ret. eapply Hexit; [done|exact Hok1|lia|exact Hwr|lia]. }
    set (o := off + tot) in *. set (m := Z.min (Z.of_nat (length v) - tot) (BSIZE - o mod BSIZE)).
    destruct (blocks_left_step o e m ltac:(lia) ltac:(unfold m; f_equal; lia)) as (Hm & Hb1 & Hb2).
    pose proof (Z.mod_pos_bound o BSIZE ltac:(done)) as Hmod.
    apply wp_bind. eapply wp_mono.
    { apply (bmap_spec pid w1 V1 s1 ip (o / BSIZE)); rewrite ?(fr_sb _ _ _ Hfr); [done|lia|apply Hwr|apply Hwr|].
      eapply faddr_range; [exact Hf|lia]. }
    rewrite (fr_sb _ _ _ Hfr). fold sb.
    intros r s2 (Hfr2 & V2 & w2 & Hw2 & Hok2 & Hg & -> & Hfull).
    pose proof (wrote_grow _ _ _ _ _ _ _ _ _ Hwr Hg) as Hwr2. set (n2 := fs_inode s2 ip) in *.
    pose proof (frame_trans _ _ _ _ Hfr Hfr2) as Hfr02.
    destruct (Z.eqb_spec (faddr V2 n2 (o / BSIZE)) 0) as [Hz|Hnz].
    { apply wp_ret. eapply Hexit; [done|exact Hok2|lia|exact Hwr2|]. intros _. by apply Hfull. }
    apply wp_bind. eapply wp_bread_; [exact Hok2|apply not_elem_of_empty|rewrite size_empty; lia|]. intros l3 H3.
    apply wp_bind. eapply wp_mono.
    { apply (Hinp (drop (Z.to_nat tot) v) a m). { cbn. by rewrite (fr_vm _ _ _ Hfr2). }
      rewrite length_drop. lia. }
    cbn beta. intros r s3 (a' & -> & -> & Hs3).
    apply wp_bind. eapply wp_data_; [exact H3|apply Hin|].
    eapply wp_update_; [exact H3|apply Hin|lia|]. intros l4 H4.
    apply wp_bind. eapply wp_brelse_; [exact H4|apply Hin|]. intros l5 H5. apply wp_ret.
    rewrite rel_union in H5 by apply not_elem_of_empty.
    rewrite drop_drop in Hs3. replace (Z.to_nat tot + Z.to_nat m)%nat with (Z.to_nat (tot + m)) in Hs3 by lia.
    assert (Htk : take (Z.to_nat (tot + m)) v = take (Z.to_nat tot) v ++ take (Z.to_nat m) (drop (Z.to_nat tot) v)).
    { replace (Z.to_nat (tot + m)) with (Z.to_nat tot + Z.to_nat m)%nat by lia. symmetry. apply take_take_drop. }
    split; [|unfold m; lia]. split_and!; [lia|unfold m; lia| |unfold o; lia|by eapply frame_trans|].
    { intros Hlt'. right. apply (block_end o). clear -Hlt'. unfold m, o in *. lia. }
    eexists _, (w2 - 1). split; [lia|]. split; [exact H5|]. split; [|exact Hs3].
    rewrite Htk. cbn [fs_inode put_log].
    pose proof (wrote_block sb V n off (take (Z.to_nat tot) v) V2 n2 (take (Z.to_nat m) (drop (Z.to_nat tot) v))) as Hwb.
    cbn zeta in Hwb. rewrite !length_take, length_drop in Hwb.
    replace (Z.of_nat (Z.to_nat tot `min` length v)) with tot in Hwb by lia. fold o in Hwb.
    apply Hwb; [done|lia|unfold m in *; lia|lia|done|unfold m in *; lia].
Qed.
End Write.
