(* ===== verification/FsProps.v ===== *)
(** What files promise: bytes written are read back, other files keep theirs,
    an inode written to disk is loaded as it was. *)

From S2P Require Import Prelude Riscv CString Kalloc Vm Sleeplock Fields BlockCache Log.
From S2P Require Import LogProps LogSpace Fs FsView FsAlloc FsFile FsRead FsInode FsWrite.

(** * Reading and writing variables *)

Section Var.
Context (pid : Z).

Lemma readi_var_spec sb w V s ip off cnt :
  let n := fs_inode s ip in let k := readlen n off cnt in
  fsok pid ∅ w V (fs_log s) -> file_ok sb V n -> 0 <= off -> 0 <= cnt -> off + cnt < 2 ^ 32 ->
  wp (readi_var pid ip off cnt)
    (fun r s' => r = (k, fbytes V n off k) /\ read_frame s s' /\ fs_vm s' = fs_vm s /\
                 fsok pid ∅ w V (fs_log s')) s.
Proof.
  intros n k Hok Hf Ho Hc Hov.
  eapply wp_mono; [apply (readi_to_spec pid out_var (fun bs a vm => a = bs /\ vm = fs_vm s)) with (sb := sb) (w := w) (V := V)|].
  - intros bs a bs' s1 [-> Hv]. apply wp_ret. exists (bs ++ bs'), (fs_vm s).
    split; [done|]. rewrite <- Hv. split; [by destruct s1|done].
  - exact Hok.
  - exact Hf.
  - done.
  - done.
  - done.
  - done.
  - cbn beta. intros [r1 r2] s' (Hr & Hfr & Hok' & Hb & Hv). cbn in *. subst. done.
Qed.

Lemma writei_var_spec w V s ip off v :
  let n := fs_inode s ip in let sb := fs_sb s in let e := off + Z.of_nat (length v) in
  fsok pid ∅ w V (fs_log s) -> disk_ok sb V -> file_ok sb V n -> iblock_ok sb V n ->
  0 <= off <= i_size n -> e <= MAXFILE * BSIZE -> 6 * blocks_left off e + 1 <= w ->
  wp (writei_var pid ip v off)
    (fun r s' => frame ip s s' /\ 0 <= r <= Z.of_nat (length v) /\ exists V' w',
       fsok pid ∅ w' V' (fs_log s') /\
       written sb V n off (take (Z.to_nat r) v) V' (fs_inode s' ip) /\
       (r < Z.of_nat (length v) -> (r = 0 \/ (off + r) mod BSIZE = 0) /\
          forall b, 0 <= b < sb_size sb -> used sb V' b = true)) s.
Proof.
  intros n sb e Hok Hd Hf Hib Hoff He Hw.
  apply (writei_from_spec pid in_var (fun rest a _ => a = rest)) with (w := w); try done.
  intros rest a m s1 -> Hm. apply wp_ret. by eexists.
Qed.
End Var.

(** A file none of whose blocks were touched. *)
Lemma file_kept sb V V' m :
  file_ok sb V m -> (forall b, owns V m b -> V' b = V b) ->
  (forall b, 0 <= b < sb_size sb -> used sb V b = true -> used sb V' b = true) ->
  file_ok sb V' m /\ (forall x, faddr V' m x = faddr V m x) /\
  forall i, 0 <= i < i_size m -> fbyte V' m i = fbyte V m i.
Proof.
  intros Hf Hk Hu.
  assert (Hfa : forall x, faddr V' m x = faddr V m x).
  { intros x. unfold faddr. destruct (x <? NDIRECT); [done|]. destruct (Z.eqb_spec (ind m) 0); [done|].
    by rewrite Hk by (by apply ind_owns). }
  assert (Ho : forall b, owns V' m b <-> owns V m b) by (intros b; unfold owns; by setoid_rewrite Hfa).
  pose proof Hf as [Hl Hus Hbl Hinj Hind Hsz Hnh]. split_and!.
  - split; try done.
    + intros b Hb. apply Ho in Hb. destruct (Hus b Hb) as (Hr & Hub & Hm). split; [done|]. split; [by apply Hu|done].
    + intros b Hb. apply Ho in Hb. rewrite Hk by done. by apply Hbl.
    + intros x y. rewrite !Hfa. apply Hinj.
    + intros x. rewrite Hfa. apply Hind.
    + intros x. rewrite Hfa. apply Hnh.
  - done.
  - intros i Hi. unfold fbyte. rewrite Hfa, Hk; [done|]. apply faddr_owns.
    + eapply faddr_range; [exact Hf|lia].
    + apply Hnh; [apply Z.div_pos; [lia|done]|]. pose proof (Z.mul_div_le i BSIZE ltac:(done)). lia.
Qed.


Module FileDemo.
(** Two files of ten bytes, in blocks 46 and 47 of the disk of [AllocDemo]. *)
Definition ino (inum b : Z) : inode :=
  mkInode 1 inum 1 no_sleeplock 1 T_FILE 0 0 1 10 (b :: replicate 12 0).
Definition s0 : fsys :=
  mkFsys AllocDemo.log0 AllocDemo.sb0 false
    (fun i => if i =? 0 then ino 1 46 else if i =? 1 then ino 2 47 else AllocDemo.no_inode) []
    (mkKst (fun _ => 0) 0 false) [].

Lemma ino_faddr inum b x :
  0 <= x -> faddr AllocDemo.V0 (ino inum b) x = if x =? 0 then b else 0.
Proof.
  intros Hx. unfold faddr. change (ind (ino inum b)) with 0.
  destruct (Z.eqb_spec x 0) as [->|Hne]; [done|]. destruct (Z.ltb_spec x NDIRECT) as [Hlt|]; [|done].
  unfold zget. cbn [i_addrs ino]. replace (Z.to_nat x) with (S (Z.to_nat (x - 1))) by lia.
  cbn [lookup_total list_lookup_total]. apply lookup_total_replicate_2. unfold NDIRECT in Hlt. lia.
Qed.

Lemma ino_owns inum b c : owns AllocDemo.V0 (ino inum b) c -> c = b.
Proof.
  intros [Hc [->|(x & Hx & ->)]]; [done|]. rewrite ino_faddr in * by lia.
  by destruct (Z.eqb_spec x 0).
Qed.

Lemma map_block x : is_map AllocDemo.sb0 x -> x = 45.
Proof.
  intros (b & Hb & ->). unfold BBLOCK. cbn in *. rewrite Z.div_small; [done|]. unfold BPB, BSIZE. lia.
Qed.

Lemma ino_ok inum b :
  0 < b < 60 -> b <> 45 -> used AllocDemo.sb0 AllocDemo.V0 b = true ->
  file_ok AllocDemo.sb0 AllocDemo.V0 (ino inum b).
Proof.
  intros Hb Hm Hu. split; try done.
  - intros c ->%ino_owns. split; [cbn; lia|]. split; [done|]. by intros ?%map_block.
  - intros c ->%ino_owns. unfold AllocDemo.V0. by destruct (Z.eqb_spec b 45).
  - intros x y Hx Hy. rewrite !ino_faddr by lia.
    destruct (Z.eqb_spec x 0), (Z.eqb_spec y 0); try done; lia.
  - intros x Hx Hs. rewrite ino_faddr by lia. cbn in Hs. unfold BSIZE in Hs.
    destruct (Z.eqb_spec x 0); lia.
Qed.

Lemma disk0_ok : disk_ok AllocDemo.sb0 AllocDemo.V0.
Proof. split; [apply AllocDemo.map0_ok|by vm_compute|done]. Qed.

Lemma iblock0_ok : iblock_ok AllocDemo.sb0 AllocDemo.V0 (ino 1 46).
Proof. split; [done|by vm_compute|by intros ?%map_block|by intros ?%ino_owns]. Qed.
End FileDemo.


(** * Inodes written to disk and loaded *)

#[export] Instance ilk_laws ip : LensLaws (ilk ip).
Proof.
  split; intros; unfold ilk, put_inodes; cbn; rewrite ?fset_eq; cbn.
  - done.
  - destruct s as [l sb it f w v o]. cbn. f_equal.
    replace (set_i_lock (i_lock (f ip)) (f ip)) with (f ip) by (by destruct (f ip)). apply fset_id.
  - f_equal. apply fset_fset.
Qed.
#[export] Instance fwoken_laws : LensLaws fwoken.
Proof. by split; intros; destruct s. Qed.
#[export] Instance ilk_fwoken ip : LensIndep (ilk ip) fwoken.
Proof. by split; intros; destruct s. Qed.

(** The lock of a table entry is free: nobody has it and its spinlock is free. *)
Definition ilock_free (n : inode) : Prop := sl_lk (i_lock n) = false /\ sl_locked (i_lock n) = 0.

Lemma ilock_load pid H w V s ip (Q : unit -> fsys -> Prop) :
  let n := fs_inode s ip in
  let b := IBLOCK (i_inum n) (fs_sb s) in
  let n' := set_i_valid 1 (get_dinode (V b) (ioff (i_inum n)) (set_i_lock (set_sl_locked 1 pid (i_lock n)) n)) in
  fsok pid H w V (fs_log s) -> b ∉ H -> (size H <= 2)%nat -> ip <> NULL -> 1 <= i_ref n ->
  ilock_free n -> i_valid n = 0 -> i_type n' <> 0 ->
  (forall l', fsok pid H w V l' -> Q tt (put_log l' (put_inode ip n' s))) ->
  wp (ilock pid ip) Q s.
Proof.
  intros n b n' Hok Hb Hsz Hip Href [Hlk Hlf] Hv Ht HQ. unfold ilock. apply wp_bind, wp_gets. fold n.
  destruct (Z.eqb_spec ip NULL) as [|_]; [done|]. destruct (Z.ltb_spec (i_ref n) 1) as [|_]; [lia|]. cbn [orb].
  apply wp_bind. unfold wp at 1. rewrite (acquiresleep_free (ilk ip) fwoken) by (done || apply _). cbn beta iota.
  apply wp_bind, wp_gets. cbn [fs_inode lset ilk put_inodes]. rewrite fset_eq.
  cbn [lget ilk]. fold n. cbn [id i_valid i_dev i_inum set_i_lock]. rewrite Hv. cbn [Z.eqb].
  apply wp_bind, wp_gets. cbn [fs_sb put_inodes]. fold b.
  apply wp_bind. eapply wp_bread_; [exact Hok|done|done|]. intros l1 H1.
  apply wp_bind. eapply wp_data_; [exact H1|set_solver|].
  apply wp_bind, wp_modify, wp_bind. eapply wp_brelse_; [exact H1|set_solver|]. intros l2 H2.
  rewrite rel_union in H2 by done.
  apply wp_bind, wp_modify, wp_bind, wp_gets. cbn [fs_inode put_inodes put_log]. rewrite !fset_eq.
  fold (ioff (i_inum n)). fold n'. destruct (Z.eqb_spec (i_type n') 0) as [|_]; [done|]. apply wp_ret.
  specialize (HQ l2 H2). unfold put_log, put_inode, put_inodes in HQ |- *. cbn in HQ |- *.
  rewrite !fset_fset. exact HQ.
Qed.

Lemma ioff_disjoint i j : ioff i <> ioff j -> ioff i + sizeof_dinode <= ioff j \/ ioff j + sizeof_dinode <= ioff i.
Proof. unfold ioff, sizeof_dinode. lia. Qed.

Lemma get_dinode_ext d d' off m :
  (forall i, off <= i < off + sizeof_dinode -> zget d i = zget d' i) -> get_dinode d off m = get_dinode d' off m.
Proof.
  intros He. unfold sizeof_dinode in He.
  assert (Hle : forall w o, off <= o -> o + Z.of_nat w <= off + 64 -> get_le w d o = get_le w d' o).
  { intros w o Ho Hw. apply get_le_ext. intros i Hi. apply He. lia. }
  unfold get_dinode, get16, get32, get_addrs. rewrite !Hle by lia. f_equal.
  apply map_ext_in. intros i Hi. apply list_elem_of_In, elem_of_seqZ in Hi. unfold NDIRECT in Hi.
  unfold get32. apply Hle; lia.
Qed.

(** An inode survives leaving memory.  iupdate() writes the in-memory inode
    to its place on disk; when another table entry is later given the same
    inode number, ilock() loads into it the same type, device numbers, link
    count, size and addresses.  The other inodes of the disk block are as they
    were. *)
Theorem inode_persists pid w V s ip jp :
  let n := fs_inode s ip in let m := fs_inode s jp in
  let b := IBLOCK (i_inum n) (fs_sb s) in
  fsok pid ∅ w V (fs_log s) -> 0 < w -> length (V b) = Z.to_nat BSIZE -> inode_wf n -> i_type n <> 0 ->
  jp <> NULL -> jp <> ip -> i_inum m = i_inum n -> 1 <= i_ref m -> ilock_free m -> i_valid m = 0 ->
  wp (iupdate pid ip ;;; ilock pid jp) (fun _ s' =>
    let m' := fs_inode s' jp in
    i_valid m' = 1 /\ sl_locked (i_lock m') = 1 /\ sl_pid (i_lock m') = pid /\
    i_type m' = i_type n /\ i_major m' = i_major n /\ i_minor m' = i_minor n /\
    i_nlink m' = i_nlink n /\ i_size m' = i_size n /\ i_addrs m' = i_addrs n /\
    forall k x, ioff k <> ioff (i_inum n) ->
      get_dinode (bview (l_bc (fs_log s')) b) (ioff k) x = get_dinode (V b) (ioff k) x) s.
Proof.
  intros n m b Hok Hw Hl Hwf Ht Hjp Hne Hin Href Hlf Hv.
  pose proof (ioff_range (i_inum n)) as [Hr1 Hr2].
  apply wp_bind. eapply iupdate_spec; [exact Hok|apply not_elem_of_empty|rewrite size_empty; lia|done|].
  fold n b. intros l1 H1. set (V1 := fset V b _) in *.
  assert (Hrt : forall y, get_dinode (V1 b) (ioff (i_inum n)) y =
     set_i_disk (i_type n) (i_major n) (i_minor n) (i_nlink n) (i_size n) (i_addrs n) y).
  { intros y. unfold V1. rewrite fset_eq. apply dinode_roundtrip; [done|done|]. rewrite Hl. lia. }
  eapply (ilock_load pid ∅ (w - 1) V1); cbn [fs_inode put_log fs_sb]; fold m; rewrite ?Hin; fold b;
    [exact H1|apply not_elem_of_empty|rewrite size_empty; lia|done|done|done|done|by rewrite Hrt|].
  intros l2 H2. cbn [fs_inode put_log put_inode put_inodes fs_log]. rewrite fset_eq, Hrt.
  cbn. split_and!; try done. intros k x Hk.
  rewrite (fo_view _ _ _ _ _ H2). unfold V1. rewrite fset_eq. apply get_dinode_ext. intros i Hi.
  pose proof (ioff_range k). apply put_dinode_other; [done|rewrite Hl; lia|apply Hwf|lia|].
  destruct (ioff_disjoint k (i_inum n) Hk); lia.
Qed.

Module PersistDemo.
Definition s0 : fsys :=
  mkFsys AllocDemo.log0 AllocDemo.sb0 false
    (fun i => if i =? 0 then FileDemo.ino 1 46 else set_i_id 1 1 1 0 AllocDemo.no_inode) []
    (mkKst (fun _ => 0) 0 false) [].
Lemma wf0 : inode_wf (FileDemo.ino 1 46).
Proof.
  split; try done. intros i Hi. cbn [FileDemo.ino i_addrs]. unfold zget.
  destruct (Z.to_nat i) as [|k] eqn:E; [done|]. change (is_u32 (replicate 12 0 !!! k)).
  rewrite lookup_total_replicate_2 by lia. done.
Qed.
End PersistDemo.

Lemma inode_persists_witness :
  wp (iupdate 1 0 ;;; ilock 1 3) (fun _ s' =>
    let m' := fs_inode s' 3 in
    i_valid m' = 1 /\ sl_locked (i_lock m') = 1 /\ sl_pid (i_lock m') = 1 /\
    i_type m' = T_FILE /\ i_major m' = 0 /\ i_minor m' = 0 /\ i_nlink m' = 1 /\ i_size m' = 10 /\
    i_addrs m' = 46 :: replicate 12 0 /\
    forall k x, ioff k <> ioff 1 ->
      get_dinode (bview (l_bc (fs_log s')) 32) (ioff k) x = get_dinode zeroblock (ioff k) x) PersistDemo.s0.
Proof.
  refine (inode_persists 1 10 AllocDemo.V0 PersistDemo.s0 0 3 AllocDemo.log0_ok _ _ PersistDemo.wf0 _ _ _ _ _ _ _);
    done.
Defined.
