(* ===== verification/FsTable.v ===== *)
(** The inode table as a count of references: iget(), idup(), iput(), and
    ilock(), iunlock() on a table that agrees with the disk. *)

From S2P Require Import Prelude Riscv CString Kalloc Vm Sleeplock Fields BlockCache Log.
From S2P Require Import LogProps LogSpace Fs FsView FsAlloc FsFile FsRead FsInode FsWrite FsProps.

(** * References *)

Abbreviation ikey n := (i_dev n, i_inum n).

(** What the table counts: for each inode in memory, its references. *)
Abbreviation refs := (gmap (Z * Z) Z).
Definition incr (k : Z * Z) (T : refs) : refs := <[k := default 0 (T !! k) + 1]> T.
Definition decr (k : Z * Z) (T : refs) : refs :=
  match T !! k with
  | Some c => if c =? 1 then delete k T else <[k := c - 1]> T
  | None => T
  end.

Lemma decr_incr k T : (forall c, T !! k = Some c -> 0 < c) -> decr k (incr k T) = T.
Proof.
  intros Hc. unfold decr, incr. rewrite lookup_insert_eq. destruct (T !! k) as [c|] eqn:E; cbn.
  - specialize (Hc c eq_refl). destruct (Z.eqb_spec (c + 1) 1); [lia|].
    rewrite insert_insert_eq. replace (c + 1 - 1) with c by lia. by apply insert_id.
  - by apply delete_insert_id.
Qed.

Lemma incr_comm j k T : incr j (incr k T) = incr k (incr j T).
Proof.
  unfold incr. destruct (decide (j = k)) as [->|Hne]; [done|].
  rewrite !lookup_insert_ne by done. by rewrite insert_insert_ne.
Qed.

Lemma incr_pos k T : (forall j c, T !! j = Some c -> 0 < c) -> forall j c, incr k T !! j = Some c -> 0 < c.
Proof.
  intros Hp j c. unfold incr. destruct (decide (k = j)) as [->|Hne].
  - rewrite lookup_insert_eq. intros [= <-]. destruct (T !! j) as [d|] eqn:E; cbn; [|lia].
    specialize (Hp j d E). lia.
  - rewrite lookup_insert_ne by done. apply Hp.
Qed.

Lemma size_incr k T : (size (incr k T) <= S (size T))%nat.
Proof.
  unfold incr. destruct (T !! k) as [c|] eqn:E.
  - rewrite map_size_insert_Some by (by eexists). lia.
  - rewrite map_size_insert_None by done. lia.
Qed.

Abbreviation slot i := (0 <= i < NINODE).

(** The table holds the references [T]. *)
Record itab (s : fsys) (T : refs) : Prop := {
  it_lock : fs_itlock s = false;
  it_ref : forall i, slot i -> 0 <= i_ref (fs_inode s i);
  it_key : forall i, slot i -> 0 < i_ref (fs_inode s i) ->
    T !! ikey (fs_inode s i) = Some (i_ref (fs_inode s i));
  it_all : forall k c, T !! k = Some c -> exists i, slot i /\ 0 < i_ref (fs_inode s i) /\ ikey (fs_inode s i) = k;
  it_inj : forall i j, slot i -> slot j -> 0 < i_ref (fs_inode s i) -> 0 < i_ref (fs_inode s j) ->
    ikey (fs_inode s i) = ikey (fs_inode s j) -> i = j;
}.

Lemma itab_pos s T : itab s T -> forall k c, T !! k = Some c -> 0 < c.
Proof.
  intros Ht k c Hk. destruct (it_all _ _ Ht k c Hk) as (i & Hi & Hr & <-).
  rewrite (it_key _ _ Ht i Hi Hr) in Hk. by injection Hk as <-.
Qed.

(** Only the lock and the table matter. *)
Lemma itab_ext s s' T :
  fs_itlock s' = fs_itlock s -> (forall i, i_ref (fs_inode s' i) = i_ref (fs_inode s i)) ->
  (forall i, ikey (fs_inode s' i) = ikey (fs_inode s i)) -> itab s T -> itab s' T.
Proof.
  intros Hl Hr Hk [A B C D E]. split.
  - by rewrite Hl.
  - intros i Hi. rewrite Hr. by apply B.
  - intros i Hi. rewrite Hr, Hk. by apply C.
  - intros k c Hc. destruct (D k c Hc) as (i & Hi & H1 & H2). exists i. by rewrite Hr, Hk.
  - intros i j Hi Hj. rewrite !Hr, !Hk. by apply E.
Qed.

(** A table with room has a free entry. *)
Lemma itab_free s T :
  itab s T -> Z.of_nat (size T) < NINODE -> exists i, slot i /\ i_ref (fs_inode s i) = 0.
Proof.
  intros Ht Hsz. pose proof (scan_spec (fun ip => i_ref (fs_inode s ip) =? 0) (Z.to_nat NINODE) 0) as Hs.
  destruct (scan _ _ _) as [j|].
  { destruct Hs as (Hj & He & _). exists j. split; [lia|by apply Z.eqb_eq]. }
  exfalso. set (f i := ikey (fs_inode s i)).
  assert (Hp : forall i, slot i -> 0 < i_ref (fs_inode s i)).
  { intros i Hi. specialize (Hs i ltac:(lia)). pose proof (it_ref _ _ Ht i Hi). lia. }
  assert (Hnd : NoDup (map f (seqZ 0 NINODE))).
  { apply NoDup_fmap_2_strong; [|apply NoDup_seqZ]. intros i j Hi%elem_of_seqZ Hj%elem_of_seqZ He.
    eapply (it_inj _ _ Ht); try lia; [apply Hp; lia|apply Hp; lia|done]. }
  assert (Hsub : (list_to_set (map f (seqZ 0 NINODE)) : gset (Z * Z)) ⊆ dom T).
  { intros k (i & -> & Hi%elem_of_seqZ)%elem_of_list_to_set%list_elem_of_fmap. apply elem_of_dom.
    eexists. apply (it_key _ _ Ht); [lia|apply Hp; lia]. }
  apply subseteq_size in Hsub. rewrite size_list_to_set, length_map, size_dom in Hsub by done.
  rewrite length_seqZ in Hsub. lia.
Qed.

(** One more reference to the inode of entry [ip], or [ip] made its entry. *)
Lemma itab_incr s T ip n' k :
  itab s T -> slot ip -> ikey n' = k -> i_ref n' = i_ref (fs_inode s ip) + 1 ->
  (i_ref (fs_inode s ip) = 0 -> T !! k = None) ->
  (0 < i_ref (fs_inode s ip) -> ikey (fs_inode s ip) = k) ->
  itab (put_inode ip n' s) (incr k T).
Proof.
  intros Ht Hip Hk Hr Hz Hp. pose proof (it_ref _ _ Ht ip Hip) as Hge.
  assert (Hoth : forall i, slot i -> i <> ip -> 0 < i_ref (fs_inode s i) -> ikey (fs_inode s i) <> k).
  { intros i Hi Hne Hri Hki. destruct (decide (i_ref (fs_inode s ip) = 0)) as [E|E].
    - pose proof (it_key _ _ Ht i Hi Hri). rewrite Hki in *. rewrite Hz in *; done.
    - apply Hne, (it_inj _ _ Ht); try done; [lia|]. rewrite Hp by lia. done. }
  assert (Hd : default 0 (T !! k) + 1 = i_ref n').
  { destruct (decide (i_ref (fs_inode s ip) = 0)) as [E|E]; [rewrite Hz by done; cbn; lia|].
    rewrite <- (Hp ltac:(lia)), (it_key _ _ Ht ip Hip) by lia. cbn. lia. }
  unfold incr. rewrite Hd. split; cbn.
  - apply Ht.
  - intros i Hi. unfold fset. destruct (Z.eqb_spec i ip); [lia|by apply Ht].
  - intros i Hi. unfold fset. destruct (Z.eqb_spec i ip) as [E|E]; [rewrite Hk, lookup_insert_eq; done|].
    intros Hri. rewrite lookup_insert_ne; [by apply Ht|]. intros He. by apply (Hoth i).
  - intros j c. destruct (decide (k = j)) as [<-|Hne].
    + exists ip. rewrite fset_eq. split; [done|]. split; [lia|done].
    + rewrite lookup_insert_ne by done. intros Hj. destruct (it_all _ _ Ht j c Hj) as (i & Hi & Hri & Hki).
      exists i. rewrite fset_ne; [done|]. intros ->. apply Hne. rewrite <- Hki. symmetry. by apply Hp.
  - intros i j Hi Hj. unfold fset. destruct (Z.eqb_spec i ip) as [E1|E1], (Z.eqb_spec j ip) as [E2|E2]; try congruence.
    + intros _ Hrj He. exfalso. apply (Hoth j); try done. congruence.
    + intros Hri _ He. exfalso. apply (Hoth i); try done. congruence.
    + by apply (it_inj _ _ Ht).
Qed.

(** One reference fewer. *)
Lemma itab_decr s T ip n' :
  itab s T -> slot ip -> 0 < i_ref (fs_inode s ip) ->
  ikey n' = ikey (fs_inode s ip) -> i_ref n' = i_ref (fs_inode s ip) - 1 ->
  itab (put_inode ip n' s) (decr (ikey (fs_inode s ip)) T).
Proof.
  intros Ht Hip Hpos Hk Hr. pose proof (it_key _ _ Ht ip Hip Hpos) as HTk. set (k := ikey (fs_inode s ip)) in *.
  assert (Hoth : forall i, slot i -> i <> ip -> 0 < i_ref (fs_inode s i) -> k <> ikey (fs_inode s i)).
  { intros i Hi Hne Hri Hki. apply Hne. by apply (it_inj _ _ Ht). }
  assert (HT : forall j, j <> k -> decr k T !! j = T !! j).
  { intros j Hj. unfold decr. rewrite HTk.
    destruct (_ =? _); [by rewrite lookup_delete_ne|by rewrite lookup_insert_ne]. }
  assert (Hk' : decr k T !! k = if i_ref n' =? 0 then None else Some (i_ref n')).
  { unfold decr. rewrite HTk. rewrite Hr.
    destruct (Z.eqb_spec (i_ref (fs_inode s ip)) 1), (Z.eqb_spec (i_ref (fs_inode s ip) - 1) 0); try lia.
    - apply lookup_delete_eq.
    - apply lookup_insert_eq. }
  split; cbn.
  - apply Ht.
  - intros i Hi. unfold fset. destruct (Z.eqb_spec i ip); [lia|by apply Ht].
  - intros i Hi. unfold fset. destruct (Z.eqb_spec i ip) as [E|E].
    + intros Hp. rewrite Hk, Hk'. destruct (Z.eqb_spec (i_ref n') 0); [lia|done].
    + intros Hri. rewrite HT; [by apply Ht|]. by apply not_eq_sym, Hoth.
  - intros j c. destruct (decide (j = k)) as [->|Hne].
    + rewrite Hk'. destruct (Z.eqb_spec (i_ref n') 0); [done|]. intros [= <-].
      exists ip. rewrite fset_eq. split; [done|]. split; [lia|done].
    + rewrite HT by done. intros Hj. destruct (it_all _ _ Ht j c Hj) as (i & Hi & Hri & Hki).
      exists i. rewrite fset_ne; [done|]. intros ->. by apply Hne.
  - intros i j Hi Hj. unfold fset. destruct (Z.eqb_spec i ip) as [E1|E1], (Z.eqb_spec j ip) as [E2|E2]; try congruence.
    + intros _ Hrj He. exfalso. apply (Hoth j); try done. congruence.
    + intros Hri _ He. exfalso. apply (Hoth i); try done. congruence.
    + by apply (it_inj _ _ Ht).
Qed.

(** * Taking and dropping references *)

Lemma ref_undo n : set_i_ref (i_ref n + 1 - 1) (set_i_ref (i_ref n + 1) n) = n.
Proof. destruct n. unfold set_i_ref, set_i_id. cbn. by rewrite Z.add_simpl_r. Qed.

(** What iget() does to its entry. *)
Definition igot (dev inum : Z) (n n' : inode) : Prop :=
  0 < i_ref n /\ ikey n = (dev, inum) /\ n' = set_i_ref (i_ref n + 1) n \/
  i_ref n = 0 /\ n' = set_i_id dev inum 1 0 n.

Lemma igot_key dev inum n n' : igot dev inum n n' -> ikey n' = (dev, inum).
Proof. intros [(_ & <- & ->)|(_ & ->)]; done. Qed.

(** The state after an update of the table under its lock. *)
Ltac table_state Hl ip n :=
  match type of Hl with fs_itlock ?s = _ =>
    match goal with |- ?Q _ ?x => replace x with (put_inode ip n s) by (destruct s; cbn in Hl |- *; by rewrite Hl) end
  end.

Lemma iget_spec s T dev inum (Q : Z -> fsys -> Prop) :
  itab s T -> is_Some (T !! (dev, inum)) \/ Z.of_nat (size T) < NINODE ->
  (forall ip n', slot ip -> igot dev inum (fs_inode s ip) n' ->
     itab (put_inode ip n' s) (incr (dev, inum) T) -> Q ip (put_inode ip n' s)) ->
  wp (iget dev inum) Q s.
Proof.
  intros Ht Hroom HQ. unfold iget. wp_steps; [apply Ht|]. cbn [fs_inode lset itable_lock].
  pose proof (it_lock _ _ Ht) as Hl.
  set (f1 ip := _ && _ && _). pose proof (scan_spec f1 (Z.to_nat NINODE) 0) as H1.
  destruct (scan f1 _ 0) as [ip|].
  - destruct H1 as (Hip & [[H1%Z.gtb_lt H2%Z.eqb_eq]%andb_true_iff H3%Z.eqb_eq]%andb_true_iff & _).
    unfold iset. wp_steps.
    table_state Hl ip (set_i_ref (i_ref (fs_inode s ip) + 1) (fs_inode s ip)). apply HQ; [lia|left; split_and!; [lia|congruence|done]|].
    apply itab_incr; cbn; try done; try lia; congruence.
  - assert (Hno : T !! (dev, inum) = None).
    { apply eq_None_not_Some. intros [c Hc]. destruct (it_all _ _ Ht _ _ Hc) as (i & Hi & Hr & [= Hd Hn]).
      specialize (H1 i ltac:(lia)). unfold f1 in H1. rewrite Hd, Hn, !Z.eqb_refl in H1. lia. }
    pose proof (scan_spec (fun ip => i_ref (fs_inode s ip) =? 0) (Z.to_nat NINODE) 0) as H2.
    destruct (scan _ _ 0) as [ip|].
    + destruct H2 as (Hip & Hz%Z.eqb_eq & _). unfold iset. wp_steps.
      table_state Hl ip (set_i_id dev inum 1 0 (fs_inode s ip)). apply HQ; [lia|by right|].
      apply itab_incr; cbn; try done; lia.
    + exfalso. destruct Hroom as [[c Hc]|Hroom]; [congruence|].
      destruct (itab_free s T Ht Hroom) as (i & Hi & Hz). specialize (H2 i ltac:(lia)). lia.
Qed.

Lemma idup_spec s T ip (Q : Z -> fsys -> Prop) :
  let n := fs_inode s ip in
  itab s T -> slot ip -> 0 < i_ref n ->
  (itab (put_inode ip (set_i_ref (i_ref n + 1) n) s) (incr (ikey n) T) ->
   Q ip (put_inode ip (set_i_ref (i_ref n + 1) n) s)) ->
  wp (idup ip) Q s.
Proof.
  intros n Ht Hip Hr HQ. unfold idup, iset. wp_steps; [apply Ht|]. cbn [fs_inode lset itable_lock]. fold n.
  pose proof (it_lock _ _ Ht) as Hl. table_state Hl ip (set_i_ref (i_ref n + 1) n). apply HQ. apply itab_incr; cbn; try done. fold n. lia.
Qed.

(** iput() of an inode that is referenced elsewhere, in memory or on disk. *)
Lemma iput_spec pid s T ip (Q : unit -> fsys -> Prop) :
  let n := fs_inode s ip in
  itab s T -> slot ip -> 0 < i_ref n -> i_ref n <> 1 \/ i_valid n = 0 \/ i_nlink n <> 0 ->
  (itab (put_inode ip (set_i_ref (i_ref n - 1) n) s) (decr (ikey n) T) ->
   Q tt (put_inode ip (set_i_ref (i_ref n - 1) n) s)) ->
  wp (iput pid ip) Q s.
Proof.
  intros n Ht Hip Hr Hkeep HQ. unfold iput, iget_field. wp_steps; [apply Ht|].
  cbn [fs_inode lset itable_lock]. fold n. cbn [id].
  destruct ((i_ref n =? 1) && negb (i_valid n =? 0) && (i_nlink n =? 0)) eqn:E; [lia|]. unfold iset. wp_steps.
  cbn [fs_inode lset itable_lock]. fold n.
  pose proof (it_lock _ _ Ht) as Hl. table_state Hl ip (set_i_ref (i_ref n - 1) n). apply HQ. by apply itab_decr.
Qed.

(** * Inodes in memory and on disk *)

(** The inode [n] with the type, links, size and addresses inode [inum] has on
    disk. *)
Definition on_disk (sb : superblock) (V : Z -> list Z) (inum : Z) (n : inode) : inode :=
  get_dinode (V (IBLOCK inum sb)) (ioff inum) n.

(** Entry [n] holds nothing, is not loaded, or agrees with the disk; its lock is
    free. *)
Record entry_coh (sb : superblock) (V : Z -> list Z) (n : inode) : Prop := {
  ec_free : ilock_free n;
  ec_load : 0 < i_ref n -> i_valid n = 0 \/ i_valid n = 1 /\ on_disk sb V (i_inum n) n = n;
}.

Definition icoh (V : Z -> list Z) (s : fsys) : Prop :=
  forall i, slot i -> entry_coh (fs_sb s) V (fs_inode s i).

Lemma icoh_put V s ip n : icoh V s -> entry_coh (fs_sb s) V n -> icoh V (put_inode ip n s).
Proof. intros Hc Hn i Hi. cbn. unfold fset. destruct (Z.eqb_spec i ip); [done|by apply Hc]. Qed.

Lemma entry_coh_igot sb V dev inum n n' :
  entry_coh sb V n -> igot dev inum n n' -> entry_coh sb V n'.
Proof.
  intros [Hf Hl] [(Hr & Hk & ->)|(Hr & ->)]; split; cbn; try done.
  - intros _. destruct (Hl Hr) as [?|[? He]]; [by left|right]. split; [done|].
    exact (f_equal (set_i_ref (i_ref n + 1)) He).
  - intros _. by left.
Qed.

Lemma entry_coh_ref sb V n c :
  entry_coh sb V n -> 0 < i_ref n -> entry_coh sb V (set_i_ref c n).
Proof.
  intros [Hf Hl] Hr. split; cbn; [done|]. intros _.
  destruct (Hl Hr) as [?|[? He]]; [by left|right]. split; [done|].
  exact (f_equal (set_i_ref c) He).
Qed.

(** The locked inode, loaded. *)
Definition ilocked (pid : Z) (sb : superblock) (V : Z -> list Z) (n : inode) : inode :=
  set_i_valid 1 (on_disk sb V (i_inum n) (set_i_lock (set_sl_locked 1 pid (i_lock n)) n)).
Definition iunlocked (n : inode) : inode := set_i_lock (set_sl_locked 0 0 (i_lock n)) n.

Lemma ilock_spec pid w V s ip (Q : unit -> fsys -> Prop) :
  let n := fs_inode s ip in
  fsok pid ∅ w V (fs_log s) -> ip <> NULL -> 0 < i_ref n -> entry_coh (fs_sb s) V n ->
  i_type (on_disk (fs_sb s) V (i_inum n) n) <> 0 ->
  (forall l', fsok pid ∅ w V l' -> Q tt (put_log l' (put_inode ip (ilocked pid (fs_sb s) V n) s))) ->
  wp (ilock pid ip) Q s.
Proof.
  intros n Hok Hip Hr [Hfree Hl] Ht HQ. destruct (Hl Hr) as [Hv|[Hv He]].
  { eapply (ilock_load pid ∅ w V); fold n; [exact Hok|apply not_elem_of_empty|rewrite size_empty; lia|done|lia|done|done|done|].
    exact HQ. }
  destruct Hfree as [Hlk Hlf]. unfold ilock. apply wp_bind, wp_gets. fold n.
  destruct (Z.eqb_spec ip NULL) as [|_]; [done|]. destruct (Z.ltb_spec (i_ref n) 1) as [|_]; [lia|]. cbn [orb].
  apply wp_bind. unfold wp at 1. rewrite (acquiresleep_free (ilk ip) fwoken) by (done || apply _). cbn beta iota.
  apply wp_bind, wp_gets. cbn [fs_inode lset ilk put_inodes]. rewrite fset_eq.
  cbn [lget ilk]. fold n. cbn [id i_valid i_dev i_inum set_i_lock]. rewrite Hv. cbn [Z.eqb]. apply wp_ret.
  specialize (HQ (fs_log s) Hok).
  replace (ilocked pid (fs_sb s) V n) with (set_i_lock (set_sl_locked 1 pid (i_lock n)) n) in HQ; [by destruct s|].
  transitivity (set_i_lock (set_sl_locked 1 pid (i_lock n)) (set_i_valid 1 n)); [by destruct n; cbn in *; subst|].
  exact (f_equal (fun m => set_i_lock (set_sl_locked 1 pid (i_lock n)) (set_i_valid 1 m)) (eq_sym He)).
Qed.

Lemma iunlock_spec pid s ip (Q : unit -> fsys -> Prop) :
  let n := fs_inode s ip in
  ip <> NULL -> 0 < i_ref n -> sl_lk (i_lock n) = false -> sl_locked (i_lock n) = 1 -> sl_pid (i_lock n) = pid ->
  Q tt (lset fwoken (ip :: fs_woken s) (put_inode ip (iunlocked n) s)) ->
  wp (iunlock pid ip) Q s.
Proof.
  intros n Hip Hr Hlk Hl Hp HQ. unfold iunlock. destruct (Z.eqb_spec ip NULL) as [|_]; [done|].
  apply wp_bind. unfold wp at 1. rewrite (holdingsleep_eq (ilk ip) fwoken) by (done || apply _). cbn beta iota.
  cbn [lget ilk]. fold n. rewrite Hl, Hp, Z.eqb_refl. apply wp_bind, wp_gets. fold n.
  destruct (Z.ltb_spec (i_ref n) 1) as [|_]; [lia|]. cbn [negb Z.eqb andb orb].
  unfold wp. rewrite (releasesleep_eq (ilk ip) fwoken) by (done || apply _). exact HQ.
Qed.
