(* ===== verification/FsDir.v ===== *)
(** Directories: a directory's entries are a finite map from names to inode
    numbers; dirlookup() and dirlink() read and update it. *)

From S2P Require Import Prelude Riscv CString Kalloc Vm Sleeplock Fields BlockCache Log.
From S2P Require Import LogProps LogSpace Fs FsView FsAlloc FsFile FsRead FsInode FsWrite FsProps FsTable.

(** * Entries as a map *)

Section Entries.
Context `{Countable K} {X : Type}.
Implicit Types (es : list (option (K * X))).

Definition entries_map es : gmap K X := list_to_map (omap id es).

Lemma entries_app es1 es2 : entries_map (es1 ++ es2) = entries_map es1 ∪ entries_map es2.
Proof. unfold entries_map. by rewrite omap_app, list_to_map_app. Qed.

Lemma entries_none es key :
  (forall j v, es !! j <> Some (Some (key, v))) -> entries_map es !! key = None.
Proof.
  intros Hn. apply not_elem_of_list_to_map_1. intros ([k v] & -> & Hin)%list_elem_of_fmap.
  apply list_elem_of_omap in Hin as (o & Ho & He). cbn in He. subst o.
  apply list_elem_of_lookup in Ho as [j Hj]. by apply (Hn j v).
Qed.

(** The first entry with the name counts. *)
Lemma entries_first es k key v :
  es !! k = Some (Some (key, v)) -> (forall j v', (j < k)%nat -> es !! j <> Some (Some (key, v'))) ->
  entries_map es !! key = Some v.
Proof.
  intros Hk Hlt. rewrite <- (take_drop_middle es k _ Hk), entries_app.
  rewrite lookup_union_r.
  - unfold entries_map. cbn. by rewrite lookup_insert_eq.
  - apply entries_none. intros j v' Hj. apply lookup_take_Some in Hj as [Hj Hjk]. by apply (Hlt j v').
Qed.

(** A fresh name put into an empty place. *)
Lemma entries_insert es k key v :
  es !! k = Some None -> entries_map es !! key = None ->
  entries_map (<[k := Some (key, v)]> es) = <[key := v]> (entries_map es).
Proof.
  intros Hk Hfr. assert (Hlt : (k < length es)%nat) by (by apply lookup_lt_Some in Hk).
  assert (He : entries_map es = entries_map (take k es) ∪ entries_map (drop (S k) es)).
  { rewrite <- (take_drop_middle es k _ Hk) at 1. by rewrite entries_app. }
  rewrite He in Hfr |- *. apply lookup_union_None in Hfr as [Hf1 _].
  rewrite insert_take_drop, entries_app, insert_union_r by done. done.
Qed.

Lemma entries_snoc es key v :
  entries_map es !! key = None -> entries_map (es ++ [Some (key, v)]) = <[key := v]> (entries_map es).
Proof.
  intros Hf. rewrite entries_app. unfold entries_map at 2. cbn.
  rewrite <- insert_union_r by done. by rewrite map_union_empty.
Qed.
End Entries.

(** * A directory's content *)

(** The name an array of DIRSIZ bytes holds. *)
Definition dname (buf : list Z) : list Z := cstr DIRSIZ (zget buf).

Definition entry_of (d : list Z) : option (list Z * Z) :=
  let de := get_dirent d in
  if de_inum de =? 0 then None else Some (dname (de_name de), de_inum de).

Definition nent (n : inode) : Z := i_size n / sizeof_dirent.
Definition dent (V : Z -> list Z) (n : inode) (k : Z) : option (list Z * Z) :=
  entry_of (fbytes V n (sizeof_dirent * k) sizeof_dirent).
Definition dents (V : Z -> list Z) (n : inode) : list (option (list Z * Z)) :=
  map (dent V n) (seqZ 0 (nent n)).
Definition dir_map (V : Z -> list Z) (n : inode) : gmap (list Z) Z := entries_map (dents V n).

Record dir_ok (sb : superblock) (V : Z -> list Z) (n : inode) : Prop := {
  dk_file : file_ok sb V n;
  dk_type : i_type n = T_DIR;
  dk_size : i_size n mod sizeof_dirent = 0;
  dk_byte : forall i, 0 <= i < i_size n -> is_u8 (fbyte V n i);
}.

Lemma dir_size sb V n : dir_ok sb V n -> i_size n = sizeof_dirent * nent n.
Proof.
  intros Hd. pose proof (dk_size _ _ _ Hd). unfold nent.
  pose proof (Z_div_mod_decomp (i_size n) sizeof_dirent ltac:(done)). lia.
Qed.

Lemma dir_nent sb V n : dir_ok sb V n -> 0 <= nent n /\ sizeof_dirent * nent n <= MAXFILE * BSIZE.
Proof.
  intros Hd. pose proof (dir_size _ _ _ Hd) as He. pose proof (fk_size _ _ _ (dk_file _ _ _ Hd)) as Hs.
  unfold sizeof_dirent in *. lia.
Qed.

Lemma dir_count sb V n :
  dir_ok sb V n -> (i_size n + sizeof_dirent - 1) / sizeof_dirent = nent n.
Proof.
  intros Hd. rewrite (dir_size _ _ _ Hd) at 1. unfold sizeof_dirent.
  replace (16 * nent n + 16 - 1) with (15 + nent n * 16) by lia.
  rewrite Z.div_add by lia. rewrite Z.div_small by lia. lia.
Qed.

Lemma dents_lookup V n k : 0 <= k < nent n -> dents V n !! Z.to_nat k = Some (dent V n k).
Proof.
  intros Hk. unfold dents. rewrite list_lookup_fmap, lookup_seqZ_lt by lia. cbn. do 2 f_equal. lia.
Qed.

Lemma dents_lookup_inv V n j e : dents V n !! j = Some e -> Z.of_nat j < nent n /\ e = dent V n (Z.of_nat j).
Proof.
  unfold dents. intros (i & -> & Hi)%list_lookup_fmap_Some. apply lookup_seqZ in Hi as [-> Hi]. split; [done|].
  by f_equal.
Qed.

(** ** Names *)

Lemma zget_u8 l j : Forall is_u8 l -> is_u8 (zget l j).
Proof.
  intros Hl. unfold zget. rewrite list_lookup_total_alt. destruct (l !! _) eqn:E; cbn; [|done].
  by eapply Forall_lookup_1.
Qed.

Lemma namecmp_zero x y : Forall is_u8 x -> Forall is_u8 y -> namecmp x y = 0 <-> dname x = dname y.
Proof. intros Hx Hy. apply strncmp_loop_zero; intros j; by apply zget_u8. Qed.

Lemma dent_u8 sb V n k :
  dir_ok sb V n -> 0 <= k < nent n -> Forall is_u8 (fbytes V n (sizeof_dirent * k) sizeof_dirent).
Proof.
  intros Hd Hk. pose proof (dir_size _ _ _ Hd) as He. unfold fbytes. apply Forall_fmap, Forall_forall.
  intros i Hi%elem_of_seqZ. cbn. apply (dk_byte _ _ _ Hd). unfold sizeof_dirent in *. lia.
Qed.

Lemma dname_u8 d : Forall is_u8 d -> Forall is_u8 (de_name (get_dirent d)).
Proof. intros Hd. cbn. unfold slice. by apply Forall_take, Forall_drop. Qed.

(** strncpy() keeps the name. *)
Lemma strncpy_name_str k name i :
  str_at k (zget (strncpy_name k name i)) 0 = str_at k (zget name) i.
Proof.
  revert i. induction k as [|k IH]; intros i; [done|]. cbn [str_at strncpy_name].
  destruct (Z.eqb_spec (zget name i) 0) as [E|E]; [done|].
  change (zget (zget name i :: ?l) 0) with (zget name i). destruct (Z.eqb_spec (zget name i) 0); [done|].
  f_equal. rewrite <- IH. cbn [Z.add].
  set (l := strncpy_name k name (i + 1)).
  assert (Hs : forall m j, 0 <= j -> str_at m (zget (zget name i :: l)) (j + 1) = str_at m (zget l) j).
  { induction m as [|m IHm]; intros j Hj; [done|]. cbn [str_at].
    assert (Hz : zget (zget name i :: l) (j + 1) = zget l j).
    { unfold zget at 1. replace (Z.to_nat (j + 1)) with (S (Z.to_nat j)) by lia. done. }
    rewrite Hz. destruct (_ =? 0); [done|]. f_equal. apply IHm. lia. }
  exact (Hs k 0 ltac:(lia)).
Qed.

Lemma length_strncpy_name k name i : length (strncpy_name k name i) = k.
Proof.
  revert i. induction k as [|k IH]; intros i; [done|]. cbn [strncpy_name].
  destruct (_ =? 0); [by rewrite length_replicate|]. cbn. by rewrite IH.
Qed.

Lemma strncpy_name_u8 k name i : Forall is_u8 name -> Forall is_u8 (strncpy_name k name i).
Proof.
  intros Hn. revert i. induction k as [|k IH]; intros i; [constructor|]. cbn [strncpy_name].
  destruct (_ =? 0); [by apply Forall_replicate|]. constructor; [by apply zget_u8|done].
Qed.

(** struct dirent is written and read back. *)
Lemma length_put_dirent de : length (put_dirent de) = Z.to_nat sizeof_dirent.
Proof. unfold put_dirent, put16. by rewrite length_splice, length_put_le. Qed.

Lemma put_dirent_u8 inum name : Forall is_u8 name -> Forall is_u8 (put_dirent (mkDirent inum name)).
Proof.
  intros Hn. unfold put_dirent. cbn [de_name de_inum].
  assert (Hs : forall bs off l, Forall is_u8 bs -> Forall is_u8 l -> Forall is_u8 (splice off bs l)).
  { induction bs as [|b bs IH]; intros off l Hb Hl; [done|]. inversion_clear Hb. cbn. apply IH; [done|].
    unfold zset. by apply Forall_insert. }
  apply Hs; [done|]. unfold put16, put_le, zset.
  repeat apply Forall_insert; try (apply Forall_replicate; done);
    pose proof (Z.mod_pos_bound (u16 inum) 256 ltac:(done)); pose proof (Z.mod_pos_bound (u16 inum / 256) 256 ltac:(done));
    unfold is_u8; lia.
Qed.

Lemma get_put_dirent inum name :
  0 <= inum < 2 ^ 16 -> length name = Z.to_nat DIRSIZ ->
  get_dirent (put_dirent (mkDirent inum name)) = mkDirent inum name.
Proof.
  intros Hi Hl. unfold get_dirent, put_dirent. cbn [de_name de_inum]. rewrite u16_small by done.
  set (d := put16 0 inum _). assert (Hld : length d = 16%nat) by done. f_equal.
  - transitivity (get16 d 0); [|by apply get16_put16].
    apply get_le_ext. intros i Hr. rewrite zget_splice by (rewrite ?Hld, ?Hl; unfold DIRSIZ; lia).
    destruct (Z.leb_spec 2 i); [lia|done].
  - assert (Hls : length (slice 2 DIRSIZ (splice 2 name d)) = Z.to_nat DIRSIZ).
    { rewrite length_slice; [done|lia|done|]. by rewrite length_splice, Hld. }
    apply list_eq_zget; [by rewrite Hls|]. rewrite Hls. intros i Hr. unfold DIRSIZ in Hr.
    rewrite zget_slice; [|lia|unfold DIRSIZ; lia|by rewrite length_splice, Hld].
    rewrite zget_splice by (rewrite ?Hld, ?Hl; unfold DIRSIZ; lia). rewrite Hl. unfold DIRSIZ.
    destruct (_ && _) eqn:E; [by replace (2 + i - 2) with i by lia|].
    apply andb_false_iff in E as [E%Z.leb_gt|E%Z.ltb_ge]; lia.
Qed.

Lemma entry_of_put inum name :
  0 < inum < 2 ^ 16 ->
  entry_of (put_dirent (mkDirent inum (strncpy_name (Z.to_nat DIRSIZ) name 0))) = Some (dname name, inum).
Proof.
  intros Hi. unfold entry_of. rewrite get_put_dirent by (lia || apply length_strncpy_name). cbn [de_inum de_name].
  destruct (Z.eqb_spec inum 0); [lia|]. do 2 f_equal. apply strncpy_name_str.
Qed.

(** * dirlookup() *)

Lemma read_frame_log s s' : read_frame s s' -> fs_vm s' = fs_vm s -> s' = put_log (fs_log s') s.
Proof. intros [A B C D E] F. destruct s, s'; cbn in *. by subst. Qed.

Section Dir.
Context (pid : Z).

(** Reading entry [k]. *)
Lemma read_dent sb w V s l dp k :
  let n := fs_inode s dp in
  fsok pid ∅ w V l -> dir_ok sb V n -> 0 <= k < nent n ->
  wp (readi_var pid dp (sizeof_dirent * k) sizeof_dirent)
    (fun r s' => r = (sizeof_dirent, fbytes V n (sizeof_dirent * k) sizeof_dirent) /\
       exists l', s' = put_log l' s /\ fsok pid ∅ w V l') (put_log l s).
Proof.
  intros n Hok Hd Hk. pose proof (dir_size _ _ _ Hd) as Hsz. pose proof (dir_nent _ _ _ Hd) as Hne.
  assert (HM : MAXFILE * BSIZE = 274432) by done. assert (Hsd : sizeof_dirent = 16) by done.
  eapply wp_mono.
  { apply (readi_var_spec pid sb w V (put_log l s) dp (sizeof_dirent * k) sizeof_dirent); cbn [fs_inode put_log fs_log];
      [done|apply Hd|lia|lia|lia]. }
  cbn [fs_inode put_log fs_log]. fold n. intros r s' (-> & Hfr & Hv & Hok').
  assert (Hrl : readlen n (sizeof_dirent * k) sizeof_dirent = sizeof_dirent).
  { unfold readlen. destruct (Z.gtb_spec (sizeof_dirent * k) (i_size n)); lia. }
  rewrite Hrl. split; [done|]. exists (fs_log s'). split; [|done].
  rewrite (read_frame_log _ _ Hfr Hv) at 1. done.
Qed.

Lemma map_split {A B} (f : A -> B) l done x todo :
  map f l = done ++ x :: todo -> exists y, x = f y /\ l !! length done = Some y.
Proof.
  intros He. assert (Hx : map f l !! length done = Some x) by (rewrite He; by apply list_lookup_middle).
  apply list_lookup_fmap_Some in Hx as (y & -> & Hy). by exists y.
Qed.

(** The loops of dirlookup() and dirlink(): the entries in order. *)
Lemma dir_scan {B} sb w V s l dp (body : Z -> M fsys (option B)) (P : Z -> Prop) (Q : option B -> fsys -> Prop) :
  let n := fs_inode s dp in
  fsok pid ∅ w V l -> dir_ok sb V n ->
  (forall k l1, 0 <= k < nent n -> (forall j, 0 <= j < k -> P j) -> fsok pid ∅ w V l1 ->
     wp (body (sizeof_dirent * k))
       (fun r s' => match r with
                    | Some b => Q (Some b) s'
                    | None => P k /\ exists l2, s' = put_log l2 s /\ fsok pid ∅ w V l2
                    end) (put_log l1 s)) ->
  (forall l1, fsok pid ∅ w V l1 -> (forall j, 0 <= j < nent n -> P j) -> Q None (put_log l1 s)) ->
  wp (for_first (map (Z.mul sizeof_dirent) (seqZ 0 ((i_size n + sizeof_dirent - 1) / sizeof_dirent))) body)
    Q (put_log l s).
Proof.
  intros n Hok Hd Hbody Hend. rewrite (dir_count _ _ _ Hd). pose proof (dir_nent _ _ _ Hd) as Hne.
  apply (wp_for_first (fun done _ s' => (forall j, 0 <= j < Z.of_nat (length done) -> P j) /\
            exists l1, s' = put_log l1 s /\ fsok pid ∅ w V l1)).
  - split; [cbn; lia|]. by exists l.
  - intros done x todo s' He (HP & l1 & -> & Hok1). apply map_split in He as (k & -> & Hk).
    apply lookup_seqZ in Hk as [-> Hk]. cbn [Z.add]. eapply wp_mono; [by apply Hbody; [lia|..]|].
    intros [b|] s'; [done|]. intros (HPk & Hl2). split; [|done]. intros j Hj. rewrite length_app in Hj. cbn in Hj.
    destruct (decide (j = Z.of_nat (length done))) as [->|]; [done|apply HP; lia].
  - intros s' (HP & l1 & -> & Hok1). rewrite length_map, length_seqZ in HP. apply Hend; [done|].
    intros j Hj. apply HP. lia.
Qed.

Lemma dir_map_first V n k nm i :
  0 <= k < nent n -> dent V n k = Some (nm, i) ->
  (forall j, 0 <= j < k -> forall i, dent V n j <> Some (nm, i)) -> dir_map V n !! nm = Some i.
Proof.
  intros Hk He Hlt. apply (entries_first _ (Z.to_nat k)); [by rewrite dents_lookup, He|].
  intros j v Hj Hl. apply dents_lookup_inv in Hl as [_ Hl]. by apply (Hlt (Z.of_nat j) ltac:(lia) v).
Qed.

Lemma dir_map_none V n nm :
  (forall j, 0 <= j < nent n -> forall i, dent V n j <> Some (nm, i)) -> dir_map V n !! nm = None.
Proof.
  intros Hn. apply entries_none. intros j v Hl. apply dents_lookup_inv in Hl as [Hj Hl].
  by apply (Hn (Z.of_nat j) ltac:(lia) v).
Qed.

Lemma dirlookup_spec sb w V s dp name T (Q : Z * Z -> fsys -> Prop) :
  let n := fs_inode s dp in let m := dir_map V n in
  fsok pid ∅ w V (fs_log s) -> dir_ok sb V n -> Forall is_u8 name -> itab s T ->
  (forall inum, m !! dname name = Some inum ->
     is_Some (T !! (i_dev n, inum)) \/ Z.of_nat (size T) < NINODE) ->
  (m !! dname name = None -> forall l', fsok pid ∅ w V l' -> Q (NULL, 0) (put_log l' s)) ->
  (forall inum k ip n' l', m !! dname name = Some inum -> 0 <= k < nent n ->
     dent V n k = Some (dname name, inum) -> slot ip -> igot (i_dev n) inum (fs_inode s ip) n' ->
     itab (put_log l' (put_inode ip n' s)) (incr (i_dev n, inum) T) -> fsok pid ∅ w V l' ->
     Q (ip, sizeof_dirent * k) (put_log l' (put_inode ip n' s))) ->
  wp (dirlookup pid dp name) Q s.
Proof.
  intros n m Hok Hd Hnm Ht Hroom HQ0 HQ1. unfold dirlookup, iget_field. wp_steps. fold n.
  rewrite (dk_type _ _ _ Hd). cbn [negb Z.eqb T_DIR]. apply wp_bind.
  replace s with (put_log (fs_log s) s) at 1 by (by destruct s).
  eapply (dir_scan sb w V s (fs_log s) dp _ (fun j => forall i, dent V n j <> Some (dname name, i))); [done|done| |].
  - intros k l1 Hk Hlt Hok1. apply wp_bind. eapply wp_mono; [by apply (read_dent sb w V s l1 dp k)|].
    fold n. cbn beta. intros r s' (-> & l2 & -> & Hok2). cbn [fst snd]. rewrite Z.eqb_refl. cbn [negb].
    pose proof (dent_u8 _ _ _ k Hd Hk) as Hu8.
    assert (Hde : dent V n k = entry_of (fbytes V n (sizeof_dirent * k) sizeof_dirent)) by done.
    set (d := fbytes V n _ _) in *. unfold entry_of in Hde.
    destruct (Z.eqb_spec (de_inum (get_dirent d)) 0) as [Hz|Hnz].
    { apply wp_ret. split; [by rewrite Hde|]. by exists l2. }
    destruct (Z.eqb_spec (namecmp name (de_name (get_dirent d))) 0) as [He|Hne];
      (rewrite (namecmp_zero name _ Hnm (dname_u8 d Hu8)) in *).
    + rewrite <- He in Hde. pose proof (dir_map_first _ _ _ _ _ Hk Hde Hlt) as Hm. fold m in Hm.
      apply wp_bind. eapply (iget_spec (put_log l2 s) T); [by apply (itab_ext s)|by apply Hroom|].
      intros ip n' Hip Hg Hit. do 2 apply wp_ret. cbn [fs_inode put_log] in Hg. by eapply HQ1.
    + apply wp_ret. split; [rewrite Hde; by intros i [= ? ?]|]. by exists l2.
  - intros l1 Hok1 Hno. apply wp_ret, HQ0; [|done]. by apply dir_map_none.
Qed.

(** * dirlink() *)

(** An entry written at place [k] of the directory, the others kept. *)
Lemma written_dent sb V n k bs V' n' :
  dir_ok sb V n -> 0 <= k <= nent n -> length bs = Z.to_nat sizeof_dirent ->
  written sb V n (sizeof_dirent * k) bs V' n' ->
  nent n' = Z.max (nent n) (k + 1) /\
  forall j, 0 <= j < nent n' -> dent V' n' j = if j =? k then entry_of bs else dent V n j.
Proof.
  intros Hd Hk Hl Hw. pose proof (dir_size _ _ _ Hd) as Hsz. pose proof (dir_nent _ _ _ Hd) as Hne.
  assert (Hsd : sizeof_dirent = 16) by done. rewrite Hsd in *. change (Z.to_nat 16) with 16%nat in Hl.
  assert (Hsz' : i_size n' = 16 * Z.max (nent n) (k + 1)).
  { destruct (wt_inode _ _ _ _ _ _ _ Hw) as [a ->]. cbn. rewrite Hl. lia. }
  assert (Hn' : nent n' = Z.max (nent n) (k + 1)).
  { unfold nent at 1. rewrite Hsz', Hsd, Z.mul_comm. by apply Z.div_mul. }
  split; [done|]. intros j Hj. unfold dent. rewrite Hsd.
  assert (Hb : forall i, 0 <= i < 16 -> fbyte V' n' (16 * j + i) =
            if j =? k then zget bs i else fbyte V n (16 * j + i)).
  { intros i Hi. rewrite (wt_byte _ _ _ _ _ _ _ Hw) by lia. rewrite Hl.
    destruct (Z.eqb_spec j k) as [->|Hjk].
    - destruct (_ && _) eqn:E; [f_equal; lia|]. apply andb_false_iff in E as [E%Z.leb_gt|E%Z.ltb_ge]; lia.
    - destruct (_ && _) eqn:E; [|done]. apply andb_true_iff in E as [E1%Z.leb_le E2%Z.ltb_lt]. lia. }
  destruct (Z.eqb_spec j k) as [->|Hjk].
  - f_equal. apply list_eq_zget; rewrite length_fbytes; [done|]. intros i Hi.
    rewrite zget_fbytes by lia. apply Hb. lia.
  - f_equal. apply map_ext_in. intros i Hi. apply list_elem_of_In, elem_of_seqZ in Hi.
    replace i with (16 * j + (i - 16 * j)) by lia. apply Hb. lia.
Qed.

Lemma written_dir_ok sb V n k bs V' n' :
  dir_ok sb V n -> 0 <= k <= nent n -> length bs = Z.to_nat sizeof_dirent \/ bs = [] -> Forall is_u8 bs ->
  written sb V n (sizeof_dirent * k) bs V' n' -> dir_ok sb V' n'.
Proof.
  intros Hd Hk Hl Hu Hw. pose proof (dir_size _ _ _ Hd) as Hsz. pose proof (dir_nent _ _ _ Hd) as Hne.
  assert (Hsd : sizeof_dirent = 16) by done. rewrite Hsd in *. change (Z.to_nat 16) with 16%nat in Hl.
  destruct (wt_inode _ _ _ _ _ _ _ Hw) as [a Hn']. split.
  - apply Hw.
  - rewrite Hn'. exact (dk_type _ _ _ Hd).
  - rewrite Hn', Hsd. cbn [i_size set_i_size set_i_disk]. destruct Hl as [Hl|Hl]; rewrite Hl; cbn [length];
      [replace (Z.max _ _) with (Z.max (nent n) (k + 1) * 16) by lia|replace (Z.max _ _) with (nent n * 16) by lia];
      by apply Z.mod_mul.
  - intros i Hi. rewrite (wt_byte _ _ _ _ _ _ _ Hw) by done. destruct (_ && _) eqn:E; [by apply zget_u8|].
    apply (dk_byte _ _ _ Hd). rewrite Hn' in Hi. cbn [i_size set_i_size set_i_disk] in Hi.
    apply andb_false_iff in E as [E%Z.leb_gt|E%Z.ltb_ge]; lia.
Qed.

Lemma written_dir_map sb V n k bs V' n' nm i :
  dir_ok sb V n -> 0 <= k <= nent n -> length bs = Z.to_nat sizeof_dirent ->
  written sb V n (sizeof_dirent * k) bs V' n' -> entry_of bs = Some (nm, i) ->
  k = nent n \/ dent V n k = None -> dir_map V n !! nm = None ->
  dir_map V' n' = <[nm := i]> (dir_map V n).
Proof.
  intros Hd Hk Hl Hw He Hfree Hfr. destruct (written_dent _ _ _ _ _ _ _ Hd Hk Hl Hw) as [Hn' Hj].
  assert (Hpt : forall j : nat, Z.of_nat j < nent n' ->
            dents V' n' !! j = Some (if Z.of_nat j =? k then Some (nm, i) else dent V n (Z.of_nat j))).
  { intros j Hlt. rewrite <- (Nat2Z.id j) at 1. rewrite dents_lookup by lia. rewrite Hj, He by lia. done. }
  assert (Hout : forall V n (j : nat), nent n <= Z.of_nat j -> dents V n !! j = None).
  { intros V0 n0 j Hge. apply lookup_ge_None. unfold dents. rewrite length_map, length_seqZ. lia. }
  unfold dir_map in *. destruct (decide (k = nent n)) as [->|Hkn].
  - rewrite <- entries_snoc by done. f_equal. apply list_eq. intros j.
    assert (Hlen : length (dents V n) = Z.to_nat (nent n)) by (unfold dents; by rewrite length_map, length_seqZ).
    destruct (decide (Z.of_nat j < nent n')) as [Hlt|Hge].
    + rewrite Hpt by done. destruct (Z.eqb_spec (Z.of_nat j) (nent n)) as [E|E].
      * rewrite lookup_app_r by lia. by replace (j - length (dents V n))%nat with 0%nat by lia.
      * rewrite lookup_app_l by lia. by rewrite <- (Nat2Z.id j) at 2; rewrite dents_lookup by lia.
    + rewrite Hout by lia. symmetry. apply lookup_ge_None. rewrite length_app. cbn. lia.
  - destruct Hfree as [|Hfree]; [done|].
    rewrite <- (entries_insert _ (Z.to_nat k)); [|by rewrite dents_lookup, Hfree by lia|done].
    f_equal. apply list_eq. intros j. destruct (decide (Z.of_nat j < nent n')) as [Hlt|Hge].
    + rewrite Hpt by done. destruct (Z.eqb_spec (Z.of_nat j) k) as [E|E].
      * replace j with (Z.to_nat k) by lia. rewrite list_lookup_insert_eq; [done|].
        unfold dents. rewrite length_map, length_seqZ. lia.
      * rewrite list_lookup_insert_ne by lia. by rewrite <- (Nat2Z.id j) at 2; rewrite dents_lookup by lia.
    + rewrite Hout by lia. symmetry. apply lookup_ge_None. rewrite length_insert.
      unfold dents. rewrite length_map, length_seqZ. lia.
Qed.

Lemma written_nil_map sb V n k V' n' :
  dir_ok sb V n -> 0 <= k <= nent n -> written sb V n (sizeof_dirent * k) [] V' n' -> dir_map V' n' = dir_map V n.
Proof.
  intros Hd Hk Hw. pose proof (dir_size _ _ _ Hd) as Hsz. assert (Hsd : sizeof_dirent = 16) by done.
  assert (Hsz' : i_size n' = i_size n).
  { destruct (wt_inode _ _ _ _ _ _ _ Hw) as [a ->]. cbn. rewrite Hsd in *. lia. }
  unfold dir_map, dents, nent. rewrite Hsz'. f_equal. apply map_ext_in.
  intros j Hj. apply list_elem_of_In, elem_of_seqZ in Hj. fold (nent n) in Hj. unfold dent. f_equal.
  apply map_ext_in. intros i Hi. apply list_elem_of_In, elem_of_seqZ in Hi. rewrite Hsd in *.
  rewrite (wt_byte _ _ _ _ _ _ _ Hw) by lia. cbn [length].
  destruct (_ && _) eqn:E; [|done]. apply andb_true_iff in E as [E1%Z.leb_le E2%Z.ltb_lt]. lia.
Qed.

(** A slot for the new entry. *)
Lemma dent_free V n k : de_inum (get_dirent (fbytes V n (sizeof_dirent * k) sizeof_dirent)) = 0 -> dent V n k = None.
Proof. intros Hz. unfold dent, entry_of. by rewrite Hz. Qed.

Lemma dirent_one_block k : 0 <= k -> blocks_left (sizeof_dirent * k) (sizeof_dirent * k + 16) = 1.
Proof.
  intros Hk. unfold blocks_left, sizeof_dirent, BSIZE. destruct (Z.ltb_spec (16 * k) (16 * k + 16)); [|lia].
  Z.to_euclidean_division_equations. lia.
Qed.

(** The directory [dp] after dirlink() returned [r]. *)
Record dir_linked (s : fsys) (V : Z -> list Z) (T : refs) (dp : Z) (name : list Z) (inum : Z)
    (r : Z) (s' : fsys) (V' : Z -> list Z) : Prop := {
  lk_ret : r = 0 /\ dir_map V (fs_inode s dp) !! dname name = None \/ r = -1;
  lk_dir : dir_ok (fs_sb s) V' (fs_inode s' dp);
  lk_map : dir_map V' (fs_inode s' dp) =
    if r =? 0 then <[dname name := inum]> (dir_map V (fs_inode s dp)) else dir_map V (fs_inode s dp);
  lk_tab : itab s' T;
  lk_id : ikey (fs_inode s' dp) = ikey (fs_inode s dp);
  lk_sb : fs_sb s' = fs_sb s;
  lk_fail : r = -1 -> is_Some (dir_map V (fs_inode s dp) !! dname name) \/
    sizeof_dirent * nent (fs_inode s dp) = MAXFILE * BSIZE \/
    forall b, 0 <= b < sb_size (fs_sb s) -> used (fs_sb s) V' b = true;
  lk_keep : forall b, 0 < b < sb_size (fs_sb s) -> used (fs_sb s) V b = true -> ~ is_map (fs_sb s) b ->
    ~ owns V (fs_inode s dp) b -> b <> IBLOCK (i_inum (fs_inode s dp)) (fs_sb s) -> V' b = V b;
}.

(** Writing the entry at place [k]. *)
Lemma write_dent w V s l dp name inum k T (Q : Z -> fsys -> Prop) :
  let n := fs_inode s dp in let sb := fs_sb s in
  fsok pid ∅ w V l -> 7 <= w -> disk_ok sb V -> dir_ok sb V n -> iblock_ok sb V n ->
  Forall is_u8 name -> 0 < inum < 2 ^ 16 -> itab s T -> 0 <= k <= nent n ->
  k = nent n \/ dent V n k = None -> dir_map V n !! dname name = None ->
  (forall r s' V' w', fsok pid ∅ w' V' (fs_log s') -> dir_linked s V T dp name inum r s' V' -> Q r s') ->
  wp (let! w := writei_var pid dp (put_dirent (mkDirent inum (strncpy_name (Z.to_nat DIRSIZ) name 0)))
                  (sizeof_dirent * k) in
      if negb (w =? sizeof_dirent) then ret (-1) else ret 0) Q (put_log l s).
Proof.
  intros n sb Hok Hw7 Hdisk Hd Hib Hnm Hi Ht Hk Hfree Hfr HQ.
  set (bs := put_dirent _). assert (Hlb : length bs = 16%nat) by apply length_put_dirent.
  assert (Hbu : Forall is_u8 bs) by (by apply put_dirent_u8, strncpy_name_u8).
  assert (Heo : entry_of bs = Some (dname name, inum)) by (by apply entry_of_put).
  assert (Hsd : sizeof_dirent = 16) by done. assert (HM : MAXFILE * BSIZE = 274432) by done.
  pose proof (dir_size _ _ _ Hd) as Hsz. pose proof (dir_nent _ _ _ Hd) as Hne.
  apply wp_bind. destruct (decide (sizeof_dirent * k + 16 <= MAXFILE * BSIZE)) as [Hroom|Hfull].
  - eapply wp_mono.
    { apply (writei_var_spec pid w V (put_log l s) dp (sizeof_dirent * k) bs);
        cbn [fs_inode fs_sb fs_log put_log]; fold n sb; rewrite ?Hlb;
        [done|done|apply Hd|done|lia|done|rewrite dirent_one_block by lia; lia]. }
    cbn [fs_inode fs_sb put_log]. fold n sb. rewrite Hlb. cbn beta.
    intros r s' ([F1 F2 F3 F4 F5] & Hr & V' & w' & Hok' & Hwr & Hpart). cbn [fs_sb fs_itlock fs_inode put_log] in F1, F2, F5.
    destruct (wt_inode _ _ _ _ _ _ _ Hwr) as [a Hn'].
    assert (Ht' : itab s' T).
    { apply (itab_ext s); [done| | |done]; intros j; (destruct (decide (j = dp)) as [->|]; [by rewrite Hn'|by rewrite F5]). }
    destruct (Z.eqb_spec r sizeof_dirent) as [->|Hne']; cbn [negb]; apply wp_ret.
    + change (Z.to_nat sizeof_dirent) with 16%nat in *. rewrite take_ge in Hwr by lia.
      apply (HQ _ _ V' w' Hok'). split; try done; [by left|..].
      * by eapply written_dir_ok; [exact Hd| |left|..].
      * by eapply written_dir_map.
      * by rewrite Hn'.
      * apply Hwr.
    + destruct (Hpart ltac:(lia)) as [Hz Hused].
      assert (Hr0 : r = 0).
      { destruct Hz as [|Hz]; [done|]. rewrite Hsd in *. unfold BSIZE in Hz.
        clear -Hz Hr Hne' Hk. Z.to_euclidean_division_equations. lia. }
      subst r. rewrite take_0 in Hwr. apply (HQ _ _ V' w' Hok'). split; try done; [by right|..].
      * by eapply written_dir_ok; [exact Hd| |right|..].
      * by eapply written_nil_map.
      * by rewrite Hn'.
      * right. by right.
      * apply Hwr.
  - unfold writei_var, writei_from, iget_field. wp_steps. cbn [fs_inode put_log]. fold n. rewrite Hlb.
    destruct (Z.gtb_spec (sizeof_dirent * k) (i_size n)) as [|_]; [lia|].
    change (Z.of_nat 16) with 16. rewrite u32_small by (unfold is_u32; lia).
    destruct (Z.ltb_spec (sizeof_dirent * k + 16) (sizeof_dirent * k)) as [|_]; [lia|]. cbn [orb].
    destruct (Z.gtb_spec (sizeof_dirent * k + 16) (MAXFILE * BSIZE)) as [_|]; [|lia].
    do 2 apply wp_ret. apply (HQ _ (put_log l s) V w Hok). split; try done; [by right| |].
    + by apply (itab_ext s).
    + intros _. right. left. fold n. rewrite Hsd in *. lia.
Qed.

Lemma dirlink_spec w V s dp name inum T :
  let n := fs_inode s dp in let sb := fs_sb s in
  fsok pid ∅ w V (fs_log s) -> 7 <= w -> disk_ok sb V -> dir_ok sb V n -> iblock_ok sb V n ->
  Forall is_u8 name -> 0 < inum < 2 ^ 16 -> itab s T -> Z.of_nat (size T) < NINODE -> 0 < i_ref n ->
  wp (dirlink pid dp name inum) (fun r s' => exists V' w', fsok pid ∅ w' V' (fs_log s') /\
        dir_linked s V T dp name inum r s' V') s.
Proof.
  intros n sb Hok Hw7 Hdisk Hd Hib Hnm Hi Ht Hroom Href. unfold dirlink. apply wp_bind.
  eapply (dirlookup_spec sb w V s dp name T); [done|done|done|done|by right| |]; fold n.
  - intros Hno l1 Hok1. cbn [fst]. rewrite Z.eqb_refl. cbn [negb]. apply wp_bind, wp_gets. cbn [fs_inode put_log]. fold n.
    apply wp_bind. eapply (dir_scan sb w V s l1 dp _ (fun _ => True)); [done|done| |]; fold n.
    + intros k l2 Hk _ Hok2. apply wp_bind. eapply wp_mono; [by apply (read_dent sb w V s l2 dp k)|].
      fold n. cbn beta. intros r s' (-> & l3 & -> & Hok3). cbn [fst snd]. rewrite Z.eqb_refl. cbn [negb].
      destruct (Z.eqb_spec (de_inum (get_dirent (fbytes V n (sizeof_dirent * k) sizeof_dirent))) 0) as [Hz|Hnz].
      * apply wp_ret. apply (write_dent w V s l3 dp name inum k T); try done; fold n; [lia|right; by apply dent_free|].
        intros r s' V' w' Ho Hl. by exists V', w'.
      * apply wp_ret. split; [done|]. by exists l3.
    + intros l2 Hok2 _. cbn beta iota. rewrite (dir_count _ _ _ Hd). pose proof (dir_nent _ _ _ Hd).
      apply (write_dent w V s l2 dp name inum (nent n) T); try done; fold n; [lia|by left|].
      intros r s' V' w' Ho Hl. by exists V', w'.
  - intros j k ip n' l1 Hm Hk He Hip Hg Hit Hok1. cbn [fst].
    destruct (Z.eqb_spec ip NULL) as [E|_]; [unfold NULL in E; lia|]. cbn [negb]. apply wp_bind.
    assert (Hk' : ikey n' = (i_dev n, j)) by (by eapply igot_key).
    eapply (iput_spec pid _ (incr (i_dev n, j) T)); [exact Hit|done|..]; cbn [fs_inode put_log put_inode put_inodes]; rewrite fset_eq.
    + destruct Hg as [(? & ? & ->)|(? & ->)]; cbn; lia.
    + destruct Hg as [(? & ? & ->)|(? & ->)]; cbn; [left; lia|right; by left].
    + rewrite Hk', decr_incr by (intros c; by eapply itab_pos). intros Ht'. apply wp_ret.
      exists V, w. split; [exact Hok1|].
      assert (Hdp : fs_inode (put_inode ip (set_i_ref (i_ref n' - 1) n') (put_log l1 (put_inode ip n' s))) dp = n).
      { cbn. rewrite fset_fset. unfold fset. destruct (Z.eqb_spec dp ip) as [<-|]; [|done]. fold n in Hg |- *.
        destruct Hg as [(? & ? & ->)|(? & ->)]; [|lia]. apply ref_undo. }
      split; rewrite ?Hdp; fold n; try done; [by right|]. intros _. left. by eexists.
Qed.
End Dir.

(** C10. A directory is a finite map from names to inode numbers.  dirlink()
    refuses a name the directory has; otherwise it adds the entry, reusing an
    empty slot or growing the directory, and returns 0, or, when the directory
    has its largest size or the disk is full, returns -1 and the directory is
    as it was.  The blocks of other files are kept, and no reference to an
    inode is gained or lost.  dirlookup() of any name afterwards returns, with
    one more reference, the table entry of the inode the map gives, or NULL
    when it gives none; names are compared up to DIRSIZ bytes. *)
Theorem directory_is_a_map pid w V s dp name inum T :
  let n := fs_inode s dp in let sb := fs_sb s in
  fsok pid ∅ w V (fs_log s) -> 7 <= w -> disk_ok sb V -> dir_ok sb V n -> iblock_ok sb V n ->
  Forall is_u8 name -> 0 < inum < 2 ^ 16 -> itab s T -> Z.of_nat (size T) < NINODE -> 0 < i_ref n ->
  wp (dirlink pid dp name inum) (fun r s' => exists V' w',
    fsok pid ∅ w' V' (fs_log s') /\ dir_linked s V T dp name inum r s' V' /\
    forall name', Forall is_u8 name' ->
      wp (dirlookup pid dp name') (fun r2 s2 =>
        match (if r =? 0 then <[dname name := inum]> (dir_map V n) else dir_map V n) !! dname name' with
        | None => r2 = (NULL, 0) /\ itab s2 T
        | Some j => slot r2.1 /\ ikey (fs_inode s2 r2.1) = (i_dev n, j) /\ itab s2 (incr (i_dev n, j) T)
        end) s') s.
Proof.
  intros n sb Hok Hw7 Hdisk Hd Hib Hnm Hi Ht Hroom Href.
  eapply wp_mono; [by apply (dirlink_spec pid w V s dp name inum T)|]. cbn beta.
  intros r s' (V' & w' & Hok' & Hl). exists V', w'. split; [done|]. split; [done|]. intros name' Hnm'.
  pose proof Hl as [_ Hd' Hm' Ht' Hid _ _ _]. fold n in Hm', Hid. rewrite <- Hm'.
  assert (Hdev : i_dev (fs_inode s' dp) = i_dev n) by congruence.
  eapply (dirlookup_spec pid (fs_sb s) w' V' s' dp name' T); [done|done|done|done|by right| |].
  - intros Hno l' Hok2. rewrite Hno. split; [done|]. by apply (itab_ext s').
  - intros j k ip n' l' Hj Hk He Hip Hg Hit Hok2. rewrite Hj. cbn [fst]. rewrite Hdev in Hg, Hit.
    split; [done|]. split; [|done]. cbn. rewrite fset_eq. by eapply igot_key.
Qed.

Module DirDemo.
(** The directory in block 46 of the disk of [AllocDemo]: two empty entries. *)
Definition ino : inode :=
  mkInode 1 1 1 no_sleeplock 1 T_DIR 0 0 1 32 (46 :: replicate 12 0).
Definition s0 : fsys :=
  mkFsys AllocDemo.log0 AllocDemo.sb0 false (fun i => if i =? 0 then ino else AllocDemo.no_inode) []
    (mkKst (fun _ => 0) 0 false) [].
Definition T0 : refs := {[ (1, 1) := 1 ]}.

Lemma tab0 : itab s0 T0.
Proof.
  split; try done.
  - intros i Hi. cbn. by destruct (i =? 0).
  - intros i Hi. cbn. by destruct (i =? 0).
  - intros k c. unfold T0. intros [<- <-]%lookup_singleton_Some. by exists 0.
  - intros i j Hi Hj. cbn. destruct (Z.eqb_spec i 0), (Z.eqb_spec j 0); cbn; try lia; congruence.
Qed.

Lemma file0 : file_ok AllocDemo.sb0 AllocDemo.V0 ino.
Proof.
  destruct (FileDemo.ino_ok 1 46 ltac:(done) ltac:(done) ltac:(by vm_compute)) as [A B C D E F G].
  split; try done. intros x Hx Hs. apply G; [done|]. cbn in *. unfold BSIZE in *. lia.
Qed.

Lemma dir0 : dir_ok AllocDemo.sb0 AllocDemo.V0 ino.
Proof.
  split; [apply file0|done|done|]. intros i Hi. unfold fbyte. apply zget_u8. unfold AllocDemo.V0.
  destruct (_ =? 45); [|by apply Forall_replicate]. unfold AllocDemo.bmap0.
  apply Forall_app. split; by apply Forall_replicate.
Qed.
End DirDemo.

Lemma directory_is_a_map_witness :
  wp (dirlink 1 0 [97; 0] 5) (fun r s' => exists V' w',
    fsok 1 ∅ w' V' (fs_log s') /\ dir_linked DirDemo.s0 AllocDemo.V0 DirDemo.T0 0 [97; 0] 5 r s' V' /\
    forall name', Forall is_u8 name' ->
      wp (dirlookup 1 0 name') (fun r2 s2 =>
        match (if r =? 0 then <[dname [97; 0] := 5]> (dir_map AllocDemo.V0 DirDemo.ino)
               else dir_map AllocDemo.V0 DirDemo.ino) !! dname name' with
        | None => r2 = (NULL, 0) /\ itab s2 DirDemo.T0
        | Some j => slot r2.1 /\ ikey (fs_inode s2 r2.1) = (1, j) /\ itab s2 (incr (1, j) DirDemo.T0)
        end) s') DirDemo.s0.
Proof.
  refine (directory_is_a_map 1 10 AllocDemo.V0 DirDemo.s0 0 [97; 0] 5 DirDemo.T0 AllocDemo.log0_ok _ FileDemo.disk0_ok
            DirDemo.dir0 _ _ _ DirDemo.tab0 _ _); [done| |by repeat constructor|done|done|done].
  destruct FileDemo.iblock0_ok as [A B C D]. by split.
Defined.
