(* ===== verification/FsPath.v ===== *)
(** Path names: skipelem() splits them, namex() resolves them in the tree of
    directories. *)

From S2P Require Import Prelude Riscv CString Kalloc Vm Sleeplock Fields BlockCache Log.
From S2P Require Import LogProps LogSpace Fs FsView FsAlloc FsFile FsRead FsInode FsWrite FsProps FsTable FsDir.

(** * The elements of a path *)

(** The elements between slashes, none empty, each cut to DIRSIZ bytes; [cur]
    is the element being read. *)
Definition emit (cur : list Z) : list (list Z) :=
  match cur with [] => [] | _ => [take (Z.to_nat DIRSIZ) cur] end.
Fixpoint elems_from (cur p : list Z) : list (list Z) :=
  match p with
  | [] => emit cur
  | c :: p' => if c =? 0 then emit cur
               else if c =? SLASH then emit cur ++ elems_from [] p'
               else elems_from (cur ++ [c]) p'
  end.
Definition path_elems (p : list Z) : list (list Z) := elems_from [] p.

Lemma at_end_elems p : at_end p = true -> path_elems p = [].
Proof. destruct p as [|c p]; [done|]. cbn. by intros ->. Qed.

Lemma skip_slash_spec p :
  path_elems (skip_slash p) = path_elems p /\ (length (skip_slash p) <= length p)%nat /\
  (forall P, Forall P p -> Forall P (skip_slash p)) /\
  (at_end (skip_slash p) = true \/ exists c r, skip_slash p = c :: r /\ c <> 0 /\ c <> SLASH).
Proof.
  induction p as [|c p IH]; [by split_and!; auto|]. cbn [skip_slash].
  destruct (Z.eqb_spec c SLASH) as [->|Hs].
  - destruct IH as (A & B & C & D). split_and!; [exact A|cbn; lia| |done]. intros P. inversion_clear 1. by apply C.
  - split_and!; [done|lia|done|]. destruct (Z.eqb_spec c 0) as [->|]; [by left|right; by exists c, p].
Qed.

Lemma take_elem_spec p : forall cur e r, take_elem p = (e, r) ->
  p = e ++ r /\ Forall (fun c => c <> 0) e /\ elems_from cur p = emit (cur ++ e) ++ path_elems r.
Proof.
  induction p as [|c p IH]; intros cur e r; cbn [take_elem].
  - intros [= <- <-]. by rewrite !app_nil_r.
  - destruct ((c =? SLASH) || (c =? 0)) eqn:E.
    + intros [= <- <-]. split; [done|]. split; [done|]. rewrite app_nil_r. unfold path_elems. cbn [elems_from].
      destruct (Z.eqb_spec c 0); [by rewrite app_nil_r|]. destruct (c =? SLASH); done.
    + apply orb_false_iff in E as [E1 E2]. destruct (take_elem p) as [e' r'] eqn:Ep. intros [= <- <-].
      destruct (IH (cur ++ [c]) e' r' eq_refl) as (-> & Hnz & He). split; [done|].
      split; [constructor; [by apply Z.eqb_neq|done]|]. cbn [elems_from]. rewrite E1, E2, He. by rewrite <- app_assoc.
Qed.

(** A buffer that starts with the bytes of a string. *)
Lemma str_at_prefix k p i (l : list Z) :
  (length l <= k)%nat -> Forall (fun c => c <> 0) l ->
  (forall j, 0 <= j < Z.of_nat (length l) -> p (i + j) = zget l j) ->
  (length l = k \/ p (i + Z.of_nat (length l)) = 0) -> str_at k p i = l.
Proof.
  revert i l. induction k as [|k IH]; intros i l Hl Hnz Hp Hend; [by destruct l; cbn in Hl; [|lia]|].
  cbn [str_at]. destruct l as [|c l].
  - destruct Hend as [Hend|Hend]; [done|]. cbn in Hend. rewrite Z.add_0_r in Hend. by rewrite Hend.
  - inversion_clear Hnz as [|? ? Hc Hnz']. cbn [length] in *.
    assert (Hpi : p i = c) by (rewrite <- (Z.add_0_r i), Hp by lia; done).
    rewrite Hpi. destruct (Z.eqb_spec c 0); [done|]. f_equal. apply IH; [lia|done| |].
    + intros j Hj. rewrite <- Z.add_assoc, Hp by lia. unfold zget. by replace (Z.to_nat (1 + j)) with (S (Z.to_nat j)) by lia.
    + destruct Hend as [Hend|Hend]; [left; lia|right]. rewrite <- Hend. f_equal. lia.
Qed.

Lemma Forall_splice P off bs l : Forall P bs -> Forall P l -> Forall P (splice off bs l).
Proof.
  revert off l. induction bs as [|b bs IH]; intros off l Hb Hl; [done|]. inversion_clear Hb. cbn.
  apply IH; [done|]. unfold zset. by apply Forall_insert.
Qed.

(** One step: the element copied to [name], the elements that remain. *)
Lemma skipelem_spec path name :
  length name = Z.to_nat DIRSIZ -> Forall is_u8 path -> Forall is_u8 name ->
  match skipelem path name with
  | None => path_elems path = []
  | Some (path', name') =>
      path_elems path = dname name' :: path_elems path' /\ length name' = Z.to_nat DIRSIZ /\
      Forall is_u8 path' /\ Forall is_u8 name' /\ (length path' < length path)%nat /\
      (at_end path' = true <-> path_elems path' = [])
  end.
Proof.
  intros Hn Hp Hu. unfold skipelem. destruct (skip_slash_spec path) as (He & Hl & Hf & Hh).
  set (p := skip_slash path) in *. destruct (at_end p) eqn:Hend; [by rewrite <- He, at_end_elems|].
  destruct Hh as [|(c & r0 & Hpc & Hc0 & Hcs)]; [done|]. destruct (take_elem p) as [e r] eqn:Et.
  destruct (take_elem_spec p [] e r Et) as (Hpe & Hnz & Hel). cbn [app] in Hel.
  assert (Hne : e <> []).
  { intros ->. rewrite Hpc in Et. cbn [take_elem] in Et.
    destruct (Z.eqb_spec c SLASH), (Z.eqb_spec c 0); try done. cbn in Et. by destruct (take_elem r0). }
  assert (Hup : Forall is_u8 p) by (by apply Hf). rewrite Hpe in Hup. apply Forall_app in Hup as [Hue Hur].
  assert (Hlp : (length e + length r <= length path)%nat) by (rewrite <- length_app, <- Hpe; done).
  assert (He0 : (0 < length e)%nat) by (destruct e; [done|cbn; lia]).
  destruct (skip_slash_spec r) as (Hre & Hrl & Hrf & Hrh).
  set (nm := if _ >=? _ then _ else _). assert (Hnm : dname nm = take (Z.to_nat DIRSIZ) e /\ length nm = Z.to_nat DIRSIZ /\ Forall is_u8 nm).
  { unfold nm. destruct (Z.geb_spec (Z.of_nat (length e)) DIRSIZ) as [Hge|Hlt].
    - assert (Hlt : length (take (Z.to_nat DIRSIZ) e) = Z.to_nat DIRSIZ) by (rewrite length_take; lia).
      split; [|split; [by rewrite length_splice|by apply Forall_splice; [apply Forall_take|]]].
      apply str_at_prefix; [lia|by apply Forall_take| |by left]. intros j Hj. rewrite Hlt in Hj.
      rewrite zget_splice by (rewrite ?Hlt, ?Hn; lia). rewrite Hlt.
      destruct (_ && _) eqn:E; [f_equal; lia|]. apply andb_false_iff in E as [E%Z.leb_gt|E%Z.ltb_ge]; lia.
    - rewrite take_ge by lia.
      split; [|split; [by rewrite length_zset, length_splice|unfold zset; apply Forall_insert; [by apply Forall_splice|done]]].
      apply str_at_prefix; [lia|done| |].
      + intros j Hj. rewrite zget_zset_ne by (rewrite ?length_splice; lia). rewrite zget_splice by (rewrite ?Hn; lia).
        destruct (_ && _) eqn:E; [f_equal; lia|]. apply andb_false_iff in E as [E%Z.leb_gt|E%Z.ltb_ge]; lia.
      + right. rewrite Z.add_0_l, zget_zset_eq; [done|]. rewrite length_splice, Hn. lia. }
  destruct Hnm as (Hd & Hln & Hun). split_and!; [|done|by apply Hrf|done|lia|].
  - rewrite <- He. unfold path_elems at 1. rewrite Hel, Hre, Hd. by destruct e.
  - split; [apply at_end_elems|]. destruct Hrh as [|(c' & r' & Hr' & Hc0' & Hcs')]; [done|]. rewrite Hr'.
    intros Hnil. exfalso. destruct (take_elem (c' :: r')) as [e' r2] eqn:Et'.
    destruct (take_elem_spec _ [] e' r2 Et') as (_ & _ & Hel'). unfold path_elems in Hnil. rewrite Hel' in Hnil.
    cbn [take_elem] in Et'. destruct (Z.eqb_spec c' SLASH), (Z.eqb_spec c' 0); try done.
    cbn in Et'. destruct (take_elem r'). injection Et' as <- <-. done.
Qed.

(** * The tree of directories *)

Definition blank_inode : inode := mkInode 0 0 0 no_sleeplock 0 0 0 0 0 0 [].

Section Tree.
Context (sb : superblock) (V : Z -> list Z).

(** Inode [i] as the disk has it, and what its entries name. *)
Definition inode_at (i : Z) : inode := on_disk sb V i blank_inode.
Definition is_dir (i : Z) : bool := i_type (inode_at i) =? T_DIR.
Definition dir_child (i : Z) (e : list Z) : option Z := if is_dir i then dir_map V (inode_at i) !! e else None.

(** The inode a list of elements leads to. *)
Fixpoint resolve (i : Z) (es : list (list Z)) : option Z :=
  match es with
  | [] => Some i
  | e :: es' => dir_child i e ≫= fun j => resolve j es'
  end.

(** The directory of the last element, and that element. *)
Definition resolve_parent (i : Z) (es : list (list Z)) : option (Z * list Z) :=
  match last es with
  | None => None
  | Some e => resolve i (removelast es) ≫= fun d => if is_dir d then Some (d, e) else None
  end.

(** Inodes reachable from each other: in use, linked, directories in order. *)
Record tree_ok (I : Z -> Prop) : Prop := {
  tr_type : forall i, I i -> i_type (inode_at i) <> 0;
  tr_link : forall i, I i -> i_nlink (inode_at i) <> 0;
  tr_dir : forall i, I i -> i_type (inode_at i) = T_DIR -> dir_ok sb V (inode_at i);
  tr_closed : forall i e j, I i -> dir_child i e = Some j -> I j;
}.

(** namex() walks element by element. *)
Fixpoint descend (par : bool) (i : Z) (es : list (list Z)) : option (Z * list Z) :=
  match es with
  | [] => if par then None else Some (i, [])
  | e :: es' =>
      if is_dir i then
        if par && bool_decide (es' = []) then Some (i, e)
        else dir_map V (inode_at i) !! e ≫= fun j => descend par j es'
      else None
  end.

Lemma descend_resolve i es : descend false i es = (fun j => (j, [])) <$> resolve i es.
Proof.
  revert i. induction es as [|e es IH]; intros i; [done|]. cbn [descend resolve andb]. unfold dir_child.
  destruct (is_dir i); [|done]. destruct (dir_map V (inode_at i) !! e); [|done]. apply IH.
Qed.

Lemma descend_parent i es : descend true i es = resolve_parent i es.
Proof.
  revert i. induction es as [|e es IH]; intros i; [done|]. cbn [descend andb].
  destruct es as [|e' es]; [done|]. rewrite bool_decide_false by done.
  unfold resolve_parent. rewrite last_cons_cons. change (removelast (e :: e' :: es)) with (e :: removelast (e' :: es)).
  cbn [resolve]. unfold dir_child. destruct (is_dir i); [|by destruct (last (e' :: es))].
  destruct (dir_map V (inode_at i) !! e) as [j|]; [apply IH|by destruct (last (e' :: es))].
Qed.

Lemma dir_ok_ext n m :
  i_type m = i_type n -> i_size m = i_size n -> i_addrs m = i_addrs n -> dir_ok sb V n -> dir_ok sb V m.
Proof.
  intros Ht Hs Ha [[A B C D E F G] H1 H2 H3]. destruct n, m. cbn in *. subst. split; [split|..]; done.
Qed.
End Tree.

(** * namex() *)

Section Namex.
Context (pid w : Z) (V : Z -> list Z) (sb : superblock) (T : refs).

(** Entry [ip] is a reference to inode [i], one more than [T] counts. *)
Record at_node (i ip : Z) (s : fsys) : Prop := {
  an_ok : fsok pid ∅ w V (fs_log s);
  an_sb : fs_sb s = sb;
  an_coh : icoh V s;
  an_slot : slot ip;
  an_key : ikey (fs_inode s ip) = (ROOTDEV, i);
  an_ref : 0 < i_ref (fs_inode s ip);
  an_tab : itab s (incr (ROOTDEV, i) T);
}.

(** No reference is held any more. *)
Record at_none (s : fsys) : Prop := {
  no_ok : fsok pid ∅ w V (fs_log s);
  no_sb : fs_sb s = sb;
  no_coh : icoh V s;
  no_tab : itab s T;
}.

Context (I : Z -> Prop) (Htree : tree_ok sb V I) (Hpos : forall k c, T !! k = Some c -> 0 < c).
#[local] Set Default Proof Using "Type Htree Hpos".

Lemma slot_nonnull ip : slot ip -> ip <> NULL.
Proof using Type. unfold NULL. lia. Qed.

Lemma locked_iput_ok n c :
  I (i_inum n) -> i_nlink (set_i_ref c (ilocked pid sb V n)) <> 0.
Proof. intros Hi. exact (tr_link _ _ _ Htree _ Hi). Qed.

Lemma unlocked_coh n c :
  entry_coh sb V n -> entry_coh sb V (iunlocked (set_i_ref c (ilocked pid sb V n))).
Proof using Type. intros [[Hlk _] _]. split; [by split|]. intros _. by right. Qed.

(** iunlockput() of the entry namex() has locked. *)
Lemma iunlockput_node s ip n c T1 (Q : unit -> fsys -> Prop) :
  fs_sb s = sb -> slot ip -> fs_inode s ip = set_i_ref c (ilocked pid sb V n) -> 0 < c -> entry_coh sb V n ->
  I (i_inum n) -> (forall i, slot i -> i <> ip -> entry_coh sb V (fs_inode s i)) -> itab s T1 ->
  (forall s', fs_log s' = fs_log s -> fs_sb s' = sb -> icoh V s' -> itab s' (decr (ikey n) T1) ->
     (forall j, j <> ip -> fs_inode s' j = fs_inode s j) -> ikey (fs_inode s' ip) = ikey n ->
     i_ref (fs_inode s' ip) = c - 1 -> Q tt s') ->
  wp (iunlockput pid ip) Q s.
Proof.
  intros Hsb Hip Hn Hc Hcoh Hi Hoth Ht HQ. unfold iunlockput. apply wp_bind.
  apply iunlock_spec; rewrite ?Hn; try done; [by apply slot_nonnull|apply Hcoh|].
  set (m := set_i_ref c (ilocked pid sb V n)) in *.
  apply (iput_spec pid _ T1); cbn [fs_inode lset fwoken put_inode put_inodes]; rewrite ?fset_eq; try done.
  - apply (itab_ext s); try done; intros j; cbn; (unfold fset; destruct (Z.eqb_spec j ip) as [->|]; [by rewrite Hn|done]).
  - right. right. exact (locked_iput_ok n c Hi).
  - intros Ht'. apply HQ; try done; cbn.
    + apply icoh_put; cbn.
      * intros j Hj. cbn. rewrite Hsb. unfold fset. destruct (Z.eqb_spec j ip); [by apply unlocked_coh|by apply Hoth].
      * rewrite Hsb. apply (entry_coh_ref sb V (iunlocked m)); [by apply unlocked_coh|done].
    + intros j Hj. by rewrite !fset_ne.
    + by rewrite fset_eq.
    + by rewrite fset_eq.
Qed.

(** The rest of the step from a directory that is locked: look the element up,
    let the directory go. *)
Lemma namex_lookup s ip n l name cur (Q : (list Z * list Z * Z) + (Z * list Z + Z * list Z) -> fsys -> Prop) path :
  at_node cur ip s -> I cur -> n = fs_inode s ip -> is_dir sb V cur = true -> fsok pid ∅ w V l ->
  Z.of_nat (size T) + 2 <= NINODE -> Forall is_u8 name ->
  (dir_map V (inode_at sb V cur) !! dname name = None -> forall s', at_none s' -> Q (inr (inl (NULL, name))) s') ->
  (forall j ip' s', dir_map V (inode_at sb V cur) !! dname name = Some j -> at_node j ip' s' ->
     Q (inl (path, name, ip')) s') ->
  wp (let! r := dirlookup pid ip name in
      if r.1 =? NULL then iunlockput pid ip ;;; ret (inr (inl (NULL, name)))
      else iunlockput pid ip ;;; ret (inl (path, name, r.1)))
    Q (put_log l (put_inode ip (ilocked pid sb V n) s)).
Proof.
  intros [_ Hsb Hcoh Hip Hkey Href Htab] Hcur -> Hdir Hok Hroom Hnm HQ0 HQ1. set (n := fs_inode s ip) in *.
  assert (Hin : i_inum n = cur) by congruence. assert (Hdev : i_dev n = ROOTDEV) by congruence.
  assert (Hcn : entry_coh sb V n) by (rewrite <- Hsb; by apply Hcoh).
  assert (Hd : dir_ok sb V (ilocked pid sb V n)).
  { apply (dir_ok_ext sb V (inode_at sb V cur)); try (rewrite <- Hin; done). apply (tr_dir _ _ _ Htree); [done|by apply Z.eqb_eq]. }
  assert (Hm : dir_map V (ilocked pid sb V n) = dir_map V (inode_at sb V cur)) by (rewrite <- Hin; done).
  assert (Hself : ilocked pid sb V n = set_i_ref (i_ref n) (ilocked pid sb V n)) by done.
  set (s2 := put_log l (put_inode ip (ilocked pid sb V n) s)).
  assert (Hs2 : fs_inode s2 ip = ilocked pid sb V n) by (cbn; by rewrite fset_eq).
  assert (Ht2 : itab s2 (incr (ROOTDEV, cur) T)).
  { apply (itab_ext s); try done; intros j; cbn; (unfold fset; destruct (Z.eqb_spec j ip) as [->|]; done). }
  assert (Hc2 : forall i, slot i -> i <> ip -> entry_coh sb V (fs_inode s2 i)).
  { intros i Hi Hne. cbn. rewrite fset_ne by done. rewrite <- Hsb. by apply Hcoh. }
  assert (Hk : ikey n = (ROOTDEV, cur)) by done.
  apply wp_bind. eapply (dirlookup_spec pid sb w V s2 ip name); rewrite ?Hs2, ?Hm; try done.
  - intros j _. right. pose proof (size_incr (ROOTDEV, cur) T). lia.
  - intros Hno l' Hok'. cbn [fst]. rewrite Z.eqb_refl. apply wp_bind.
    eapply (iunlockput_node (put_log l' s2) ip n (i_ref n) (incr (ROOTDEV, cur) T)); try done.
    + by rewrite Hin.
    + by apply (itab_ext s2).
    + intros s' Hl' Hsb' Hcoh' Htab' _ _ _. apply wp_ret, HQ0; [done|].
      rewrite Hk, decr_incr in Htab' by apply Hpos. split; try done. by rewrite Hl'.
  - intros j k ip' n' l' Hj Hkk He Hip' Hg Ht3 Hok'. change (i_dev (ilocked pid sb V n)) with (i_dev n) in Hg, Ht3.
    rewrite Hdev in Hg, Ht3. cbn [fst].
    destruct (Z.eqb_spec ip' NULL) as [E|_]; [unfold NULL in E; lia|]. apply wp_bind.
    set (s3 := put_log l' (put_inode ip' n' s2)) in *.
    assert (H3 : exists c, fs_inode s3 ip = set_i_ref c (ilocked pid sb V n) /\ 0 < c /\ (ip' = ip -> 1 < c /\ j = cur)).
    { cbn. unfold fset. destruct (Z.eqb_spec ip ip') as [<-|Hne].
      - rewrite Hs2 in Hg. destruct Hg as [(Hr & [= _ Hj'] & ->)|(Hr & ->)]; [|cbn in Hr; lia].
        exists (i_ref n + 1). split; [done|]. cbn in Hr. split; [lia|]. intros _. split; [lia|congruence].
      - rewrite Z.eqb_refl. exists (i_ref n). split; [done|]. split; [done|]. by intros ->. }
    destruct H3 as (c & Hn3 & Hc & Hsame).
    eapply (iunlockput_node s3 ip n c); [done|done|exact Hn3|done|done|by rewrite Hin| |exact Ht3|].
    + intros i Hi Hne. cbn. unfold fset at 1. destruct (Z.eqb_spec i ip') as [->|]; [|by apply Hc2].
      eapply entry_coh_igot; [by apply Hc2|exact Hg].
    + intros s' Hl' Hsb' Hcoh' Htab' Hothers Hkey' Hcnt'. apply wp_ret, (HQ1 j); [done|].
      rewrite Hk, (incr_comm (ROOTDEV, j)), decr_incr in Htab' by (intros c'; by apply incr_pos).
      assert (Hend : ikey (fs_inode s' ip') = (ROOTDEV, j) /\ 0 < i_ref (fs_inode s' ip')).
      { destruct (decide (ip' = ip)) as [->|Hne].
        - destruct (Hsame eq_refl) as [? ->]. split; [by rewrite Hkey'|lia].
        - rewrite Hothers by done. cbn. rewrite fset_eq. split; [by eapply igot_key|].
          destruct Hg as [(Hr & _ & ->)|(_ & ->)]; cbn [i_ref set_i_ref set_i_id]; lia. }
      destruct Hend. split; try done. by rewrite Hl'.
Qed.

(** What namex() returns: the inode the descent ends at, or nothing held. *)
Definition descended (par : bool) (o : option (Z * list Z)) (r : Z * list Z) (s : fsys) : Prop :=
  match o with
  | Some (i, e) => at_node i r.1 s /\ (par = true -> dname r.2 = e)
  | None => r.1 = NULL /\ at_none s
  end.

(** iput() of an entry that is not locked. *)
Lemma iput_node s ip cur (Q : unit -> fsys -> Prop) :
  at_node cur ip s -> I cur -> (forall s', at_none s' -> Q tt s') -> wp (iput pid ip) Q s.
Proof.
  intros [Hok Hsb Hcoh Hip Hkey Href Htab] Hcur HQ. set (n := fs_inode s ip) in *.
  assert (Hcn : entry_coh sb V n) by (rewrite <- Hsb; by apply Hcoh).
  eapply (iput_spec pid s); fold n; [exact Htab|done|done| |].
  - destruct (ec_load _ _ _ Hcn Href) as [Hv|[Hv He]]; [right; by left|]. right. right. rewrite <- He.
    assert (Hin : i_inum n = cur) by congruence. rewrite <- Hin in Hcur. exact (tr_link _ _ _ Htree _ Hcur).
  - intros Ht'. apply HQ. rewrite Hkey, decr_incr in Ht' by apply Hpos. split; try done.
    apply icoh_put; [done|]. rewrite Hsb. by apply entry_coh_ref.
Qed.

Lemma namex_step par s path name ip cur :
  at_node cur ip s -> I cur -> Z.of_nat (size T) + 2 <= NINODE ->
  length name = Z.to_nat DIRSIZ -> Forall is_u8 path -> Forall is_u8 name ->
  wp (match skipelem path name with
      | Some (path, name) =>
          ilock pid ip ;;;
          let! t := iget_field i_type ip in
          if negb (t =? T_DIR) then
            iunlockput pid ip ;;;
            ret (inr (inl (NULL, name)))
          else if par && at_end path then
            iunlock pid ip ;;;
            ret (inr (inl (ip, name)))
          else
            let! r := dirlookup pid ip name in
            if r.1 =? NULL then
              iunlockput pid ip ;;;
              ret (inr (inl (NULL, name)))
            else
              iunlockput pid ip ;;;
              ret (inl (path, name, r.1))
      | None => ret (inr (inr (ip, name)))
      end)
    (fun r s' => match r with
                 | inl (path', name', ip') => exists cur', at_node cur' ip' s' /\ I cur' /\
                     length name' = Z.to_nat DIRSIZ /\ Forall is_u8 path' /\ Forall is_u8 name' /\
                     (length path' < length path)%nat /\
                     descend sb V par cur' (path_elems path') = descend sb V par cur (path_elems path)
                 | inr (inl r) => descended par (descend sb V par cur (path_elems path)) r s'
                 | inr (inr (ip', name')) => path_elems path = [] /\ ip' = ip /\ s' = s
                 end) s.
Proof.
  intros Hat Hcur Hroom Hln Hup Hun. pose proof (skipelem_spec path name Hln Hup Hun) as Hsk.
  destruct (skipelem path name) as [[path' name']|]; [|by apply wp_ret].
  destruct Hsk as (Hes & Hln' & Hup' & Hun' & Hlt & Hend).
  pose proof Hat as [Hok Hsb Hcoh Hip Hkey Href Htab]. set (n := fs_inode s ip) in *.
  assert (Hin : i_inum n = cur) by congruence.
  assert (Hcn : entry_coh sb V n) by (rewrite <- Hsb; by apply Hcoh).
  assert (Htype : i_type (on_disk sb V (i_inum n) n) = i_type (inode_at sb V cur)) by (by rewrite <- Hin).
  apply wp_bind. eapply (ilock_spec pid w V s ip); fold n; rewrite ?Hsb; [done|by apply slot_nonnull|done|done| |].
  { rewrite Htype. by apply (tr_type _ _ _ Htree). }
  intros l' Hok'. apply wp_bind, wp_gets. cbn [fs_inode put_log put_inode put_inodes]. rewrite fset_eq.
  change (i_type (ilocked pid sb V n)) with (i_type (on_disk sb V (i_inum n) n)). rewrite Htype.
  rewrite Hes. cbn [descend]. fold (is_dir sb V cur).
  set (s2 := put_log l' (put_inode ip (ilocked pid sb V n) s)).
  assert (Hs2 : fs_inode s2 ip = ilocked pid sb V n) by (cbn; by rewrite fset_eq).
  assert (Ht2 : itab s2 (incr (ROOTDEV, cur) T)).
  { apply (itab_ext s); try done; intros j; cbn; (unfold fset; destruct (Z.eqb_spec j ip) as [->|]; done). }
  assert (Hc2 : forall i, slot i -> i <> ip -> entry_coh sb V (fs_inode s2 i)).
  { intros i Hi Hne. cbn. rewrite fset_ne by done. rewrite <- Hsb. by apply Hcoh. }
  destruct (is_dir sb V cur) eqn:Hdir; cbn [negb].
  2:{ apply wp_bind. eapply (iunlockput_node s2 ip n (i_ref n)); try done; [by rewrite Hin|].
      intros s' Hl' Hsb' Hcoh' Htab' _ _ _. apply wp_ret. split; [done|].
      rewrite Hkey, decr_incr in Htab' by apply Hpos. split; try done. by rewrite Hl'. }
  assert (Hbd : bool_decide (path_elems path' = []) = at_end path').
  { destruct (at_end path'); [apply bool_decide_eq_true|apply bool_decide_eq_false]; naive_solver. }
  rewrite Hbd. destruct (par && at_end path') eqn:Hstop.
  { apply andb_true_iff in Hstop as [-> _]. apply wp_bind.
    apply iunlock_spec; rewrite ?Hs2; try done; [by apply slot_nonnull|apply Hcn|]. apply wp_ret. split; [|done].
    assert (Hun2 : forall j, ikey (fset (fs_inode s2) ip (iunlocked (ilocked pid sb V n)) j) = ikey (fs_inode s j) /\
              i_ref (fset (fs_inode s2) ip (iunlocked (ilocked pid sb V n)) j) = i_ref (fs_inode s j)).
    { intros j. cbn. unfold fset. by destruct (Z.eqb_spec j ip) as [->|]. }
    split; cbn; try done.
    - intros j Hj. cbn. rewrite Hsb. unfold fset at 1. destruct (Z.eqb_spec j ip); [|by apply Hc2].
      by apply (unlocked_coh n (i_ref n)).
    - exact (eq_trans (proj1 (Hun2 ip)) Hkey).
    - by rewrite fset_eq.
    - apply (itab_ext s); try done; intros j; apply Hun2. }
  eapply (namex_lookup s ip n l' name' cur); try done.
  - intros ->. by cbn.
  - intros j ip' s' Hj Hat'. rewrite Hj. exists j. split_and!; try done.
    apply (tr_closed _ _ _ Htree cur (dname name')); [done|]. unfold dir_child. by rewrite Hdir.
Qed.

(** Where a path starts. *)
Definition start_of (cwd : Z) (path : list Z) : Z :=
  match path with c :: _ => if c =? SLASH then ROOTINO else cwd | [] => cwd end.

Lemma namex_start s path cwd (Q : Z -> fsys -> Prop) :
  at_none s -> Z.of_nat (size T) + 2 <= NINODE ->
  slot cwd -> 0 < i_ref (fs_inode s cwd) -> i_dev (fs_inode s cwd) = ROOTDEV ->
  (forall ip s', at_node (start_of (i_inum (fs_inode s cwd)) path) ip s' -> Q ip s') ->
  wp (match path with
      | c :: _ => if c =? SLASH then iget ROOTDEV ROOTINO else idup cwd
      | [] => idup cwd
      end) Q s.
Proof using Type.
  intros [Hok Hsb Hcoh Htab] Hroom Hslot Href Hdev HQ. set (n := fs_inode s cwd) in *.
  assert (Hdup : (forall ip s', at_node (i_inum n) ip s' -> Q ip s') -> wp (idup cwd) Q s).
  { intros HQ'. eapply (idup_spec s T); [done|done|done|]. fold n. intros Ht'. apply HQ'.
    assert (Hk : ikey n = (ROOTDEV, i_inum n)) by congruence. rewrite Hk in Ht'.
    split; try done; cbn; rewrite ?fset_eq; try done; [|cbn; lia].
    apply icoh_put; [done|]. apply entry_coh_ref; [by apply Hcoh|done]. }
  destruct path as [|c path]; [by apply Hdup|]. cbn [start_of] in HQ. destruct (c =? SLASH); [|by apply Hdup].
  eapply (iget_spec s T); [done|right; lia|]. intros ip n' Hip Hg Ht'. apply HQ.
  split; try done; cbn; rewrite ?fset_eq; [|by eapply igot_key|].
  - apply icoh_put; [done|]. eapply entry_coh_igot; [by apply Hcoh|exact Hg].
  - destruct Hg as [(Hr & _ & ->)|(_ & ->)]; cbn [i_ref set_i_ref set_i_id]; lia.
Qed.

Lemma namex_spec par s path name cwd :
  at_none s -> Z.of_nat (size T) + 2 <= NINODE ->
  slot cwd -> 0 < i_ref (fs_inode s cwd) -> i_dev (fs_inode s cwd) = ROOTDEV ->
  I (start_of (i_inum (fs_inode s cwd)) path) ->
  length name = Z.to_nat DIRSIZ -> Forall is_u8 path -> Forall is_u8 name ->
  wp (namex pid cwd path par name)
    (fun r s' => descended par (descend sb V par (start_of (i_inum (fs_inode s cwd)) path) (path_elems path)) r s') s.
Proof.
  intros Hnone Hroom Hslot Href Hdev Hst Hln Hup Hun. unfold namex. apply wp_bind.
  apply namex_start; try done. intros ip s1 Hat. set (st := start_of _ path) in *. apply wp_bind.
  apply (wp_loop (fun '(p, nm, ip) s' => exists cur, at_node cur ip s' /\ I cur /\ length nm = Z.to_nat DIRSIZ /\
            Forall is_u8 p /\ Forall is_u8 nm /\ descend sb V par cur (path_elems p) = descend sb V par st (path_elems path))
          (fun '(p, _, _) _ => length p)); [by exists st|lia|].
  intros [[p nm] jp] s2 (cur & Hat2 & Hcur & Hln2 & Hup2 & Hun2 & Hw).
  eapply wp_mono; [by apply (namex_step par s2 p nm jp cur)|]. cbn beta.
  intros [[[p' nm'] jp']|[r|[jp' nm']]] s3.
  - intros (cur' & Hat3 & Hcur3 & Hln3 & Hup3 & Hun3 & Hlt & Hw'). split; [|done]. exists cur'. split_and!; try done. congruence.
  - intros Hr. apply wp_ret. by rewrite <- Hw.
  - intros (Hnil & -> & ->). rewrite <- Hw, Hnil. cbn [descend]. destruct par; [|apply wp_ret; by split].
    apply wp_bind. eapply iput_node; [done|done|]. intros s' Hn. by apply wp_ret.
Qed.
End Namex.

(** C11. Path names are resolved in the tree of directories.  For a path whose
    elements are what lies between its slashes, each cut to DIRSIZ bytes,
    namei() returns a table entry of the inode the elements lead to, from the
    root for an absolute path and from the current directory otherwise, and
    NULL when an element is missing or what should be a directory is not one.
    nameiparent() returns the directory of the last element and copies that
    element to the buffer, and fails for a path without elements.  The caller
    gains one reference when an entry is returned and none otherwise; every
    lock taken on the way is free again, what is in memory agrees with the
    disk, and the disk is as it was. *)
Theorem path_resolution pid w V T s (I : Z -> Prop) cwd path :
  let sb := fs_sb s in let start := start_of (i_inum (fs_inode s cwd)) path in
  at_none pid w V sb T s -> tree_ok sb V I -> I start -> Z.of_nat (size T) + 2 <= NINODE ->
  slot cwd -> 0 < i_ref (fs_inode s cwd) -> i_dev (fs_inode s cwd) = ROOTDEV -> Forall is_u8 path ->
  wp (namei pid cwd path) (fun ip s' =>
    match resolve sb V start (path_elems path) with
    | Some i => at_node pid w V sb T i ip s'
    | None => ip = NULL /\ at_none pid w V sb T s'
    end) s /\
  forall name, length name = Z.to_nat DIRSIZ -> Forall is_u8 name ->
    wp (nameiparent pid cwd path name) (fun r s' =>
      match resolve_parent sb V start (path_elems path) with
      | Some (i, e) => at_node pid w V sb T i r.1 s' /\ dname r.2 = e
      | None => r.1 = NULL /\ at_none pid w V sb T s'
      end) s.
Proof.
  intros sb start Hn Htree Hst Hroom Hslot Href Hdev Hup.
  assert (Hpos : forall k c, T !! k = Some c -> 0 < c) by (eapply itab_pos, Hn). split.
  - unfold namei. apply wp_bind.
    eapply wp_mono; [by apply (namex_spec pid w V sb T I Htree Hpos false); [..|apply Forall_replicate]|].
    cbn beta. fold start. intros r s' Hr. apply wp_ret. rewrite descend_resolve in Hr.
    destruct (resolve sb V start (path_elems path)); cbn in Hr; naive_solver.
  - intros name Hln Hun. unfold nameiparent.
    eapply wp_mono; [by apply (namex_spec pid w V sb T I Htree Hpos true)|].
    cbn beta. fold start. intros r s' Hr. rewrite descend_parent in Hr.
    destruct (resolve_parent sb V start (path_elems path)) as [[i e]|]; cbn in Hr; naive_solver.
Qed.

Module PathDemo.
(** The root directory, inode 1, has the file [a], inode 2. *)
Definition root : inode := mkInode 1 1 1 no_sleeplock 1 T_DIR 0 0 1 32 (46 :: replicate 12 0).
Definition afile : inode := mkInode 1 2 0 no_sleeplock 0 T_FILE 0 0 1 0 (replicate 13 0).
Definition iblock : list Z := put_dinode afile (ioff 2) (put_dinode root (ioff 1) zeroblock).
Definition dirblock : list Z := splice 0 (put_dirent (mkDirent 2 (strncpy_name 14 [97; 0] 0))) zeroblock.
Definition V1 (b : Z) : list Z :=
  if b =? 32 then iblock else if b =? 46 then dirblock else AllocDemo.V0 b.
Definition log1 : lg :=
  mkLg false 2 31 1 0 0 (replicate 30 0) (mkBcache (mkDisk V1 []) ∅) [].
Definition s1 : fsys :=
  mkFsys log1 AllocDemo.sb0 false (fun i => if i =? 0 then root else AllocDemo.no_inode) []
    (mkKst (fun _ => 0) 0 false) [].
Definition T1 : refs := {[ (1, 1) := 1 ]}.
Definition I1 (i : Z) : Prop := i = 1 \/ i = 2.

Lemma log1_ok : fsok 1 ∅ 10 V1 log1.
Proof. split; try done. intros b Hb. unfold in_log in Hb. cbn in Hb. by apply elem_of_nil in Hb. Qed.

Lemma none1 : at_none 1 10 V1 AllocDemo.sb0 T1 s1.
Proof.
  split; [apply log1_ok|done| |].
  - intros i Hi. cbn. destruct (Z.eqb_spec i 0); [|done]. split; [done|]. intros _. right. split; [done|by vm_compute].
  - split; try done.
    + intros i Hi. cbn. by destruct (i =? 0).
    + intros i Hi. cbn. by destruct (i =? 0).
    + intros k c. unfold T1. intros [<- <-]%lookup_singleton_Some. by exists 0.
    + intros i j Hi Hj. cbn. destruct (Z.eqb_spec i 0), (Z.eqb_spec j 0); cbn; try lia; congruence.
Qed.

Lemma node1 : inode_at AllocDemo.sb0 V1 1 = mkInode 0 0 0 no_sleeplock 0 T_DIR 0 0 1 32 (46 :: replicate 12 0).
Proof. by vm_compute. Qed.
Lemma node2 : inode_at AllocDemo.sb0 V1 2 = mkInode 0 0 0 no_sleeplock 0 T_FILE 0 0 1 0 (replicate 13 0).
Proof. by vm_compute. Qed.

Lemma dir1 : dir_ok AllocDemo.sb0 V1 (inode_at AllocDemo.sb0 V1 1).
Proof.
  rewrite node1. set (n := mkInode _ _ _ _ _ _ _ _ _ _ _).
  assert (Hfa : forall x, 0 <= x -> faddr V1 n x = if x =? 0 then 46 else 0).
  { intros x Hx. exact (FileDemo.ino_faddr 1 46 x Hx). }
  assert (Hown : forall c, owns V1 n c -> c = 46).
  { intros c [Hc [->|(x & Hx & ->)]]; [done|]. rewrite Hfa in * by lia. by destruct (Z.eqb_spec x 0). }
  split; [split|done|done|]; try done.
  - intros c ->%Hown. split; [done|]. split; [by vm_compute|]. by intros ?%FileDemo.map_block.
  - by intros c ->%Hown.
  - intros x y Hx Hy. rewrite !Hfa by lia. destruct (Z.eqb_spec x 0), (Z.eqb_spec y 0); try done; lia.
  - intros x Hx Hs. rewrite Hfa by lia. cbn in Hs. unfold BSIZE in Hs. destruct (Z.eqb_spec x 0); lia.
  - intros i Hi. cbn in Hi. unfold fbyte. rewrite Z.div_small, Z.mod_small by (unfold BSIZE; lia). rewrite Hfa by lia.
    apply zget_u8. change (Forall is_u8 dirblock). apply Forall_splice; [|by apply Forall_replicate].
    by apply put_dirent_u8, strncpy_name_u8; repeat constructor.
Qed.

Lemma tree1 : tree_ok AllocDemo.sb0 V1 I1.
Proof.
  split.
  - intros i [->| ->]; [by rewrite node1|by rewrite node2].
  - intros i [->| ->]; [by rewrite node1|by rewrite node2].
  - intros i [->| ->] Ht; [apply dir1|by rewrite node2 in Ht].
  - intros i e j [->| ->]; unfold dir_child, is_dir; [|by rewrite node2].
    rewrite node1. cbn [i_type Z.eqb T_DIR Pos.eqb]. unfold dir_map.
    replace (dents _ _) with [Some ([97], 2); None] by (by vm_compute).
    unfold entries_map. cbn [omap list_omap id list_to_map foldr fst snd]. intros [_ <-]%lookup_singleton_Some. by right.
Qed.
End PathDemo.

Lemma path_resolution_witness :
  (wp (namei 1 0 [47; 97; 0]) (fun ip s' => at_node 1 10 PathDemo.V1 AllocDemo.sb0 PathDemo.T1 2 ip s') PathDemo.s1 /\
   forall name, length name = Z.to_nat DIRSIZ -> Forall is_u8 name ->
     wp (nameiparent 1 0 [47; 97; 0] name) (fun r s' =>
       at_node 1 10 PathDemo.V1 AllocDemo.sb0 PathDemo.T1 1 r.1 s' /\ dname r.2 = [97]) PathDemo.s1).
Proof.
  assert (H1 : resolve AllocDemo.sb0 PathDemo.V1 1 (path_elems [47; 97; 0]) = Some 2) by (by vm_compute).
  assert (H2 : resolve_parent AllocDemo.sb0 PathDemo.V1 1 (path_elems [47; 97; 0]) = Some (1, [97])) by (by vm_compute).
  assert (H3 : Z.of_nat (size PathDemo.T1) + 2 <= NINODE) by (by vm_compute).
  assert (H4 : Forall is_u8 [47; 97; 0]) by (by repeat constructor).
  pose proof (path_resolution 1 10 PathDemo.V1 PathDemo.T1 PathDemo.s1 PathDemo.I1 0 [47; 97; 0] PathDemo.none1
    PathDemo.tree1 (or_introl eq_refl) H3 (conj (Z.le_refl 0) eq_refl) eq_refl eq_refl H4) as Hp.
  change (start_of _ [47; 97; 0]) with 1 in Hp. change (fs_sb PathDemo.s1) with AllocDemo.sb0 in Hp.
  cbv zeta in Hp. rewrite H1, H2 in Hp. exact Hp.
Defined.
