(* ===== verification/Pipe.v ===== *)
(** Pipes: kernel/pipe.c (pipewrite(), piperead(), pipeclose()).

    A pipe is a ring of PIPESIZE bytes with 32-bit counters of the bytes read
    and written, which wrap around.  A process that has to wait gives up the
    pipe's lock in sleep() and goes on where it was when it is woken, so the two
    operations are modelled as runs: a run starts by taking the lock, at first
    or when sleep() returns, and ends by returning or by going to sleep. *)

From S2P Require Import Prelude Ring Riscv CString Kalloc Vm.

Definition PIPESIZE : Z := 512.

Record pipe : Type := mkPipe {
  pi_lock : bool;
  pi_data : list Z;
  pi_nread : Z;       (** number of bytes read *)
  pi_nwrite : Z;      (** number of bytes written *)
  pi_readopen : Z;    (** read fd is still open *)
  pi_writeopen : Z;   (** write fd is still open *)
}.

(** A pipe with the memory its users copy from and to, and the channels passed
    to wakeup(), the latest first. *)
Record pst : Type := mkPst {
  ps_pipe : pipe;
  ps_vm : kst;
  ps_woken : list Z;
}.

(** The channels &pi->nread and &pi->nwrite. *)
Definition NREAD : Z := 1.
Definition NWRITE : Z := 2.

Definition set_pipe (p : pipe) (s : pst) : pst := mkPst p (ps_vm s) (ps_woken s).
Definition pipe_lock : lens pst bool :=
  mkLens (fun s => pi_lock (ps_pipe s))
         (fun b s => set_pipe (mkPipe b (pi_data (ps_pipe s)) (pi_nread (ps_pipe s)) (pi_nwrite (ps_pipe s))
                                 (pi_readopen (ps_pipe s)) (pi_writeopen (ps_pipe s))) s).
Definition pipe_vm : lens pst kst := mkLens ps_vm (fun v s => mkPst (ps_pipe s) v (ps_woken s)).
Definition pipe_wakeup (c : Z) : M pst unit :=
  modify (fun s => mkPst (ps_pipe s) (ps_vm s) (c :: ps_woken s)).
Definition set_open (r w : Z) (p : pipe) : pipe :=
  mkPipe (pi_lock p) (pi_data p) (pi_nread p) (pi_nwrite p) r w.

(** pi->data[pi->nwrite++ % PIPESIZE] = ch *)
Definition pipe_put (ch : Z) (p : pipe) : pipe :=
  mkPipe (pi_lock p) (zset (pi_nwrite p mod PIPESIZE) ch (pi_data p)) (pi_nread p)
    (u32 (pi_nwrite p + 1)) (pi_readopen p) (pi_writeopen p).

(** ch = pi->data[pi->nread++ % PIPESIZE] *)
Definition pipe_get (p : pipe) : Z * pipe :=
  (zget (pi_data p) (pi_nread p mod PIPESIZE),
   mkPipe (pi_lock p) (pi_data p) (u32 (pi_nread p + 1)) (pi_nwrite p) (pi_readopen p) (pi_writeopen p)).

(** How a run ends: asleep on a channel with [i] bytes done, or with a result.
    With it come the characters that went through the pipe in the run. *)
Inductive pres : Type :=
| PSleep (chan i : Z)
| PRet (r : Z).

#[export] Instance pres_eq_dec : EqDecision pres.
Proof. solve_decision. Defined.

Section Pipe.
Context (pagetable : Z).

(** [killed i] is what killed(pr) answers when [i] bytes are done. *)
Definition pipewrite (addr n i : Z) (killed : Z -> bool) : M pst (pres * list Z) :=
  acquire pipe_lock ;;;
  let! r := loop (S (Z.to_nat (n - i)))
    (fun '(i, chs) =>
       if i <? n then
         let! p := gets ps_pipe in
         if (pi_readopen p =? 0) || killed i then
           release pipe_lock ;;;
           ret (inr (PRet (-1), chs))
         else if pi_nwrite p =? u32 (pi_nread p + PIPESIZE) then
           pipe_wakeup NREAD ;;;
           release pipe_lock ;;;           (* sleep(&pi->nwrite, &pi->lock) *)
           ret (inr (PSleep NWRITE i, chs))
         else
           let! c := zoom pipe_vm (copyin pagetable (u64 (addr + i)) 1) in
           if c.1 =? -1 then
             pipe_wakeup NREAD ;;;
             release pipe_lock ;;;
             ret (inr (PRet i, chs))
           else
             modify (fun s => set_pipe (pipe_put (zget c.2 0) (ps_pipe s)) s) ;;;
             ret (inl (i + 1, chs ++ [zget c.2 0]))
       else
         pipe_wakeup NREAD ;;;
         release pipe_lock ;;;
         ret (inr (PRet i, chs)))
    (i, []) in
  ret r.

Definition piperead (addr n : Z) (killed : bool) : M pst (pres * list Z) :=
  acquire pipe_lock ;;;
  let! p := gets ps_pipe in
  if (pi_nread p =? pi_nwrite p) && negb (pi_writeopen p =? 0) then
    if killed then
      release pipe_lock ;;;
      ret (PRet (-1), [])
    else
      release pipe_lock ;;;               (* sleep(&pi->nread, &pi->lock) *)
      ret (PSleep NREAD 0, [])
  else
    let! r := loop (S (Z.to_nat n))
      (fun '(i, chs) =>
         if i <? n then
           let! p := gets ps_pipe in
           if pi_nread p =? pi_nwrite p then ret (inr (i, chs))
           else
             let '(ch, p') := pipe_get p in
             modify (set_pipe p') ;;;
             let! c := zoom pipe_vm (copyout pagetable (u64 (addr + i)) [ch]) in
             if c =? -1 then ret (inr (i, chs ++ [ch]))
             else ret (inl (i + 1, chs ++ [ch]))
         else ret (inr (i, chs)))
      (0, []) in
    pipe_wakeup NWRITE ;;;
    release pipe_lock ;;;
    ret (PRet r.1, r.2).
End Pipe.

(** Whether the caller has to kfree() the pipe. *)
Definition pipeclose (writable : bool) : M pst bool :=
  acquire pipe_lock ;;;
  (if writable then
     modify (fun s => set_pipe (set_open (pi_readopen (ps_pipe s)) 0 (ps_pipe s)) s) ;;;
     pipe_wakeup NREAD
   else
     modify (fun s => set_pipe (set_open 0 (pi_writeopen (ps_pipe s)) (ps_pipe s)) s) ;;;
     pipe_wakeup NWRITE) ;;;
  let! p := gets ps_pipe in
  release pipe_lock ;;;
  ret ((pi_readopen p =? 0) && (pi_writeopen p =? 0)).

(** * The bytes in a pipe *)

Definition fill (p : pipe) : Z := rfill (2 ^ 32) (pi_nread p) (pi_nwrite p).
Definition contents (p : pipe) : list Z :=
  rcont PIPESIZE (2 ^ 32) (pi_data p) (pi_nread p) (pi_nwrite p).

Record pipe_ok (p : pipe) : Prop := {
  po_len : length (pi_data p) = Z.to_nat PIPESIZE;
  po_nread : is_u32 (pi_nread p);
  po_nwrite : is_u32 (pi_nwrite p);
  po_fill : fill p <= PIPESIZE;
}.

Lemma PIPESIZE_divides : (PIPESIZE | 2 ^ 32).
Proof. by exists (2 ^ 23). Qed.
#[local] Hint Resolve PIPESIZE_divides : core.
Lemma PIPESIZE_range : 0 < PIPESIZE <= 2 ^ 32.
Proof. done. Qed.
#[local] Hint Resolve PIPESIZE_range : core.

Lemma fill_range p : 0 <= fill p < 2 ^ 32.
Proof. by apply (rfill_range PIPESIZE). Qed.

Lemma length_contents p : length (contents p) = Z.to_nat (fill p).
Proof. apply length_rcont. Qed.

Lemma empty_fill p : pipe_ok p -> (pi_nread p = pi_nwrite p <-> fill p = 0).
Proof. intros [_ Hr Hw _]. by apply (rfill_empty PIPESIZE). Qed.

Lemma full_fill p : pipe_ok p -> (pi_nwrite p = u32 (pi_nread p + PIPESIZE) <-> fill p = PIPESIZE).
Proof. intros [_ Hr Hw _]. by apply rfill_full. Qed.

(** Putting a byte into a pipe that is not full. *)
Lemma put_contents ch p :
  pipe_ok p -> fill p < PIPESIZE ->
  pipe_ok (pipe_put ch p) /\ contents (pipe_put ch p) = contents p ++ [ch].
Proof.
  intros [Hl Hr Hw _] Hf. assert (Hf' : fill p < 2 ^ 32 - 1) by (unfold PIPESIZE in Hf; lia). split.
  - split; cbn; [by rewrite length_zset|done|apply u32_range|]. unfold fill, pipe_put, u32. cbn [pi_nread pi_nwrite].
    rewrite (rfill_put PIPESIZE) by done. change (fill p + 1 <= PIPESIZE). lia.
  - by apply rcont_put.
Qed.

(** Getting one from a pipe that is not empty. *)
Lemma get_contents p :
  pipe_ok p -> fill p <> 0 ->
  pipe_ok (pipe_get p).2 /\ contents p = (pipe_get p).1 :: contents (pipe_get p).2.
Proof.
  intros [Hl Hr Hw Hf] Hne. split.
  - split; [done|apply u32_range|done|]. unfold fill, pipe_get, u32. cbn [pi_nread pi_nwrite snd].
    rewrite (rfill_get PIPESIZE) by done.
    change (fill p - 1 <= PIPESIZE). lia.
  - by apply rcont_get.
Qed.

(** * Copying one byte is total *)

Lemma walkaddr_pure pt va s : exists pa, walkaddr pt va s = Ok pa s.
Proof.
  unfold walkaddr. destruct (va >=? MAXVA) eqn:E; [by eexists|].
  unfold walk. rewrite E. unfold bind, ret, ld64, gets. cbn [walk_loop].
  unfold bind, ret, ld64, gets. cbn [negb].
  repeat match goal with
  | |- context [match (if ?b then _ else _) _ with _ => _ end] => destruct b
  end; cbn; repeat case_match; try (by eexists).
Qed.

Lemma copyin1 pt va s :
  exists c bs, copyin pt va 1 s = Ok (c, bs) s /\ (c = 0 /\ length bs = 1%nat \/ c = -1).
Proof.
  unfold copyin. cbn [Z.to_nat Pos.to_nat Pos.iter_op loop]. unfold bind. cbn [Z.ltb Z.compare].
  destruct (walkaddr_pure pt (PGROUNDDOWN va) s) as [pa Hpa]. rewrite Hpa.
  destruct (pa =? 0); [by eexists _, _; split; [done|right]|].
  assert (Hn : (if PGSIZE - (va - PGROUNDDOWN va) >? 1 then 1 else PGSIZE - (va - PGROUNDDOWN va)) = 1).
  { destruct (PGROUNDDOWN_bounds va) as [Hb _]. destruct (Z.gtb_spec (PGSIZE - (va - PGROUNDDOWN va)) 1); lia. }
  rewrite Hn. cbn. eexists _, _. split; [done|]. by left.
Qed.

Lemma copyout1 pt va ch s :
  exists c s', copyout pt va [ch] s = Ok c s' /\ (c = 0 \/ c = -1).
Proof.
  unfold copyout. cbn [length loop]. unfold bind.
  change (0 <? Z.of_nat 1) with true. cbn iota.
  destruct (walkaddr_pure pt (PGROUNDDOWN va) s) as [pa Hpa]. rewrite Hpa.
  destruct (pa =? 0); [by eexists _, _; split; [done|right]|].
  assert (Hn : (if PGSIZE - (va - PGROUNDDOWN va) >? Z.of_nat 1 then Z.of_nat 1
                else PGSIZE - (va - PGROUNDDOWN va)) = 1).
  { destruct (PGROUNDDOWN_bounds va) as [Hb _].
    destruct (Z.gtb_spec (PGSIZE - (va - PGROUNDDOWN va)) (Z.of_nat 1)); lia. }
  rewrite Hn. cbn. eexists _, _. split; [done|]. by left.
Qed.

(** * Runs *)

(** A run from [p] to [p'] that appended [ins] and removed [outs]. *)
Record moved (p : pipe) (ins outs : list Z) (p' : pipe) : Prop := {
  mv_ok : pipe_ok p';
  mv_lock : pi_lock p' = false;
  mv_open : pi_readopen p' = pi_readopen p /\ pi_writeopen p' = pi_writeopen p;
  mv_bytes : contents p ++ ins = outs ++ contents p';
}.

Definition copyin_fails (pt va : Z) (vm : kst) : Prop := exists bs, copyin pt va 1 vm = Ok (-1, bs) vm.

(** Ways a run of pipewrite() ends. *)
Definition write_end (pt addr n : Z) (killed : Z -> bool) (p' : pipe) (vm : kst) (i : Z) (r : pres) : Prop :=
  match r with
  | PSleep c j => c = NWRITE /\ j = i /\ i < n /\ fill p' = PIPESIZE /\ pi_readopen p' <> 0
  | PRet j => (j = -1 /\ i < n /\ (pi_readopen p' = 0 \/ killed i = true)) \/
              (j = i /\ (n <= i \/ copyin_fails pt (u64 (addr + i)) vm))
  end.

Lemma pipewrite_run pt addr n i killed p vm w :
  pipe_ok p -> pi_lock p = false -> 0 <= i ->
  wp (pipewrite pt addr n i killed) (fun r s' =>
    let j := i + Z.of_nat (length r.2) in
    moved p r.2 [] (ps_pipe s') /\ ps_vm s' = vm /\
    write_end pt addr n killed (ps_pipe s') vm j r.1 /\
    ps_woken s' = (if decide (r.1 = PRet (-1)) then w else NREAD :: w)) (mkPst p vm w).
Proof.
  intros Hok Hlk Hi0. unfold pipewrite. apply wp_bind, wp_acquire; [done|]. apply wp_bind.
  eapply (wp_loop (fun '(j, chs) s1 => exists p1, s1 = mkPst p1 vm w /\ pi_lock p1 = true /\ pipe_ok p1 /\
            pi_readopen p1 = pi_readopen p /\ pi_writeopen p1 = pi_writeopen p /\
            contents p1 = contents p ++ chs /\ j = i + Z.of_nat (length chs))
          (fun '(j, _) _ => Z.to_nat (n - j))).
  - eexists. split; [done|]. split_and!; try done; [by destruct Hok|by rewrite app_nil_r|cbn; lia].
  - lia.
  - intros [j chs] s1 (p1 & -> & Hl1 & Hok1 & Hr1 & Hw1 & Hc1 & Hj).
    (* every exit releases the lock and leaves the bytes *)
    assert (Hmv : moved p chs [] (mkPipe false (pi_data p1) (pi_nread p1) (pi_nwrite p1)
                                    (pi_readopen p1) (pi_writeopen p1))).
    { split; [by destruct Hok1|done|done|by symmetry]. }
    destruct (Z.ltb_spec j n) as [Hlt|Hge].
    2:{ apply wp_bind, wp_modify, wp_bind, wp_release; [done|]. apply wp_ret, wp_ret. cbn [fst snd].
        rewrite <- Hj. split_and!; [done|done|right; by split; [|left]|]. by rewrite decide_False by (intros [=]; lia). }
    apply wp_bind, wp_gets. cbn [ps_pipe].
    destruct ((pi_readopen p1 =? 0) || killed j) eqn:Ek.
    { apply wp_bind, wp_release; [done|]. apply wp_ret, wp_ret. cbn [fst snd]. rewrite <- Hj.
      split_and!; [done|done| |by rewrite decide_True]. left. split; [done|]. split; [done|].
      apply orb_true_iff in Ek as [Ek%Z.eqb_eq|Ek]; [by left|by right]. }
    apply orb_false_iff in Ek as [Ek%Z.eqb_neq Ek'].
    destruct (Z.eqb_spec (pi_nwrite p1) (u32 (pi_nread p1 + PIPESIZE))) as [Hfull|Hnf].
    { apply wp_bind, wp_modify, wp_bind, wp_release; [done|]. apply wp_ret, wp_ret. cbn [fst snd]. rewrite <- Hj.
      split_and!; [done|done| |by rewrite decide_False]. split_and!; try done.
      change (fill p1 = PIPESIZE). by apply full_fill. }
    apply wp_bind, wp_zoom. cbn [lget pipe_vm ps_vm].
    destruct (copyin1 pt (u64 (addr + j)) vm) as (c & bs & Hcp & Hc). unfold wp at 1. rewrite Hcp. cbn [fst snd].
    destruct Hc as [[-> Hbs]| ->]; cbn [Z.eqb].
    + apply wp_bind, wp_modify, wp_ret. cbn [set_pipe ps_pipe lset pipe_vm ps_vm ps_woken].
      assert (Hf : fill p1 < PIPESIZE).
      { pose proof (po_fill _ Hok1). rewrite full_fill in Hnf by done. lia. }
      destruct (put_contents (zget bs 0) p1 Hok1 Hf) as [Hok2 Hc2].
      split; [|lia]. eexists. split; [done|]. split_and!; try done.
      * by rewrite Hc2, Hc1, app_assoc.
      * rewrite length_app. cbn. lia.
    + apply wp_bind, wp_modify, wp_bind, wp_release; [done|]. apply wp_ret, wp_ret. cbn [fst snd]. rewrite <- Hj.
      split_and!; [done|done|right; split; [done|right; by exists bs]|].
      by rewrite decide_False by (intros [=]; lia).
Qed.

(** Ways a run of piperead() ends, after the characters [chs]. *)
Definition read_end (n : Z) (killed : bool) (p p' : pipe) (chs : list Z) (r : pres) : Prop :=
  match r with
  | PSleep c j => c = NREAD /\ j = 0 /\ chs = [] /\ p' = p /\ fill p = 0 /\ pi_writeopen p <> 0 /\ killed = false
  | PRet j => (j = -1 /\ chs = [] /\ p' = p /\ fill p = 0 /\ pi_writeopen p <> 0 /\ killed = true) \/
              (j = Z.of_nat (length chs) /\ (n <= j \/ fill p' = 0)) \/
              (0 <= j < n /\ Z.of_nat (length chs) = j + 1)
  end.

Lemma piperead_run pt addr n killed p vm w :
  pipe_ok p -> pi_lock p = false ->
  wp (piperead pt addr n killed) (fun r s' =>
    moved p [] r.2 (ps_pipe s') /\ read_end n killed p (ps_pipe s') r.2 r.1 /\
    ps_woken s' = (if decide (fill p = 0 /\ pi_writeopen p <> 0) then w else NWRITE :: w)) (mkPst p vm w).
Proof.
  intros Hok Hlk. unfold piperead. apply wp_bind, wp_acquire; [done|]. apply wp_bind, wp_gets.
  cbn [ps_pipe lset pipe_lock set_pipe pi_nread pi_nwrite pi_writeopen].
  assert (Hback : mkPipe false (pi_data p) (pi_nread p) (pi_nwrite p) (pi_readopen p) (pi_writeopen p) = p)
    by (destruct p; cbn in *; by subst).
  assert (Hself : moved p [] [] p) by (split; [done|done|done|by rewrite app_nil_r]).
  destruct ((pi_nread p =? pi_nwrite p) && negb (pi_writeopen p =? 0)) eqn:E.
  - apply andb_true_iff in E as [E1%Z.eqb_eq E2%negb_true_iff%Z.eqb_neq].
    apply empty_fill in E1; [|done].
    destruct killed; (apply wp_bind, wp_release; [done|]; apply wp_ret; cbn [lset pipe_lock set_pipe ps_pipe ps_vm
      ps_woken pi_data pi_nread pi_nwrite pi_readopen pi_writeopen]; rewrite Hback; cbn [fst snd ps_pipe ps_woken]; split_and!; [done| |by rewrite decide_True]).
    + left. done.
    + done.
  - assert (Hne : ~ (fill p = 0 /\ pi_writeopen p <> 0)).
    { intros [Hf Hw]. apply empty_fill in Hf; [|done]. apply andb_false_iff in E.
      rewrite Z.eqb_neq, negb_false_iff, Z.eqb_eq in E. by destruct E. }
    apply wp_bind.
    eapply (wp_loop (fun '(j, chs) s1 => exists p1 vm1, s1 = mkPst p1 vm1 w /\ pi_lock p1 = true /\ pipe_ok p1 /\
              pi_readopen p1 = pi_readopen p /\ pi_writeopen p1 = pi_writeopen p /\
              contents p = chs ++ contents p1 /\ j = Z.of_nat (length chs))
            (fun '(j, _) _ => Z.to_nat (n - j))).
    + eexists _, vm. split; [done|]. split_and!; try done. by destruct Hok.
    + lia.
    + intros [j chs] s1 (p1 & vm1 & -> & Hl1 & Hok1 & Hr1 & Hw1 & Hc1 & Hj).
      (* leaving the loop *)
      assert (Hexit : forall k cs p2 vm2, pi_lock p2 = true -> pipe_ok p2 ->
                pi_readopen p2 = pi_readopen p -> pi_writeopen p2 = pi_writeopen p ->
                contents p = cs ++ contents p2 ->
                (k = Z.of_nat (length cs) /\ (n <= k \/ fill p2 = 0)) \/ (0 <= k < n /\ Z.of_nat (length cs) = k + 1) ->
                wp (pipe_wakeup NWRITE ;;; release pipe_lock ;;; ret (PRet k, cs)) (fun r s' =>
                  moved p [] r.2 (ps_pipe s') /\ read_end n killed p (ps_pipe s') r.2 r.1 /\
                  ps_woken s' = (if decide (fill p = 0 /\ pi_writeopen p <> 0) then w else NWRITE :: w))
                  (mkPst p2 vm2 w)).
      { intros k cs p2 vm2 Hl2 Hok2 Hr2 Hw2 Hc2 He. apply wp_bind, wp_modify, wp_bind, wp_release; [done|].
        apply wp_ret. cbn [fst snd]. rewrite decide_False by done. split_and!; [|by right|done].
        split; [by destruct Hok2|done|done|by rewrite app_nil_r]. }
      destruct (Z.ltb_spec j n) as [Hlt|Hge]; [|apply wp_ret; apply Hexit; try done; left; by split; [|left]].
      apply wp_bind, wp_gets. cbn [ps_pipe].
      destruct (Z.eqb_spec (pi_nread p1) (pi_nwrite p1)) as [Hem|Hne1].
      { apply wp_ret. apply Hexit; try done. left. split; [done|right]. by apply empty_fill. }
      destruct (get_contents p1 Hok1) as [Hok2 Hc2]; [by rewrite <- empty_fill|].
      destruct (pipe_get p1) as [ch p2] eqn:Eg. cbn [fst snd] in *.
      assert (Hp2 : pi_lock p2 = true /\ pi_readopen p2 = pi_readopen p /\ pi_writeopen p2 = pi_writeopen p).
      { unfold pipe_get in Eg. injection Eg as _ <-. done. }
      destruct Hp2 as (Hl2 & Hr2 & Hw2).
      assert (Hcat : contents p = (chs ++ [ch]) ++ contents p2) by (by rewrite Hc1, Hc2, <- app_assoc).
      apply wp_bind, wp_modify, wp_bind, wp_zoom. cbn [lget pipe_vm ps_vm set_pipe].
      destruct (copyout1 pt (u64 (addr + j)) ch vm1) as (c & vm2 & Hcp & Hc). unfold wp at 1. rewrite Hcp.
      destruct Hc as [-> | ->]; cbn [Z.eqb].
      * apply wp_ret. split; [|lia]. exists p2, vm2. split; [done|]. split_and!; try done.
        rewrite length_app. cbn. lia.
      * apply wp_ret. apply Hexit; try done. right. split; [cbn [fst]; lia|]. cbn [snd fst]. rewrite length_app. cbn. lia.
Qed.

Lemma pipeclose_run writable p vm w :
  pipe_ok p -> pi_lock p = false ->
  wp (pipeclose writable) (fun r s' =>
    pipe_ok (ps_pipe s') /\ pi_lock (ps_pipe s') = false /\ contents (ps_pipe s') = contents p /\
    ps_vm s' = vm /\ ps_woken s' = (if writable then NREAD else NWRITE) :: w /\
    pi_writeopen (ps_pipe s') = (if writable then 0 else pi_writeopen p) /\
    pi_readopen (ps_pipe s') = (if writable then pi_readopen p else 0)) (mkPst p vm w).
Proof.
  intros [Hl Hr Hw Hf] Hlk. unfold pipeclose. apply wp_bind, wp_acquire; [done|]. apply wp_bind.
  destruct writable; apply wp_bind, wp_modify, wp_modify, wp_bind, wp_gets, wp_bind, wp_release; try done;
    apply wp_ret; split_and!; try done; by split.
Qed.

(** * All users of a pipe *)

(** One run of some process, or a change of memory; with the state go all the
    characters taken from writers and given to readers so far. *)
Inductive pipe_step : pst * list Z * list Z -> pst * list Z * list Z -> Prop :=
| st_write pt addr n i killed r chs s s' ins outs :
    0 <= i -> pipewrite pt addr n i killed s = Ok (r, chs) s' ->
    pipe_step (s, ins, outs) (s', ins ++ chs, outs)
| st_read pt addr n killed r chs s s' ins outs :
    piperead pt addr n killed s = Ok (r, chs) s' ->
    pipe_step (s, ins, outs) (s', ins, outs ++ chs)
| st_close writable b s s' ins outs :
    pipeclose writable s = Ok b s' -> pipe_step (s, ins, outs) (s', ins, outs)
| st_mem vm s ins outs :
    pipe_step (s, ins, outs) (mkPst (ps_pipe s) vm (ps_woken s), ins, outs).

Definition pipe_inv (c : pst * list Z * list Z) : Prop :=
  let '(s, ins, outs) := c in
  pipe_ok (ps_pipe s) /\ pi_lock (ps_pipe s) = false /\ ins = outs ++ contents (ps_pipe s).

Lemma pipe_step_inv c c' : pipe_step c c' -> pipe_inv c -> pipe_inv c'.
Proof.
  intros [pt addr n i killed r chs s s' ins outs Hi H|pt addr n killed r chs s s' ins outs H
         |writable b s s' ins outs H|vm s ins outs] (Hok & Hlk & Hin); destruct s as [p vm0 w]; cbn in *.
  - pose proof (pipewrite_run pt addr n i killed p vm0 w Hok Hlk Hi) as Hwp. unfold wp in Hwp. rewrite H in Hwp.
    destruct Hwp as ([Mok Mlk _ Mb] & _). cbn in Mb. split_and!; [done|done|]. by rewrite Hin, <- Mb, app_assoc.
  - pose proof (piperead_run pt addr n killed p vm0 w Hok Hlk) as Hwp. unfold wp in Hwp. rewrite H in Hwp.
    destruct Hwp as ([Mok Mlk _ Mb] & _). cbn in Mb. split_and!; [done|done|].
    by rewrite Hin, <- app_assoc, <- Mb, app_nil_r.
  - pose proof (pipeclose_run writable p vm0 w Hok Hlk) as Hwp. unfold wp in Hwp. rewrite H in Hwp.
    destruct Hwp as (Mok & Mlk & Mc & _). split_and!; [done|done|]. by rewrite Mc.
  - done.
Qed.

(** The pipe pipealloc() makes, whatever was in the page. *)
Definition new_pipe (data : list Z) : pipe := mkPipe false data 0 0 1 1.

Lemma pipe_reach data vm c :
  length data = Z.to_nat PIPESIZE -> rtc pipe_step (mkPst (new_pipe data) vm [], [], []) c -> pipe_inv c.
Proof.
  intros Hl Hr. assert (Hgen : forall c0, rtc pipe_step c0 c -> pipe_inv c0 -> pipe_inv c).
  { induction 1 as [|? ? ? Hst _ IH]; [done|]. intros HI. by apply IH, (pipe_step_inv _ _ Hst). }
  apply (Hgen _ Hr). by split_and!.
Qed.

(** C21. A pipe is a bounded FIFO queue.  Whatever processes write to, read from
    and close a new pipe, in whatever order their runs interleave, and also
    when the 32-bit counters wrap around: the characters given to readers are,
    in order, a prefix of the characters taken from writers; those in between
    are the pipe's contents, at most PIPESIZE of them; and every further run
    ends, without a panic. *)
Theorem pipe_fifo data vm s ins outs :
  length data = Z.to_nat PIPESIZE ->
  rtc pipe_step (mkPst (new_pipe data) vm [], [], []) (s, ins, outs) ->
  ins = outs ++ contents (ps_pipe s) /\ Z.of_nat (length (contents (ps_pipe s))) <= PIPESIZE /\
  (forall pt addr n i killed, 0 <= i -> wp (pipewrite pt addr n i killed) (fun _ _ => True) s) /\
  (forall pt addr n killed, wp (piperead pt addr n killed) (fun _ _ => True) s) /\
  (forall writable, wp (pipeclose writable) (fun _ _ => True) s).
Proof.
  intros Hl Hr. destruct (pipe_reach _ _ _ Hl Hr) as (Hok & Hlk & Hin). destruct s as [p vm1 w]. cbn in *.
  split_and!.
  - done.
  - rewrite length_contents. pose proof (fill_range p). pose proof (po_fill _ Hok). lia.
  - intros. eapply wp_mono; [by apply pipewrite_run|done].
  - intros. eapply wp_mono; [by apply piperead_run|done].
  - intros. eapply wp_mono; [by apply pipeclose_run|done].
Qed.

(** The value and the state a run ends with. *)
Module PipeDemo.
(** A process with one page of memory, at virtual address 0, that starts with
    the bytes 7 and 8. *)
Definition mem0 : mem :=
  mupd (mupd (store64 (store64 (store64 (fun _ => 0)
    0x80001000 (Z.lor (PA2PTE 0x80002000) PTE_V))
    0x80002000 (Z.lor (PA2PTE 0x80003000) PTE_V))
    0x80003000 (Z.lor (PA2PTE 0x80004000) (Z.lor PTE_V (Z.lor PTE_R (Z.lor PTE_W PTE_U)))))
    0x80004000 7) 0x80004001 8.
Definition vm0 : kst := mkKst mem0 0 false.
Definition data0 : list Z := replicate 512 0.
Definition s0 : pst := mkPst (new_pipe data0) vm0 [].
Definition run1 : res pst (pres * list Z) := pipewrite 0x80001000 0 2 0 (fun _ => false) s0.
Definition s1 : pst := run_st s0 run1.
Lemma run1_eq : run1 = Ok (PRet 2, [7; 8]) s1.
Proof. apply run_eq. vm_compute. reflexivity. Qed.

(** Killed after the first byte. *)
Definition run2 : res pst (pres * list Z) := pipewrite 0x80001000 0 2 0 (fun i => i =? 1) s0.
Definition s2 : pst := run_st s0 run2.
End PipeDemo.

Lemma pipe_fifo_witness :
  let s := PipeDemo.s1 in
  [7; 8] = [] ++ contents (ps_pipe s) /\ Z.of_nat (length (contents (ps_pipe s))) <= PIPESIZE /\
  (forall pt addr n i killed, 0 <= i -> wp (pipewrite pt addr n i killed) (fun _ _ => True) s) /\
  (forall pt addr n killed, wp (piperead pt addr n killed) (fun _ _ => True) s) /\
  (forall writable, wp (pipeclose writable) (fun _ _ => True) s).
Proof.
  apply (pipe_fifo PipeDemo.data0 PipeDemo.vm0 PipeDemo.s1 [7; 8] []); [reflexivity|].
  apply rtc_once. apply (st_write 0x80001000 0 2 0 (fun _ => false) (PRet 2) [7; 8]); [lia|].
  exact PipeDemo.run1_eq.
Defined.

Lemma pipewrite_closed pt addr n i killed p vm w :
  pi_lock p = false -> pi_readopen p = 0 -> i < n ->
  wp (pipewrite pt addr n i killed) (fun r _ => r = (PRet (-1), [])) (mkPst p vm w).
Proof.
  intros Hlk Hro Hi. unfold pipewrite. apply wp_bind, wp_acquire; [done|]. apply wp_bind. cbn [loop].
  apply wp_bind. destruct (Z.ltb_spec i n); [|lia]. apply wp_bind, wp_gets.
  cbn [ps_pipe lset pipe_lock set_pipe pi_readopen]. rewrite Hro. cbn [Z.eqb orb].
  apply wp_bind, wp_release; [done|]. by apply wp_ret, wp_ret, wp_ret.
Qed.



(** A writer that is killed part way returns without waking the readers:
    from an empty pipe the run leaves a character in it, and the readers that
    sleep for one are not woken. *)
Theorem pipe_killed_no_wakeup :
  let p := new_pipe PipeDemo.data0 in
  contents p = [] /\
  exists s, pipewrite 0x80001000 0 2 0 (fun i => i =? 1) (mkPst p PipeDemo.vm0 []) = Ok (PRet (-1), [7]) s /\
    contents (ps_pipe s) = [7] /\ ps_woken s = [].
Proof.
  split; [reflexivity|]. exists PipeDemo.s2. split; [|by vm_compute].
  apply (run_eq PipeDemo.s0). vm_compute. reflexivity.
Qed.
