(* ===== verification/File.v ===== *)
(** Open files: kernel/file.c, kernel/file.h, and pipealloc() of
    kernel/pipe.c.

    The file table, the pipes and the file system with its memory.  A pipe is
    named by the address of the page kalloc() gave it.  The device switch is a
    table of functions filled in at run time: a parameter.  A process that goes
    to sleep in a pipe blocks here; [Pipe] says how it goes on. *)

From S2P Require Import Prelude Riscv CString Kalloc Vm Sleeplock Fields BlockCache Log Fs Pipe.

Inductive ftype : Type := FD_NONE | FD_PIPE | FD_INODE | FD_DEVICE.

#[export] Instance ftype_eq_dec : EqDecision ftype.
Proof. solve_decision. Defined.

Record file : Type := mkFile {
  f_type : ftype;
  f_ref : Z;            (** reference count *)
  f_readable : Z;
  f_writable : Z;
  f_pipe : Z;           (** FD_PIPE *)
  f_ip : Z;             (** FD_INODE and FD_DEVICE *)
  f_off : Z;            (** FD_INODE *)
  f_major : Z;          (** FD_DEVICE *)
}.

Record ftab : Type := mkFtab {
  ft_lock : bool;             (** ftable.lock *)
  ft_file : Z -> file;        (** ftable.file *)
  ft_pipe : Z -> pipe;        (** struct pipe, by address *)
  ft_fs : fsys;
  ft_woken : list Z;
}.

Definition set_f_ref (v : Z) (f : file) : file :=
  mkFile (f_type f) v (f_readable f) (f_writable f) (f_pipe f) (f_ip f) (f_off f) (f_major f).
Definition set_f_type (t : ftype) (f : file) : file :=
  mkFile t (f_ref f) (f_readable f) (f_writable f) (f_pipe f) (f_ip f) (f_off f) (f_major f).
Definition set_f_off (v : Z) (f : file) : file :=
  mkFile (f_type f) (f_ref f) (f_readable f) (f_writable f) (f_pipe f) (f_ip f) v (f_major f).
Definition set_f_rw (r w : Z) (f : file) : file :=
  mkFile (f_type f) (f_ref f) r w (f_pipe f) (f_ip f) (f_off f) (f_major f).
Definition set_f_pipe (pi : Z) (f : file) : file :=
  mkFile (f_type f) (f_ref f) (f_readable f) (f_writable f) pi (f_ip f) (f_off f) (f_major f).
Definition set_f_ip (ip : Z) (f : file) : file :=
  mkFile (f_type f) (f_ref f) (f_readable f) (f_writable f) (f_pipe f) ip (f_off f) (f_major f).
Definition set_f_major (m : Z) (f : file) : file :=
  mkFile (f_type f) (f_ref f) (f_readable f) (f_writable f) (f_pipe f) (f_ip f) (f_off f) m.

Definition ftable_lock : lens ftab bool :=
  mkLens ft_lock (fun b s => mkFtab b (ft_file s) (ft_pipe s) (ft_fs s) (ft_woken s)).
Definition put_files (f : Z -> file) (s : ftab) : ftab :=
  mkFtab (ft_lock s) f (ft_pipe s) (ft_fs s) (ft_woken s).
Definition ft_fsL : lens ftab fsys :=
  mkLens ft_fs (fun v s => mkFtab (ft_lock s) (ft_file s) (ft_pipe s) v (ft_woken s)).
Definition fget {A} (g : file -> A) (f : Z) : M ftab A := gets (fun s => g (ft_file s f)).
Definition fput (f : Z) (g : file -> file) : M ftab unit :=
  modify (fun s => put_files (fset (ft_file s) f (g (ft_file s f))) s).

(** Memory, and a pipe with memory; the channels &pi->nread and &pi->nwrite. *)
Definition ft_vm : lens ftab kst :=
  mkLens (fun s => fs_vm (ft_fs s)) (fun v s => lset ft_fsL (lset fvm v (ft_fs s)) s).
Definition ft_pst (pi : Z) : lens ftab pst :=
  mkLens (fun s => mkPst (ft_pipe s pi) (fs_vm (ft_fs s)) [])
         (fun p s => mkFtab (ft_lock s) (ft_file s) (fset (ft_pipe s) pi (ps_pipe p))
                       (lset fvm (ps_vm p) (ft_fs s)) (map (Z.add pi) (ps_woken p) ++ ft_woken s)).

(** struct stat as bytes; [pad] is what the padding holds. *)
Definition sizeof_stat : Z := 24.
Definition stat_bytes (st : stat) (pad : list Z) : list Z :=
  let d := splice 12 pad (replicate (Z.to_nat sizeof_stat) 0) in
  let d := put32 0 (u32 (st_dev st)) d in
  let d := put32 4 (st_ino st) d in
  let d := put16 8 (u16 (st_type st)) d in
  let d := put16 10 (u16 (st_nlink st)) d in
  put_le 8 16 (st_size st) d.

(** struct devsw: a function or NULL. *)
Record devops (S : Type) : Type := mkDevops {
  dev_read : option (Z -> Z -> M S Z);     (** address and count *)
  dev_write : option (Z -> Z -> M S Z);
}.
Arguments mkDevops {S} dev_read dev_write.
Arguments dev_read {S} d.
Arguments dev_write {S} d.

Section File.
Context `{Image}.
Context (devsw : Z -> devops ftab).
Context (pid pagetable : Z) (killed : bool).

Definition fileinit : M ftab unit := modify (lset ftable_lock false).

(** A free entry, or [NULL]. *)
Definition filealloc : M ftab Z :=
  acquire ftable_lock ;;;
  let! tab := gets ft_file in
  match scan (fun f => f_ref (tab f) =? 0) (Z.to_nat NFILE) 0 with
  | Some f =>
      fput f (set_f_ref 1) ;;;
      release ftable_lock ;;;
      ret f
  | None =>
      release ftable_lock ;;;
      ret NULL
  end.

Definition filedup (f : Z) : M ftab Z :=
  acquire ftable_lock ;;;
  let! ref := fget f_ref f in
  if ref <? 1 then panic "filedup"
  else
    fput f (set_f_ref (ref + 1)) ;;;
    release ftable_lock ;;;
    ret f.

(** pipeclose(), which frees the page when both ends are closed. *)
Definition pipeclose_ (pi : Z) (writable : bool) : M ftab unit :=
  let! last := zoom (ft_pst pi) (pipeclose writable) in
  if last : bool then zoom ft_vm (kfree pi) else ret tt.

Definition fileclose (f : Z) : M ftab unit :=
  acquire ftable_lock ;;;
  let! ff := fget id f in
  if f_ref ff <? 1 then panic "fileclose"
  else
    fput f (set_f_ref (f_ref ff - 1)) ;;;
    if f_ref ff - 1 >? 0 then release ftable_lock
    else
      fput f (fun x => set_f_type FD_NONE (set_f_ref 0 x)) ;;;
      release ftable_lock ;;;
      match f_type ff with
      | FD_PIPE => pipeclose_ (f_pipe ff) (negb (f_writable ff =? 0))
      | FD_INODE | FD_DEVICE =>
          zoom ft_fsL (zoom fsl begin_op ;;; iput pid (f_ip ff) ;;; zoom fsl (end_op pid))
      | FD_NONE => ret tt
      end.

Definition filestat (f addr : Z) (pad : list Z) : M ftab Z :=
  let! ff := fget id f in
  match f_type ff with
  | FD_INODE | FD_DEVICE =>
      let! st := zoom ft_fsL (ilock pid (f_ip ff) ;;;
                              let! st := stati (f_ip ff) in
                              iunlock pid (f_ip ff) ;;;
                              ret st) in
      let! r := zoom ft_vm (copyout pagetable addr (stat_bytes st pad)) in
      ret (if r <? 0 then -1 else 0)
  | _ => ret (-1)
  end.

(** A run of a pipe operation; sleep() blocks. *)
Definition pipe_result (r : pres * list Z) (pi : Z) : M ftab Z :=
  match r.1 with
  | PRet v => ret v
  | PSleep c _ => block (pi + c)
  end.

Definition fileread (f addr n : Z) : M ftab Z :=
  let! ff := fget id f in
  if f_readable ff =? 0 then ret (-1)
  else
    match f_type ff with
    | FD_PIPE =>
        let! r := zoom (ft_pst (f_pipe ff)) (piperead pagetable addr n killed) in
        pipe_result r (f_pipe ff)
    | FD_DEVICE =>
        if (f_major ff <? 0) || (f_major ff >=? NDEV) then ret (-1)
        else match dev_read (devsw (f_major ff)) with
             | None => ret (-1)
             | Some rd => rd addr n
             end
    | FD_INODE =>
        zoom ft_fsL (ilock pid (f_ip ff)) ;;;
        let! off := fget f_off f in
        let! r := zoom ft_fsL (readi pid pagetable (f_ip ff) true addr off n) in
        (if r >? 0 then fput f (set_f_off (u32 (off + r))) else ret tt) ;;;
        zoom ft_fsL (iunlock pid (f_ip ff)) ;;;
        ret r
    | FD_NONE => panic "fileread"
    end.

(** The bytes filewrite() passes to one writei(). *)
Definition write_max : Z := ((MAXOPBLOCKS - 1 - 1 - 2) / 2) * BSIZE.

Definition filewrite (f addr n : Z) : M ftab Z :=
  let! ff := fget id f in
  if f_writable ff =? 0 then ret (-1)
  else
    match f_type ff with
    | FD_PIPE =>
        let! r := zoom (ft_pst (f_pipe ff)) (pipewrite pagetable addr n 0 (fun _ => killed)) in
        pipe_result r (f_pipe ff)
    | FD_DEVICE =>
        if (f_major ff <? 0) || (f_major ff >=? NDEV) then ret (-1)
        else match dev_write (devsw (f_major ff)) with
             | None => ret (-1)
             | Some wr => wr addr n
             end
    | FD_INODE =>
        (* write a few blocks at a time to avoid exceeding the maximum log
           transaction size *)
        let! i := loop (S (Z.to_nat n))
          (fun i =>
             if i <? n then
               let n1 := if n - i >? write_max then write_max else n - i in
               zoom ft_fsL (zoom fsl begin_op ;;; ilock pid (f_ip ff)) ;;;
               let! off := fget f_off f in
               let! r := zoom ft_fsL (writei pid pagetable (f_ip ff) true (u64 (addr + i)) off n1) in
               (if r >? 0 then fput f (set_f_off (u32 (off + r))) else ret tt) ;;;
               zoom ft_fsL (iunlock pid (f_ip ff) ;;; zoom fsl (end_op pid)) ;;;
               if negb (r =? n1) then ret (inr i)      (* error from writei *)
               else ret (inl (i + r))
             else ret (inr i))
          0 in
        ret (if i =? n then n else -1)
    | FD_NONE => panic "filewrite"
    end.

(** ** pipealloc() *)

(** The two ends, or None. *)
Definition pipealloc : M ftab (option (Z * Z)) :=
  let bad (pi f0 f1 : Z) : M ftab (option (Z * Z)) :=
    (if negb (pi =? 0) then zoom ft_vm (kfree pi) else ret tt) ;;;
    (if negb (f0 =? NULL) then fileclose f0 else ret tt) ;;;
    (if negb (f1 =? NULL) then fileclose f1 else ret tt) ;;;
    ret None in
  let! f0 := filealloc in
  if f0 =? NULL then bad 0 f0 NULL
  else
    let! f1 := filealloc in
    if f1 =? NULL then bad 0 f0 f1
    else
      let! pi := zoom ft_vm kalloc in
      if pi =? 0 then bad pi f0 f1
      else
        (* the data of the new pipe is what is in the page *)
        modify (fun s => mkFtab (ft_lock s) (ft_file s)
          (fset (ft_pipe s) pi (new_pipe (read_bytes (Z.to_nat PIPESIZE) (pi + 24) (k_mem (fs_vm (ft_fs s))))))
          (ft_fs s) (ft_woken s)) ;;;
        fput f0 (fun x => set_f_pipe pi (set_f_rw 1 0 (set_f_type FD_PIPE x))) ;;;
        fput f1 (fun x => set_f_pipe pi (set_f_rw 0 1 (set_f_type FD_PIPE x))) ;;;
        ret (Some (f0, f1)).
End File.
