(* ===== verification/FileProps.v ===== *)
(** Reference counts of open files. *)

From S2P Require Import Prelude Riscv CString Kalloc Vm Sleeplock Fields BlockCache Log Fs FsAlloc Pipe File.

Section Refs.
Context `{Image}.

(** The calls that create and drop references.  A configuration is the state
    and the references processes hold, one list entry for each. *)
Inductive file_step : ftab * list Z -> ftab * list Z -> Prop :=
| fst_alloc f s s' hs :
    filealloc s = Ok f s' -> f <> NULL -> file_step (s, hs) (s', f :: hs)
| fst_alloc_none s s' hs :
    filealloc s = Ok NULL s' -> file_step (s, hs) (s', hs)
| fst_dup f s s' hs :
    f ∈ hs -> filedup f s = Ok f s' -> file_step (s, hs) (s', f :: hs)
| fst_close pid f s s' hs hs1 hs2 :
    hs = hs1 ++ f :: hs2 -> fileclose pid f s = Ok tt s' -> file_step (s, hs) (s', hs1 ++ hs2)
| fst_use g s hs :
    (forall x, ft_lock (g x) = ft_lock x) ->
    (forall x f, f_ref (ft_file (g x) f) = f_ref (ft_file x f)) -> file_step (s, hs) (g s, hs).

Definition count (f : Z) (hs : list Z) : Z := Z.of_nat (length (filter (eq f) hs)).

Lemma count_cons f g hs : count f (g :: hs) = (if decide (f = g) then 1 else 0) + count f hs.
Proof.
  unfold count. destruct (decide (f = g)) as [->|Hne].
  - rewrite filter_cons_True by done. simpl. lia.
  - rewrite filter_cons_False by done. lia.
Qed.

Lemma count_app f hs hs' : count f (hs ++ hs') = count f hs + count f hs'.
Proof. unfold count. rewrite filter_app, length_app. lia. Qed.

Lemma count_elem f hs : f ∈ hs <-> 0 < count f hs.
Proof.
  induction hs as [|g hs IH].
  - split; [by intros ?%elem_of_nil|]. unfold count. simpl. lia.
  - rewrite count_cons, elem_of_cons. assert (0 <= count f hs) by (unfold count; lia).
    destruct (decide (f = g)); [split; [lia|by left]|]. rewrite IH. split; [|by right]. intros [|]; [done|lia].
Qed.

Record file_inv (s : ftab) (hs : list Z) : Prop := {
  fi_lock : ft_lock s = false;
  fi_range : forall f, f ∈ hs -> 0 <= f < NFILE;
  fi_ref : forall f, 0 <= f < NFILE -> f_ref (ft_file s f) = count f hs;
}.

(** Parts of the state the file table does not share. *)
Lemma zoom_fs_files {A} (m : M fsys A) s a s' :
  zoom ft_fsL m s = Ok a s' -> ft_file s' = ft_file s /\ ft_lock s' = ft_lock s.
Proof. unfold zoom. destruct (m _); intros [= <- <-]; done. Qed.
Lemma zoom_vm_files {A} (m : M kst A) s a s' :
  zoom ft_vm m s = Ok a s' -> ft_file s' = ft_file s /\ ft_lock s' = ft_lock s.
Proof. unfold zoom. destruct (m _); intros [= <- <-]; done. Qed.
Lemma zoom_pst_files {A} pi (m : M pst A) s a s' :
  zoom (ft_pst pi) m s = Ok a s' -> ft_file s' = ft_file s /\ ft_lock s' = ft_lock s.
Proof. unfold zoom. destruct (m _); intros [= <- <-]; done. Qed.

Lemma pipeclose_files pi w s a s' :
  pipeclose_ pi w s = Ok a s' -> ft_file s' = ft_file s /\ ft_lock s' = ft_lock s.
Proof.
  unfold pipeclose_, bind. destruct (zoom (ft_pst pi) _ s) as [b s1| | |] eqn:E; try done.
  apply zoom_pst_files in E as [E1 E2]. destruct b.
  - intros [E3 E4]%zoom_vm_files. by rewrite E3, E4.
  - intros [= <- <-]. done.
Qed.

(** filealloc(): the first entry without references. *)
Lemma filealloc_eq s :
  ft_lock s = false ->
  match scan (fun f => f_ref (ft_file s f) =? 0) (Z.to_nat NFILE) 0 with
  | Some f => exists s', filealloc s = Ok f s' /\ ft_lock s' = false /\
      ft_file s' = fset (ft_file s) f (set_f_ref 1 (ft_file s f))
  | None => filealloc s = Ok NULL s
  end.
Proof.
  intros Hl. unfold filealloc, bind, acquire, gets, modify, release. cbn. rewrite Hl. cbn.
  destruct (scan _ _ _) as [f|].
  - eexists. split; [done|]. done.
  - cbn. destruct s; cbn in *. by subst.
Qed.

Lemma filedup_eq f s :
  ft_lock s = false -> 1 <= f_ref (ft_file s f) ->
  exists s', filedup f s = Ok f s' /\ ft_lock s' = false /\
    ft_file s' = fset (ft_file s) f (set_f_ref (f_ref (ft_file s f) + 1) (ft_file s f)).
Proof.
  intros Hl Hr. unfold filedup, bind, acquire, gets, modify, release, fget. cbn. rewrite Hl. cbn.
  destruct (Z.ltb_spec (f_ref (ft_file s f)) 1); [lia|]. cbn. eexists. split; [done|]. done.
Qed.

(** fileclose() of a reference that is not the last. *)
Lemma fileclose_more pid f s :
  ft_lock s = false -> 1 < f_ref (ft_file s f) ->
  exists s', fileclose pid f s = Ok tt s' /\ ft_lock s' = false /\ ft_fs s' = ft_fs s /\ ft_pipe s' = ft_pipe s /\
    ft_file s' = fset (ft_file s) f (set_f_ref (f_ref (ft_file s f) - 1) (ft_file s f)).
Proof.
  intros Hl Hr. unfold fileclose, bind, acquire, gets, modify, release, fget, fput. cbn. rewrite Hl. cbn.
  destruct (Z.ltb_spec (f_ref (ft_file s f)) 1); [lia|]. cbn.
  destruct (Z.gtb_spec (f_ref (ft_file s f) - 1) 0); [|lia]. cbn. eexists. split; [done|]. done.
Qed.

(** fileclose() of the last reference, if it returns. *)
Lemma fileclose_last pid f s s' :
  ft_lock s = false -> f_ref (ft_file s f) = 1 -> fileclose pid f s = Ok tt s' ->
  ft_lock s' = false /\
  ft_file s' = fset (ft_file s) f (set_f_type FD_NONE (set_f_ref 0 (ft_file s f))).
Proof.
  intros Hl Hr. unfold fileclose, bind, acquire, gets, modify, release, fget, fput. cbn. rewrite Hl. cbn.
  rewrite Hr. cbn. destruct (f_type (ft_file s f)).
  - intros [= <-]. cbn. by rewrite fset_eq, fset_fset.
  - intros [E1 E2]%pipeclose_files. rewrite E1, E2. cbn. by rewrite fset_eq, fset_fset.
  - intros [E1 E2]%zoom_fs_files. rewrite E1, E2. cbn. by rewrite fset_eq, fset_fset.
  - intros [E1 E2]%zoom_fs_files. rewrite E1, E2. cbn. by rewrite fset_eq, fset_fset.
Qed.

Lemma ref_fset (tab : Z -> file) f x r :
  f_ref x = r -> forall g, f_ref (fset tab f x g) = if decide (g = f) then r else f_ref (tab g).
Proof.
  intros <- g. destruct (decide (g = f)) as [->|]; [by rewrite fset_eq|by rewrite fset_ne].
Qed.

Lemma file_step_inv s hs s' hs' : file_step (s, hs) (s', hs') -> file_inv s hs -> file_inv s' hs'.
Proof.
  intros Hst [Hl Hrg Hrf]. inversion Hst as [f ? ? ? He Hne|? ? ? He|f ? ? ? Hf He|pid f ? ? ? h1 h2 Hh He|g ? ? Hg1 Hg2]; subst.
  - pose proof (filealloc_eq s Hl) as Ha.
    pose proof (scan_spec (fun f => f_ref (ft_file s f) =? 0) (Z.to_nat NFILE) 0) as Hs.
    destruct (scan _ _ _) as [f'|]; [|congruence]. destruct Ha as (s1 & Ha & Hl1 & Hf1).
    rewrite He in Ha. injection Ha as <- <-. destruct Hs as (Hf & Hz%Z.eqb_eq & _).
    assert (Hfr : 0 <= f < NFILE) by lia.
    split; [done| |].
    + intros g [->|Hg]%elem_of_cons; [done|by apply Hrg].
    + intros g Hg. rewrite Hf1, (ref_fset _ _ _ 1) by done. rewrite count_cons.
      destruct (decide (g = f)) as [->|]; [rewrite <- Hrf by done; lia|by apply Hrf].
  - pose proof (filealloc_eq s Hl) as Ha. destruct (scan _ _ _) as [f'|] eqn:Esc; [|rewrite He in Ha; injection Ha as ->; by split].
    destruct Ha as (s1 & Ha & _). rewrite He in Ha. injection Ha as <- <-.
    pose proof (scan_spec (fun f => f_ref (ft_file s f) =? 0) (Z.to_nat NFILE) 0) as Hs. rewrite Esc in Hs.
    unfold NULL in Hs. lia.
  - pose proof (Hrg f Hf) as Hfr. apply count_elem in Hf. rewrite <- Hrf in Hf by done.
    destruct (filedup_eq f s Hl ltac:(lia)) as (s1 & He1 & Hl1 & Hf1). rewrite He in He1. injection He1 as <-.
    split; [done| |].
    + intros g [->|Hg]%elem_of_cons; [done|by apply Hrg].
    + intros g Hg. rewrite Hf1, (ref_fset _ _ _ (f_ref (ft_file s f) + 1)) by done. rewrite count_cons.
      destruct (decide (g = f)) as [->|]; [rewrite <- Hrf by done; lia|by apply Hrf].
  - assert (Hfr : 0 <= f < NFILE) by (apply Hrg; set_solver).
    assert (Hc : f_ref (ft_file s f) = count f h1 + 1 + count f h2).
    { rewrite Hrf by done. rewrite count_app, count_cons, decide_True by done. lia. }
    assert (Hge : 0 <= count f h1 /\ 0 <= count f h2) by (unfold count; lia).
    assert (Hcnt : forall g, count g (h1 ++ f :: h2) = (if decide (g = f) then 1 else 0) + count g (h1 ++ h2)).
    { intros g. rewrite !count_app, count_cons. lia. }
    assert (Hres : ft_lock s' = false /\ forall g, f_ref (ft_file s' g) =
              if decide (g = f) then f_ref (ft_file s f) - 1 else f_ref (ft_file s g)).
    { destruct (decide (f_ref (ft_file s f) = 1)) as [H1|H1].
      - destruct (fileclose_last _ _ _ _ Hl H1 He) as [E1 E2]. split; [done|]. intros g. rewrite E2.
        rewrite (ref_fset _ _ _ 0) by done. destruct (decide (g = f)); [lia|done].
      - destruct (fileclose_more pid f s Hl ltac:(lia)) as (s1 & E0 & E1 & _ & _ & E2).
        rewrite He in E0. injection E0 as <-. split; [done|]. intros g. rewrite E2.
        by apply ref_fset. }
    destruct Hres as [Hl' Hf']. split; [done| |].
    + intros g Hg. apply Hrg. set_solver.
    + intros g Hg. rewrite Hf'. specialize (Hrf g Hg). rewrite Hcnt in Hrf.
      destruct (decide (g = f)) as [->|]; lia.
  - split; [by rewrite Hg1|done|]. intros f Hf. rewrite Hg2. by apply Hrf.
Qed.

End Refs.

Module FileTabDemo.
#[local] Existing Instance demo_image.
Definition no_file : file := mkFile FD_NONE 0 0 0 0 0 0 0.
Definition s0 : ftab := mkFtab false (fun _ => no_file) (fun _ => new_pipe []) AllocDemo.s0 [].
Definition s1 : ftab := run_st s0 (filealloc s0).
Definition s2 : ftab := run_st s1 (filedup 0 s1).
Lemma s0_inv : file_inv s0 [].
Proof. split; [done|by intros f ?%elem_of_nil|done]. Qed.
Lemma file_run : rtc file_step (s0, []) (s2, [0; 0]).
Proof.
  eapply rtc_l; [apply (fst_alloc 0 s0 s1); [by apply run_eq; vm_compute|done]|].
  apply rtc_once. apply (fst_dup 0 s1 s2 [0]); [by left|]. by apply run_eq; vm_compute.
Qed.
End FileTabDemo.

