(* ===== verification/Proc.v ===== *)
(** Processes: kernel/proc.c and kernel/proc.h.

    The kernel state: the process table, what each CPU runs, and under it the
    open files with the file system and memory ([File]).  A process is named by
    its index in proc[], [NULL] is the null pointer.  Locks are flags, as in
    the other components; the depth of push_off() nesting of each CPU is kept,
    since sched() checks it.

    swtch() leaves the code of one thread for that of another.  The thread of
    a process stops at the swtch() of sched(): its run ends in [Block], with
    p->lock held, as scheduler() expects; the code after the swtch() is an
    operation of its own ([sleep_resume], [yield_resume], [forkret]).  In
    scheduler() the run of the chosen process is an argument. *)

From S2P Require Import Prelude Riscv CString Kalloc Vm Sleeplock Fields BlockCache Log Fs Pipe File.

(** struct context: registers saved by swtch(). *)
Record context : Type := mkContext {
  ctx_ra : Z;
  ctx_sp : Z;
  ctx_s : list Z;         (** s0 to s11 *)
}.

(** struct trapframe: 64-bit fields, in this order. *)
Inductive tfield : Type :=
| kernel_satp | kernel_sp | kernel_trap | epc | kernel_hartid
| ra | sp | gp | tp | t0 | t1 | t2 | s0 | s1
| a0 | a1 | a2 | a3 | a4 | a5 | a6 | a7
| s2 | s3 | s4 | s5 | s6 | s7 | s8 | s9 | s10 | s11
| t3 | t4 | t5 | t6.

Definition tf_off (f : tfield) : Z :=
  match f with
  | kernel_satp => 0 | kernel_sp => 8 | kernel_trap => 16 | epc => 24 | kernel_hartid => 32
  | ra => 40 | sp => 48 | gp => 56 | tp => 64 | t0 => 72 | t1 => 80 | t2 => 88 | s0 => 96
  | s1 => 104 | a0 => 112 | a1 => 120 | a2 => 128 | a3 => 136 | a4 => 144 | a5 => 152
  | a6 => 160 | a7 => 168 | s2 => 176 | s3 => 184 | s4 => 192 | s5 => 200 | s6 => 208
  | s7 => 216 | s8 => 224 | s9 => 232 | s10 => 240 | s11 => 248 | t3 => 256 | t4 => 264
  | t5 => 272 | t6 => 280
  end.
Definition sizeof_trapframe : Z := 288.

Inductive procstate : Type := UNUSED | USED | SLEEPING | RUNNABLE | RUNNING | ZOMBIE.

#[export] Instance procstate_eq_dec : EqDecision procstate.
Proof. solve_decision. Defined.

Record proc : Type := mkProc {
  p_lock : bool;
  p_state : procstate;
  p_chan : Z;   (** if non-zero, sleeping on chan *)
  p_killed : Z;
  p_xstate : Z;   (** exit status, for the parent's wait() *)
  p_pid : Z;
  p_parent : Z;
  p_kstack : Z;
  p_sz : Z;
  p_pagetable : Z;
  p_trapframe : Z;
  p_context : context;
  p_ofile : list Z;
  p_cwd : Z;
  p_name : list Z;
}.

Definition set_p_lock (v : bool) (p : proc) : proc :=
  mkProc v (p_state p) (p_chan p) (p_killed p) (p_xstate p) (p_pid p) (p_parent p)
    (p_kstack p) (p_sz p) (p_pagetable p) (p_trapframe p) (p_context p) (p_ofile p) (p_cwd p) (p_name p).
Definition set_p_state (v : procstate) (p : proc) : proc :=
  mkProc (p_lock p) v (p_chan p) (p_killed p) (p_xstate p) (p_pid p) (p_parent p) (p_kstack p)
    (p_sz p) (p_pagetable p) (p_trapframe p) (p_context p) (p_ofile p) (p_cwd p) (p_name p).
Definition set_p_chan (v : Z) (p : proc) : proc :=
  mkProc (p_lock p) (p_state p) v (p_killed p) (p_xstate p) (p_pid p) (p_parent p)
    (p_kstack p) (p_sz p) (p_pagetable p) (p_trapframe p) (p_context p) (p_ofile p) (p_cwd p) (p_name p).
Definition set_p_killed (v : Z) (p : proc) : proc :=
  mkProc (p_lock p) (p_state p) (p_chan p) v (p_xstate p) (p_pid p) (p_parent p) (p_kstack p)
    (p_sz p) (p_pagetable p) (p_trapframe p) (p_context p) (p_ofile p) (p_cwd p) (p_name p).
Definition set_p_xstate (v : Z) (p : proc) : proc :=
  mkProc (p_lock p) (p_state p) (p_chan p) (p_killed p) v (p_pid p) (p_parent p) (p_kstack p)
    (p_sz p) (p_pagetable p) (p_trapframe p) (p_context p) (p_ofile p) (p_cwd p) (p_name p).
Definition set_p_pid (v : Z) (p : proc) : proc :=
  mkProc (p_lock p) (p_state p) (p_chan p) (p_killed p) (p_xstate p) v (p_parent p)
    (p_kstack p) (p_sz p) (p_pagetable p) (p_trapframe p) (p_context p) (p_ofile p) (p_cwd p) (p_name p).
Definition set_p_parent (v : Z) (p : proc) : proc :=
  mkProc (p_lock p) (p_state p) (p_chan p) (p_killed p) (p_xstate p) (p_pid p) v (p_kstack p)
    (p_sz p) (p_pagetable p) (p_trapframe p) (p_context p) (p_ofile p) (p_cwd p) (p_name p).
Definition set_p_kstack (v : Z) (p : proc) : proc :=
  mkProc (p_lock p) (p_state p) (p_chan p) (p_killed p) (p_xstate p) (p_pid p) (p_parent p) v
    (p_sz p) (p_pagetable p) (p_trapframe p) (p_context p) (p_ofile p) (p_cwd p) (p_name p).
Definition set_p_sz (v : Z) (p : proc) : proc :=
  mkProc (p_lock p) (p_state p) (p_chan p) (p_killed p) (p_xstate p) (p_pid p) (p_parent p)
    (p_kstack p) v (p_pagetable p) (p_trapframe p) (p_context p) (p_ofile p) (p_cwd p) (p_name p).
Definition set_p_pagetable (v : Z) (p : proc) : proc :=
  mkProc (p_lock p) (p_state p) (p_chan p) (p_killed p) (p_xstate p) (p_pid p) (p_parent p)
    (p_kstack p) (p_sz p) v (p_trapframe p) (p_context p) (p_ofile p) (p_cwd p) (p_name p).
Definition set_p_trapframe (v : Z) (p : proc) : proc :=
  mkProc (p_lock p) (p_state p) (p_chan p) (p_killed p) (p_xstate p) (p_pid p) (p_parent p)
    (p_kstack p) (p_sz p) (p_pagetable p) v (p_context p) (p_ofile p) (p_cwd p) (p_name p).
Definition set_p_context (v : context) (p : proc) : proc :=
  mkProc (p_lock p) (p_state p) (p_chan p) (p_killed p) (p_xstate p) (p_pid p) (p_parent p)
    (p_kstack p) (p_sz p) (p_pagetable p) (p_trapframe p) v (p_ofile p) (p_cwd p) (p_name p).
Definition set_p_ofile (v : list Z) (p : proc) : proc :=
  mkProc (p_lock p) (p_state p) (p_chan p) (p_killed p) (p_xstate p) (p_pid p) (p_parent p)
    (p_kstack p) (p_sz p) (p_pagetable p) (p_trapframe p) (p_context p) v (p_cwd p) (p_name p).
Definition set_p_cwd (v : Z) (p : proc) : proc :=
  mkProc (p_lock p) (p_state p) (p_chan p) (p_killed p) (p_xstate p) (p_pid p) (p_parent p)
    (p_kstack p) (p_sz p) (p_pagetable p) (p_trapframe p) (p_context p) (p_ofile p) v (p_name p).
Definition set_p_name (v : list Z) (p : proc) : proc :=
  mkProc (p_lock p) (p_state p) (p_chan p) (p_killed p) (p_xstate p) (p_pid p) (p_parent p)
    (p_kstack p) (p_sz p) (p_pagetable p) (p_trapframe p) (p_context p) (p_ofile p) (p_cwd p) v.

Record kern : Type := mkKern {
  kn_ft : ftab;
  kn_proc : Z -> proc;
  kn_nextpid : Z;
  kn_pidlock : bool;
  kn_waitlock : bool;
  kn_initproc : Z;
  kn_cpu : Z -> Z;        (** cpus[i].proc *)
  kn_noff : Z -> Z;        (** cpus[i].noff *)
  kn_first : Z;        (** the static of forkret() *)
  kn_tickslock : bool;
  kn_ticks : Z;        (** kernel/trap.c *)
}.

Definition put_ft (v : ftab) (s : kern) : kern :=
  mkKern v (kn_proc s) (kn_nextpid s) (kn_pidlock s) (kn_waitlock s) (kn_initproc s)
    (kn_cpu s) (kn_noff s) (kn_first s) (kn_tickslock s) (kn_ticks s).
Definition put_procs (v : Z -> proc) (s : kern) : kern :=
  mkKern (kn_ft s) v (kn_nextpid s) (kn_pidlock s) (kn_waitlock s) (kn_initproc s) (kn_cpu s)
    (kn_noff s) (kn_first s) (kn_tickslock s) (kn_ticks s).
Definition put_nextpid (v : Z) (s : kern) : kern :=
  mkKern (kn_ft s) (kn_proc s) v (kn_pidlock s) (kn_waitlock s) (kn_initproc s) (kn_cpu s)
    (kn_noff s) (kn_first s) (kn_tickslock s) (kn_ticks s).
Definition put_pidlock (v : bool) (s : kern) : kern :=
  mkKern (kn_ft s) (kn_proc s) (kn_nextpid s) v (kn_waitlock s) (kn_initproc s) (kn_cpu s)
    (kn_noff s) (kn_first s) (kn_tickslock s) (kn_ticks s).
Definition put_waitlock (v : bool) (s : kern) : kern :=
  mkKern (kn_ft s) (kn_proc s) (kn_nextpid s) (kn_pidlock s) v (kn_initproc s) (kn_cpu s)
    (kn_noff s) (kn_first s) (kn_tickslock s) (kn_ticks s).
Definition put_initproc (v : Z) (s : kern) : kern :=
  mkKern (kn_ft s) (kn_proc s) (kn_nextpid s) (kn_pidlock s) (kn_waitlock s) v (kn_cpu s)
    (kn_noff s) (kn_first s) (kn_tickslock s) (kn_ticks s).
Definition put_cpu (v : Z -> Z) (s : kern) : kern :=
  mkKern (kn_ft s) (kn_proc s) (kn_nextpid s) (kn_pidlock s) (kn_waitlock s) (kn_initproc s) v
    (kn_noff s) (kn_first s) (kn_tickslock s) (kn_ticks s).
Definition put_noff (v : Z -> Z) (s : kern) : kern :=
  mkKern (kn_ft s) (kn_proc s) (kn_nextpid s) (kn_pidlock s) (kn_waitlock s) (kn_initproc s)
    (kn_cpu s) v (kn_first s) (kn_tickslock s) (kn_ticks s).
Definition put_first (v : Z) (s : kern) : kern :=
  mkKern (kn_ft s) (kn_proc s) (kn_nextpid s) (kn_pidlock s) (kn_waitlock s) (kn_initproc s)
    (kn_cpu s) (kn_noff s) v (kn_tickslock s) (kn_ticks s).
Definition put_tickslock (v : bool) (s : kern) : kern :=
  mkKern (kn_ft s) (kn_proc s) (kn_nextpid s) (kn_pidlock s) (kn_waitlock s) (kn_initproc s)
    (kn_cpu s) (kn_noff s) (kn_first s) v (kn_ticks s).
Definition put_ticks (v : Z) (s : kern) : kern :=
  mkKern (kn_ft s) (kn_proc s) (kn_nextpid s) (kn_pidlock s) (kn_waitlock s) (kn_initproc s)
    (kn_cpu s) (kn_noff s) (kn_first s) (kn_tickslock s) v.

Definition kft : lens kern ftab := mkLens kn_ft put_ft.
Definition kvm : lens kern kst :=
  mkLens (fun s => lget ft_vm (kn_ft s)) (fun v s => put_ft (lset ft_vm v (kn_ft s)) s).
Definition kfs : lens kern fsys :=
  mkLens (fun s => ft_fs (kn_ft s)) (fun v s => put_ft (lset ft_fsL v (kn_ft s)) s).
Definition pid_lock : lens kern bool := mkLens kn_pidlock put_pidlock.
Definition wait_lock : lens kern bool := mkLens kn_waitlock put_waitlock.
Definition tickslock : lens kern bool := mkLens kn_tickslock put_tickslock.
Definition upd_proc (p : Z) (f : proc -> proc) (s : kern) : kern :=
  put_procs (fset (kn_proc s) p (f (kn_proc s p))) s.
Definition plock (p : Z) : lens kern bool :=
  mkLens (fun s => p_lock (kn_proc s p)) (fun b s => upd_proc p (set_p_lock b) s).

Definition pget {A} (g : proc -> A) (p : Z) : M kern A := gets (fun s => g (kn_proc s p)).
Definition pput (p : Z) (f : proc -> proc) : M kern unit := modify (upd_proc p f).

(** A field of the trap frame of process [p], in memory. *)
Definition tf_get (p : Z) (f : tfield) : M kern Z :=
  let! tf := pget p_trapframe p in zoom kvm (ld64 (tf + tf_off f)).
Definition tf_put (p : Z) (f : tfield) (v : Z) : M kern unit :=
  let! tf := pget p_trapframe p in zoom kvm (st64 (tf + tf_off f) (u64 v)).

(** A string constant, with its NUL. *)
Definition cstring (s : string) : list Z :=
  map (fun c => Z.of_nat (Ascii.nat_of_ascii c)) (String.list_ascii_of_string s) ++ [0].

(** safestrcpy() between char arrays. *)
Definition safestrcpy_ (dst src : list Z) : list Z :=
  let n := Z.of_nat (length dst) in
  read_bytes (length dst) 0 (safestrcpy 0 n n (zget (dst ++ src))).

Definition empty_proc : proc :=
  mkProc false UNUSED 0 0 0 0 NULL 0 0 0 0 (mkContext 0 0 []) (replicate (Z.to_nat NOFILE) NULL)
    NULL (replicate 16 0).

Section Proc.
Context `{Image}.
Context (proc_addr : Z -> Z).       (** &proc[i] *)
Context (forkret_addr : Z).         (** forkret *)
Context (c : Z).                    (** the CPU that runs the code *)

Definition acquire_ (L : lens kern bool) : M kern unit :=
  acquire L ;;; modify (fun s => put_noff (fset (kn_noff s) c (kn_noff s c + 1)) s).
Definition release_ (L : lens kern bool) : M kern unit :=
  release L ;;; modify (fun s => put_noff (fset (kn_noff s) c (kn_noff s c - 1)) s).

(** intr_get(): interrupts are off while a lock is held ([Spinlock]). *)
Definition intr_get_ (s : kern) : bool := kn_noff s c =? 0.

Definition chan_of (p : Z) : Z := if p =? NULL then 0 else proc_addr p.

Definition procs : list Z := seqZ 0 NPROC.

Definition procinit : M kern unit :=
  modify (lset pid_lock false) ;;;
  modify (lset wait_lock false) ;;;
  for_each procs (fun p =>
    modify (lset (plock p) false) ;;;
    pput p (set_p_state UNUSED) ;;;
    pput p (set_p_kstack (KSTACK p))).

Definition myproc : M kern Z := gets (fun s => kn_cpu s c).

Definition allocpid : M kern Z :=
  acquire_ pid_lock ;;;
  let! pid := gets kn_nextpid in
  modify (put_nextpid (i32 (pid + 1))) ;;;
  release_ pid_lock ;;;
  ret pid.

Definition proc_pagetable (p : Z) : M kern Z :=
  let! tf := pget p_trapframe p in
  zoom kvm (
    let! pagetable := uvmcreate in
    if pagetable =? 0 then ret 0
    else
      (* the trampoline code, at the highest user virtual address *)
      let! r := mappages pagetable TRAMPOLINE PGSIZE trampoline (Z.lor PTE_R PTE_X) in
      if r <? 0 then
        uvmfree pagetable 0 ;;;
        ret 0
      else
        (* the trapframe page just below the trampoline page *)
        let! r := mappages pagetable TRAPFRAME PGSIZE tf (Z.lor PTE_R PTE_W) in
        if r <? 0 then
          uvmunmap pagetable TRAMPOLINE 1 false ;;;
          uvmfree pagetable 0 ;;;
          ret 0
        else ret pagetable).

Definition proc_freepagetable (pagetable sz : Z) : M kst unit :=
  uvmunmap pagetable TRAMPOLINE 1 false ;;;
  uvmunmap pagetable TRAPFRAME 1 false ;;;
  uvmfree pagetable sz.

Definition freeproc (p : Z) : M kern unit :=
  let! tf := pget p_trapframe p in
  (if negb (tf =? 0) then zoom kvm (kfree tf) else ret tt) ;;;
  pput p (set_p_trapframe 0) ;;;
  let! pt := pget p_pagetable p in
  let! sz := pget p_sz p in
  (if negb (pt =? 0) then zoom kvm (proc_freepagetable pt sz) else ret tt) ;;;
  pput p (set_p_pagetable 0) ;;;
  pput p (set_p_sz 0) ;;;
  pput p (set_p_pid 0) ;;;
  pput p (set_p_parent NULL) ;;;
  pput p (fun x => set_p_name (zset 0 0 (p_name x)) x) ;;;
  pput p (set_p_chan 0) ;;;
  pput p (set_p_killed 0) ;;;
  pput p (set_p_xstate 0) ;;;
  pput p (set_p_state UNUSED).

(** The process, its lock held, or [NULL]. *)
Definition allocproc : M kern Z :=
  let! found := for_first procs (fun p =>
    acquire_ (plock p) ;;;
    let! st := pget p_state p in
    if decide (st = UNUSED) then ret (Some p)
    else release_ (plock p) ;;; ret None) in
  match found with
  | None => ret NULL
  | Some p =>
      let! pid := allocpid in
      pput p (set_p_pid pid) ;;;
      pput p (set_p_state USED) ;;;
      (* a trapframe page *)
      let! tf := zoom kvm kalloc in
      pput p (set_p_trapframe tf) ;;;
      if tf =? 0 then
        freeproc p ;;;
        release_ (plock p) ;;;
        ret NULL
      else
        (* an empty user page table *)
        let! pt := proc_pagetable p in
        pput p (set_p_pagetable pt) ;;;
        if pt =? 0 then
          freeproc p ;;;
          release_ (plock p) ;;;
          ret NULL
        else
          (* start executing at forkret *)
          pput p (fun x => set_p_context (mkContext forkret_addr (p_kstack x + PGSIZE) (replicate 12 0)) x) ;;;
          ret p
  end.

Definition initcode : list Z := [
  0x17; 0x05; 0x00; 0x00; 0x13; 0x05; 0x45; 0x02;
  0x97; 0x05; 0x00; 0x00; 0x93; 0x85; 0x35; 0x02;
  0x93; 0x08; 0x70; 0x00; 0x73; 0x00; 0x00; 0x00;
  0x93; 0x08; 0x20; 0x00; 0x73; 0x00; 0x00; 0x00;
  0xef; 0xf0; 0x9f; 0xff; 0x2f; 0x69; 0x6e; 0x69;
  0x74; 0x00; 0x00; 0x24; 0x00; 0x00; 0x00; 0x00;
  0x00; 0x00; 0x00; 0x00].

Definition userinit : M kern unit :=
  let! p := allocproc in
  modify (put_initproc p) ;;;
  (* one user page with initcode's instructions and data *)
  let! pt := pget p_pagetable p in
  zoom kvm (uvmfirst pt initcode) ;;;
  pput p (set_p_sz PGSIZE) ;;;
  tf_put p epc 0 ;;;          (* user program counter *)
  tf_put p sp PGSIZE ;;;      (* user stack pointer *)
  pput p (fun x => set_p_name (safestrcpy_ (p_name x) (cstring "initcode")) x) ;;;
  let! me := myproc in
  let! pid := pget p_pid me in
  let! cwd := pget p_cwd me in
  let! ip := zoom kfs (namei pid cwd (cstring "/")) in
  pput p (set_p_cwd ip) ;;;
  pput p (set_p_state RUNNABLE) ;;;
  release_ (plock p).

Definition growproc (n : Z) : M kern Z :=
  let! p := myproc in
  let! sz := pget p_sz p in
  let! pt := pget p_pagetable p in
  if n >? 0 then
    let! sz := zoom kvm (uvmalloc pt sz (u64 (sz + n)) PTE_W) in
    if sz =? 0 then ret (-1)
    else pput p (set_p_sz sz) ;;; ret 0
  else
    let! sz := if n <? 0 then zoom kvm (uvmdealloc pt sz (u64 (sz + n))) else ret sz in
    pput p (set_p_sz sz) ;;;
    ret 0.

Definition fork : M kern Z :=
  let! p := myproc in
  let! np := allocproc in
  if np =? NULL then ret (-1)
  else
    (* copy user memory from parent to child *)
    let! pt := pget p_pagetable p in
    let! npt := pget p_pagetable np in
    let! sz := pget p_sz p in
    let! r := zoom kvm (uvmcopy pt npt sz) in
    if r <? 0 then
      freeproc np ;;;
      release_ (plock np) ;;;
      ret (-1)
    else
      pput np (set_p_sz sz) ;;;
      (* copy saved user registers *)
      let! tf := pget p_trapframe p in
      let! ntf := pget p_trapframe np in
      zoom kvm (upd_mem (memmove ntf tf sizeof_trapframe)) ;;;
      (* cause fork to return 0 in the child *)
      tf_put np a0 0 ;;;
      (* increment reference counts on open file descriptors *)
      for_each (seqZ 0 NOFILE) (fun i =>
        let! f := pget (fun x => zget (p_ofile x) i) p in
        if negb (f =? NULL) then
          let! f' := zoom kft (filedup f) in
          pput np (fun x => set_p_ofile (zset i f' (p_ofile x)) x)
        else ret tt) ;;;
      let! cwd := pget p_cwd p in
      let! ncwd := zoom kfs (idup cwd) in
      pput np (set_p_cwd ncwd) ;;;
      let! name := pget p_name p in
      pput np (fun x => set_p_name (safestrcpy_ (p_name x) name) x) ;;;
      let! pid := pget p_pid np in
      release_ (plock np) ;;;
      acquire_ wait_lock ;;;
      pput np (set_p_parent p) ;;;
      release_ wait_lock ;;;
      acquire_ (plock np) ;;;
      pput np (set_p_state RUNNABLE) ;;;
      release_ (plock np) ;;;
      ret pid.

Definition wakeup (chan : Z) : M kern unit :=
  for_each procs (fun p =>
    let! me := myproc in
    if negb (p =? me) then
      acquire_ (plock p) ;;;
      let! st := pget p_state p in
      let! ch := pget p_chan p in
      (if decide (st = SLEEPING) then
         if ch =? chan then pput p (set_p_state RUNNABLE) else ret tt
       else ret tt) ;;;
      release_ (plock p)
    else ret tt).

Definition reparent (p : Z) : M kern unit :=
  for_each procs (fun pp =>
    let! par := pget p_parent pp in
    if par =? p then
      let! init := gets kn_initproc in
      pput pp (set_p_parent init) ;;;
      wakeup (chan_of init)
    else ret tt).

(** Up to swtch(), which leaves for scheduler(). *)
Definition sched : M kern unit :=
  let! p := myproc in
  let! held := pget p_lock p in
  if negb held then panic "sched p->lock"
  else
    let! noff := gets (fun s => kn_noff s c) in
    if negb (noff =? 1) then panic "sched locks"
    else
      let! st := pget p_state p in
      if decide (st = RUNNING) then panic "sched running"
      else
        let! intr := gets intr_get_ in
        if intr : bool then panic "sched interruptible"
        else block 0.

Definition exit (status : Z) : M kern unit :=
  let! p := myproc in
  let! init := gets kn_initproc in
  if p =? init then panic "init exiting"
  else
    let! pid := pget p_pid p in
    (* close all open files *)
    for_each (seqZ 0 NOFILE) (fun fd =>
      let! f := pget (fun x => zget (p_ofile x) fd) p in
      if negb (f =? NULL) then
        zoom kft (fileclose pid f) ;;;
        pput p (fun x => set_p_ofile (zset fd NULL (p_ofile x)) x)
      else ret tt) ;;;
    let! cwd := pget p_cwd p in
    zoom kfs (zoom fsl begin_op ;;; iput pid cwd ;;; zoom fsl (end_op pid)) ;;;
    pput p (set_p_cwd NULL) ;;;
    acquire_ wait_lock ;;;
    (* give any children to init *)
    reparent p ;;;
    (* the parent might be sleeping in wait() *)
    let! par := pget p_parent p in
    wakeup (chan_of par) ;;;
    acquire_ (plock p) ;;;
    pput p (set_p_xstate status) ;;;
    pput p (set_p_state ZOMBIE) ;;;
    release_ wait_lock ;;;
    (* jump into the scheduler, never to return *)
    sched ;;;
    panic "zombie exit".

Definition killed (p : Z) : M kern Z :=
  acquire_ (plock p) ;;;
  let! k := pget p_killed p in
  release_ (plock p) ;;;
  ret k.

(** Up to the swtch() of sched(). *)
Definition sleep (chan : Z) (lk : lens kern bool) : M kern unit :=
  let! p := myproc in
  acquire_ (plock p) ;;;
  release_ lk ;;;
  pput p (set_p_chan chan) ;;;
  pput p (set_p_state SLEEPING) ;;;
  sched.

(** From there on. *)
Definition sleep_resume (lk : lens kern bool) : M kern unit :=
  let! p := myproc in
  pput p (set_p_chan 0) ;;;
  release_ (plock p) ;;;
  acquire_ lk.

(** An exited child found, its lock and wait_lock held. *)
Definition wait_reap (p addr pp : Z) : M kern Z :=
  let! pid := pget p_pid pp in
  let! pt := pget p_pagetable p in
  let! xs := pget p_xstate pp in
  let! bad := if addr =? 0 then ret 0
              else zoom kvm (copyout pt addr (put32 0 (u32 xs) [0; 0; 0; 0])) in
  if bad <? 0 then
    release_ (plock pp) ;;;
    release_ wait_lock ;;;
    ret (-1)
  else
    freeproc pp ;;;
    release_ (plock pp) ;;;
    release_ wait_lock ;;;
    ret pid.

(** The scan of wait() for exited children, with havekids. *)
Fixpoint wait_scan (p addr : Z) (pps : list Z) (havekids : bool) : M kern (Z + bool) :=
  match pps with
  | [] => ret (inr havekids)
  | pp :: pps =>
      let! par := pget p_parent pp in
      if par =? p then
        (* make sure the child isn't still in exit() or swtch() *)
        acquire_ (plock pp) ;;;
        let! st := pget p_state pp in
        if decide (st = ZOMBIE) then
          let! v := wait_reap p addr pp in
          ret (inl v)
        else
          release_ (plock pp) ;;;
          wait_scan p addr pps true
      else wait_scan p addr pps havekids
  end.

(** One round of the for(;;) of wait(), wait_lock held: a result, or a call of
    sleep(), after which [sleep_resume] and the next round follow. *)
Definition wait_round (addr : Z) : M kern Z :=
  let! p := myproc in
  let! r := wait_scan p addr procs false in
  match r with
  | inl v => ret v
  | inr havekids =>
      (* no point waiting if we don't have any children *)
      let! k := if havekids : bool then killed p else ret 0 in
      if negb havekids || negb (k =? 0) then
        release_ wait_lock ;;;
        ret (-1)
      else
        sleep (chan_of p) wait_lock ;;;
        ret 0
  end.

Definition wait (addr : Z) : M kern Z :=
  acquire_ wait_lock ;;;
  wait_round addr.
Definition wait_resume (addr : Z) : M kern Z :=
  sleep_resume wait_lock ;;;
  wait_round addr.

(** The body of the scheduler's loop for one process, up to swtch() and after
    it; [run] is what happens in between. *)
Definition scheduler_pick (p : Z) : M kern bool :=
  acquire_ (plock p) ;;;
  let! st := pget p_state p in
  if decide (st = RUNNABLE) then
    pput p (set_p_state RUNNING) ;;;
    modify (fun s => put_cpu (fset (kn_cpu s) c p) s) ;;;
    ret true
  else ret false.
Definition scheduler_leave (p : Z) : M kern unit :=
  modify (fun s => put_cpu (fset (kn_cpu s) c NULL) s) ;;;
  release_ (plock p).
Definition scheduler_proc (run : Z -> M kern unit) (p : Z) : M kern unit :=
  let! chosen := scheduler_pick p in
  if chosen : bool then
    run p ;;;
    scheduler_leave p
  else release_ (plock p).

(** One round of the for(;;) of scheduler(). *)
Definition scheduler_round (run : Z -> M kern unit) : M kern unit :=
  for_each procs (scheduler_proc run).

Definition yield : M kern unit :=
  let! p := myproc in
  acquire_ (plock p) ;;;
  pput p (set_p_state RUNNABLE) ;;;
  sched.
Definition yield_resume : M kern unit :=
  let! p := myproc in
  release_ (plock p).

(** Up to usertrapret(). *)
Definition forkret : M kern unit :=
  let! p := myproc in
  release_ (plock p) ;;;
  let! first := gets kn_first in
  if negb (first =? 0) then
    modify (put_first 0) ;;;
    let! pid := pget p_pid p in
    zoom kfs (fsinit pid ROOTDEV)
  else ret tt.

Definition kill (pid : Z) : M kern Z :=
  let! r := for_first procs (fun p =>
    acquire_ (plock p) ;;;
    let! pid' := pget p_pid p in
    if pid' =? pid then
      pput p (set_p_killed 1) ;;;
      let! st := pget p_state p in
      (* wake process from sleep() *)
      (if decide (st = SLEEPING) then pput p (set_p_state RUNNABLE) else ret tt) ;;;
      release_ (plock p) ;;;
      ret (Some 0)
    else
      release_ (plock p) ;;;
      ret None) in
  ret (match r with Some v => v | None => -1 end).

Definition setkilled (p : Z) : M kern unit :=
  acquire_ (plock p) ;;;
  pput p (set_p_killed 1) ;;;
  release_ (plock p).

(** The lines of procdump(): pid, state and name. *)
Definition state_name (st : procstate) : string :=
  match st with
  | UNUSED => "unused" | USED => "used" | SLEEPING => "sleep " | RUNNABLE => "runble"
  | RUNNING => "run   " | ZOMBIE => "zombie"
  end.
Definition procdump (s : kern) : list (Z * string * list Z) :=
  flat_map (fun p => let x := kn_proc s p in
                     if decide (p_state x = UNUSED) then []
                     else [(p_pid x, state_name (p_state x), cstr 16 (zget (p_name x)))]) procs.
End Proc.
