(* ===== verification/ProcInv.v ===== *)
(** The process table: rules for the operations of [Proc] on it, and the
    invariant the kernel keeps between operations. *)

From Stdlib Require Import FunctionalExtensionality.
From S2P Require Import Prelude Riscv CString Kalloc Vm Sleeplock Fields BlockCache Log Fs Pipe File Proc.

(** * Effects on the table *)

Definition prange (p : Z) : Prop := 0 <= p < NPROC.

Lemma elem_procs p : p ∈ procs <-> prange p.
Proof. unfold procs, prange. rewrite elem_of_seqZ. lia. Qed.

Lemma prange_null p : prange p -> p <> NULL.
Proof. unfold prange, NULL. lia. Qed.

Lemma set_p_lock_id b x : p_lock x = b -> set_p_lock b x = x.
Proof. intros <-. by destruct x. Qed.

Section Rules.
Context (c : Z).

Definition lockd (L : lens kern bool) (s : kern) : kern :=
  let s1 := lset L true s in put_noff (fset (kn_noff s1) c (kn_noff s1 c + 1)) s1.
Definition unlockd (L : lens kern bool) (s : kern) : kern :=
  let s1 := lset L false s in put_noff (fset (kn_noff s1) c (kn_noff s1 c - 1)) s1.

Lemma acquire_eq L s : lget L s = false -> acquire_ c L s = Ok tt (lockd L s).
Proof. intros Hf. unfold acquire_, acquire, bind, gets. by rewrite Hf. Qed.
Lemma release_eq L s : lget L s = true -> release_ c L s = Ok tt (unlockd L s).
Proof. intros Hf. unfold release_, release, bind, gets. by rewrite Hf. Qed.

Lemma wlp_acquire L (Q : unit -> kern -> Prop) R s :
  (lget L s = false -> Q tt (lockd L s)) -> wlp (acquire_ c L) Q R s.
Proof.
  intros HQ. unfold wlp. destruct (lget L s) eqn:E.
  - unfold acquire_, acquire, bind, gets. by rewrite E.
  - rewrite acquire_eq by done. by apply HQ.
Qed.
Lemma wlp_release L (Q : unit -> kern -> Prop) R s :
  (lget L s = true -> Q tt (unlockd L s)) -> wlp (release_ c L) Q R s.
Proof.
  intros HQ. unfold wlp. destruct (lget L s) eqn:E.
  - rewrite release_eq by done. by apply HQ.
  - unfold release_, release, bind, gets. by rewrite E.
Qed.

(** acquire(), an update of p, release(). *)
Lemma unlock_lock_p p f s :
  p_lock (kn_proc s p) = false -> (forall x, p_lock (f x) = p_lock x) ->
  (forall b x, set_p_lock b (f x) = f (set_p_lock b x)) ->
  unlockd (plock p) (upd_proc p f (lockd (plock p) s)) = upd_proc p f s.
Proof.
  intros Hl Hf Hc. destruct s. cbn in *. unfold unlockd, lockd, upd_proc, put_procs, put_noff. cbn.
  rewrite !fset_eq, !fset_fset. f_equal.
  - f_equal. rewrite Hc. f_equal.
    change (set_p_lock false (set_p_lock true (kn_proc p))) with (set_p_lock false (kn_proc p)).
    by apply set_p_lock_id.
  - replace (kn_noff c + 1 - 1) with (kn_noff c) by lia. apply fset_id.
Qed.

Lemma unlock_lock_id p s :
  p_lock (kn_proc s p) = false -> unlockd (plock p) (lockd (plock p) s) = s.
Proof.
  intros Hl. destruct s. cbn in *. unfold unlockd, lockd, upd_proc, put_procs, put_noff. cbn.
  rewrite !fset_eq, !fset_fset. f_equal.
  - change (set_p_lock false (set_p_lock true (kn_proc p))) with (set_p_lock false (kn_proc p)).
    rewrite set_p_lock_id by done. apply fset_id.
  - replace (kn_noff c + 1 - 1) with (kn_noff c) by lia. apply fset_id.
Qed.

(** An operation on a component below the process table. *)
Lemma wlp_kft {A} (m : M ftab A) (Q : A -> kern -> Prop) (R : kern -> Prop) s :
  (forall a v, Q a (put_ft v s)) -> (forall v, R (put_ft v s)) -> wlp (zoom kft m) Q R s.
Proof. intros HQ HR. unfold wlp, zoom. destruct (m _); [apply HQ|done|apply HR|done]. Qed.
Lemma wlp_kvm {A} (m : M kst A) (Q : A -> kern -> Prop) (R : kern -> Prop) s :
  (forall a v, Q a (put_ft v s)) -> (forall v, R (put_ft v s)) -> wlp (zoom kvm m) Q R s.
Proof. intros HQ HR. unfold wlp, zoom. destruct (m _); [apply HQ|done|apply HR|done]. Qed.
Lemma wlp_kfs {A} (m : M fsys A) (Q : A -> kern -> Prop) (R : kern -> Prop) s :
  (forall a v, Q a (put_ft v s)) -> (forall v, R (put_ft v s)) -> wlp (zoom kfs m) Q R s.
Proof. intros HQ HR. unfold wlp, zoom. destruct (m _); [apply HQ|done|apply HR|done]. Qed.
End Rules.

(** * Loops over the table *)

Definition unlocked (s : kern) : Prop := forall p, prange p -> p_lock (kn_proc s p) = false.

(** A loop whose body updates the entry of its process only. *)
Lemma for_each_upd (g : Z -> proc -> proc) (body : Z -> M kern unit) l s :
  NoDup l ->
  (forall p f, p ∈ l -> f p = kn_proc s p ->
     body p (put_procs f s) = Ok tt (upd_proc p (g p) (put_procs f s))) ->
  for_each l body s =
  Ok tt (put_procs (fun q => if decide (q ∈ l) then g q (kn_proc s q) else kn_proc s q) s).
Proof.
  intros Hnd Hbody.
  assert (Hs : forall s' : kern, put_procs (kn_proc s') s' = s') by (by intros []).
  revert s Hbody. induction Hnd as [|p l Hp Hnd IH]; intros s Hbody; cbn [for_each].
  - unfold ret. f_equal. by destruct s.
  - unfold bind. rewrite <- (Hs s) at 1. rewrite Hbody by (done || by left).
    rewrite Hs. rewrite IH.
    + f_equal. unfold upd_proc, put_procs. cbn. f_equal. extensionality q.
      destruct (decide (q = p)) as [->|Hne].
      * rewrite decide_False by done. rewrite decide_True by (by left). apply fset_eq.
      * rewrite fset_ne by done. destruct (decide (q ∈ l)).
        -- rewrite decide_True by (by right). done.
        -- rewrite decide_False by (intros [|]%elem_of_cons; done). done.
    + intros q f Hq Hf. cbn. change (put_procs f (upd_proc p (g p) s)) with (put_procs f s).
      apply Hbody; [by right|]. rewrite Hf. cbn. apply fset_ne. by intros ->.
Qed.

Lemma NoDup_procs : NoDup procs.
Proof. apply NoDup_seqZ. Qed.

Lemma upd_proc_id p f s : f (kn_proc s p) = kn_proc s p -> upd_proc p f s = s.
Proof. intros He. unfold upd_proc. rewrite He, fset_id. by destruct s. Qed.

(** What wakeup() by process [me] does to process [p]. *)
Definition woken (me chan : Z) (p : Z) (x : proc) : proc :=
  if p =? me then x
  else if decide (p_state x = SLEEPING /\ p_chan x = chan) then set_p_state RUNNABLE x else x.

Lemma wakeup_eq c chan s :
  unlocked s ->
  wakeup c chan s =
  Ok tt (put_procs (fun q => if decide (q ∈ procs) then woken (kn_cpu s c) chan q (kn_proc s q)
                             else kn_proc s q) s).
Proof.
  intros Hl. unfold wakeup. apply for_each_upd; [apply NoDup_procs|]. intros p f Hp Hf.
  unfold bind at 1, myproc, gets at 1. cbn [kn_cpu put_procs]. unfold woken.
  destruct (Z.eqb_spec p (kn_cpu s c)) as [He|Hne]; cbn [negb].
  { unfold ret. f_equal. symmetry. by apply upd_proc_id. }
  assert (Hlp : p_lock (kn_proc (put_procs f s) p) = false).
  { cbn. rewrite Hf. apply Hl, elem_procs, Hp. }
  unfold bind at 1. rewrite acquire_eq by done.
  set (s1 := lockd c (plock p) (put_procs f s)).
  assert (Hx : kn_proc s1 p = set_p_lock true (f p)) by (unfold s1; cbn; apply fset_eq).
  unfold pget, gets, bind. rewrite Hx. cbn [p_state p_chan set_p_lock].
  destruct (decide (p_state (f p) = SLEEPING)) as [Hs|Hs];
    [destruct (Z.eqb_spec (p_chan (f p)) chan) as [Hc|Hc]|].
  - unfold pput, modify. rewrite release_eq by (cbn; rewrite !fset_eq; done).
    f_equal. unfold s1. rewrite unlock_lock_p by done. unfold upd_proc. cbn.
    by rewrite decide_True by done.
  - unfold ret. rewrite release_eq by (cbn; rewrite !fset_eq; done).
    f_equal. unfold s1. rewrite unlock_lock_id by done. symmetry. apply upd_proc_id. cbn.
    by rewrite decide_False by naive_solver.
  - unfold ret. rewrite release_eq by (cbn; rewrite !fset_eq; done).
    f_equal. unfold s1. rewrite unlock_lock_id by done. symmetry. apply upd_proc_id. cbn.
    by rewrite decide_False by naive_solver.
Qed.

(** A scan that leaves the state alone up to the process it looks for. *)
Lemma for_first_find {B} (t : Z -> bool) (body : Z -> M kern (option B)) l s :
  (forall p, p ∈ l -> t p = false -> body p s = Ok None s) ->
  (forall p s', p ∈ l -> t p = true -> body p s <> Ok None s') ->
  for_first l body s = match find t l with Some p => body p s | None => Ok None s end.
Proof.
  intros Hno Hyes. induction l as [|p l IH]; [done|]. cbn [for_first find]. unfold bind.
  destruct (t p) eqn:E.
  - destruct (body p s) as [[b|] s'| | |] eqn:Eb; try done.
    exfalso. apply (Hyes p s'); [by left|done|done].
  - rewrite Hno by (done || by left). apply IH.
    + intros q Hq. apply Hno. by right.
    + intros q s' Hq. apply Hyes. by right.
Qed.

Lemma find_procs t p : find t procs = Some p -> prange p /\ t p = true.
Proof. intros [Hin Ht]%find_some. split; [|done]. by apply elem_procs, list_elem_of_In. Qed.
Lemma find_procs_none t p : find t procs = None -> prange p -> t p = false.
Proof. intros Hn Hp. apply (find_none _ _ Hn). by apply list_elem_of_In, elem_procs. Qed.

(** What kill() does to its victim. *)
Definition kill_upd (x : proc) : proc :=
  let x := set_p_killed 1 x in
  if decide (p_state x = SLEEPING) then set_p_state RUNNABLE x else x.

Lemma kill_eq c pid s :
  unlocked s ->
  kill c pid s =
  match find (fun p => p_pid (kn_proc s p) =? pid) procs with
  | Some p => Ok 0 (upd_proc p kill_upd s)
  | None => Ok (-1) s
  end.
Proof.
  intros Hl. unfold kill. unfold bind at 1.
  assert (Hbody : forall p, prange p ->
    (acquire_ c (plock p) ;;;
     let! pid' := pget p_pid p in
     if pid' =? pid then
       pput p (set_p_killed 1) ;;;
       let! st := pget p_state p in
       (if decide (st = SLEEPING) then pput p (set_p_state RUNNABLE) else ret tt) ;;;
       release_ c (plock p) ;;;
       ret (Some 0)
     else release_ c (plock p) ;;; ret None) s =
    if p_pid (kn_proc s p) =? pid then Ok (Some 0) (upd_proc p kill_upd s) else Ok None s).
  { intros p Hp. specialize (Hl p Hp). unfold bind at 1. rewrite acquire_eq by done.
    unfold bind, pget, gets, pput, modify. cbn [kn_proc]. unfold lockd at 1. cbn. rewrite fset_eq. cbn.
    destruct (_ =? _).
    - rewrite fset_eq. cbn. rewrite fset_eq. cbn. unfold kill_upd. cbn.
      destruct (decide _) as [Hs|Hs].
      + rewrite release_eq by (cbn; rewrite !fset_eq; done). unfold ret. f_equal.
        transitivity (unlockd c (plock p) (upd_proc p (fun x => set_p_state RUNNABLE (set_p_killed 1 x))
          (lockd c (plock p) s))).
        * f_equal. unfold upd_proc. cbn. by rewrite !fset_fset, !fset_eq.
        * rewrite unlock_lock_p by done. unfold upd_proc. cbn. by rewrite decide_True by done.
      + unfold ret. rewrite release_eq by (cbn; rewrite !fset_eq; done). f_equal.
        rewrite unlock_lock_p by done. unfold upd_proc. cbn. by rewrite decide_False by done.
    - rewrite release_eq by (cbn; rewrite !fset_eq; done). unfold ret. by rewrite unlock_lock_id. }
  rewrite (for_first_find (fun p => p_pid (kn_proc s p) =? pid)).
  - destruct (find _ _) as [p|] eqn:E; [|done]. apply find_procs in E as [Hp Ht].
    rewrite Hbody by done. by rewrite Ht.
  - intros p Hp%elem_procs Ht. rewrite Hbody by done. by rewrite Ht.
  - intros p s' Hp%elem_procs Ht. rewrite Hbody by done. by rewrite Ht.
Qed.

(** * reparent() *)

(** [x'] is [x], or [x] woken. *)
Definition waked (x x' : proc) : Prop :=
  x' = x \/ p_state x = SLEEPING /\ x' = set_p_state RUNNABLE x.

Lemma waked_refl x : waked x x.
Proof. by left. Qed.
Lemma waked_trans x y z : waked x y -> waked y z -> waked x z.
Proof. intros [->|[H1 ->]] [->|[H2 ->]]; [by left|by right|by right|done]. Qed.
Lemma woken_waked me chan p x : waked x (woken me chan p x).
Proof. unfold woken. repeat case_match; [by left|right|by left]. naive_solver. Qed.
Lemma woken_me me chan x : woken me chan me x = x.
Proof. unfold woken. by rewrite Z.eqb_refl. Qed.
Lemma waked_parent v x y : waked x y -> waked (set_p_parent v x) (set_p_parent v y).
Proof. intros [->|[H1 ->]]; [by left|by right]. Qed.

Definition adopt (init p : Z) (x : proc) : proc :=
  if p_parent x =? p then set_p_parent init x else x.

(** The table after reparent() and wakeup(). *)
Record reparented (me init p : Z) (f f' : Z -> proc) : Prop := {
  rp_other : forall q, ~ prange q -> f' q = f q;
  rp_me : prange me -> f' me = adopt init p (f me);
  rp_tab : forall q, prange q -> waked (adopt init p (f q)) (f' q);
}.

Lemma waked_lock x x' : waked x x' -> p_lock x' = p_lock x.
Proof. by intros [->|[_ ->]]. Qed.
Lemma adopt_lock init p x : p_lock (adopt init p x) = p_lock x.
Proof. unfold adopt. by case_match. Qed.

(** Part way through the table. *)
Record reparenting (me init p : Z) (todo : list Z) (f f' : Z -> proc) : Prop := {
  rq_other : forall q, ~ prange q -> f' q = f q;
  rq_todo : forall q, prange q -> q ∈ todo -> waked (f q) (f' q) /\ (q = me -> f' q = f q);
  rq_done : forall q, prange q -> q ∉ todo ->
    waked (adopt init p (f q)) (f' q) /\ (q = me -> f' q = adopt init p (f q));
}.

Lemma reparenting_lock me init p todo f f' q :
  reparenting me init p todo f f' -> prange q -> p_lock (f' q) = p_lock (f q).
Proof.
  intros HI Hq. destruct (decide (q ∈ todo)) as [Ht|Ht].
  - by apply waked_lock, (rq_todo _ _ _ _ _ _ HI).
  - destruct (rq_done _ _ _ _ _ _ HI q Hq Ht) as [Hw _]. apply waked_lock in Hw.
    by rewrite Hw, adopt_lock.
Qed.

(** The entry of [q] is left as it is, or handed to init and init woken. *)
Lemma reparenting_skip me init p q todo f f' :
  reparenting me init p (q :: todo) f f' -> p_parent (f q) <> p -> q ∉ todo ->
  reparenting me init p todo f f'.
Proof.
  intros [Ho Ht Hd] Hp Hn. split; [done| |].
  - intros r Hr Hin. apply Ht; [done|by right].
  - intros r Hr Hin. destruct (decide (r = q)) as [->|Hne].
    + unfold adopt. rewrite (proj2 (Z.eqb_neq _ _) Hp). apply Ht; [done|by left].
    + apply Hd; [done|]. by intros [|]%elem_of_cons.
Qed.

Lemma reparenting_take me init p q todo f f' chan :
  reparenting me init p (q :: todo) f f' -> p_parent (f q) = p -> q ∉ todo -> prange q ->
  reparenting me init p todo f
    (fun r => if decide (r ∈ procs) then woken me chan r (fset f' q (set_p_parent init (f' q)) r)
              else fset f' q (set_p_parent init (f' q)) r).
Proof.
  intros [Ho Ht Hd] Hp Hn Hq.
  assert (Hw : forall r x, prange r -> waked x (fset f' q (set_p_parent init (f' q)) r) ->
     (r = me -> fset f' q (set_p_parent init (f' q)) r = x) ->
     waked x (if decide (r ∈ procs) then woken me chan r (fset f' q (set_p_parent init (f' q)) r)
              else fset f' q (set_p_parent init (f' q)) r) /\
     (r = me -> (if decide (r ∈ procs) then woken me chan r (fset f' q (set_p_parent init (f' q)) r)
              else fset f' q (set_p_parent init (f' q)) r) = x)).
  { intros r x Hr Hx Hme. rewrite decide_True by (by apply elem_procs). split.
    - eapply waked_trans; [done|apply woken_waked].
    - intros ->. rewrite woken_me. by apply Hme. }
  split.
  - intros r Hr. rewrite decide_False by (by rewrite elem_procs). rewrite fset_ne by (by intros ->).
    by apply Ho.
  - intros r Hr Hin. assert (r <> q) by (by intros ->).
    apply Hw; [done| |]; rewrite fset_ne by done; apply Ht; done || by right.
  - intros r Hr Hin. unfold adopt at 1 2. destruct (decide (r = q)) as [->|Hne].
    + rewrite (proj2 (Z.eqb_eq _ _) Hp). apply Hw; [done| |]; rewrite fset_eq.
      * apply waked_parent, Ht; [done|by left].
      * intros Hme. f_equal. apply Ht; [done|by left|done].
    + assert (r ∉ q :: todo) by (by intros [|]%elem_of_cons).
      apply Hw; [done| |]; rewrite fset_ne by done; by apply Hd.
Qed.

Lemma reparent_spec c (proc_addr : Z -> Z) p s :
  unlocked s ->
  exists f, reparent proc_addr c p s = Ok tt (put_procs f s) /\
            reparented (kn_cpu s c) (kn_initproc s) p (kn_proc s) f.
Proof.
  intros Hl. set (me := kn_cpu s c). set (init := kn_initproc s).
  assert (Hgoal : wp (reparent proc_addr c p) (fun _ s' => exists f, s' = put_procs f s /\
            reparenting me init p [] (kn_proc s) f) s).
  { apply (wp_for_each (fun _ todo s' => exists f, s' = put_procs f s /\
              reparenting me init p todo (kn_proc s) f)); [| |done].
    - exists (kn_proc s). split; [by destruct s|]. split; [done|intros; split; [apply waked_refl|done]|].
      intros q Hq Hn. by apply elem_procs in Hq.
    - intros dn q todo s' He (f & -> & HI).
      assert (Hnd : q ∉ todo).
      { pose proof NoDup_procs as Hnd. rewrite He in Hnd. apply NoDup_app in Hnd as (_ & _ & Hnd).
        by apply NoDup_cons in Hnd as [? _]. }
      assert (Hq : prange q) by (apply elem_procs; rewrite He; set_solver).
      assert (Hpar : p_parent (f q) = p_parent (kn_proc s q)).
      { destruct (rq_todo _ _ _ _ _ _ HI q Hq) as [[->|[_ ->]] _]; [by left|done|done]. }
      apply wp_bind, wp_gets. cbn [kn_proc put_procs]. rewrite Hpar.
      destruct (Z.eqb_spec (p_parent (kn_proc s q)) p) as [Hp|Hp].
      + apply wp_bind, wp_gets, wp_bind. apply wp_modify. unfold wp.
        rewrite wakeup_eq.
        * eexists. split; [reflexivity|]. by apply reparenting_take.
        * intros r Hr. cbn. assert (Hlr : forall r, prange r -> p_lock (f r) = false).
          { intros r' Hr'. rewrite (reparenting_lock _ _ _ _ _ _ _ HI Hr'). by apply Hl. }
          destruct (fset_case f q (set_p_parent (kn_initproc s) (f q)) r) as [[-> ->]|[_ ->]]; cbn; by apply Hlr.
      + apply wp_ret. exists f. split; [done|]. by apply (reparenting_skip _ _ _ q). }
  apply wp_ok in Hgoal as ([] & s' & He & f & -> & HI). exists f. split; [done|]. split.
  - apply HI.
  - intros Hme. by apply (rq_done _ _ _ _ _ _ HI); [|apply not_elem_of_nil|].
  - intros q Hq. apply (rq_done _ _ _ _ _ _ HI); [done|apply not_elem_of_nil].
Qed.

(** * wait() *)

Definition child (s : kern) (p pp : Z) : bool := p_parent (kn_proc s pp) =? p.
Definition zombie_child (s : kern) (p pp : Z) : bool :=
  child s p pp && bool_decide (p_state (kn_proc s pp) = ZOMBIE).

Lemma wait_scan_eq `{Image} c p addr pps hk s :
  (forall pp, pp ∈ pps -> p_lock (kn_proc s pp) = false) ->
  wait_scan c p addr pps hk s =
  match find (zombie_child s p) pps with
  | Some pp => (let! v := wait_reap c p addr pp in ret (inl v)) (lockd c (plock pp) s)
  | None => Ok (inr (hk || existsb (child s p) pps)) s
  end.
Proof.
  revert hk. induction pps as [|pp pps IH]; intros hk Hl; cbn [wait_scan find existsb].
  { by rewrite orb_false_r. }
  assert (Hlp : p_lock (kn_proc s pp) = false) by (apply Hl; by left).
  assert (IH' := fun hk => IH hk (fun q Hq => Hl q (list_elem_of_further _ _ _ Hq))). clear IH.
  unfold bind at 1, pget at 1, gets at 1. change (p_parent (kn_proc s pp) =? p) with (child s p pp).
  unfold zombie_child at 1. destruct (child s p pp); cbn [andb orb].
  - unfold bind at 1. rewrite acquire_eq by done. unfold bind at 1, pget at 1, gets at 1.
    replace (p_state (kn_proc (lockd c (plock pp) s) pp)) with (p_state (kn_proc s pp))
      by (cbn; by rewrite fset_eq).
    destruct (decide (p_state (kn_proc s pp) = ZOMBIE)) as [Hz|Hz].
    + by rewrite bool_decide_eq_true_2 by done.
    + rewrite bool_decide_eq_false_2 by done. unfold bind at 1.
      rewrite release_eq by (cbn; by rewrite fset_eq). rewrite unlock_lock_id by done.
      rewrite IH'. cbn. by rewrite orb_true_r.
  - rewrite IH'. cbn. done.
Qed.
