(* ===== verification/ProcProps.v ===== *)
(** The process table stays consistent whatever the processes do. *)

From Stdlib Require Import FunctionalExtensionality.
From S2P Require Import Prelude Riscv CString Kalloc Vm Sleeplock Fields BlockCache Log Fs Pipe File Proc ProcInv.

(** * The invariant *)

Definition live (st : procstate) : Prop := st <> UNUSED /\ st <> ZOMBIE.

(** The table, the next process id, the first process and what the CPUs run. *)
Record ktab (f : Z -> proc) (n init : Z) (cpu : Z -> Z) : Prop := {
  kt_next : 0 < n;
  kt_unused : forall p, prange p -> p_pid (f p) = 0 <-> p_state (f p) = UNUSED;
  kt_bound : forall p, prange p -> 0 <= p_pid (f p) < n;
  kt_inj : forall p q, prange p -> prange q -> p_pid (f p) <> 0 -> p_pid (f p) = p_pid (f q) -> p = q;
  kt_parent : forall p, prange p -> p_state (f p) <> UNUSED -> p <> init ->
    prange (p_parent (f p)) /\ live (p_state (f (p_parent (f p)))) /\ p_parent (f p) <> p;
  kt_orphan : forall p, prange p -> p_state (f p) = UNUSED -> p_parent (f p) = NULL;
  kt_init : prange init /\ live (p_state (f init)) /\ p_parent (f init) = NULL;
  kt_used : forall p, prange p -> p_state (f p) <> USED;
  kt_cpu : forall c, cpu c <> NULL -> prange (cpu c) /\ p_state (f (cpu c)) = RUNNING;
  kt_cpu_inj : forall c d, cpu c <> NULL -> cpu c = cpu d -> c = d;
  kt_running : forall p, prange p -> p_state (f p) = RUNNING -> exists c, cpu c = p;
}.

(** Between operations no lock of the process table is held. *)
Record quiet (s : kern) : Prop := {
  qt_lock : unlocked s;
  qt_pid : kn_pidlock s = false;
  qt_wait : kn_waitlock s = false;
  qt_noff : forall c, kn_noff s c = 0;
}.

Definition pinv (s : kern) : Prop :=
  quiet s /\ ktab (kn_proc s) (kn_nextpid s) (kn_initproc s) (kn_cpu s).

(** * Changes of the table *)

(** Nothing the invariant speaks of changes, but a process may be woken. *)
Record soft (x x' : proc) : Prop := {
  so_pid : p_pid x' = p_pid x;
  so_parent : p_parent x' = p_parent x;
  so_state : p_state x' = p_state x \/ p_state x = SLEEPING /\ p_state x' = RUNNABLE;
}.

Lemma soft_refl x : soft x x.
Proof. split; naive_solver. Qed.
Lemma waked_soft x x' : waked x x' -> soft x x'.
Proof. intros [->|[? ->]]; [apply soft_refl|]. split; naive_solver. Qed.

Lemma soft_live x x' : soft x x' -> live (p_state x) -> live (p_state x').
Proof. intros [_ _ [->|[H ->]]]; [done|]. by split. Qed.
Lemma soft_keeps x x' st : soft x x' -> st <> SLEEPING -> st <> RUNNABLE -> p_state x' = st <-> p_state x = st.
Proof. intros [_ _ [->|[H1 H2]]] ? ?; [done|]. split; congruence. Qed.

Lemma ktab_soft f f' n init cpu :
  ktab f n init cpu -> (forall q, prange q -> soft (f q) (f' q)) -> ktab f' n init cpu.
Proof.
  intros [Hn Hu Hb Hi Hp Ho Hin Hus Hc Hci Hr] Hs.
  assert (Hk : forall q st, prange q -> st <> SLEEPING -> st <> RUNNABLE ->
            p_state (f' q) = st <-> p_state (f q) = st) by (intros; by apply (soft_keeps _ _ _ (Hs _ ltac:(done)))).
  assert (Hpid : forall q, prange q -> p_pid (f' q) = p_pid (f q)) by (intros; by apply Hs).
  assert (Hpar : forall q, prange q -> p_parent (f' q) = p_parent (f q)) by (intros; by apply Hs).
  split; [done|..].
  - intros p Hrp. rewrite Hpid, Hk by done. by apply Hu.
  - intros p Hrp. rewrite Hpid by done. by apply Hb.
  - intros p q Hrp Hrq. rewrite !Hpid by done. by apply Hi.
  - intros p Hrp. rewrite Hk, Hpar by done. intros Hne Hni. destruct (Hp p Hrp Hne Hni) as (Hr1 & Hl & Hd).
    split; [done|]. split; [|done]. by eapply soft_live; [apply Hs|].
  - intros p Hrp. rewrite Hk, Hpar by done. by apply Ho.
  - destruct Hin as (Hr1 & Hl & Hd). split; [done|]. rewrite Hpar by done. split; [|done].
    by eapply soft_live; [apply Hs|].
  - intros p Hrp. rewrite Hk by done. by apply Hus.
  - intros d Hd. destruct (Hc d Hd) as [Hr1 Hst]. split; [done|]. by apply Hk.
  - done.
  - intros p Hrp. rewrite Hk by done. by apply Hr.
Qed.

(** The lookups of an updated table. *)
Ltac tab_case q :=
  match goal with
  | |- context [fset ?f ?k ?v q] => destruct (fset_case f k v q) as [[? ->]|[? ->]]; [subst q|]
  end.

Lemma ktab_fork f n init cpu p np x :
  ktab f n init cpu -> prange p -> live (p_state (f p)) -> prange np -> p_state (f np) = UNUSED ->
  p_state x = RUNNABLE -> p_pid x = n -> p_parent x = p ->
  ktab (fset f np x) (n + 1) init cpu.
Proof.
  intros [Hn Hu Hb Hi Hp Ho Hin Hus Hc Hci Hr] Hrp Hlp Hrn Hun Hst Hpid Hpar.
  assert (Hpn : p <> np) by (intros ->; by destruct Hlp).
  assert (Hlive : forall q, live (p_state (f q)) -> q <> np) by (intros q Hq ->; by destruct Hq).
  split; [lia|..].
  - intros q Hq. tab_case q; [|by apply Hu]. rewrite Hst. split; [lia|done].
  - intros q Hq. tab_case q; [lia|]. specialize (Hb q Hq). lia.
  - intros q r Hq Hr'. pose proof (Hb q Hq). pose proof (Hb r Hr').
    tab_case q; tab_case r; [done|lia|lia|]. by apply Hi.
  - intros q Hq. tab_case q.
    + intros _ _. rewrite Hpar, fset_ne by done. done.
    + intros Hs Hni. destruct (Hp q Hq Hs Hni) as (H1 & H2 & H3). split; [done|].
      rewrite fset_ne by auto. done.
  - intros q Hq. tab_case q; [by rewrite Hst|]. by apply Ho.
  - destruct Hin as (H1 & H2 & H3). rewrite fset_ne by auto. done.
  - intros q Hq. tab_case q; [by rewrite Hst|]. by apply Hus.
  - intros d Hd. destruct (Hc d Hd) as [H1 H2]. split; [done|]. rewrite fset_ne; [done|]. intros He.
    rewrite He in H2. congruence.
  - done.
  - intros q Hq. tab_case q; [by rewrite Hst|]. by apply Hr.
Qed.

(** freeproc() of a zombie. *)
Lemma ktab_reap f n init cpu z x :
  ktab f n init cpu -> prange z -> p_state (f z) = ZOMBIE ->
  p_state x = UNUSED -> p_pid x = 0 -> p_parent x = NULL ->
  ktab (fset f z x) n init cpu.
Proof.
  intros [Hn Hu Hb Hi Hp Ho Hin Hus Hc Hci Hr] Hrz Hz Hst Hpid Hpar.
  assert (Hlive : forall q, live (p_state (f q)) -> q <> z) by (intros q Hq ->; by destruct Hq).
  split; [done|..].
  - intros q Hq. tab_case q; [|by apply Hu]. by rewrite Hst.
  - intros q Hq. tab_case q; [lia|]. by apply Hb.
  - intros q r Hq Hr'. tab_case q; [done|]. tab_case r; [lia|]. by apply Hi.
  - intros q Hq. tab_case q; [done|]. intros Hs Hni. destruct (Hp q Hq Hs Hni) as (H1 & H2 & H3).
    split; [done|]. rewrite fset_ne by auto. done.
  - intros q Hq. tab_case q; [done|]. by apply Ho.
  - destruct Hin as (H1 & H2 & H3). rewrite fset_ne by auto. done.
  - intros q Hq. tab_case q; [by rewrite Hst|]. by apply Hus.
  - intros d Hd. destruct (Hc d Hd) as [H1 H2]. split; [done|]. rewrite fset_ne; [done|]. intros He.
    rewrite He in H2. congruence.
  - done.
  - intros q Hq. tab_case q; [by rewrite Hst|]. by apply Hr.
Qed.

(** scheduler() takes a process. *)
Lemma ktab_pick f n init cpu c p x :
  ktab f n init cpu -> prange p -> p_state (f p) = RUNNABLE -> cpu c = NULL ->
  p_state x = RUNNING -> p_pid x = p_pid (f p) -> p_parent x = p_parent (f p) ->
  ktab (fset f p x) n init (fset cpu c p).
Proof.
  intros [Hn Hu Hb Hi Hp Ho Hin Hus Hc Hci Hr] Hrp Hst Hcn Hx Hpid Hpar.
  assert (Hpu : p_pid (f p) <> 0) by (intros He; apply Hu in He; congruence).
  assert (Hnr : forall d, cpu d <> NULL -> cpu d <> p).
  { intros d Hd He. destruct (Hc d Hd) as [_ H2]. rewrite He in H2. congruence. }
  assert (Hsub : forall q, live (p_state (f q)) -> live (p_state (fset f p x q))).
  { intros q Hq. tab_case q; [by rewrite Hx|done]. }
  split; [done|..].
  - intros q Hq. tab_case q; [|by apply Hu]. rewrite Hx, Hpid. by split.
  - intros q Hq. tab_case q; [rewrite Hpid|]; by apply Hb.
  - intros q r Hq Hr'. tab_case q; tab_case r; rewrite ?Hpid; [done|by apply Hi|by apply Hi|by apply Hi].
  - intros q Hq. tab_case q.
    + rewrite Hpar. intros _ Hni. destruct (Hp p Hq) as (H1 & H2 & H3); [congruence|done|].
      split; [done|]. split; [by apply Hsub|done].
    + intros Hs Hni. destruct (Hp q Hq Hs Hni) as (H1 & H2 & H3). split; [done|]. split; [by apply Hsub|done].
  - intros q Hq. tab_case q; [congruence|]. by apply Ho.
  - destruct Hin as (H1 & H2 & H3). split; [done|]. split; [by apply Hsub|]. tab_case init; [congruence|done].
  - intros q Hq. tab_case q; [by rewrite Hx|]. by apply Hus.
  - intros d. tab_case d.
    + intros _. split; [done|]. by rewrite fset_eq.
    + intros Hd. destruct (Hc d Hd) as [H1 H2]. split; [done|]. rewrite fset_ne by auto. done.
  - intros d e. tab_case d; tab_case e; [done| | |].
    + intros _ He. by destruct (Hnr e); [rewrite <- He; by apply prange_null|].
    + intros Hd He. by destruct (Hnr d).
    + by apply Hci.
  - intros q Hq. tab_case q; [intros _; exists c; apply fset_eq|]. intros Hs. destruct (Hr q Hq Hs) as [d Hd].
    exists d. rewrite fset_ne; [done|]. intros ->. by apply prange_null in Hq; congruence.
Qed.

(** The running process gives up the CPU. *)
Lemma ktab_leave f n init cpu c p x st :
  ktab f n init cpu -> cpu c = p -> p <> NULL ->
  st = SLEEPING \/ st = RUNNABLE \/ (st = ZOMBIE /\ p <> init /\ forall q, prange q -> p_parent (f q) <> p) ->
  p_state x = st -> p_pid x = p_pid (f p) -> p_parent x = p_parent (f p) ->
  ktab (fset f p x) n init (fset cpu c NULL).
Proof.
  intros [Hn Hu Hb Hi Hp Ho Hin Hus Hc Hci Hr] Hcp Hpn Hst Hx Hpid Hpar.
  destruct (Hc c) as [Hrp Hrun]; [congruence|]. rewrite Hcp in Hrp, Hrun.
  assert (Hpu : p_pid (f p) <> 0) by (intros He; apply Hu in He; congruence).
  assert (Hxs : p_state x <> UNUSED /\ p_state x <> USED /\ p_state x <> RUNNING).
  { rewrite Hx. destruct Hst as [->|[->|[-> _]]]; done. }
  assert (Hsub : forall q, live (p_state (f q)) -> q <> p \/ st <> ZOMBIE ->
            live (p_state (fset f p x q))).
  { intros q Hq Hz. tab_case q; [|done]. rewrite Hx. destruct Hst as [->|[->|[-> _]]]; try done. naive_solver. }
  assert (Hzp : forall q, prange q -> p_parent (f q) <> p \/ st <> ZOMBIE).
  { intros q Hq. destruct Hst as [->|[->|(_ & _ & Hst)]]; [by right|by right|left; by apply Hst]. }
  assert (Hzi : init <> p \/ st <> ZOMBIE).
  { destruct Hst as [->|[->|(_ & Hst & _)]]; [by right|by right|left; congruence]. }
  destruct Hxs as (Hxu & Hxd & Hxr).
  split; [done|..].
  - intros q Hq. tab_case q; [|by apply Hu]. rewrite Hpid. by split.
  - intros q Hq. tab_case q; [rewrite Hpid|]; by apply Hb.
  - intros q r Hq Hr'. tab_case q; tab_case r; rewrite ?Hpid; [done|by apply Hi|by apply Hi|by apply Hi].
  - intros q Hq. tab_case q.
    + rewrite Hpar. intros _ Hni. destruct (Hp p Hq) as (H1 & H2 & H3); [congruence|done|].
      split; [done|]. split; [apply Hsub; auto|done].
    + intros Hs Hni. destruct (Hp q Hq Hs Hni) as (H1 & H2 & H3). split; [done|]. split; [apply Hsub; auto|done].
  - intros q Hq. tab_case q; [done|]. by apply Ho.
  - destruct Hin as (H1 & H2 & H3). split; [done|]. split; [by apply Hsub|]. tab_case init; [congruence|done].
  - intros q Hq. tab_case q; [done|]. by apply Hus.
  - intros d. tab_case d; [done|]. intros Hd. destruct (Hc d Hd) as [H1 H2]. split; [done|].
    rewrite fset_ne; [done|]. intros He. assert (d = c) by (apply Hci; congruence). done.
  - intros d e. tab_case d; [done|]. tab_case e; [done|]. by apply Hci.
  - intros q Hq. tab_case q; [done|]. intros Hs. destruct (Hr q Hq Hs) as [d Hd].
    exists d. rewrite fset_ne; [done|]. intros ->. congruence.
Qed.

(** * The operations *)

#[export] Hint Unfold pget pput : kwp.

(** A process structure after freeproc(). *)
Record freed (x x' : proc) : Prop := {
  fr_lock : p_lock x' = p_lock x;
  fr_state : p_state x' = UNUSED;
  fr_pid : p_pid x' = 0;
  fr_parent : p_parent x' = NULL;
  fr_killed : p_killed x' = 0;
}.

Section Ops.
Context `{Image} (proc_addr : Z -> Z) (forkret_addr : Z) (c : Z).

(** The state with another entry for [p] and other contents below the table. *)
Definition with_p (s : kern) (p : Z) (ft : ftab) (x : proc) : kern :=
  put_ft ft (put_procs (fset (kn_proc s) p x) s).

Lemma with_p_upd s p ft x f : upd_proc p f (with_p s p ft x) = with_p s p ft (f x).
Proof. unfold upd_proc, with_p, put_procs, put_ft. cbn. by rewrite fset_fset, fset_eq. Qed.
Lemma with_p_get s p ft x : kn_proc (with_p s p ft x) p = x.
Proof. cbn. apply fset_eq. Qed.
Lemma with_p_self s p : with_p s p (kn_ft s) (kn_proc s p) = s.
Proof. unfold with_p. rewrite fset_id. by destruct s. Qed.
Lemma with_p_ft s p ft ft' x : put_ft ft' (with_p s p ft x) = with_p s p ft' x.
Proof. done. Qed.

Lemma with_p_with_p s p ft x ft' x' : with_p (with_p s p ft x) p ft' x' = with_p s p ft' x'.
Proof. unfold with_p, put_procs, put_ft. cbn. by rewrite fset_fset. Qed.

Lemma freeproc_spec p s (Q : unit -> kern -> Prop) (R : kern -> Prop) :
  (forall ft x, freed (kn_proc s p) x -> Q tt (with_p s p ft x)) ->
  (forall ft x, p_lock x = p_lock (kn_proc s p) -> R (with_p s p ft x)) ->
  wlp (freeproc p) Q R s.
Proof.
  intros HQ HR.
  assert (Hk : forall A (m : M kst A) ft x Q',
    p_lock x = p_lock (kn_proc s p) ->
    (forall a ft', Q' a (with_p s p ft' x)) -> wlp (zoom kvm m) Q' R (with_p s p ft x)).
  { intros A m ft x Q' Hx HQ'. apply wlp_kvm; [intros; apply HQ'|intros; by apply HR]. }
  rewrite <- (with_p_self s p). unfold freeproc. wlp_steps. rewrite with_p_get.
  assert (Htail : forall ft x, p_lock x = p_lock (kn_proc s p) ->
    wlp (pput p (set_p_trapframe 0) ;;;
         let! pt := pget p_pagetable p in
         let! sz := pget p_sz p in
         (if negb (pt =? 0) then zoom kvm (proc_freepagetable pt sz) else ret tt) ;;;
         pput p (set_p_pagetable 0) ;;;
         pput p (set_p_sz 0) ;;;
         pput p (set_p_pid 0) ;;;
         pput p (set_p_parent NULL) ;;;
         pput p (fun x => set_p_name (zset 0 0 (p_name x)) x) ;;;
         pput p (set_p_chan 0) ;;;
         pput p (set_p_killed 0) ;;;
         pput p (set_p_xstate 0) ;;;
         pput p (set_p_state UNUSED)) Q R (with_p s p ft x)).
  { intros ft x Hx. wlp_steps. rewrite with_p_upd, with_p_get.
    destruct (negb _); [apply Hk; [done|]|apply wlp_ret]; intros; wlp_steps;
      rewrite !with_p_upd; by apply HQ. }
  destruct (negb _); [apply Hk; [done|]|apply wlp_ret]; intros; by apply Htail.
Qed.

Lemma allocpid_eq s :
  kn_pidlock s = false -> allocpid c s = Ok (kn_nextpid s) (put_nextpid (i32 (kn_nextpid s + 1)) s).
Proof.
  intros Hl. unfold allocpid, bind. rewrite acquire_eq by done. unfold gets, modify.
  rewrite release_eq by done. unfold ret. f_equal. destruct s. cbn in *. subst.
  unfold unlockd, lockd, put_nextpid, put_noff, put_pidlock. cbn. rewrite fset_fset, fset_eq. f_equal.
  replace (kn_noff c + 1 - 1) with (kn_noff c) by lia. apply fset_id.
Qed.

(** The state while [p] is allocated: a locked entry. *)
Definition with_new (s : kern) (p n : Z) (ft : ftab) (x : proc) : kern :=
  with_p (put_nextpid n (lockd c (plock p) s)) p ft x.

Lemma with_new_unlock s p n ft x :
  unlockd c (plock p) (with_new s p n ft x) = put_nextpid n (with_p s p ft (set_p_lock false x)).
Proof.
  destruct s. unfold unlockd, with_new, lockd, with_p, put_nextpid, put_ft, upd_proc, put_procs, put_noff. cbn.
  rewrite !fset_fset, !fset_eq. f_equal. replace (kn_noff c + 1 - 1) with (kn_noff c) by lia. apply fset_id.
Qed.

(** A new process: the entry of [p] but for its id and state. *)
Record fresh_proc (x x' : proc) (n : Z) : Prop := {
  fp_lock : p_lock x' = true;
  fp_state : p_state x' = USED;
  fp_pid : p_pid x' = n;
  fp_parent : p_parent x' = p_parent x;
  fp_killed : p_killed x' = p_killed x;
}.

Lemma allocproc_spec s (Q : Z -> kern -> Prop) (R : kern -> Prop) :
  unlocked s -> kn_pidlock s = false ->
  let n := kn_nextpid s in let n' := i32 (n + 1) in
  Q NULL s ->
  (forall p ft x, prange p -> p_state (kn_proc s p) = UNUSED -> freed (kn_proc s p) x ->
     Q NULL (put_nextpid n' (with_p s p ft x))) ->
  (forall p ft x, find (fun p => bool_decide (p_state (kn_proc s p) = UNUSED)) procs = Some p ->
     fresh_proc (kn_proc s p) x n -> Q p (with_new s p n' ft x)) ->
  (forall p ft x, prange p -> p_state (kn_proc s p) = UNUSED -> R (with_new s p n' ft x)) ->
  wlp (allocproc forkret_addr c) Q R s.
Proof.
  intros Hl Hpl n n' Hnone Hfail Hok HR. unfold allocproc. apply wlp_bind. unfold wlp at 1.
  rewrite (for_first_find (fun p => bool_decide (p_state (kn_proc s p) = UNUSED))).
  2,3: intros p; intros; assert (Hp : prange p) by (by apply elem_procs);
    unfold bind; rewrite acquire_eq by (cbn; by apply Hl);
    unfold pget, gets; cbn; rewrite fset_eq; cbn.
  2: { rewrite decide_False by (by eapply bool_decide_eq_false_1). rewrite release_eq by (cbn; by rewrite !fset_eq).
       unfold ret. rewrite unlock_lock_id; [done|by apply Hl]. }
  2: { by rewrite decide_True by (by eapply bool_decide_eq_true_1). }
  destruct (find _ procs) as [p|] eqn:Ef; [|by apply wlp_ret].
  destruct (find_procs _ _ Ef) as [Hp Hst%bool_decide_eq_true].
  unfold bind at 1. rewrite acquire_eq by (cbn; by apply Hl).
  unfold bind at 1, pget at 1, gets at 1. cbn [kn_proc lockd]. cbn. rewrite fset_eq. cbn.
  rewrite decide_True by done. unfold ret at 1. cbn. apply wlp_bind. unfold wlp at 1.
  rewrite allocpid_eq by done.
  change (put_nextpid _ (lockd c (plock p) s)) with (put_nextpid n' (lockd c (plock p) s)).
  set (s1 := put_nextpid n' (lockd c (plock p) s)).
  change (kn_nextpid (lockd c (plock p) s)) with n.
  rewrite <- (with_p_self s1 p).
  assert (Hx1 : kn_proc s1 p = set_p_lock true (kn_proc s p)) by (cbn; apply fset_eq).
  rewrite Hx1. wlp_steps. rewrite !with_p_upd.
  assert (Hk : forall A (m : M kst A) ft x Q',
    (forall a ft', Q' a (with_p s1 p ft' x)) -> wlp (zoom kvm m) Q' R (with_p s1 p ft x)).
  { intros A m ft x Q' HQ'. apply wlp_kvm; [intros; apply HQ'|intros; by apply HR]. }
  assert (Hfr : forall ft x, p_lock x = true ->
    wlp (freeproc p ;;; release_ c (plock p) ;;; ret NULL) Q R (with_p s1 p ft x)).
  { intros ft x Hx. wlp_step. apply freeproc_spec.
    - intros ft' x' Hx'. rewrite with_p_get in Hx'. wlp_step. apply wlp_release. intros _. wlp_step.
      rewrite with_p_with_p. change (with_p s1 p ft' x') with (with_new s p n' ft' x').
      rewrite with_new_unlock. apply Hfail; [done|done|]. destruct Hx'. split; cbn; [by rewrite Hl|done..].
    - intros ft' x' Hx'. rewrite with_p_with_p. by apply HR. }
  apply Hk. intros tf ft1. wlp_steps. rewrite with_p_upd.
  destruct (tf =? 0); [by apply Hfr|]. apply wlp_bind. unfold proc_pagetable. wlp_steps.
  apply Hk. intros pt ft2. wlp_steps. rewrite with_p_upd.
  destruct (pt =? 0); [by apply Hfr|]. wlp_steps. rewrite with_p_upd. apply Hok; [done|].
  by split.
Qed.

(** ** Locks and the invariant *)

Lemma quiet_with_p s p ft x : quiet s -> p_lock x = false -> quiet (with_p s p ft x).
Proof.
  intros [Hl Hp Hw Hn] Hx. split; [|done|done|done]. intros q Hq. cbn.
  destruct (fset_case (kn_proc s) p x q) as [[_ ->]|[_ ->]]; [done|by apply Hl].
Qed.

Lemma quiet_put s n cpu : quiet s -> quiet (put_nextpid n s) /\ quiet (put_cpu cpu s).
Proof. intros [Hl Hp Hw Hn]. by split; split. Qed.

Lemma wait_lock_upd s p f :
  kn_waitlock s = false -> unlockd c wait_lock (upd_proc p f (lockd c wait_lock s)) = upd_proc p f s.
Proof.
  intros Hw. destruct s. cbn in *. subst. unfold unlockd, lockd, upd_proc, put_procs, put_noff, put_waitlock. cbn.
  rewrite fset_fset, fset_eq. f_equal. replace (kn_noff c + 1 - 1) with (kn_noff c) by lia. apply fset_id.
Qed.

(** What must hold where the thread of [me] leaves for scheduler(). *)
Definition switch_ok (me : Z) (s : kern) : Prop :=
  p_lock (kn_proc s me) = true -> forall s', scheduler_leave c me s = Ok tt s' -> pinv s'.

Lemma switch_unlocked me s : p_lock (kn_proc s me) = false -> switch_ok me s.
Proof. intros Hl Hl'. congruence. Qed.

Lemma leave_eq s me ft x :
  p_lock x = true ->
  scheduler_leave c me (with_p (lockd c (plock me) s) me ft x) =
  Ok tt (put_cpu (fset (kn_cpu s) c NULL) (with_p s me ft (set_p_lock false x))).
Proof.
  intros Hx. unfold scheduler_leave, bind, modify. rewrite release_eq by (cbn; by rewrite fset_eq).
  f_equal. destruct s. unfold unlockd, lockd, with_p, put_ft, upd_proc, put_procs, put_noff, put_cpu. cbn.
  rewrite !fset_fset, !fset_eq. f_equal. replace (kn_noff c + 1 - 1) with (kn_noff c) by lia. apply fset_id.
Qed.

(** The running process goes to sleep, yields or dies. *)
Lemma switch_leave s ft x st :
  pinv s -> kn_cpu s c <> NULL ->
  st = SLEEPING \/ st = RUNNABLE \/
    (st = ZOMBIE /\ kn_cpu s c <> kn_initproc s /\
     forall q, prange q -> p_parent (kn_proc s q) <> kn_cpu s c) ->
  p_state x = st -> p_pid x = p_pid (kn_proc s (kn_cpu s c)) ->
  p_parent x = p_parent (kn_proc s (kn_cpu s c)) ->
  switch_ok (kn_cpu s c) (with_p (lockd c (plock (kn_cpu s c)) s) (kn_cpu s c) ft x).
Proof.
  intros [Hq Ht] Hc Hst Hx Hpid Hpar Hl s'. rewrite with_p_get in Hl. rewrite leave_eq by done.
  intros [= <-]. split.
  - apply (quiet_put _ 0), quiet_with_p; done.
  - cbn. by apply (ktab_leave _ _ _ _ _ _ _ st).
Qed.

(** The rest of sched(), p->lock held. *)
Lemma sched_spec s (Q : unit -> kern -> Prop) R :
  (p_lock (kn_proc s (kn_cpu s c)) = true -> kn_noff s c = 1 ->
   p_state (kn_proc s (kn_cpu s c)) <> RUNNING -> R s) ->
  wlp (sched c) Q R s.
Proof.
  intros HR. unfold sched, myproc. wlp_steps. destruct (p_lock _) eqn:E1; [|done]. cbn [negb].
  wlp_steps. destruct (Z.eqb_spec (kn_noff s c) 1) as [E2|]; [|done]. cbn [negb]. wlp_steps.
  destruct (decide _) as [|E3]; [done|]. wlp_steps. unfold intr_get_. rewrite E2. cbn. by apply HR.
Qed.

Lemma cpu_lock s : pinv s -> kn_cpu s c <> NULL -> p_lock (kn_proc s (kn_cpu s c)) = false.
Proof. intros [Hq Ht] Hc. by apply Hq, (kt_cpu _ _ _ _ Ht). Qed.

Lemma yield_spec s (Q : unit -> kern -> Prop) :
  pinv s -> kn_cpu s c <> NULL -> wlp (yield c) Q (switch_ok (kn_cpu s c)) s.
Proof.
  intros Hk Hc. unfold yield, myproc. wlp_steps. apply wlp_acquire. intros _. wlp_steps.
  apply sched_spec. intros _ _ _.
  replace (upd_proc _ _ _) with (with_p (lockd c (plock (kn_cpu s c)) s) (kn_cpu s c) (kn_ft s)
    (set_p_state RUNNABLE (set_p_lock true (kn_proc s (kn_cpu s c))))).
  - apply (switch_leave s _ _ RUNNABLE); try done. by right; left.
  - unfold with_p, upd_proc. cbn. by rewrite fset_eq.
Qed.

(** ** Sleeping *)

(** A lock that is not a process's own. *)
Record outer_lock (L : lens kern bool) : Prop := {
  ol_procs : forall b f s, lset L b (put_procs f s) = put_procs f (lset L b s);
  ol_noff : forall b f s, lset L b (put_noff f s) = put_noff f (lset L b s);
  ol_proc : forall b s, kn_proc (lset L b s) = kn_proc s;
  ol_depth : forall b s, kn_noff (lset L b s) = kn_noff s;
  ol_cpu : forall b s, kn_cpu (lset L b s) = kn_cpu s;
  ol_pinv : forall s, pinv s -> pinv (lset L false (lset L true s));
}.

Lemma outer_wait : outer_lock wait_lock.
Proof. split; try done. intros s [[] Ht]. by split; [split|]. Qed.
Lemma outer_ticks : outer_lock tickslock.
Proof. split; try done. intros s [[] Ht]. by split; [split|]. Qed.

(** A lock of a component below the process table. *)
Definition below (l : lens ftab bool) : lens kern bool :=
  mkLens (fun s => lget l (kn_ft s)) (fun b s => put_ft (lset l b (kn_ft s)) s).
Lemma outer_below l : outer_lock (below l).
Proof. split; try done. intros s [[] Ht]. by split; [split|]. Qed.

(** sleep() lets the lock go when p->lock is held. *)
Lemma unlock_under L p s :
  outer_lock L ->
  unlockd c L (lockd c (plock p) (lockd c L s)) = lockd c (plock p) (lset L false (lset L true s)).
Proof.
  intros [Hp Hn Hgp Hgn Hgc _]. unfold unlockd, lockd. cbn [lset plock]. unfold upd_proc.
  cbn [kn_proc kn_noff put_noff put_procs]. rewrite !Hn, !Hp, !Hn, !Hgn, !Hgp. cbn [kn_noff put_noff kn_proc put_procs].
  destruct (lset L false (lset L true s)) eqn:E.
  assert (E1 : kn_noff = Proc.kn_noff s) by (by rewrite <- (Hgn true s), <- (Hgn false), E).
  assert (E2 : kn_proc = Proc.kn_proc s) by (by rewrite <- (Hgp true s), <- (Hgp false), E).
  unfold put_noff, put_procs. cbn. rewrite <- E1, <- E2, !fset_fset, !fset_eq. f_equal.
  f_equal. lia.
Qed.

Lemma sleep_spec chan L s (Q : unit -> kern -> Prop) :
  outer_lock L -> pinv s -> kn_cpu s c <> NULL ->
  wlp (sleep c chan L) Q (switch_ok (kn_cpu s c)) (lockd c L s).
Proof.
  intros HL Hk Hc. set (me := kn_cpu s c). set (s0 := lset L false (lset L true s)).
  assert (Hcpu : kn_cpu s0 c = me) by (unfold s0; by rewrite !(ol_cpu _ HL)).
  assert (Hproc : kn_proc s0 = kn_proc s) by (unfold s0; by rewrite !(ol_proc _ HL)).
  unfold sleep, myproc. wlp_steps.
  replace (kn_cpu (lockd c L s) c) with me by (unfold lockd; cbn; by rewrite (ol_cpu _ HL)).
  apply wlp_acquire. intros _. wlp_step. apply wlp_release. intros _. rewrite unlock_under by done.
  fold s0. wlp_steps. apply sched_spec. intros _ _ _.
  rewrite <- (with_p_self (lockd c (plock me) s0) me), !with_p_upd, <- Hcpu.
  apply (switch_leave s0 _ _ SLEEPING); rewrite ?Hcpu; [by apply (ol_pinv _ HL)|done|by left|done|..];
    cbn; by rewrite fset_eq.
Qed.

Lemma acquire_sleep_spec chan L s (Q : unit -> kern -> Prop) R :
  outer_lock L -> pinv s -> kn_cpu s c <> NULL ->
  (forall s', switch_ok (kn_cpu s c) s' -> R s') ->
  wlp (acquire_ c L ;;; sleep c chan L) Q R s.
Proof.
  intros HL Hk Hc HR. wlp_step. apply wlp_acquire. intros _.
  eapply wlp_mono; [by apply sleep_spec|done|done].
Qed.

(** ** fork() *)

Lemma pinv_next_fork s p ft x :
  pinv s -> kn_cpu s c <> NULL -> kn_nextpid s + 1 < 2 ^ 31 ->
  prange p -> p_state (kn_proc s p) = UNUSED ->
  p_lock x = false -> p_state x = RUNNABLE -> p_pid x = kn_nextpid s -> p_parent x = kn_cpu s c ->
  pinv (put_nextpid (i32 (kn_nextpid s + 1)) (with_p s p ft x)).
Proof.
  intros [Hq Ht] Hc Hn Hp Hu Hl Hs Hi Hpar. split.
  - apply (quiet_put _ _ (fun _ => 0)). by apply quiet_with_p.
  - cbn. pose proof (kt_next _ _ _ _ Ht). rewrite i32_small by lia.
    destruct (kt_cpu _ _ _ _ Ht c Hc) as [Hr Hrun].
    apply (ktab_fork _ _ _ _ (kn_cpu s c)); try done. by rewrite Hrun.
Qed.

Lemma ktab_next f n n' init cpu : ktab f n init cpu -> n <= n' -> ktab f n' init cpu.
Proof.
  intros [Hn Hu Hb Hi Hp Ho Hin Hus Hc Hci Hr] Hle. split; try done; [lia|].
  intros p Hp'. specialize (Hb p Hp'). lia.
Qed.

Lemma freed_soft f n init cpu p x :
  ktab f n init cpu -> prange p -> p_state (f p) = UNUSED -> freed (f p) x -> soft (f p) x.
Proof.
  intros Ht Hp Hu [H1 H2 H3 H4 _]. split.
  - rewrite H3. symmetry. by apply (kt_unused _ _ _ _ Ht).
  - rewrite H4. symmetry. by apply (kt_orphan _ _ _ _ Ht).
  - left. congruence.
Qed.

(** An allocation that was undone. *)
Lemma pinv_undone s p ft x :
  pinv s -> kn_nextpid s + 1 < 2 ^ 31 -> prange p -> p_state (kn_proc s p) = UNUSED ->
  freed (kn_proc s p) x -> pinv (put_nextpid (i32 (kn_nextpid s + 1)) (with_p s p ft x)).
Proof.
  intros [Hq Ht] Hn Hp Hu Hf. split.
  - apply (quiet_put _ _ (fun _ => 0)). apply quiet_with_p; [done|]. rewrite (fr_lock _ _ Hf). by apply Hq.
  - cbn. pose proof (kt_next _ _ _ _ Ht). rewrite i32_small by lia.
    apply (ktab_next _ (kn_nextpid s)); [|lia]. eapply ktab_soft; [done|]. intros q Hq'.
    destruct (fset_case (kn_proc s) p x q) as [[-> ->]|[_ ->]]; [|apply soft_refl].
    by eapply freed_soft.
Qed.

(** The last part of fork(), the child unlocked. *)
Lemma fork_tail s np ft x (pid : Z) R :
  pinv s -> kn_cpu s c <> NULL -> kn_nextpid s + 1 < 2 ^ 31 ->
  prange np -> p_state (kn_proc s np) = UNUSED -> p_lock x = false -> p_pid x = kn_nextpid s ->
  wlp (acquire_ c wait_lock ;;;
       pput np (set_p_parent (kn_cpu s c)) ;;;
       release_ c wait_lock ;;;
       acquire_ c (plock np) ;;;
       pput np (set_p_state RUNNABLE) ;;;
       release_ c (plock np) ;;;
       ret pid) (fun _ s' => pinv s') R (put_nextpid (i32 (kn_nextpid s + 1)) (with_p s np ft x)).
Proof.
  intros Hk Hc Hn Hp Hu Hx Hpid. set (s1 := put_nextpid _ _).
  assert (Hs1 : kn_proc s1 np = x) by (cbn; apply fset_eq).
  wlp_step. apply wlp_acquire. intros Hw. wlp_steps. apply wlp_release. intros _.
  rewrite wait_lock_upd by done. wlp_step. apply wlp_acquire. intros _. wlp_steps.
  apply wlp_release. intros _. wlp_step. rewrite unlock_lock_p by (cbn; by rewrite ?fset_eq).
  replace (upd_proc _ _ _) with (put_nextpid (i32 (kn_nextpid s + 1))
    (with_p s np ft (set_p_state RUNNABLE (set_p_parent (kn_cpu s c) x)))).
  - by apply pinv_next_fork.
  - unfold upd_proc, s1, with_p, put_procs, put_ft, put_nextpid. cbn. by rewrite !fset_fset, !fset_eq.
Qed.

(** The child inherits the open files. *)
Lemma fork_fds s1 me np ft x (Q : unit -> kern -> Prop) (R : kern -> Prop) :
  (forall ft l, Q tt (with_p s1 np ft (set_p_ofile l x))) ->
  (forall ft x, R (with_p s1 np ft x)) ->
  wlp (for_each (seqZ 0 NOFILE) (fun i =>
        let! f := pget (fun x => zget (p_ofile x) i) me in
        if negb (f =? NULL) then
          let! f' := zoom kft (filedup f) in
          pput np (fun x => set_p_ofile (zset i f' (p_ofile x)) x)
        else ret tt)) Q R (with_p s1 np ft x).
Proof.
  intros HQ HR.
  apply (wlp_for_each (fun _ _ s' => exists ft l, s' = with_p s1 np ft (set_p_ofile l x))).
  - exists ft, (p_ofile x). by destruct x.
  - intros _ i _ s' _ (ft' & l & ->). wlp_steps. case_match; wlp_steps; [|by eexists _, _].
    apply wlp_kft; [|intros; by rewrite with_p_ft]. intros f' ft''. rewrite with_p_ft. wlp_steps.
    rewrite with_p_upd. cbn. by eexists _, _.
  - intros s' (ft' & l & ->). apply HQ.
Qed.

Lemma fork_spec s :
  pinv s -> kn_cpu s c <> NULL -> kn_nextpid s + 1 < 2 ^ 31 ->
  wlp (fork forkret_addr c) (fun _ s' => pinv s') (switch_ok (kn_cpu s c)) s.
Proof.
  intros Hk Hc Hn. pose proof (cpu_lock s Hk Hc) as Hlm. set (me := kn_cpu s c) in *.
  assert (Hru : p_state (kn_proc s me) = RUNNING) by (by apply (kt_cpu _ _ _ _ (proj2 Hk))).
  assert (HR : forall p n ft x, p_state (kn_proc s p) = UNUSED ->
            switch_ok me (with_new s p n ft x)).
  { intros p n ft x Hu. apply switch_unlocked. cbn. rewrite !fset_ne by (intros ->; congruence). done. }
  unfold fork, myproc. wlp_step. wlp_step. apply wlp_bind.
  apply allocproc_spec; [apply Hk|apply Hk|..].
  - apply wlp_ret. done.
  - intros p ft x Hp Hu Hf. apply wlp_ret. by apply pinv_undone.
  - intros p ft x Hfind Hx. destruct (find_procs _ _ Hfind) as [Hp Hu%bool_decide_eq_true_1].
    rewrite (proj2 (Z.eqb_neq _ _)) by (by apply prange_null).
    set (n' := i32 (kn_nextpid s + 1)). set (s1 := put_nextpid n' (lockd c (plock p) s)).
    assert (HR1 : forall ft x, switch_ok me (with_p s1 p ft x)) by (intros; by apply HR).
    assert (Hpn : p_lock (kn_proc s p) = false) by (by apply Hk).
    wlp_steps. apply wlp_kvm; [|intros; apply HR1]. intros r ft1. change (put_ft ft1 _) with (with_p s1 p ft1 x).
    destruct (r <? 0).
    { wlp_step. apply freeproc_spec; [|intros; rewrite with_p_with_p; apply HR1].
      intros ft2 x2 Hx2. rewrite with_p_get in Hx2. rewrite with_p_with_p. wlp_step. apply wlp_release.
      intros _. wlp_step. change (with_p s1 p ft2 x2) with (with_new s p n' ft2 x2).
      rewrite with_new_unlock. apply pinv_undone; [done..|]. destruct Hx2. split; cbn; congruence. }
    wlp_steps. rewrite with_p_upd. apply wlp_kvm; [|intros; apply HR1]. intros _ ft2. rewrite with_p_ft.
    wlp_step. unfold tf_put. wlp_steps. apply wlp_kvm; [|intros; apply HR1]. intros _ ft3. rewrite with_p_ft.
    wlp_step. apply fork_fds; [|apply HR1]. intros ft4 l. wlp_steps.
    apply wlp_kfs; [|intros; apply HR1]. intros cwd ft5. rewrite with_p_ft. wlp_steps. rewrite !with_p_upd.
    apply wlp_release. intros _. change (with_p s1 p) with (with_new s p n'). rewrite with_new_unlock.
    apply fork_tail; try done. cbn. apply Hx.
  - intros p ft x Hp Hu. by apply HR.
Qed.

(** ** exit() *)

Lemma ktab_adopt f n init cpu p :
  ktab f n init cpu -> prange p -> p <> init -> ktab (fun q => adopt init p (f q)) n init cpu.
Proof.
  intros [Hn Hu Hb Hi Hp Ho Hin Hus Hc Hci Hr] Hrp Hpi.
  assert (Hpid : forall q, p_pid (adopt init p (f q)) = p_pid (f q)) by (intros; unfold adopt; by case_match).
  assert (Hst : forall q, p_state (adopt init p (f q)) = p_state (f q)) by (intros; unfold adopt; by case_match).
  assert (Hpar : forall q, p_parent (f q) = NULL -> p_parent (adopt init p (f q)) = NULL).
  { intros q Hq. unfold adopt. rewrite Hq, (proj2 (Z.eqb_neq _ _)); [done|]. intros <-.
    by apply prange_null in Hrp. }
  split; [done|..].
  - intros q Hq. rewrite Hpid, Hst. by apply Hu.
  - intros q Hq. rewrite Hpid. by apply Hb.
  - intros q r Hq Hr'. rewrite !Hpid. by apply Hi.
  - intros q Hq. rewrite !Hst. intros Hs Hni. unfold adopt. destruct (Z.eqb_spec (p_parent (f q)) p); [|by apply Hp].
    cbn. destruct Hin as (H1 & H2 & _). done.
  - intros q Hq. rewrite Hst. intros Hs. by apply Hpar, Ho.
  - destruct Hin as (H1 & H2 & H3). rewrite Hst. split; [done|]. split; [done|]. by apply Hpar.
  - intros q Hq. rewrite Hst. by apply Hus.
  - intros d Hd. rewrite Hst. by apply Hc.
  - done.
  - intros q Hq. rewrite Hst. by apply Hr.
Qed.

Lemma ktab_reparented f f' n init cpu me p :
  ktab f n init cpu -> prange p -> p <> init -> reparented me init p f f' ->
  ktab f' n init cpu /\ forall q, prange q -> p_parent (f' q) <> p.
Proof.
  intros Ht Hrp Hpi [_ _ Hw]. split.
  - eapply ktab_soft; [by apply (ktab_adopt f n init cpu p)|]. intros q Hq. by apply waked_soft, Hw.
  - intros q Hq. rewrite (so_parent _ _ (waked_soft _ _ (Hw q Hq))). unfold adopt.
    destruct (Z.eqb_spec (p_parent (f q)) p); cbn; congruence.
Qed.

(** The fields of the exiting process nobody else looks at. *)
Definition same_private (x x' : proc) : Prop :=
  p_lock x' = p_lock x /\ p_state x' = p_state x /\ p_pid x' = p_pid x /\ p_parent x' = p_parent x.

Lemma pinv_private s p ft x :
  pinv s -> prange p -> same_private (kn_proc s p) x -> pinv (with_p s p ft x).
Proof.
  intros [Hq Ht] Hp (H1 & H2 & H3 & H4). split.
  - apply quiet_with_p; [done|]. rewrite H1. by apply Hq.
  - cbn. eapply ktab_soft; [done|]. intros q Hq'.
    destruct (fset_case (kn_proc s) p x q) as [[-> ->]|[_ ->]]; [|apply soft_refl].
    split; [done|done|by left].
Qed.

Lemma exit_fds s me pid ft x (Q : unit -> kern -> Prop) (R : kern -> Prop) :
  (forall ft l, Q tt (with_p s me ft (set_p_ofile l x))) ->
  (forall ft l, R (with_p s me ft (set_p_ofile l x))) ->
  wlp (for_each (seqZ 0 NOFILE) (fun fd =>
        let! f := pget (fun x => zget (p_ofile x) fd) me in
        if negb (f =? NULL) then
          zoom kft (fileclose pid f) ;;;
          pput me (fun x => set_p_ofile (zset fd NULL (p_ofile x)) x)
        else ret tt)) Q R (with_p s me ft x).
Proof.
  intros HQ HR.
  apply (wlp_for_each (fun _ _ s' => exists ft l, s' = with_p s me ft (set_p_ofile l x))).
  - exists ft, (p_ofile x). by destruct x.
  - intros _ i _ s' _ (ft' & l & ->). wlp_steps. case_match; wlp_steps; [|by eexists _, _].
    apply wlp_kft; [|intros; by rewrite with_p_ft]. intros _ ft''. rewrite with_p_ft. wlp_steps.
    rewrite with_p_upd. cbn. by eexists _, _.
  - intros s' (ft' & l & ->). apply HQ.
Qed.

(** wakeup() keeps a reparented table one. *)
Lemma reparented_wakeup me init p f f' chan :
  reparented me init p f f' ->
  reparented me init p f (fun q => if decide (q ∈ procs) then woken me chan q (f' q) else f' q).
Proof.
  intros [Ho Hm Ht]. split.
  - intros q Hq. rewrite decide_False by (by rewrite elem_procs). by apply Ho.
  - intros Hme. rewrite decide_True by (by apply elem_procs). rewrite woken_me. by apply Hm.
  - intros q Hq. rewrite decide_True by (by apply elem_procs).
    eapply waked_trans; [by apply Ht|apply woken_waked].
Qed.

Lemma reparented_unlocked me init p s f :
  unlocked s -> reparented me init p (kn_proc s) f -> unlocked (put_procs f s).
Proof.
  intros Hl [_ _ Ht] q Hq. cbn. rewrite (waked_lock _ _ (Ht q Hq)), adopt_lock. by apply Hl.
Qed.

(** Where exit() of the running process leaves for scheduler(): its children
    are with init, its parent is not asleep in wait(), it is a zombie. *)
Record exited (status : Z) (s s1 : kern) (f : Z -> proc) (x : proc) : Prop := {
  ex_rp : reparented (kn_cpu s c) (kn_initproc s) (kn_cpu s c) (kn_proc s) f;
  ex_par : let par := p_parent (f (kn_cpu s c)) in
    prange par -> par <> kn_cpu s c ->
    ~ (p_state (f par) = SLEEPING /\ p_chan (f par) = chan_of proc_addr par);
  ex_state : p_state x = ZOMBIE;
  ex_xstate : p_xstate x = status;
  ex_pid : p_pid x = p_pid (f (kn_cpu s c));
  ex_parent : p_parent x = p_parent (f (kn_cpu s c));
  ex_eq : exists ft, s1 = with_p (lockd c (plock (kn_cpu s c)) (put_procs f s)) (kn_cpu s c) ft x;
}.

Lemma put_waitlock_id s : kn_waitlock s = false -> lset wait_lock false (lset wait_lock true s) = s.
Proof. intros Hw. destruct s. cbn in *. by subst. Qed.

(** exit() from the acquire() of wait_lock on. *)
Lemma exit_tail status s (Q : unit -> kern -> Prop) (R : kern -> Prop) :
  unlocked s -> kn_waitlock s = false -> prange (kn_cpu s c) ->
  (forall s1 f x, exited status s s1 f x -> R s1) ->
  wlp (acquire_ c wait_lock ;;;
       reparent proc_addr c (kn_cpu s c) ;;;
       let! par := pget p_parent (kn_cpu s c) in
       wakeup c (chan_of proc_addr par) ;;;
       acquire_ c (plock (kn_cpu s c)) ;;;
       pput (kn_cpu s c) (set_p_xstate status) ;;;
       pput (kn_cpu s c) (set_p_state ZOMBIE) ;;;
       release_ c wait_lock ;;;
       sched c ;;;
       panic "zombie exit") Q R s.
Proof.
  intros Hl Hw Hme HR. set (me := kn_cpu s c) in *.
  wlp_step. apply wlp_acquire. intros _. set (s1 := lockd c wait_lock s).
  destruct (reparent_spec c proc_addr me s1 Hl) as (f & He & Hrp).
  wlp_step. unfold wlp at 1. rewrite He. wlp_steps. unfold wlp at 1.
  change (kn_cpu s1 c) with me in Hrp. change (kn_initproc s1) with (kn_initproc s) in Hrp.
  rewrite wakeup_eq by (by eapply reparented_unlocked).
  set (ch := chan_of proc_addr _). set (s2 := put_procs _ _). set (f2 := kn_proc s2).
  assert (Hrp2 : reparented me (kn_initproc s) me (kn_proc s) f2) by (by apply reparented_wakeup).
  assert (Hf2 : f2 me = f me).
  { cbn. rewrite decide_True by (by apply elem_procs). apply woken_me. }
  wlp_step. apply wlp_acquire. intros _. wlp_steps. apply wlp_release. intros _.
  change (unlockd c wait_lock (upd_proc me ?g1 (upd_proc me ?g2 ?s)))
    with (upd_proc me g1 (upd_proc me g2 (unlockd c wait_lock s))).
  change s2 with (lockd c wait_lock (put_procs f2 s)).
  rewrite (unlock_under _ _ _ outer_wait), put_waitlock_id by done.
  wlp_step. apply sched_spec. intros _ _ _.
  rewrite <- (with_p_self (lockd c (plock me) (put_procs f2 s)) me), !with_p_upd.
  apply (HR _ f2 (set_p_state ZOMBIE (set_p_xstate status (kn_proc (lockd c (plock me) (put_procs f2 s)) me)))).
  split; [done| |done|done| | |by eexists].
  - fold me. rewrite Hf2. intros par Hp Hpm. unfold f2. cbn. rewrite decide_True by (by apply elem_procs).
    unfold woken. fold me. destruct (Z.eqb_spec par me) as [|_]; [done|].
    intros [H1 H2]. case_decide as Hd; [done|]. by apply Hd.
  - cbn. by rewrite fset_eq.
  - cbn. by rewrite fset_eq.
Qed.

(** Where exit() stops: inside the closing of a file, or as [exited] says. *)
Lemma exit_run status s (Q : unit -> kern -> Prop) :
  unlocked s -> kn_waitlock s = false -> prange (kn_cpu s c) ->
  wlp (exit proc_addr c status) Q
    (fun s1 => p_lock (kn_proc s1 (kn_cpu s c)) = false \/
       kn_cpu s c <> kn_initproc s /\
       exists ft x0 f x, same_private (kn_proc s (kn_cpu s c)) x0 /\
         exited status (with_p s (kn_cpu s c) ft x0) s1 f x) s.
Proof.
  intros Hl Hw Hme. pose proof (Hl _ Hme) as Hlm. set (me := kn_cpu s c) in *.
  unfold exit, myproc. wlp_steps. fold me. destruct (Z.eqb_spec me (kn_initproc s)) as [|Hi]; [done|].
  wlp_steps. generalize (p_pid (kn_proc s me)) as pid. intros pid.
  rewrite <- (with_p_self s me). apply exit_fds; [|intros ft l; left; by rewrite with_p_get].
  intros ft l. wlp_steps.
  apply wlp_kfs; [|intros ft'; left; rewrite with_p_ft; by rewrite with_p_get].
  intros _ ft'. rewrite with_p_ft. do 2 wlp_step. rewrite with_p_upd.
  apply (exit_tail status (with_p s me ft' _)); [|done|done|].
  - intros q Hq. cbn. destruct (fset_case (kn_proc s) me (set_p_cwd NULL (set_p_ofile l (kn_proc s me))) q)
      as [[_ ->]|[_ ->]]; [done|by apply Hl].
  - intros s1 f x Hex. right. rewrite ?with_p_self. split; [done|]. eexists _, _, f, x. split; [|done]. done.
Qed.

Lemma exit_spec status s (Q : unit -> kern -> Prop) :
  pinv s -> kn_cpu s c <> NULL ->
  wlp (exit proc_addr c status) Q (switch_ok (kn_cpu s c)) s.
Proof.
  intros Hk Hc. assert (Hme : prange (kn_cpu s c)) by (by apply (kt_cpu _ _ _ _ (proj2 Hk))).
  eapply wlp_mono; [by apply (exit_run status s Q); [apply Hk|apply Hk|]|done|].
  intros s1 [Hs|(Hi & ft & x0 & f & x & Hx0 & [Hrp _ Hst _ Hpid Hpar (ft' & ->)])]; [by apply switch_unlocked|].
  set (s0 := with_p s (kn_cpu s c) ft x0) in *. assert (Hk0 : pinv s0) by (by apply pinv_private).
  destruct (ktab_reparented _ _ _ _ _ _ _ (proj2 Hk0) Hme Hi Hrp) as [Ht Hch].
  assert (Hk2 : pinv (put_procs f s0)).
  { split; [|done]. destruct Hk0 as [[] _]. split; try done. by eapply reparented_unlocked. }
  apply (switch_leave (put_procs f s0) _ _ ZOMBIE); [done|done| |done|done|done].
  right; right. done.
Qed.

(** ** wait() *)

Lemma pinv_reap s z ft x :
  pinv s -> prange z -> p_state (kn_proc s z) = ZOMBIE -> freed (kn_proc s z) x ->
  pinv (with_p s z ft x).
Proof.
  intros [Hq Ht] Hz Hs [H1 H2 H3 H4 _]. split.
  - apply quiet_with_p; [done|]. rewrite H1. by apply Hq.
  - by apply ktab_reap.
Qed.

Lemma wait_lock_id s : kn_waitlock s = false -> unlockd c wait_lock (lockd c wait_lock s) = s.
Proof.
  intros Hw. rewrite <- (upd_proc_id 0 (fun x => x) s) at 2 by done. rewrite <- wait_lock_upd by done.
  by rewrite upd_proc_id.
Qed.

Lemma with_p_lock_wait s p ft x :
  with_p (lockd c (plock p) (lockd c wait_lock s)) p ft x =
  lockd c wait_lock (with_p (lockd c (plock p) s) p ft x).
Proof.
  destruct s. unfold with_p, lockd, put_ft, put_procs, put_noff, upd_proc. cbn.
  by rewrite !fset_fset, !fset_eq.
Qed.

Lemma plock_with_p s p ft x :
  unlockd c (plock p) (with_p (lockd c (plock p) s) p ft x) = with_p s p ft (set_p_lock false x).
Proof.
  pose proof (with_new_unlock s p (kn_nextpid s) ft x) as He. unfold with_new in He.
  destruct s. cbn in *. apply He.
Qed.

Lemma reap_spec p addr pp s R :
  pinv s -> prange pp -> p_state (kn_proc s pp) = ZOMBIE ->
  (forall ft x, R (with_p (lockd c (plock pp) (lockd c wait_lock s)) pp ft x)) ->
  wlp (wait_reap c p addr pp) (fun _ s' => pinv s') R (lockd c (plock pp) (lockd c wait_lock s)).
Proof.
  intros Hk Hpp Hz HR. set (s1 := lockd c wait_lock s). set (s2 := lockd c (plock pp) s1).
  assert (Hw : kn_waitlock s = false) by apply Hk.
  assert (Hlp : p_lock (kn_proc s pp) = false) by (by apply Hk).
  assert (Hx2 : kn_proc s2 pp = set_p_lock true (kn_proc s pp)) by (cbn; apply fset_eq).
  assert (Hrest : forall v ft x, freed (kn_proc s2 pp) x \/ x = kn_proc s2 pp ->
    wlp (release_ c (plock pp) ;;; release_ c wait_lock ;;; ret v) (fun (_ : Z) s' => pinv s') R (with_p s2 pp ft x)).
  { intros v ft x Hx. wlp_step. apply wlp_release. intros _. unfold s2. rewrite plock_with_p.
    wlp_step. apply wlp_release. intros _. wlp_step. unfold s1.
    change (with_p (lockd c wait_lock s) pp ft ?y) with (lockd c wait_lock (with_p s pp ft y)).
    rewrite wait_lock_id by done. destruct Hx as [Hx| ->].
    - apply pinv_reap; [done..|]. destruct Hx. rewrite Hx2 in *. split; cbn; congruence.
    - rewrite Hx2. apply pinv_private; [done..|]. by split; cbn. }
  unfold wait_reap. wlp_steps. generalize (p_pid (kn_proc s2 pp)) as pid. intros pid.
  assert (Hcont : forall bad ft, wlp (if bad <? 0 then release_ c (plock pp) ;;; release_ c wait_lock ;;; ret (-1)
      else freeproc pp ;;; release_ c (plock pp) ;;; release_ c wait_lock ;;; ret pid)
      (fun _ s' => pinv s') R (with_p s2 pp ft (kn_proc s2 pp))).
  { intros bad ft. case_match; [apply Hrest; by right|]. wlp_step. apply freeproc_spec.
    - intros ft' x Hx. rewrite with_p_with_p. rewrite with_p_get in Hx. apply Hrest. by left.
    - intros ft' x Hx. rewrite with_p_with_p. apply HR. }
  destruct (addr =? 0).
  - apply wlp_ret. rewrite <- (with_p_self s2 pp) at 1. apply Hcont.
  - apply wlp_kvm; intros; (replace (put_ft v s2) with (with_p s2 pp v (kn_proc s2 pp))
      by (unfold with_p; by rewrite fset_id)); [apply Hcont|apply HR].
Qed.

Lemma killed_eq p s :
  p_lock (kn_proc s p) = false -> killed c p s = Ok (p_killed (kn_proc s p)) s.
Proof.
  intros Hl. unfold killed, bind, pget, gets. rewrite acquire_eq by done.
  rewrite release_eq by (cbn; by rewrite fset_eq). unfold ret. rewrite unlock_lock_id by done.
  cbn. by rewrite fset_eq.
Qed.

Lemma wait_round_spec addr s :
  pinv s -> kn_cpu s c <> NULL ->
  wlp (wait_round proc_addr c addr) (fun _ s' => pinv s') (switch_ok (kn_cpu s c)) (lockd c wait_lock s).
Proof.
  intros Hk Hc. pose proof (cpu_lock s Hk Hc) as Hlm.
  assert (Hru : p_state (kn_proc s (kn_cpu s c)) = RUNNING) by (by apply (kt_cpu _ _ _ _ (proj2 Hk))).
  unfold wait_round, myproc. wlp_step. wlp_step. apply wlp_bind. unfold wlp at 1.
  change (kn_cpu (lockd c wait_lock s) c) with (kn_cpu s c).
  rewrite wait_scan_eq by (intros pp Hpp%elem_procs; cbn; by apply Hk).
  destruct (find _ procs) as [pp|] eqn:Ef.
  - apply find_procs in Ef as [Hpp [_ Hz%bool_decide_eq_true_1]%andb_prop].
    change (wlp (let! v := wait_reap c (kn_cpu s c) addr pp in ret (inl v))
      (fun a s' => wlp (match a with inl v => ret v | inr havekids =>
           let! k := if havekids : bool then killed c (kn_cpu s c) else ret 0 in
           if negb havekids || negb (k =? 0) then release_ c wait_lock ;;; ret (-1)
           else sleep c (chan_of proc_addr (kn_cpu s c)) wait_lock ;;; ret 0 end)
         (fun _ s'' => pinv s'') (switch_ok (kn_cpu s c)) s') (switch_ok (kn_cpu s c))
      (lockd c (plock pp) (lockd c wait_lock s))).
    wlp_step. eapply wlp_mono; [apply (reap_spec _ _ _ _ (switch_ok (kn_cpu s c))); [done..|]|done|done].
    intros ft x. apply switch_unlocked. cbn. rewrite !fset_ne by (intros <-; cbn in Hz; congruence). done.
  - cbn [orb]. apply wlp_bind.
    assert (Hcont : forall k (hk : bool), wlp (if negb hk || negb (k =? 0) then release_ c wait_lock ;;; ret (-1)
           else sleep c (chan_of proc_addr (kn_cpu s c)) wait_lock ;;; ret 0)
         (fun _ s'' => pinv s'') (switch_ok (kn_cpu s c)) (lockd c wait_lock s)).
    { intros k hk. case_match; wlp_step.
      - apply wlp_release. intros _. wlp_step. rewrite wait_lock_id by apply Hk. done.
      - eapply wlp_mono; [by apply (sleep_spec _ _ s (fun _ _ => False) outer_wait)|done|done]. }
    destruct (existsb _ _); [|apply wlp_ret; apply Hcont]. unfold wlp at 1. rewrite killed_eq by done. apply Hcont.
Qed.

Lemma wait_spec addr s :
  pinv s -> kn_cpu s c <> NULL ->
  wlp (wait proc_addr c addr) (fun _ s' => pinv s') (switch_ok (kn_cpu s c)) s.
Proof.
  intros Hk Hc. unfold wait. wlp_step. apply wlp_acquire. intros _. by apply wait_round_spec.
Qed.
End Ops.
