(* ===== verification/ProcSteps.v ===== *)
(** The kernel as a transition system over the process table, and what its
    operations guarantee to processes. *)

From Stdlib Require Import FunctionalExtensionality.
From S2P Require Import Prelude Riscv CString Kalloc Vm Sleeplock Fields BlockCache Log Fs FsAlloc Pipe File Proc ProcInv ProcProps.

(** * Steps *)

(** What a process asks of the kernel. *)
Inductive kcall : Type :=
| CFork
| CExit (status : Z)
| CWait (addr : Z)
| CKill (pid : Z)
| CGrow (n : Z)
| CSetkilled (p : Z)
| CYield
| CSleep (chan : Z) (l : option (lens ftab bool)).   (** None: tickslock *)

(** Where a process goes on when it is given a CPU. *)
Inductive kresume : Type :=
| RYield
| RFork
| RWait (addr : Z)
| RSleep (l : option (lens ftab bool)).

Definition lock_of (l : option (lens ftab bool)) : lens kern bool :=
  match l with Some l => below l | None => tickslock end.

Lemma outer_lock_of l : outer_lock (lock_of l).
Proof. destruct l; [apply outer_below|apply outer_ticks]. Qed.

Section Steps.
Context `{Image} (proc_addr : Z -> Z) (forkret_addr : Z).

Definition run_call (c : Z) (op : kcall) : M kern unit :=
  match op with
  | CFork => let! _ := fork forkret_addr c in ret tt
  | CExit status => exit proc_addr c status
  | CWait addr => let! _ := wait proc_addr c addr in ret tt
  | CKill pid => let! _ := kill c pid in ret tt
  | CGrow n => let! _ := growproc c n in ret tt
  | CSetkilled p => setkilled c p
  | CYield => yield c
  | CSleep chan l => acquire_ c (lock_of l) ;;; sleep c chan (lock_of l)
  end.

Definition run_resume (c : Z) (r : kresume) : M kern unit :=
  match r with
  | RYield => yield_resume c
  | RFork => forkret c
  | RWait addr => let! _ := wait_resume proc_addr c addr in ret tt
  | RSleep l => sleep_resume c (lock_of l) ;;; release_ c (lock_of l)
  end.

(** CPU [c] runs a process, takes up a process, or handles an interrupt; below
    the process table anything may happen. *)
Inductive kstep : kern -> kern -> Prop :=
| ks_call c op s s' :
    kn_cpu s c <> NULL -> kn_nextpid s + 1 < 2 ^ 31 ->
    run_call c op s = Ok tt s' -> kstep s s'
| ks_call_stop c op s ch s1 s' :
    kn_cpu s c <> NULL -> kn_nextpid s + 1 < 2 ^ 31 ->
    run_call c op s = Block ch s1 -> scheduler_leave c (kn_cpu s c) s1 = Ok tt s' -> kstep s s'
| ks_resume c p r s s1 s' :
    kn_cpu s c = NULL -> prange p -> scheduler_pick c p s = Ok true s1 ->
    run_resume c r s1 = Ok tt s' -> kstep s s'
| ks_resume_stop c p r s s1 ch s2 s' :
    kn_cpu s c = NULL -> prange p -> scheduler_pick c p s = Ok true s1 ->
    run_resume c r s1 = Block ch s2 -> scheduler_leave c p s2 = Ok tt s' -> kstep s s'
| ks_skip c p s s1 s' :
    kn_cpu s c = NULL -> prange p -> scheduler_pick c p s = Ok false s1 ->
    release_ c (plock p) s1 = Ok tt s' -> kstep s s'
| ks_wakeup c chan s s' : wakeup c chan s = Ok tt s' -> kstep s s'
| ks_below ft s : kstep s (put_ft ft s).

(** * The invariant is kept *)

Lemma pinv_soft s f :
  pinv s -> (forall q, prange q -> p_lock (f q) = p_lock (kn_proc s q) /\ soft (kn_proc s q) (f q)) ->
  pinv (put_procs f s).
Proof.
  intros [[Hl Hp Hw Hn] Ht] Hs. split.
  - split; try done. intros q Hq. cbn. rewrite (proj1 (Hs q Hq)). by apply Hl.
  - cbn. eapply ktab_soft; [done|]. intros q Hq. by apply Hs.
Qed.

Lemma pinv_upd_soft s p f :
  pinv s -> p_lock (f (kn_proc s p)) = p_lock (kn_proc s p) -> soft (kn_proc s p) (f (kn_proc s p)) ->
  pinv (upd_proc p f s).
Proof.
  intros Hk Hl Hs. apply pinv_soft; [done|]. intros q Hq.
  destruct (fset_case (kn_proc s) p (f (kn_proc s p)) q) as [[-> ->]|[_ ->]]; [done|].
  split; [done|apply soft_refl].
Qed.

Lemma pinv_wakeup c chan s s' : pinv s -> wakeup c chan s = Ok tt s' -> pinv s'.
Proof.
  intros Hk. rewrite wakeup_eq by apply Hk. intros [= <-]. apply pinv_soft; [done|]. intros q Hq.
  rewrite decide_True by (by apply elem_procs).
  pose proof (woken_waked (kn_cpu s c) chan q (kn_proc s q)) as Hw.
  split; [by apply waked_lock|by apply waked_soft].
Qed.

Lemma pinv_kill c pid s a s' : pinv s -> kill c pid s = Ok a s' -> pinv s'.
Proof.
  intros Hk. rewrite kill_eq by apply Hk. destruct (find _ _) as [p|]; intros [= _ <-]; [|done].
  unfold kill_upd. cbn. apply pinv_upd_soft; [done|by case_match|]. cbn. destruct (decide _).
  - split; [done|done|by right].
  - split; [done|done|by left].
Qed.

Lemma pinv_put_ft s ft : pinv s -> pinv (put_ft ft s).
Proof. intros [[] Ht]. by split; [split|]. Qed.

Lemma grow_spec c n s :
  pinv s -> kn_cpu s c <> NULL ->
  wlp (growproc c n) (fun _ s' => pinv s') (switch_ok c (kn_cpu s c)) s.
Proof.
  intros Hk Hc. pose proof (cpu_lock c s Hk Hc) as Hlm. unfold growproc, myproc. wlp_steps.
  assert (HR : forall ft, switch_ok c (kn_cpu s c) (put_ft ft s)) by (intros; by apply switch_unlocked).
  assert (Hsz : forall ft sz, pinv (upd_proc (kn_cpu s c) (set_p_sz sz) (put_ft ft s))).
  { intros ft sz. apply pinv_upd_soft; [by apply pinv_put_ft|done|]. split; [done|done|by left]. }
  assert (Hs : s = put_ft (kn_ft s) s) by (by destruct s).
  case_match; [|case_match]; wlp_steps.
  - apply wlp_kvm; [|apply HR]. intros sz ft. case_match; wlp_steps; [by apply pinv_put_ft|apply Hsz].
  - apply wlp_kvm; [|apply HR]. intros sz ft. wlp_steps. apply Hsz.
  - rewrite Hs. apply Hsz.
Qed.

Lemma pinv_setkilled c p s s' : pinv s -> setkilled c p s = Ok tt s' -> pinv s'.
Proof.
  intros Hk. apply (wlp_ok _ (fun _ s' => pinv s') (fun _ => True)). unfold setkilled. wlp_step.
  apply wlp_acquire. intros Hl. wlp_steps. apply wlp_release. intros _. rewrite unlock_lock_p by done.
  apply pinv_upd_soft; [done|done|]. split; [done|done|by left].
Qed.

Lemma call_spec c op s :
  pinv s -> kn_cpu s c <> NULL -> kn_nextpid s + 1 < 2 ^ 31 ->
  wlp (run_call c op) (fun _ s' => pinv s') (switch_ok c (kn_cpu s c)) s.
Proof.
  intros Hk Hc Hn.
  assert (Hret : forall A (m : M kern A), wlp m (fun _ s' => pinv s') (switch_ok c (kn_cpu s c)) s ->
    wlp (let! _ := m in ret tt) (fun _ s' => pinv s') (switch_ok c (kn_cpu s c)) s).
  { intros A m Hm. wlp_step. eapply wlp_mono; [done|done|done]. }
  destruct op; cbn [run_call].
  - by apply Hret, fork_spec.
  - by apply exit_spec.
  - by apply Hret, wait_spec.
  - apply Hret. unfold wlp. destruct (kill c pid s) eqn:E; [by eapply pinv_kill|done| |done].
    rewrite kill_eq in E by apply Hk. by case_match.
  - by apply Hret, grow_spec.
  - unfold wlp. destruct (setkilled c p s) as [[] s'| | |] eqn:E; [by eapply pinv_setkilled|done| |done].
    exfalso. unfold setkilled, bind in E. unfold acquire_, release_, acquire, release, bind, gets, modify, pput, panic in E.
    repeat case_match; discriminate.
  - by apply yield_spec.
  - by apply acquire_sleep_spec; [apply outer_lock_of|..].
Qed.

(** The state in which process [p] has just got CPU [c]. *)
Definition picked (c p : Z) (s : kern) : kern :=
  put_cpu (fset (kn_cpu s) c p) (upd_proc p (set_p_state RUNNING) s).

Lemma pick_eq c p s :
  p_lock (kn_proc s p) = false ->
  scheduler_pick c p s =
  if decide (p_state (kn_proc s p) = RUNNABLE) then Ok true (lockd c (plock p) (picked c p s))
  else Ok false (lockd c (plock p) s).
Proof.
  intros Hl. unfold scheduler_pick, bind. rewrite acquire_eq by done. unfold pget, gets.
  replace (p_state (kn_proc (lockd c (plock p) s) p)) with (p_state (kn_proc s p)) by (cbn; by rewrite fset_eq).
  case_decide; [|done]. unfold pput, modify, ret. f_equal. destruct s.
  unfold lockd, picked, upd_proc, put_procs, put_noff, put_cpu. cbn. by rewrite !fset_fset, !fset_eq.
Qed.

Lemma pinv_picked c p s :
  pinv s -> kn_cpu s c = NULL -> prange p -> p_state (kn_proc s p) = RUNNABLE -> pinv (picked c p s).
Proof.
  intros [[Hl Hp Hw Hn] Ht] Hc Hr Hs. split.
  - split; try done. intros q Hq. cbn.
    destruct (fset_case (kn_proc s) p (set_p_state RUNNING (kn_proc s p)) q) as [[-> ->]|[_ ->]]; by apply Hl.
  - cbn. by apply ktab_pick.
Qed.

Lemma unlock_id_L c L s : outer_lock L -> unlockd c L (lockd c L s) = lset L false (lset L true s).
Proof.
  intros [Hp Hn Hgp Hgn Hgc _]. unfold unlockd, lockd. cbn. rewrite !Hn, Hgn. cbn.
  destruct (lset L false (lset L true s)) eqn:E. unfold put_noff. cbn. f_equal.
  rewrite <- (Hgn true s), <- (Hgn false), E. cbn. rewrite fset_fset, fset_eq.
  replace (kn_noff c + 1 - 1) with (kn_noff c) by lia. apply fset_id.
Qed.

Lemma sleep_resume_spec c L s (Q : unit -> kern -> Prop) R :
  pinv s -> kn_cpu s c <> NULL -> outer_lock L ->
  (forall s', pinv s' -> kn_cpu s' c = kn_cpu s c -> Q tt (lockd c L s')) ->
  wlp (sleep_resume c L) Q R (lockd c (plock (kn_cpu s c)) s).
Proof.
  intros Hk Hc HL HQ. pose proof (cpu_lock c s Hk Hc) as Hlm. unfold sleep_resume, myproc. wlp_steps.
  change (kn_cpu (lockd _ _ s) c) with (kn_cpu s c).
  apply wlp_release. intros _. rewrite unlock_lock_p by done. apply wlp_acquire. intros _.
  apply HQ; [|done]. apply pinv_upd_soft; [done|done|]. split; [done|done|by left].
Qed.

Lemma resume_spec c r s :
  pinv s -> kn_cpu s c <> NULL ->
  wlp (run_resume c r) (fun _ s' => pinv s') (switch_ok c (kn_cpu s c)) (lockd c (plock (kn_cpu s c)) s).
Proof.
  intros Hk Hc. pose proof (cpu_lock c s Hk Hc) as Hlm. destruct r; cbn [run_resume].
  - unfold yield_resume, myproc. wlp_steps. apply wlp_release. intros _.
    change (kn_cpu (lockd _ _ s) c) with (kn_cpu s c). by rewrite unlock_lock_id.
  - unfold forkret, myproc. wlp_steps. apply wlp_release. intros _.
    change (kn_cpu (lockd _ _ s) c) with (kn_cpu s c). rewrite unlock_lock_id by done. wlp_steps.
    assert (Hk' : forall ft, pinv (put_ft ft (put_first 0 s))) by (intros; by destruct Hk as [[] ?]; split; [split|]).
    case_match; wlp_steps; [|done]. apply wlp_kfs; [intros; apply Hk'|]. intros ft. by apply switch_unlocked.
  - wlp_step. unfold wait_resume. wlp_step. apply sleep_resume_spec; [done|done|apply outer_wait|].
    intros s' Hk' Hc'. rewrite <- Hc'.
    eapply wlp_mono; [apply wait_round_spec; [done|by rewrite Hc']|done|done].
  - wlp_step. apply sleep_resume_spec; [done|done|apply outer_lock_of|]. intros s' Hk' Hc'.
    apply wlp_release. intros _. rewrite unlock_id_L by apply outer_lock_of. by apply (ol_pinv _ (outer_lock_of l)).
Qed.

Lemma switch_use c p s s' :
  switch_ok c p s -> scheduler_leave c p s = Ok tt s' -> pinv s'.
Proof.
  intros Hs He. apply Hs; [|done]. unfold scheduler_leave, bind, modify, release_, release, bind, gets, panic in He.
  cbn in He. by destruct (p_lock (kn_proc s p)).
Qed.

Lemma pinv_step s s' : pinv s -> kstep s s' -> pinv s'.
Proof.
  intros Hk Hs. destruct Hs as [c op s s' Hc Hn He|c op s ch s1 s' Hc Hn He Hl|c p r s s1 s' Hc Hp He Hr
    |c p r s s1 ch s2 s' Hc Hp He Hr Hl|c p s s1 s' Hc Hp He Hr|c chan s s' He|ft s].
  - by apply (wlp_ok _ _ _ _ _ _ (call_spec c op s Hk Hc Hn) He).
  - eapply switch_use; [|done]. by apply (wlp_block _ _ _ _ _ _ (call_spec c op s Hk Hc Hn) He).
  - rewrite pick_eq in He by (by apply Hk). case_decide as Hd; [|done]. injection He as <-.
    pose proof (resume_spec c r (picked c p s) (pinv_picked _ _ _ Hk Hc Hp Hd)) as Hrs.
    replace (kn_cpu (picked c p s) c) with p in Hrs by (cbn; by rewrite fset_eq).
    by apply (wlp_ok _ _ _ _ _ _ (Hrs (prange_null _ Hp)) Hr).
  - rewrite pick_eq in He by (by apply Hk). case_decide as Hd; [|done]. injection He as <-.
    pose proof (resume_spec c r (picked c p s) (pinv_picked _ _ _ Hk Hc Hp Hd)) as Hrs.
    replace (kn_cpu (picked c p s) c) with p in Hrs by (cbn; by rewrite fset_eq).
    eapply switch_use; [|done]. by apply (wlp_block _ _ _ _ _ _ (Hrs (prange_null _ Hp)) Hr).
  - rewrite pick_eq in He by (by apply Hk). case_decide as Hd; [done|]. injection He as <-.
    rewrite release_eq in Hr by (cbn; by rewrite fset_eq). injection Hr as <-.
    rewrite unlock_lock_id; [done|by apply Hk].
  - by eapply pinv_wakeup.
  - by apply pinv_put_ft.
Qed.

(** ** Boot *)

(** The kernel's data segment is zero, and nextpid one. *)
Record boot_state (s : kern) : Prop := {
  bt_proc : forall p, prange p -> kn_proc s p = empty_proc;
  bt_next : kn_nextpid s = 1;
  bt_cpu : forall c, kn_cpu s c = NULL;
  bt_noff : forall c, kn_noff s c = 0;
}.

(** A table with one process that can run. *)
Lemma ktab_first f p x :
  (forall q, prange q -> p_pid (f q) = 0 /\ p_state (f q) = UNUSED /\ p_parent (f q) = NULL) ->
  prange p -> p_pid x = 1 -> p_state x = RUNNABLE -> p_parent x = NULL ->
  ktab (fset f p x) 2 p (fun _ => NULL).
Proof.
  intros Hf Hp Hpid Hst Hpar. split; [done|..].
  - intros q Hq. destruct (Hf q Hq) as (H1 & H2 & H3). tab_case q; [|done]. split; congruence.
  - intros q Hq. destruct (Hf q Hq) as (H1 & H2 & H3). tab_case q; lia.
  - intros q r Hq Hr. destruct (Hf q Hq) as (H1 & _). destruct (Hf r Hr) as (H2 & _).
    tab_case q; tab_case r; congruence.
  - intros q Hq. destruct (Hf q Hq) as (H1 & H2 & H3). tab_case q; done.
  - intros q Hq. destruct (Hf q Hq) as (H1 & H2 & H3). tab_case q; congruence.
  - rewrite fset_eq. split; [done|]. split; [by rewrite Hst|done].
  - intros q Hq. destruct (Hf q Hq) as (H1 & H2 & H3). tab_case q; congruence.
  - done.
  - done.
  - intros q Hq. destruct (Hf q Hq) as (H1 & H2 & H3). tab_case q; congruence.
Qed.

Lemma procinit_eq s :
  exists f, procinit s = Ok tt (put_procs f (put_waitlock false (put_pidlock false s))) /\
  forall q, prange q -> f q = set_p_kstack (KSTACK q) (set_p_state UNUSED (set_p_lock false (kn_proc s q))).
Proof.
  unfold procinit. unfold bind at 1, modify at 1, bind at 1, modify at 1. cbn.
  rewrite (for_each_upd (fun q x => set_p_kstack (KSTACK q) (set_p_state UNUSED (set_p_lock false x)))).
  - eexists. split; [reflexivity|]. intros q Hq. cbv beta. by rewrite decide_True by (by apply elem_procs).
  - apply NoDup_procs.
  - intros p f Hp Hf. unfold pput, bind, modify, upd_proc. cbn. rewrite !fset_fset, !fset_eq.
    unfold put_procs. cbn. done.
Qed.

(** userinit() after allocproc(). *)
Lemma userinit_rest p s ft x (Q : unit -> kern -> Prop) (R : kern -> Prop) :
  (forall s', R s') ->
  (forall ft' x', p_state x' = RUNNABLE -> p_pid x' = p_pid x -> p_parent x' = p_parent x ->
     Q tt (unlockd 0 (plock p) (put_initproc p (with_p s p ft' x')))) ->
  wlp (modify (put_initproc p) ;;;
       let! pt := pget p_pagetable p in
       zoom kvm (uvmfirst pt initcode) ;;;
       pput p (set_p_sz PGSIZE) ;;;
       tf_put p epc 0 ;;;
       tf_put p sp PGSIZE ;;;
       pput p (fun x => set_p_name (safestrcpy_ (p_name x) (cstring "initcode")) x) ;;;
       let! me := myproc 0 in
       let! pid := pget p_pid me in
       let! cwd := pget p_cwd me in
       let! ip := zoom kfs (namei pid cwd (cstring "/")) in
       pput p (set_p_cwd ip) ;;;
       pput p (set_p_state RUNNABLE) ;;;
       release_ 0 (plock p)) Q R (with_p s p ft x).
Proof.
  intros HR HQ. unfold tf_put, myproc. do 2 wlp_step.
  change (put_initproc p (with_p s p ft x)) with (with_p (put_initproc p s) p ft x).
  wlp_steps. apply wlp_kvm; [|done]. intros _ ft1. rewrite with_p_ft. wlp_steps. rewrite with_p_upd.
  apply wlp_kvm; [|done]. intros _ ft2. rewrite with_p_ft. wlp_steps.
  apply wlp_kvm; [|done]. intros _ ft3. rewrite with_p_ft. wlp_steps. rewrite with_p_upd.
  apply wlp_kfs; [|done]. intros ip ft4. rewrite with_p_ft. wlp_steps. rewrite !with_p_upd.
  apply wlp_release. intros _. by apply (HQ ft4).
Qed.

Lemma userinit_spec s R :
  quiet s -> kn_nextpid s = 1 -> (forall c, kn_cpu s c = NULL) ->
  (forall q, prange q -> p_pid (kn_proc s q) = 0 /\ p_state (kn_proc s q) = UNUSED /\ p_parent (kn_proc s q) = NULL) ->
  (forall s', R s') ->
  wlp (userinit forkret_addr 0) (fun _ s' => prange (kn_initproc s') -> pinv s') R s.
Proof.
  intros Hq Hn Hcpu Hf HR. unfold userinit. wlp_step.
  apply allocproc_spec; [apply Hq|apply Hq|..|done].
  - rewrite <- (with_p_self s NULL). apply userinit_rest; [done|]. intros ft x _ _ _ Hp.
    by apply prange_null in Hp.
  - intros p ft x Hp Hu Hfr. rewrite <- (with_p_self (put_nextpid _ _) NULL). apply userinit_rest; [done|].
    intros ft' x' _ _ _ Hp'. by apply prange_null in Hp'.
  - intros p ft x [Hp _]%find_procs Hx. apply userinit_rest; [done|]. intros ft' x' Hst Hpid Hpar _.
    change (put_initproc p (with_p (put_nextpid ?n _) p ft' x')) with (with_new 0 (put_initproc p s) p n ft' x').
    rewrite with_new_unlock. split.
    + apply (quiet_put _ _ (fun _ => 0)). apply quiet_with_p; [|done]. destruct Hq. by split.
    + cbn. rewrite Hn. change (i32 (1 + 1)) with 2.
      replace (kn_cpu s) with (fun _ : Z => NULL) by (extensionality d; by rewrite Hcpu).
      apply ktab_first; [done|done|cbn|done|cbn].
      * rewrite Hpid, (fp_pid _ _ _ Hx). done.
      * rewrite Hpar, (fp_parent _ _ _ Hx). by apply Hf.
Qed.

Lemma pinv_boot s0 s1 :
  boot_state s0 ->
  (procinit ;;; userinit forkret_addr 0) s0 = Ok tt s1 -> prange (kn_initproc s1) -> pinv s1.
Proof.
  intros [Hp Hn Hc Hno] He Hi.
  destruct (procinit_eq s0) as (f & Hpi & Hf).
  set (s2 := put_procs f (put_waitlock false (put_pidlock false s0))) in *.
  assert (He' : userinit forkret_addr 0 s2 = Ok tt s1).
  { rewrite <- He. unfold bind. by rewrite Hpi. }
  assert (Hspec : wlp (userinit forkret_addr 0) (fun _ s' => prange (kn_initproc s') -> pinv s') (fun _ => True) s2).
  { apply userinit_spec; [|done|done| |done].
    - split; [|done|done|done]. intros q Hq. cbn. by rewrite Hf.
    - intros q Hq. cbn. rewrite Hf, Hp by done. done. }
  exact (wlp_ok _ _ _ _ _ _ Hspec He' Hi).
Qed.

(** C13. Whatever the processes on the CPUs do from boot on - fork, exit, wait,
    kill, grow, yield, sleep on any lock, and interrupts that wake them, in any
    interleaving, with every failure of an allocation - between operations the
    process table is consistent: the process ids in use are distinct and
    positive, an entry is free exactly when its id is 0, every process but the
    first has a parent that is neither free nor dead, a process is RUNNING
    exactly when one CPU runs it and no two CPUs run the same process, and no
    lock of the table is left held. *)
Theorem process_table_consistent s0 s1 s :
  boot_state s0 ->
  (procinit ;;; userinit forkret_addr 0) s0 = Ok tt s1 -> prange (kn_initproc s1) ->
  rtc kstep s1 s -> pinv s.
Proof.
  intros Hb He Hi Hrtc. pose proof (pinv_boot _ _ Hb He Hi) as Hk. clear Hb He Hi.
  induction Hrtc as [|x y z Hs _ IH]; [done|]. apply IH. by eapply pinv_step.
Qed.
End Steps.
