(* ===== verification/ProcLive.v ===== *)
(** What the process table guarantees to processes: scheduling, exit() and
    wait(), kill(). *)

From Stdlib Require Import FunctionalExtensionality.
From S2P Require Import Prelude Riscv CString Kalloc Vm Sleeplock Fields BlockCache Log Fs FsAlloc Pipe File Proc ProcInv ProcProps ProcSteps.

(** * Freeing a process does not sleep *)

Section NoBlock.
Context `{Image}.

Lemma nb_kfree pa : noblock (kfree pa).
Proof. unfold kfree, st64, upd_mem. noblock. Qed.
Hint Resolve nb_kfree : noblock.

Lemma nb_kalloc : noblock kalloc.
Proof. unfold kalloc, ld64, upd_mem. noblock. Qed.
Hint Resolve nb_kalloc : noblock.

Lemma nb_walk_loop levels pt va alloc : noblock (walk_loop levels pt va alloc).
Proof.
  revert pt. induction levels as [|l levels IH]; intros pt; cbn [walk_loop]; unfold ld64, st64, upd_mem; noblock.
Qed.
Hint Resolve nb_walk_loop : noblock.

Lemma nb_walk pt va alloc : noblock (walk pt va alloc).
Proof. unfold walk. noblock. Qed.
Hint Resolve nb_walk : noblock.

Lemma nb_uvmunmap pt va n b : noblock (uvmunmap pt va n b).
Proof. unfold uvmunmap, ld64, st64, upd_mem. noblock. Qed.
Hint Resolve nb_uvmunmap : noblock.

Lemma nb_freewalk d pt : noblock (freewalk d pt).
Proof. revert pt. induction d as [|d IH]; intros pt; [done|]. cbn [freewalk]. unfold ld64, st64, upd_mem. noblock. Qed.
Hint Resolve nb_freewalk : noblock.

Lemma nb_freeproc p : noblock (freeproc p).
Proof. unfold freeproc, proc_freepagetable, uvmfree, pget, pput. noblock. Qed.
End NoBlock.

Lemma wlp_noblock {S A} (m : M S A) (Q : A -> S -> Prop) R R' s :
  noblock m -> wlp m Q R s -> wlp m Q R' s.
Proof. unfold wlp. intros Hn. specialize (Hn s). destruct (m s) as [| |c s'|]; try done. by destruct (Hn c s'). Qed.

(** * exit() and wait() *)

Section ExitWait.
Context `{Image} (proc_addr : Z -> Z) (forkret_addr : Z).

(** wait() frees an exited child and returns its id. *)
Lemma reap_returns c p pp s R :
  unlocked s -> kn_waitlock s = false -> prange pp ->
  wlp (wait_reap c p 0 pp)
    (fun r s' => r = p_pid (kn_proc s pp) /\ exists ft x, freed (kn_proc s pp) x /\ s' = with_p s pp ft x)
    R (lockd c (plock pp) (lockd c wait_lock s)).
Proof.
  intros Hl Hw Hpp. set (s2 := lockd c (plock pp) (lockd c wait_lock s)).
  assert (Hx2 : kn_proc s2 pp = set_p_lock true (kn_proc s pp)) by (cbn; apply fset_eq).
  unfold wait_reap. wlp_steps. rewrite Hx2. cbn [p_pid set_p_lock]. change (0 =? 0) with true. cbn iota.
  wlp_steps. change (0 <? 0) with false. cbn iota.
  wlp_step. eapply wlp_noblock; [apply nb_freeproc|]. apply (freeproc_spec _ _ _ (fun _ => True)); [|done].
  intros ft x Hx. wlp_step. apply wlp_release. intros _. unfold s2. rewrite plock_with_p.
  wlp_step. apply wlp_release. intros _. wlp_step.
  change (with_p (lockd c wait_lock s) pp ft ?y) with (lockd c wait_lock (with_p s pp ft y)).
  rewrite wait_lock_id by done. split; [done|]. eexists _, _. split; [|done].
  destruct Hx as [H1 H2 H3 H4 H5]. rewrite Hx2 in *. split; cbn; [by rewrite Hl|done..].
Qed.

(** A process that waits and has an exited child. *)
Lemma wait_resume_reaps d q z s :
  pinv s -> kn_cpu s d = q -> prange q -> p_state (kn_proc s q) <> ZOMBIE ->
  prange z -> zombie_child s q z = true ->
  wlp (wait_resume proc_addr d 0)
    (fun r s' => exists z, prange z /\ zombie_child s q z = true /\
       r = p_pid (kn_proc s z) /\ p_state (kn_proc s' z) = UNUSED)
    (fun _ => False) (lockd d (plock q) s).
Proof.
  intros Hk Hd Hq Hnz Hz Hzc. assert (Hlq : p_lock (kn_proc s q) = false) by (by apply Hk).
  unfold wait_resume, sleep_resume, myproc. wlp_steps. change (kn_cpu (lockd _ _ s) d) with (kn_cpu s d).
  rewrite Hd. apply wlp_release. intros _. rewrite unlock_lock_p by done.
  apply wlp_acquire. intros _. set (s1 := upd_proc q (set_p_chan 0) s).
  assert (Hzs : forall r, zombie_child s1 q r = zombie_child s q r).
  { intros r. unfold zombie_child, child. cbn.
    destruct (fset_case (kn_proc s) q (set_p_chan 0 (kn_proc s q)) r) as [[-> ->]|[_ ->]]; done. }
  assert (Hl1 : unlocked s1).
  { intros r Hr. cbn. destruct (fset_case (kn_proc s) q (set_p_chan 0 (kn_proc s q)) r) as [[-> ->]|[_ ->]];
      [done|by apply Hk]. }
  unfold wait_round, myproc. do 2 wlp_step. apply wlp_bind. unfold wlp at 1.
  change (kn_cpu (lockd d wait_lock s1) d) with (kn_cpu s d). rewrite Hd.
  rewrite wait_scan_eq by (intros pp Hpp%elem_procs; by apply Hl1).
  destruct (find _ procs) as [z'|] eqn:Ef.
  - apply find_procs in Ef as [Hpp Hz']. change (zombie_child s1 q z' = true) in Hz'. rewrite Hzs in Hz'.
    change (wlp (let! v := wait_reap d q 0 z' in ret (inl v))
      (fun a s' => wlp (match a with inl v => ret v | inr havekids =>
           let! k := if havekids : bool then killed d q else ret 0 in
           if negb havekids || negb (k =? 0) then release_ d wait_lock ;;; ret (-1)
           else sleep d (chan_of proc_addr q) wait_lock ;;; ret 0 end)
         (fun r s'' => exists z, prange z /\ zombie_child s q z = true /\
            r = p_pid (kn_proc s z) /\ p_state (kn_proc s'' z) = UNUSED) (fun _ => False) s') (fun _ => False)
      (lockd d (plock z') (lockd d wait_lock s1))).
    wlp_step. eapply wlp_mono; [apply (reap_returns d q z' s1 (fun _ => False)); [done|apply Hk|done]| |done].
    intros v s' [-> (ft & x & Hx & ->)]. do 2 apply wlp_ret. exists z'. split; [done|]. split; [done|].
    assert (Hne : z' <> q).
    { intros ->. apply andb_prop in Hz' as [_ Hz'%bool_decide_eq_true_1]. done. }
    cbn. rewrite fset_eq, fset_ne by done. split; [done|apply Hx].
  - exfalso. pose proof (find_procs_none _ z Ef Hz) as Hn. change (zombie_child s1 q z = false) in Hn.
    rewrite Hzs in Hn. congruence.
Qed.

(** The state in which an exiting process leaves the CPU. *)
Lemma exit_leaves c status s ch s1 s2 :
  let p := kn_cpu s c in let q := p_parent (kn_proc s p) in
  pinv s -> p <> NULL -> p_state (kn_proc s q) = SLEEPING -> p_chan (kn_proc s q) = chan_of proc_addr q ->
  exit proc_addr c status s = Block ch s1 -> scheduler_leave c p s1 = Ok tt s2 ->
  prange q /\ p_state (kn_proc s2 p) = ZOMBIE /\ p_xstate (kn_proc s2 p) = status /\
  p_parent (kn_proc s2 p) = q /\ p_state (kn_proc s2 q) = RUNNABLE.
Proof.
  intros p q Hk Hc Hsl Hch He Hle.
  destruct (kt_cpu _ _ _ _ (proj2 Hk) c Hc) as [Hp Hrun].
  pose proof (wlp_block _ (fun _ _ => True) _ _ _ _
    (exit_run proc_addr c status s (fun _ _ => True) (qt_lock _ (proj1 Hk)) (qt_wait _ (proj1 Hk)) Hp) He) as Hex.
  destruct Hex as [Hf|(Hi & ft & x0 & f & x & (Hx1 & Hx2 & Hx3 & Hx4) & [Hrp Hpar Hst Hxs Hpid Hxpar (ft' & ->)])].
  { exfalso. unfold scheduler_leave, bind, modify, release_, release, bind, gets, panic in Hle. cbn in Hle.
    fold p in Hf. by rewrite Hf in Hle. }
  destruct (kt_parent _ _ _ _ (proj2 Hk) p Hp) as (Hq & _ & Hqp); [by unfold p; rewrite Hrun|done|]. fold q in Hq, Hqp.
  change (kn_cpu (with_p s (kn_cpu s c) ft x0) c) with p in *.
  set (s0 := with_p s p ft x0) in *. change (kn_initproc s0) with (kn_initproc s) in Hrp.
  change (p_parent x0 = q) in Hx4.
  assert (Hlx : p_lock x = true).
  { destruct (p_lock x) eqn:E; [done|]. exfalso. unfold scheduler_leave, bind, modify, release_, release, bind, gets, panic in Hle.
    cbn in Hle. rewrite fset_eq, E in Hle. done. }
  change (kn_cpu s c) with p in Hle, Hrp, Hpar, Hxpar, Hpid. rewrite leave_eq in Hle by done. injection Hle as <-.
  assert (Hfp : f p = x0).
  { rewrite (rp_me _ _ _ _ _ Hrp Hp). unfold s0. cbn. rewrite fset_eq. unfold adopt. rewrite Hx4.
    by rewrite (proj2 (Z.eqb_neq _ _) Hqp). }
  cbn zeta in Hpar. rewrite Hfp, Hx4 in Hxpar, Hpar.
  cbn [kn_proc put_cpu with_p put_ft put_procs]. rewrite fset_eq, fset_ne by done. split; [done|].
  split; [done|]. split; [done|]. split; [done|].
  specialize (Hpar Hq Hqp).
  destruct (rp_tab _ _ _ _ _ Hrp q Hq) as [Hw|[_ ->]]; [|done]. exfalso. apply Hpar.
  rewrite Hw. unfold s0. cbn. rewrite fset_ne by done. unfold adopt. by case_match.
Qed.

End ExitWait.

(** * kill() *)

Lemma find_ext {A} (t t' : A -> bool) l : (forall x, x ∈ l -> t x = t' x) -> find t l = find t' l.
Proof.
  induction l as [|x l IH]; intros He; [done|]. cbn. rewrite (He x) by (by left).
  rewrite IH; [done|]. intros y Hy. apply He. by right.
Qed.

(** kill() of a process id in use marks exactly the process with that id,
    which is no longer asleep, and returns 0; of any other id but 0 it changes
    nothing and returns -1. *)
Theorem kill_marks_one c pid s :
  pinv s -> pid <> 0 ->
  match find (fun p => p_pid (kn_proc s p) =? pid) procs with
  | Some p =>
      exists s', kill c pid s = Ok 0 s' /\ p_pid (kn_proc s p) = pid /\
      (forall q, prange q -> p_pid (kn_proc s q) = pid -> q = p) /\
      p_killed (kn_proc s' p) = 1 /\ p_state (kn_proc s' p) <> SLEEPING /\
      (forall q, q <> p -> kn_proc s' q = kn_proc s q) /\ kn_ft s' = kn_ft s
  | None => kill c pid s = Ok (-1) s /\ forall q, prange q -> p_pid (kn_proc s q) <> pid
  end.
Proof.
  intros Hk Hne. pose proof (kill_eq c pid s (qt_lock _ (proj1 Hk))) as He.
  destruct (find _ _) as [p|] eqn:Ef.
  - apply find_procs in Ef as [Hp Hpid%Z.eqb_eq]. eexists. split; [done|]. split; [done|]. split.
    { intros q Hq Hqp. apply (kt_inj _ _ _ _ (proj2 Hk)); congruence. }
    cbn. rewrite fset_eq. unfold kill_upd. cbn.
    destruct (decide (p_state (kn_proc s p) = SLEEPING)); (split; [done|]; split; [done|]; split; [|done]);
      intros q Hq; by rewrite fset_ne.
  - split; [done|]. intros q Hq. pose proof (find_procs_none _ q Ef Hq) as Hn. by apply Z.eqb_neq in Hn.
Qed.

(** kill(0) does not fail: it marks the first free entry of the table as
    killed, and the next process allocated gets the mark: it dies as soon as it
    is to return to user space. *)
Theorem kill_zero_dooms_next_process `{Image} forkret_addr c d s p :
  pinv s -> prange p -> p_state (kn_proc s p) = UNUSED ->
  exists s1, kill c 0 s = Ok 0 s1 /\
  wlp (allocproc forkret_addr d) (fun r s2 => r <> NULL -> p_killed (kn_proc s2 r) = 1) (fun _ => True) s1.
Proof.
  intros Hk Hp Hu. assert (Hl : unlocked s) by apply Hk.
  assert (Hfind : find (fun p => p_pid (kn_proc s p) =? 0) procs =
                  find (fun p => bool_decide (p_state (kn_proc s p) = UNUSED)) procs).
  { apply find_ext. intros q Hq%elem_procs. destruct (kt_unused _ _ _ _ (proj2 Hk) q Hq) as [H1 H2].
    destruct (Z.eqb_spec (p_pid (kn_proc s q)) 0); case_bool_decide; naive_solver. }
  rewrite kill_eq by done. destruct (find _ procs) as [z|] eqn:Ef.
  2: { exfalso. pose proof (find_procs_none _ p Ef Hp) as Hn. apply Z.eqb_neq in Hn. by apply Hn, (kt_unused _ _ _ _ (proj2 Hk)). }
  eexists. split; [done|]. symmetry in Hfind. pose proof (find_procs _ _ Hfind) as [Hz Hzu%bool_decide_eq_true_1].
  set (s1 := upd_proc z kill_upd s).
  assert (Hs1 : kn_proc s1 z = set_p_killed 1 (kn_proc s z)).
  { cbn. rewrite fset_eq. unfold kill_upd. cbn. by rewrite decide_False by congruence. }
  assert (Hf1 : find (fun p => bool_decide (p_state (kn_proc s1 p) = UNUSED)) procs = Some z).
  { rewrite <- Hfind. apply find_ext. intros q Hq. destruct (decide (q = z)) as [->|Hne]; [by rewrite Hs1|].
    cbn. by rewrite fset_ne by done. }
  apply allocproc_spec; [|apply Hk|done|done| |done].
  - intros q Hq. destruct (decide (q = z)) as [->|Hne]; [rewrite Hs1; by apply Hl|].
    cbn. rewrite fset_ne by done. by apply Hl.
  - intros q ft x Hq Hx _. rewrite Hf1 in Hq. injection Hq as <-. cbn. rewrite fset_eq.
    rewrite (fp_killed _ _ _ Hx), Hs1. done.
Qed.

(** * The scheduler *)

Section Fair.
Context (c : Z) (run : Z -> M kern unit).

(** A round of scheduler() with the processes it chose. *)
Inductive sched_run : list Z -> kern -> list Z -> kern -> Prop :=
| sr_nil s : sched_run [] s [] s
| sr_run p l s s1 s2 s3 ps s' :
    scheduler_pick c p s = Ok true s1 -> run p s1 = Ok tt s2 -> scheduler_leave c p s2 = Ok tt s3 ->
    sched_run l s3 ps s' -> sched_run (p :: l) s (p :: ps) s'
| sr_skip p l s s1 s2 ps s' :
    scheduler_pick c p s = Ok false s1 -> release_ c (plock p) s1 = Ok tt s2 ->
    sched_run l s2 ps s' -> sched_run (p :: l) s ps s'.

Lemma sched_run_eq l s ps s' :
  sched_run l s ps s' -> for_each l (scheduler_proc c run) s = Ok tt s'.
Proof.
  induction 1 as [|p l s s1 s2 s3 ps s' E1 E2 E3 _ IH|p l s s1 s2 ps s' E1 E2 _ IH]; [done|..];
    cbn [for_each]; unfold bind, scheduler_proc, bind; rewrite E1, E2; [rewrite E3|]; exact IH.
Qed.

(** The chosen process comes back with its lock held; it has not taken another
    process's lock, nor made a process that can run one that cannot. *)
Definition comes_back : Prop := forall p s,
  prange p -> p_lock (kn_proc s p) = true ->
  (forall q, prange q -> q <> p -> p_lock (kn_proc s q) = false) ->
  exists s', run p s = Ok tt s' /\ p_lock (kn_proc s' p) = true /\
  forall q, prange q -> q <> p -> p_lock (kn_proc s' q) = false /\
    (p_state (kn_proc s q) = RUNNABLE -> p_state (kn_proc s' q) = RUNNABLE).

Lemma sched_run_fair l s :
  comes_back -> NoDup l -> (forall p, p ∈ l -> prange p) -> unlocked s ->
  exists ps s', sched_run l s ps s' /\ ps `sublist_of` l /\ unlocked s' /\
    forall p, p ∈ l -> p_state (kn_proc s p) = RUNNABLE -> p ∈ ps.
Proof.
  intros Hrun. revert s. induction l as [|p l IH]; intros s Hnd Hin Hl.
  { exists [], s. split; [constructor|]. split; [done|]. split; [done|]. by intros p ?%elem_of_nil. }
  apply NoDup_cons in Hnd as [Hpl Hnd].
  assert (Hp : prange p) by (apply Hin; by left).
  assert (IH' : forall s, unlocked s -> exists ps s', sched_run l s ps s' /\ ps `sublist_of` l /\ unlocked s' /\
     forall q, q ∈ l -> p_state (kn_proc s q) = RUNNABLE -> q ∈ ps).
  { intros s' Hl'. apply IH; [done| |done]. intros q Hq. apply Hin. by right. }
  pose proof (pick_eq c p s (Hl p Hp)) as Hpick. destruct (decide (p_state (kn_proc s p) = RUNNABLE)) as [Hr|Hr].
  - set (s1 := lockd c (plock p) (picked c p s)) in *.
    assert (Hs1 : forall q, q <> p -> kn_proc s1 q = kn_proc s q) by (intros q Hq; cbn; by rewrite !fset_ne).
    destruct (Hrun p s1 Hp) as (s2 & E2 & Hl2 & Ho); [cbn; by rewrite fset_eq| |].
    { intros q Hq Hne. rewrite Hs1 by done. by apply Hl. }
    set (s3 := unlockd c (plock p) (put_cpu (fset (kn_cpu s2) c NULL) s2)).
    assert (E3 : scheduler_leave c p s2 = Ok tt s3).
    { unfold scheduler_leave, bind, modify. by rewrite release_eq. }
    assert (Hs3 : forall q, q <> p -> kn_proc s3 q = kn_proc s2 q) by (intros q Hq; cbn; by rewrite !fset_ne).
    destruct (IH' s3) as (ps & s' & Hps & Hsub & Hls & Hall).
    { intros q Hq. destruct (decide (q = p)) as [->|Hne]; [cbn; by rewrite fset_eq|].
      rewrite Hs3 by done. by apply Ho. }
    exists (p :: ps), s'. split; [by eapply sr_run|]. split; [by apply sublist_skip|]. split; [done|].
    intros q [->|Hq]%elem_of_cons Hqr; [by left|]. right. apply Hall; [done|].
    assert (q <> p) by (by intros ->). rewrite Hs3 by done. apply Ho; [apply Hin; by right|done|]. by rewrite Hs1.
  - destruct (IH' s Hl) as (ps & s' & Hps & Hsub & Hls & Hall).
    exists ps, s'. split.
    + eapply sr_skip; [done| |done]. rewrite release_eq by (cbn; by rewrite fset_eq).
      rewrite unlock_lock_id by (by apply Hl). done.
    + split; [by apply sublist_cons|]. split; [done|]. intros q [->|Hq]%elem_of_cons Hqr; [done|by apply Hall].
Qed.

End Fair.
