(* ===== verification/ProcWitness.v ===== *)
(** Concrete runs of the process table. *)

From Stdlib Require Import FunctionalExtensionality.
From S2P Require Import Prelude Riscv CString Kalloc Vm Sleeplock Fields BlockCache Log Fs FsAlloc Pipe File Proc ProcInv ProcProps ProcSteps ProcLive.

Module ProcDemo.
#[local] Existing Instance demo_image.

Definition addr (p : Z) : Z := 0x80010000 + 360 * p.
Definition forkret_at : Z := 0x80001000.

(** Sixteen free pages. *)
Fixpoint link_pages (n : nat) (m : mem) : mem :=
  match n with
  | O => m
  | S k => store64 (link_pages k m) (demo_page (Z.of_nat k)) (demo_page (Z.of_nat k + 1))
  end.
Definition vm0 : kst := mkKst (link_pages 15 (fun _ => 0)) (demo_page 0) false.

Definition fs0 : fsys :=
  mkFsys (mkLg false 2 31 0 0 0 (replicate 30 0) (mkBcache (mkDisk AllocDemo.V0 []) ∅) [])
    AllocDemo.sb0 false (fun _ => AllocDemo.no_inode) [] vm0 [].
Definition ft0 : ftab :=
  mkFtab false (fun _ => mkFile FD_NONE 0 0 0 0 0 0 0) (fun _ => new_pipe []) fs0 [].
Definition boot0 : kern :=
  mkKern ft0 (fun _ => empty_proc) 1 false false NULL (fun _ => NULL) (fun _ => 0) 1 false 0.

Definition boot1 : kern := run_st boot0 ((procinit ;;; userinit forkret_at 0) boot0).

Lemma boot_ok : run_val ((procinit ;;; userinit forkret_at 0) boot0) = Some tt.
Proof. vm_compute. reflexivity. Qed.

Lemma boot1_eq : (procinit ;;; userinit forkret_at 0) boot0 = Ok tt boot1.
Proof. unfold boot1. exact (run_eq boot0 _ tt boot_ok). Qed.

(** The first process gets CPU 2 and kills itself. *)
Definition boot2 : kern := run_st boot0 (scheduler_pick 2 0 boot1).
Definition boot3 : kern := run_st boot0 (run_resume addr 2 RYield boot2).
Definition boot4 : kern := run_st boot0 (run_call addr forkret_at 2 (CKill 1) boot3).

Lemma pick_ok : run_val (scheduler_pick 2 0 boot1) = Some true.
Proof. vm_compute. reflexivity. Qed.
Lemma resume_ok : run_val (run_resume addr 2 RYield boot2) = Some tt.
Proof. vm_compute. reflexivity. Qed.
Lemma kill_ok : run_val (run_call addr forkret_at 2 (CKill 1) boot3) = Some tt.
Proof. vm_compute. reflexivity. Qed.

Lemma boot_steps : rtc (kstep addr forkret_at) boot1 boot4.
Proof.
  apply (rtc_l _ _ boot3).
  - apply (ks_resume _ _ 2 0 RYield boot1 boot2 boot3); [vm_compute; reflexivity|done|..].
    + unfold boot2. exact (run_eq boot0 (scheduler_pick 2 0 boot1) true pick_ok).
    + unfold boot3. exact (run_eq boot0 (run_resume addr 2 RYield boot2) tt resume_ok).
  - apply rtc_once. apply (ks_call _ _ 2 (CKill 1) boot3 boot4).
    + vm_compute. done.
    + vm_compute. done.
    + unfold boot4. exact (run_eq boot0 (run_call addr forkret_at 2 (CKill 1) boot3) tt kill_ok).
Qed.

(** ** A process that exits while its parent waits *)

Definition entry (st : procstate) (pid parent : Z) : proc :=
  mkProc false st 0 0 0 pid parent 0 0 0 0 (mkContext 0 0 []) (replicate 16 NULL) 3 (replicate 16 0).
Definition tab1 : Z -> proc := fset (fun _ => empty_proc) 0 (entry RUNNABLE 1 NULL).
Definition tab2 : Z -> proc := fset tab1 0 (entry RUNNING 1 NULL).
Definition tab3 : Z -> proc := fset tab2 1 (entry RUNNABLE 2 0).
Definition tab4 : Z -> proc := fset tab3 0 (set_p_chan (addr 0) (entry SLEEPING 1 NULL)).
Definition tab5 : Z -> proc := fset tab4 1 (entry RUNNING 2 0).
Definition cpus1 : Z -> Z := fset (fun _ => NULL) 1 0.
Definition cpus2 : Z -> Z := fset cpus1 1 NULL.
Definition cpus3 : Z -> Z := fset cpus2 0 1.

Definition fs5 : fsys := put_inodes (fun _ => mkInode 1 1 2 no_sleeplock 1 T_DIR 0 0 1 0 []) fs0.
Definition run5 : kern :=
  mkKern (mkFtab false (fun _ => mkFile FD_NONE 0 0 0 0 0 0 0) (fun _ => new_pipe []) fs5 [])
    tab5 3 false false 0 cpus3 (fun _ => 0) 0 false 0.

Lemma run5_inv : pinv run5.
Proof.
  split.
  - split; try done. intros p Hp. cbn. unfold tab5, tab4, tab3, tab2, tab1, fset.
    by repeat destruct (p =? _).
  - cbn. apply (ktab_pick tab4 3 0 cpus2); try done.
    apply (ktab_leave tab3 3 0 cpus1 1 0 _ SLEEPING); try done; [|by left].
    apply (ktab_fork tab2 2 0 cpus1 0); try done.
    apply (ktab_pick tab1 2 0 (fun _ => NULL)); try done.
    by apply ktab_first.
Qed.

Definition block_st {S A} (s0 : S) (r : res S A) : S := match r with Block _ s => s | _ => s0 end.
Definition blocks {S A} (r : res S A) : option Z := match r with Block c _ => Some c | _ => None end.
Lemma block_eq {S A} (s0 : S) (r : res S A) c : blocks r = Some c -> r = Block c (block_st s0 r).
Proof. destruct r; intros Hr; by inversion Hr. Qed.
Definition run6 : kern := block_st run5 (exit addr 0 7 run5).

Lemma exit_blocks : blocks (exit addr 0 7 run5) = Some 0.
Proof. vm_compute. reflexivity. Qed.
Lemma leave_ok : run_val (scheduler_leave 0 1 run6) = Some tt.
Proof. vm_compute. reflexivity. Qed.
Definition run7 : kern := run_st run5 (scheduler_leave 0 1 run6).
Lemma run6_eq : exit addr 0 7 run5 = Block 0 run6.
Proof. unfold run6. exact (block_eq run5 (exit addr 0 7 run5) 0 exit_blocks). Qed.
Lemma run7_eq : scheduler_leave 0 1 run6 = Ok tt run7.
Proof. unfold run7. exact (run_eq run5 (scheduler_leave 0 1 run6) tt leave_ok). Qed.
Lemma run7_inv : pinv run7.
Proof.
  apply (pinv_step addr forkret_at run5); [exact run5_inv|].
  apply (ks_call_stop _ _ 0 (CExit 7) run5 0 run6 run7); [discriminate|done|exact run6_eq|exact run7_eq].
Qed.
End ProcDemo.

Lemma process_table_consistent_witness : pinv ProcDemo.boot4.
Proof.
  apply (@process_table_consistent demo_image ProcDemo.addr ProcDemo.forkret_at ProcDemo.boot0 ProcDemo.boot1).
  - split; [done|done|done|done].
  - exact ProcDemo.boot1_eq.
  - vm_compute. split; [discriminate|reflexivity].
  - exact ProcDemo.boot_steps.
Defined.


Lemma kill_marks_one_witness :
  exists s', kill 0 1 ProcDemo.run5 = Ok 0 s' /\ p_killed (kn_proc s' 0) = 1 /\
    p_state (kn_proc s' 0) <> SLEEPING.
Proof.
  destruct (kill_marks_one 0 1 ProcDemo.run5 ProcDemo.run5_inv ltac:(discriminate))
    as (s' & H1 & _ & _ & H2 & H3 & _).
  exists s'. exact (conj H1 (conj H2 H3)).
Defined.

Lemma kill_zero_dooms_next_process_witness :
  exists s1, kill 0 0 ProcDemo.run5 = Ok 0 s1 /\
  wlp (@allocproc demo_image ProcDemo.forkret_at 0)
    (fun r s2 => r <> NULL -> p_killed (kn_proc s2 r) = 1) (fun _ => True) s1.
Proof.
  apply (@kill_zero_dooms_next_process demo_image ProcDemo.forkret_at 0 0 ProcDemo.run5 2 ProcDemo.run5_inv);
    [done|reflexivity].
Defined.

