(* ===== verification/Asm.v ===== *)
(** The assembly code: kernel/entry.S, kernel/swtch.S, kernel/trampoline.S and
    kernel/kernelvec.S.

    A routine is the list of its instructions; all of them are straight-line
    code that ends in a jump, a return or a call.  The state of a hart is its
    integer registers, its control and status registers ([hart], and sscratch,
    which only the trampoline uses), its privilege mode and memory.  Memory is
    physical; outside machine mode an address goes through the translation
    [tr], which depends on satp.  sfence.vma orders the page table with
    respect to accesses and has no effect on this state. *)

From S2P Require Import Prelude Riscv CString.

Module R.
Inductive gpr : Type :=
| zero | ra | sp | gp | tp | t0 | t1 | t2 | s0 | s1
| a0 | a1 | a2 | a3 | a4 | a5 | a6 | a7
| s2 | s3 | s4 | s5 | s6 | s7 | s8 | s9 | s10 | s11
| t3 | t4 | t5 | t6.
#[export] Instance gpr_eq_dec : EqDecision gpr.
Proof. solve_decision. Defined.
End R.
Export (hints) R.
Abbreviation gpr := R.gpr.

Inductive csr : Type :=
| Csr (r : reg)
| sscratch.

Inductive instr : Type :=
| Sd (rs : gpr) (off : Z) (base : gpr)
| Ld (rd : gpr) (off : Z) (base : gpr)
| Addi (rd rs : gpr) (imm : Z)
| Add (rd rs1 rs2 : gpr)
| Mul (rd rs1 rs2 : gpr)
| Li (rd : gpr) (imm : Z)
| La (rd : gpr) (sym : Z)
| Csrr (rd : gpr) (c : csr)
| Csrw (c : csr) (rs : gpr)
| Csrrw (rd : gpr) (c : csr) (rs : gpr)
| SfenceVma
| Jr (rs : gpr)
| Ret
| Sret
| Mret.

Record asmst : Type := mkAsm {
  as_x : gpr -> Z;
  as_csr : hart;
  as_sscratch : Z;
  as_priv : Z;          (** 0 user, 1 supervisor, 3 machine *)
  as_pc : Z;            (** where the routine went *)
  as_mem : mem;
}.

Definition set_x (r : gpr) (v : Z) (s : asmst) : asmst :=
  mkAsm (fun r' => if decide (r' = r) then (if decide (r = R.zero) then 0 else v) else as_x s r')
    (as_csr s) (as_sscratch s) (as_priv s) (as_pc s) (as_mem s).
Definition set_mem (m : mem) (s : asmst) : asmst :=
  mkAsm (as_x s) (as_csr s) (as_sscratch s) (as_priv s) (as_pc s) m.
Definition set_pc (pc priv : Z) (h : hart) (s : asmst) : asmst :=
  mkAsm (as_x s) h (as_sscratch s) priv pc (as_mem s).
Definition hset (r : reg) (v : Z) (h : hart) : hart := fun r' => if decide (r' = r) then v else h r'.
Definition get_csr (c : csr) (s : asmst) : Z :=
  match c with Csr r => as_csr s r | sscratch => as_sscratch s end.
Definition put_csr (c : csr) (v : Z) (s : asmst) : asmst :=
  match c with
  | Csr r => mkAsm (as_x s) (hset r v (as_csr s)) (as_sscratch s) (as_priv s) (as_pc s) (as_mem s)
  | sscratch => mkAsm (as_x s) (as_csr s) v (as_priv s) (as_pc s) (as_mem s)
  end.

(** Return from a trap: the interrupt enable bit [ie] gets the previous one
    [pie], which is set; [pp] is the field of the previous mode. *)
Definition trap_return (ie pie pp : Z) (v : Z) : Z :=
  let v' := Z.lor (Z.land v (Z.lnot (Z.lor ie pp))) pie in
  if Z.land v pie =? 0 then v' else Z.lor v' ie.
Definition MSTATUS_MPIE : Z := Z.shiftl 1 7.

Section Exec.
Context (tr : Z -> Z -> Z).

(** The physical address of [va]. *)
Definition phys (s : asmst) (va : Z) : Z :=
  if as_priv s =? 3 then va else tr (as_csr s SATP) va.
Definition eaddr (s : asmst) (base : gpr) (off : Z) : Z := phys s (u64 (as_x s base + off)).

Definition exec1 (i : instr) (s : asmst) : asmst :=
  match i with
  | Sd rs off base => set_mem (store64 (as_mem s) (eaddr s base off) (as_x s rs)) s
  | Ld rd off base => set_x rd (load64 (as_mem s) (eaddr s base off)) s
  | Addi rd rs imm => set_x rd (u64 (as_x s rs + imm)) s
  | Add rd rs1 rs2 => set_x rd (u64 (as_x s rs1 + as_x s rs2)) s
  | Mul rd rs1 rs2 => set_x rd (u64 (as_x s rs1 * as_x s rs2)) s
  | Li rd imm => set_x rd (u64 imm) s
  | La rd sym => set_x rd (u64 sym) s
  | Csrr rd c => set_x rd (get_csr c s) s
  | Csrw c rs => put_csr c (as_x s rs) s
  | Csrrw rd c rs => set_x rd (get_csr c s) (put_csr c (as_x s rs) s)
  | SfenceVma => s
  | Jr rs => set_pc (as_x s rs) (as_priv s) (as_csr s) s
  | Ret => set_pc (as_x s R.ra) (as_priv s) (as_csr s) s
  | Sret =>
      let v := as_csr s SSTATUS in
      set_pc (as_csr s SEPC) (if Z.land v SSTATUS_SPP =? 0 then 0 else 1)
        (hset SSTATUS (trap_return SSTATUS_SIE SSTATUS_SPIE SSTATUS_SPP v) (as_csr s)) s
  | Mret =>
      let v := as_csr s MSTATUS in
      set_pc (as_csr s MEPC) (Z.shiftr (Z.land v MSTATUS_MPP_MASK) 11)
        (hset MSTATUS (trap_return MSTATUS_MIE MSTATUS_MPIE MSTATUS_MPP_MASK v) (as_csr s)) s
  end.

Definition exec (p : list instr) (s : asmst) : asmst := fold_left (fun s i => exec1 i s) p s.
End Exec.

(** * kernel/entry.S *)

(** Up to the call of start(). *)
Definition _entry (stack0 : Z) : list instr :=
  [ (* set up a stack for C *)
    La R.sp stack0;
    Li R.a0 (1024 * 4);
    Csrr R.a1 (Csr MHARTID);
    Addi R.a1 R.a1 1;
    Mul R.a0 R.a0 R.a1;
    Add R.sp R.sp R.a0 ].

(** * kernel/swtch.S *)

Definition swtch : list instr :=
  [ Sd R.ra 0 R.a0; Sd R.sp 8 R.a0; Sd R.s0 16 R.a0; Sd R.s1 24 R.a0; Sd R.s2 32 R.a0;
    Sd R.s3 40 R.a0; Sd R.s4 48 R.a0; Sd R.s5 56 R.a0; Sd R.s6 64 R.a0; Sd R.s7 72 R.a0;
    Sd R.s8 80 R.a0; Sd R.s9 88 R.a0; Sd R.s10 96 R.a0; Sd R.s11 104 R.a0;

    Ld R.ra 0 R.a1; Ld R.sp 8 R.a1; Ld R.s0 16 R.a1; Ld R.s1 24 R.a1; Ld R.s2 32 R.a1;
    Ld R.s3 40 R.a1; Ld R.s4 48 R.a1; Ld R.s5 56 R.a1; Ld R.s6 64 R.a1; Ld R.s7 72 R.a1;
    Ld R.s8 80 R.a1; Ld R.s9 88 R.a1; Ld R.s10 96 R.a1; Ld R.s11 104 R.a1;

    Ret ].

(** * kernel/trampoline.S *)

Definition uservec : list instr :=
  [ (* save user a0 in sscratch so a0 can be used to get at TRAPFRAME *)
    Csrw sscratch R.a0;
    Li R.a0 TRAPFRAME;

    (* save the user registers in TRAPFRAME *)
    Sd R.ra 40 R.a0; Sd R.sp 48 R.a0; Sd R.gp 56 R.a0; Sd R.tp 64 R.a0; Sd R.t0 72 R.a0;
    Sd R.t1 80 R.a0; Sd R.t2 88 R.a0; Sd R.s0 96 R.a0; Sd R.s1 104 R.a0; Sd R.a1 120 R.a0;
    Sd R.a2 128 R.a0; Sd R.a3 136 R.a0; Sd R.a4 144 R.a0; Sd R.a5 152 R.a0; Sd R.a6 160 R.a0;
    Sd R.a7 168 R.a0; Sd R.s2 176 R.a0; Sd R.s3 184 R.a0; Sd R.s4 192 R.a0; Sd R.s5 200 R.a0;
    Sd R.s6 208 R.a0; Sd R.s7 216 R.a0; Sd R.s8 224 R.a0; Sd R.s9 232 R.a0; Sd R.s10 240 R.a0;
    Sd R.s11 248 R.a0; Sd R.t3 256 R.a0; Sd R.t4 264 R.a0; Sd R.t5 272 R.a0; Sd R.t6 280 R.a0;

    (* save the user a0 in p->trapframe->a0 *)
    Csrr R.t0 sscratch;
    Sd R.t0 112 R.a0;

    Ld R.sp 8 R.a0;     (* p->trapframe->kernel_sp *)
    Ld R.tp 32 R.a0;    (* p->trapframe->kernel_hartid *)
    Ld R.t0 16 R.a0;    (* p->trapframe->kernel_trap *)
    Ld R.t1 0 R.a0;     (* p->trapframe->kernel_satp *)
    SfenceVma;
    Csrw (Csr SATP) R.t1;
    SfenceVma;

    (* jump to usertrap(), which does not return *)
    Jr R.t0 ].

(** a0: user page table, for satp. *)
Definition userret : list instr :=
  [ (* switch to the user page table *)
    SfenceVma;
    Csrw (Csr SATP) R.a0;
    SfenceVma;

    Li R.a0 TRAPFRAME;

    (* restore all but a0 from TRAPFRAME *)
    Ld R.ra 40 R.a0; Ld R.sp 48 R.a0; Ld R.gp 56 R.a0; Ld R.tp 64 R.a0; Ld R.t0 72 R.a0;
    Ld R.t1 80 R.a0; Ld R.t2 88 R.a0; Ld R.s0 96 R.a0; Ld R.s1 104 R.a0; Ld R.a1 120 R.a0;
    Ld R.a2 128 R.a0; Ld R.a3 136 R.a0; Ld R.a4 144 R.a0; Ld R.a5 152 R.a0; Ld R.a6 160 R.a0;
    Ld R.a7 168 R.a0; Ld R.s2 176 R.a0; Ld R.s3 184 R.a0; Ld R.s4 192 R.a0; Ld R.s5 200 R.a0;
    Ld R.s6 208 R.a0; Ld R.s7 216 R.a0; Ld R.s8 224 R.a0; Ld R.s9 232 R.a0; Ld R.s10 240 R.a0;
    Ld R.s11 248 R.a0; Ld R.t3 256 R.a0; Ld R.t4 264 R.a0; Ld R.t5 272 R.a0; Ld R.t6 280 R.a0;

    (* restore user a0 *)
    Ld R.a0 112 R.a0;

    (* return to user mode and user pc *)
    Sret ].

(** * kernel/kernelvec.S *)

(** Up to the call of kerneltrap(). *)
Definition kernelvec_save : list instr :=
  [ (* make room to save registers *)
    Addi R.sp R.sp (-256);

    (* save the registers *)
    Sd R.ra 0 R.sp; Sd R.sp 8 R.sp; Sd R.gp 16 R.sp; Sd R.tp 24 R.sp; Sd R.t0 32 R.sp;
    Sd R.t1 40 R.sp; Sd R.t2 48 R.sp; Sd R.s0 56 R.sp; Sd R.s1 64 R.sp; Sd R.a0 72 R.sp;
    Sd R.a1 80 R.sp; Sd R.a2 88 R.sp; Sd R.a3 96 R.sp; Sd R.a4 104 R.sp; Sd R.a5 112 R.sp;
    Sd R.a6 120 R.sp; Sd R.a7 128 R.sp; Sd R.s2 136 R.sp; Sd R.s3 144 R.sp; Sd R.s4 152 R.sp;
    Sd R.s5 160 R.sp; Sd R.s6 168 R.sp; Sd R.s7 176 R.sp; Sd R.s8 184 R.sp; Sd R.s9 192 R.sp;
    Sd R.s10 200 R.sp; Sd R.s11 208 R.sp; Sd R.t3 216 R.sp; Sd R.t4 224 R.sp; Sd R.t5 232 R.sp;
    Sd R.t6 240 R.sp ].

(** From the return of kerneltrap() on. *)
Definition kernelvec_restore : list instr :=
  [ (* restore registers *)
    Ld R.ra 0 R.sp; Ld R.sp 8 R.sp; Ld R.gp 16 R.sp;
    (* not tp (contains hartid), in case we moved CPUs *)
    Ld R.t0 32 R.sp;
    Ld R.t1 40 R.sp; Ld R.t2 48 R.sp; Ld R.s0 56 R.sp; Ld R.s1 64 R.sp; Ld R.a0 72 R.sp;
    Ld R.a1 80 R.sp; Ld R.a2 88 R.sp; Ld R.a3 96 R.sp; Ld R.a4 104 R.sp; Ld R.a5 112 R.sp;
    Ld R.a6 120 R.sp; Ld R.a7 128 R.sp; Ld R.s2 136 R.sp; Ld R.s3 144 R.sp; Ld R.s4 152 R.sp;
    Ld R.s5 160 R.sp; Ld R.s6 168 R.sp; Ld R.s7 176 R.sp; Ld R.s8 184 R.sp; Ld R.s9 192 R.sp;
    Ld R.s10 200 R.sp; Ld R.s11 208 R.sp; Ld R.t3 216 R.sp; Ld R.t4 224 R.sp; Ld R.t5 232 R.sp;
    Ld R.t6 240 R.sp;

    Addi R.sp R.sp 256;

    (* return to whatever we were doing in the kernel *)
    Sret ].

Definition timervec : list instr :=
  [ Csrrw R.a0 (Csr MSCRATCH) R.a0;
    Sd R.a1 0 R.a0;
    Sd R.a2 8 R.a0;
    Sd R.a3 16 R.a0;

    (* schedule the next timer interrupt by adding interval to mtimecmp *)
    Ld R.a1 24 R.a0;    (* CLINT_MTIMECMP(hart) *)
    Ld R.a2 32 R.a0;    (* interval *)
    Ld R.a3 0 R.a1;
    Add R.a3 R.a3 R.a2;
    Sd R.a3 0 R.a1;

    (* arrange for a supervisor software interrupt *)
    Li R.a1 2;
    Csrw (Csr SIP) R.a1;

    Ld R.a3 16 R.a0;
    Ld R.a2 8 R.a0;
    Ld R.a1 0 R.a0;
    Csrrw R.a0 (Csr MSCRATCH) R.a0;

    Mret ].
