(* ===== verification/AsmProps.v ===== *)
(** What the assembly code promises: registers are saved and restored exactly,
    where the C code expects them. *)

From S2P Require Import Prelude Riscv CString Kalloc Vm Sleeplock Fields BlockCache Log Fs Pipe File Proc Asm.

(** * Runs of stores and loads *)

Abbreviation table := (list (gpr * Z)).
Definition stores (l : table) (base : gpr) : list instr := map (fun '(r, o) => Sd r o base) l.
Definition loads (l : table) (base : gpr) : list instr := map (fun '(r, o) => Ld r o base) l.

(** Offsets in increasing order, 8 bytes apart, below [hi]. *)
Fixpoint spaced (lo hi : Z) (l : table) : Prop :=
  match l with
  | [] => lo <= hi
  | (_, o) :: l' => lo <= o /\ spaced (o + 8) hi l'
  end.
Fixpoint spacedb (lo hi : Z) (l : table) : bool :=
  match l with
  | [] => lo <=? hi
  | (_, o) :: l' => (lo <=? o) && spacedb (o + 8) hi l'
  end.
Lemma spacedb_ok lo hi l : spacedb lo hi l = true -> spaced lo hi l.
Proof.
  revert lo. induction l as [|[r o] l IH]; intros lo; cbn; [lia|]. intros [H1 H2]%andb_true_iff.
  split; [lia|by apply IH].
Qed.

Lemma spaced_bound lo hi l r o : spaced lo hi l -> (r, o) ∈ l -> lo <= o /\ o + 8 <= hi.
Proof.
  revert lo. induction l as [|[r' o'] l IH]; intros lo Hs Hin; [by apply elem_of_nil in Hin|].
  destruct Hs as [H1 H2]. apply elem_of_cons in Hin as [[= -> ->]|Hin].
  - split; [done|]. clear IH. revert o' H1 H2. induction l as [|[r1 o1] l IH]; intros o' H1 H2; cbn in H2; [lia|].
    destruct H2 as [H2 H3]. specialize (IH o1 ltac:(lia) H3). lia.
  - specialize (IH _ H2 Hin). lia.
Qed.

Section Runs.
Context (tr : Z -> Z -> Z).

Lemma exec_app p q s : exec tr (p ++ q) s = exec tr q (exec tr p s).
Proof. apply fold_left_app. Qed.

(** The bytes from [base] on are those from the physical address [pa] on. *)
Definition window (s : asmst) (base : gpr) (pa len : Z) : Prop :=
  forall o, 0 <= o -> o + 8 <= len -> eaddr tr s base o = pa + o.

Lemma window_mem s base pa len m : window s base pa len -> window (set_mem m s) base pa len.
Proof. done. Qed.

(** The state after a run of stores differs in memory only. *)
Lemma exec_stores l base s pa len :
  window s base pa len -> spaced 0 len l -> (forall r, is_u64 (as_x s r)) ->
  exists m, exec tr (stores l base) s = set_mem m s /\
    (forall r o, (r, o) ∈ l -> load64 m (pa + o) = as_x s r) /\
    (forall a, (forall r o, (r, o) ∈ l -> a + 8 <= pa + o \/ pa + o + 8 <= a) -> load64 m a = load64 (as_mem s) a) /\
    (forall x, ~ (pa <= x < pa + len) -> m x = as_mem s x).
Proof.
  intros Hw Hs Hu. cut (forall lo s1, 0 <= lo -> window s1 base pa len -> spaced lo len l -> as_x s1 = as_x s ->
    exists m, exec tr (stores l base) s1 = set_mem m s1 /\
    (forall r o, (r, o) ∈ l -> load64 m (pa + o) = as_x s r) /\
    (forall a, (forall r o, (r, o) ∈ l -> a + 8 <= pa + o \/ pa + o + 8 <= a) -> load64 m a = load64 (as_mem s1) a) /\
    (forall x, ~ (pa <= x < pa + len) -> m x = as_mem s1 x)).
  { intros Hc. by apply (Hc 0 s). }
  clear Hw Hs. induction l as [|[r o] l IH]; intros lo s1 Hlo Hw Hs Hx.
  { exists (as_mem s1). split; [by destruct s1|]. split; [by intros r o ?%elem_of_nil|done]. }
  destruct (spaced_bound lo len _ r o Hs) as [Hb1 Hb2]; [by left|]. destruct Hs as [H1 H2].
  set (s2 := set_mem (store64 (as_mem s1) (pa + o) (as_x s1 r)) s1).
  destruct (IH (o + 8) s2 ltac:(lia) Hw H2 Hx) as (m & Em & Hin & Hout & Hfr).
  exists m. split; [|split; [|split]].
  - change (exec tr (stores ((r, o) :: l) base) s1) with (exec tr (stores l base) (exec1 tr (Sd r o base) s1)).
    cbn [exec1]. rewrite Hw by lia. exact Em.
  - intros r' o' [[= -> ->]|Hin']%elem_of_cons; [|by apply Hin]. rewrite Hout.
    + cbn. rewrite load64_store64 by (rewrite Hx; apply Hu). by rewrite Hx.
    + intros r'' o'' Hin''. destruct (spaced_bound _ _ _ _ _ H2 Hin''). lia.
  - intros a Ha. rewrite Hout by (intros r' o' Hin'; apply (Ha r'); by right). cbn.
    apply load64_store64_ne. destruct (Ha r o); [by left|lia|lia].
  - intros x Hx'. rewrite Hfr by done. cbn. apply store64_other. lia.
Qed.

(** The state after a run of loads differs in the registers loaded; the base
    register may be loaded with the value it has. *)
Lemma exec_loads l base s pa len :
  window s base pa len -> (forall r o, (r, o) ∈ l -> 0 <= o /\ o + 8 <= len /\ r <> R.zero) ->
  (forall o, (base, o) ∈ l -> load64 (as_mem s) (pa + o) = as_x s base) -> NoDup l.*1 ->
  let s' := exec tr (loads l base) s in
  as_csr s' = as_csr s /\ as_sscratch s' = as_sscratch s /\ as_priv s' = as_priv s /\
  as_pc s' = as_pc s /\ as_mem s' = as_mem s /\
  (forall r o, (r, o) ∈ l -> as_x s' r = load64 (as_mem s) (pa + o)) /\
  (forall r, r ∉ l.*1 -> as_x s' r = as_x s r).
Proof.
  revert s. induction l as [|[r o] l IH]; intros s Hw Hr Hb Hnd s'.
  { split_and!; try done. by intros r o ?%elem_of_nil. }
  apply NoDup_cons in Hnd as [Hnr Hnd]. destruct (Hr r o) as (Ho & Hol & Hz); [by left|].
  set (s1 := exec1 tr (Ld r o base) s).
  assert (Es1 : s1 = set_x r (load64 (as_mem s) (pa + o)) s) by (unfold s1; cbn; by rewrite Hw).
  assert (Hx1 : forall q, as_x s1 q = if decide (q = r) then load64 (as_mem s) (pa + o) else as_x s q).
  { intros q. rewrite Es1. cbn. destruct (decide (q = r)); [by destruct (decide (r = R.zero))|done]. }
  assert (Hb1 : as_x s1 base = as_x s base).
  { rewrite Hx1. destruct (decide (base = r)) as [->|]; [|done]. apply Hb. by left. }
  assert (Hw1 : window s1 base pa len).
  { intros o' Ho' Hl'. unfold eaddr. rewrite Hb1. rewrite Es1. by apply Hw. }
  destruct (IH s1 Hw1) as (A & B & C & D & E & F & G).
  - intros r' o' Hin. apply Hr. by right.
  - intros o' Hin. rewrite Hb1, Es1. cbn. apply Hb. by right.
  - done.
  - change s' with (exec tr (loads l base) s1). rewrite A, B, C, D, E, Es1.
    split_and!; try done.
    + intros r' o' [[= -> ->]|Hin]%elem_of_cons.
      * rewrite <- Es1, G by done. rewrite Hx1. by destruct (decide (r = r)).
      * rewrite <- Es1, (F r' o' Hin). by rewrite Es1.
    + intros r' Hnin. cbn in Hnin. apply not_elem_of_cons in Hnin as [Hne Hnin].
      rewrite <- Es1, G by done. rewrite Hx1. by destruct (decide (r' = r)).
Qed.
End Runs.

(** * The trampoline *)

(** The field of struct trapframe for a register. *)
Definition tf_field (r : gpr) : tfield :=
  match r with
  | R.zero => kernel_satp     (* not saved *)
  | R.ra => ra | R.sp => sp | R.gp => gp | R.tp => tp | R.t0 => t0 | R.t1 => t1 | R.t2 => t2
  | R.s0 => s0 | R.s1 => s1 | R.a0 => a0 | R.a1 => a1 | R.a2 => a2 | R.a3 => a3 | R.a4 => a4
  | R.a5 => a5 | R.a6 => a6 | R.a7 => a7 | R.s2 => s2 | R.s3 => s3 | R.s4 => s4 | R.s5 => s5
  | R.s6 => s6 | R.s7 => s7 | R.s8 => s8 | R.s9 => s9 | R.s10 => s10 | R.s11 => s11
  | R.t3 => t3 | R.t4 => t4 | R.t5 => t5 | R.t6 => t6
  end.

(** All registers but a0, in the order of the structure. *)
Definition tf_table : table :=
  map (fun r => (r, tf_off (tf_field r)))
    [R.ra; R.sp; R.gp; R.tp; R.t0; R.t1; R.t2; R.s0; R.s1; R.a1; R.a2; R.a3; R.a4; R.a5; R.a6; R.a7;
     R.s2; R.s3; R.s4; R.s5; R.s6; R.s7; R.s8; R.s9; R.s10; R.s11; R.t3; R.t4; R.t5; R.t6].

Lemma tf_table_elem r : r <> R.zero -> r <> R.a0 -> (r, tf_off (tf_field r)) ∈ tf_table.
Proof.
  intros H1 H2. unfold tf_table. apply list_elem_of_fmap. exists r. split; [done|].
  destruct r; try done; apply (bool_decide_unpack _); by vm_compute.
Qed.

Lemma tf_table_inv r o : (r, o) ∈ tf_table -> o = tf_off (tf_field r) /\ r <> R.zero /\ r <> R.a0 /\ r ∈ tf_table.*1.
Proof.
  intros Hin. assert (Hr : r ∈ tf_table.*1) by (apply list_elem_of_fmap; by exists (r, o)).
  apply list_elem_of_fmap in Hin as (r' & [= -> ->] & Hin). split; [done|].
  split; [|split; [|done]]; intros ->; clear Hr; revert Hin; apply (bool_decide_unpack (_ ∉ _)); by vm_compute.
Qed.

Section Trampoline.
Context (tr : Z -> Z -> Z) (usatp tf : Z).
(** The page table of the process maps its trap frame at TRAPFRAME. *)
Context (Htr : forall o, 0 <= o < PGSIZE -> tr usatp (TRAPFRAME + o) = tf + o).
#[local] Set Default Proof Using "Type Htr".

Lemma tf_window s :
  as_priv s = 1 -> as_csr s SATP = usatp -> as_x s R.a0 = TRAPFRAME -> window tr s R.a0 tf PGSIZE.
Proof.
  intros Hp Hs Ha o Ho Hl. unfold eaddr, phys. rewrite Hp, Hs, Ha. cbn [Z.eqb Pos.eqb].
  rewrite u64_small; [apply Htr; unfold PGSIZE in *; lia|]. unfold is_u64, PGSIZE in *. change TRAPFRAME with 0x3fffffe000. lia.
Qed.

(** Entry to the kernel: the registers are in the trap frame, the hart has the
    kernel's page table, stack and hart id and goes to the address in
    kernel_trap. *)
Record entered (s s' : asmst) : Prop := {
  en_regs : forall r, r <> R.zero -> load64 (as_mem s') (tf + tf_off (tf_field r)) = as_x s r;
  en_kernel : forall f, f ∈ [kernel_satp; kernel_sp; kernel_trap; epc; kernel_hartid] ->
    load64 (as_mem s') (tf + tf_off f) = load64 (as_mem s) (tf + tf_off f);
  en_sp : as_x s' R.sp = load64 (as_mem s) (tf + tf_off kernel_sp);
  en_tp : as_x s' R.tp = load64 (as_mem s) (tf + tf_off kernel_hartid);
  en_satp : as_csr s' SATP = load64 (as_mem s) (tf + tf_off kernel_satp);
  en_pc : as_pc s' = load64 (as_mem s) (tf + tf_off kernel_trap);
  en_priv : as_priv s' = 1;
  en_csr : forall r, r <> SATP -> as_csr s' r = as_csr s r;
  en_frame : forall x, ~ (tf <= x < tf + sizeof_trapframe) -> as_mem s' x = as_mem s x;
}.

Lemma uservec_spec s :
  as_priv s = 1 -> as_csr s SATP = usatp -> (forall r, is_u64 (as_x s r)) -> entered s (exec tr uservec s).
Proof.
  intros Hp Hs Hu.
  set (s1 := set_x R.a0 TRAPFRAME (put_csr sscratch (as_x s R.a0) s)).
  assert (Hx1 : forall r, r <> R.a0 -> as_x s1 r = as_x s r) by (intros r Hr; cbn; by destruct (decide (r = R.a0))).
  assert (Hu1 : forall r, is_u64 (as_x s1 r)).
  { intros r. destruct (decide (r = R.a0)) as [->|Hr]; [done|]. rewrite Hx1 by done. apply Hu. }
  pose proof (tf_window s1 Hp Hs eq_refl) as Hw.
  destruct (exec_stores tr tf_table R.a0 s1 tf sizeof_trapframe) as (m & Em & Hin & Hout & Hfr); [|by apply spacedb_ok|done|].
  { intros o Ho Hl. apply Hw; unfold sizeof_trapframe, PGSIZE in *; lia. }
  set (s2 := set_x R.t0 (as_x s R.a0) (set_mem m s1)).
  destruct (exec_stores tr [(R.t0, 112)] R.a0 s2 tf sizeof_trapframe) as (m2 & Em2 & Hin2 & Hout2 & Hfr2).
  { intros o Ho Hl. apply Hw; unfold sizeof_trapframe, PGSIZE in *; lia. }
  { by apply spacedb_ok. }
  { intros r. cbn. destruct (decide (r = R.t0)) as [->|]; [apply Hu|apply Hu1]. }
  set (s3 := set_mem m2 s2).
  assert (Hk : forall f, f ∈ [kernel_satp; kernel_sp; kernel_trap; epc; kernel_hartid] ->
            load64 m2 (tf + tf_off f) = load64 (as_mem s) (tf + tf_off f)).
  { intros f Hf. assert (Hle : 0 <= tf_off f <= 32) by (by repeat (apply elem_of_cons in Hf as [->|Hf]; [done|]); apply elem_of_nil in Hf).
    rewrite Hout2 by (intros r o [[= -> ->]|[]%elem_of_nil]%elem_of_cons; lia). cbn [as_mem s2 set_x set_mem]. apply Hout.
    intros r o (-> & Hz & _)%tf_table_inv. left. assert (40 <= tf_off (tf_field r)) by (by destruct r). lia. }
  destruct (exec_loads tr [(R.sp, 8); (R.tp, 32); (R.t0, 16); (R.t1, 0)] R.a0 s3 tf sizeof_trapframe)
    as (A & B & C & D & E & F & G).
  { intros o Ho Hl. apply Hw; unfold sizeof_trapframe, PGSIZE in *; lia. }
  { intros r o Hro. repeat (apply elem_of_cons in Hro as [[= -> ->]|Hro]; [done|]). by apply elem_of_nil in Hro. }
  { intros o Hro. repeat (apply elem_of_cons in Hro as [[=]|Hro]). by apply elem_of_nil in Hro. }
  { apply (bool_decide_unpack _). by vm_compute. }
  set (s4 := exec tr (loads _ _) s3) in *.
  assert (Hrun : exec tr uservec s = exec tr [SfenceVma; Csrw (Csr SATP) R.t1; SfenceVma; Jr R.t0] s4).
  { change uservec with ([Csrw sscratch R.a0; Li R.a0 TRAPFRAME] ++ stores tf_table R.a0 ++ [Csrr R.t0 sscratch] ++
      stores [(R.t0, 112)] R.a0 ++ loads [(R.sp, 8); (R.tp, 32); (R.t0, 16); (R.t1, 0)] R.a0 ++
      [SfenceVma; Csrw (Csr SATP) R.t1; SfenceVma; Jr R.t0]).
    rewrite exec_app. change (exec tr [Csrw sscratch R.a0; Li R.a0 TRAPFRAME] s) with s1.
    rewrite exec_app, Em, exec_app. change (exec tr [Csrr R.t0 sscratch] (set_mem m s1)) with s2.
    rewrite exec_app, Em2, exec_app. done. }
  rewrite Hrun. clear Hrun.
  split; cbn [exec fold_left exec1 put_csr set_pc as_x as_csr as_priv as_pc as_mem].
  - intros r Hr. rewrite E. cbn [as_mem s3 set_mem]. destruct (decide (r = R.a0)) as [->|Hra].
    { change (tf_off (tf_field R.a0)) with 112. rewrite (Hin2 R.t0 112) by (by left). done. }
    pose proof (tf_table_elem r Hr Hra) as Hel.
    rewrite Hout2.
    + cbn [as_mem s2 set_x set_mem]. rewrite (Hin r _ Hel). by apply Hx1.
    + intros r' o' [[= -> ->]|[]%elem_of_nil]%elem_of_cons. destruct r; cbn; try done; lia.
  - intros f Hf. rewrite E. by apply Hk.
  - rewrite (F R.sp 8) by (by left). apply (Hk kernel_sp). by right; left.
  - rewrite (F R.tp 32) by (by right; left). apply (Hk kernel_hartid). by do 4 right; left.
  - unfold hset. destruct (decide (SATP = SATP)); [|done]. rewrite (F R.t1 0) by (by do 3 right; left).
    apply (Hk kernel_satp). by left.
  - rewrite (F R.t0 16) by (by do 2 right; left). apply (Hk kernel_trap). by do 2 right; left.
  - by rewrite C.
  - intros r Hr. unfold hset. destruct (decide (r = SATP)); [done|]. by rewrite A.
  - intros x Hx. rewrite E. cbn [as_mem s3 set_mem]. rewrite Hfr2 by done. by apply Hfr.
Qed.

(** Return to user space: every register comes from the trap frame. *)
Record left_kernel (s s' : asmst) : Prop := {
  lv_regs : forall r, r <> R.zero -> as_x s' r = load64 (as_mem s) (tf + tf_off (tf_field r));
  lv_satp : as_csr s' SATP = usatp;
  lv_pc : as_pc s' = as_csr s SEPC;
  lv_priv : as_priv s' = if Z.land (as_csr s SSTATUS) SSTATUS_SPP =? 0 then 0 else 1;
  lv_sstatus : as_csr s' SSTATUS = trap_return SSTATUS_SIE SSTATUS_SPIE SSTATUS_SPP (as_csr s SSTATUS);
  lv_csr : forall r, r <> SATP -> r <> SSTATUS -> as_csr s' r = as_csr s r;
  lv_mem : as_mem s' = as_mem s;
}.

Lemma userret_spec s : as_priv s = 1 -> as_x s R.a0 = usatp -> left_kernel s (exec tr userret s).
Proof.
  intros Hp Ha. set (s1 := set_x R.a0 TRAPFRAME (put_csr (Csr SATP) (as_x s R.a0) s)).
  assert (Hc1 : as_csr s1 SATP = usatp) by (cbn; by rewrite Ha).
  pose proof (tf_window s1 Hp Hc1 eq_refl) as Hw.
  destruct (exec_loads tr tf_table R.a0 s1 tf PGSIZE Hw) as (A & B & C & D & E & F & G).
  { intros r o (-> & Hz & _)%tf_table_inv. split_and!; [by destruct r|by destruct r|done]. }
  { intros o (_ & _ & ? & _)%tf_table_inv. done. }
  { apply (bool_decide_unpack _). by vm_compute. }
  set (s2 := exec tr (loads tf_table R.a0) s1) in *.
  assert (Ha2 : as_x s2 R.a0 = TRAPFRAME).
  { rewrite G; [done|]. intros ([r o] & Hr & (_ & _ & Hne & _)%tf_table_inv)%list_elem_of_fmap. by cbn in Hr. }
  assert (Hw2 : window tr s2 R.a0 tf PGSIZE) by (apply tf_window; [by rewrite C|by rewrite A|done]).
  assert (Hrun : exec tr userret s = exec tr [Ld R.a0 112 R.a0; Sret] s2).
  { change userret with ([SfenceVma; Csrw (Csr SATP) R.a0; SfenceVma; Li R.a0 TRAPFRAME] ++
      loads tf_table R.a0 ++ [Ld R.a0 112 R.a0; Sret]). by rewrite !exec_app. }
  rewrite Hrun. clear Hrun. cbn [exec fold_left exec1]. rewrite Hw2 by done.
  split; cbn [set_pc set_x as_x as_csr as_priv as_pc as_mem hset]; rewrite ?A, ?E.
  - intros r Hr. destruct (decide (r = R.a0)) as [->|Hra]; [done|].
    rewrite (F r _ (tf_table_elem r Hr Hra)). done.
  - exact Hc1.
  - done.
  - done.
  - done.
  - intros r H1 H2. unfold hset. rewrite decide_False by done.
    change (as_csr s1 r) with (hset SATP (as_x s R.a0) (as_csr s) r). unfold hset. by rewrite decide_False.
  - done.
Qed.
End Trampoline.

(** C14. A trap is transparent to the registers of the program.  When a program
    traps, uservec stores each of its 31 registers in the field of its trap
    frame that has the register's name, keeps the fields the kernel has filled
    in, and enters the kernel in supervisor mode with the page table, the
    stack, the hart id and the address found there.  When the kernel later
    runs userret with the program's page table, every register has what its
    field then holds: the value the program had, unless the kernel changed the
    field, as a system call does with a0.  The program goes on at sepc, in the
    mode and with the interrupt state sstatus says. *)
Theorem trap_registers_preserved tr usatp tf s :
  (forall o, 0 <= o < PGSIZE -> tr usatp (TRAPFRAME + o) = tf + o) ->
  as_priv s = 1 -> as_csr s SATP = usatp -> (forall r, is_u64 (as_x s r)) ->
  let k := exec tr uservec s in
  entered tf s k /\
  forall k', as_priv k' = 1 -> as_x k' R.a0 = usatp ->
    let u := exec tr userret k' in
    left_kernel usatp tf k' u /\
    forall r, r <> R.zero ->
      load64 (as_mem k') (tf + tf_off (tf_field r)) = load64 (as_mem k) (tf + tf_off (tf_field r)) ->
      as_x u r = as_x s r.
Proof.
  intros Htr Hp Hs Hu k. pose proof (uservec_spec tr usatp tf Htr s Hp Hs Hu) as He. split; [done|].
  intros k' Hp' Ha' u. pose proof (userret_spec tr usatp tf Htr k' Hp' Ha') as Hl. split; [done|].
  intros r Hr Hsame. transitivity (load64 (as_mem k') (tf + tf_off (tf_field r))); [by apply Hl|].
    rewrite Hsame. by apply He.
Qed.

Module AsmDemo.
(** A hart with small values in its registers; virtual addresses of the user
    page table 7 are one page above the physical ones. *)
Definition tr (satp va : Z) : Z := if satp =? 7 then va - PGSIZE else va.
Definition regs (r : gpr) : Z := match r with R.zero => 0 | R.sp => 0x2000 | R.a0 => 5 | R.s3 => 33 | _ => 1 end.
Definition h0 : hart := fun r => match r with SATP => 7 | SEPC => 0x400 | SSTATUS => SSTATUS_SPIE | _ => 0 end.
Definition s0 : asmst := mkAsm regs h0 0 1 0 (fun _ => 0).
End AsmDemo.

Lemma trap_registers_preserved_witness :
  let k := exec AsmDemo.tr uservec AsmDemo.s0 in
  let u := exec AsmDemo.tr userret (set_x R.a0 7 k) in
  load64 (as_mem k) (TRAPFRAME - PGSIZE + tf_off a0) = 5 /\
  (forall r, r <> R.zero -> as_x u r = AsmDemo.regs r) /\ as_pc u = 0x400 /\ as_priv u = 0.
Proof.
  destruct (trap_registers_preserved AsmDemo.tr 7 (TRAPFRAME - PGSIZE) AsmDemo.s0) as [He Hr].
  - intros o Ho. cbn. unfold AsmDemo.tr. cbn [Z.eqb Pos.eqb]. lia.
  - done.
  - done.
  - by intros [].
  - cbn zeta. generalize dependent (exec AsmDemo.tr uservec AsmDemo.s0). intros k He Hr.
    split; [by apply (en_regs _ _ _ He R.a0)|].
    destruct (Hr (set_x R.a0 7 k) (en_priv _ _ _ He) eq_refl) as [Hl Hx].
    split; [intros r Hrz; by apply Hx|]. split.
    + rewrite (lv_pc _ _ _ _ Hl). exact (en_csr _ _ _ He SEPC ltac:(done)).
    + rewrite (lv_priv _ _ _ _ Hl). cbn [as_csr set_x]. by rewrite (en_csr _ _ _ He SSTATUS ltac:(done)).
Defined.

(** * Context switches *)

(** struct context. *)
Definition ctx_table : table :=
  [(R.ra, 0); (R.sp, 8); (R.s0, 16); (R.s1, 24); (R.s2, 32); (R.s3, 40); (R.s4, 48); (R.s5, 56);
   (R.s6, 64); (R.s7, 72); (R.s8, 80); (R.s9, 88); (R.s10, 96); (R.s11, 104)].
Definition sizeof_context : Z := 112.

(** swtch() from the context at [old] to the one at [new]. *)
Record switched (old new : Z) (s s' : asmst) : Prop := {
  sw_saved : forall r o, (r, o) ∈ ctx_table -> load64 (as_mem s') (old + o) = as_x s r;
  sw_loaded : forall r o, (r, o) ∈ ctx_table -> as_x s' r = load64 (as_mem s) (new + o);
  sw_others : forall r, r ∉ ctx_table.*1 -> as_x s' r = as_x s r;
  sw_pc : as_pc s' = load64 (as_mem s) new;
  sw_csr : as_csr s' = as_csr s;
  sw_priv : as_priv s' = as_priv s;
  sw_frame : forall x, ~ (old <= x < old + sizeof_context) -> as_mem s' x = as_mem s x;
}.

Lemma ctx_inv r o : (r, o) ∈ ctx_table ->
  0 <= o /\ o + 8 <= sizeof_context /\ r <> R.zero /\ r <> R.a0 /\ r <> R.a1.
Proof.
  intros Hin. repeat (apply elem_of_cons in Hin as [[= -> ->]|Hin]; [done|]). by apply elem_of_nil in Hin.
Qed.

Lemma swtch_spec tr s old new :
  window tr s R.a0 old sizeof_context -> window tr s R.a1 new sizeof_context ->
  old + sizeof_context <= new \/ new + sizeof_context <= old -> (forall r, is_u64 (as_x s r)) ->
  switched old new s (exec tr swtch s).
Proof.
  intros Hw0 Hw1 Hd Hu.
  destruct (exec_stores tr ctx_table R.a0 s old sizeof_context) as (m & Em & Hin & Hout & Hfr); [done|by apply spacedb_ok|done|].
  set (s1 := set_mem m s).
  assert (Hnew : forall o, 0 <= o -> o + 8 <= sizeof_context -> load64 m (new + o) = load64 (as_mem s) (new + o)).
  { intros o Ho Hl. apply Hout. intros r o' (H1 & H2 & _)%ctx_inv. lia. }
  destruct (exec_loads tr ctx_table R.a1 s1 new sizeof_context) as (A & B & C & D & E & F & G).
  { done. }
  { intros r o (H1 & H2 & H3 & _)%ctx_inv. done. }
  { intros o (_ & _ & _ & _ & ?)%ctx_inv. done. }
  { apply (bool_decide_unpack _). by vm_compute. }
  set (s2 := exec tr (loads ctx_table R.a1) s1) in *.
  assert (Hrun : exec tr swtch s = exec tr [Ret] s2).
  { change swtch with (stores ctx_table R.a0 ++ loads ctx_table R.a1 ++ [Ret]). by rewrite !exec_app, Em. }
  rewrite Hrun. clear Hrun. split; cbn [exec fold_left exec1 set_pc as_x as_csr as_priv as_pc as_mem]; rewrite ?A, ?C, ?E.
  - intros r o Hro. by apply Hin.
  - intros r o Hro. rewrite (F r o Hro). cbn. destruct (ctx_inv r o Hro) as (H1 & H2 & _). by apply Hnew.
  - intros r Hr. by rewrite G.
  - rewrite (F R.ra 0) by (by left). cbn [as_mem s1 set_mem]. rewrite Hnew by done. by rewrite Z.add_0_r.
  - done.
  - done.
  - exact Hfr.
Qed.

(** C15. A thread that gives up the CPU resumes where it stopped.  swtch() saves
    ra, sp and the registers a call must preserve in the context [old], loads
    them from [new] and goes on at the return address found there; nothing else
    in memory changes.  When any thread on any CPU later switches to [old], and
    the context is as it was left, the first thread returns from its call of
    swtch() with the same stack and the same preserved registers. *)
Theorem swtch_resumes tr s old new :
  window tr s R.a0 old sizeof_context -> window tr s R.a1 new sizeof_context ->
  old + sizeof_context <= new \/ new + sizeof_context <= old -> (forall r, is_u64 (as_x s r)) ->
  let k := exec tr swtch s in
  switched old new s k /\
  forall k' other, window tr k' R.a0 other sizeof_context -> window tr k' R.a1 old sizeof_context ->
    other + sizeof_context <= old \/ old + sizeof_context <= other -> (forall r, is_u64 (as_x k' r)) ->
    (forall x, old <= x < old + sizeof_context -> as_mem k' x = as_mem k x) ->
    let u := exec tr swtch k' in
    switched other old k' u /\ as_pc u = as_x s R.ra /\
    forall r, r ∈ ctx_table.*1 -> as_x u r = as_x s r.
Proof.
  intros Hw0 Hw1 Hd Hu k. pose proof (swtch_spec tr s old new Hw0 Hw1 Hd Hu) as Hk. fold k in Hk. split; [done|].
  intros k' other Hv0 Hv1 Hd' Hu' Hsame u. pose proof (swtch_spec tr k' other old Hv0 Hv1 Hd' Hu') as Hl. fold u in Hl.
  assert (Hctx : forall r o, (r, o) ∈ ctx_table -> load64 (as_mem k') (old + o) = as_x s r).
  { intros r o Hro. rewrite <- (sw_saved _ _ _ _ Hk r o Hro). destruct (ctx_inv r o Hro) as (H1 & H2 & _).
    apply load64_ext. intros x Hx. apply Hsame. lia. }
  split; [done|]. split.
  - rewrite (sw_pc _ _ _ _ Hl). rewrite <- (Z.add_0_r old). apply Hctx. by left.
  - intros r ([r' o] & -> & Hro)%list_elem_of_fmap. cbn [fst]. rewrite (sw_loaded _ _ _ _ Hl r' o Hro). by apply Hctx.
Qed.

Lemma swtch_resumes_witness :
  let s := mkAsm (fun r => match r with R.a0 => 0x1000 | R.a1 => 0x2000 | R.ra => 77 | R.s3 => 33 | _ => 1 end)
                 (fun _ => 0) 0 1 0 (fun _ => 0) in
  let k := exec (fun _ va => va) swtch s in
  let k' := set_x R.a0 0x2000 (set_x R.a1 0x1000 k) in
  let u := exec (fun _ va => va) swtch k' in
  as_pc k = 0 /\ as_pc u = 77 /\ as_x u R.s3 = 33.
Proof.
  set (s := mkAsm _ _ _ _ _ _). cbn zeta.
  destruct (swtch_resumes (fun _ va => va) s 0x1000 0x2000) as [Hk Hr].
  - intros o Ho Hl. unfold sizeof_context in Hl. unfold eaddr, phys. cbn. apply u64_small. unfold is_u64. lia.
  - intros o Ho Hl. unfold sizeof_context in Hl. unfold eaddr, phys. cbn. apply u64_small. unfold is_u64. lia.
  - by left.
  - by intros [].
  - assert (Hx : forall r, as_x (exec (fun _ va => va) swtch s) r = if decide (r ∈ ctx_table.*1) then 0 else as_x s r).
    { intros r. destruct (decide (r ∈ ctx_table.*1)) as [Hin|Hno].
      - apply list_elem_of_fmap in Hin as ([r' o] & -> & Hro). cbn [fst]. by rewrite (sw_loaded _ _ _ _ Hk r' o Hro).
      - by apply (sw_others _ _ _ _ Hk). }
    assert (Hp : as_priv (exec (fun _ va => va) swtch s) = 1) by apply (sw_priv _ _ _ _ Hk).
    split; [by rewrite (sw_pc _ _ _ _ Hk)|]. generalize dependent (exec (fun _ va => va) swtch s).
    intros k Hk Hr Hx Hp. destruct (Hr (set_x R.a0 0x2000 (set_x R.a1 0x1000 k)) 0x2000) as (_ & Hpc & Hreg).
    + intros o Ho Hl. unfold sizeof_context in Hl. unfold eaddr, phys. cbn. rewrite Hp. cbn. apply u64_small. unfold is_u64. lia.
    + intros o Ho Hl. unfold sizeof_context in Hl. unfold eaddr, phys. cbn. rewrite Hp. cbn. apply u64_small. unfold is_u64. lia.
    + by right.
    + intros r. cbn [as_x set_x]. destruct (decide (r = R.a0)); [done|]. destruct (decide (r = R.a1)); [done|].
      rewrite Hx. destruct (decide _); [done|]. by destruct r.
    + done.
    + split; [done|]. apply Hreg. apply (bool_decide_unpack _). by vm_compute.
Defined.

(** * Interrupts in the kernel *)

(** The frame kernelvec pushes, and what it pops: all but tp. *)
Definition kv_regs : list gpr :=
  [R.ra; R.sp; R.gp; R.tp; R.t0; R.t1; R.t2; R.s0; R.s1; R.a0; R.a1; R.a2; R.a3; R.a4; R.a5; R.a6; R.a7;
   R.s2; R.s3; R.s4; R.s5; R.s6; R.s7; R.s8; R.s9; R.s10; R.s11; R.t3; R.t4; R.t5; R.t6].
Definition kv_table : table := zip kv_regs (map (Z.mul 8) (seqZ 0 31)).
Definition kv_pops : table := filter (fun p => p.1 <> R.tp) kv_table.

Lemma kv_elem r : r <> R.zero -> exists o, (r, o) ∈ kv_table.
Proof.
  intros Hr. destruct r; try done; eexists;
    (repeat (apply list_elem_of_here || apply list_elem_of_further)).
Qed.

Lemma kv_inv r o : (r, o) ∈ kv_table -> 0 <= o /\ o + 8 <= 256 /\ r <> R.zero.
Proof.
  intros Hin. assert (Hall : Forall (fun p : gpr * Z => 0 <= p.2 /\ p.2 + 8 <= 256 /\ p.1 <> R.zero) kv_table).
  { apply (bool_decide_unpack _). by vm_compute. }
  rewrite Forall_forall in Hall. exact (Hall _ Hin).
Qed.

(** C36. An interrupt of kernel code is transparent to its registers.  kernelvec
    pushes all registers below the interrupted stack pointer and calls
    kerneltrap().  When that returns, with the stack pointer and the frame as
    they were, possibly on another CPU, every register but tp, which holds the
    hart id, has the value it had before the interrupt; memory is what
    kerneltrap() left, and the hart goes on at sepc in the mode of sstatus. *)
Theorem kernelvec_preserves_registers tr s pa :
  as_priv s = 1 -> (forall r, is_u64 (as_x s r)) -> 256 <= as_x s R.sp ->
  (forall o, 0 <= o -> o + 8 <= 256 -> tr (as_csr s SATP) (as_x s R.sp - 256 + o) = pa + o) ->
  let k := exec tr kernelvec_save s in
  as_x k R.sp = as_x s R.sp - 256 /\ (forall x, ~ (pa <= x < pa + 256) -> as_mem k x = as_mem s x) /\
  forall k', as_priv k' = 1 -> as_csr k' SATP = as_csr s SATP -> as_x k' R.sp = as_x k R.sp ->
    (forall x, pa <= x < pa + 256 -> as_mem k' x = as_mem k x) ->
    let u := exec tr kernelvec_restore k' in
    (forall r, r <> R.zero -> r <> R.tp -> as_x u r = as_x s r) /\
    as_x u R.tp = as_x k' R.tp /\ as_mem u = as_mem k' /\ as_pc u = as_csr k' SEPC /\
    as_priv u = if Z.land (as_csr k' SSTATUS) SSTATUS_SPP =? 0 then 0 else 1.
Proof.
  intros Hp Hu Hsp Hw. set (b := as_x s R.sp - 256). pose proof (Hu R.sp) as Hspu.
  assert (Hb64 : u64 (as_x s R.sp + -256) = b) by (apply u64_small; unfold is_u64 in *; lia).
  set (s1 := set_x R.sp b s).
  assert (Hwin : forall q, as_priv q = 1 -> as_csr q SATP = as_csr s SATP -> as_x q R.sp = b -> window tr q R.sp pa 256).
  { intros q H1 H2 H3 o Ho Hl. unfold eaddr, phys. rewrite H1, H2, H3. cbn [Z.eqb Pos.eqb].
    rewrite u64_small; [by apply Hw|]. unfold is_u64 in *. lia. }
  assert (Hx1 : forall r, as_x s1 r = if decide (r = R.sp) then b else as_x s r) by (intros r; cbn; by destruct (decide _)).
  assert (Hu1 : forall r, is_u64 (as_x s1 r)).
  { intros r. rewrite Hx1. destruct (decide _); [unfold is_u64 in *; lia|apply Hu]. }
  destruct (exec_stores tr kv_table R.sp s1 pa 256) as (m & Em & Hin & _ & Hfr).
  { by apply Hwin. }
  { by apply spacedb_ok. }
  { done. }
  assert (Hrun : exec tr kernelvec_save s = set_mem m s1).
  { change kernelvec_save with ([Addi R.sp R.sp (-256)] ++ stores kv_table R.sp). rewrite exec_app, <- Em.
    cbn [exec fold_left exec1]. by rewrite Hb64. }
  cbn zeta. rewrite Hrun. split; [done|]. split; [exact Hfr|].
  intros k' Hp' Hs' Hsp' Hsame.
  assert (Hld : forall r o, (r, o) ∈ kv_table -> load64 (as_mem k') (pa + o) = as_x s1 r).
  { intros r o Hro. rewrite <- (Hin r o Hro). destruct (kv_inv r o Hro) as (H1 & H2 & _).
    apply load64_ext. intros x Hx. apply Hsame. lia. }
  assert (Hpop : forall r o, (r, o) ∈ kv_pops -> (r, o) ∈ kv_table /\ r <> R.tp).
  { intros r o [Hn Hro]%list_elem_of_filter. done. }
  destruct (exec_loads tr kv_pops R.sp k' pa 256) as (A & B & C & D & E & F & G).
  { by apply Hwin. }
  { intros r o [Hro _]%Hpop. by apply kv_inv. }
  { intros o [Hro _]%Hpop. rewrite (Hld _ _ Hro). symmetry. exact Hsp'. }
  { apply (bool_decide_unpack _). by vm_compute. }
  set (s2 := exec tr (loads kv_pops R.sp) k') in *.
  assert (Hx2 : forall r, r <> R.zero -> r <> R.tp -> as_x s2 r = as_x s1 r).
  { intros r Hz Ht. destruct (kv_elem r Hz) as [o Hro]. rewrite (F r o), (Hld r o Hro); [done|].
    by apply list_elem_of_filter. }
  assert (Hsp2 : u64 (as_x s2 R.sp + 256) = as_x s R.sp).
  { rewrite Hx2, Hx1 by done. rewrite decide_True by done. replace (b + 256) with (as_x s R.sp) by (unfold b; lia). by apply u64_small. }
  assert (Hr2 : exec tr kernelvec_restore k' = exec tr [Addi R.sp R.sp 256; Sret] s2).
  { change kernelvec_restore with (loads kv_pops R.sp ++ [Addi R.sp R.sp 256; Sret]). by rewrite exec_app. }
  rewrite Hr2. cbn [exec fold_left exec1]. rewrite Hsp2. cbn [set_pc set_x as_x as_csr as_priv as_pc as_mem]. rewrite A, E.
  split_and!; try done.
  - intros r Hz Ht. destruct (decide (r = R.sp)) as [->|Hne]; [done|]. rewrite Hx2, Hx1 by done. by rewrite decide_False.
Qed.

Lemma kernelvec_preserves_registers_witness :
  let tr := fun _ va : Z => va in
  let s := mkAsm AsmDemo.regs AsmDemo.h0 0 1 0 (fun _ => 0) in
  let k := exec tr kernelvec_save s in
  let u := exec tr kernelvec_restore (set_x R.tp 2 (set_x R.a0 99 k)) in
  as_x u R.a0 = 5 /\ as_x u R.sp = 0x2000 /\ as_x u R.tp = 2 /\ as_pc u = 0x400.
Proof.
  set (s := mkAsm _ _ _ _ _ _). cbn zeta.
  destruct (kernelvec_preserves_registers (fun _ va => va) s (0x2000 - 256)) as (Hsp & Hfr & Hr).
  - done.
  - by intros [].
  - done.
  - intros o Ho Hl. cbn. lia.
  - assert (Hk : as_csr (exec (fun _ va : Z => va) kernelvec_save s) = as_csr s /\
                 as_priv (exec (fun _ va : Z => va) kernelvec_save s) = 1) by done.
    generalize dependent (exec (fun _ va : Z => va) kernelvec_save s). intros k Hsp Hfr Hr [Hc Hp].
    destruct (Hr (set_x R.tp 2 (set_x R.a0 99 k))) as (Hx & Htp & _ & Hpc & _).
    + exact Hp.
    + cbn. by rewrite Hc.
    + done.
    + done.
    + split_and!; [by rewrite Hx|by rewrite Hx|done|]. rewrite Hpc. cbn [as_csr set_x]. by rewrite Hc.
Defined.

(** * The stacks of the harts *)

(** _entry gives hart [id] the [id]-th page of stack0, sp at its end. *)
Lemma entry_stack tr s stack0 id :
  0 <= id < NCPU -> as_csr s MHARTID = id -> 0 <= stack0 -> stack0 + 4096 * NCPU < 2 ^ 64 ->
  as_x (exec tr (_entry stack0) s) R.sp = stack0 + 4096 * id + 4096.
Proof.
  intros Hid Hh H0 H1. unfold NCPU in *.
  change (as_x (exec tr (_entry stack0) s) R.sp) with
    (u64 (u64 stack0 + u64 (u64 (1024 * 4) * u64 (as_csr s MHARTID + 1)))). rewrite Hh.
  change (u64 (1024 * 4)) with 4096. rewrite (u64_small (id + 1)), (u64_small stack0) by (unfold is_u64; lia).
  rewrite (u64_small (4096 * (id + 1))) by (unfold is_u64; lia).
  rewrite u64_small by (unfold is_u64; lia). lia.
Qed.
