(* ===== verification/Exec.v ===== *)
(** exec(): kernel/exec.c and kernel/elf.h.

    The strings of argv are in kernel memory, where sys_exec() put them; the
    path is a char array of the caller. *)

From S2P Require Import Prelude Riscv CString Kalloc Vm Sleeplock Fields BlockCache Log Fs Pipe File Proc.

Definition ELF_MAGIC : Z := 0x464C457F.
Definition ELF_PROG_LOAD : Z := 1.

(** struct elfhdr and struct proghdr, the fields exec() reads. *)
Record elfhdr : Type := mkElfhdr { eh_magic : Z; eh_entry : Z; eh_phoff : Z; eh_phnum : Z }.
Definition sizeof_elfhdr : Z := 64.
Definition get_elfhdr (d : list Z) : elfhdr :=
  mkElfhdr (get32 d 0) (get_le 8 d 24) (get_le 8 d 32) (get16 d 56).

Record proghdr : Type := mkProghdr {
  ph_type : Z;
  ph_flags : Z;
  ph_off : Z;
  ph_vaddr : Z;
  ph_filesz : Z;
  ph_memsz : Z;
}.
Definition sizeof_proghdr : Z := 56.
Definition get_proghdr (d : list Z) : proghdr :=
  mkProghdr (get32 d 0) (get32 d 4) (get_le 8 d 8) (get_le 8 d 16) (get_le 8 d 32) (get_le 8 d 40).

Definition flags2perm (flags : Z) : Z :=
  let perm := if negb (Z.land flags 1 =? 0) then PTE_X else 0 in
  if negb (Z.land flags 2 =? 0) then Z.lor perm PTE_W else perm.

(** The part of a path after its last slash. *)
Fixpoint last_elem (last s : list Z) : list Z :=
  match s with
  | [] => last
  | c :: s' => if c =? 0 then last else last_elem (if c =? SLASH then s' else last) s'
  end.

Section Exec.
Context `{Image}.
Context (c : Z).

(** begin_op() and end_op(). *)
Definition kbegin_op : M kern unit := zoom kfs (zoom fsl begin_op).
Definition kend_op (pid : Z) : M kern unit := zoom kfs (zoom fsl (end_op pid)).

(** readi() into kernel memory at [pa]. *)
Definition loadseg (pid pagetable va ip offset sz : Z) : M kern Z :=
  loop (S (Z.to_nat sz))
    (fun i =>
       if i <? sz then
         let! pa := zoom kvm (walkaddr pagetable (u64 (va + i))) in
         if pa =? 0 then panic "loadseg: address should exist"
         else
           let n := if sz - i <? PGSIZE then sz - i else PGSIZE in
           let! r := zoom kfs (readi pid pagetable ip false pa (u32 (offset + i)) n) in
           if negb (r =? n) then ret (inr (-1))
           else ret (inl (u32 (i + PGSIZE)))
       else ret (inr 0))
    0.

(** The loop over the program headers: the size reached, and whether all went
    well. *)
Definition exec_segs (pid pagetable ip : Z) (elf : elfhdr) : M kern (bool * Z) :=
  loop (S (Z.to_nat (eh_phnum elf)))
    (fun '(i, off, sz) =>
       if i <? eh_phnum elf then
         let! r := zoom kfs (readi_var pid ip (u32 off) sizeof_proghdr) in
         if negb (r.1 =? sizeof_proghdr) then ret (inr (false, sz))
         else
           let ph := get_proghdr r.2 in
           let next := i32 (off + sizeof_proghdr) in
           if negb (ph_type ph =? ELF_PROG_LOAD) then ret (inl (i + 1, next, sz))
           else if ph_memsz ph <? ph_filesz ph then ret (inr (false, sz))
           else if u64 (ph_vaddr ph + ph_memsz ph) <? ph_vaddr ph then ret (inr (false, sz))
           else if negb (ph_vaddr ph mod PGSIZE =? 0) then ret (inr (false, sz))
           else
             let! sz1 := zoom kvm (uvmalloc pagetable sz (u64 (ph_vaddr ph + ph_memsz ph))
                                     (flags2perm (ph_flags ph))) in
             if sz1 =? 0 then ret (inr (false, sz))
             else
               let! r := loadseg pid pagetable (ph_vaddr ph) ip (u32 (ph_off ph)) (u32 (ph_filesz ph)) in
               if r <? 0 then ret (inr (false, sz1))
               else ret (inl (i + 1, next, sz1))
       else ret (inr (true, sz)))
    (0, i32 (eh_phoff elf), 0).

(** Push the argument strings: the stack pointer and ustack, or None. *)
Definition exec_args (pagetable stackbase sp : Z) (argv : list Z) : M kern (option (Z * list Z)) :=
  loop (S (S (Z.to_nat MAXARG)))
    (fun '(argc, sp, ustack) =>
       let arg := zget argv argc in
       if negb (arg =? 0) then
         if argc >=? MAXARG then ret (inr None)
         else
           let! m := gets (fun s => k_mem (lget kvm s)) in
           match strlen (Z.to_nat PGSIZE) (fun i => m (arg + i)) with
           | None => fun _ => NoFuel
           | Some len =>
               let sp := u64 (sp - (len + 1)) in
               let sp := u64 (sp - sp mod 16) in       (* riscv sp must be 16-byte aligned *)
               if sp <? stackbase then ret (inr None)
               else
                 let! r := zoom kvm (copyout pagetable sp (read_bytes (Z.to_nat (len + 1)) arg m)) in
                 if r <? 0 then ret (inr None)
                 else ret (inl (argc + 1, sp, ustack ++ [sp]))
           end
       else ret (inr (Some (sp, ustack))))
    (0, sp, []).

Definition exec_bad (pid pagetable sz ip : Z) : M kern Z :=
  (if negb (pagetable =? 0) then zoom kvm (proc_freepagetable pagetable sz) else ret tt) ;;;
  (if negb (ip =? NULL) then zoom kfs (iunlockput pid ip) ;;; kend_op pid else ret tt) ;;;
  ret (-1).

(** ustack as bytes, with the null pointer at its end. *)
Definition ustack_bytes (ustack : list Z) : list Z :=
  flat_map (fun v => put_le 8 0 v (replicate 8 0)) (ustack ++ [0]).

(** From the point where the program is loaded and the file put back. *)
Definition exec_image (p pid pagetable sz : Z) (elf : elfhdr) (path argv : list Z) : M kern Z :=
  let bad sz := exec_bad pid pagetable sz NULL in
  let! oldsz := pget p_sz p in
  (* two pages at the next page boundary: a stack guard and the user stack *)
  let sz := PGROUNDUP sz in
  let! sz1 := zoom kvm (uvmalloc pagetable sz (u64 (sz + 2 * PGSIZE)) PTE_W) in
  if sz1 =? 0 then bad sz
  else
    let sz := sz1 in
    zoom kvm (uvmclear pagetable (sz - 2 * PGSIZE)) ;;;
    let stackbase := sz - PGSIZE in
    let! args := exec_args pagetable stackbase sz argv in
    match args with
    | None => bad sz
    | Some (sp0, ustack) =>
        let argc := Z.of_nat (length ustack) in
        (* push the array of argv[] pointers *)
        let sp1 := u64 (sp0 - (argc + 1) * 8) in
        let sp1 := u64 (sp1 - sp1 mod 16) in
        if sp1 <? stackbase then bad sz
        else
          let! r := zoom kvm (copyout pagetable sp1 (ustack_bytes ustack)) in
          if r <? 0 then bad sz
          else
            tf_put p a1 sp1 ;;;
            (* save program name for debugging *)
            pput p (fun x => set_p_name (safestrcpy_ (p_name x) (last_elem path path)) x) ;;;
            (* commit to the user image *)
            let! oldpagetable := pget p_pagetable p in
            pput p (set_p_pagetable pagetable) ;;;
            pput p (set_p_sz sz) ;;;
            tf_put p epc (eh_entry elf) ;;;
            tf_put p sp sp1 ;;;
            zoom kvm (proc_freepagetable oldpagetable oldsz) ;;;
            ret argc
    end.

Definition exec (path argv : list Z) : M kern Z :=
  let! p := myproc c in
  let! pid := pget p_pid p in
  let! cwd := pget p_cwd p in
  kbegin_op ;;;
  let! ip := zoom kfs (namei pid cwd path) in
  if ip =? NULL then kend_op pid ;;; ret (-1)
  else
    zoom kfs (ilock pid ip) ;;;
    (* check ELF header *)
    let! r := zoom kfs (readi_var pid ip 0 sizeof_elfhdr) in
    if negb (r.1 =? sizeof_elfhdr) then exec_bad pid 0 0 ip
    else
      let elf := get_elfhdr r.2 in
      if negb (eh_magic elf =? ELF_MAGIC) then exec_bad pid 0 0 ip
      else
        let! pagetable := proc_pagetable p in
        if pagetable =? 0 then exec_bad pid pagetable 0 ip
        else
          (* load program into memory *)
          let! r := exec_segs pid pagetable ip elf in
          if negb r.1 then exec_bad pid pagetable r.2 ip
          else
            zoom kfs (iunlockput pid ip) ;;;
            kend_op pid ;;;
            exec_image p pid pagetable r.2 elf path argv.
End Exec.
