(* ===== verification/Syscall.v ===== *)
(** System calls: kernel/syscall.c, kernel/sysproc.c, kernel/sysfile.c,
    kernel/syscall.h, kernel/fcntl.h.

    A system call runs on CPU [c] for the process the CPU runs.  A char array
    the code fills from user space is the list of bytes copied into it.  What
    a local struct stat holds in its padding is an argument of sys_fstat(). *)

From S2P Require Import Prelude Riscv CString Kalloc Vm Sleeplock Fields BlockCache Log Fs Pipe File Proc Exec.

Definition O_RDONLY : Z := 0x000.
Definition O_WRONLY : Z := 0x001.
Definition O_RDWR : Z := 0x002.
Definition O_CREATE : Z := 0x200.
Definition O_TRUNC : Z := 0x400.

(** System call numbers. *)
Inductive sysno : Type :=
| SYS_fork | SYS_exit | SYS_wait | SYS_pipe | SYS_read | SYS_kill | SYS_exec | SYS_fstat
| SYS_chdir | SYS_dup | SYS_getpid | SYS_sbrk | SYS_sleep | SYS_uptime | SYS_open | SYS_write
| SYS_mknod | SYS_unlink | SYS_link | SYS_mkdir | SYS_close.

Definition sysno_val (n : sysno) : Z :=
  match n with
  | SYS_fork => 1 | SYS_exit => 2 | SYS_wait => 3 | SYS_pipe => 4 | SYS_read => 5 | SYS_kill => 6
  | SYS_exec => 7 | SYS_fstat => 8 | SYS_chdir => 9 | SYS_dup => 10 | SYS_getpid => 11
  | SYS_sbrk => 12 | SYS_sleep => 13 | SYS_uptime => 14 | SYS_open => 15 | SYS_write => 16
  | SYS_mknod => 17 | SYS_unlink => 18 | SYS_link => 19 | SYS_mkdir => 20 | SYS_close => 21
  end.
Definition all_sysnos : list sysno :=
  [SYS_fork; SYS_exit; SYS_wait; SYS_pipe; SYS_read; SYS_kill; SYS_exec; SYS_fstat; SYS_chdir;
   SYS_dup; SYS_getpid; SYS_sbrk; SYS_sleep; SYS_uptime; SYS_open; SYS_write; SYS_mknod;
   SYS_unlink; SYS_link; SYS_mkdir; SYS_close].

Section Syscall.
Context `{Image}.
Context (devsw : Z -> devops ftab).
Context (proc_addr : Z -> Z) (forkret_addr : Z) (ticks_addr : Z).
Context (c : Z).

(** ** Arguments *)

(** Result code and the value at the address. *)
Definition fetchaddr (addr : Z) : M kern (Z * Z) :=
  let! p := myproc c in
  let! sz := pget p_sz p in
  (* both tests needed, in case of overflow *)
  if (addr >=? sz) || (u64 (addr + 8) >? sz) then ret (-1, 0)
  else
    let! pt := pget p_pagetable p in
    let! r := zoom kvm (copyin pt addr 8) in
    if negb (r.1 =? 0) then ret (-1, 0) else ret (0, get_le 8 r.2 0).

(** Length without the nul, or -1, and the bytes copied to the buffer. *)
Definition fetchstr (addr max : Z) : M kern (Z * list Z) :=
  let! p := myproc c in
  let! pt := pget p_pagetable p in
  let! r := zoom kvm (copyinstr pt addr max) in
  if r.1 <? 0 then ret (-1, r.2)
  else
    match strlen (S (length r.2)) (zget r.2) with
    | Some n => ret (n, r.2)
    | None => fun _ => NoFuel
    end.

Definition argraw (n : Z) : M kern Z :=
  let! p := myproc c in
  if n =? 0 then tf_get p a0
  else if n =? 1 then tf_get p a1
  else if n =? 2 then tf_get p a2
  else if n =? 3 then tf_get p a3
  else if n =? 4 then tf_get p a4
  else if n =? 5 then tf_get p a5
  else panic "argraw".

Definition argint (n : Z) : M kern Z := let! v := argraw n in ret (i32 v).
Definition argaddr (n : Z) : M kern Z := argraw n.
Definition argstr (n max : Z) : M kern (Z * list Z) :=
  let! addr := argaddr n in
  fetchstr addr max.

(** ** Processes *)

Definition sys_exit : M kern Z :=
  let! n := argint 0 in
  exit proc_addr c n ;;;
  ret 0.

Definition sys_getpid : M kern Z :=
  let! p := myproc c in
  pget p_pid p.

Definition sys_fork : M kern Z := fork forkret_addr c.

Definition sys_wait : M kern Z :=
  let! p := argaddr 0 in
  wait proc_addr c p.

Definition sys_sbrk : M kern Z :=
  let! n := argint 0 in
  let! p := myproc c in
  let! addr := pget p_sz p in
  let! r := growproc c n in
  if r <? 0 then ret (-1) else ret addr.

(** The while loop of sys_sleep(), tickslock held; after a call of sleep()
    [sleep_resume] and the loop again follow. *)
Definition sleep_loop (n ticks0 : Z) : M kern Z :=
  let! ticks := gets kn_ticks in
  if u32 (ticks - ticks0) <? u32 n then
    let! p := myproc c in
    let! k := killed c p in
    if negb (k =? 0) then
      release_ c tickslock ;;;
      ret (-1)
    else
      sleep c ticks_addr tickslock ;;;
      ret 0
  else
    release_ c tickslock ;;;
    ret 0.
Definition sys_sleep : M kern Z :=
  let! n := argint 0 in
  acquire_ c tickslock ;;;
  let! ticks0 := gets kn_ticks in
  sleep_loop n ticks0.
Definition sys_sleep_resume (n ticks0 : Z) : M kern Z :=
  sleep_resume c tickslock ;;;
  sleep_loop n ticks0.

Definition sys_kill : M kern Z :=
  let! pid := argint 0 in
  kill c pid.

Definition sys_uptime : M kern Z :=
  acquire_ c tickslock ;;;
  let! xticks := gets kn_ticks in
  release_ c tickslock ;;;
  ret xticks.

(** ** Files *)

(** The descriptor and the file, or None. *)
Definition argfd (n : Z) : M kern (option (Z * Z)) :=
  let! fd := argint n in
  let! p := myproc c in
  let! ofile := pget p_ofile p in
  if (fd <? 0) || (fd >=? NOFILE) || (zget ofile fd =? NULL) then ret None
  else ret (Some (fd, zget ofile fd)).

Definition set_fd (p fd f : Z) : M kern unit :=
  pput p (fun x => set_p_ofile (zset fd f (p_ofile x)) x).

Definition fdalloc (f : Z) : M kern Z :=
  let! p := myproc c in
  let! ofile := pget p_ofile p in
  match scan (fun fd => zget ofile fd =? NULL) (Z.to_nat NOFILE) 0 with
  | Some fd =>
      set_fd p fd f ;;;
      ret fd
  | None => ret (-1)
  end.

Definition sys_dup : M kern Z :=
  let! r := argfd 0 in
  match r with
  | None => ret (-1)
  | Some (_, f) =>
      let! fd := fdalloc f in
      if fd <? 0 then ret (-1)
      else
        zoom kft (filedup f) ;;;
        ret fd
  end.

(** What file.c takes from myproc(): pid, page table and killed(). *)
Definition my_ids : M kern (Z * Z * bool) :=
  let! p := myproc c in
  let! pid := pget p_pid p in
  let! pt := pget p_pagetable p in
  let! k := pget p_killed p in
  ret (pid, pt, negb (k =? 0)).

Definition sys_read : M kern Z :=
  let! p := argaddr 1 in
  let! n := argint 2 in
  let! r := argfd 0 in
  match r with
  | None => ret (-1)
  | Some (_, f) =>
      let! me := my_ids in
      zoom kft (fileread devsw me.1.1 me.1.2 me.2 f p n)
  end.

Definition sys_write : M kern Z :=
  let! p := argaddr 1 in
  let! n := argint 2 in
  let! r := argfd 0 in
  match r with
  | None => ret (-1)
  | Some (_, f) =>
      let! me := my_ids in
      zoom kft (filewrite devsw me.1.1 me.1.2 me.2 f p n)
  end.

Definition sys_close : M kern Z :=
  let! r := argfd 0 in
  match r with
  | None => ret (-1)
  | Some (fd, f) =>
      let! p := myproc c in
      let! pid := pget p_pid p in
      set_fd p fd NULL ;;;
      zoom kft (fileclose pid f) ;;;
      ret 0
  end.

Definition sys_fstat (pad : list Z) : M kern Z :=
  let! st := argaddr 1 in
  let! r := argfd 0 in
  match r with
  | None => ret (-1)
  | Some (_, f) =>
      let! me := my_ids in
      zoom kft (filestat me.1.1 me.1.2 f st pad)
  end.

(** *** Names *)

Section Trans.
Context (pid cwd : Z).

Definition iset_nlink (d ip : Z) : M fsys unit :=
  iset ip (fun n => set_i_nlink (i16 (i_nlink n + d)) n).

(** sys_link() after begin_op(). *)
Definition link_op (old new : list Z) : M fsys Z :=
  let! ip := namei pid cwd old in
  if ip =? NULL then ret (-1)
  else
    ilock pid ip ;;;
    let! t := iget_field i_type ip in
    if t =? T_DIR then
      iunlockput pid ip ;;;
      ret (-1)
    else
      iset_nlink 1 ip ;;;
      iupdate pid ip ;;;
      iunlock pid ip ;;;
      let bad :=
        ilock pid ip ;;;
        iset_nlink (-1) ip ;;;
        iupdate pid ip ;;;
        iunlockput pid ip ;;;
        ret (-1) in
      let! r := nameiparent pid cwd new (replicate (Z.to_nat DIRSIZ) 0) in
      let dp := r.1 in
      if dp =? NULL then bad
      else
        ilock pid dp ;;;
        let! ddev := iget_field i_dev dp in
        let! idev := iget_field i_dev ip in
        let! inum := iget_field i_inum ip in
        let! ok := if negb (ddev =? idev) then ret false
                   else let! l := dirlink pid dp r.2 inum in ret (negb (l <? 0)) in
        if negb ok then
          iunlockput pid dp ;;;
          bad
        else
          iunlockput pid dp ;;;
          iput pid ip ;;;
          ret 0.

(** Is the directory empty except for "." and ".."? *)
Definition isdirempty (dp : Z) : M fsys bool :=
  let! size := iget_field i_size dp in
  loop (S (Z.to_nat size))
    (fun off =>
       if off <? size then
         let! r := readi_var pid dp off sizeof_dirent in
         if negb (r.1 =? sizeof_dirent) then panic "isdirempty: readi"
         else if negb (de_inum (get_dirent r.2) =? 0) then ret (inr false)
         else ret (inl (off + sizeof_dirent))
       else ret (inr true))
    (2 * sizeof_dirent).

(** sys_unlink() after begin_op(). *)
Definition unlink_op (path : list Z) : M fsys Z :=
  let! r := nameiparent pid cwd path (replicate (Z.to_nat DIRSIZ) 0) in
  let dp := r.1 in let name := r.2 in
  if dp =? NULL then ret (-1)
  else
    ilock pid dp ;;;
    let bad := iunlockput pid dp ;;; ret (-1) in
    (* cannot unlink "." or ".." *)
    if (namecmp name (cstring ".") =? 0) || (namecmp name (cstring "..") =? 0) then bad
    else
      let! d := dirlookup pid dp name in
      let ip := d.1 in
      if ip =? NULL then bad
      else
        ilock pid ip ;;;
        let! nlink := iget_field i_nlink ip in
        if nlink <? 1 then panic "unlink: nlink < 1"
        else
          let! t := iget_field i_type ip in
          let! e := if t =? T_DIR then isdirempty ip else ret true in
          if negb e then
            iunlockput pid ip ;;;
            bad
          else
            let! w := writei_var pid dp (replicate (Z.to_nat sizeof_dirent) 0) d.2 in
            if negb (w =? sizeof_dirent) then panic "unlink: writei"
            else
              (if t =? T_DIR then
                 iset_nlink (-1) dp ;;;
                 iupdate pid dp
               else ret tt) ;;;
              iunlockput pid dp ;;;
              iset_nlink (-1) ip ;;;
              iupdate pid ip ;;;
              iunlockput pid ip ;;;
              ret 0.

(** The inode, locked, or [NULL]. *)
Definition create (path : list Z) (type major minor : Z) : M fsys Z :=
  let! r := nameiparent pid cwd path (replicate (Z.to_nat DIRSIZ) 0) in
  let dp := r.1 in let name := r.2 in
  if dp =? NULL then ret NULL
  else
    ilock pid dp ;;;
    let! d := dirlookup pid dp name in
    if negb (d.1 =? NULL) then
      let ip := d.1 in
      iunlockput pid dp ;;;
      ilock pid ip ;;;
      let! t := iget_field i_type ip in
      if (type =? T_FILE) && ((t =? T_FILE) || (t =? T_DEVICE)) then ret ip
      else
        iunlockput pid ip ;;;
        ret NULL
    else
      let! dev := iget_field i_dev dp in
      let! ip := ialloc pid dev type in
      if ip =? NULL then
        iunlockput pid dp ;;;
        ret NULL
      else
        ilock pid ip ;;;
        iset ip (set_i_dev (i16 major) (i16 minor) 1) ;;;
        iupdate pid ip ;;;
        let! inum := iget_field i_inum ip in
        let! dinum := iget_field i_inum dp in
        let fail :=
          (* something went wrong, de-allocate ip *)
          iset ip (set_i_nlink 0) ;;;
          iupdate pid ip ;;;
          iunlockput pid ip ;;;
          iunlockput pid dp ;;;
          ret NULL in
        (* create . and .. entries *)
        let! ok := if type =? T_DIR then
                     let! r1 := dirlink pid ip (cstring ".") inum in
                     if r1 <? 0 then ret false
                     else let! r2 := dirlink pid ip (cstring "..") dinum in ret (negb (r2 <? 0))
                   else ret true in
        if negb ok then fail
        else
          let! r3 := dirlink pid dp name inum in
          if r3 <? 0 then fail
          else
            (if type =? T_DIR then
               iset_nlink 1 dp ;;;        (* for ".." *)
               iupdate pid dp
             else ret tt) ;;;
            iunlockput pid dp ;;;
            ret ip.
End Trans.

(** begin_op() and end_op() around a transaction of the current process. *)
Definition in_op {A} (op : Z -> Z -> M fsys A) : M kern A :=
  let! p := myproc c in
  let! pid := pget p_pid p in
  let! cwd := pget p_cwd p in
  kbegin_op ;;;
  let! r := zoom kfs (op pid cwd) in
  kend_op pid ;;;
  ret r.

Definition sys_link : M kern Z :=
  let! old := argstr 0 MAXPATH in
  if old.1 <? 0 then ret (-1)
  else
    let! new := argstr 1 MAXPATH in
    if new.1 <? 0 then ret (-1)
    else in_op (fun pid cwd => link_op pid cwd old.2 new.2).

Definition sys_unlink : M kern Z :=
  let! path := argstr 0 MAXPATH in
  if path.1 <? 0 then ret (-1)
  else in_op (fun pid cwd => unlink_op pid cwd path.2).

(** sys_open() from begin_op() to the point where the inode is locked. *)
Definition open_inode (pid cwd omode : Z) (path : list Z) : M fsys Z :=
  if negb (Z.land omode O_CREATE =? 0) then create pid cwd path T_FILE 0 0
  else
    let! ip := namei pid cwd path in
    if ip =? NULL then ret NULL
    else
      ilock pid ip ;;;
      let! t := iget_field i_type ip in
      if (t =? T_DIR) && negb (omode =? O_RDONLY) then
        iunlockput pid ip ;;;
        ret NULL
      else ret ip.

Definition sys_open : M kern Z :=
  let! omode := argint 1 in
  let! path := argstr 0 MAXPATH in
  if path.1 <? 0 then ret (-1)
  else
    let! p := myproc c in
    let! pid := pget p_pid p in
    let! cwd := pget p_cwd p in
    kbegin_op ;;;
    let! ip := zoom kfs (open_inode pid cwd omode path.2) in
    if ip =? NULL then kend_op pid ;;; ret (-1)
    else
      let bad :=
        zoom kfs (iunlockput pid ip) ;;;
        kend_op pid ;;;
        ret (-1) in
      let! t := zoom kfs (iget_field i_type ip) in
      let! major := zoom kfs (iget_field i_major ip) in
      if (t =? T_DEVICE) && ((major <? 0) || (major >=? NDEV)) then bad
      else
        let! f := zoom kft filealloc in
        if f =? NULL then bad
        else
          let! fd := fdalloc f in
          if fd <? 0 then
            zoom kft (fileclose pid f) ;;;
            bad
          else
            zoom kft (fput f (fun x =>
              let x := if t =? T_DEVICE then set_f_major major (set_f_type FD_DEVICE x)
                       else set_f_off 0 (set_f_type FD_INODE x) in
              let wr := negb (Z.land omode O_WRONLY =? 0) in
              set_f_rw (if wr then 0 else 1) (if wr || negb (Z.land omode O_RDWR =? 0) then 1 else 0)
                (set_f_ip ip x))) ;;;
            zoom kfs ((if negb (Z.land omode O_TRUNC =? 0) && (t =? T_FILE) then itrunc pid ip else ret tt) ;;;
                      iunlock pid ip) ;;;
            kend_op pid ;;;
            ret fd.

(** Create and put back; sys_mkdir() and sys_mknod() after their arguments. *)
Definition make_op (path : Z * list Z) (type major minor pid cwd : Z) : M fsys Z :=
  if path.1 <? 0 then ret (-1)
  else
    let! ip := create pid cwd path.2 type major minor in
    if ip =? NULL then ret (-1)
    else
      iunlockput pid ip ;;;
      ret 0.

Definition sys_mkdir : M kern Z :=
  let! p := myproc c in
  let! pid := pget p_pid p in
  let! cwd := pget p_cwd p in
  kbegin_op ;;;
  let! path := argstr 0 MAXPATH in
  let! r := zoom kfs (make_op path T_DIR 0 0 pid cwd) in
  kend_op pid ;;;
  ret r.

Definition sys_mknod : M kern Z :=
  let! p := myproc c in
  let! pid := pget p_pid p in
  let! cwd := pget p_cwd p in
  kbegin_op ;;;
  let! major := argint 1 in
  let! minor := argint 2 in
  let! path := argstr 0 MAXPATH in
  let! r := zoom kfs (make_op path T_DEVICE major minor pid cwd) in
  kend_op pid ;;;
  ret r.

Definition sys_chdir : M kern Z :=
  let! p := myproc c in
  let! pid := pget p_pid p in
  let! cwd := pget p_cwd p in
  kbegin_op ;;;
  let! path := argstr 0 MAXPATH in
  let! ip := if path.1 <? 0 then ret NULL else zoom kfs (namei pid cwd path.2) in
  if ip =? NULL then kend_op pid ;;; ret (-1)
  else
    zoom kfs (ilock pid ip) ;;;
    let! t := zoom kfs (iget_field i_type ip) in
    if negb (t =? T_DIR) then
      zoom kfs (iunlockput pid ip) ;;;
      kend_op pid ;;;
      ret (-1)
    else
      zoom kfs (iunlock pid ip) ;;;
      zoom kfs (iput pid cwd) ;;;
      kend_op pid ;;;
      pput p (set_p_cwd ip) ;;;
      ret 0.

(** The argv[] of sys_exec(): the pages filled so far, and whether all went
    well. *)
Definition exec_argv (uargv : Z) : M kern (bool * list Z) :=
  loop (S (S (Z.to_nat MAXARG)))
    (fun '(i, argv) =>
       if i >=? MAXARG then ret (inr (false, argv))
       else
         let! u := fetchaddr (u64 (uargv + 8 * i)) in
         if u.1 <? 0 then ret (inr (false, argv))
         else if u.2 =? 0 then ret (inr (true, argv))
         else
           let! a := zoom kvm kalloc in
           let argv := zset i a argv in
           if a =? 0 then ret (inr (false, argv))
           else
             let! r := fetchstr u.2 PGSIZE in
             zoom kvm (upd_mem (write_bytes a r.2)) ;;;
             if r.1 <? 0 then ret (inr (false, argv))
             else ret (inl (i + 1, argv)))
    (0, replicate (Z.to_nat MAXARG) 0).

Definition free_argv (argv : list Z) : M kern unit :=
  zoom kvm (loop (S (Z.to_nat MAXARG))
    (fun i =>
       if (i <? MAXARG) && negb (zget argv i =? 0) then
         kfree (zget argv i) ;;;
         ret (inl (i + 1))
       else ret (inr tt)) 0).

Definition sys_exec : M kern Z :=
  let! uargv := argaddr 1 in
  let! path := argstr 0 MAXPATH in
  if path.1 <? 0 then ret (-1)
  else
    let! r := exec_argv uargv in
    let! v := if r.1 : bool then exec c path.2 r.2 else ret (-1) in
    free_argv r.2 ;;;
    ret v.

Definition int_bytes (v : Z) : list Z := put32 0 (u32 v) [0; 0; 0; 0].

Definition sys_pipe : M kern Z :=
  let! p := myproc c in
  let! pid := pget p_pid p in
  let! pt := pget p_pagetable p in
  let! fdarray := argaddr 0 in
  let! r := zoom kft (pipealloc pid) in
  match r with
  | None => ret (-1)
  | Some (rf, wf) =>
      let bad := zoom kft (fileclose pid rf) ;;; zoom kft (fileclose pid wf) ;;; ret (-1) in
      let! fd0 := fdalloc rf in
      if fd0 <? 0 then bad
      else
        let! fd1 := fdalloc wf in
        if fd1 <? 0 then
          set_fd p fd0 NULL ;;;
          bad
        else
          let! r0 := zoom kvm (copyout pt fdarray (int_bytes fd0)) in
          let! r1 := if r0 <? 0 then ret (-1)
                     else zoom kvm (copyout pt (u64 (fdarray + 4)) (int_bytes fd1)) in
          if r1 <? 0 then
            set_fd p fd0 NULL ;;;
            set_fd p fd1 NULL ;;;
            bad
          else ret 0
  end.

(** ** Dispatch *)

Definition run_sys (pad : list Z) (n : sysno) : M kern Z :=
  match n with
  | SYS_fork => sys_fork | SYS_exit => sys_exit | SYS_wait => sys_wait | SYS_pipe => sys_pipe
  | SYS_read => sys_read | SYS_kill => sys_kill | SYS_exec => sys_exec | SYS_fstat => sys_fstat pad
  | SYS_chdir => sys_chdir | SYS_dup => sys_dup | SYS_getpid => sys_getpid | SYS_sbrk => sys_sbrk
  | SYS_sleep => sys_sleep | SYS_uptime => sys_uptime | SYS_open => sys_open | SYS_write => sys_write
  | SYS_mknod => sys_mknod | SYS_unlink => sys_unlink | SYS_link => sys_link | SYS_mkdir => sys_mkdir
  | SYS_close => sys_close
  end.

(** syscalls[num] *)
Definition syscalls (num : Z) : option sysno := find (fun n => sysno_val n =? num) all_sysnos.

Definition syscall (pad : list Z) : M kern unit :=
  let! p := myproc c in
  let! v := tf_get p a7 in
  let num := i32 v in
  match syscalls num with
  | Some n =>
      let! r := run_sys pad n in
      tf_put p a0 r
  | None =>
      (* printf("%d %s: unknown sys call %d\n") *)
      zoom kfs (printf_line "unknown sys call") ;;;
      tf_put p a0 (-1)
  end.
End Syscall.
