(* ===== verification/SyscallProps.v ===== *)
(** Arguments of system calls, and exec(). *)

From S2P Require Import Prelude Riscv CString Kalloc Vm Sleeplock Fields BlockCache Log Fs FsAlloc Pipe File Proc ProcInv ProcProps ProcSteps ProcLive ProcWitness Exec Syscall.

Section ExecProps.
Context `{Image} (c : Z).

(** An operation that changes only what is below the process table. *)
Definition keeps {A} (m : M kern A) : Prop := forall s (Q : A -> kern -> Prop) (R : kern -> Prop),
  (forall a v, Q a (put_ft v s)) -> (forall v, R (put_ft v s)) -> wlp m Q R s.

Lemma keeps_bind {A B} (m : M kern A) (k : A -> M kern B) :
  keeps m -> (forall a, keeps (k a)) -> keeps (bind m k).
Proof.
  intros Hm Hk s Q R HQ HR. apply wlp_bind. apply Hm; [|done]. intros a v. apply Hk; [|done]. done.
Qed.
Lemma keeps_ret {A} (a : A) : keeps (ret a).
Proof. intros s Q R HQ HR. apply wlp_ret. specialize (HQ a (kn_ft s)). by destruct s. Qed.
Lemma keeps_gets {A} (f : kern -> A) : keeps (gets f).
Proof. intros s Q R HQ HR. apply wlp_gets. specialize (HQ (f s) (kn_ft s)). by destruct s. Qed.
Lemma keeps_panic {A} msg : keeps (panic (A:=A) msg).
Proof. done. Qed.
Lemma keeps_nofuel {A} : keeps (fun _ => NoFuel : res kern A).
Proof. done. Qed.
Lemma keeps_if {A} (b : bool) (m n : M kern A) : keeps m -> keeps n -> keeps (if b then m else n).
Proof. by destruct b. Qed.
Lemma keeps_kvm {A} (m : M kst A) : keeps (zoom kvm m).
Proof. intros s Q R. apply wlp_kvm. Qed.
Lemma keeps_kfs {A} (m : M fsys A) : keeps (zoom kfs m).
Proof. intros s Q R. apply wlp_kfs. Qed.
Lemma keeps_kft {A} (m : M ftab A) : keeps (zoom kft m).
Proof. intros s Q R. apply wlp_kft. Qed.
Lemma keeps_loop {X B} fuel (body : X -> M kern (X + B)) x :
  (forall x, keeps (body x)) -> keeps (loop fuel body x).
Proof.
  intros Hb. revert x. induction fuel as [|n IH]; intros x; [done|]. cbn [loop].
  apply keeps_bind; [done|]. intros [x'|b]; [apply IH|apply keeps_ret].
Qed.

Ltac keeps :=
  repeat first
    [ apply keeps_ret | apply keeps_gets | apply keeps_panic | apply keeps_nofuel
    | apply keeps_kvm | apply keeps_kfs | apply keeps_kft
    | apply keeps_bind; [|intros]
    | apply keeps_if
    | apply keeps_loop; intros
    | match goal with |- keeps (match ?x with _ => _ end) => destruct x end ].

Lemma keeps_loadseg pid pt va ip off sz : keeps (loadseg pid pt va ip off sz).
Proof. unfold loadseg. keeps. Qed.
Lemma keeps_segs pid pt ip elf : keeps (exec_segs pid pt ip elf).
Proof. unfold exec_segs. apply keeps_loop. intros [[i off] sz]. keeps; apply keeps_loadseg. Qed.
Lemma keeps_bad pid pt sz ip : keeps (exec_bad pid pt sz ip).
Proof. unfold exec_bad, kend_op. keeps. Qed.
Lemma keeps_pagetable p : keeps (proc_pagetable p).
Proof. unfold proc_pagetable, pget. keeps. Qed.

(** exec_bad() returns -1. *)
Lemma bad_spec pid pt sz ip s (Q : Z -> kern -> Prop) (R : kern -> Prop) :
  (forall v, Q (-1) (put_ft v s)) -> (forall v, R (put_ft v s)) -> wlp (exec_bad pid pt sz ip) Q R s.
Proof.
  intros HQ HR. unfold exec_bad. apply wlp_bind.
  apply (keeps_if _ _ (ret tt)); [apply keeps_kvm|apply keeps_ret| |done]. intros _ v1. apply wlp_bind.
  apply (keeps_if _ _ (ret tt)); [unfold kend_op; keeps|apply keeps_ret| |done]. intros _ v2. apply wlp_ret, (HQ v2).
Qed.

(** The arguments up to the null pointer, and no more. *)
Definition arg_count (argv : list Z) (n : Z) : Prop :=
  zget argv n = 0 /\ forall i, 0 <= i < n -> zget argv i <> 0.

(** Where exec() pushes: inside the stack page, 16-byte aligned. *)
Definition on_stack (base top sp : Z) : Prop := base <= sp < top /\ sp mod 16 = 0.

Lemma strlen_loop_bound fuel s n r : strlen_loop fuel s n = Some r -> n <= r < n + Z.of_nat fuel.
Proof.
  revert n. induction fuel as [|k IH]; intros n; cbn [strlen_loop]; [done|].
  destruct (_ =? 0); cbn [negb]; [intros [= <-]; lia|]. intros He%IH. lia.
Qed.

Lemma align16 x : 0 <= x < 2 ^ 64 ->
  u64 (x - x mod 16) = x - x mod 16 /\ (x - x mod 16) mod 16 = 0 /\ 0 <= x - x mod 16 <= x.
Proof.
  intros Hx. pose proof (Z.mod_pos_bound x 16 ltac:(lia)). pose proof (Z.div_mod x 16 ltac:(lia)).
  assert (Ha : x - x mod 16 = (x / 16) * 16) by lia.
  rewrite u64_small by (unfold is_u64; lia). split; [done|]. split; [|lia]. rewrite Ha. by apply Z_mod_mult.
Qed.

(** The stack page exec() lays out. *)
Record stack_page (base top : Z) : Prop := {
  sk_base : PGSIZE <= base < 2 ^ 64 - PGSIZE;
  sk_top : top = base + PGSIZE;
  sk_align : top mod 16 = 0;
}.

(** The pointers pushed so far, and the stack pointer. *)
Definition pushed (base top sp : Z) (ustack : list Z) : Prop :=
  stack_page base top -> Forall (on_stack base top) ustack /\ base <= sp <= top /\ sp mod 16 = 0.

Lemma pushed_next base top sp ustack len :
  pushed base top sp ustack -> 0 <= len < PGSIZE ->
  let x := u64 (sp - (len + 1)) in let y := u64 (x - x mod 16) in
  base <= y -> pushed base top y (ustack ++ [y]).
Proof.
  intros Hp Hl x y Hy Hsk. destruct (Hp Hsk) as (Hu & Hsp & Hal). destruct Hsk as [Hb -> Ht]. unfold PGSIZE in *.
  assert (Hx : x = sp - (len + 1)) by (apply u64_small; unfold is_u64; lia).
  destruct (align16 x) as (He & Hx16 & Hxl); [lia|]. fold y in He. rewrite <- He in Hx16, Hxl.
  split; [|split; [lia|done]]. apply Forall_app. split; [done|]. repeat constructor; [lia|lia|done].
Qed.

Lemma args_spec pt base top argv s (Q : option (Z * list Z) -> kern -> Prop) (R : kern -> Prop) :
  (forall v, Q None (put_ft v s)) ->
  (forall v sp ustack, arg_count argv (Z.of_nat (length ustack)) -> pushed base top sp ustack ->
     Q (Some (sp, ustack)) (put_ft v s)) ->
  (forall v, R (put_ft v s)) ->
  wlp (exec_args pt base top argv) Q R s.
Proof.
  intros Hn Hs HR. unfold exec_args.
  match goal with |- wlp (loop _ ?f _) _ _ _ => set (body := f) end.
  assert (Hgen : forall fuel ustack sp v,
    (forall i, 0 <= i < Z.of_nat (length ustack) -> zget argv i <> 0) -> pushed base top sp ustack ->
    wlp (loop fuel body (Z.of_nat (length ustack), sp, ustack)) Q R (put_ft v s)).
  { induction fuel as [|fuel IH]; intros ustack sp v Hnz Hp; [done|]. cbn [loop]. wlp_step. unfold body at 1.
    cbv zeta. destruct (Z.eqb_spec (zget argv (Z.of_nat (length ustack))) 0) as [Hz|Hz]; cbn [negb].
    { wlp_steps. by apply Hs. }
    destruct (_ >=? _); [wlp_steps; apply Hn|]. wlp_steps.
    unfold strlen. destruct (strlen_loop _ _ _) as [len|] eqn:El; [|done].
    apply strlen_loop_bound in El. destruct (Z.ltb_spec (u64 (u64 (sp - (len + 1)) - u64 (sp - (len + 1)) mod 16)) base).
    { wlp_steps. apply Hn. }
    wlp_steps. apply wlp_kvm; [|intros; apply HR]. intros r v'.
    destruct (r <? 0); [wlp_steps; apply Hn|]. wlp_steps.
    change (put_ft v' (put_ft v s)) with (put_ft v' s).
    set (y := u64 (_ - _ mod 16)) in *.
    replace (Z.of_nat (length ustack) + 1) with (Z.of_nat (length (ustack ++ [y])))
      by (rewrite length_app; cbn; lia).
    apply IH.
    - intros i Hi. rewrite length_app in Hi. cbn in Hi.
      destruct (decide (i = Z.of_nat (length ustack))) as [->|]; [done|]. apply Hnz. lia.
    - apply pushed_next; [done|lia|done]. }
  replace s with (put_ft (kn_ft s) s) by (by destruct s).
  apply (Hgen _ [] top); [cbn; lia|]. intros [Hb -> Ht]. split; [constructor|]. unfold PGSIZE in *. split; [lia|done].
Qed.

(** A new image in the entry of the process. *)
Definition new_image (x x' : proc) (pt sz : Z) : Prop :=
  exists name, x' = set_p_sz sz (set_p_pagetable pt (set_p_name name x)).

Lemma image_spec p pid pt sz elf path argv s :
  wlp (exec_image p pid pt sz elf path argv)
    (fun r s' => r = -1 /\ kn_proc s' = kn_proc s \/
       0 <= r /\ arg_count argv r /\
       exists sz' x, new_image (kn_proc s p) x pt sz' /\ kn_proc s' = fset (kn_proc s) p x)
    (fun s' => kn_proc s' = kn_proc s \/ exists x, kn_proc s' = fset (kn_proc s) p x) s.
Proof.
  match goal with |- wlp _ _ ?r _ => set (R := r) end.
  assert (HR : forall v, R (put_ft v s)) by (by left).
  assert (HR' : forall v x, R (with_p s p v x)) by (intros v x; right; by exists x).
  unfold exec_image. wlp_steps. apply wlp_kvm; [|done]. intros sz1 v1.
  destruct (sz1 =? 0); [apply bad_spec; [by left|done]|]. wlp_step. apply wlp_kvm; [|done]. intros _ v2.
  apply wlp_bind. apply args_spec; [| |done].
  { intros v3. apply bad_spec; [by left|done]. }
  intros v3 sp0 ustack Hcount _. set (sp1 := u64 (_ - _)). destruct (_ <? _); [apply bad_spec; [by left|done]|].
  wlp_step. apply wlp_kvm; [|done]. intros r v4. destruct (r <? 0); [apply bad_spec; [by left|done]|].
  unfold tf_put. wlp_steps. apply wlp_kvm; [|done]. intros _ v5.
  change (put_ft v5 _) with (put_ft v5 s). rewrite <- (with_p_self (put_ft v5 s) p). wlp_steps. rewrite !with_p_upd.
  apply wlp_kvm; [|intros; apply HR']. intros _ v6. wlp_steps. apply wlp_kvm; [|intros; apply HR']. intros _ v7. wlp_steps.
  apply wlp_kvm; [|intros; apply HR']. intros _ v8. wlp_steps. right. split; [lia|]. split; [done|].
  eexists _, _. split; [|reflexivity]. by eexists.
Qed.


End ExecProps.

(** * Arguments *)

Lemma fetchaddr_eq `{Image} c addr s :
  let p := kn_proc s (kn_cpu s c) in
  fetchaddr c addr s =
  if (p_sz p <=? addr) || (p_sz p <? u64 (addr + 8)) then Ok (-1, 0) s
  else (let! r := zoom kvm (copyin (p_pagetable p) addr 8) in
        if negb (r.1 =? 0) then ret (-1, 0) else ret (0, get_le 8 r.2 0)) s.
Proof.
  intros p. rewrite <- Z.geb_leb, <- Z.gtb_ltb. unfold fetchaddr.
  unfold myproc, pget, gets, bind at 1 2. fold p. destruct (_ || _); [done|].
  unfold bind at 1. fold p. generalize (copyin (p_pagetable p) addr 8) as m. done.
Qed.

(** fetchaddr() reads an address exactly when its eight bytes lie below the
    size of the process, for every 64-bit address: the sum that wraps around is
    caught, and an address that fails the test is refused without touching
    memory. *)
Theorem fetchaddr_in_bounds `{Image} c addr s :
  let p := kn_proc s (kn_cpu s c) in
  is_u64 addr -> 0 <= p_sz p <= MAXVA ->
  fetchaddr c addr s =
  if decide (addr + 8 <= p_sz p) then
    (let! r := zoom kvm (copyin (p_pagetable p) addr 8) in
     if negb (r.1 =? 0) then ret (-1, 0) else ret (0, get_le 8 r.2 0)) s
  else Ok (-1, 0) s.
Proof.
  intros p Ha Hsz. rewrite fetchaddr_eq. fold p.
  assert (Hm : MAXVA = 2 ^ 38) by reflexivity. rewrite Hm in Hsz. unfold is_u64 in Ha.
  destruct (Z.leb_spec (p_sz p) addr); cbn [orb].
  { by rewrite decide_False by lia. }
  rewrite u64_small by (unfold is_u64; lia). destruct (Z.ltb_spec (p_sz p) (addr + 8)).
  - by rewrite decide_False by lia.
  - by rewrite decide_True by lia.
Qed.

(** * sleep() *)

Lemma i32_u32 n : - 2 ^ 31 <= n < 0 -> u32 n = n + 2 ^ 32.
Proof.
  intros Hn. unfold u32. rewrite <- (Z.mod_add n 1) by lia. rewrite Z.mod_small; lia.
Qed.

(** Where the loop of sys_sleep() stops, for a process that is not killed. *)
Lemma sleep_loop_spec ticks_addr c n ticks0 s (Q : Z -> kern -> Prop) (R : kern -> Prop) :
  unlocked s -> prange (kn_cpu s c) -> p_killed (kn_proc s (kn_cpu s c)) = 0 ->
  (u32 n <= u32 (kn_ticks s - ticks0) -> Q 0 (unlockd c tickslock (lockd c tickslock s))) ->
  (forall s', u32 (kn_ticks s - ticks0) < u32 n -> p_state (kn_proc s' (kn_cpu s c)) = SLEEPING -> R s') ->
  wlp (sleep_loop ticks_addr c n ticks0) Q R (lockd c tickslock s).
Proof.
  intros Hl Hp Hk HQ HR. unfold sleep_loop. do 2 wlp_step. cbn [kn_ticks lockd].
  change (kn_ticks (lockd c tickslock s)) with (kn_ticks s).
  destruct (Z.ltb_spec (u32 (kn_ticks s - ticks0)) (u32 n)) as [Hlt|Hge].
  - unfold myproc. do 2 wlp_step. apply wlp_bind. unfold wlp at 1.
    rewrite killed_eq by (by apply Hl). change (kn_proc (lockd c tickslock s)) with (kn_proc s).
    change (kn_cpu (lockd c tickslock s)) with (kn_cpu s). rewrite Hk. cbn [Z.eqb negb].
    unfold sleep, myproc. wlp_steps. apply wlp_acquire. intros _. wlp_step. apply wlp_release. intros _. wlp_steps.
    apply sched_spec. intros _ _ _. apply HR; [done|]. cbn. by rewrite !fset_eq.
  - wlp_step. apply wlp_release. intros _. wlp_step. by apply HQ.
Qed.

(** sys_sleep() compares the elapsed ticks with its argument as unsigned
    numbers: with a negative argument the process does not return from
    sleep() before 2^31 ticks have passed, unless it is killed - the loop goes
    to sleep again. *)
Theorem sleep_negative_does_not_return ticks_addr c n ticks0 s :
  unlocked s -> prange (kn_cpu s c) -> p_killed (kn_proc s (kn_cpu s c)) = 0 ->
  - 2 ^ 31 <= n < 0 -> u32 (kn_ticks s - ticks0) < 2 ^ 31 ->
  wlp (sleep_loop ticks_addr c n ticks0) (fun _ _ => False)
    (fun s' => p_state (kn_proc s' (kn_cpu s c)) = SLEEPING) (lockd c tickslock s).
Proof.
  intros Hl Hp Hk Hn Ht. apply sleep_loop_spec; try done.
  rewrite i32_u32 by done. lia.
Qed.

(** * Concrete calls *)

#[local] Existing Instance demo_image.


(** The eight bytes at 2^64 - 4 wrap around. *)
Lemma fetchaddr_in_bounds_witness :
  fetchaddr 0 (2 ^ 64 - 4) ProcDemo.run5 = Ok (-1, 0) ProcDemo.run5.
Proof.
  rewrite (fetchaddr_in_bounds 0 (2 ^ 64 - 4) ProcDemo.run5);
    [reflexivity|done|split; discriminate].
Defined.

(** sleep(-1) at tick 0. *)
Lemma sleep_negative_does_not_return_witness :
  wlp (sleep_loop 0x80008000 0 (-1) 0) (fun _ _ => False)
    (fun s' => p_state (kn_proc s' 1) = SLEEPING) (lockd 0 tickslock ProcDemo.run5).
Proof.
  apply (sleep_negative_does_not_return 0x80008000 0 (-1) 0 ProcDemo.run5).
  - apply ProcDemo.run5_inv.
  - done.
  - reflexivity.
  - done.
  - reflexivity.
Defined.
