(* ===== verification/Console.v ===== *)
(** The console and the UART: kernel/console.c, kernel/uart.c.

    The UART is a device: its line status says whether a byte has arrived and
    whether the transmit register can take one ([u_rx], [u_room]), and it keeps
    what is written to the transmit register ([u_out]).  A wait that spins on
    the line status ends when the device has made room.

    sleep() ends a run, as in [Pipe]: a run says on which channel, and the next
    run goes on behind the call.  [u_sent] is not in the code: the bytes
    uartstart() has taken from the buffer. *)

From S2P Require Import Prelude Ring Riscv CString Kalloc Vm Fields.

Definition UART_TX_BUF_SIZE : Z := 32.
Definition INPUT_BUF_SIZE : Z := 128.
Definition BACKSPACE : Z := 0x100.
(** Control-x *)
Definition CTRL (x : Z) : Z := x - 64.
Definition CTRL_D : Z := CTRL 68.
Definition CTRL_H : Z := CTRL 72.
Definition CTRL_P : Z := CTRL 80.
Definition CTRL_U : Z := CTRL 85.
Definition DEL : Z := 0x7f.
Definition NL : Z := 10.
Definition CR : Z := 13.

(** The UART's registers and line status bits. *)
Inductive ureg : Type := RHR | THR | IER | FCR | ISR | LCR | LSR | DLL | DLM.
Definition LSR_RX_READY : Z := 1.
Definition LSR_TX_IDLE : Z := 32.
Definition LCR_BAUD_LATCH : Z := 128.
Definition LCR_EIGHT_BITS : Z := 3.
Definition FCR_FIFO_ENABLE : Z := 1.
Definition FCR_FIFO_CLEAR : Z := 6.
Definition IER_RX_ENABLE : Z := 1.
Definition IER_TX_ENABLE : Z := 2.

Record uart : Type := mkUart {
  u_lock : bool;          (** uart_tx_lock *)
  u_buf : list Z;         (** uart_tx_buf *)
  u_w : Z;                (** uart_tx_w *)
  u_r : Z;                (** uart_tx_r *)
  u_rx : list Z;          (** the device: bytes that have arrived *)
  u_room : Z;             (** bytes the transmit register can take *)
  u_out : list Z;         (** bytes sent *)
  u_cfg : list (ureg * Z);(** configuration writes, in order *)
  u_sent : list Z;
}.

Record cons : Type := mkCons {
  c_lock : bool;
  c_buf : list Z;
  c_r : Z;                (** read index *)
  c_w : Z;                (** write index *)
  c_e : Z;                (** edit index *)
}.

Record con : Type := mkCon {
  cn_cons : cons;
  cn_uart : uart;
  cn_vm : kst;
  cn_woken : list Z;
  cn_panicked : Z;
  cn_dumps : Z;           (** calls of procdump() *)
}.

(** Channels: &uart_tx_r and &cons.r. *)
Definition TX_R : Z := 1.
Definition CONS_R : Z := 2.

Definition put_cons (v : cons) (s : con) : con :=
  mkCon v (cn_uart s) (cn_vm s) (cn_woken s) (cn_panicked s) (cn_dumps s).
Definition put_uart (v : uart) (s : con) : con :=
  mkCon (cn_cons s) v (cn_vm s) (cn_woken s) (cn_panicked s) (cn_dumps s).
Definition upd_cons (f : cons -> cons) : M con unit := modify (fun s => put_cons (f (cn_cons s)) s).
Definition upd_uart (f : uart -> uart) : M con unit := modify (fun s => put_uart (f (cn_uart s)) s).
Definition con_vm : lens con kst :=
  mkLens cn_vm (fun v s => mkCon (cn_cons s) (cn_uart s) v (cn_woken s) (cn_panicked s) (cn_dumps s)).
Definition con_wakeup (ch : Z) : M con unit :=
  modify (fun s => mkCon (cn_cons s) (cn_uart s) (cn_vm s) (ch :: cn_woken s) (cn_panicked s) (cn_dumps s)).
Definition count_dump : M con unit :=
  modify (fun s => mkCon (cn_cons s) (cn_uart s) (cn_vm s) (cn_woken s) (cn_panicked s) (cn_dumps s + 1)).

Definition set_u_lock (b : bool) (u : uart) : uart :=
  mkUart b (u_buf u) (u_w u) (u_r u) (u_rx u) (u_room u) (u_out u) (u_cfg u) (u_sent u).
Definition set_u_tx (buf : list Z) (w r : Z) (sent : list Z) (u : uart) : uart :=
  mkUart (u_lock u) buf w r (u_rx u) (u_room u) (u_out u) (u_cfg u) sent.
Definition set_u_dev (rx : list Z) (room : Z) (out : list Z) (u : uart) : uart :=
  mkUart (u_lock u) (u_buf u) (u_w u) (u_r u) rx room out (u_cfg u) (u_sent u).
Definition add_u_cfg (r : ureg) (v : Z) (u : uart) : uart :=
  mkUart (u_lock u) (u_buf u) (u_w u) (u_r u) (u_rx u) (u_room u) (u_out u) (u_cfg u ++ [(r, v)]) (u_sent u).
Definition set_c_lock (b : bool) (k : cons) : cons := mkCons b (c_buf k) (c_r k) (c_w k) (c_e k).
Definition set_c_r (v : Z) (k : cons) : cons := mkCons (c_lock k) (c_buf k) v (c_w k) (c_e k).
Definition set_c_w (v : Z) (k : cons) : cons := mkCons (c_lock k) (c_buf k) (c_r k) v (c_e k).
Definition set_c_e (v : Z) (k : cons) : cons := mkCons (c_lock k) (c_buf k) (c_r k) (c_w k) v.
Definition set_c_buf (v : list Z) (k : cons) : cons := mkCons (c_lock k) v (c_r k) (c_w k) (c_e k).

Definition uart_tx_lock : lens con bool :=
  mkLens (fun s => u_lock (cn_uart s)) (fun b s => put_uart (set_u_lock b (cn_uart s)) s).
Definition cons_lock : lens con bool :=
  mkLens (fun s => c_lock (cn_cons s)) (fun b s => put_cons (set_c_lock b (cn_cons s)) s).

(** * The UART *)

(** ReadReg(LSR), ReadReg(RHR) and WriteReg(THR, c). *)
Definition read_lsr : M con Z :=
  gets (fun s => let u := cn_uart s in
    Z.lor (match u_rx u with [] => 0 | _ => LSR_RX_READY end) (if u_room u >? 0 then LSR_TX_IDLE else 0)).
Definition read_rhr : M con Z :=
  let! rx := gets (fun s => u_rx (cn_uart s)) in
  match rx with
  | [] => ret 0
  | x :: rx => upd_uart (fun u => set_u_dev rx (u_room u) (u_out u) u) ;;; ret x
  end.
Definition write_thr (ch : Z) : M con unit :=
  upd_uart (fun u => set_u_dev (u_rx u) (u_room u - 1) (u_out u ++ [u8 ch]) u).
Definition write_cfg (r : ureg) (v : Z) : M con unit := upd_uart (add_u_cfg r v).

Definition uartinit : M con unit :=
  write_cfg IER 0x00 ;;;                  (* disable interrupts *)
  write_cfg LCR LCR_BAUD_LATCH ;;;        (* special mode to set baud rate *)
  write_cfg DLL 0x03 ;;;                  (* LSB for baud rate of 38.4K *)
  write_cfg DLM 0x00 ;;;                  (* MSB *)
  write_cfg LCR LCR_EIGHT_BITS ;;;        (* leave set-baud mode; 8 bits, no parity *)
  write_cfg FCR (Z.lor FCR_FIFO_ENABLE FCR_FIFO_CLEAR) ;;;
  write_cfg IER (Z.lor IER_TX_ENABLE IER_RX_ENABLE) ;;;
  modify (lset uart_tx_lock false).

(** A loop for(;;) that does nothing. *)
Definition spin {A} : M con A := fun _ => NoFuel.

Definition uartputc_sync (ch : Z) : M con unit :=
  let! pk := gets cn_panicked in
  if negb (pk =? 0) then spin
  else
    (* wait for Transmit Holding Empty to be set in LSR *)
    upd_uart (fun u => set_u_dev (u_rx u) (if u_room u >? 0 then u_room u else 1) (u_out u) u) ;;;
    write_thr ch.

(** If the UART is idle, and a character is waiting in the transmit buffer,
    send it. *)
Definition uartstart : M con unit :=
  let! n := gets (fun s => rfill (2 ^ 64) (u_r (cn_uart s)) (u_w (cn_uart s))) in
  loop (S (Z.to_nat n))
    (fun _ : unit =>
       let! u := gets cn_uart in
       if u_w u =? u_r u then ret (inr tt)           (* transmit buffer is empty *)
       else
         let! lsr := read_lsr in
         if Z.land lsr LSR_TX_IDLE =? 0 then ret (inr tt)
         else
           let ch := zget (u_buf u) (u_r u mod UART_TX_BUF_SIZE) in
           upd_uart (set_u_tx (u_buf u) (u_w u) (u64 (u_r u + 1)) (u_sent u ++ [ch])) ;;;
           (* maybe uartputc() is waiting for space in the buffer *)
           con_wakeup TX_R ;;;
           write_thr ch ;;;
           ret (inl tt))
    tt.

(** false when it sleeps on &uart_tx_r. *)
Definition uartputc (ch : Z) : M con bool :=
  acquire uart_tx_lock ;;;
  let! pk := gets cn_panicked in
  if negb (pk =? 0) then spin
  else
    let! u := gets cn_uart in
    if u_w u =? u64 (u_r u + UART_TX_BUF_SIZE) then
      (* buffer is full: sleep(&uart_tx_r, &uart_tx_lock) *)
      release uart_tx_lock ;;;
      ret false
    else
      upd_uart (set_u_tx (zset (u_w u mod UART_TX_BUF_SIZE) (u8 ch) (u_buf u)) (u64 (u_w u + 1)) (u_r u) (u_sent u)) ;;;
      uartstart ;;;
      release uart_tx_lock ;;;
      ret true.

Definition uartgetc : M con Z :=
  let! lsr := read_lsr in
  if negb (Z.land lsr 1 =? 0) then read_rhr       (* input data is ready *)
  else ret (-1).

(** * The console *)

Definition consputc (ch : Z) : M con unit :=
  if ch =? BACKSPACE then
    uartputc_sync 8 ;;; uartputc_sync 32 ;;; uartputc_sync 8
  else uartputc_sync ch.

(** cons.buf[i % INPUT_BUF_SIZE] *)
Definition cbuf (k : cons) (i : Z) : Z := zget (c_buf k) (i mod INPUT_BUF_SIZE).

Definition erase1 : M con unit :=
  upd_cons (fun k => set_c_e (u32 (c_e k - 1)) k) ;;;
  consputc BACKSPACE.

Definition consoleintr (ch : Z) : M con unit :=
  acquire cons_lock ;;;
  (if ch =? CTRL_P then count_dump                    (* print process list *)
   else if ch =? CTRL_U then                          (* kill line *)
     let! n := gets (fun s => rfill (2 ^ 32) (c_w (cn_cons s)) (c_e (cn_cons s))) in
     loop (S (Z.to_nat n))
       (fun _ : unit =>
          let! k := gets cn_cons in
          if negb (c_e k =? c_w k) && negb (cbuf k (u32 (c_e k - 1)) =? NL) then
            erase1 ;;;
            ret (inl tt)
          else ret (inr tt))
       tt
   else if (ch =? CTRL_H) || (ch =? DEL) then         (* backspace *)
     let! k := gets cn_cons in
     if negb (c_e k =? c_w k) then erase1 else ret tt
   else
     let! k := gets cn_cons in
     if negb (ch =? 0) && (u32 (c_e k - c_r k) <? INPUT_BUF_SIZE) then
       let ch := if ch =? CR then NL else ch in
       (* echo back to the user *)
       consputc ch ;;;
       (* store for consumption by consoleread() *)
       upd_cons (fun k => set_c_e (u32 (c_e k + 1))
                            (set_c_buf (zset (c_e k mod INPUT_BUF_SIZE) (u8 ch) (c_buf k)) k)) ;;;
       let! k := gets cn_cons in
       if (ch =? NL) || (ch =? CTRL_D) || (u32 (c_e k - c_r k) =? INPUT_BUF_SIZE) then
         (* a whole line (or end-of-file) has arrived *)
         upd_cons (fun k => set_c_w (c_e k) k) ;;;
         con_wakeup CONS_R
       else ret tt
     else ret tt) ;;;
  release cons_lock.

Definition uartintr : M con unit :=
  (* read and process incoming characters *)
  let! n := gets (fun s => length (u_rx (cn_uart s))) in
  loop (S n)
    (fun _ : unit =>
       let! ch := uartgetc in
       if ch =? -1 then ret (inr tt)
       else
         consoleintr ch ;;;
         ret (inl tt))
    tt ;;;
  (* send buffered characters *)
  acquire uart_tx_lock ;;;
  uartstart ;;;
  release uart_tx_lock.

Section Console.
Context (pagetable : Z).

Definition con_copyout (user_dst : bool) (dst ch : Z) : M con Z :=
  if user_dst then zoom con_vm (copyout pagetable dst [ch])
  else zoom con_vm (upd_mem (write_bytes dst [ch])) ;;; ret 0.
Definition con_copyin (user_src : bool) (src : Z) : M con (Z * Z) :=
  if user_src then
    let! r := zoom con_vm (copyin pagetable src 1) in ret (r.1, zget r.2 0)
  else
    let! m := gets (fun s => k_mem (cn_vm s)) in ret (0, m src).

(** A run of consolewrite() from byte [i] on; [pending] is a byte copied in but
    not yet handed over. *)
Inductive wres : Type :=
| WSleep (i pending : Z)
| WRet (r : Z).
Definition consolewrite (user_src : bool) (src n i : Z) (pending : option Z) : M con wres :=
  loop (S (Z.to_nat (n - i)))
    (fun '(i, pending) =>
       if i <? n then
         let! r := match pending with
                   | Some ch => ret (0, ch)
                   | None => con_copyin user_src (u64 (src + i))
                   end in
         if r.1 =? -1 then ret (inr (WRet i))
         else
           let! done := uartputc r.2 in
           if done : bool then ret (inl (i + 1, None))
           else ret (inr (WSleep i r.2))
       else ret (inr (WRet i)))
    (i, pending).

(** A run of consoleread() with [n] of [target] bytes to go. *)
Inductive rres : Type :=
| RSleep (dst n : Z)
| RRet (r : Z).
Definition consoleread (user_dst : bool) (target dst n : Z) (killed : bool) : M con rres :=
  acquire cons_lock ;;;
  let! r := loop (S (Z.to_nat n))
    (fun '(dst, n) =>
       if n >? 0 then
         let! k := gets cn_cons in
         (* wait until interrupt handler has put some input into cons.buf *)
         if c_r k =? c_w k then
           if killed then ret (inr (RRet (-1)))
           else ret (inr (RSleep dst n))
         else
           let ch := cbuf k (c_r k) in
           upd_cons (set_c_r (u32 (c_r k + 1))) ;;;
           if ch =? CTRL_D then                          (* end-of-file *)
             (* save ^D for next time, to make sure caller gets a 0-byte result *)
             (if u32 n <? u32 target then upd_cons (set_c_r (c_r k)) else ret tt) ;;;
             ret (inr (RRet (i32 (target - n))))
           else
             let! c := con_copyout user_dst dst ch in
             if c =? -1 then ret (inr (RRet (i32 (target - n))))
             else if ch =? NL then ret (inr (RRet (i32 (target - (n - 1)))))
             else ret (inl (u64 (dst + 1), n - 1))
       else ret (inr (RRet (i32 (target - n)))))
    (dst, n) in
  release cons_lock ;;;
  ret r.
End Console.

Definition consoleinit : M con unit :=
  modify (lset cons_lock false) ;;;
  uartinit.
