(* ===== verification/ConsoleProps.v ===== *)
(** The console as a line discipline, and the UART's transmit buffer. *)

From S2P Require Import Prelude Ring Riscv CString Kalloc Vm VmCopy Fields Console.

(** * Abstract line discipline *)

(** The bytes a reader may take, and the line being typed. *)
Record tty : Type := mkTty { ready : list Z; line : list Z }.

Definition type1 (ch : Z) (a : tty) : tty :=
  if ch =? CTRL_P then a
  else if ch =? CTRL_U then mkTty (ready a) []
  else if (ch =? CTRL_H) || (ch =? DEL) then mkTty (ready a) (removelast (line a))
  else if negb (ch =? 0) && bool_decide (length (ready a) + length (line a) < 128)%nat then
    let ch := if ch =? CR then NL else ch in
    let line' := line a ++ [ch] in
    if (ch =? NL) || (ch =? CTRL_D) || bool_decide (length (ready a) + length line' = 128)%nat
    then mkTty (ready a ++ line') []
    else mkTty (ready a) line'
  else a.

(** A read of [n] bytes, [fresh] when it has got none yet: the bytes delivered,
    what is left, and whether it is done (or waits for more). *)
Fixpoint take_line (n : nat) (fresh : bool) (l : list Z) : list Z * list Z * bool :=
  match n, l with
  | O, _ => ([], l, true)
  | _, [] => ([], [], false)
  | S n, ch :: l' =>
      if ch =? CTRL_D then ([], if fresh then l' else l, true)
      else if ch =? NL then ([ch], l', true)
      else let '(d, rest, fin) := take_line n false l' in (ch :: d, rest, fin)
  end.

(** * Representation *)

Definition abs (k : cons) : tty :=
  mkTty (rcont INPUT_BUF_SIZE (2 ^ 32) (c_buf k) (c_r k) (c_w k))
        (rcont INPUT_BUF_SIZE (2 ^ 32) (c_buf k) (c_w k) (c_e k)).

Record cons_ok (k : cons) : Prop := {
  co_len : length (c_buf k) = Z.to_nat INPUT_BUF_SIZE;
  co_r : is_u32 (c_r k);
  co_w : is_u32 (c_w k);
  co_e : is_u32 (c_e k);
  co_sum : rfill (2 ^ 32) (c_r k) (c_e k) = rfill (2 ^ 32) (c_r k) (c_w k) + rfill (2 ^ 32) (c_w k) (c_e k);
  co_fill : rfill (2 ^ 32) (c_r k) (c_e k) <= INPUT_BUF_SIZE;
  co_line : NL ∉ line (abs k);
}.

Record con_ok (s : con) : Prop := {
  cn_ok : cons_ok (cn_cons s);
  cn_lock : c_lock (cn_cons s) = false;
  cn_alive : cn_panicked s = 0;
}.

Lemma ibs_divides : (INPUT_BUF_SIZE | 2 ^ 32).
Proof. by exists (2 ^ 25). Qed.
Lemma ibs_range : 0 < INPUT_BUF_SIZE <= 2 ^ 32.
Proof. done. Qed.
#[local] Hint Resolve ibs_divides ibs_range : core.

Abbreviation cfill := (rfill (2 ^ 32)).

Lemma cfill_range r w : 0 <= cfill r w < 2 ^ 32.
Proof. by apply (rfill_range INPUT_BUF_SIZE). Qed.

Lemma cfill_sum r w e :
  cfill r w + cfill w e < 2 ^ 32 -> cfill r e = cfill r w + cfill w e.
Proof.
  intros Hs. pose proof (cfill_range r w). pose proof (cfill_range w e). unfold rfill in *.
  replace (e - r) with ((w - r) + (e - w)) by lia. rewrite Z.add_mod by lia. apply Z.mod_small. lia.
Qed.

(** The edits of the buffer. *)
Lemma erase_ok k :
  cons_ok k -> c_e k <> c_w k ->
  cons_ok (set_c_e (u32 (c_e k - 1)) k) /\
  abs (set_c_e (u32 (c_e k - 1)) k) = mkTty (ready (abs k)) (removelast (line (abs k))) /\
  line (abs k) = removelast (line (abs k)) ++ [cbuf k (u32 (c_e k - 1))].
Proof.
  intros [Hl Hr Hw He Hs Hf Hn] Hne. pose proof (cfill_range (c_r k) (c_w k)) as Hrw.
  assert (Hwe : cfill (c_w k) (c_e k) <> 0).
  { intros H0. apply (rfill_empty INPUT_BUF_SIZE) in H0; congruence || done. }
  pose proof (rcont_unput INPUT_BUF_SIZE (2 ^ 32) ibs_range ibs_divides (c_buf k) _ _ Hwe) as Hun.
  assert (Hrl : removelast (line (abs k)) = rcont INPUT_BUF_SIZE (2 ^ 32) (c_buf k) (c_w k) (u32 (c_e k - 1))).
  { cbn [line abs]. rewrite Hun. apply removelast_last. }
  assert (Hwe' : cfill (c_w k) (u32 (c_e k - 1)) = cfill (c_w k) (c_e k) - 1)
    by (by apply (rfill_unput INPUT_BUF_SIZE)).
  assert (Hre' : cfill (c_r k) (u32 (c_e k - 1)) = cfill (c_r k) (c_w k) + cfill (c_w k) (u32 (c_e k - 1))).
  { pose proof (cfill_range (c_w k) (u32 (c_e k - 1))). apply cfill_sum. unfold INPUT_BUF_SIZE in Hf. lia. }
  split; [|split].
  - split; cbn [c_buf c_r c_w c_e set_c_e]; try done; [apply u32_range|lia|].
    cbn [line abs c_buf c_w c_e set_c_e]. intros Hin. apply Hn. cbn [line abs]. rewrite Hun.
    apply elem_of_app. by left.
  - rewrite Hrl. done.
  - rewrite Hrl. cbn [line abs]. rewrite Hun at 1. done.
Qed.

(** A byte typed into the line. *)
Definition put_e (ch : Z) (k : cons) : cons :=
  set_c_e (u32 (c_e k + 1)) (set_c_buf (zset (c_e k mod INPUT_BUF_SIZE) ch (c_buf k)) k).

Lemma put_e_ok ch k :
  cons_ok k -> cfill (c_r k) (c_e k) < INPUT_BUF_SIZE ->
  (ch <> NL -> cons_ok (put_e ch k)) /\
  abs (put_e ch k) = mkTty (ready (abs k)) (line (abs k) ++ [ch]) /\
  cfill (c_r k) (c_e (put_e ch k)) = cfill (c_r k) (c_e k) + 1 /\
  (cons_ok (set_c_w (c_e (put_e ch k)) (put_e ch k)) /\
   abs (set_c_w (c_e (put_e ch k)) (put_e ch k)) = mkTty (ready (abs k) ++ line (abs k) ++ [ch]) []).
Proof.
  intros [Hl Hr Hw He Hs Hf Hn] Hlt. unfold INPUT_BUF_SIZE in Hf, Hlt.
  pose proof (cfill_range (c_r k) (c_w k)) as Hrw. pose proof (cfill_range (c_w k) (c_e k)) as Hwe.
  assert (Hre1 : cfill (c_r k) (u32 (c_e k + 1)) = cfill (c_r k) (c_e k) + 1)
    by (apply (rfill_put INPUT_BUF_SIZE); try done; lia).
  assert (Hwe1 : cfill (c_w k) (u32 (c_e k + 1)) = cfill (c_w k) (c_e k) + 1)
    by (apply (rfill_put INPUT_BUF_SIZE); try done; lia).
  assert (Hrd : rcont INPUT_BUF_SIZE (2 ^ 32) (zset (c_e k mod INPUT_BUF_SIZE) ch (c_buf k)) (c_r k) (c_w k) = ready (abs k)).
  { apply rcont_zset; try done. unfold INPUT_BUF_SIZE. lia. }
  assert (Hln : rcont INPUT_BUF_SIZE (2 ^ 32) (zset (c_e k mod INPUT_BUF_SIZE) ch (c_buf k)) (c_w k) (u32 (c_e k + 1)) =
            line (abs k) ++ [ch]).
  { apply rcont_put; try done; unfold INPUT_BUF_SIZE; lia. }
  assert (Habs : abs (put_e ch k) = mkTty (ready (abs k)) (line (abs k) ++ [ch])).
  { unfold abs at 1. cbn [c_buf c_r c_w c_e put_e set_c_e set_c_buf]. by rewrite Hrd, Hln. }
  assert (Hlen : length (zset (c_e k mod INPUT_BUF_SIZE) ch (c_buf k)) = Z.to_nat INPUT_BUF_SIZE) by (by rewrite length_zset).
  split; [|split; [done|split; [done|split]]].
  - intros Hnl. split; cbn [c_buf c_r c_w c_e put_e set_c_e set_c_buf]; try done; [apply u32_range|lia|unfold INPUT_BUF_SIZE; lia|].
    rewrite Habs. cbn [line]. intros [Hin|Hin]%elem_of_app; [done|]. apply list_elem_of_singleton in Hin. congruence.
  - split; cbn [c_buf c_r c_w c_e put_e set_c_e set_c_buf set_c_w]; try done; try apply u32_range.
    + assert (H0 : cfill (u32 (c_e k + 1)) (u32 (c_e k + 1)) = 0) by (by apply (rfill_empty INPUT_BUF_SIZE); try apply u32_range).
      rewrite H0. lia.
    + unfold INPUT_BUF_SIZE. lia.
    + unfold abs. cbn [line c_buf c_r c_w c_e put_e set_c_e set_c_buf set_c_w]. rewrite rcont_nil by done. apply not_elem_of_nil.
  - unfold abs at 1. cbn [c_buf c_r c_w c_e put_e set_c_e set_c_buf set_c_w]. rewrite rcont_nil by done. f_equal.
    rewrite (rcont_app INPUT_BUF_SIZE (2 ^ 32) ibs_range ibs_divides _ (c_r k) (c_w k)) by lia. by rewrite Hrd, Hln.
Qed.

(** The length of the contents. *)
Lemma abs_length k :
  cons_ok k -> Z.of_nat (length (ready (abs k)) + length (line (abs k))) = cfill (c_r k) (c_e k).
Proof.
  intros Hk. pose proof (cfill_range (c_r k) (c_w k)). pose proof (cfill_range (c_w k) (c_e k)).
  cbn [ready line abs]. rewrite !length_rcont, (co_sum _ Hk). lia.
Qed.

(** * Typing *)

(** Echoing touches the UART only. *)
Lemma wp_sync ch (Q : unit -> con -> Prop) s :
  cn_panicked s = 0 -> (forall u, Q tt (put_uart u s)) -> wp (uartputc_sync ch) Q s.
Proof.
  intros Hp HQ. unfold uartputc_sync. wp_steps. rewrite Hp. cbn [Z.eqb negb].
  unfold upd_uart, write_thr, upd_uart. wp_steps. apply HQ.
Qed.

Lemma wp_consputc ch (Q : unit -> con -> Prop) s :
  cn_panicked s = 0 -> (forall u, Q tt (put_uart u s)) -> wp (consputc ch) Q s.
Proof.
  intros Hp HQ. unfold consputc. case_match; [|by apply wp_sync].
  wp_step. apply wp_sync; [done|]. intros u1. wp_step. apply wp_sync; [done|]. intros u2.
  apply wp_sync; [done|]. intros u3. apply HQ.
Qed.

(** What a keystroke leaves alone, and whom it wakes. *)
Record typed (s s' : con) : Prop := {
  ty_vm : cn_vm s' = cn_vm s;
  ty_panicked : cn_panicked s' = cn_panicked s;
  ty_woken : ready (abs (cn_cons s')) = ready (abs (cn_cons s)) /\ cn_woken s' = cn_woken s \/
             cn_woken s' = CONS_R :: cn_woken s;
}.

Lemma wp_erase1 (Q : unit -> con -> Prop) s :
  cn_panicked s = 0 ->
  (forall u, Q tt (put_uart u (put_cons (set_c_e (u32 (c_e (cn_cons s) - 1)) (cn_cons s)) s))) ->
  wp erase1 Q s.
Proof.
  intros Hp HQ. unfold erase1, upd_cons. wp_steps. by apply wp_consputc.
Qed.

(** The loop of control-U. *)
Lemma kill_line s k0 (Q : unit -> con -> Prop) :
  cons_ok (cn_cons s) -> cn_panicked s = 0 ->
  (forall u k, cons_ok k -> abs k = mkTty (ready (abs (cn_cons s))) [] -> c_lock k = c_lock (cn_cons s) ->
     Q tt (put_uart u (put_cons k s))) ->
  (Z.to_nat (cfill (c_w (cn_cons s)) (c_e (cn_cons s))) < k0)%nat ->
  wp (loop k0
       (fun _ : unit =>
          let! k := gets cn_cons in
          if negb (c_e k =? c_w k) && negb (cbuf k (u32 (c_e k - 1)) =? NL) then
            erase1 ;;;
            ret (inl tt)
          else ret (inr tt))
       tt) Q s.
Proof.
  intros Hk Hp HQ Hfuel.
  apply (wp_loop (fun _ s' => exists u k, s' = put_uart u (put_cons k s) /\ cons_ok k /\
            ready (abs k) = ready (abs (cn_cons s)) /\ c_lock k = c_lock (cn_cons s))
           (fun _ s' => Z.to_nat (cfill (c_w (cn_cons s')) (c_e (cn_cons s'))))).
  - exists (cn_uart s), (cn_cons s). split; [by destruct s|]. done.
  - done.
  - intros _ s' (u & k & -> & Hk' & Hr & Hl). wp_steps. cbn [cn_cons put_cons put_uart].
    destruct (Z.eqb_spec (c_e k) (c_w k)) as [He|He]; cbn [negb andb].
    { wp_steps. apply HQ; [done| |done]. unfold abs at 1. rewrite He, rcont_nil by done.
      change (mkTty (ready (abs k)) [] = mkTty (ready (abs (cn_cons s))) []). by rewrite Hr. }
    destruct (erase_ok k Hk' He) as (Hok & Habs & Hline).
    destruct (Z.eqb_spec (cbuf k (u32 (c_e k - 1))) NL) as [Hnl|Hnl]; cbn [negb].
    { exfalso. apply (co_line _ Hk'). rewrite Hline, Hnl. apply elem_of_app. right. by left. }
    wp_step. apply wp_erase1; [done|]. intros u'. cbn [cn_cons put_cons put_uart]. wp_steps.
    split.
    + exists u', (set_c_e (u32 (c_e k - 1)) k). split; [done|]. split; [done|]. rewrite Habs. cbn [ready]. split; [done|done].
    + cbn [c_w c_e set_c_e cn_cons put_cons put_uart]. unfold u32.
      assert (Hne : cfill (c_w k) (c_e k) <> 0).
      { intros H0. apply He. symmetry. apply (rfill_empty INPUT_BUF_SIZE (2 ^ 32)); try done; apply Hk'. }
      rewrite (rfill_unput INPUT_BUF_SIZE) by done. pose proof (cfill_range (c_w k) (c_e k)). lia.
Qed.

Lemma consoleintr_spec ch s :
  con_ok s -> is_u8 ch ->
  wp (consoleintr ch) (fun _ s' => con_ok s' /\ abs (cn_cons s') = type1 ch (abs (cn_cons s)) /\ typed s s') s.
Proof.
  intros [Hk Hl Hp] Hch. set (k0 := cn_cons s). set (s1 := put_cons (set_c_lock true k0) s).
  assert (Hk1 : cons_ok (set_c_lock true k0)) by (destruct Hk; by split).
  assert (Ha1 : abs (set_c_lock true k0) = abs k0) by done.
  (* the end of every branch *)
  assert (Hend : forall u k w d, cons_ok k -> c_lock k = true -> abs k = type1 ch (abs k0) ->
     ready (abs k) = ready (abs k0) /\ w = cn_woken s \/ w = CONS_R :: cn_woken s ->
     wp (release cons_lock) (fun _ s' => con_ok s' /\ abs (cn_cons s') = type1 ch (abs k0) /\ typed s s')
       (mkCon k u (cn_vm s) w (cn_panicked s) d)).
  { intros u k w d Hok Hlk Ha Hw. apply wp_release; [done|]. cbn. split; [|split; [done|]].
    - split; [|done|done]. cbn. destruct Hok. by split.
    - by split. }
  unfold consoleintr. wp_step. apply wp_acquire; [done|]. change (lset cons_lock true s) with s1.
  wp_step. destruct (ch =? CTRL_P) eqn:E1.
  { unfold count_dump. wp_step. apply Hend; [done|done| |by left]. unfold type1. by rewrite E1. }
  destruct (ch =? CTRL_U) eqn:E2.
  { do 2 wp_step. apply kill_line; [done|done| |cbn; lia].
    intros u k Hok Ha Hlk. apply (Hend u k (cn_woken s) (cn_dumps s)); [done|by rewrite Hlk| |].
    - unfold type1. by rewrite E1, E2, Ha.
    - left. by rewrite Ha. }
  destruct ((ch =? CTRL_H) || (ch =? DEL)) eqn:E3.
  { do 2 wp_step. change (cn_cons s1) with (set_c_lock true k0).
    assert (Ht : type1 ch (abs k0) = mkTty (ready (abs k0)) (removelast (line (abs k0)))).
    { unfold type1. by rewrite E1, E2, E3. }
    destruct (Z.eqb_spec (c_e (set_c_lock true k0)) (c_w (set_c_lock true k0))) as [He|He]; cbn [negb].
    - wp_step. apply Hend; [done|done| |by left]. rewrite Ha1, Ht. unfold abs. cbn in He. by rewrite He, rcont_nil.
    - destruct (erase_ok _ Hk1 He) as (Hok & Ha & _). apply wp_erase1; [done|]. intros u.
      set (k1 := set_c_e (u32 (c_e (set_c_lock true k0) - 1)) (set_c_lock true k0)) in *.
      apply (Hend u k1 (cn_woken s) (cn_dumps s)); [done|done|by rewrite Ht|]. left. by rewrite Ha. }
  do 2 wp_step. change (cn_cons s1) with (set_c_lock true k0). cbn [c_e c_r set_c_lock].
  pose proof (abs_length _ Hk) as Hlen. fold k0 in Hlen.
  change (u32 (c_e k0 - c_r k0)) with (cfill (c_r k0) (c_e k0)).
  assert (Htype : type1 ch (abs k0) =
    if negb (ch =? 0) && (cfill (c_r k0) (c_e k0) <? INPUT_BUF_SIZE) then
      let ch := if ch =? CR then NL else ch in
      if (ch =? NL) || (ch =? CTRL_D) || (cfill (c_r k0) (c_e k0) + 1 =? INPUT_BUF_SIZE)
      then mkTty (ready (abs k0) ++ line (abs k0) ++ [ch]) [] else mkTty (ready (abs k0)) (line (abs k0) ++ [ch])
    else abs k0).
  { unfold type1. rewrite E1, E2, E3. unfold INPUT_BUF_SIZE. rewrite <- Hlen.
    replace (Z.of_nat _ <? 128) with (bool_decide (length (ready (abs k0)) + length (line (abs k0)) < 128)%nat)
      by (case_bool_decide; symmetry; [apply Z.ltb_lt|apply Z.ltb_ge]; lia).
    case_match; [|done]. cbv zeta. rewrite length_app. cbn [length].
    replace (Z.of_nat _ + 1 =? 128)
      with (bool_decide (length (ready (abs k0)) + (length (line (abs k0)) + 1) = 128)%nat); [done|].
    clear. case_bool_decide; symmetry; [apply Z.eqb_eq|apply Z.eqb_neq]; lia. }
  destruct (negb (ch =? 0) && _) eqn:E4.
  2: { wp_step. apply Hend; [done|done|by rewrite Htype|by left]. }
  apply andb_prop in E4 as [_ Hlt%Z.ltb_lt].
  cbv zeta in Htype. set (ch' := if ch =? CR then NL else ch) in *.
  assert (Hch' : u8 ch' = ch') by (apply u8_small; unfold ch', is_u8 in *; destruct (ch =? CR); [done|lia]).
  wp_step. apply wp_consputc; [done|]. intros u. unfold upd_cons. do 4 wp_step.
  destruct (put_e_ok ch' _ Hk1 Hlt) as (Hok & Ha & Hf & Hokw & Haw).
  change (cn_cons (put_uart u s1)) with (set_c_lock true k0). rewrite Hch'.
  change (set_c_e _ (set_c_buf _ _)) with (put_e ch' (set_c_lock true k0)).
  change (cn_cons (put_cons ?k _)) with k. 
  change (u32 (c_e (put_e ch' (set_c_lock true k0)) - c_r (put_e ch' (set_c_lock true k0))))
    with (cfill (c_r (set_c_lock true k0)) (c_e (put_e ch' (set_c_lock true k0)))).
  rewrite Hf. change (cfill (c_r (set_c_lock true k0)) (c_e (set_c_lock true k0))) with (cfill (c_r k0) (c_e k0)).
  destruct ((ch' =? NL) || (ch' =? CTRL_D) || _) eqn:Eend.
  - unfold con_wakeup. do 3 wp_step. apply (Hend u _ (CONS_R :: cn_woken s)); [done|done|by rewrite Htype|by right].
  - wp_step. apply (Hend u (put_e ch' (set_c_lock true k0)) (cn_woken s) (cn_dumps s)); [|done|by rewrite Htype|left; by rewrite Ha].
    apply Hok. intros Hnl. by rewrite Hnl in Eend.
Qed.

(** * Reading *)

Lemma get_r_ok k :
  cons_ok k -> c_r k <> c_w k ->
  let k' := set_c_r (u32 (c_r k + 1)) k in
  cons_ok k' /\ ready (abs k) = cbuf k (c_r k) :: ready (abs k') /\ line (abs k') = line (abs k).
Proof.
  intros [Hl Hr Hw He Hs Hf Hn] Hne k'. pose proof (cfill_range (c_w k) (c_e k)) as Hwe.
  assert (Hrw : cfill (c_r k) (c_w k) <> 0).
  { intros H0. by apply (rfill_empty INPUT_BUF_SIZE) in H0. }
  assert (Hre : cfill (c_r k) (c_e k) <> 0) by (pose proof (cfill_range (c_r k) (c_w k)); lia).
  assert (Hrw' : cfill (u32 (c_r k + 1)) (c_w k) = cfill (c_r k) (c_w k) - 1)
    by (by apply (rfill_get INPUT_BUF_SIZE)).
  assert (Hre' : cfill (u32 (c_r k + 1)) (c_e k) = cfill (c_r k) (c_e k) - 1)
    by (by apply (rfill_get INPUT_BUF_SIZE)).
  split; [|split; [|done]].
  - split; cbn [c_buf c_r c_w c_e set_c_r k']; try done; [apply u32_range|lia|unfold INPUT_BUF_SIZE in *; lia].
  - by apply (rcont_get INPUT_BUF_SIZE (2 ^ 32)).
Qed.

(** The console with another buffer state and memory. *)
Definition with_cm (s : con) (k : cons) (m : mem) : con :=
  mkCon k (cn_uart s) (set_k_mem m (cn_vm s)) (cn_woken s) (cn_panicked s) (cn_dumps s).

Definition read_result (target n dst : Z) (d : list Z) (fin killed : bool) : rres :=
  let got := Z.of_nat (length d) in
  if fin then RRet (target - n + got)
  else if killed then RRet (-1) else RSleep (dst + got) (n - got).

Definition read_body (pt target : Z) (killed : bool) : Z * Z -> M con (Z * Z + rres) :=
  fun '(dst, n) =>
    if n >? 0 then
      let! k := gets cn_cons in
      if c_r k =? c_w k then
        if killed then ret (inr (RRet (-1)))
        else ret (inr (RSleep dst n))
      else
        let ch := cbuf k (c_r k) in
        upd_cons (set_c_r (u32 (c_r k + 1))) ;;;
        if ch =? CTRL_D then
          (if u32 n <? u32 target then upd_cons (set_c_r (c_r k)) else ret tt) ;;;
          ret (inr (RRet (i32 (target - n))))
        else
          let! c := con_copyout pt false dst ch in
          if c =? -1 then ret (inr (RRet (i32 (target - n))))
          else if ch =? NL then ret (inr (RRet (i32 (target - (n - 1)))))
          else ret (inl (u64 (dst + 1), n - 1))
    else ret (inr (RRet (i32 (target - n)))).

Lemma read_loop pt target killed n : forall fuel dst s k m,
  (n < fuel)%nat -> cons_ok k -> Z.of_nat n <= target < 2 ^ 31 -> 0 <= dst -> dst + Z.of_nat n < 2 ^ 64 ->
  wp (loop fuel (read_body pt target killed) (dst, Z.of_nat n))
    (fun r s' => let '(d, rest, fin) := take_line n (Z.of_nat n =? target) (ready (abs k)) in
       r = read_result target (Z.of_nat n) dst d fin killed /\
       exists k', s' = with_cm s k' (write_bytes dst d m) /\ cons_ok k' /\ c_lock k' = c_lock k /\
         abs k' = mkTty rest (line (abs k)))
    (with_cm s k m).
Proof.
  induction n as [|n IH]; intros fuel dst s k m Hf Hk Ht Hd Hdn; (destruct fuel as [|fuel]; [lia|]); cbn [loop].
  { unfold read_body at 1. cbn [Z.gtb Z.of_nat Z.compare]. wp_steps. cbn [take_line]. split.
    - unfold read_result. cbn [length Z.of_nat]. f_equal. rewrite i32_small by lia. lia.
    - exists k. split; [done|]. split; [done|]. split; [done|]. by destruct (abs k). }
  unfold read_body at 1. rewrite (proj2 (Z.gtb_gt _ _)) by lia. wp_steps. cbn [cn_cons with_cm].
  destruct (Z.eqb_spec (c_r k) (c_w k)) as [He|He].
  { assert (Hr : ready (abs k) = []) by (cbn [ready abs]; by rewrite He, rcont_nil). rewrite Hr. cbn [take_line].
    assert (Hkk : exists k', with_cm s k m = with_cm s k' (write_bytes dst [] m) /\ cons_ok k' /\ c_lock k' = c_lock k /\
              abs k' = mkTty [] (line (abs k))).
    { exists k. split; [done|]. split; [done|]. split; [done|]. rewrite <- Hr. by destruct (abs k). }
    destruct killed; wp_steps; (split; [|done]); unfold read_result; cbn [length Z.of_nat]; [done|f_equal; lia]. }
  destruct (get_r_ok k Hk He) as (Hk' & Hr & Hline). rewrite Hr. cbn [take_line].
  set (k1 := set_c_r (u32 (c_r k + 1)) k) in *. set (ch := cbuf k (c_r k)) in *.
  unfold upd_cons. wp_steps.
  change (put_cons (set_c_r (u32 (c_r k + 1)) (cn_cons (with_cm s k m))) (with_cm s k m)) with (with_cm s k1 m).
  destruct (ch =? CTRL_D).
  { assert (Hres : RRet (i32 (target - Z.of_nat (S n))) = read_result target (Z.of_nat (S n)) dst [] true killed).
    { unfold read_result. cbn [length]. f_equal. rewrite i32_small by lia. lia. }
    rewrite !u32_small by (unfold is_u32; lia).
    destruct (Z.ltb_spec (Z.of_nat (S n)) target) as [Hlt|Hge].
    - rewrite (proj2 (Z.eqb_neq _ _)) by lia. wp_steps. split; [done|]. exists k. split; [by destruct k|].
      split; [done|]. split; [done|]. rewrite <- Hr. by destruct (abs k).
    - rewrite (proj2 (Z.eqb_eq _ _)) by lia. wp_steps. split; [done|]. exists k1. split; [done|]. split; [done|].
      split; [done|]. rewrite <- Hline. by destruct (abs k1). }
  unfold con_copyout, upd_mem. wp_steps. cbn [Z.eqb].
  change (lset con_vm _ _) with (with_cm s k1 (write_bytes dst [ch] m)).
  destruct (ch =? NL).
  { wp_steps. split.
    - unfold read_result. cbn [length]. f_equal. rewrite i32_small by lia. lia.
    - exists k1. split; [done|]. split; [done|]. split; [done|]. rewrite <- Hline. by destruct (abs k1). }
  wp_steps. rewrite u64_small by (unfold is_u64; lia).
  replace (Z.of_nat (S n) - 1) with (Z.of_nat n) by lia.
  eapply wp_mono; [apply IH; [lia|done|lia|lia|lia]|].
  rewrite (proj2 (Z.eqb_neq (Z.of_nat n) target)) by lia.
  intros r s' Hpost. destruct (take_line n false (ready (abs k1))) as [[d rest] fin].
  destruct Hpost as [-> (k' & -> & Hok & Hlk & Ha)]. split.
  - unfold read_result. cbn [length]. destruct fin; [f_equal; lia|]. destruct killed; [done|f_equal; lia].
  - exists k'. split; [done|]. split; [done|]. split; [done|]. by rewrite Ha, Hline.
Qed.

Lemma consoleread_spec pt target dst n killed s :
  con_ok s -> 0 <= n <= target -> target < 2 ^ 31 -> 0 <= dst -> dst + n < 2 ^ 64 ->
  wp (consoleread pt false target dst n killed)
    (fun r s' => let '(d, rest, fin) := take_line (Z.to_nat n) (n =? target) (ready (abs (cn_cons s))) in
       r = read_result target n dst d fin killed /\ con_ok s' /\
       abs (cn_cons s') = mkTty rest (line (abs (cn_cons s))) /\
       k_mem (cn_vm s') = write_bytes dst d (k_mem (cn_vm s))) s.
Proof.
  intros [Hk Hl Hp] Hn Ht Hd Hdn. unfold consoleread. wp_step. apply wp_acquire; [done|]. wp_step.
  change (lset cons_lock true s) with (put_cons (set_c_lock true (cn_cons s)) s).
  replace (put_cons (set_c_lock true (cn_cons s)) s)
    with (with_cm s (set_c_lock true (cn_cons s)) (k_mem (cn_vm s))) by (by destruct s as [? ? []]).
  replace (dst, n) with (dst, Z.of_nat (Z.to_nat n)) by (f_equal; lia).
  eapply wp_mono; [apply (read_loop pt target killed (Z.to_nat n)); [lia| |lia|lia|lia]|].
  { destruct Hk. by split. }
  rewrite Z2Nat.id by lia. change (abs (set_c_lock true (cn_cons s))) with (abs (cn_cons s)).
  intros r s' Hpost. destruct (take_line _ _ _) as [[d rest] fin]. destruct Hpost as [-> (k' & -> & Hok & Hlk & Ha)].
  wp_step. apply wp_release; [done|]. wp_step. split; [done|]. split; [|done].
  split; [destruct Hok; by split|done|done].
Qed.

(** * Refinement *)

(** A key pressed, or a run of consoleread() into kernel memory. *)
Inductive cev : Type :=
| EKey (ch : Z)
| ERead (target dst n : Z).

Definition cev_ok (e : cev) : Prop :=
  match e with
  | EKey ch => is_u8 ch
  | ERead target dst n => 0 <= n <= target /\ target < 2 ^ 31 /\ 0 <= dst /\ dst + n < 2 ^ 64
  end.

(** The bytes a run has delivered. *)
Definition delivered (target dst n : Z) (r : rres) (m : mem) : list Z :=
  match r with
  | RRet v => read_bytes (Z.to_nat (v - (target - n))) dst m
  | RSleep _ n' => read_bytes (Z.to_nat (n - n')) dst m
  end.

Definition run_cev (pt : Z) (e : cev) : M con (option (rres * list Z)) :=
  match e with
  | EKey ch => consoleintr ch ;;; ret None
  | ERead target dst n =>
      let! r := consoleread pt false target dst n false in
      let! m := gets (fun s => k_mem (cn_vm s)) in
      ret (Some (r, delivered target dst n r m))
  end.
Fixpoint run_cevs (pt : Z) (es : list cev) : M con (list (option (rres * list Z))) :=
  match es with
  | [] => ret []
  | e :: es => let! r := run_cev pt e in let! rs := run_cevs pt es in ret (r :: rs)
  end.

Definition tty_cev (e : cev) (a : tty) : tty * option (rres * list Z) :=
  match e with
  | EKey ch => (type1 ch a, None)
  | ERead target dst n =>
      let '(d, rest, fin) := take_line (Z.to_nat n) (n =? target) (ready a) in
      (mkTty rest (line a), Some (read_result target n dst d fin false, d))
  end.
Fixpoint tty_cevs (es : list cev) (a : tty) : tty * list (option (rres * list Z)) :=
  match es with
  | [] => (a, [])
  | e :: es =>
      let '(a, r) := tty_cev e a in let '(a, rs) := tty_cevs es a in (a, r :: rs)
  end.

Lemma read_write_bytes a bs m : read_bytes (length bs) a (write_bytes a bs m) = bs.
Proof.
  apply list_eq_zget; [by rewrite length_read_bytes|]. rewrite length_read_bytes. intros i Hi.
  rewrite zget_read_bytes, write_bytes_spec by done.
  rewrite (proj2 (Z.leb_le _ _)), (proj2 (Z.ltb_lt _ _)) by lia. cbn. f_equal. lia.
Qed.

Lemma delivered_result target dst n d fin m :
  delivered target dst n (read_result target n dst d fin false) (write_bytes dst d m) = d.
Proof.
  unfold delivered, read_result. destruct fin;
    match goal with |- read_bytes ?k _ _ = _ => replace k with (length d) by lia end; apply read_write_bytes.
Qed.

Lemma run_cev_spec pt e s :
  con_ok s -> cev_ok e ->
  wp (run_cev pt e) (fun r s' => con_ok s' /\ tty_cev e (abs (cn_cons s)) = (abs (cn_cons s'), r)) s.
Proof.
  intros Hs He. destruct e as [ch|target dst n]; cbn [run_cev tty_cev].
  - wp_step. eapply wp_mono; [by apply consoleintr_spec|]. intros _ s' (Hok & Ha & _). wp_step. by rewrite Ha.
  - destruct He as (H1 & H2 & H3 & H4). wp_step. eapply wp_mono; [by apply consoleread_spec|]. cbn beta.
    destruct (take_line _ _ _) as [[d rest] fin]. intros r s' (-> & Hok & Ha & Hm). wp_steps.
    split; [done|]. rewrite Ha, Hm, delivered_result. done.
Qed.


Module ConsoleDemo.
Definition uart0 : uart := mkUart false (replicate 32 0) 0 0 [] 1 [] [] [].
Definition con0 : con :=
  mkCon (mkCons false (replicate 128 0) (2 ^ 32 - 1) (2 ^ 32 - 1) (2 ^ 32 - 1)) uart0
    (mkKst (fun _ => 0) 0 false) [] 0 0.
Lemma con0_ok : con_ok con0.
Proof.
  split; [|done|done]. split; try done. cbn [line abs]. unfold con0. cbn [cn_cons c_w c_e c_buf].
  rewrite rcont_nil by done. apply not_elem_of_nil.
Qed.
(** "ax", backspace, "b", newline. *)
Definition keys : list cev := [EKey 97; EKey 120; EKey CTRL_H; EKey 98; EKey NL; ERead 10 0x80001000 10].
End ConsoleDemo.


(** * The transmit buffer *)

Definition tx (u : uart) : list Z := rcont UART_TX_BUF_SIZE (2 ^ 64) (u_buf u) (u_r u) (u_w u).

Record uart_ok (u : uart) : Prop := {
  uo_len : length (u_buf u) = Z.to_nat UART_TX_BUF_SIZE;
  uo_r : is_u64 (u_r u);
  uo_w : is_u64 (u_w u);
  uo_fill : rfill (2 ^ 64) (u_r u) (u_w u) <= UART_TX_BUF_SIZE;
  uo_lock : u_lock u = false;
  uo_sent : u_sent u `sublist_of` u_out u;
}.

Lemma tbs_divides : (UART_TX_BUF_SIZE | 2 ^ 64).
Proof. by exists (2 ^ 59). Qed.
Lemma tbs_range : 0 < UART_TX_BUF_SIZE <= 2 ^ 64.
Proof. done. Qed.
#[local] Hint Resolve tbs_divides tbs_range : core.

Lemma lsr_idle (rx : list Z) room :
  (Z.land (Z.lor (match rx with [] => 0 | _ => LSR_RX_READY end) (if room >? 0 then LSR_TX_IDLE else 0))
     LSR_TX_IDLE =? 0) = negb (room >? 0).
Proof. destruct rx, (room >? 0); done. Qed.

(** uartstart() moves bytes from the buffer to the device, in order, until the
    buffer is empty or the device busy. *)
Record started (s s' : con) (moved : list Z) : Prop := {
  sd_tx : tx (cn_uart s) = moved ++ tx (cn_uart s');
  sd_sent : u_sent (cn_uart s') = u_sent (cn_uart s) ++ moved;
  sd_out : u_out (cn_uart s') = u_out (cn_uart s) ++ moved;
  sd_w : u_w (cn_uart s') = u_w (cn_uart s);
  sd_r : is_u64 (u_r (cn_uart s'));
  sd_buf : u_buf (cn_uart s') = u_buf (cn_uart s);
  sd_lock : u_lock (cn_uart s') = u_lock (cn_uart s);
  sd_panicked : cn_panicked s' = cn_panicked s;
  sd_woken : moved <> [] -> TX_R ∈ cn_woken s';
}.

Lemma started_refl s : is_u64 (u_r (cn_uart s)) -> started s s [].
Proof. intros Hr. by split; rewrite ?app_nil_r. Qed.

Lemma uartstart_spec s :
  length (u_buf (cn_uart s)) = Z.to_nat UART_TX_BUF_SIZE -> is_u64 (u_r (cn_uart s)) -> is_u64 (u_w (cn_uart s)) ->
  (forall x, x ∈ u_buf (cn_uart s) -> is_u8 x) ->
  wp uartstart (fun _ s' => exists moved, started s s' moved /\
     (tx (cn_uart s') = [] \/ u_room (cn_uart s') <= 0)) s.
Proof.
  intros Hlen Hr Hw Hb. unfold uartstart. wp_steps.
  apply (wp_loop (fun _ s' => exists moved, started s s' moved)
           (fun _ s' => Z.to_nat (rfill (2 ^ 64) (u_r (cn_uart s')) (u_w (cn_uart s'))))).
  - exists []. by apply started_refl.
  - lia.
  - intros _ s' [moved Hst]. set (u := cn_uart s') in *. wp_steps. fold u.
    destruct (Z.eqb_spec (u_w u) (u_r u)) as [He|He].
    { wp_steps. exists moved. split; [done|]. left. unfold tx. fold u. by rewrite He, rcont_nil. }
    unfold read_lsr. wp_steps. fold u. rewrite lsr_idle. destruct (Z.gtb_spec (u_room u) 0) as [Hro|Hro]; cbn [negb].
    2: { wp_steps. exists moved. split; [done|]. by right. }
    unfold upd_uart, con_wakeup, write_thr, upd_uart. wp_steps.
    assert (Hne : rfill (2 ^ 64) (u_r u) (u_w u) <> 0).
    { intros H0. apply He. symmetry. apply (rfill_empty UART_TX_BUF_SIZE (2 ^ 64)); try done; [apply Hst|].
      unfold u. by rewrite (sd_w _ _ _ Hst). }
    set (ch := zget (u_buf u) (u_r u mod UART_TX_BUF_SIZE)).
    assert (Hch : u8 ch = ch).
    { apply u8_small, Hb. unfold ch, zget. unfold u. rewrite (sd_buf _ _ _ Hst). apply list_elem_of_lookup_total_2.
      rewrite Hlen. pose proof (Z.mod_pos_bound (u_r (cn_uart s')) UART_TX_BUF_SIZE). unfold UART_TX_BUF_SIZE in *. lia. }
    pose proof (rcont_get UART_TX_BUF_SIZE (2 ^ 64) tbs_range tbs_divides (u_buf u) _ _ Hne) as Hget. fold ch in Hget.
    destruct Hst as [H1 H2 H3 H4 H5 H6 H7 H8 H9]. split.
    + exists (moved ++ [ch]). split; cbn; try done.
      * rewrite H1. unfold tx at 1. fold u. rewrite Hget, <- app_assoc. done.
      * fold u in H2. rewrite H2. by rewrite app_assoc.
      * rewrite Hch, H3. by rewrite app_assoc.
      * apply u64_range.
      * intros _. by left.
    + cbn. unfold u64. rewrite (rfill_get UART_TX_BUF_SIZE) by done.
      pose proof (rfill_range UART_TX_BUF_SIZE (2 ^ 64) tbs_range tbs_divides (u_r u) (u_w u)). lia.
Qed.

(** What happens to the UART: writes by processes, its interrupts, output by
    printf() and echo, and the device making room.  [put] are the bytes that
    uartputc() took. *)
Inductive uart_step : con * list Z -> con * list Z -> Prop :=
| us_putc ch s s' put : is_u8 ch -> uartputc ch s = Ok true s' -> uart_step (s, put) (s', put ++ [ch])
| us_putc_sleep ch s s' put : is_u8 ch -> uartputc ch s = Ok false s' -> uart_step (s, put) (s', put)
| us_intr s s' put :
    (acquire uart_tx_lock ;;; uartstart ;;; release uart_tx_lock) s = Ok tt s' -> uart_step (s, put) (s', put)
| us_sync ch s s' put : uartputc_sync ch s = Ok tt s' -> uart_step (s, put) (s', put)
| us_room room s put :
    uart_step (s, put) (put_uart (set_u_dev (u_rx (cn_uart s)) room (u_out (cn_uart s)) (cn_uart s)) s, put).

Definition uart_inv (x : con * list Z) : Prop :=
  let '(s, put) := x in
  uart_ok (cn_uart s) /\ (forall ch, ch ∈ u_buf (cn_uart s) -> is_u8 ch) /\
  put = u_sent (cn_uart s) ++ tx (cn_uart s).

(** Sending keeps the invariant, from any state with the lock held. *)
Lemma start_keeps s put :
  uart_ok (set_u_lock false (cn_uart s)) -> u_lock (cn_uart s) = true ->
  (forall ch, ch ∈ u_buf (cn_uart s) -> is_u8 ch) -> put = u_sent (cn_uart s) ++ tx (cn_uart s) ->
  wp (uartstart ;;; release uart_tx_lock) (fun _ s' => uart_inv (s', put)) s.
Proof.
  intros [Hl Hr Hw Hf _ Hs] Hlk Hb Hput. wp_step. eapply wp_mono; [by apply uartstart_spec|].
  intros _ s' (moved & [H1 H2 H3 H4 H5 H6 H7 H8 _] & _). apply wp_release; [by cbn; rewrite H7|].
  assert (Hlen : (length (tx (cn_uart s')) <= length (tx (cn_uart s)))%nat) by (rewrite H1, length_app; lia).
  unfold tx in Hlen. rewrite !length_rcont in Hlen. cbn in Hf. split; [|split].
  - split; cbn; rewrite ?H6, ?H4; try done.
    + pose proof (rfill_range UART_TX_BUF_SIZE (2 ^ 64) tbs_range tbs_divides (u_r (cn_uart s')) (u_w (cn_uart s'))).
      rewrite H4 in *. unfold UART_TX_BUF_SIZE in *. lia.
    + rewrite H2, H3. by apply sublist_app.
  - cbn. by rewrite H6.
  - rewrite Hput. cbn. rewrite H2, H1. unfold tx. cbn. by rewrite <- app_assoc.
Qed.

(** uartputc() takes the byte, or finds the buffer full. *)
Lemma uartputc_spec ch s put :
  uart_inv (s, put) -> is_u8 ch ->
  wlp (uartputc ch) (fun r s' => if r : bool then uart_inv (s', put ++ [ch])
                                 else uart_inv (s', put) /\ length (tx (cn_uart s')) = 32%nat) (fun _ => False) s.
Proof.
  intros ([Hl Hr Hw Hf Hlk Hs] & Hb & Hput) Hch. unfold uartputc. wlp_step. apply wlp_lock. intros _. wlp_steps.
  destruct (negb _); [done|]. wlp_steps. cbn [lset uart_tx_lock cn_uart put_uart u_w u_r u_buf u_sent set_u_lock].
  destruct (Z.eqb_spec (u_w (cn_uart s)) (u64 (u_r (cn_uart s) + UART_TX_BUF_SIZE))) as [Hfull|Hnf].
  { wlp_step. apply wlp_unlock. intros _. wlp_step. cbn. split; [by split|].
    apply (rfill_full UART_TX_BUF_SIZE (2 ^ 64)) in Hfull; try done. unfold tx. cbn. by rewrite length_rcont, Hfull. }
  assert (Hnf' : rfill (2 ^ 64) (u_r (cn_uart s)) (u_w (cn_uart s)) < UART_TX_BUF_SIZE).
  { assert (rfill (2 ^ 64) (u_r (cn_uart s)) (u_w (cn_uart s)) <> UART_TX_BUF_SIZE); [|lia].
    intros H0. apply Hnf. by apply (rfill_full UART_TX_BUF_SIZE (2 ^ 64)). }
  unfold upd_uart. wlp_steps. cbn [cn_uart put_uart]. rewrite u8_small by done. set (s1 := put_uart _ _).
  assert (Hwp : wp (uartstart ;;; release uart_tx_lock) (fun _ s' => uart_inv (s', put ++ [ch])) s1).
  { apply start_keeps; [|done| |].
    - split; cbn; try done; [by rewrite length_zset|apply u64_range|]. unfold u64.
      rewrite (rfill_put UART_TX_BUF_SIZE) by (done || (unfold UART_TX_BUF_SIZE in *; lia)). lia.
    - cbn. intros x Hx. unfold zset in Hx. apply list_elem_of_lookup in Hx as [i Hi].
      rewrite list_lookup_insert_Some in Hi. destruct Hi as [(_ & <- & _)|[_ Hi]]; [done|].
      by eapply Hb, list_elem_of_lookup_2.
    - rewrite Hput. cbn. unfold tx. cbn. unfold u64. rewrite rcont_put; try done; [by rewrite app_assoc|].
      unfold UART_TX_BUF_SIZE in *. lia. }
  apply wp_bind_inv in Hwp. apply wp_wlp. eapply wp_mono; [exact Hwp|]. intros [] s2 Hrel. cbn beta in Hrel.
  apply wlp_bind, wp_wlp. eapply wp_mono; [exact Hrel|]. intros [] s3 H3. by apply wlp_ret.
Qed.

Lemma uart_inv_step x y : uart_inv x -> uart_step x y -> uart_inv y.
Proof.
  intros Hi Hs. destruct Hs as [ch s s' put Hch He|ch s s' put Hch He|s s' put He|ch s s' put He|room s put].
  - exact (wlp_ok _ _ _ _ _ _ (uartputc_spec ch s put Hi Hch) He).
  - exact (proj1 (wlp_ok _ _ _ _ _ _ (uartputc_spec ch s put Hi Hch) He)).
  - destruct Hi as ([Hl Hr Hw Hf Hlk Hs] & Hb & Hput).
    refine (wlp_ok _ (fun _ s' => uart_inv (s', put)) (fun _ => False) _ _ _ _ He). wlp_step. apply wlp_lock. intros _.
    apply wp_wlp, start_keeps; [by split|done|done|done].
  - destruct Hi as ([Hl Hr Hw Hf Hlk Hs] & Hb & Hput).
    refine (wlp_ok _ (fun _ s' => uart_inv (s', put)) (fun _ => False) _ _ _ _ He).
    unfold uartputc_sync, upd_uart, write_thr, upd_uart. wlp_steps. destruct (negb _); [done|]. wlp_steps.
    split; [|done]. split; cbn; try done. by apply sublist_inserts_r.
  - destruct Hi as ([Hl Hr Hw Hf Hlk Hs] & Hb & Hput). split; [|done]. by split.
Qed.

(** The UART sends what it is given, in order: after any interleaving of
    uartputc() by processes, transmit interrupts, echoed characters and progress
    of the device, the bytes uartputc() has accepted are the bytes sent followed
    by the bytes in the ring buffer, of which there are at most 32; a process
    sleeps only when there are exactly 32, and the bytes sent appear in this
    order in the output of the device. *)
Theorem uart_sends_in_order s0 s put :
  uart_inv (s0, []) -> rtc uart_step (s0, []) (s, put) ->
  put = u_sent (cn_uart s) ++ tx (cn_uart s) /\ (length (tx (cn_uart s)) <= 32)%nat /\
  u_sent (cn_uart s) `sublist_of` u_out (cn_uart s) /\
  forall ch s', is_u8 ch -> uartputc ch s = Ok false s' -> length (tx (cn_uart s')) = 32%nat.
Proof.
  intros H0 Hrtc. assert (Hi : uart_inv (s, put)).
  { remember (s0, []) as x. remember (s, put) as y. clear Heqx Heqy.
    induction Hrtc as [|x y z Hs _ IH]; [done|]. apply IH. by eapply uart_inv_step. }
  pose proof Hi as ([Hl Hr Hw Hf Hlk Hs] & Hb & Hput). split; [done|]. split; [|split; [done|]].
  - unfold tx. rewrite length_rcont. unfold UART_TX_BUF_SIZE in Hf. lia.
  - intros ch s' Hch He. exact (proj2 (wlp_ok _ _ _ _ _ _ (uartputc_spec ch s put Hi Hch) He)).
Qed.

Lemma uart_sends_in_order_witness :
  exists s', rtc uart_step (ConsoleDemo.con0, []) (s', [65]) /\
    [65] = u_sent (cn_uart s') ++ tx (cn_uart s').
Proof.
  set (r := uartputc 65 ConsoleDemo.con0).
  assert (Hr : exists s', r = Ok true s') by (vm_compute; by eexists).
  destruct Hr as [s' Hr]. exists s'.
  assert (Hst : rtc uart_step (ConsoleDemo.con0, []) (s', [65])).
  { apply rtc_once. apply (us_putc 65 ConsoleDemo.con0 s' []); [done|exact Hr]. }
  split; [exact Hst|].
  refine (proj1 (uart_sends_in_order ConsoleDemo.con0 s' [65] _ Hst)).
  split; [|split; [|reflexivity]].
  - split; try done.
  - intros ch Hch. change (ch ∈ replicate 32 0) in Hch. assert (ch = 0) as ->; [|done]. by apply elem_of_replicate in Hch as [? _].
Defined.
