(* ===== verification/Ulib.v ===== *)
(** The C library of user programs: user/ulib.c.

    User memory is a map from addresses to bytes, as in [CString]; the string
    routines walk to a NUL, and [fuel] bounds the walk.  The input of gets() is
    the list of bytes read() will deliver; the system calls of stat() are
    parameters. *)

From S2P Require Import Prelude Riscv CString.

Module U.

Fixpoint strcpy_loop (fuel : nat) (s t : Z) (m : mem) : option mem :=
  match fuel with
  | O => None
  | S f => let c := m t in
           let m := mupd m s c in
           if negb (c =? 0) then strcpy_loop f (s + 1) (t + 1) m else Some m
  end.
Definition strcpy (fuel : nat) (s t : Z) (m : mem) : option mem := strcpy_loop fuel s t m.

Fixpoint strcmp_loop (fuel : nat) (p q : Z -> Z) (i : Z) : option Z :=
  match fuel with
  | O => None
  | S f => if negb (p i =? 0) && (p i =? q i) then strcmp_loop f p q (i + 1)
           else Some (u8 (p i) - u8 (q i))
  end.
Definition strcmp (fuel : nat) (p q : Z -> Z) : option Z := strcmp_loop fuel p q 0.

Fixpoint strlen_loop (fuel : nat) (s : Z -> Z) (n : Z) : option Z :=
  match fuel with
  | O => None
  | S f => if negb (s n =? 0) then strlen_loop f s (n + 1) else Some n
  end.
Definition strlen (fuel : nat) (s : Z -> Z) : option Z := strlen_loop fuel s 0.

Fixpoint memset_loop (k : nat) (i : Z) (dst c : Z) (m : mem) : mem :=
  match k with
  | O => m
  | S k => memset_loop k (i + 1) dst c (mupd m (dst + i) (u8 c))
  end.
Definition memset (dst c n : Z) (m : mem) : mem := memset_loop (Z.to_nat n) 0 dst c m.

(** The address of the first [c] in the string at [s], or 0. *)
Fixpoint strchr (fuel : nat) (s c : Z) (m : mem) : option Z :=
  match fuel with
  | O => None
  | S f => if negb (m s =? 0) then (if m s =? c then Some s else strchr f (s + 1) c m)
           else Some 0
  end.

(** Reads up to [max - 1] bytes; the input left over is returned. *)
Fixpoint gets_loop (k : nat) (buf i : Z) (m : mem) (input : list Z) : Z * mem * list Z :=
  match k with
  | O => (i, m, input)
  | S k =>
      match input with
      | [] => (i, m, [])                                     (* cc < 1 *)
      | c :: input =>
          let m := mupd m (buf + i) c in
          if (c =? 10) || (c =? 13) then (i + 1, m, input)
          else gets_loop k buf (i + 1) m input
      end
  end.
Definition gets (buf max : Z) (m : mem) (input : list Z) : mem * list Z :=
  let '(i, m, input) := gets_loop (Z.to_nat (max - 1)) buf 0 m input in
  (mupd m (buf + i) 0, input).

Section Stat.
Context {St : Type} (open : Z -> Z -> M St Z) (fstat : Z -> Z -> M St Z) (close : Z -> M St Z).

Definition stat (n st : Z) : M St Z :=
  let! fd := open n 0 in                                     (* O_RDONLY *)
  if fd <? 0 then ret (-1)
  else
    let! r := fstat fd st in
    let! _ := close fd in
    ret r.
End Stat.

(** On the bytes of the string. *)
Fixpoint atoi_loop (s : list Z) (n : Z) : Z :=
  match s with
  | [] => n
  | c :: s => if (48 <=? c) && (c <=? 57) then atoi_loop s (i32 (n * 10 + c - 48)) else n
  end.
Definition atoi (s : list Z) : Z := atoi_loop s 0.

Fixpoint move_fwd (k : nat) (dst src : Z) (m : mem) : mem :=
  match k with
  | O => m
  | S k => move_fwd k (dst + 1) (src + 1) (mupd m dst (m src))
  end.
Fixpoint move_bwd (k : nat) (dst src : Z) (m : mem) : mem :=
  match k with
  | O => m
  | S k => move_bwd k (dst - 1) (src - 1) (mupd m (dst - 1) (m (src - 1)))
  end.
Definition memmove (dst src n : Z) (m : mem) : mem :=
  if src >? dst then move_fwd (Z.to_nat n) dst src m
  else move_bwd (Z.to_nat n) (dst + n) (src + n) m.

Fixpoint memcmp_loop (k : nat) (s1 s2 : Z -> Z) (i : Z) : Z :=
  match k with
  | O => 0
  | S k => if negb (s1 i =? s2 i) then s1 i - s2 i else memcmp_loop k s1 s2 (i + 1)
  end.
Definition memcmp (s1 s2 : Z -> Z) (n : Z) : Z := memcmp_loop (Z.to_nat n) s1 s2 0.

Definition memcpy (dst src n : Z) (m : mem) : mem := memmove dst src n m.

End U.

(** ** memmove() *)

(** The loops of the two libraries are the same. *)
Lemma move_fwd_eq k dst src m : U.move_fwd k dst src m = memmove_fwd k dst src m.
Proof. revert dst src m. induction k as [|k IH]; intros; [done|]. apply IH. Qed.
Lemma move_bwd_eq k dst src m : U.move_bwd k dst src m = memmove_bwd k dst src m.
Proof. revert dst src m. induction k as [|k IH]; intros; [done|]. apply IH. Qed.

(** memmove() of the kernel and memmove() of the user library compute the
    same memory for every source, destination and overlap, although they
    choose the direction by different tests: every byte of the destination is
    the byte the source held before the call, and no other byte changes. *)
Theorem memmoves_agree dst src n m x :
  0 <= n ->
  U.memmove dst src n m x = memmove dst src n m x /\
  memmove dst src n m x = if decide (dst <= x < dst + n) then m (src + (x - dst)) else m x.
Proof.
  intros Hn. assert (Hk : memmove dst src n m x = if decide (dst <= x < dst + n) then m (src + (x - dst)) else m x).
  { rewrite memmove_spec by done. repeat case_decide; repeat zcase; done || lia. }
  split; [|done]. rewrite Hk. unfold U.memmove. rewrite Z.gtb_ltb. destruct (Z.ltb_spec dst src).
  - rewrite move_fwd_eq, memmove_fwd_spec by lia. repeat case_decide; repeat zcase; done || lia.
  - rewrite move_bwd_eq, memmove_bwd_spec by lia. repeat case_decide; repeat zcase; try (done || lia); f_equal; lia.
Qed.

(** Moving three bytes up by one, in place. *)
Lemma memmoves_agree_witness :
  U.memmove 101 100 3 (fun a => a mod 256) 103 = 102 /\ memmove 101 100 3 (fun a => a mod 256) 103 = 102.
Proof.
  destruct (memmoves_agree 101 100 3 (fun a => a mod 256) 103 ltac:(lia)) as [Hu Hk].
  rewrite Hu, Hk. split; reflexivity.
Defined.

(** ** atoi() *)

(** The value of a string of decimal digits, most significant first. *)
Definition dec_value (s : list Z) : Z := fold_left (fun n c => n * 10 + (c - 48)) s 0.
Definition is_digit (c : Z) : Prop := 48 <= c <= 57.

Lemma fold_dec_mono s n : Forall is_digit s -> 0 <= n -> n <= fold_left (fun n c => n * 10 + (c - 48)) s n.
Proof.
  revert n. induction s as [|c s IH]; intros n Hd Hn; cbn; [done|].
  apply Forall_cons in Hd as [Hc Hd]. unfold is_digit in Hc.
  specialize (IH (n * 10 + (c - 48)) Hd ltac:(lia)). lia.
Qed.

(** atoi() reads a number that fits in an int, up to the first byte that is no digit. *)
Lemma atoi_loop_dec s rest n :
  0 <= n -> Forall is_digit s -> fold_left (fun n c => n * 10 + (c - 48)) s n < 2 ^ 31 ->
  match rest with [] => True | c :: _ => ~ is_digit c end ->
  U.atoi_loop (s ++ rest) n = fold_left (fun n c => n * 10 + (c - 48)) s n.
Proof.
  revert n. induction s as [|c s IH]; intros n Hn Hd Hv Hr; cbn in *.
  - destruct rest as [|c rest]; cbn; [done|]. unfold is_digit in Hr.
    destruct (Z.leb_spec 48 c); cbn; [|done]. destruct (Z.leb_spec c 57); [lia|done].
  - apply Forall_cons in Hd as [Hc Hd]. unfold is_digit in Hc.
    pose proof (fold_dec_mono s (n * 10 + (c - 48)) Hd ltac:(lia)) as Hm.
    destruct (Z.leb_spec 48 c); [|lia]. destruct (Z.leb_spec c 57); [|lia]. cbn [andb].
    replace (i32 (n * 10 + c - 48)) with (n * 10 + (c - 48)) by (rewrite i32_small; lia).
    apply IH; try done. lia.
Qed.
