(* ===== verification/Printf.v ===== *)
(** Formatted output of the kernel: kernel/printf.c.

    The arguments of a call are the 8-byte slots va_arg() walks over, given by
    [va]; %d takes the low 32 bits of a slot.  A string argument is an address in
    memory, and [fuel] bounds the walk to its NUL; the format is the list of its
    bytes. *)

From S2P Require Import Prelude Ring Riscv CString Kalloc Vm Fields Console ConsoleProps.

Record prst : Type := mkPr {
  pr_lock : bool;
  pr_locking : Z;
  pr_con : con;
}.
Definition pr_lk : lens prst bool := mkLens pr_lock (fun b s => mkPr b (pr_locking s) (pr_con s)).
Definition pr_cn : lens prst con := mkLens pr_con (fun v s => mkPr (pr_lock s) (pr_locking s) v).

Definition kputc (ch : Z) : M prst unit := zoom pr_cn (consputc ch).

(** "0123456789abcdef" *)
Definition digits : list Z := [48; 49; 50; 51; 52; 53; 54; 55; 56; 57; 97; 98; 99; 100; 101; 102].

(** buf[i++] = digits[x % base] while x /= base is not 0, into [buf]. *)
Fixpoint put_digits (digits : list Z) (fuel : nat) (x base : Z) : list Z :=
  match fuel with
  | O => []
  | S f => let d := zget digits (x mod base) in
           let x := x / base in
           if negb (x =? 0) then d :: put_digits digits f x base else [d]
  end.

(** The buffer of printint(): least significant digit first.  [x = -xx] is
    stored in an unsigned int. *)
Definition int_buf (digits : list Z) (xx base : Z) (sign : bool) : list Z :=
  let neg := sign && (xx <? 0) in
  let x := u32 (if neg then - xx else xx) in
  let buf := put_digits digits 32 x base in
  if neg then buf ++ [45] else buf.

Definition printint (xx base : Z) (sign : bool) : M prst unit :=
  for_each (rev (int_buf digits xx base sign)) kputc.

(** The sixteen digits of a pointer: digits[x >> 60], x <<= 4. *)
Fixpoint ptr_digits (digits : list Z) (n : nat) (x : Z) : list Z :=
  match n with
  | O => []
  | S n => zget digits (Z.shiftr x 60) :: ptr_digits digits n (u64 (Z.shiftl x 4))
  end.
Definition printptr (x : Z) : M prst unit :=
  kputc 48 ;;;
  kputc 120 ;;;
  for_each (ptr_digits digits 16 x) kputc.

(** "(null)" *)
Definition null_str : list Z := [40; 110; 117; 108; 108; 41].

Section Kernel.
Context (fuel : nat) (va : Z -> Z).

Definition put_str (s : Z) : M prst unit :=
  loop fuel
    (fun s =>
       let! m := gets (fun st => k_mem (cn_vm (pr_con st))) in
       if negb (m s =? 0) then kputc (m s) ;;; ret (inl (s + 1)) else ret (inr tt))
    s.

(** The conversion after a '%', with the number of the next argument. *)
Definition printf_conv (ch k : Z) : M prst Z :=
  if ch =? 100 then printint (i32 (va k)) 10 true ;;; ret (k + 1)
  else if ch =? 120 then printint (i32 (va k)) 16 true ;;; ret (k + 1)
  else if ch =? 112 then printptr (va k) ;;; ret (k + 1)
  else if ch =? 115 then
    (if va k =? 0 then for_each null_str kputc else put_str (va k)) ;;; ret (k + 1)
  else if ch =? 37 then kputc 37 ;;; ret k
  else
    (* print unknown % sequence to draw attention *)
    kputc 37 ;;; kputc ch ;;; ret k.

Fixpoint printf_loop (fmt : list Z) (k : Z) : M prst unit :=
  match fmt with
  | [] => ret tt
  | ch :: fmt =>
      if ch =? 0 then ret tt
      else if negb (ch =? 37) then kputc ch ;;; printf_loop fmt k
      else
        match fmt with
        | [] => ret tt
        | ch :: fmt =>
            if ch =? 0 then ret tt
            else
              let! k := printf_conv ch k in
              printf_loop fmt k
        end
  end.

Definition printf (fmt : option (list Z)) : M prst unit :=
  let! locking := gets pr_locking in
  (if negb (locking =? 0) then acquire pr_lk else ret tt) ;;;
  match fmt with
  | None => panic "null fmt"
  | Some fmt =>
      printf_loop fmt 0 ;;;
      if negb (locking =? 0) then release pr_lk else ret tt
  end.
End Kernel.

(** panic() prints the message as a format, and freezes the output of the other
    CPUs; the loop for(;;) that follows is not part of the run. *)
Definition panic_run (fuel : nat) (va : Z -> Z) (msg : list Z) : M prst unit :=
  modify (fun s => mkPr (pr_lock s) 0 (pr_con s)) ;;;
  printf fuel va (Some [112; 97; 110; 105; 99; 58; 32]) ;;;        (* "panic: " *)
  printf fuel va (Some msg) ;;;
  printf fuel va (Some [10]) ;;;
  modify (fun s => let k := pr_con s in
                   mkPr (pr_lock s) (pr_locking s)
                     (mkCon (cn_cons k) (cn_uart k) (cn_vm k) (cn_woken k) 1 (cn_dumps k))).

Definition printfinit : M prst unit := modify (fun s => mkPr false 1 (pr_con s)).

(** * What the conversions write *)

Definition out_of (s : prst) : list Z := u_out (cn_uart (pr_con s)).

(** The console has sent [out] and nothing else has changed. *)
Definition sent (out : list Z) (s s' : prst) : Prop :=
  exists room, s' = lset pr_cn (put_uart (set_u_dev (u_rx (cn_uart (pr_con s))) room
                      (u_out (cn_uart (pr_con s)) ++ out) (cn_uart (pr_con s))) (pr_con s)) s.

Lemma sent_nil s : sent [] s s.
Proof. exists (u_room (cn_uart (pr_con s))). rewrite app_nil_r. by destruct s as [? ? [? [] ? ? ? ?]]. Qed.
Lemma sent_app o1 o2 s1 s2 s3 : sent o1 s1 s2 -> sent o2 s2 s3 -> sent (o1 ++ o2) s1 s3.
Proof. intros [r1 ->] [r2 ->]. exists r2. cbn. by rewrite app_assoc. Qed.
Lemma sent_mem out s s' : sent out s s' -> cn_vm (pr_con s') = cn_vm (pr_con s).
Proof. by intros [r ->]. Qed.
Lemma sent_panicked out s s' : sent out s s' -> cn_panicked (pr_con s') = cn_panicked (pr_con s).
Proof. by intros [r ->]. Qed.
Lemma sent_out out s s' : sent out s s' -> out_of s' = out_of s ++ out.
Proof. by intros [r ->]. Qed.
Lemma sent_lock out s s' : sent out s s' -> pr_lock s' = pr_lock s /\ pr_locking s' = pr_locking s.
Proof. by intros [r ->]. Qed.

(** [m] writes [out] and returns [a]. *)
Definition writes {A} (m : M prst A) (out : list Z) (a : A) (s : prst) : Prop :=
  wp m (fun r s' => r = a /\ sent out s s') s.

Lemma writes_ret {A} (a : A) s : writes (ret a) [] a s.
Proof. apply wp_ret. split; [done|]. apply sent_nil. Qed.
Lemma writes_bind {A B} (m : M prst A) (k : A -> M prst B) o1 o2 a b s :
  writes m o1 a s -> (forall s', sent o1 s s' -> writes (k a) o2 b s') -> writes (bind m k) (o1 ++ o2) b s.
Proof.
  intros Hm Hk. apply wp_bind. eapply wp_mono; [exact Hm|]. intros r s' [-> Hs].
  eapply wp_mono; [by apply Hk|]. intros r s'' [-> Hs']. split; [done|]. by eapply sent_app.
Qed.
Lemma writes_ret_bind {A B} (m : M prst A) (b : B) o a s : writes m o a s -> writes (bind m (fun _ => ret b)) o b s.
Proof. intros Hm. rewrite <- (app_nil_r o). eapply writes_bind; [exact Hm|]. intros. apply writes_ret. Qed.

Lemma writes_putc ch s : is_u8 ch -> cn_panicked (pr_con s) = 0 -> writes (kputc ch) [ch] tt s.
Proof.
  intros Hc Hp. unfold writes, kputc. apply wp_zoom. unfold consputc.
  assert (Hb : (ch =? BACKSPACE) = false) by (unfold BACKSPACE, is_u8 in *; apply Z.eqb_neq; lia). rewrite Hb.
  unfold uartputc_sync, write_thr, upd_uart. wp_steps. change (lget pr_cn s) with (pr_con s). rewrite Hp. cbn [Z.eqb negb].
  wp_steps. split; [done|]. eexists. cbn. rewrite (u8_small ch) by done. reflexivity.
Qed.

Lemma writes_each l s : Forall is_u8 l -> cn_panicked (pr_con s) = 0 -> writes (for_each l kputc) l tt s.
Proof.
  revert s. induction l as [|ch l IH]; intros s Hl Hp; [apply writes_ret|].
  apply Forall_cons in Hl as [Hc Hl]. apply (writes_bind _ _ [ch] l tt tt); [by apply writes_putc|].
  intros s' Hs. apply IH; [done|]. by rewrite (sent_panicked _ _ _ Hs).
Qed.
