(* ===== verification/UPrintf.v ===== *)
(** Formatted output of user programs: user/printf.c.

    Arguments and formats are as in [Printf].  A program writes byte by byte to
    a file descriptor: [uwrites] collects those calls of write(). *)

From S2P Require Import Prelude Riscv CString Printf.

Module UP.

(** "0123456789ABCDEF" *)
Definition digits : list Z := [48; 49; 50; 51; 52; 53; 54; 55; 56; 57; 65; 66; 67; 68; 69; 70].

Record ust : Type := mkUst { us_mem : mem; uwrites : list (Z * Z) }.

(** write(fd, &c, 1) *)
Definition putc (fd ch : Z) : M ust unit :=
  modify (fun s => mkUst (us_mem s) (uwrites s ++ [(fd, u8 ch)])).

Definition printint (fd xx base : Z) (sgn : bool) : M ust unit :=
  for_each (rev (int_buf digits xx base sgn)) (putc fd).

Definition printptr (fd x : Z) : M ust unit :=
  putc fd 48 ;;;
  putc fd 120 ;;;
  for_each (ptr_digits digits 16 x) (putc fd).

Section User.
Context (fuel : nat) (va : Z -> Z) (fd : Z).

Definition put_str (s : Z) : M ust unit :=
  loop fuel
    (fun s =>
       let! m := gets us_mem in
       if negb (m s =? 0) then putc fd (m s) ;;; ret (inl (s + 1)) else ret (inr tt))
    s.

(** state == '%' *)
Definition vprintf_conv (ch k : Z) : M ust Z :=
  if ch =? 100 then printint fd (i32 (va k)) 10 true ;;; ret (k + 1)
  else if ch =? 108 then printint fd (i32 (va k)) 10 false ;;; ret (k + 1)
  else if ch =? 120 then printint fd (i32 (va k)) 16 false ;;; ret (k + 1)
  else if ch =? 112 then printptr fd (va k) ;;; ret (k + 1)
  else if ch =? 115 then
    (if va k =? 0 then for_each null_str (putc fd) else put_str (va k)) ;;; ret (k + 1)
  else if ch =? 99 then putc fd (va k) ;;; ret (k + 1)
  else if ch =? 37 then putc fd ch ;;; ret k
  else
    putc fd 37 ;;; putc fd ch ;;; ret k.

(** [percent]: state == '%'. *)
Fixpoint vprintf_loop (fmt : list Z) (percent : bool) (k : Z) : M ust unit :=
  match fmt with
  | [] => ret tt
  | ch :: fmt =>
      if ch =? 0 then ret tt
      else if negb percent then
        if ch =? 37 then vprintf_loop fmt true k
        else putc fd ch ;;; vprintf_loop fmt false k
      else
        let! k := vprintf_conv ch k in
        vprintf_loop fmt false k
  end.
Definition vprintf (fmt : list Z) : M ust unit := vprintf_loop fmt false 0.
End User.

Definition fprintf (fuel : nat) (va : Z -> Z) (fd : Z) (fmt : list Z) : M ust unit := vprintf fuel va fd fmt.
Definition printf (fuel : nat) (va : Z -> Z) (fmt : list Z) : M ust unit := vprintf fuel va 1 fmt.

End UP.
