(* ===== verification/PrintfProps.v ===== *)
(** What printf() writes, in the kernel and in user programs. *)

From S2P Require Import Prelude Ring Riscv CString Kalloc Vm Fields Console ConsoleProps Ulib Printf UPrintf.

(** * Decimal numerals *)

(** A decimal numeral without leading zeros, and the numeral of an integer. *)
Definition numeral (s : list Z) : Prop :=
  s <> [] /\ Forall is_digit s /\ (head s = Some 48 -> s = [48]).
Definition is_dec (x : Z) (s : list Z) : Prop :=
  if x <? 0 then exists d, s = 45 :: d /\ numeral d /\ dec_value d = - x
  else numeral s /\ dec_value s = x.

Lemma dec_value_snoc l c : dec_value (l ++ [c]) = dec_value l * 10 + (c - 48).
Proof. unfold dec_value. by rewrite fold_left_app. Qed.
Lemma dec_value_nonneg l : Forall is_digit l -> 0 <= dec_value l.
Proof. intros Hl. by apply fold_dec_mono. Qed.

Lemma numeral_pos l : Forall is_digit l -> l <> [] -> head l <> Some 48 -> 0 < dec_value l.
Proof.
  induction l as [|c l IH] using rev_ind; intros Hd Hn Hh; [done|].
  rewrite dec_value_snoc. apply Forall_app in Hd as [Hd Hc]. apply Forall_cons in Hc as [Hc _].
  unfold is_digit in Hc. destruct l as [|a l]; [cbn in *|].
  - assert (c <> 48) by (intros ->; done). lia.
  - specialize (IH Hd ltac:(done) Hh). lia.
Qed.

Lemma numeral_snoc l c : numeral (l ++ [c]) -> l = [] \/ numeral l /\ 0 < dec_value l.
Proof.
  intros (_ & Hd & Hh). destruct l as [|a l]; [by left|right]. apply Forall_app in Hd as [Hd _].
  assert (Ha : a <> 48). { intros ->. specialize (Hh eq_refl). by destruct l. }
  split; [|apply numeral_pos; [done|done|cbn; congruence]].
  split; [done|]. split; [done|]. cbn. congruence.
Qed.

(** The numeral of a number is unique. *)
Lemma numeral_inj l1 l2 : numeral l1 -> numeral l2 -> dec_value l1 = dec_value l2 -> l1 = l2.
Proof.
  revert l2. induction l1 as [|c1 l1 IH] using rev_ind; intros l2 H1 H2 Hv; [by destruct H1|].
  destruct l2 as [|c2 l2 _] using rev_ind; [by destruct H2|].
  rewrite !dec_value_snoc in Hv.
  pose proof H1 as (_ & Hd1 & _). apply Forall_app in Hd1 as [Hd1 Hc1]. apply Forall_cons in Hc1 as [Hc1 _].
  pose proof H2 as (_ & Hd2 & _). apply Forall_app in Hd2 as [Hd2 Hc2]. apply Forall_cons in Hc2 as [Hc2 _].
  unfold is_digit in *. assert (Hc : c1 = c2 /\ dec_value l1 = dec_value l2) by lia. destruct Hc as [-> Hl].
  f_equal. destruct (numeral_snoc _ _ H1) as [->|[N1 P1]], (numeral_snoc _ _ H2) as [->|[N2 P2]];
    [done|change (dec_value []) with 0 in Hl; lia|change (dec_value []) with 0 in Hl; lia|by apply IH].
Qed.

Lemma is_dec_inj x l1 l2 : is_dec x l1 -> is_dec x l2 -> l1 = l2.
Proof.
  unfold is_dec. destruct (x <? 0).
  - intros (d1 & -> & N1 & V1) (d2 & -> & N2 & V2). f_equal. apply numeral_inj; congruence.
  - intros [N1 V1] [N2 V2]. apply numeral_inj; congruence.
Qed.

(** * printint() *)

(** Both tables of digits start with "0123456789". *)
Definition dec_table (dg : list Z) : Prop := forall i, 0 <= i < 10 -> zget dg i = 48 + i.

Lemma kernel_table : dec_table digits.
Proof. intros i Hi. assert (i = 0 \/ i = 1 \/ i = 2 \/ i = 3 \/ i = 4 \/ i = 5 \/ i = 6 \/ i = 7 \/ i = 8 \/ i = 9) as Hc by lia.
  by repeat destruct Hc as [->|Hc]; subst. Qed.
Lemma user_table : dec_table UP.digits.
Proof. intros i Hi. assert (i = 0 \/ i = 1 \/ i = 2 \/ i = 3 \/ i = 4 \/ i = 5 \/ i = 6 \/ i = 7 \/ i = 8 \/ i = 9) as Hc by lia.
  by repeat destruct Hc as [->|Hc]; subst. Qed.

Lemma put_digits_dec dg fuel n x :
  dec_table dg -> (0 < n <= fuel)%nat -> 0 <= x < 10 ^ Z.of_nat n ->
  numeral (rev (put_digits dg fuel x 10)) /\ dec_value (rev (put_digits dg fuel x 10)) = x /\
  (length (put_digits dg fuel x 10) <= n)%nat.
Proof.
  intros Hdg. revert n x. induction fuel as [|f IH]; intros n x Hn Hx; [lia|].
  cbn [put_digits]. pose proof (Z.mod_pos_bound x 10 ltac:(lia)) as Hm. pose proof (Z.div_mod x 10 ltac:(lia)) as Hdm.
  rewrite Hdg by done. destruct (Z.eqb_spec (x / 10) 0) as [E|E]; cbn [negb].
  - split; [|split; [unfold dec_value; cbn; lia|cbn; lia]]. split; [done|]. split; [repeat constructor; lia|].
    cbn. congruence.
  - destruct n as [|[|n]]; [lia|change (10 ^ Z.of_nat 1) with 10 in Hx; rewrite Z.div_small in E by lia; lia|].
    destruct (IH (S n) (x / 10)) as (HN & HV & HL); [lia| |].
    { rewrite (Nat2Z.inj_succ (S n)), Z.pow_succ_r in Hx by lia. split; [apply Z.div_pos; lia|apply Z.div_lt_upper_bound; lia]. }
    cbn [rev length]. split; [|split; [|lia]].
    + destruct HN as (Hne & Hd & Hh). split; [by destruct (rev _)|]. split.
      { apply Forall_app. split; [done|]. repeat constructor; lia. }
      destruct (rev _) as [|a l] eqn:Er; [done|]. cbn. intros [= ->]. specialize (Hh eq_refl).
      injection Hh as ->. cbn in HV. lia.
    + rewrite dec_value_snoc, HV. lia.
Qed.

Lemma int_buf_dec dg xx :
  dec_table dg -> - 2 ^ 31 <= xx < 2 ^ 31 ->
  is_dec xx (rev (int_buf dg xx 10 true)) /\ (length (int_buf dg xx 10 true) <= 11)%nat.
Proof.
  intros Hdg Hx. unfold int_buf, is_dec. cbn [andb].
  assert (Hu : forall y, 0 <= y <= 2 ^ 31 -> u32 y = y) by (intros y Hy; apply u32_small; unfold is_u32; lia).
  destruct (Z.ltb_spec xx 0) as [Hneg|Hpos].
  - rewrite Hu by lia. destruct (put_digits_dec dg 32 10 (- xx)) as (HN & HV & HL); [done|lia|lia|].
    rewrite rev_unit, length_app. change (length [45]) with 1%nat. split; [by eexists|lia].
  - rewrite Hu by lia. destruct (put_digits_dec dg 32 10 xx) as (HN & HV & HL); [done|lia|lia|]. split; [done|lia].
Qed.

Lemma is_dec_bytes x s : is_dec x s -> Forall is_u8 s.
Proof.
  assert (Hd : forall d, Forall is_digit d -> Forall is_u8 d).
  { intros d Hd. eapply Forall_impl; [exact Hd|]. unfold is_digit, is_u8. lia. }
  unfold is_dec. destruct (x <? 0).
  - intros (d & -> & (_ & Hn & _) & _). constructor; [done|auto].
  - intros [(_ & Hn & _) _]. auto.
Qed.

(** printint() in base 10 writes the decimal numeral of its argument, for
    every int, the most negative one included: a minus sign and digits
    without leading zeros.  The digits fit in its buffer, and atoi() reads a
    number that is not negative back. *)
Theorem printint_decimal xx s :
  - 2 ^ 31 <= xx < 2 ^ 31 -> cn_panicked (pr_con s) = 0 ->
  exists out, writes (printint xx 10 true) out tt s /\ is_dec xx out /\
    (length (int_buf digits xx 10 true) <= 16)%nat /\ (0 <= xx -> U.atoi out = xx).
Proof.
  intros Hx Hp. destruct (int_buf_dec digits xx kernel_table Hx) as [Hd Hl].
  exists (rev (int_buf digits xx 10 true)). split; [|split; [done|split; [lia|]]].
  - apply writes_each; [by eapply is_dec_bytes|done].
  - intros Hpos. unfold is_dec in Hd. destruct (Z.ltb_spec xx 0); [lia|]. destruct Hd as [(_ & Hdg & _) Hv].
    unfold U.atoi. rewrite <- (app_nil_r (rev _)). rewrite atoi_loop_dec; [exact Hv|done|done| |done].
    unfold dec_value in Hv. lia.
Qed.

(** * Formats *)

(** A format is text and conversions; a '%' at its end is dropped. *)
Inductive piece : Type :=
| Text (ch : Z)
| Conv (ch : Z).
Fixpoint pieces (fmt : list Z) : list piece :=
  match fmt with
  | [] => []
  | ch :: fmt =>
      if ch =? 0 then []
      else if ch =? 37 then
        match fmt with
        | [] => []
        | ch :: fmt => if ch =? 0 then [] else Conv ch :: pieces fmt
        end
      else Text ch :: pieces fmt
  end.

(** The NUL-terminated string at an address. *)
Definition is_str (m : mem) (a : Z) (str : list Z) : Prop :=
  m (a + Z.of_nat (length str)) = 0 /\
  forall i ch, str !! i = Some ch -> m (a + Z.of_nat i) = ch /\ ch <> 0.

(** The text of a conversion, and the number of the next argument. *)
Inductive conv_out (m : mem) (va : Z -> Z) (k : Z) : Z -> list Z -> Z -> Prop :=
| co_d out : is_dec (i32 (va k)) out -> conv_out m va k 100 out (k + 1)
| co_null : va k = 0 -> conv_out m va k 115 null_str (k + 1)
| co_str out : va k <> 0 -> is_str m (va k) out -> conv_out m va k 115 out (k + 1)
| co_percent : conv_out m va k 37 [37] k
| co_other ch : ~ (ch ∈ [100; 115; 37; 120; 112; 108; 99]) -> conv_out m va k ch [37; ch] k.

Inductive renders (m : mem) (va : Z -> Z) : list piece -> Z -> list Z -> Prop :=
| re_nil k : renders m va [] k []
| re_text ch ps k out : renders m va ps k out -> renders m va (Text ch :: ps) k (ch :: out)
| re_conv ch ps k k' o out :
    conv_out m va k ch o k' -> renders m va ps k' out -> renders m va (Conv ch :: ps) k (o ++ out).

(** Induction on a format, two bytes at a time. *)
Lemma fmt_ind (P : list Z -> Prop) :
  P [] -> (forall ch fmt, P fmt -> (forall ch' fmt', fmt = ch' :: fmt' -> P fmt') -> P (ch :: fmt)) -> forall fmt, P fmt.
Proof.
  intros H0 Hs fmt. assert (H2 : P fmt /\ forall ch' fmt', fmt = ch' :: fmt' -> P fmt'); [|tauto].
  induction fmt as [|ch fmt [IH1 IH2]]; [done|]. split; [by apply Hs|]. intros ch' fmt' [= <- <-]. done.
Qed.

Lemma int_buf_unique dg xx out :
  dec_table dg -> is_dec (i32 xx) out -> rev (int_buf dg (i32 xx) 10 true) = out.
Proof.
  intros Hdg Hd. eapply is_dec_inj; [|exact Hd]. apply int_buf_dec; [done|apply i32_range].
Qed.

(** ** The kernel *)

Lemma is_str_nil m a : is_str m a [] -> m a = 0.
Proof. intros [He _]. cbn in He. by rewrite Z.add_0_r in He. Qed.
Lemma is_str_cons m a ch str : is_str m a (ch :: str) -> m a = ch /\ ch <> 0 /\ is_str m (a + 1) str.
Proof.
  intros [He Hs]. destruct (Hs 0%nat ch eq_refl) as [Hc Hnz]. cbn in Hc. rewrite Z.add_0_r in Hc.
  split; [done|]. split; [done|]. split.
  - rewrite <- He. f_equal. cbn [length]. lia.
  - intros i c' Hi. destruct (Hs (S i) c' Hi) as [H1 H2]. split; [|done]. rewrite <- H1. f_equal. lia.
Qed.

Lemma put_str_writes fuel a str s :
  bytes_ok (k_mem (cn_vm (pr_con s))) -> cn_panicked (pr_con s) = 0 -> (length str < fuel)%nat ->
  is_str (k_mem (cn_vm (pr_con s))) a str -> writes (put_str fuel a) str tt s.
Proof.
  unfold put_str. revert fuel a s. induction str as [|ch str IH]; intros fuel a s Hm Hp Hf Hstr;
    (destruct fuel as [|fuel]; [cbn in Hf; lia|]); cbn [loop].
  - apply is_str_nil in Hstr. unfold writes. wp_steps. rewrite Hstr. cbn [Z.eqb negb].
    wp_steps. split; [done|apply sent_nil].
  - apply is_str_cons in Hstr as (Hc & Hnz & Hstr).
    change (ch :: str) with ([ch] ++ str). eapply (writes_bind _ _ [ch] str (inl (a + 1)) tt).
    + unfold writes. wp_steps. rewrite Hc. rewrite (proj2 (Z.eqb_neq _ _) Hnz). cbn [negb].
      eapply (writes_ret_bind (kputc ch)). apply writes_putc; [|done]. rewrite <- Hc. apply Hm.
    + intros s' Hs. pose proof (sent_mem _ _ _ Hs) as Hmem. apply IH; rewrite ?Hmem; try done.
      * by rewrite (sent_panicked _ _ _ Hs).
      * cbn in Hf. lia.
Qed.

Ltac eqb_false := repeat match goal with
  | H : ?a <> ?b |- context [?a =? ?b] => rewrite (proj2 (Z.eqb_neq a b) H)
  end.

Lemma conv_writes fuel va ch k o k' s :
  bytes_ok (k_mem (cn_vm (pr_con s))) -> cn_panicked (pr_con s) = 0 -> (length o < fuel)%nat -> is_u8 ch ->
  conv_out (k_mem (cn_vm (pr_con s))) va k ch o k' -> writes (printf_conv fuel va ch k) o k' s.
Proof.
  intros Hm Hp Hf Hch Hc. unfold printf_conv. inversion Hc as [? Hd|Hz|? Hz Hs| |? Hn]; subst; cbn [Z.eqb Pos.eqb].
  - eapply writes_ret_bind. unfold printint. rewrite (int_buf_unique digits _ o kernel_table Hd).
    apply writes_each; [by eapply is_dec_bytes|done].
  - rewrite Hz. cbn [Z.eqb]. eapply writes_ret_bind. apply writes_each; [|done]. by repeat constructor.
  - eqb_false. eapply writes_ret_bind. by apply put_str_writes.
  - eapply writes_ret_bind. by apply writes_putc.
  - rewrite !not_elem_of_cons in Hn. destruct Hn as (N1 & N2 & N3 & N4 & N5 & N6 & N7 & _). eqb_false.
    apply (writes_bind _ _ [37] [ch] tt); [by apply writes_putc|]. intros s' Hs.
    eapply writes_ret_bind. apply writes_putc; [done|]. by rewrite (sent_panicked _ _ _ Hs).
Qed.

Lemma printf_loop_writes fuel va fmt k out s :
  bytes_ok (k_mem (cn_vm (pr_con s))) -> cn_panicked (pr_con s) = 0 -> (length out < fuel)%nat -> Forall is_u8 fmt ->
  renders (k_mem (cn_vm (pr_con s))) va (pieces fmt) k out -> writes (printf_loop fuel va fmt k) out tt s.
Proof.
  revert k out s. induction fmt as [|ch fmt IH1 IH2] using fmt_ind; intros k out s Hm Hp Hf Hb Hr; cbn in Hr.
  { inversion Hr; subst. apply writes_ret. }
  cbn [printf_loop]. apply Forall_cons in Hb as [Hc Hb].
  destruct (ch =? 0); [inversion Hr; subst; apply writes_ret|].
  destruct (ch =? 37); cbn [negb].
  - destruct fmt as [|ch' fmt]; [inversion Hr; subst; apply writes_ret|]. apply Forall_cons in Hb as [Hc' Hb].
    destruct (ch' =? 0); [inversion Hr; subst; apply writes_ret|]. inversion Hr as [| |? ? ? k' o out' Ho Hr']; subst.
    rewrite length_app in Hf. eapply writes_bind; [apply conv_writes; try done; lia|].
    intros s' Hs. pose proof (sent_mem _ _ _ Hs) as Hmem. eapply (IH2 ch'); rewrite ?Hmem; try done; [|lia].
    by rewrite (sent_panicked _ _ _ Hs).
  - inversion Hr as [|? ? ? out' Hr'|]; subst. apply (writes_bind _ _ [ch] out' tt); [by apply writes_putc|].
    intros s' Hs. pose proof (sent_mem _ _ _ Hs) as Hmem. apply IH1; rewrite ?Hmem; try done; [|cbn in Hf; lia].
    by rewrite (sent_panicked _ _ _ Hs).
Qed.

(** ** User programs *)

Section User.
Import UP.
Context (m : mem) (fd : Z) (Hm : bytes_ok m).

(** The user memory, and what has been written to the file. *)
Definition wrote (w : list (Z * Z)) (out : list Z) : ust := mkUst m (w ++ map (pair fd) out).

Lemma wrote_app w o1 o2 : mkUst m (uwrites (wrote w o1) ++ map (pair fd) o2) = wrote w (o1 ++ o2).
Proof. unfold wrote. cbn. by rewrite map_app, app_assoc. Qed.

Lemma putc_eq ch w : is_u8 ch -> putc fd ch (mkUst m w) = Ok tt (wrote w [ch]).
Proof. intros Hc. unfold putc, modify. cbn. by rewrite u8_small. Qed.

Lemma bind_eq {A B} (x : M ust A) (f : A -> M ust B) a s s' : x s = Ok a s' -> bind x f s = f a s'.
Proof. intros Hx. unfold bind. by rewrite Hx. Qed.

Lemma each_eq l w : Forall is_u8 l -> for_each l (putc fd) (mkUst m w) = Ok tt (wrote w l).
Proof.
  revert w. induction l as [|ch l IH]; intros w Hl; cbn [for_each].
  { unfold wrote. cbn. by rewrite app_nil_r. }
  apply Forall_cons in Hl as [Hc Hl]. erewrite bind_eq by (by apply putc_eq).
  unfold wrote at 1. rewrite IH by done. f_equal. unfold wrote. cbn. by rewrite <- app_assoc.
Qed.

Lemma ustr_eq fuel a str w :
  (length str < fuel)%nat -> is_str m a str -> UP.put_str fuel fd a (mkUst m w) = Ok tt (wrote w str).
Proof using Hm.
  unfold UP.put_str. revert fuel a w. induction str as [|ch str IH]; intros fuel a w Hf Hs;
    (destruct fuel as [|fuel]; [cbn in Hf; lia|]); cbn [loop].
  - apply is_str_nil in Hs. unfold bind, gets. cbn [us_mem]. rewrite Hs. cbn. unfold wrote. cbn. by rewrite app_nil_r.
  - apply is_str_cons in Hs as (Hc & Hnz & Hs). erewrite bind_eq; cycle 1.
    { unfold gets, bind at 1. cbn [us_mem]. rewrite Hc. rewrite (proj2 (Z.eqb_neq _ _) Hnz). cbn [negb].
      erewrite bind_eq; [reflexivity|]. apply putc_eq. rewrite <- Hc. apply Hm. }
    unfold wrote at 1. rewrite IH by (done || (cbn in Hf; lia)). f_equal. unfold wrote. cbn. by rewrite <- app_assoc.
Qed.

Lemma vconv_eq fuel va ch k o k' w :
  (length o < fuel)%nat -> is_u8 ch -> conv_out m va k ch o k' ->
  vprintf_conv fuel va fd ch k (mkUst m w) = Ok k' (wrote w o).
Proof using Hm.
  intros Hf Hch Hc. unfold vprintf_conv. inversion Hc as [? Hd|Hz|? Hz Hs| |? Hn]; subst; cbn [Z.eqb Pos.eqb].
  - erewrite bind_eq; [reflexivity|]. unfold UP.printint. rewrite (int_buf_unique UP.digits _ o user_table Hd).
    apply each_eq. by eapply is_dec_bytes.
  - rewrite Hz. cbn [Z.eqb]. erewrite bind_eq; [reflexivity|]. apply each_eq. by repeat constructor.
  - eqb_false. erewrite bind_eq; [reflexivity|]. by apply ustr_eq.
  - erewrite bind_eq; [reflexivity|]. by apply putc_eq.
  - rewrite !not_elem_of_cons in Hn. destruct Hn as (N1 & N2 & N3 & N4 & N5 & N6 & N7 & _). eqb_false.
    erewrite bind_eq by (by apply putc_eq). erewrite bind_eq by (unfold wrote; by apply putc_eq).
    unfold ret. f_equal. unfold wrote. cbn. by rewrite <- app_assoc.
Qed.

Lemma vprintf_loop_eq fuel va fmt k out w :
  (length out < fuel)%nat -> Forall is_u8 fmt -> renders m va (pieces fmt) k out ->
  vprintf_loop fuel va fd fmt false k (mkUst m w) = Ok tt (wrote w out).
Proof using Hm.
  assert (Hnil : forall w, Ok tt (mkUst m w) = Ok tt (wrote w []) :> res ust unit).
  { intros w'. unfold wrote. cbn. by rewrite app_nil_r. }
  revert k out w. induction fmt as [|ch fmt IH1 IH2] using fmt_ind; intros k out w Hf Hb Hr; cbn in Hr.
  { inversion Hr; subst. apply Hnil. }
  cbn [vprintf_loop negb]. apply Forall_cons in Hb as [Hc Hb].
  destruct (ch =? 0); [inversion Hr; subst; apply Hnil|]. destruct (ch =? 37).
  - destruct fmt as [|ch' fmt]; [inversion Hr; subst; apply Hnil|]. apply Forall_cons in Hb as [Hc' Hb].
    cbn [vprintf_loop negb]. destruct (ch' =? 0); [inversion Hr; subst; apply Hnil|].
    inversion Hr as [| |? ? ? k' o out' Ho Hr']; subst. rewrite length_app in Hf.
    erewrite bind_eq by (apply vconv_eq; [|done|exact Ho]; lia).
    unfold wrote at 1. rewrite (IH2 ch' fmt eq_refl k' out') by (done || lia). f_equal. apply wrote_app.
  - inversion Hr as [|? ? ? out' Hr'|]; subst. erewrite bind_eq by (by apply putc_eq).
    unfold wrote at 1. rewrite (IH1 k out') by (done || (cbn in Hf; lia)). f_equal. exact (wrote_app w [ch] out').
Qed.
End User.


(** * Concrete calls *)

Module PrintfDemo.
Definition pr0 : prst := mkPr false 1 ConsoleDemo.con0.
(** -5, and a null pointer *)
Definition va0 (k : Z) : Z := if k =? 0 then 2 ^ 64 - 5 else 0.
(** "n=%d%s%" *)
Definition fmt0 : list Z := [110; 61; 37; 100; 37; 115; 37].
Definition out0 : list Z := [110; 61; 45; 53] ++ null_str.

Lemma renders0 : renders (k_mem (cn_vm (pr_con pr0))) va0 (pieces fmt0) 0 out0.
Proof.
  apply re_text, re_text. apply (re_conv _ _ 100 [Conv 115] 0 1 [45; 53] null_str).
  - apply co_d. exists [53]. split; [done|]. split; [|done]. split; [done|]. split; [|done].
    constructor; [|constructor]. by split.
  - apply (re_conv _ _ 115 [] 1 2 null_str []); [by apply co_null|apply re_nil].
Qed.
End PrintfDemo.

Lemma printint_decimal_witness :
  exists out, writes (printint (- 2 ^ 31) 10 true) out tt PrintfDemo.pr0 /\ is_dec (- 2 ^ 31) out.
Proof.
  destruct (printint_decimal (- 2 ^ 31) PrintfDemo.pr0 ltac:(split; [discriminate|reflexivity]) eq_refl)
    as (out & H1 & H2 & _). exists out. exact (conj H1 H2).
Defined.

