(* ===== verification/Grep.v ===== *)
(** grep: user/grep.c.

    Strings are lists of bytes; the end of the list is the NUL.  [read] is the
    system call on a file whose remaining bytes are [input]: the i-th call
    delivers up to [rd i] bytes, so that any splitting of the file into reads is
    covered.  What is written to file descriptor 1 is collected in [out]. *)

From S2P Require Import Prelude.

Definition CARET : Z := 94.
Definition DOLLAR : Z := 36.
Definition STAR : Z := 42.
Definition DOT : Z := 46.
Definition NEWLINE : Z := 10.

(** * The matcher *)

(** The loop of matchstar(), for [here] the search for the rest of the pattern. *)
Fixpoint star_loop (here : list Z -> bool) (c : Z) (text : list Z) : bool :=
  if here text then true
  else
    match text with
    | [] => false
    | t :: text => if (t =? c) || (c =? DOT) then star_loop here c text else false
    end.

Fixpoint matchhere (re text : list Z) {struct re} : bool :=
  match re with
  | [] => true
  | c :: re1 =>
      let single :=
        match text with
        | t :: text => if (c =? DOT) || (c =? t) then matchhere re1 text else false
        | [] => false
        end in
      match re1 with
      | d :: re2 => if d =? STAR then star_loop (matchhere re2) c text else single
      | [] => if c =? DOLLAR then match text with [] => true | _ => false end else single
      end
  end.

Definition matchstar (c : Z) (re text : list Z) : bool := star_loop (matchhere re) c text.

(** The loop of match(): it also looks at the empty string at the end. *)
Fixpoint match_loop (re text : list Z) : bool :=
  if matchhere re text then true
  else match text with [] => false | _ :: text => match_loop re text end.

Definition match_ (re text : list Z) : bool :=
  match re with
  | c :: re1 => if c =? CARET then matchhere re1 text else match_loop re text
  | [] => match_loop re text
  end.

(** * The main loop *)

Definition BUFSZ : Z := 1024.

(** strchr(p, '\n'): the bytes before the first newline and those behind it,
    unless a NUL comes first. *)
Fixpoint find_line (p : list Z) : option (list Z * list Z) :=
  match p with
  | [] => None
  | c :: p =>
      if c =? 0 then None
      else if c =? NEWLINE then Some ([], p)
      else match find_line p with
           | Some (l, rest) => Some (c :: l, rest)
           | None => None
           end
  end.

(** The inner loop: the output, and what is left in the buffer. *)
Fixpoint grep_buf (fuel : nat) (pattern p out : list Z) : list Z * list Z :=
  match fuel with
  | O => (p, out)
  | S f =>
      match find_line p with
      | None => (p, out)
      | Some (l, rest) =>
          grep_buf f pattern rest (if match_ pattern l then out ++ l ++ [NEWLINE] else out)
      end
  end.

Section Grep.
Context (rd : nat -> Z).

(** read(fd, buf, n): the bytes delivered, and the rest of the file. *)
Definition read (i : nat) (n : Z) (input : list Z) : list Z * list Z :=
  let k := Z.to_nat (Z.min n (rd i)) in (take k input, drop k input).

(** [None] when the fuel runs out. *)
Fixpoint grep_loop (fuel i : nat) (pattern b input out : list Z) : option (list Z) :=
  match fuel with
  | O => None
  | S f =>
      let m := Z.of_nat (length b) in
      let '(got, input) := read i (BUFSZ - m - 1) input in
      match got with
      | [] => Some out
      | _ =>
          let b := b ++ got in
          let '(b, out) := grep_buf (S (length b)) pattern b out in
          grep_loop f (S i) pattern b input out
      end
  end.

Definition grep (fuel : nat) (pattern input : list Z) : option (list Z) := grep_loop fuel 0 pattern [] input [].
End Grep.

(** * main() *)

(** What the program writes to its standard output, and its exit status. *)
Section Main.
Context (rd : nat -> nat -> Z) (file : list Z -> option (list Z)).

(** "grep: cannot open %s\n" *)
Definition cannot_open (name : list Z) : list Z :=
  [103; 114; 101; 112; 58; 32; 99; 97; 110; 110; 111; 116; 32; 111; 112; 101; 110; 32] ++ name ++ [NEWLINE].

(** The loop over argv[2..]; [i] is the index of the first. *)
Fixpoint grep_files (i : nat) (pattern : list Z) (names : list (list Z)) (out : list Z) : option (list Z * Z) :=
  match names with
  | [] => Some (out, 0)                                      (* exit(0) *)
  | name :: names =>
      match file name with                                   (* open(argv[i], 0) *)
      | None => Some (out ++ cannot_open name, 1)            (* exit(1) *)
      | Some input =>
          match grep (rd i) (S (length input)) pattern input with
          | None => None
          | Some o => grep_files (S i) pattern names (out ++ o)
          end
      end
  end.

Definition grep_main (argv : list (list Z)) (stdin : list Z) : option (list Z * Z) :=
  match argv with
  | _ :: pattern :: names =>
      match names with
      | [] => option_map (fun o => (o, 0)) (grep (rd 0) (S (length stdin)) pattern stdin)
      | _ => grep_files 2 pattern names []
      end
  | _ => Some ([], 1)                                        (* usage, on fd 2; exit(1) *)
  end.
End Main.

(** * What a pattern means *)

(** A pattern is a sequence of characters, each of them starred or not, behind
    an optional '^' and in front of an optional '$'. *)
Record sym : Type := mkSym { sy_char : Z; sy_star : bool }.
Record pattern_ast : Type := mkPat { pa_start : bool; pa_syms : list sym; pa_end : bool }.

Fixpoint syms (re : list Z) : list sym * bool :=
  match re with
  | [] => ([], false)
  | c :: re1 =>
      match re1 with
      | d :: re2 => if d =? STAR then let r := syms re2 in (mkSym c true :: r.1, r.2)
                    else let r := syms re1 in (mkSym c false :: r.1, r.2)
      | [] => if c =? DOLLAR then ([], true) else ([mkSym c false], false)
      end
  end.
Definition parse_pattern (re : list Z) : pattern_ast :=
  match re with
  | c :: re1 => if c =? CARET then mkPat true (syms re1).1 (syms re1).2 else mkPat false (syms re).1 (syms re).2
  | [] => mkPat false [] false
  end.

(** The words of a sequence of symbols. *)
Definition char_ok (c t : Z) : Prop := c = DOT \/ t = c.
Inductive word : list sym -> list Z -> Prop :=
| wd_nil : word [] []
| wd_one c t ss w : char_ok c t -> word ss w -> word (mkSym c false :: ss) (t :: w)
| wd_star c v ss w : Forall (char_ok c) v -> word ss w -> word (mkSym c true :: ss) (v ++ w).

(** A text matches when it contains a word, at the start or at the end if the
    pattern says so. *)
Definition matches (re text : list Z) : Prop :=
  exists pre w post, text = pre ++ w ++ post /\ word (pa_syms (parse_pattern re)) w /\
    (pa_start (parse_pattern re) = true -> pre = []) /\ (pa_end (parse_pattern re) = true -> post = []).

(** A word of [ss] at the beginning of the text. *)
Definition here_spec (ss : list sym) (e : bool) (text : list Z) : Prop :=
  exists w post, text = w ++ post /\ word ss w /\ (e = true -> post = []).

Lemma word_star_inv c ss w :
  word (mkSym c true :: ss) w -> exists v w', w = v ++ w' /\ Forall (char_ok c) v /\ word ss w'.
Proof. inversion 1; subst. eauto. Qed.
Lemma word_one_inv c ss w : word (mkSym c false :: ss) w -> exists t w', w = t :: w' /\ char_ok c t /\ word ss w'.
Proof. inversion 1; subst. eauto. Qed.
Lemma word_nil_inv w : word [] w -> w = [].
Proof. by inversion 1. Qed.

Lemma char_okb c t : ((t =? c) || (c =? DOT)) = true <-> char_ok c t.
Proof. unfold char_ok. rewrite orb_true_iff, !Z.eqb_eq. tauto. Qed.

Lemma star_loop_spec here ss e c text :
  (forall t, here t = true <-> here_spec ss e t) ->
  star_loop here c text = true <-> here_spec (mkSym c true :: ss) e text.
Proof.
  intros Hh. induction text as [|t text IH]; cbn [star_loop].
  - destruct (here []) eqn:E; (split; [|]).
    + intros _. apply Hh in E as (w & post & He & Hw & Hp). exists ([] ++ w), post. by repeat split; try constructor.
    + done.
    + done.
    + intros (w & post & He & Hw & Hp). symmetry in He. apply app_eq_nil in He as [-> ->].
      apply word_star_inv in Hw as (v & w' & Ea & Hv & Hw'). symmetry in Ea. apply app_eq_nil in Ea as [-> ->].
      rewrite <- E. apply Hh. exists [], []. done.
  - destruct (here (t :: text)) eqn:E.
    { split; [|done]. intros _. apply Hh in E as (w & post & He & Hw & Hp). exists ([] ++ w), post. by repeat split; try constructor. }
    assert (Hn : ~ here_spec ss e (t :: text)) by (rewrite <- Hh; congruence).
    destruct ((t =? c) || (c =? DOT)) eqn:Ec.
    + apply char_okb in Ec. rewrite IH. split.
      * intros (w & post & -> & Hw & Hp). apply word_star_inv in Hw as (v & w' & -> & Hv & Hw').
        exists ((t :: v) ++ w'), post. split; [done|]. split; [|done]. constructor; [by constructor|done].
      * intros (w & post & He & Hw & Hp). apply word_star_inv in Hw as (v & w' & -> & Hv & Hw').
        destruct v as [|t' v]; [destruct Hn; by exists w', post|]. injection He as <- ->.
        apply Forall_cons in Hv as [_ Hv]. exists (v ++ w'), post. split; [done|]. split; [by constructor|done].
    + split; [done|]. intros (w & post & He & Hw & Hp). apply word_star_inv in Hw as (v & w' & -> & Hv & Hw').
      destruct v as [|t' v]; [destruct Hn; by exists w', post|]. injection He as <- ->.
      apply Forall_cons in Hv as [Hv _]. apply char_okb in Hv. congruence.
Qed.

Lemma single_spec (here : list Z -> bool) c ss e text :
  (forall t, here t = true <-> here_spec ss e t) ->
  match text with t :: text => if (c =? DOT) || (c =? t) then here text else false | [] => false end = true <->
  here_spec (mkSym c false :: ss) e text.
Proof.
  intros Hh. destruct text as [|t text].
  - split; [done|]. intros (w & post & He & Hw & _). apply word_one_inv in Hw as (t & w' & -> & _). done.
  - rewrite (Z.eqb_sym c t), orb_comm. destruct ((t =? c) || (c =? DOT)) eqn:Ec.
    + apply char_okb in Ec. rewrite Hh. split.
      * intros (w & post & -> & Hw & Hp). exists (t :: w), post. repeat split; try done. by constructor.
      * intros (w & post & He & Hw & Hp). apply word_one_inv in Hw as (t' & w' & -> & _ & Hw). injection He as -> ->. by exists w', post.
    + split; [done|]. intros (w & post & He & Hw & Hp). apply word_one_inv in Hw as (t' & w' & -> & Hc & _). injection He as <- _.
      apply char_okb in Hc. congruence.
Qed.

(** Induction on a pattern, one or two characters at a time. *)
Lemma re_ind (P : list Z -> Prop) :
  P [] -> (forall c re, P re -> (forall d re2, re = d :: re2 -> P re2) -> P (c :: re)) -> forall re, P re.
Proof.
  intros H0 Hs re. assert (H2 : P re /\ forall d re2, re = d :: re2 -> P re2); [|tauto].
  induction re as [|c re [IH1 IH2]]; [done|]. split; [by apply Hs|]. intros d re2 [= <- <-]. done.
Qed.

Lemma matchhere_spec re text : matchhere re text = true <-> here_spec (syms re).1 (syms re).2 text.
Proof.
  revert text. induction re as [|c re IH1 IH2] using re_ind; intros text.
  { cbn. split; [|done]. intros _. exists [], text. by repeat split; try constructor. }
  destruct re as [|d re2]; cbn [matchhere syms].
  - destruct (c =? DOLLAR) eqn:Ed.
    + cbn. destruct text as [|t text]; (split; [|done || idtac]).
      * intros _. exists [], []. by repeat split; try constructor.
      * done.
      * intros (w & post & He & Hw & Hp). apply word_nil_inv in Hw as ->. rewrite (Hp eq_refl) in He. done.
    + apply (single_spec (matchhere []) c [] false text). intros t. apply IH1.
  - destruct (d =? STAR) eqn:Ed; cbn [fst snd].
    + apply star_loop_spec. intros t. by apply (IH2 d).
    + apply (single_spec (matchhere (d :: re2)) c). intros t. apply IH1.
Qed.

Lemma match_loop_spec re text :
  match_loop re text = true <-> exists pre t, text = pre ++ t /\ here_spec (syms re).1 (syms re).2 t.
Proof.
  induction text as [|c text IH]; cbn [match_loop]; destruct (matchhere re _) eqn:E.
  - split; [|done]. intros _. exists [], []. split; [done|]. by apply matchhere_spec.
  - split; [done|]. intros (pre & t & He & Hs). symmetry in He. apply app_eq_nil in He as [-> ->].
    apply matchhere_spec in Hs. congruence.
  - split; [|done]. intros _. exists [], (c :: text). split; [done|]. by apply matchhere_spec.
  - rewrite IH. split.
    + intros (pre & t & -> & Hs). by exists (c :: pre), t.
    + intros (pre & t & He & Hs). destruct pre as [|c' pre]; cbn in He.
      * subst. apply matchhere_spec in Hs. congruence.
      * injection He as <- ->. by exists pre, t.
Qed.

Lemma match_spec re text : match_ re text = true <-> matches re text.
Proof.
  assert (Hl : match_loop re text = true <->
    exists pre w post, text = pre ++ w ++ post /\ word (syms re).1 w /\ ((syms re).2 = true -> post = [])).
  { rewrite match_loop_spec. split.
    - intros (pre & t & -> & w & post & -> & Hw & Hp). by exists pre, w, post.
    - intros (pre & w & post & -> & Hw & Hp). exists pre, (w ++ post). split; [done|]. by exists w, post. }
  unfold match_, matches, parse_pattern. destruct re as [|c re].
  - rewrite Hl. cbn. split; intros (pre & w & post & H1 & H2 & H3); exists pre, w, post; [done|by repeat split].
  - destruct (c =? CARET); cbn [pa_start pa_syms pa_end].
    + rewrite matchhere_spec. split.
      * intros (w & post & -> & Hw & Hp). by exists [], w, post.
      * intros (pre & w & post & -> & Hw & Hs & Hp). rewrite (Hs eq_refl). by exists w, post.
    + rewrite Hl. split; intros (pre & w & post & H1 & H2 & H3); exists pre, w, post; repeat split; try done; apply H3.
Qed.

(** C29. The matcher accepts exactly the texts its pattern describes: for every
    pattern and text match() returns, and it returns 1 if and only if the text
    contains a word of the pattern, where c* stands for any number of c's, '.' for any
    character, '^' for the start and '$' for the end of the text. *)
Theorem match_correct re text : match_ re text = true <-> matches re text.
Proof. apply match_spec. Qed.

#[global] Instance matches_dec re text : Decision (matches re text).
Proof. refine (cast_if (decide (match_ re text = true))); by rewrite <- match_spec. Defined.

(** * Lines *)

(** The complete lines of a text, and what follows the last newline. *)
Fixpoint split_lines (text : list Z) : list (list Z) * list Z :=
  match text with
  | [] => ([], [])
  | c :: text =>
      let '(ls, tl) := split_lines text in
      if c =? NEWLINE then ([] :: ls, tl)
      else match ls with
           | [] => ([], c :: tl)
           | l :: ls => ((c :: l) :: ls, tl)
           end
  end.

Definition selected (pat : list Z) (ls : list (list Z)) : list Z :=
  concat ((fun l => l ++ [NEWLINE]) <$> filter (matches pat) ls).

Lemma selected_cons pat l ls :
  selected pat (l :: ls) = (if match_ pat l then l ++ [NEWLINE] else []) ++ selected pat ls.
Proof.
  unfold selected. rewrite filter_cons. destruct (match_ pat l) eqn:E.
  - rewrite decide_True by (by apply match_spec). done.
  - rewrite decide_False; [done|]. rewrite <- match_spec. congruence.
Qed.
Lemma selected_app pat l1 l2 : selected pat (l1 ++ l2) = selected pat l1 ++ selected pat l2.
Proof. unfold selected. by rewrite filter_app, fmap_app, concat_app. Qed.

Lemma split_app x y :
  split_lines (x ++ y) = ((split_lines x).1 ++ (split_lines ((split_lines x).2 ++ y)).1,
                          (split_lines ((split_lines x).2 ++ y)).2).
Proof.
  induction x as [|c x IH]; [cbn; by destruct (split_lines y)|]. cbn [app split_lines].
  rewrite IH. destruct (split_lines x) as [ls tl]. cbn [fst snd].
  destruct (c =? NEWLINE) eqn:Ec; [done|].
  destruct ls as [|l ls]; [|done]. cbn [app fst snd split_lines].
  destruct (split_lines (tl ++ y)) as [[|l' ls'] tl']; cbn [fst snd]; by rewrite Ec.
Qed.

Lemma split_none x : NEWLINE ∉ x -> split_lines x = ([], x).
Proof.
  induction x as [|c x IH]; intros Hn; [done|]. rewrite not_elem_of_cons in Hn. destruct Hn as [Hc Hn].
  cbn [split_lines]. rewrite IH by done. by rewrite (proj2 (Z.eqb_neq c NEWLINE)) by congruence.
Qed.
Lemma split_tail x : NEWLINE ∉ (split_lines x).2.
Proof.
  induction x as [|c x IH]; cbn [split_lines]; [apply not_elem_of_nil|]. destruct (split_lines x) as [ls tl]. cbn [snd] in *.
  destruct (Z.eqb_spec c NEWLINE); [done|]. destruct ls; [|done]. cbn. rewrite not_elem_of_cons. split; [congruence|done].
Qed.
Lemma split_tail_in c x : c ∈ (split_lines x).2 -> c ∈ x.
Proof.
  induction x as [|a x IH]; cbn [split_lines]; [done|]. destruct (split_lines x) as [ls tl]. cbn [snd] in *.
  rewrite elem_of_cons. destruct (a =? NEWLINE); [by right; auto|]. destruct ls; [|by right; auto].
  cbn. rewrite elem_of_cons. intuition.
Qed.
Lemma split_line l y : NEWLINE ∉ l -> split_lines (l ++ NEWLINE :: y) = (l :: (split_lines y).1, (split_lines y).2).
Proof.
  induction l as [|c l IH]; intros Hn; cbn [app split_lines].
  - by destruct (split_lines y).
  - rewrite not_elem_of_cons in Hn. destruct Hn as [Hc Hn]. rewrite IH by done.
    by rewrite (proj2 (Z.eqb_neq c NEWLINE)) by congruence.
Qed.
(** The first complete line behind a piece of text without newline. *)
Lemma split_prefix b y l ls : NEWLINE ∉ b -> (split_lines (b ++ y)).1 = l :: ls -> (length b <= length l)%nat.
Proof.
  revert l ls. induction b as [|c b IH]; intros l ls Hn; cbn [app split_lines length]; [lia|].
  rewrite not_elem_of_cons in Hn. destruct Hn as [Hc Hn]. destruct (split_lines (b ++ y)) as [ls' tl'].
  rewrite (proj2 (Z.eqb_neq c NEWLINE)) by congruence. destruct ls' as [|l' ls']; [done|].
  cbn. intros [= <- <-]. specialize (IH l' ls' Hn eq_refl). cbn. lia.
Qed.

Lemma find_line_spec p :
  0 ∉ p ->
  match find_line p with
  | Some (l, rest) => p = l ++ NEWLINE :: rest /\ NEWLINE ∉ l
  | None => NEWLINE ∉ p
  end.
Proof.
  induction p as [|c p IH]; intros H0; cbn [find_line]; [apply not_elem_of_nil|].
  rewrite not_elem_of_cons in H0. destruct H0 as [Hc H0]. rewrite (proj2 (Z.eqb_neq c 0)) by congruence.
  destruct (Z.eqb_spec c NEWLINE) as [->|Hne]; [split; [done|apply not_elem_of_nil]|].
  specialize (IH H0). destruct (find_line p) as [[l rest]|].
  - destruct IH as [-> Hl]. split; [done|]. rewrite not_elem_of_cons. split; [congruence|done].
  - rewrite not_elem_of_cons. split; [congruence|done].
Qed.

Lemma grep_buf_spec fuel pat p out :
  0 ∉ p -> (length p < fuel)%nat ->
  grep_buf fuel pat p out = ((split_lines p).2, out ++ selected pat (split_lines p).1).
Proof.
  revert p out. induction fuel as [|f IH]; intros p out H0 Hf; [lia|]. cbn [grep_buf].
  pose proof (find_line_spec p H0) as Hl. destruct (find_line p) as [[l rest]|].
  - destruct Hl as [-> Hl]. rewrite split_line by done. cbn [fst snd]. rewrite selected_cons.
    rewrite IH.
    + destruct (match_ pat l); cbn [app]; [by rewrite <- !app_assoc|done].
    + rewrite not_elem_of_app, not_elem_of_cons in H0. tauto.
    + rewrite length_app in Hf. cbn in Hf. lia.
  - rewrite split_none by done. cbn. by rewrite app_nil_r.
Qed.

(** The lines grep has room for, without NULs. *)
Definition greppable (text : list Z) : Prop :=
  (0 ∉ text) /\ Forall (fun l => (length l <= 1022)%nat) (split_lines text).1.

Lemma grep_loop_spec rd fuel i pat b input out :
  (forall i, 1 <= rd i) -> NEWLINE ∉ b -> greppable (b ++ input) -> (length input < fuel)%nat ->
  grep_loop rd fuel i pat b input out = Some (out ++ selected pat (split_lines (b ++ input)).1).
Proof.
  intros Hrd. revert i b input out. induction fuel as [|f IH]; intros i b input out Hb [H0 Hlen] Hf; [lia|].
  cbn [grep_loop]. unfold read. set (k := Z.to_nat (Z.min (BUFSZ - Z.of_nat (length b) - 1) (rd i))).
  destruct (take k input) as [|c got] eqn:Eg.
  - assert (Hno : (split_lines (b ++ input)).1 = []).
    { destruct input as [|x input]; [by rewrite app_nil_r, split_none|].
      assert (Hk : k = 0%nat) by (destruct k; [done|discriminate]).
      destruct (split_lines (b ++ x :: input)).1 as [|l ls] eqn:El; [done|].
      pose proof (split_prefix _ _ _ _ Hb El). apply Forall_cons in Hlen as [Hl _].
      specialize (Hrd i). unfold BUFSZ in k. lia. }
    rewrite Hno. unfold selected. cbn. by rewrite app_nil_r.
  - assert (He : input = (c :: got) ++ drop k input) by (rewrite <- Eg; by rewrite take_drop).
    set (rest := drop k input) in *. clearbody rest. rewrite He, app_assoc in H0, Hlen. rewrite He, app_assoc. clear Eg k. subst input.
    rewrite length_app in Hf. cbn [length] in Hf. set (x := b ++ c :: got) in *.
    rewrite not_elem_of_app in H0. destruct H0 as [Hx0 Hr0].
    rewrite grep_buf_spec by (done || lia). rewrite split_app in Hlen |- *. cbn [fst] in Hlen |- *.
    apply Forall_app in Hlen as [_ Hlen]. rewrite IH; [|apply split_tail| |lia].
    + by rewrite selected_app, app_assoc.
    + split; [|done]. rewrite not_elem_of_app. split; [|done].
      intros Hin. by apply Hx0, split_tail_in.
Qed.

(** grep prints the matching lines and nothing else: for every file without
    NULs whose lines have at most 1022 bytes, however read() splits it, grep
    ends, and it has written the complete lines that the pattern matches,
    in the order of the file.  What follows the last newline is never
    looked at. *)
Theorem grep_selects_lines rd pat input :
  (forall i, 1 <= rd i) -> greppable input ->
  grep rd (S (length input)) pat input = Some (selected pat (split_lines input).1).
Proof.
  intros Hrd Hg. unfold grep. rewrite grep_loop_spec; [done|done|apply not_elem_of_nil|done|lia].
Qed.

(** "^a.*$" on "abc\nbc\nab", three bytes at a time. *)
Lemma grep_selects_lines_witness :
  grep (fun _ => 3) 11 [94; 97; 46; 42; 36] [97; 98; 99; 10; 98; 99; 10; 97; 98; 10] = Some [97; 98; 99; 10; 97; 98; 10].
Proof.
  assert (Hg : greppable [97; 98; 99; 10; 98; 99; 10; 97; 98; 10]).
  { split; [apply (bool_decide_unpack _); reflexivity|]. cbn. repeat constructor; cbn; lia. }
  exact (grep_selects_lines (fun _ => 3) [94; 97; 46; 42; 36] _ (fun _ => ltac:(lia)) Hg).
Defined.

(** The output for files that are opened up to the first that is not. *)
Fixpoint files_out (file : list Z -> option (list Z)) (pat : list Z) (names : list (list Z)) : list Z * Z :=
  match names with
  | [] => ([], 0)
  | name :: names =>
      match file name with
      | None => (cannot_open name, 1)
      | Some input => let r := files_out file pat names in (selected pat (split_lines input).1 ++ r.1, r.2)
      end
  end.

Lemma grep_files_spec rd file i pat names out :
  (forall i j, 1 <= rd i j) -> (forall name input, name ∈ names -> file name = Some input -> greppable input) ->
  grep_files rd file i pat names out = Some (out ++ (files_out file pat names).1, (files_out file pat names).2).
Proof.
  intros Hrd. revert i out. induction names as [|name names IH]; intros i out Hg; cbn [grep_files files_out].
  - by rewrite app_nil_r.
  - destruct (file name) as [input|] eqn:Ef; [|done].
    assert (Hi : greppable input) by (apply (Hg name); [left|done]).
    rewrite (grep_selects_lines (rd i) pat input (Hrd i) Hi).
    rewrite IH by (intros n x Hn; apply Hg; by right). cbn. by rewrite app_assoc.
Qed.


