(* ===== verification/Virtio.v ===== *)
(** The disk driver and its device: kernel/virtio_disk.c, kernel/virtio.h.

    [vdisk] holds the queue the driver shares with the device (descriptors, avail
    ring, used ring), the driver's own records (struct disk), the fields of the
    buffers the driver uses, and the device: its contents as bytes, how far it
    has read the avail ring, and the requests it works on.  An address in a
    descriptor is symbolic: which object it points to.

    sleep() ends a run: [virtio_disk_rw] says on which channel it sleeps,
    [virtio_disk_rw_resume] is the code behind the sleep on the buffer; after the sleep on
    the free descriptors the call starts over.

    [dev_take] and [dev_done] are the device, as the virtio specification
    (2.6, 5.2) describes it: it takes chains from the avail ring, and
    completes them in any order.  [mm_read] gives the values its registers
    show. *)

From S2P Require Import Prelude Ring Riscv CString Kalloc Vm VmCopy Fields BlockCache.

(** * kernel/virtio.h *)

Definition VIRTIO_MMIO_MAGIC_VALUE : Z := 0x000.
Definition VIRTIO_MMIO_VERSION : Z := 0x004.
Definition VIRTIO_MMIO_DEVICE_ID : Z := 0x008.
Definition VIRTIO_MMIO_VENDOR_ID : Z := 0x00c.
Definition VIRTIO_MMIO_DEVICE_FEATURES : Z := 0x010.
Definition VIRTIO_MMIO_DRIVER_FEATURES : Z := 0x020.
Definition VIRTIO_MMIO_QUEUE_SEL : Z := 0x030.
Definition VIRTIO_MMIO_QUEUE_NUM_MAX : Z := 0x034.
Definition VIRTIO_MMIO_QUEUE_NUM : Z := 0x038.
Definition VIRTIO_MMIO_QUEUE_READY : Z := 0x044.
Definition VIRTIO_MMIO_QUEUE_NOTIFY : Z := 0x050.
Definition VIRTIO_MMIO_INTERRUPT_STATUS : Z := 0x060.
Definition VIRTIO_MMIO_INTERRUPT_ACK : Z := 0x064.
Definition VIRTIO_MMIO_STATUS : Z := 0x070.
Definition VIRTIO_MMIO_QUEUE_DESC_LOW : Z := 0x080.
Definition VIRTIO_MMIO_QUEUE_DESC_HIGH : Z := 0x084.
Definition VIRTIO_MMIO_DRIVER_DESC_LOW : Z := 0x090.
Definition VIRTIO_MMIO_DRIVER_DESC_HIGH : Z := 0x094.
Definition VIRTIO_MMIO_DEVICE_DESC_LOW : Z := 0x0a0.
Definition VIRTIO_MMIO_DEVICE_DESC_HIGH : Z := 0x0a4.

Definition VIRTIO_CONFIG_S_ACKNOWLEDGE : Z := 1.
Definition VIRTIO_CONFIG_S_DRIVER : Z := 2.
Definition VIRTIO_CONFIG_S_DRIVER_OK : Z := 4.
Definition VIRTIO_CONFIG_S_FEATURES_OK : Z := 8.

Definition VIRTIO_BLK_F_RO : Z := 5.
Definition VIRTIO_BLK_F_SCSI : Z := 7.
Definition VIRTIO_BLK_F_CONFIG_WCE : Z := 11.
Definition VIRTIO_BLK_F_MQ : Z := 12.
Definition VIRTIO_F_ANY_LAYOUT : Z := 27.
Definition VIRTIO_RING_F_INDIRECT_DESC : Z := 28.
Definition VIRTIO_RING_F_EVENT_IDX : Z := 29.

Definition NUM : Z := 8.

(** What a descriptor points to: nothing, disk.ops[i], the data of buffer b, or
    disk.info[i].status. *)
Inductive daddr : Type :=
| ANone
| AOps (i : Z)
| AData (b : Z)
| AStatus (i : Z).
Record virtq_desc : Type := mkDesc {
  d_addr : daddr;
  d_len : Z;
  d_flags : Z;
  d_next : Z;
}.
Definition VRING_DESC_F_NEXT : Z := 1.
Definition VRING_DESC_F_WRITE : Z := 2.

Definition VIRTIO_BLK_T_IN : Z := 0.
Definition VIRTIO_BLK_T_OUT : Z := 1.
Record virtio_blk_req : Type := mkReq {
  rq_type : Z;
  rq_reserved : Z;
  rq_sector : Z;
}.

(** * State *)

Inductive vchan : Type :=
| CFree                 (** &disk.free[0] *)
| CBuf (b : Z).         (** b *)

Record vdisk : Type := mkVd {
  vd_desc : Z -> virtq_desc;
  vd_avail_idx : Z;               (** avail->idx *)
  vd_avail : list Z;              (** avail->ring *)
  vd_used_dev : Z;                (** used->idx *)
  vd_used : list Z;               (** the ids of used->ring *)
  vd_free : Z -> Z;
  vd_used_idx : Z;
  vd_info_b : Z -> Z;             (** info[i].b, NULL when none *)
  vd_info_status : Z -> Z;
  vd_ops : Z -> virtio_blk_req;
  vd_lock : bool;                 (** vdisk_lock *)
  vb_disk : Z -> Z;               (** b->disk *)
  vb_blockno : Z -> Z;            (** b->blockno *)
  vb_data : Z -> list Z;          (** b->data *)
  dv_store : mem;
  dv_last : Z;
  dv_taken : list Z;
  vd_woken : list vchan;
  vd_regs : list (Z * Z);         (** register writes *)
  vd_vm : kst;
}.

Definition NULLB : Z := -1.

Definition set_v_desc (v : Z -> virtq_desc) (s : vdisk) : vdisk :=
  mkVd v (vd_avail_idx s) (vd_avail s) (vd_used_dev s) (vd_used s) (vd_free s) (vd_used_idx s) (vd_info_b s)
    (vd_info_status s) (vd_ops s) (vd_lock s) (vb_disk s) (vb_blockno s) (vb_data s) (dv_store s) (dv_last s)
    (dv_taken s) (vd_woken s) (vd_regs s) (vd_vm s).
Definition set_v_avail (idx : Z) (ring : list Z) (s : vdisk) : vdisk :=
  mkVd (vd_desc s) idx ring (vd_used_dev s) (vd_used s) (vd_free s) (vd_used_idx s) (vd_info_b s)
    (vd_info_status s) (vd_ops s) (vd_lock s) (vb_disk s) (vb_blockno s) (vb_data s) (dv_store s) (dv_last s)
    (dv_taken s) (vd_woken s) (vd_regs s) (vd_vm s).
Definition set_v_used (idx : Z) (ring : list Z) (s : vdisk) : vdisk :=
  mkVd (vd_desc s) (vd_avail_idx s) (vd_avail s) idx ring (vd_free s) (vd_used_idx s) (vd_info_b s)
    (vd_info_status s) (vd_ops s) (vd_lock s) (vb_disk s) (vb_blockno s) (vb_data s) (dv_store s) (dv_last s)
    (dv_taken s) (vd_woken s) (vd_regs s) (vd_vm s).
Definition set_v_free (v : Z -> Z) (s : vdisk) : vdisk :=
  mkVd (vd_desc s) (vd_avail_idx s) (vd_avail s) (vd_used_dev s) (vd_used s) v (vd_used_idx s) (vd_info_b s)
    (vd_info_status s) (vd_ops s) (vd_lock s) (vb_disk s) (vb_blockno s) (vb_data s) (dv_store s) (dv_last s)
    (dv_taken s) (vd_woken s) (vd_regs s) (vd_vm s).
Definition set_v_used_idx (v : Z) (s : vdisk) : vdisk :=
  mkVd (vd_desc s) (vd_avail_idx s) (vd_avail s) (vd_used_dev s) (vd_used s) (vd_free s) v (vd_info_b s)
    (vd_info_status s) (vd_ops s) (vd_lock s) (vb_disk s) (vb_blockno s) (vb_data s) (dv_store s) (dv_last s)
    (dv_taken s) (vd_woken s) (vd_regs s) (vd_vm s).
Definition set_v_info (b st : Z -> Z) (s : vdisk) : vdisk :=
  mkVd (vd_desc s) (vd_avail_idx s) (vd_avail s) (vd_used_dev s) (vd_used s) (vd_free s) (vd_used_idx s) b
    st (vd_ops s) (vd_lock s) (vb_disk s) (vb_blockno s) (vb_data s) (dv_store s) (dv_last s)
    (dv_taken s) (vd_woken s) (vd_regs s) (vd_vm s).
Definition set_v_ops (v : Z -> virtio_blk_req) (s : vdisk) : vdisk :=
  mkVd (vd_desc s) (vd_avail_idx s) (vd_avail s) (vd_used_dev s) (vd_used s) (vd_free s) (vd_used_idx s) (vd_info_b s)
    (vd_info_status s) v (vd_lock s) (vb_disk s) (vb_blockno s) (vb_data s) (dv_store s) (dv_last s)
    (dv_taken s) (vd_woken s) (vd_regs s) (vd_vm s).
Definition set_v_lock (v : bool) (s : vdisk) : vdisk :=
  mkVd (vd_desc s) (vd_avail_idx s) (vd_avail s) (vd_used_dev s) (vd_used s) (vd_free s) (vd_used_idx s) (vd_info_b s)
    (vd_info_status s) (vd_ops s) v (vb_disk s) (vb_blockno s) (vb_data s) (dv_store s) (dv_last s)
    (dv_taken s) (vd_woken s) (vd_regs s) (vd_vm s).
Definition set_v_disk (v : Z -> Z) (s : vdisk) : vdisk :=
  mkVd (vd_desc s) (vd_avail_idx s) (vd_avail s) (vd_used_dev s) (vd_used s) (vd_free s) (vd_used_idx s) (vd_info_b s)
    (vd_info_status s) (vd_ops s) (vd_lock s) v (vb_blockno s) (vb_data s) (dv_store s) (dv_last s)
    (dv_taken s) (vd_woken s) (vd_regs s) (vd_vm s).
Definition set_v_buf (blockno : Z -> Z) (data : Z -> list Z) (s : vdisk) : vdisk :=
  mkVd (vd_desc s) (vd_avail_idx s) (vd_avail s) (vd_used_dev s) (vd_used s) (vd_free s) (vd_used_idx s) (vd_info_b s)
    (vd_info_status s) (vd_ops s) (vd_lock s) (vb_disk s) blockno data (dv_store s) (dv_last s)
    (dv_taken s) (vd_woken s) (vd_regs s) (vd_vm s).
Definition set_v_dev (store : mem) (last : Z) (taken : list Z) (s : vdisk) : vdisk :=
  mkVd (vd_desc s) (vd_avail_idx s) (vd_avail s) (vd_used_dev s) (vd_used s) (vd_free s) (vd_used_idx s) (vd_info_b s)
    (vd_info_status s) (vd_ops s) (vd_lock s) (vb_disk s) (vb_blockno s) (vb_data s) store last
    taken (vd_woken s) (vd_regs s) (vd_vm s).
Definition set_v_out (woken : list vchan) (regs : list (Z * Z)) (s : vdisk) : vdisk :=
  mkVd (vd_desc s) (vd_avail_idx s) (vd_avail s) (vd_used_dev s) (vd_used s) (vd_free s) (vd_used_idx s) (vd_info_b s)
    (vd_info_status s) (vd_ops s) (vd_lock s) (vb_disk s) (vb_blockno s) (vb_data s) (dv_store s) (dv_last s)
    (dv_taken s) woken regs (vd_vm s).
Definition set_v_vm (v : kst) (s : vdisk) : vdisk :=
  mkVd (vd_desc s) (vd_avail_idx s) (vd_avail s) (vd_used_dev s) (vd_used s) (vd_free s) (vd_used_idx s) (vd_info_b s)
    (vd_info_status s) (vd_ops s) (vd_lock s) (vb_disk s) (vb_blockno s) (vb_data s) (dv_store s) (dv_last s)
    (dv_taken s) (vd_woken s) (vd_regs s) v.

Definition vdisk_lock : lens vdisk bool := mkLens vd_lock set_v_lock.
Definition v_kvm : lens vdisk kst := mkLens vd_vm set_v_vm.

Definition vwakeup (ch : vchan) : M vdisk unit :=
  modify (fun s => set_v_out (ch :: vd_woken s) (vd_regs s) s).
Definition put_desc (i : Z) (d : virtq_desc) : M vdisk unit :=
  modify (fun s => set_v_desc (fset (vd_desc s) i d) s).
Definition put_free (i v : Z) : M vdisk unit :=
  modify (fun s => set_v_free (fset (vd_free s) i v) s).

(** * kernel/virtio_disk.c *)

Section Driver.
(** What register [r] shows after the writes [log]. *)
Context (mm_read : list (Z * Z) -> Z -> Z).

(** The register at VIRTIO0 + r, read and written. *)
Definition R_read (r : Z) : M vdisk Z := gets (fun s => mm_read (vd_regs s) r).
Definition R_write (r v : Z) : M vdisk unit :=
  modify (fun s => set_v_out (vd_woken s) (vd_regs s ++ [(r, u32 v)]) s).

(** features &= ~(1 << bit) *)
Definition clear_bit (features bit : Z) : Z := Z.land features (Z.lnot (Z.shiftl 1 bit)).
Definition zero_desc : virtq_desc := mkDesc ANone 0 0 0.

Definition virtio_disk_init : M vdisk unit :=
  modify (lset vdisk_lock false) ;;;
  let! magic := R_read VIRTIO_MMIO_MAGIC_VALUE in
  let! version := R_read VIRTIO_MMIO_VERSION in
  let! device := R_read VIRTIO_MMIO_DEVICE_ID in
  let! vendor := R_read VIRTIO_MMIO_VENDOR_ID in
  if negb (magic =? 0x74726976) || negb (version =? 2) || negb (device =? 2) || negb (vendor =? 0x554d4551) then
    panic "could not find virtio disk"
  else
    (* reset device *)
    R_write VIRTIO_MMIO_STATUS 0 ;;;
    (* set ACKNOWLEDGE status bit *)
    let status := Z.lor 0 VIRTIO_CONFIG_S_ACKNOWLEDGE in
    R_write VIRTIO_MMIO_STATUS status ;;;
    (* set DRIVER status bit *)
    let status := Z.lor status VIRTIO_CONFIG_S_DRIVER in
    R_write VIRTIO_MMIO_STATUS status ;;;
    (* negotiate features *)
    let! features := R_read VIRTIO_MMIO_DEVICE_FEATURES in
    let features := clear_bit features VIRTIO_BLK_F_RO in
    let features := clear_bit features VIRTIO_BLK_F_SCSI in
    let features := clear_bit features VIRTIO_BLK_F_CONFIG_WCE in
    let features := clear_bit features VIRTIO_BLK_F_MQ in
    let features := clear_bit features VIRTIO_F_ANY_LAYOUT in
    let features := clear_bit features VIRTIO_RING_F_EVENT_IDX in
    let features := clear_bit features VIRTIO_RING_F_INDIRECT_DESC in
    R_write VIRTIO_MMIO_DRIVER_FEATURES features ;;;
    (* tell device that feature negotiation is complete *)
    let status := Z.lor status VIRTIO_CONFIG_S_FEATURES_OK in
    R_write VIRTIO_MMIO_STATUS status ;;;
    (* re-read status to ensure FEATURES_OK is set *)
    let! status := R_read VIRTIO_MMIO_STATUS in
    if Z.land status VIRTIO_CONFIG_S_FEATURES_OK =? 0 then panic "virtio disk FEATURES_OK unset"
    else
      (* initialize queue 0 *)
      R_write VIRTIO_MMIO_QUEUE_SEL 0 ;;;
      let! ready := R_read VIRTIO_MMIO_QUEUE_READY in
      if negb (ready =? 0) then panic "virtio disk should not be ready"
      else
        let! max := R_read VIRTIO_MMIO_QUEUE_NUM_MAX in
        if max =? 0 then panic "virtio disk has no queue 0"
        else if max <? NUM then panic "virtio disk max queue too short"
        else
          (* allocate and zero queue memory *)
          let! desc := zoom v_kvm kalloc in
          let! avail := zoom v_kvm kalloc in
          let! used := zoom v_kvm kalloc in
          if (desc =? 0) || (avail =? 0) || (used =? 0) then panic "virtio disk kalloc"
          else
            modify (set_v_desc (fun _ => zero_desc)) ;;;
            modify (set_v_avail 0 (replicate (Z.to_nat NUM) 0)) ;;;
            modify (set_v_used 0 (replicate (Z.to_nat NUM) 0)) ;;;
            (* set queue size *)
            R_write VIRTIO_MMIO_QUEUE_NUM NUM ;;;
            (* write physical addresses *)
            R_write VIRTIO_MMIO_QUEUE_DESC_LOW desc ;;;
            R_write VIRTIO_MMIO_QUEUE_DESC_HIGH (Z.shiftr desc 32) ;;;
            R_write VIRTIO_MMIO_DRIVER_DESC_LOW avail ;;;
            R_write VIRTIO_MMIO_DRIVER_DESC_HIGH (Z.shiftr avail 32) ;;;
            R_write VIRTIO_MMIO_DEVICE_DESC_LOW used ;;;
            R_write VIRTIO_MMIO_DEVICE_DESC_HIGH (Z.shiftr used 32) ;;;
            (* queue is ready *)
            R_write VIRTIO_MMIO_QUEUE_READY 0x1 ;;;
            (* all NUM descriptors start out unused *)
            for_each (seqZ 0 NUM) (fun i => put_free i 1) ;;;
            (* tell device we're completely ready *)
            R_write VIRTIO_MMIO_STATUS (Z.lor status VIRTIO_CONFIG_S_DRIVER_OK).

(** Find a free descriptor, mark it non-free, return its index. *)
Definition alloc_desc : M vdisk Z :=
  let! r := for_first (seqZ 0 NUM) (fun i =>
    let! f := gets (fun s => vd_free s i) in
    if negb (f =? 0) then put_free i 0 ;;; ret (Some i) else ret None) in
  ret (match r with Some i => i | None => -1 end).

(** Mark a descriptor as free. *)
Definition free_desc (i : Z) : M vdisk unit :=
  if i >=? NUM then panic "free_desc 1"
  else
    let! f := gets (fun s => vd_free s i) in
    if negb (f =? 0) then panic "free_desc 2"
    else
      put_desc i zero_desc ;;;
      put_free i 1 ;;;
      vwakeup CFree.

(** Free a chain of descriptors. *)
Definition free_chain (i : Z) : M vdisk unit :=
  loop (S (Z.to_nat NUM))
    (fun i =>
       let! d := gets (fun s => vd_desc s i) in
       free_desc i ;;;
       if negb (Z.land (d_flags d) VRING_DESC_F_NEXT =? 0) then ret (inl (d_next d)) else ret (inr tt))
    i.

(** Allocate three descriptors. *)
Definition alloc3_desc : M vdisk (option (Z * Z * Z)) :=
  let! i0 := alloc_desc in
  if i0 <? 0 then ret None
  else
    let! i1 := alloc_desc in
    if i1 <? 0 then free_desc i0 ;;; ret None
    else
      let! i2 := alloc_desc in
      if i2 <? 0 then free_desc i0 ;;; free_desc i1 ;;; ret None
      else ret (Some (i0, i1, i2)).

(** How a run of virtio_disk_rw() ends. *)
Inductive rwres : Type :=
| SleepFree                   (** in sleep(&disk.free[0], &disk.vdisk_lock) *)
| SleepBuf (idx0 : Z)         (** in sleep(b, &disk.vdisk_lock) *)
| RwDone.

(** Wait for virtio_disk_intr() to say request has finished. *)
Definition rw_wait (b idx0 : Z) : M vdisk rwres :=
  let! d := gets (fun s => vb_disk s b) in
  if d =? 1 then
    release vdisk_lock ;;;
    ret (SleepBuf idx0)
  else
    modify (fun s => set_v_info (fset (vd_info_b s) idx0 NULLB) (vd_info_status s) s) ;;;
    free_chain idx0 ;;;
    release vdisk_lock ;;;
    ret RwDone.

(** Format the three descriptors. *)
Definition rw_format (b : Z) (write : bool) (sector i0 i1 i2 : Z) : M vdisk unit :=
  let type := if write then VIRTIO_BLK_T_OUT else VIRTIO_BLK_T_IN in
  modify (fun s => set_v_ops (fset (vd_ops s) i0 (mkReq type 0 sector)) s) ;;;
  put_desc i0 (mkDesc (AOps i0) 16 VRING_DESC_F_NEXT i1) ;;;
  put_desc i1 (mkDesc (AData b) BSIZE
                 (Z.lor (if write then 0 else VRING_DESC_F_WRITE) VRING_DESC_F_NEXT) i2) ;;;
  (* device writes 0 on success *)
  modify (fun s => set_v_info (vd_info_b s) (fset (vd_info_status s) i0 0xff) s) ;;;
  put_desc i2 (mkDesc (AStatus i0) 1 VRING_DESC_F_WRITE 0).

Definition virtio_disk_rw (b : Z) (write : bool) : M vdisk rwres :=
  let! blockno := gets (fun s => vb_blockno s b) in
  let sector := u32 (blockno * (BSIZE / 512)) in
  acquire vdisk_lock ;;;
  let! idx := alloc3_desc in
  match idx with
  | None =>
      release vdisk_lock ;;;
      ret SleepFree
  | Some (i0, i1, i2) =>
      rw_format b write sector i0 i1 i2 ;;;
      (* record struct buf for virtio_disk_intr() *)
      modify (fun s => set_v_disk (fset (vb_disk s) b 1) s) ;;;
      modify (fun s => set_v_info (fset (vd_info_b s) i0 b) (vd_info_status s) s) ;;;
      (* tell the device the first index in our chain of descriptors *)
      modify (fun s => set_v_avail (vd_avail_idx s) (zset (vd_avail_idx s mod NUM) i0 (vd_avail s)) s) ;;;
      (* tell the device another avail ring entry is available *)
      modify (fun s => set_v_avail (u16 (vd_avail_idx s + 1)) (vd_avail s) s) ;;;
      R_write VIRTIO_MMIO_QUEUE_NOTIFY 0 ;;;
      rw_wait b i0
  end.

(** Behind sleep(b, &disk.vdisk_lock). *)
Definition virtio_disk_rw_resume (b idx0 : Z) : M vdisk rwres :=
  acquire vdisk_lock ;;;
  rw_wait b idx0.

Definition virtio_disk_intr : M vdisk unit :=
  acquire vdisk_lock ;;;
  let! st := R_read VIRTIO_MMIO_INTERRUPT_STATUS in
  R_write VIRTIO_MMIO_INTERRUPT_ACK (Z.land st 0x3) ;;;
  let! n := gets (fun s => rfill (2 ^ 16) (vd_used_idx s) (vd_used_dev s)) in
  loop (S (Z.to_nat n))
    (fun _ : unit =>
       let! s := gets (fun s => s) in
       if negb (vd_used_idx s =? vd_used_dev s) then
         let id := zget (vd_used s) (vd_used_idx s mod NUM) in
         if negb (vd_info_status s id =? 0) then panic "virtio_disk_intr status"
         else
           let b := vd_info_b s id in
           modify (fun s => set_v_disk (fset (vb_disk s) b 0) s) ;;;      (* disk is done with buf *)
           vwakeup (CBuf b) ;;;
           modify (set_v_used_idx (u16 (vd_used_idx s + 1))) ;;;
           ret (inl tt)
       else ret (inr tt))
    tt ;;;
  release vdisk_lock.
End Driver.

(** * The device *)

(** It takes the next chain from the avail ring. *)
Definition dev_take (s : vdisk) : option vdisk :=
  if dv_last s =? vd_avail_idx s then None
  else Some (set_v_dev (dv_store s) (u16 (dv_last s + 1)) (dv_taken s ++ [zget (vd_avail s) (dv_last s mod NUM)]) s).

(** The transfer a chain asks for: header, data, status. *)
Definition has_flag (d : virtq_desc) (f : Z) : bool := negb (Z.land (d_flags d) f =? 0).
Definition dev_exec (h : Z) (s : vdisk) : option vdisk :=
  let d0 := vd_desc s h in
  let d1 := vd_desc s (d_next d0) in
  let d2 := vd_desc s (d_next d1) in
  match d_addr d0, d_addr d1, d_addr d2 with
  | AOps o, AData b, AStatus j =>
      let rq := vd_ops s o in
      let off := rq_sector rq * 512 in
      let ok s := set_v_info (vd_info_b s) (fset (vd_info_status s) j 0) s in
      if has_flag d0 VRING_DESC_F_NEXT && has_flag d1 VRING_DESC_F_NEXT && has_flag d2 VRING_DESC_F_WRITE then
        if (rq_type rq =? VIRTIO_BLK_T_IN) && has_flag d1 VRING_DESC_F_WRITE then
          Some (ok (set_v_buf (vb_blockno s)
                      (fset (vb_data s) b (read_bytes (Z.to_nat (d_len d1)) off (dv_store s))) s))
        else if (rq_type rq =? VIRTIO_BLK_T_OUT) && negb (has_flag d1 VRING_DESC_F_WRITE) then
          Some (ok (set_v_dev (write_bytes off (take (Z.to_nat (d_len d1)) (vb_data s b)) (dv_store s))
                      (dv_last s) (dv_taken s) s))
        else None
      else None
  | _, _, _ => None
  end.

(** It completes the [i]-th chain it works on. *)
Definition dev_done (i : nat) (s : vdisk) : option vdisk :=
  match dv_taken s !! i with
  | None => None
  | Some h =>
      match dev_exec h s with
      | None => None
      | Some s =>
          Some (set_v_dev (dv_store s) (dv_last s) (delete i (dv_taken s))
                 (set_v_used (u16 (vd_used_dev s + 1)) (zset (vd_used_dev s mod NUM) h (vd_used s)) s))
      end
  end.
