(* ===== verification/VirtioProps.v ===== *)
(** The disk driver refines a disk.

    A request is a chain of three descriptors.  Between submission and the return
    of virtio_disk_rw() it is in the avail ring, in the hands of the device, in
    the used ring, or seen by the interrupt handler: [vinv] keeps the four lists. *)

From S2P Require Import Prelude Ring Riscv CString Kalloc Vm VmCopy Fields BlockCache Virtio.

Record vreq : Type := mkVreq { r_h : Z; r_1 : Z; r_2 : Z; r_b : Z; r_w : bool }.
Definition descs (r : vreq) : list Z := [r_h r; r_1 r; r_2 r].

Definition vblock (n : Z) : Prop := 0 <= n < 2 ^ 31.

(** What the driver has written for a request, until it frees the chain. *)
Record chain_ok (s : vdisk) (r : vreq) : Prop := {
  ck_0 : vd_desc s (r_h r) = mkDesc (AOps (r_h r)) 16 VRING_DESC_F_NEXT (r_1 r);
  ck_1 : vd_desc s (r_1 r) =
         mkDesc (AData (r_b r)) BSIZE (Z.lor (if r_w r then 0 else VRING_DESC_F_WRITE) VRING_DESC_F_NEXT) (r_2 r);
  ck_2 : vd_desc s (r_2 r) = mkDesc (AStatus (r_h r)) 1 VRING_DESC_F_WRITE 0;
  ck_op : vd_ops s (r_h r) = mkReq (if r_w r then VIRTIO_BLK_T_OUT else VIRTIO_BLK_T_IN) 0 (2 * vb_blockno s (r_b r));
  ck_b : vd_info_b s (r_h r) = r_b r;
  ck_no : vblock (vb_blockno s (r_b r));
}.

(** The chains partition the descriptors that are not free. *)
Record chains (s : vdisk) (R : list vreq) : Prop := {
  ch_nodup : NoDup (R ≫= descs);
  ch_range : forall i, i ∈ R ≫= descs -> 0 <= i < NUM;
  ch_free : forall i, 0 <= i < NUM -> vd_free s i = if decide (i ∈ R ≫= descs) then 0 else 1;
  ch_bufs : NoDup (r_b <$> R);
  ch_ok : forall r, r ∈ R -> chain_ok s r;
}.

Abbreviation vcont := (rcont NUM (2 ^ 16)).
Abbreviation vfill := (rfill (2 ^ 16)).

Record vinv (lk : bool) (s : vdisk) (RA RT RU RS : list vreq) : Prop := {
  vi_lock : vd_lock s = lk;
  vi_avail : vcont (vd_avail s) (dv_last s) (vd_avail_idx s) = r_h <$> RA;
  vi_alen : length (vd_avail s) = Z.to_nat NUM;
  vi_taken : dv_taken s = r_h <$> RT;
  vi_used : vcont (vd_used s) (vd_used_idx s) (vd_used_dev s) = r_h <$> RU;
  vi_ulen : length (vd_used s) = Z.to_nat NUM;
  vi_idx : is_u16 (dv_last s) /\ is_u16 (vd_avail_idx s) /\ is_u16 (vd_used_idx s) /\ is_u16 (vd_used_dev s);
  vi_chains : chains s (RA ++ RT ++ RU ++ RS);
  vi_disk : forall b, vb_disk s b = if decide (b ∈ r_b <$> RA ++ RT ++ RU) then 1 else 0;
  vi_status : forall r, r ∈ RU -> vd_info_status s (r_h r) = 0;
  vi_data : forall b, length (vb_data s b) = Z.to_nat BSIZE;
}.

Lemma bind_descs_perm (R R' : list vreq) : R ≡ₚ R' -> R ≫= descs ≡ₚ R' ≫= descs.
Proof. intros HP. by rewrite HP. Qed.

Lemma chains_perm s R R' : R ≡ₚ R' -> chains s R -> chains s R'.
Proof.
  intros HP [H1 H2 H3 H4 H5]. pose proof (bind_descs_perm _ _ HP) as HD. split.
  - by rewrite <- HD.
  - intros i. rewrite <- HD. apply H2.
  - intros i Hi. rewrite H3 by done. by repeat case_decide; try (rewrite HD in *; done).
  - by rewrite <- HP.
  - intros r. rewrite <- HP. apply H5.
Qed.

(** At most two requests fit. *)
Lemma chains_few s R : chains s R -> (length R <= 2)%nat.
Proof.
  intros [H1 H2 _ _ _].
  assert (Hs : R ≫= descs ⊆+ seqZ 0 NUM).
  { apply NoDup_submseteq; [done|]. intros i Hi. apply elem_of_seqZ. specialize (H2 i Hi). lia. }
  apply submseteq_length in Hs. rewrite length_seqZ in Hs.
  assert (Hl : length (R ≫= descs) = (3 * length R)%nat).
  { clear. induction R as [|r R IH]; [done|]. cbn. rewrite IH. lia. }
  change (Z.to_nat NUM) with 8%nat in Hs. lia.
Qed.

Lemma elem_descs r R i : r ∈ R -> i ∈ descs r -> i ∈ R ≫= descs.
Proof. intros Hr Hi. apply list_elem_of_bind. eauto. Qed.

(** A state that agrees on the chains. *)
Lemma chain_ok_frame s s' r :
  (forall i, i ∈ descs r -> vd_desc s' i = vd_desc s i) -> vd_ops s' (r_h r) = vd_ops s (r_h r) ->
  vd_info_b s' (r_h r) = vd_info_b s (r_h r) -> vb_blockno s' (r_b r) = vb_blockno s (r_b r) ->
  chain_ok s r -> chain_ok s' r.
Proof.
  intros Hd Ho Hb Hn [H0 H1 H2 H3 H4 H5]. unfold descs in Hd.
  split; rewrite ?Ho, ?Hb, ?Hn, ?Hd by (rewrite !elem_of_cons; tauto); done.
Qed.

Lemma chains_frame s s' R :
  (forall i, i ∈ R ≫= descs -> vd_desc s' i = vd_desc s i) ->
  (forall i, 0 <= i < NUM -> vd_free s' i = vd_free s i) ->
  (forall r, r ∈ R -> vd_ops s' (r_h r) = vd_ops s (r_h r) /\ vd_info_b s' (r_h r) = vd_info_b s (r_h r) /\
     vb_blockno s' (r_b r) = vb_blockno s (r_b r)) ->
  chains s R -> chains s' R.
Proof.
  intros Hd Hf Hr [H1 H2 H3 H4 H5]. split; try done.
  - intros i Hi. by rewrite Hf, H3.
  - intros r Hin. destruct (Hr r Hin) as (Ho & Hb & Hn). apply (chain_ok_frame s); try done; [|by apply H5].
    intros i Hi. apply Hd. by eapply elem_descs.
Qed.

(** * Descriptors *)

Lemma wp_alloc_desc (Q : Z -> vdisk -> Prop) s :
  (forall i, 0 <= i < NUM -> vd_free s i <> 0 -> Q i (set_v_free (fset (vd_free s) i 0) s)) ->
  ((forall i, 0 <= i < NUM -> vd_free s i = 0) -> Q (-1) s) ->
  wp alloc_desc Q s.
Proof.
  intros HS HN. unfold alloc_desc. wp_step.
  apply (wp_for_first (fun dn _ s' => s' = s /\ forall i, 0 <= i < Z.of_nat (length dn) -> vd_free s i = 0)).
  - split; [done|]. cbn. lia.
  - intros dn i todo s' He [-> Hz]. destruct (seqZ_split _ _ _ _ He) as [Hi Hr]. wp_steps.
    destruct (Z.eqb_spec (vd_free s i) 0) as [E|E]; cbn [negb].
    + wp_step. split; [done|]. intros j Hj. rewrite length_app in Hj. cbn in Hj.
      destruct (decide (j = i)) as [->|]; [done|]. apply Hz. lia.
    + unfold put_free. wp_steps. by apply HS.
  - intros s' [-> Hz]. wp_steps. apply HN. intros i Hi. apply Hz. by rewrite length_seqZ, Z2Nat.id.
Qed.

Lemma wp_free_desc i (Q : unit -> vdisk -> Prop) s :
  i < NUM -> vd_free s i = 0 ->
  Q tt (set_v_out (CFree :: vd_woken s) (vd_regs s)
         (set_v_free (fset (vd_free s) i 1) (set_v_desc (fset (vd_desc s) i zero_desc) s))) ->
  wp (free_desc i) Q s.
Proof.
  intros Hi Hf HQ. unfold free_desc. rewrite Z.geb_leb. destruct (Z.leb_spec NUM i); [lia|].
  wp_steps. rewrite Hf. cbn [Z.eqb negb]. unfold put_desc, put_free, vwakeup. by wp_steps.
Qed.

(** What a failed allocation may touch: free descriptors, and sleepers. *)
Definition touched (s s' : vdisk) : Prop :=
  exists d w f, s' = set_v_out w (vd_regs s) (set_v_free f (set_v_desc d s)) /\
    (forall i, 0 <= i < NUM -> vd_free s i = 0 -> d i = vd_desc s i) /\
    (forall i, 0 <= i < NUM -> f i = vd_free s i).

Definition flags_ok (s : vdisk) : Prop := forall i, 0 <= i < NUM -> vd_free s i = 0 \/ vd_free s i = 1.

Lemma touched_refl s : touched s s.
Proof. exists (vd_desc s), (vd_woken s), (vd_free s). split; [by destruct s|done]. Qed.

Ltac fcase := unfold fset; repeat match goal with
  | |- context [?x =? ?y] => destruct (Z.eqb_spec x y); subst
  | H : context [?x =? ?y] |- _ => destruct (Z.eqb_spec x y); subst
  end.

Lemma wp_alloc3 (Q : option (Z * Z * Z) -> vdisk -> Prop) s :
  flags_ok s ->
  (forall i0 i1 i2, NoDup [i0; i1; i2] -> (forall i, i ∈ [i0; i1; i2] -> 0 <= i < NUM /\ vd_free s i = 1) ->
     Q (Some (i0, i1, i2)) (set_v_free (fset (fset (fset (vd_free s) i0 0) i1 0) i2 0) s)) ->
  (forall s', touched s s' -> Q None s') ->
  wp alloc3_desc Q s.
Proof.
  intros Hfl HS HN.
  assert (H1 : forall i, 0 <= i < NUM -> vd_free s i <> 0 -> vd_free s i = 1) by (intros i Hi Hf; destruct (Hfl i Hi); done).
  unfold alloc3_desc. wp_step. apply wp_alloc_desc; [|intros _; cbn; wp_steps; apply HN, touched_refl].
  intros i0 Hi0 Hf0. destruct (Z.ltb_spec i0 0); [lia|]. wp_step. apply wp_alloc_desc.
  2: { intros _. cbn [Z.ltb Z.compare]. wp_step. apply wp_free_desc; [lia|cbn; apply fset_eq|]. wp_step. apply HN.
       eexists _, _, _. split; [reflexivity|]. cbn. split; intros i Hi; fcase; try done. by rewrite H1. }
  intros i1 Hi1 Hf1. cbn in Hf1. assert (Hne1 : i1 <> i0) by (intros ->; rewrite fset_eq in Hf1; done).
  rewrite fset_ne in Hf1 by done. destruct (Z.ltb_spec i1 0); [lia|]. wp_step. apply wp_alloc_desc.
  2: { intros _. cbn [Z.ltb Z.compare]. wp_step. apply wp_free_desc; [lia|cbn; rewrite fset_ne by done; apply fset_eq|].
       wp_step. apply wp_free_desc; [lia|cbn; rewrite fset_ne by done; apply fset_eq|]. wp_step. apply HN.
       eexists _, _, _. split; [reflexivity|]. cbn. split; intros i Hi; fcase; try done; by rewrite H1. }
  intros i2 Hi2 Hf2. cbn in Hf2. assert (Hne2 : i2 <> i1) by (intros ->; rewrite fset_eq in Hf2; done).
  rewrite fset_ne in Hf2 by done. assert (Hne3 : i2 <> i0) by (intros ->; rewrite fset_eq in Hf2; done).
  rewrite fset_ne in Hf2 by done. destruct (Z.ltb_spec i2 0); [lia|]. wp_step. cbn. apply HS.
  - repeat constructor; rewrite ?elem_of_cons, ?elem_of_nil; naive_solver.
  - intros i. rewrite !elem_of_cons, elem_of_nil. intros [->|[->|[->|[]]]]; split; try done; by apply H1.
Qed.

(** Freeing the chain of a request. *)
Lemma wp_free_chain r (Q : unit -> vdisk -> Prop) s :
  vd_desc s (r_h r) = mkDesc (AOps (r_h r)) 16 VRING_DESC_F_NEXT (r_1 r) ->
  vd_desc s (r_1 r) =
    mkDesc (AData (r_b r)) BSIZE (Z.lor (if r_w r then 0 else VRING_DESC_F_WRITE) VRING_DESC_F_NEXT) (r_2 r) ->
  vd_desc s (r_2 r) = mkDesc (AStatus (r_h r)) 1 VRING_DESC_F_WRITE 0 ->
  NoDup (descs r) -> (forall i, i ∈ descs r -> 0 <= i < NUM /\ vd_free s i = 0) ->
  (forall d w, (forall i, i ∉ descs r -> d i = vd_desc s i) ->
     Q tt (set_v_out w (vd_regs s)
            (set_v_free (fset (fset (fset (vd_free s) (r_h r) 1) (r_1 r) 1) (r_2 r) 1) (set_v_desc d s)))) ->
  wp (free_chain (r_h r)) Q s.
Proof.
  destruct r as [h i1 i2 b w]. cbn [r_h r_1 r_2 r_b r_w]. unfold descs. cbn [r_h r_1 r_2]. intros D0 D1 D2 Hnd Hr HQ.
  apply NoDup_cons in Hnd as [N0 Hnd]. apply NoDup_cons in Hnd as [N1 _].
  rewrite !elem_of_cons, elem_of_nil in N0. rewrite !elem_of_cons, elem_of_nil in N1.
  assert (h <> i1) by tauto. assert (h <> i2) by tauto. assert (i1 <> i2) by tauto.
  destruct (Hr h) as [Rh Fh]; [rewrite !elem_of_cons; tauto|]. destruct (Hr i1) as [R1 F1]; [rewrite !elem_of_cons; tauto|].
  destruct (Hr i2) as [R2 F2]; [rewrite !elem_of_cons; tauto|].
  assert (Hfl : Z.land (Z.lor (if w then 0 else VRING_DESC_F_WRITE) VRING_DESC_F_NEXT) VRING_DESC_F_NEXT = 1)
    by (by destruct w).
  unfold free_chain. change (S (Z.to_nat NUM)) with 9%nat. cbn [loop].
  wp_steps. rewrite D0. apply wp_free_desc; [lia|done|]. cbn [d_flags d_next]. change (Z.land VRING_DESC_F_NEXT VRING_DESC_F_NEXT =? 0) with false. cbn [negb].
  wp_steps. cbn [set_v_out set_v_free set_v_desc vd_desc vd_free]. rewrite fset_ne, D1 by congruence.
  apply wp_free_desc; [lia|cbn; by rewrite fset_ne by congruence|]. cbn [d_flags d_next]. rewrite Hfl. cbn [Z.eqb negb].
  wp_steps. cbn [set_v_out set_v_free set_v_desc vd_desc vd_free]. rewrite !fset_ne, D2 by congruence.
  apply wp_free_desc; [lia|cbn; by rewrite !fset_ne by congruence|]. cbn [d_flags d_next].
  change (Z.land VRING_DESC_F_WRITE VRING_DESC_F_NEXT =? 0) with true. cbn [negb]. wp_steps. apply HQ.
  intros i Hi. rewrite !elem_of_cons, elem_of_nil in Hi. cbn. unfold fset. by rewrite (proj2 (Z.eqb_neq i i2)), (proj2 (Z.eqb_neq i i1)), (proj2 (Z.eqb_neq i h)) by tauto.
Qed.

(** * Submitting a request *)

Definition same_data (s s' : vdisk) : Prop :=
  vb_data s' = vb_data s /\ vb_blockno s' = vb_blockno s /\ dv_store s' = dv_store s.

Lemma vinv_flags lk s RA RT RU RS : vinv lk s RA RT RU RS -> flags_ok s.
Proof. intros Hv i Hi. rewrite (ch_free _ _ (vi_chains _ _ _ _ _ _ Hv) i Hi). case_decide; auto. Qed.

Lemma head_in_descs r R : r ∈ R -> r_h r ∈ R ≫= descs.
Proof. intros Hr. eapply elem_descs; [done|]. unfold descs. rewrite elem_of_cons. by left. Qed.

(** A new chain made of free descriptors. *)
Lemma chains_add s s' R r :
  chains s R -> NoDup (descs r) -> (forall i, i ∈ descs r -> 0 <= i < NUM /\ vd_free s i = 1) -> r_b r ∉ r_b <$> R ->
  (forall i, i ∉ descs r -> vd_desc s' i = vd_desc s i /\ vd_free s' i = vd_free s i /\ vd_ops s' i = vd_ops s i /\
     vd_info_b s' i = vd_info_b s i) ->
  (forall i, i ∈ descs r -> vd_free s' i = 0) -> vb_blockno s' = vb_blockno s -> chain_ok s' r ->
  chains s' (r :: R).
Proof.
  intros [H1 H2 H3 H4 H5] Hnd Hfr Hb Hother Hf0 Hno Hok.
  assert (Hdisj : forall i, i ∈ descs r -> i ∉ R ≫= descs).
  { intros i Hi Hin. destruct (Hfr i Hi) as [Hr Hf]. rewrite H3, decide_True in Hf by done. done. }
  split.
  - cbn [mbind list_bind]. apply NoDup_app. done.
  - intros i. cbn [mbind list_bind]. rewrite elem_of_app. intros [Hi|Hi]; [by apply Hfr|by apply H2].
  - intros i Hi. cbn [mbind list_bind]. destruct (decide (i ∈ descs r)) as [Hin|Hin].
    + rewrite Hf0, decide_True by (done || rewrite elem_of_app; by left). done.
    + destruct (Hother i Hin) as (_ & Hf & _). rewrite Hf, H3 by done.
      by repeat case_decide; rewrite elem_of_app in *; tauto.
  - cbn. apply NoDup_cons. done.
  - intros q. rewrite elem_of_cons. intros [->|Hq]; [done|]. specialize (H5 q Hq).
    assert (Hnin : forall i, i ∈ descs q -> i ∉ descs r).
    { intros i Hi Hi'. apply (Hdisj i Hi'). by eapply elem_descs. }
    assert (Hh : r_h q ∉ descs r) by (apply Hnin; unfold descs; rewrite elem_of_cons; by left).
    destruct (Hother _ Hh) as (_ & _ & Ho & Hib).
    apply (chain_ok_frame s); try done; [|by rewrite Hno]. intros i Hi. by apply Hother, Hnin.
Qed.

Lemma num_range : 0 < NUM <= 2 ^ 16.
Proof. done. Qed.
Lemma num_divides : (NUM | 2 ^ 16).
Proof. by exists (2 ^ 13). Qed.

Lemma vcont_put data r w ch n :
  length data = Z.to_nat NUM -> length (vcont data r w) = n -> (n < 8)%nat ->
  vcont (zset (w mod NUM) ch data) r (u16 (w + 1)) = vcont data r w ++ [ch].
Proof.
  intros Hl Hn Hlt. rewrite length_rcont in Hn. pose proof (rfill_range NUM (2 ^ 16) num_range num_divides r w).
  unfold u16. apply rcont_put; try apply num_range; try apply num_divides; try done; [unfold NUM; lia|lia].
Qed.

Lemma length_vu16 x : is_u16 (u16 x).
Proof. unfold is_u16, u16. apply Z.mod_pos_bound. lia. Qed.

Lemma sector_of n : vblock n -> u32 (n * (BSIZE / 512)) = 2 * n.
Proof.
  intros Hn. change (BSIZE / 512) with 2. rewrite u32_small; [lia|]. unfold vblock, is_u32 in *. lia.
Qed.

(** The state in which virtio_disk_rw() has handed a request to the device. *)
Record submitted (r : vreq) (s s1 : vdisk) : Prop := {
  sb_desc : vd_desc s1 = fset (fset (fset (vd_desc s) (r_h r) (mkDesc (AOps (r_h r)) 16 VRING_DESC_F_NEXT (r_1 r))) (r_1 r)
    (mkDesc (AData (r_b r)) BSIZE (Z.lor (if r_w r then 0 else VRING_DESC_F_WRITE) VRING_DESC_F_NEXT) (r_2 r))) (r_2 r)
    (mkDesc (AStatus (r_h r)) 1 VRING_DESC_F_WRITE 0);
  sb_ops : vd_ops s1 = fset (vd_ops s) (r_h r)
    (mkReq (if r_w r then VIRTIO_BLK_T_OUT else VIRTIO_BLK_T_IN) 0 (2 * vb_blockno s (r_b r)));
  sb_free : vd_free s1 = fset (fset (fset (vd_free s) (r_h r) 0) (r_1 r) 0) (r_2 r) 0;
  sb_info : vd_info_b s1 = fset (vd_info_b s) (r_h r) (r_b r);
  sb_status : vd_info_status s1 = fset (vd_info_status s) (r_h r) 0xff;
  sb_disk : vb_disk s1 = fset (vb_disk s) (r_b r) 1;
  sb_avail : vd_avail s1 = zset (vd_avail_idx s mod NUM) (r_h r) (vd_avail s) /\
             vd_avail_idx s1 = u16 (vd_avail_idx s + 1);
  sb_same : same_data s s1;
  sb_dev : dv_last s1 = dv_last s /\ dv_taken s1 = dv_taken s;
  sb_used : vd_used s1 = vd_used s /\ vd_used_idx s1 = vd_used_idx s /\ vd_used_dev s1 = vd_used_dev s;
  sb_lock : vd_lock s1 = false;
}.

Lemma descs_distinct r : NoDup (descs r) -> r_h r <> r_1 r /\ r_h r <> r_2 r /\ r_1 r <> r_2 r.
Proof.
  unfold descs. intros Hnd. apply NoDup_cons in Hnd as [N0 N1]. apply NoDup_cons in N1 as [N1 _].
  rewrite !elem_of_cons, elem_of_nil in N0. rewrite !elem_of_cons, elem_of_nil in N1. tauto.
Qed.

Lemma chains_submitted r s s1 R :
  submitted r s s1 -> chains s R -> NoDup (descs r) -> (forall i, i ∈ descs r -> 0 <= i < NUM /\ vd_free s i = 1) ->
  r_b r ∉ r_b <$> R -> vblock (vb_blockno s (r_b r)) -> chains s1 (r :: R).
Proof.
  intros [Edesc Eops Efree Eib _ _ _ (_ & Eno & _) _ _ _] Hc Hnd Hfr Hb Hno.
  destruct (descs_distinct r Hnd) as (E01 & E02 & E12).
  assert (Hin : forall i, i ∈ descs r <-> i = r_h r \/ i = r_1 r \/ i = r_2 r).
  { intros i. unfold descs. rewrite !elem_of_cons, elem_of_nil. tauto. }
  apply (chains_add s); try done.
  - intros i Hi. rewrite Hin in Hi. rewrite Edesc, Efree, Eops, Eib. by rewrite !fset_ne by tauto.
  - intros i Hi. apply Hin in Hi. rewrite Efree. destruct Hi as [->|[->| ->]]; by rewrite ?fset_ne, fset_eq by congruence.
  - split; rewrite ?Edesc, ?Eops, ?Eib, ?Eno; first [done|by rewrite ?fset_ne, fset_eq by congruence].
Qed.

Lemma vinv_submitted r s s1 RA RT RU RS :
  submitted r s s1 -> vinv false s RA RT RU RS -> NoDup (descs r) ->
  (forall i, i ∈ descs r -> 0 <= i < NUM /\ vd_free s i = 1) ->
  r_b r ∉ r_b <$> RA ++ RT ++ RU ++ RS -> vblock (vb_blockno s (r_b r)) -> vinv false s1 (RA ++ [r]) RT RU RS.
Proof.
  intros Hs [V1 V2 V3 V4 V5 V6 V7 V8 V9 V10 V11] Hnd Hfr Hb Hno.
  pose proof (chains_submitted _ _ _ _ Hs V8 Hnd Hfr Hb Hno) as Hadd.
  destruct Hs as [_ _ _ _ Est Edisk [Eav Eai] (Ed & _ & _) [Ela Eta] (Eus & Eui & Eud) Elk].
  pose proof (chains_few _ _ Hadd) as Hfew. cbn [length] in Hfew. rewrite !length_app in Hfew.
  assert (Hni : forall q, q ∈ RU -> r_h q <> r_h r).
  { intros q Hq He. assert (Hin : q ∈ RA ++ RT ++ RU ++ RS) by (rewrite !elem_of_app; tauto).
    pose proof (ch_nodup _ _ Hadd) as Hn. cbn [mbind list_bind] in Hn. apply NoDup_app in Hn as (_ & Hn & _).
    apply (Hn (r_h r)); [unfold descs; rewrite elem_of_cons; by left|]. rewrite <- He. by apply head_in_descs. }
  split; try done.
  - rewrite Eav, Eai, Ela. erewrite vcont_put by (done || rewrite V2, length_fmap; lia). rewrite V2, fmap_app. done.
  - rewrite Eav. by rewrite length_zset.
  - by rewrite Eta.
  - by rewrite Eus, Eui, Eud.
  - by rewrite Eus.
  - rewrite Ela, Eai, Eui, Eud. destruct V7 as (? & ? & ? & ?). split_and!; try done. apply length_vu16.
  - apply (chains_perm _ (r :: RA ++ RT ++ RU ++ RS)); [solve_Permutation|done].
  - intros b'. rewrite Edisk. unfold fset. destruct (Z.eqb_spec b' (r_b r)) as [->|Hne].
    + rewrite decide_True; [done|]. rewrite !fmap_app, !elem_of_app. cbn. rewrite elem_of_cons. tauto.
    + rewrite V9. apply decide_ext. rewrite !fmap_app, !elem_of_app. cbn. rewrite elem_of_cons, elem_of_nil. tauto.
  - intros q Hq. rewrite Est, fset_ne by (by apply Hni). by apply V10.
  - intros b'. by rewrite Ed.
Qed.

Lemma vinv_touched s s' RA RT RU RS lk :
  touched s s' -> vinv lk s RA RT RU RS -> vinv lk s' RA RT RU RS /\ same_data s s'.
Proof.
  intros (d & wk & f & -> & Hd & Hf) [V1 V2 V3 V4 V5 V6 V7 V8 V9 V10 V11]. split; [|done].
  split; try done. eapply chains_frame; [| | |exact V8]; cbn; try done.
  intros i Hi. assert (Hr : 0 <= i < NUM) by (by eapply ch_range). apply Hd; [done|].
  by rewrite (ch_free _ _ V8), decide_True.
Qed.

Lemma vinv_lock lk lk' s RA RT RU RS : vinv lk s RA RT RU RS -> vinv lk' (set_v_lock lk' s) RA RT RU RS.
Proof. intros [V1 V2 V3 V4 V5 V6 V7 V8 V9 V10 V11]. split; try done. by apply (chains_frame s). Qed.

Lemma wp_submit b w (Q : rwres -> vdisk -> Prop) s RA RT RU RS :
  vinv false s RA RT RU RS -> b ∉ r_b <$> RA ++ RT ++ RU ++ RS -> vblock (vb_blockno s b) ->
  (forall s', vinv false s' RA RT RU RS -> same_data s s' -> Q SleepFree s') ->
  (forall s' r, r_b r = b -> r_w r = w -> vinv false s' (RA ++ [r]) RT RU RS -> same_data s s' -> Q (SleepBuf (r_h r)) s') ->
  wp (virtio_disk_rw b w) Q s.
Proof.
  intros Hv Hb Hno HN HS. unfold virtio_disk_rw. wp_steps; [by apply Hv|].
  pose proof (vinv_lock _ true _ _ _ _ _ Hv) as Hv1.
  apply wp_alloc3; [exact (vinv_flags _ _ _ _ _ _ Hv1)| |].
  2: { intros s' Ht. destruct (vinv_touched _ _ _ _ _ _ _ Ht Hv1) as [Hv2 Hs]. wp_step.
       apply wp_release; [by apply Hv2|]. wp_step. apply HN; [by apply (vinv_lock true)|exact Hs]. }
  intros i0 i1 i2 Hnd Hfr. rewrite sector_of by done.
  unfold rw_format, put_desc, rw_wait, R_write. wp_steps.
  match goal with |- wp _ _ ?x => set (s1 := x) end.
  assert (Hsub : submitted (mkVreq i0 i1 i2 b w) s (set_v_lock false s1)) by (split; repeat split; reflexivity).
  assert (Edisk : vb_disk s1 b = 1) by (change (fset (vb_disk s) b 1 b = 1); apply fset_eq).
  assert (Elk : vd_lock s1 = true) by reflexivity. clearbody s1. rewrite Edisk. cbn [Z.eqb Pos.eqb].
  wp_step. apply wp_release; [done|]. wp_step. apply (HS _ (mkVreq i0 i1 i2 b w)); [done|done| |apply Hsub].
  by apply (vinv_submitted _ s).
Qed.

(** * Waiting for a request *)

(** A freed chain. *)
Lemma chains_remove s s' R r :
  chains s (r :: R) ->
  (forall i, i ∉ descs r -> vd_desc s' i = vd_desc s i /\ vd_free s' i = vd_free s i /\ vd_info_b s' i = vd_info_b s i) ->
  (forall i, i ∈ descs r -> vd_free s' i = 1) -> vd_ops s' = vd_ops s -> vb_blockno s' = vb_blockno s ->
  chains s' R.
Proof.
  intros [H1 H2 H3 H4 H5] Hother Hf1 Hop Hno. cbn [mbind list_bind] in *. apply NoDup_app in H1 as (_ & Hd & H1).
  assert (Hnin : forall i, i ∈ R ≫= descs -> i ∉ descs r) by (intros i Hi Hi'; by eapply Hd).
  split; try done.
  - intros i Hi. apply H2. rewrite elem_of_app. by right.
  - intros i Hi. destruct (decide (i ∈ descs r)) as [Hin|Hin].
    + rewrite Hf1, decide_False by (done || by apply Hd). done.
    + destruct (Hother i Hin) as (_ & -> & _). rewrite H3 by done. apply decide_ext. rewrite elem_of_app. tauto.
  - cbn in H4. by apply NoDup_cons in H4 as [_ H4].
  - intros q Hq. assert (Hh : r_h q ∉ descs r) by (by apply Hnin, head_in_descs).
    apply (chain_ok_frame s); rewrite ?Hop, ?Hno; try done; [|by apply Hother|].
    + intros i Hi. apply Hother, Hnin. by eapply elem_descs.
    + apply H5. rewrite elem_of_cons. by right.
Qed.

Lemma busy_disk lk s RA RT RU RS r :
  vinv lk s RA RT RU RS -> r ∈ RA ++ RT ++ RU -> vb_disk s (r_b r) = 1.
Proof. intros Hv Hr. rewrite (vi_disk _ _ _ _ _ _ Hv), decide_True; [done|]. by apply list_elem_of_fmap_2. Qed.

Lemma idle_disk lk s RA RT RU RS b :
  vinv lk s RA RT RU RS -> b ∉ r_b <$> RA ++ RT ++ RU -> vb_disk s b = 0.
Proof. intros Hv Hb. by rewrite (vi_disk _ _ _ _ _ _ Hv), decide_False. Qed.

Lemma wp_resume_busy r (Q : rwres -> vdisk -> Prop) s RA RT RU RS :
  vinv false s RA RT RU RS -> r ∈ RA ++ RT ++ RU ->
  (forall s', vinv false s' RA RT RU RS -> same_data s s' -> Q (SleepBuf (r_h r)) s') ->
  wp (virtio_disk_rw_resume (r_b r) (r_h r)) Q s.
Proof.
  intros Hv Hr HQ. unfold virtio_disk_rw_resume, rw_wait. wp_steps; [by apply Hv|].
  change (vb_disk (lset vdisk_lock true s)) with (vb_disk s). erewrite busy_disk by done. cbn [Z.eqb Pos.eqb].
  wp_step. apply wp_release; [done|]. wp_step. apply HQ; [|done]. by apply (vinv_lock true), (vinv_lock false).
Qed.

Lemma wp_resume_done r (Q : rwres -> vdisk -> Prop) s RA RT RU S1 S2 :
  vinv false s RA RT RU (S1 ++ r :: S2) ->
  (forall s', vinv false s' RA RT RU (S1 ++ S2) -> same_data s s' -> Q RwDone s') ->
  wp (virtio_disk_rw_resume (r_b r) (r_h r)) Q s.
Proof.
  intros Hv HQ. pose proof Hv as [V1 V2 V3 V4 V5 V6 V7 V8 V9 V10 V11].
  assert (Hc : chains s (r :: RA ++ RT ++ RU ++ S1 ++ S2)) by (eapply chains_perm; [|exact V8]; solve_Permutation).
  pose proof Hc as [C1 C2 C3 C4 C5].
  assert (Hnb : r_b r ∉ r_b <$> RA ++ RT ++ RU).
  { cbn in C4. apply NoDup_cons in C4 as [Hn _]. rewrite !fmap_app, !elem_of_app in *. tauto. }
  assert (Hd : forall i, i ∈ descs r -> 0 <= i < NUM /\ vd_free s i = 0).
  { intros i Hi. assert (Hin : i ∈ (r :: RA ++ RT ++ RU ++ S1 ++ S2) ≫= descs) by (cbn [mbind list_bind]; rewrite elem_of_app; by left).
    split; [by apply C2|]. rewrite C3, decide_True by (done || by apply C2). done. }
  destruct (C5 r ltac:(rewrite elem_of_cons; by left)) as [K0 K1 K2 _ _ _].
  assert (Hnd : NoDup (descs r)) by (cbn [mbind list_bind] in C1; by apply NoDup_app in C1 as [C1 _]).
  destruct (descs_distinct r Hnd) as (E01 & E02 & E12).
  unfold virtio_disk_rw_resume, rw_wait. wp_steps.
  change (vb_disk (lset vdisk_lock true s)) with (vb_disk s). erewrite idle_disk by done. cbn [Z.eqb].
  wp_steps. apply (wp_free_chain r); try done. intros d wk Hdd. wp_step. apply wp_release; [done|]. wp_step.
  apply HQ; [|done]. split; try done.
  apply (chains_remove s _ _ r Hc); try done; cbn.
  - intros i Hi. assert (Hi' := Hi). unfold descs in Hi'. rewrite !elem_of_cons, elem_of_nil in Hi'.
    rewrite !fset_ne by tauto. by rewrite Hdd.
  - intros i Hi. unfold descs in Hi. rewrite !elem_of_cons, elem_of_nil in Hi.
    destruct Hi as [->|[->|[->|[]]]]; by rewrite ?fset_ne, fset_eq by congruence.
Qed.

(** * The interrupt handler *)

Lemma vcont_get data r w h l :
  vcont data r w = h :: l -> is_u16 r -> is_u16 w ->
  r <> w /\ zget data (r mod NUM) = h /\ vcont data (u16 (r + 1)) w = l /\ vfill r w = 1 + Z.of_nat (length l).
Proof.
  intros He Hr Hw. assert (Hl : length (vcont data r w) = S (length l)) by (by rewrite He).
  rewrite length_rcont in Hl. assert (Hf : vfill r w <> 0) by (intros E; rewrite E in Hl; done).
  rewrite (rcont_get NUM (2 ^ 16) num_range num_divides) in He by done. injection He as <- <-.
  split; [|split; [done|split; [done|]]].
  - intros ->. apply Hf. unfold rfill. by rewrite Z.sub_diag.
  - lia.
Qed.

Lemma vcont_empty data r w : vcont data r w = [] -> is_u16 r -> is_u16 w -> r = w.
Proof.
  intros He Hr Hw. apply (rfill_empty NUM (2 ^ 16) num_range num_divides); [done|done|].
  pose proof (rfill_range NUM (2 ^ 16) num_range num_divides r w). assert (Hl := length_rcont NUM (2 ^ 16) data r w).
  rewrite He in Hl. cbn in Hl. lia.
Qed.

(** One entry of the used ring. *)
Lemma vinv_seen s RA RT r RU RS w :
  vinv true s RA RT (r :: RU) RS ->
  vinv true (set_v_used_idx (u16 (vd_used_idx s + 1))
    (set_v_out w (vd_regs s) (set_v_disk (fset (vb_disk s) (r_b r) 0) s))) RA RT RU (RS ++ [r]).
Proof.
  intros [V1 V2 V3 V4 V5 V6 V7 V8 V9 V10 V11]. destruct V7 as (I1 & I2 & I3 & I4).
  destruct (vcont_get _ _ _ _ _ V5 I3 I4) as (_ & _ & Hrest & _).
  assert (Hc : chains s (r :: RA ++ RT ++ RU ++ RS)) by (eapply chains_perm; [|exact V8]; solve_Permutation).
  split; cbn [set_v_used_idx set_v_out set_v_disk vd_lock vd_avail vd_avail_idx vd_used vd_used_idx vd_used_dev dv_last
              dv_taken vb_disk vd_info_status vb_data]; try done.
  - split_and!; try done. apply length_vu16.
  - apply (chains_frame s); try done. apply (chains_perm _ (r :: RA ++ RT ++ RU ++ RS)); [solve_Permutation|done].
  - pose proof (ch_bufs _ _ Hc) as Hb. cbn in Hb. apply NoDup_cons in Hb as [Hb _]. intros b.
    unfold fset. destruct (Z.eqb_spec b (r_b r)) as [->|Hne].
    + rewrite decide_False; [done|]. rewrite !fmap_app, !elem_of_app in *. tauto.
    + rewrite V9. apply decide_ext. rewrite !fmap_app, !elem_of_app. cbn. rewrite elem_of_cons. tauto.
  - intros q Hq. apply V10. rewrite elem_of_cons. by right.
Qed.

Lemma wp_intr mm_read (Q : unit -> vdisk -> Prop) s RA RT RU RS :
  vinv false s RA RT RU RS ->
  (forall s', vinv false s' RA RT [] (RS ++ RU) -> same_data s s' -> Q tt s') ->
  wp (virtio_disk_intr mm_read) Q s.
Proof.
  intros Hv HQ. unfold virtio_disk_intr, R_read, R_write. wp_step. apply wp_acquire; [by apply Hv|]. do 6 wp_step.
  match goal with |- wp _ _ ?x => set (s1 := x) end.
  assert (Hv1 : vinv true s1 RA RT RU RS).
  { destruct Hv as [V1 V2 V3 V4 V5 V6 V7 V8 V9 V10 V11]. split; try done. by apply (chains_frame s). }
  assert (Hs1 : same_data s s1) by done. clearbody s1. wp_step.
  assert (Hlen : rfill (2 ^ 16) (vd_used_idx s1) (vd_used_dev s1) = Z.of_nat (length RU)).
  { pose proof (length_rcont NUM (2 ^ 16) (vd_used s1) (vd_used_idx s1) (vd_used_dev s1)) as Hl.
    rewrite (vi_used _ _ _ _ _ _ Hv1), length_fmap in Hl. pose proof (rfill_range NUM (2 ^ 16) num_range num_divides (vd_used_idx s1) (vd_used_dev s1)).
    lia. }
  rewrite Hlen, Nat2Z.id.
  eapply (wp_loop_idx (fun n _ s' => exists RU1 RU2, RU = RU1 ++ RU2 /\ n = length RU2 /\ vinv true s' RA RT RU2 (RS ++ RU1) /\ same_data s s') _ _ _ _ _ (length RU)); [|lia|].
  { exists [], RU. rewrite app_nil_r. done. }
  intros n [] s2 (RU1 & RU2 & -> & -> & Hv2 & Hs2). pose proof (vi_idx _ _ _ _ _ _ Hv2) as (_ & _ & I3 & I4).
  pose proof (vi_used _ _ _ _ _ _ Hv2) as Hu. wp_steps. destruct RU2 as [|r RU2]; cbn [fmap list_fmap] in Hu.
  - rewrite (vcont_empty _ _ _ Hu I3 I4), Z.eqb_refl. cbn [negb]. wp_steps; [by apply Hv2|]. apply HQ; [|done].
    rewrite app_nil_r. by apply (vinv_lock true).
  - destruct (vcont_get _ _ _ _ _ Hu I3 I4) as (Hne & Hh & _). rewrite (proj2 (Z.eqb_neq _ _) Hne). cbn [negb].
    rewrite Hh, (vi_status _ _ _ _ _ _ Hv2) by (rewrite elem_of_cons; by left). cbn [Z.eqb negb].
    rewrite (ck_b s2 r) by (apply (ch_ok _ _ (vi_chains _ _ _ _ _ _ Hv2)); rewrite !elem_of_app, elem_of_cons; tauto).
    unfold vwakeup. wp_steps. exists (length RU2). split; [cbn; lia|]. exists (RU1 ++ [r]), RU2.
    rewrite <- app_assoc. split; [done|]. split; [done|]. split; [|done]. rewrite app_assoc. exact (vinv_seen _ _ _ _ _ _ (CBuf (r_b r) :: vd_woken s2) Hv2).
Qed.

(** * The device *)

Lemma take_spec s s' RA RT RU RS :
  vinv false s RA RT RU RS -> dev_take s = Some s' ->
  exists r RA', RA = r :: RA' /\ vinv false s' RA' (RT ++ [r]) RU RS /\ same_data s s'.
Proof.
  intros [V1 V2 V3 V4 V5 V6 V7 V8 V9 V10 V11] He. unfold dev_take in He.
  destruct (Z.eqb_spec (dv_last s) (vd_avail_idx s)) as [|Hne]; [done|]. injection He as <-.
  destruct V7 as (I1 & I2 & I3 & I4). destruct RA as [|r RA]; cbn [fmap list_fmap] in V2.
  { destruct Hne. by apply (vcont_empty _ _ _ V2). }
  destruct (vcont_get _ _ _ _ _ V2 I1 I2) as (_ & Hh & Hrest & _). exists r, RA. split; [done|]. split; [|done].
  split; cbn [set_v_dev vd_lock vd_avail vd_avail_idx vd_used vd_used_idx vd_used_dev dv_last
              dv_taken vb_disk vd_info_status vb_data]; try done.
  - by rewrite V4, Hh, fmap_app.
  - split_and!; try done. apply length_vu16.
  - apply (chains_frame s); try done. eapply chains_perm; [|exact V8]. solve_Permutation.
  - intros b. rewrite V9. apply decide_ext. rewrite !fmap_app, !elem_of_app. cbn. rewrite !elem_of_cons, elem_of_nil. tauto.
Qed.

(** The transfer of a request, on the contents of the disk and of the buffers. *)
Definition block_of (store : mem) (n : Z) : list Z := read_bytes (Z.to_nat BSIZE) (n * BSIZE) store.
Definition moved (b : Z) (w : bool) (no : Z -> Z) (x : mem * (Z -> list Z)) : mem * (Z -> list Z) :=
  if w then (write_bytes (no b * BSIZE) (x.2 b) x.1, x.2)
  else (x.1, fset x.2 b (block_of x.1 (no b))).

Lemma exec_spec s r :
  chain_ok s r -> length (vb_data s (r_b r)) = Z.to_nat BSIZE ->
  let x := moved (r_b r) (r_w r) (vb_blockno s) (dv_store s, vb_data s) in
  dev_exec (r_h r) s =
    Some (set_v_info (vd_info_b s) (fset (vd_info_status s) (r_h r) 0)
           (set_v_buf (vb_blockno s) x.2 (set_v_dev x.1 (dv_last s) (dv_taken s) s))).
Proof.
  intros [K0 K1 K2 K3 K4 K5] Hl x. unfold dev_exec. rewrite K0. cbn [d_next d_addr]. rewrite K1. cbn [d_next d_addr].
  rewrite K2. cbn [d_next d_addr]. rewrite K3. unfold x, moved, block_of, has_flag. cbn [d_flags d_len rq_sector rq_type].
  assert (Hoff : 2 * vb_blockno s (r_b r) * 512 = vb_blockno s (r_b r) * BSIZE) by (unfold BSIZE; lia). rewrite Hoff.
  destruct (r_w r); cbn -[write_bytes read_bytes take BSIZE Z.mul]; [|by destruct s].
  rewrite take_ge by lia. by destruct s.
Qed.

Lemma vcont_snoc lk s RA RT RU RS r :
  vinv lk s RA RT RU RS -> r ∈ RT ->
  vcont (zset (vd_used_dev s mod NUM) (r_h r) (vd_used s)) (vd_used_idx s) (u16 (vd_used_dev s + 1)) = r_h <$> RU ++ [r].
Proof.
  intros Hv Hr. pose proof (chains_few _ _ (vi_chains _ _ _ _ _ _ Hv)) as Hf. rewrite !length_app in Hf.
  pose proof (vi_used _ _ _ _ _ _ Hv) as Hu. rewrite fmap_app, <- Hu.
  eapply vcont_put; [by apply Hv|by rewrite Hu, length_fmap|lia].
Qed.

(** Completing a request. *)
Lemma done_spec s i r RA RT RU RS :
  vinv false s RA RT RU RS -> RT !! i = Some r ->
  exists s', dev_done i s = Some s' /\ vinv false s' RA (delete i RT) (RU ++ [r]) RS /\
    vb_blockno s' = vb_blockno s /\
    (dv_store s', vb_data s') = moved (r_b r) (r_w r) (vb_blockno s) (dv_store s, vb_data s).
Proof.
  intros Hv Hi. pose proof Hv as [V1 V2 V3 V4 V5 V6 V7 V8 V9 V10 V11].
  assert (Hr : r ∈ RT) by (by eapply list_elem_of_lookup_2).
  assert (Hin : r ∈ RA ++ RT ++ RU ++ RS) by (rewrite !elem_of_app; tauto).
  assert (HP : RT ≡ₚ r :: delete i RT) by (by apply delete_Permutation).
  assert (Hm : forall b, b ∈ r_b <$> RT <-> b = r_b r \/ b ∈ r_b <$> delete i RT).
  { intros b. pose proof (fmap_Permutation r_b _ _ HP) as HPb. rewrite HPb. apply elem_of_cons. }
  pose proof (exec_spec s r (ch_ok _ _ V8 r Hin) (V11 _)) as He. cbn zeta in He.
  set (x := moved _ _ _ _) in *.
  assert (Hx : forall b, length (x.2 b) = Z.to_nat BSIZE).
  { intros b. unfold x, moved. destruct (r_w r); [apply V11|]. cbn. unfold fset. destruct (_ =? _); [|apply V11].
    apply length_read_bytes. }
  eexists. split.
  { unfold dev_done. rewrite V4, list_lookup_fmap, Hi. cbn [fmap option_fmap option_map]. rewrite He. reflexivity. }
  split; [|split; [reflexivity|symmetry; apply surjective_pairing]].
  destruct V7 as (I1 & I2 & I3 & I4).
  split; cbn [set_v_dev set_v_used set_v_info set_v_buf vd_lock vd_avail vd_avail_idx vd_used vd_used_idx vd_used_dev dv_last
              dv_taken vb_disk vd_info_status vb_data]; try done.
  - rewrite V4. symmetry. apply list_fmap_delete.
  - by apply (vcont_snoc false s RA RT RU RS).
  - by rewrite length_zset.
  - split_and!; try done. apply length_vu16.
  - apply (chains_frame s); try done. eapply chains_perm; [|exact V8]. rewrite HP at 1. solve_Permutation.
  - intros b. rewrite V9. apply decide_ext. rewrite !fmap_app, !elem_of_app. cbn.
    rewrite (Hm b), !elem_of_cons, elem_of_nil. tauto.
  - intros q Hq. unfold fset. destruct (Z.eqb_spec (r_h q) (r_h r)) as [|Hne]; [done|].
    rewrite elem_of_app, elem_of_cons, elem_of_nil in Hq. destruct Hq as [Hq|[->|[]]]; [by apply V10|done].
Qed.
