(* ===== verification/VirtioSim.v ===== *)
(** The disk driver against a disk: traces of submissions and returns. *)

From S2P Require Import Prelude Ring Riscv CString Kalloc Vm VmCopy Fields BlockCache Virtio VirtioProps.

(** What the clients of the driver see: calls and returns of virtio_disk_rw(),
    and their own use of a buffer no request is using. *)
Inductive event : Type :=
| Submit (b : Z) (w : bool)
| Finish (b : Z)
| Client (b n : Z) (d : list Z).

Inductive runs {S : Type} (step : S -> option event -> S -> Prop) : S -> list event -> S -> Prop :=
| runs_nil s : runs step s [] s
| runs_tau s s' s'' tr : runs step s tr s' -> step s' None s'' -> runs step s tr s''
| runs_event s s' s'' tr e : runs step s tr s' -> step s' (Some e) s'' -> runs step s (tr ++ [e]) s''.

(** * A disk *)

(** Requests by buffer: the direction, and whether the transfer has been done. *)
Record adisk : Type := mkAd {
  ad_store : mem;
  ad_no : Z -> Z;
  ad_data : Z -> list Z;
  ad_req : gmap Z (bool * bool);
}.

Inductive astep : adisk -> option event -> adisk -> Prop :=
| as_submit b w a :
    ad_req a !! b = None ->
    astep a (Some (Submit b w)) (mkAd (ad_store a) (ad_no a) (ad_data a) (<[b := (w, false)]> (ad_req a)))
| as_transfer b w a :
    ad_req a !! b = Some (w, false) ->
    let x := moved b w (ad_no a) (ad_store a, ad_data a) in
    astep a None (mkAd x.1 (ad_no a) x.2 (<[b := (w, true)]> (ad_req a)))
| as_finish b w a :
    ad_req a !! b = Some (w, true) ->
    astep a (Some (Finish b)) (mkAd (ad_store a) (ad_no a) (ad_data a) (delete b (ad_req a)))
| as_client b n d a :
    ad_req a !! b = None -> length d = Z.to_nat BSIZE ->
    astep a (Some (Client b n d)) (mkAd (ad_store a) (fset (ad_no a) b n) (fset (ad_data a) b d) (ad_req a)).

(** * The driver, its clients and the device *)

(** The calls that wait, by buffer: the head of the chain, and the direction. *)
Abbreviation waiting := (gmap Z (Z * bool)).

Section Sim.
Context (mm_read : list (Z * Z) -> Z -> Z).

Inductive vstep : vdisk * waiting -> option event -> vdisk * waiting -> Prop :=
| vs_submit b w h s s' W :
    W !! b = None -> vblock (vb_blockno s b) -> virtio_disk_rw b w s = Ok (SleepBuf h) s' ->
    vstep (s, W) (Some (Submit b w)) (s', <[b := (h, w)]> W)
| vs_no_desc b w s s' W :
    W !! b = None -> vblock (vb_blockno s b) -> virtio_disk_rw b w s = Ok SleepFree s' -> vstep (s, W) None (s', W)
| vs_wait b h h' w s s' W :
    W !! b = Some (h, w) -> virtio_disk_rw_resume b h s = Ok (SleepBuf h') s' -> vstep (s, W) None (s', W)
| vs_finish b h w s s' W :
    W !! b = Some (h, w) -> virtio_disk_rw_resume b h s = Ok RwDone s' ->
    vstep (s, W) (Some (Finish b)) (s', delete b W)
| vs_intr s s' W : virtio_disk_intr mm_read s = Ok tt s' -> vstep (s, W) None (s', W)
| vs_take s s' W : dev_take s = Some s' -> vstep (s, W) None (s', W)
| vs_done i s s' W : dev_done i s = Some s' -> vstep (s, W) None (s', W)
| vs_client b n d s W :
    W !! b = None -> length d = Z.to_nat BSIZE ->
    vstep (s, W) (Some (Client b n d)) (set_v_buf (fset (vb_blockno s) b n) (fset (vb_data s) b d) s, W).

(** Before virtio_disk_init(): zeroed memory, an idle device. *)
Record vstart (s : vdisk) : Prop := {
  st_used : vd_used_idx s = 0;
  st_dev : dv_last s = 0 /\ dv_taken s = [];
  st_disk : forall b, vb_disk s b = 0;
  st_data : forall b, length (vb_data s b) = Z.to_nat BSIZE;
}.

Definition adisk_of (s : vdisk) : adisk := mkAd (dv_store s) (vb_blockno s) (vb_data s) ∅.

(** ** The simulation *)

Definition on_buf (R : list vreq) (b h : Z) (w : bool) : Prop := exists r, r ∈ R /\ r_b r = b /\ r_h r = h /\ r_w r = w.
Definition pending (R : list vreq) (b : Z) (w : bool) : Prop := exists r, r ∈ R /\ r_b r = b /\ r_w r = w.

Record sim_lists (s : vdisk) (W : waiting) (a : adisk) (RA RT RU RS : list vreq) : Prop := {
  sm_inv : vinv false s RA RT RU RS;
  sm_store : ad_store a = dv_store s;
  sm_no : ad_no a = vb_blockno s;
  sm_data : ad_data a = vb_data s;
  sm_wait : forall b h w, W !! b = Some (h, w) <-> on_buf (RA ++ RT ++ RU ++ RS) b h w;
  sm_todo : forall b w, ad_req a !! b = Some (w, false) <-> pending (RA ++ RT) b w;
  sm_done : forall b w, ad_req a !! b = Some (w, true) <-> pending (RU ++ RS) b w;
}.
Definition sim (s : vdisk) (W : waiting) (a : adisk) : Prop :=
  exists RA RT RU RS, sim_lists s W a RA RT RU RS.

Lemma no_wait (W : waiting) R b :
  (forall b h w, W !! b = Some (h, w) <-> on_buf R b h w) -> W !! b = None <-> b ∉ r_b <$> R.
Proof.
  intros Hw. split.
  - intros Hn Hin. apply list_elem_of_fmap in Hin as (r & -> & Hr).
    assert (Hs : W !! r_b r = Some (r_h r, r_w r)) by (apply Hw; by exists r). congruence.
  - intros Hn. destruct (W !! b) as [[h w]|] eqn:E; [|done]. apply Hw in E as (r & Hr & <- & _).
    destruct Hn. by apply list_elem_of_fmap_2.
Qed.

Lemma same_buf R r q : NoDup (r_b <$> R) -> r ∈ R -> q ∈ R -> r_b r = r_b q -> r = q.
Proof.
  intros Hn Hr Hq He. apply list_elem_of_lookup in Hr as [i Hi]. apply list_elem_of_lookup in Hq as [j Hj].
  assert (i = j); [|congruence]. eapply (NoDup_lookup (r_b <$> R)); [done|rewrite list_lookup_fmap, Hi; reflexivity|].
  by rewrite list_lookup_fmap, Hj, He.
Qed.

Lemma sim_bufs s W a RA RT RU RS : sim_lists s W a RA RT RU RS -> NoDup (r_b <$> RA ++ RT ++ RU ++ RS).
Proof. intros Hs. apply (ch_bufs _ _ (vi_chains _ _ _ _ _ _ (sm_inv _ _ _ _ _ _ _ Hs))). Qed.

Lemma sim_none s W a RA RT RU RS b : sim_lists s W a RA RT RU RS -> W !! b = None <-> ad_req a !! b = None.
Proof.
  intros Hs. rewrite (no_wait W (RA ++ RT ++ RU ++ RS) b (sm_wait _ _ _ _ _ _ _ Hs)). split.
  - intros Hn. destruct (ad_req a !! b) as [[w p]|] eqn:E; [|done]. destruct Hn.
    assert (Hp : pending (RA ++ RT ++ RU ++ RS) b w).
    { destruct p; [apply (sm_done _ _ _ _ _ _ _ Hs) in E as (r & Hr & E)|apply (sm_todo _ _ _ _ _ _ _ Hs) in E as (r & Hr & E)];
        exists r; (split; [|done]); rewrite !elem_of_app in *; tauto. }
    destruct Hp as (r & Hr & <- & _). by apply list_elem_of_fmap_2.
  - intros Hn Hin. apply list_elem_of_fmap in Hin as (r & -> & Hr).
    assert (Hp : pending (RA ++ RT) (r_b r) (r_w r) \/ pending (RU ++ RS) (r_b r) (r_w r)).
    { rewrite !elem_of_app in Hr. destruct Hr as [Hr|[Hr|[Hr|Hr]]]; [left|left|right|right]; exists r; rewrite elem_of_app; tauto. }
    destruct Hp as [Hp|Hp]; [apply (sm_todo _ _ _ _ _ _ _ Hs) in Hp|apply (sm_done _ _ _ _ _ _ _ Hs) in Hp]; congruence.
Qed.

(** A step that moves requests within one half of their life. *)
Lemma sim_stutter s s' W a RA RT RU RS RA' RT' RU' RS' :
  sim_lists s W a RA RT RU RS -> vinv false s' RA' RT' RU' RS' -> same_data s s' ->
  RA' ++ RT' ≡ₚ RA ++ RT -> RU' ++ RS' ≡ₚ RU ++ RS -> sim_lists s' W a RA' RT' RU' RS'.
Proof.
  intros [S1 S2 S3 S4 S5 S6 S7] Hv (D1 & D2 & D3) P1 P2.
  assert (P3 : RA' ++ RT' ++ RU' ++ RS' ≡ₚ RA ++ RT ++ RU ++ RS) by (rewrite app_assoc, P1, P2; by rewrite <- app_assoc).
  split; try congruence.
  - intros b h w. rewrite S5. unfold on_buf. by setoid_rewrite P3.
  - intros b w. rewrite S6. unfold pending. by setoid_rewrite P1.
  - intros b w. rewrite S7. unfold pending. by setoid_rewrite P2.
Qed.

Lemma wp_result {S A} (m : M S A) Q s a s' : wp m Q s -> m s = Ok a s' -> Q a s'.
Proof. unfold wp. intros Hw He. by rewrite He in Hw. Qed.

Lemma on_buf_perm L R r b h w :
  L ≡ₚ r :: R -> on_buf L b h w <-> (b = r_b r /\ h = r_h r /\ w = r_w r) \/ on_buf R b h w.
Proof.
  intros HP. unfold on_buf. setoid_rewrite HP. setoid_rewrite elem_of_cons. split.
  - intros (q & [->|Hq] & <- & <- & <-); [by left|right]. by exists q.
  - intros [(-> & -> & ->)|(q & Hq & E)]; [exists r; tauto|exists q; tauto].
Qed.
Lemma pending_perm L R r b w : L ≡ₚ r :: R -> pending L b w <-> (b = r_b r /\ w = r_w r) \/ pending R b w.
Proof.
  intros HP. unfold pending. setoid_rewrite HP. setoid_rewrite elem_of_cons. split.
  - intros (q & [->|Hq] & <- & <-); [by left|right]. by exists q.
  - intros [(-> & ->)|(q & Hq & E)]; [exists r; tauto|exists q; tauto].
Qed.
Lemma pending_not R b w : b ∉ r_b <$> R -> ~ pending R b w.
Proof. intros Hn (r & Hr & <- & _). destruct Hn. by apply list_elem_of_fmap_2. Qed.
Lemma on_buf_not R b h w : b ∉ r_b <$> R -> ~ on_buf R b h w.
Proof. intros Hn (r & Hr & <- & _). destruct Hn. by apply list_elem_of_fmap_2. Qed.

Lemma sim_submit s s' W a RA RT RU RS r :
  sim_lists s W a RA RT RU RS -> r_b r ∉ r_b <$> RA ++ RT ++ RU ++ RS ->
  vinv false s' (RA ++ [r]) RT RU RS -> same_data s s' ->
  sim_lists s' (<[r_b r := (r_h r, r_w r)]> W)
    (mkAd (ad_store a) (ad_no a) (ad_data a) (<[r_b r := (r_w r, false)]> (ad_req a))) (RA ++ [r]) RT RU RS.
Proof.
  intros [S1 S2 S3 S4 S5 S6 S7] Hb Hv (D1 & D2 & D3). rewrite !fmap_app, !elem_of_app in Hb.
  split; cbn [ad_store ad_no ad_data ad_req]; try congruence.
  - intros b h w. rewrite (on_buf_perm _ (RA ++ RT ++ RU ++ RS) r) by solve_Permutation.
    rewrite lookup_insert_Some, S5. split; [intros [[<- [= <- <-]]|[_ Ho]]; tauto|].
    intros [(-> & -> & ->)|Ho]; [by left|right]. split; [|done]. intros <-. revert Ho. apply on_buf_not.
    rewrite !fmap_app, !elem_of_app. tauto.
  - intros b w. rewrite (pending_perm _ (RA ++ RT) r) by solve_Permutation.
    rewrite lookup_insert_Some, S6. split; [intros [[<- [= <-]]|[_ Ho]]; tauto|].
    intros [(-> & ->)|Ho]; [by left|right]. split; [|done]. intros <-. revert Ho. apply pending_not.
    rewrite fmap_app, elem_of_app. tauto.
  - intros b w. rewrite lookup_insert_Some, S7. split; [intros [[_ [=]]|[_ Ho]]; done|].
    intros Ho. right. split; [|done]. intros <-. revert Ho. apply pending_not. rewrite fmap_app, elem_of_app. tauto.
Qed.

Lemma sim_finish s s' W a RA RT RU S1 S2 r :
  sim_lists s W a RA RT RU (S1 ++ r :: S2) -> vinv false s' RA RT RU (S1 ++ S2) -> same_data s s' ->
  sim_lists s' (delete (r_b r) W) (mkAd (ad_store a) (ad_no a) (ad_data a) (delete (r_b r) (ad_req a))) RA RT RU (S1 ++ S2).
Proof.
  intros Hs Hv (D1 & D2 & D3). pose proof (sim_bufs _ _ _ _ _ _ _ Hs) as Hn. destruct Hs as [S1' S2' S3 S4 S5 S6 S7].
  assert (Hb : r_b r ∉ r_b <$> RA ++ RT ++ RU ++ S1 ++ S2).
  { assert (HP : RA ++ RT ++ RU ++ S1 ++ r :: S2 ≡ₚ r :: RA ++ RT ++ RU ++ S1 ++ S2) by solve_Permutation.
    apply (fmap_Permutation r_b) in HP. rewrite HP in Hn. cbn in Hn. by apply NoDup_cons in Hn as [Hn _]. }
  rewrite !fmap_app, !elem_of_app in Hb.
  split; cbn [ad_store ad_no ad_data ad_req]; try congruence.
  - intros b h w. rewrite lookup_delete_Some, S5, (on_buf_perm _ (RA ++ RT ++ RU ++ S1 ++ S2) r) by solve_Permutation.
    split; [intros [Hne [[-> _]|Ho]]; done|]. intros Ho. split; [|by right]. intros <-. revert Ho. apply on_buf_not.
    rewrite !fmap_app, !elem_of_app. tauto.
  - intros b w. rewrite lookup_delete_Some, S6. split; [tauto|]. intros Ho. split; [|done]. intros <-. revert Ho.
    apply pending_not. rewrite fmap_app, elem_of_app. tauto.
  - intros b w. rewrite lookup_delete_Some, S7, (pending_perm _ (RU ++ S1 ++ S2) r) by solve_Permutation.
    split; [intros [Hne [[-> _]|Ho]]; done|]. intros Ho. split; [|by right]. intros <-. revert Ho. apply pending_not.
    rewrite !fmap_app, !elem_of_app. tauto.
Qed.

Lemma sim_transfer s s' W a RA RT RU RS i r :
  sim_lists s W a RA RT RU RS -> RT !! i = Some r -> vinv false s' RA (delete i RT) (RU ++ [r]) RS ->
  vb_blockno s' = vb_blockno s ->
  (dv_store s', vb_data s') = moved (r_b r) (r_w r) (vb_blockno s) (dv_store s, vb_data s) ->
  exists a', astep a None a' /\ sim_lists s' W a' RA (delete i RT) (RU ++ [r]) RS.
Proof.
  intros Hs Hi Hv Hno Hm. pose proof (sim_bufs _ _ _ _ _ _ _ Hs) as Hn. destruct Hs as [S1 S2 S3 S4 S5 S6 S7].
  assert (HT : RT ≡ₚ r :: delete i RT) by (by apply delete_Permutation).
  assert (HA : RA ++ RT ≡ₚ r :: (RA ++ delete i RT)) by (rewrite HT at 1; solve_Permutation).
  assert (HR : RA ++ RT ++ RU ++ RS ≡ₚ r :: (RA ++ delete i RT) ++ RU ++ RS) by (rewrite app_assoc, HA at 1; done).
  assert (Hb : r_b r ∉ r_b <$> (RA ++ delete i RT) ++ RU ++ RS).
  { apply (fmap_Permutation r_b) in HR. rewrite HR in Hn. cbn in Hn. by apply NoDup_cons in Hn as [Hn _]. }
  assert (Ht : ad_req a !! r_b r = Some (r_w r, false)).
  { apply S6. rewrite (pending_perm _ _ r _ _ HA). by left. }
  eexists. split; [by apply (as_transfer (r_b r) (r_w r))|].
  rewrite S2, S3, S4, <- Hm. cbn [fst snd]. rewrite fmap_app, elem_of_app in Hb.
  split; cbn [ad_store ad_no ad_data ad_req]; try congruence.
  - intros b h w. rewrite S5. unfold on_buf.
    assert (HR2 : RA ++ delete i RT ++ (RU ++ [r]) ++ RS ≡ₚ RA ++ RT ++ RU ++ RS) by (rewrite HR; solve_Permutation).
    by setoid_rewrite HR2.
  - intros b w. rewrite lookup_insert_Some, S6, (pending_perm _ _ r _ _ HA). split.
    + intros [[_ [=]]|[Hne [[-> _]|Ho]]]; done.
    + intros Ho. right. split; [|by right]. intros <-. revert Ho. apply pending_not. tauto.
  - intros b w. rewrite lookup_insert_Some, S7, (pending_perm ((RU ++ [r]) ++ RS) (RU ++ RS) r) by solve_Permutation. split.
    + intros [[<- [= <-]]|[_ Ho]]; tauto.
    + intros [[-> ->]|Ho]; [by left|right]. split; [|done]. intros <-. revert Ho. apply pending_not. tauto.
Qed.

Lemma sim_client s W a RA RT RU RS b n d :
  sim_lists s W a RA RT RU RS -> W !! b = None -> length d = Z.to_nat BSIZE ->
  sim_lists (set_v_buf (fset (vb_blockno s) b n) (fset (vb_data s) b d) s) W
    (mkAd (ad_store a) (fset (ad_no a) b n) (fset (ad_data a) b d) (ad_req a)) RA RT RU RS.
Proof.
  intros Hs Hw Hd. pose proof Hs as [S1 S2 S3 S4 S5 S6 S7].
  apply (no_wait W _ b S5) in Hw. split; cbn [ad_store ad_no ad_data ad_req]; rewrite ?S3, ?S4; try done.
  destruct S1 as [V1 V2 V3 V4 V5 V6 V7 V8 V9 V10 V11]. split; try done.
  - apply (chains_frame s); try done. intros r Hr. split; [done|]. split; [done|]. cbn. apply fset_ne.
    intros <-. destruct Hw. by apply list_elem_of_fmap_2.
  - intros b'. cbn. unfold fset. by destruct (_ =? _).
Qed.

(** A call that waits belongs to a request, at one of two stages. *)
Lemma wait_cases s W a RA RT RU RS b h w :
  sim_lists s W a RA RT RU RS -> W !! b = Some (h, w) ->
  exists r, r_b r = b /\ r_h r = h /\ r_w r = w /\ (r ∈ RA ++ RT ++ RU \/ exists S1 S2, RS = S1 ++ r :: S2).
Proof.
  intros Hs Hw. apply (sm_wait _ _ _ _ _ _ _ Hs) in Hw as (r & Hr & E1 & E2 & E3). exists r. split_and!; try done.
  rewrite !elem_of_app in *. destruct Hr as [Hr|[Hr|[Hr|Hr]]]; [tauto|tauto|tauto|right].
  by apply list_elem_of_split in Hr.
Qed.

Lemma sim_step x l y a :
  vstep x l y -> sim x.1 x.2 a ->
  exists a', (astep a l a' \/ l = None /\ a' = a) /\ sim y.1 y.2 a'.
Proof.
  intros Hstep (RA & RT & RU & RS & Hs). pose proof (sm_inv _ _ _ _ _ _ _ Hs) as Hv.
  destruct Hstep as [b w h s s' W Hw Hno He|b w s s' W Hw Hno He|b h h' w s s' W Hw He|b h w s s' W Hw He
                    |s s' W He|s s' W He|i s s' W He|b n d s W Hw Hd]; cbn [fst snd] in *.
  - pose proof Hw as Hb. apply (no_wait W _ b (sm_wait _ _ _ _ _ _ _ Hs)) in Hb.
    refine (wp_result _ (fun r s' => match r with SleepBuf h => _ | _ => True end) _ _ _ _ He).
    eapply wp_submit; [done|done|done|done|]. intros s1 r <- <- Hv1 Hd1.
    eexists. split; [left; apply as_submit; by apply (sim_none s W a RA RT RU RS)|].
    exists (RA ++ [r]), RT, RU, RS. by eapply sim_submit.
  - pose proof Hw as Hb. apply (no_wait W _ b (sm_wait _ _ _ _ _ _ _ Hs)) in Hb. exists a. split; [by right|].
    refine (wp_result _ (fun r s' => match r with SleepFree => sim s' W a | _ => True end) _ _ _ _ He).
    eapply wp_submit; [done|done|done| |done]. intros s1 Hv1 Hd1. exists RA, RT, RU, RS. by eapply sim_stutter.
  - exists a. split; [by right|]. destruct (wait_cases _ _ _ _ _ _ _ _ _ _ Hs Hw) as (r & <- & <- & <- & [Hr|(S1 & S2 & ->)]).
    + refine (wp_result _ (fun r s' => match r with SleepBuf _ => sim s' W a | _ => True end) _ _ _ _ He).
      eapply wp_resume_busy; [done|done|]. intros s1 Hv1 Hd1. exists RA, RT, RU, RS. by eapply sim_stutter.
    + refine (wp_result _ (fun r s' => match r with RwDone => True | _ => sim s' W a end) _ _ _ _ He).
      by eapply wp_resume_done.
  - destruct (wait_cases _ _ _ _ _ _ _ _ _ _ Hs Hw) as (r & <- & <- & <- & [Hr|(S1 & S2 & ->)]).
    + exfalso. refine (wp_result _ (fun r s' => match r with RwDone => False | _ => True end) _ _ _ _ He).
      by eapply wp_resume_busy.
    + eexists. split; [left; apply (as_finish _ (r_w r)); apply (sm_done _ _ _ _ _ _ _ Hs)|].
      { exists r. rewrite !elem_of_app, elem_of_cons. tauto. }
      refine (wp_result _ (fun r' s' => match r' with RwDone => sim s' _ _ | _ => True end) _ _ _ _ He).
      eapply wp_resume_done; [done|]. intros s1 Hv1 Hd1. exists RA, RT, RU, (S1 ++ S2). by eapply sim_finish.
  - exists a. split; [by right|]. refine (wp_result _ (fun _ s' => sim s' W a) _ _ _ _ He).
    eapply wp_intr; [done|]. intros s1 Hv1 Hd1. exists RA, RT, [], (RS ++ RU). eapply sim_stutter; try done. solve_Permutation.
  - exists a. split; [by right|]. destruct (take_spec _ _ _ _ _ _ Hv He) as (r & RA' & -> & Hv1 & Hd1).
    exists RA', (RT ++ [r]), RU, RS. eapply sim_stutter; try done. solve_Permutation.
  - destruct (RT !! i) as [r|] eqn:Hi.
    + destruct (done_spec s i r RA RT RU RS Hv Hi) as (s1 & He1 & Hv1 & Hn1 & Hm1).
      assert (s1 = s') as -> by congruence. destruct (sim_transfer _ _ _ _ _ _ _ _ _ _ Hs Hi Hv1 Hn1 Hm1) as (a' & Ha & Hs').
      exists a'. split; [by left|]. by exists RA, (delete i RT), (RU ++ [r]), RS.
    + exfalso. unfold dev_done in He. by rewrite (vi_taken _ _ _ _ _ _ Hv), list_lookup_fmap, Hi in He.
  - eexists. split; [left; apply as_client; [by apply (sim_none s W a RA RT RU RS)|done]|].
    exists RA, RT, RU, RS. by apply sim_client.
Qed.

Lemma sim_runs s0 W0 a0 tr s W :
  runs vstep (s0, W0) tr (s, W) -> sim s0 W0 a0 -> exists a, runs astep a0 tr a /\ sim s W a.
Proof.
  intros Hr H0. remember (s0, W0) as x. remember (s, W) as y.
  assert (Hx : sim x.1 x.2 a0) by (by subst). clear H0. enough (He : exists a, runs astep a0 tr a /\ sim y.1 y.2 a) by (by subst).
  clear Heqx Heqy. induction Hr as [x|x y z tr _ IH Hst|x y z tr e _ IH Hst].
  - exists a0. split; [constructor|done].
  - destruct (IH Hx) as (a & Ha & Hs). destruct (sim_step _ _ _ _ Hst Hs) as (a' & [Hst'|[_ ->]] & Hs').
    + exists a'. split; [by eapply runs_tau|done].
    + by exists a.
  - destruct (IH Hx) as (a & Ha & Hs). destruct (sim_step _ _ _ _ Hst Hs) as (a' & [Hst'|[[=] _]] & Hs').
    exists a'. split; [by eapply runs_event|done].
Qed.

(** ** virtio_disk_init() *)

Lemma wlp_kvm_disk {A} (m : M kst A) (Q : A -> vdisk -> Prop) R s :
  (forall a v, Q a (set_v_vm v s)) -> (forall v, R (set_v_vm v s)) -> wlp (zoom v_kvm m) Q R s.
Proof. intros HQ HR. unfold wlp, zoom. destruct (m (lget v_kvm s)); (done || apply HQ || apply HR). Qed.

(** What initialisation leaves. *)
Record vready (s s' : vdisk) : Prop := {
  rd_lock : vd_lock s' = false;
  rd_avail : vd_avail_idx s' = 0 /\ vd_avail s' = replicate (Z.to_nat NUM) 0;
  rd_used : vd_used_dev s' = 0 /\ vd_used s' = replicate (Z.to_nat NUM) 0;
  rd_free : forall i, 0 <= i < NUM -> vd_free s' i = 1;
  rd_same : same_data s s' /\ vd_used_idx s' = vd_used_idx s /\ dv_last s' = dv_last s /\ dv_taken s' = dv_taken s /\
            vb_disk s' = vb_disk s;
}.

Lemma init_free s :
  wlp (for_each (seqZ 0 NUM) (fun i => put_free i 1))
    (fun _ s' => exists f, s' = set_v_free f s /\ forall i, 0 <= i < NUM -> f i = 1) (fun _ => False) s.
Proof.
  eapply (wlp_for_each (fun dn _ s' => exists f, s' = set_v_free f s /\ forall i, 0 <= i < Z.of_nat (length dn) -> f i = 1)).
  - exists (vd_free s). split; [by destruct s|]. cbn. lia.
  - intros dn i todo s' He (f' & -> & Hf). destruct (seqZ_split _ _ _ _ He) as [Hi Hr]. unfold put_free. wlp_steps.
    eexists. split; [reflexivity|]. intros j Hj. rewrite length_app in Hj. cbn in Hj. cbn. unfold fset.
    destruct (Z.eqb_spec j i); [done|]. apply Hf. lia.
  - intros s' (f' & -> & Hf). exists f'. split; [done|]. intros i Hi. apply Hf. by rewrite length_seqZ, Z2Nat.id.
Qed.

(** The states up to the setting up of the queue, and from there on, up to
    register writes. *)
Definition booting (s s1 : vdisk) : Prop := exists w r v, s1 = set_v_out w r (set_v_vm v (set_v_lock false s)).
Definition queued (s s1 : vdisk) : Prop :=
  exists w r v f, s1 = set_v_out w r (set_v_free f (set_v_used 0 (replicate (Z.to_nat NUM) 0)
    (set_v_avail 0 (replicate (Z.to_nat NUM) 0) (set_v_desc (fun _ => zero_desc) (set_v_vm v (set_v_lock false s)))))).

Lemma wlp_R_write (P : vdisk -> Prop) r v (Q : unit -> vdisk -> Prop) R s1 :
  (forall s w r, P s -> P (set_v_out w r s)) -> P s1 -> (forall s2, P s2 -> Q tt s2) -> wlp (R_write r v) Q R s1.
Proof. intros Hst H1 HQ. unfold R_write. wlp_step. apply HQ, Hst, H1. Qed.
Lemma booting_out s s1 w r : booting s s1 -> booting s (set_v_out w r s1).
Proof. intros (w' & r' & v & ->). by exists w, r, v. Qed.
Lemma queued_out s s1 w r : queued s s1 -> queued s (set_v_out w r s1).
Proof. intros (w' & r' & v & f & ->). by exists w, r, v, f. Qed.

Lemma wlp_kalloc_disk s (Q : Z -> vdisk -> Prop) R s1 :
  booting s s1 -> (forall a s2, booting s s2 -> Q a s2) -> (forall s2, R s2) -> wlp (zoom v_kvm kalloc) Q R s1.
Proof. intros (w & r & v & ->) HQ HR. apply wlp_kvm_disk; [|done]. intros a v'. apply HQ. by exists w, r, v'. Qed.

Ltac boot s := wlp_step; apply (wlp_R_write (booting s)); [apply booting_out|done|clear; intros ? ?].
Ltac queue s := wlp_step; apply (wlp_R_write (queued s)); [apply queued_out|done|clear; intros ? ?].

Lemma init_queue s desc avail used status s1 :
  queued s s1 ->
  wlp (R_write VIRTIO_MMIO_QUEUE_NUM NUM ;;;
       R_write VIRTIO_MMIO_QUEUE_DESC_LOW desc ;;;
       R_write VIRTIO_MMIO_QUEUE_DESC_HIGH (Z.shiftr desc 32) ;;;
       R_write VIRTIO_MMIO_DRIVER_DESC_LOW avail ;;;
       R_write VIRTIO_MMIO_DRIVER_DESC_HIGH (Z.shiftr avail 32) ;;;
       R_write VIRTIO_MMIO_DEVICE_DESC_LOW used ;;;
       R_write VIRTIO_MMIO_DEVICE_DESC_HIGH (Z.shiftr used 32) ;;;
       R_write VIRTIO_MMIO_QUEUE_READY 0x1 ;;;
       for_each (seqZ 0 NUM) (fun i => put_free i 1) ;;;
       R_write VIRTIO_MMIO_STATUS status) (fun _ s' => vready s s') (fun _ => True) s1.
Proof.
  intros Hq. do 8 queue s. wlp_step. eapply wlp_mono; [apply init_free| |done]. intros [] s3 (f & -> & Hf).
  match goal with H : queued s ?x |- _ => destruct H as (w & r & v & f' & ->) end. unfold R_write. wlp_step. by split.
Qed.

Lemma init_spec s : wlp (virtio_disk_init mm_read) (fun _ s' => vready s s') (fun _ => True) s.
Proof.
  unfold virtio_disk_init, R_read. wlp_steps. case_match; [done|].
  assert (Hb0 : booting s (lset vdisk_lock false s)) by (by exists (vd_woken s), (vd_regs s), (vd_vm s)).
  do 3 boot s. do 2 wlp_step. do 2 boot s. do 2 wlp_step. case_match; [done|]. boot s. do 2 wlp_step.
  case_match; [done|]. do 2 wlp_step. case_match; [done|]. case_match; [done|].
  wlp_step. apply (wlp_kalloc_disk s); [done|clear|done]. intros desc s5 H5.
  wlp_step. apply (wlp_kalloc_disk s); [done|clear|done]. intros avail s6 H6.
  wlp_step. apply (wlp_kalloc_disk s); [done|clear|done]. intros used s7 (w & r & v & ->).
  case_match; [done|]. do 6 wlp_step. apply init_queue. by exists w, r, v, (vd_free s).
Qed.

Lemma ready_sim s s' : vstart s -> vready s s' -> sim s' ∅ (adisk_of s').
Proof.
  intros [T1 [T2 T3] T4 T5] [R1 [R2 R3] [R4 R5] R6 ((D1 & D2 & D3) & E1 & E2 & E3 & E4)].
  exists [], [], [], []. split; try done.
  - split; try done.
    + rewrite R2, E2, T2. apply (rcont_nil NUM (2 ^ 16) num_range num_divides).
    + by rewrite R3.
    + by rewrite E3, T3.
    + rewrite R4, E1, T1. apply (rcont_nil NUM (2 ^ 16) num_range num_divides).
    + by rewrite R5.
    + rewrite R2, R4, E1, E2, T1, T2. done.
    + cbn [app]. split; cbn [mbind list_bind fmap list_fmap]; [apply NoDup_nil_2|by intros i ?%elem_of_nil| |apply NoDup_nil_2|by intros r ?%elem_of_nil].
      intros i Hi. rewrite R6 by done. by rewrite decide_False by apply not_elem_of_nil.
    + intros b. rewrite E4, T4. by rewrite decide_False by apply not_elem_of_nil.
    + by intros r ?%elem_of_nil.
    + intros b. by rewrite D1.
  - intros b h w. rewrite lookup_empty. split; [done|]. intros (r & ?%elem_of_nil & _). done.
  - intros b w. cbn. rewrite lookup_empty. split; [done|]. intros (r & ?%elem_of_nil & _). done.
  - intros b w. cbn. rewrite lookup_empty. split; [done|]. intros (r & ?%elem_of_nil & _). done.
Qed.

(** C18. The disk driver behaves as a disk that does every transfer at once: for
    every interleaving of calls of virtio_disk_rw(), sleeps, interrupts and steps of the
    device, which may complete requests in any order, there is a run of the
    disk with the same submissions and returns, the same contents and the same
    buffers.  In particular virtio_disk_rw() returns only after its own transfer, of the
    right block in the right direction, and a buffer is not touched outside
    its request. *)
Theorem disk_driver_refines s s0 tr s1 W :
  vstart s -> virtio_disk_init mm_read s = Ok tt s0 -> runs vstep (s0, ∅) tr (s1, W) ->
  exists a, runs astep (adisk_of s0) tr a /\ ad_store a = dv_store s1 /\ ad_data a = vb_data s1 /\
    forall b, ad_req a !! b = None <-> W !! b = None.
Proof.
  intros Hst Hi Hr. pose proof (ready_sim _ _ Hst (wlp_ok _ _ _ _ _ _ (init_spec s) Hi)) as H0.
  destruct (sim_runs _ _ _ _ _ _ Hr H0) as (a & Ha & RA & RT & RU & RS & Hs). exists a. split; [done|].
  split; [by apply Hs|]. split; [by apply Hs|]. intros b. symmetry. by eapply sim_none.
Qed.

End Sim.

(** * A concrete run *)

Module VirtioDemo.
(** qemu's answers. *)
Definition mm0 (log : list (Z * Z)) (r : Z) : Z :=
  if r =? VIRTIO_MMIO_MAGIC_VALUE then 0x74726976
  else if r =? VIRTIO_MMIO_VERSION then 2
  else if r =? VIRTIO_MMIO_DEVICE_ID then 2
  else if r =? VIRTIO_MMIO_VENDOR_ID then 0x554d4551
  else if r =? VIRTIO_MMIO_STATUS then 11
  else if r =? VIRTIO_MMIO_QUEUE_NUM_MAX then 1024
  else 0.

Definition page (i : Z) : Z := 0x80100000 + i * PGSIZE.
Definition vm0 : kst := mkKst (store64 (store64 (fun _ => 0) (page 0) (page 1)) (page 1) (page 2)) (page 0) false.
Definition v0 : vdisk :=
  mkVd (fun _ => zero_desc) 0 [] 0 [] (fun _ => 0) 0 (fun _ => NULLB) (fun _ => 0) (fun _ => mkReq 0 0 0) false
    (fun _ => 0) (fun _ => 7) (fun _ => replicate (Z.to_nat BSIZE) 42) (fun _ => 0) 0 [] [] [] vm0.

Definition v1 : vdisk := run_st v0 (virtio_disk_init mm0 v0).
Definition v2 : vdisk := run_st v0 (virtio_disk_rw 0 true v1).
Definition v3 : vdisk := default v0 (dev_take v2).
Definition v4 : vdisk := default v0 (dev_done 0 v3).
Definition v5 : vdisk := run_st v0 (virtio_disk_intr mm0 v4).
Definition v6 : vdisk := run_st v0 (virtio_disk_rw_resume 0 0 v5).

Lemma v1_ok : run_val (virtio_disk_init mm0 v0) = Some tt.
Proof. vm_compute. reflexivity. Qed.
Lemma v2_ok : run_val (virtio_disk_rw 0 true v1) = Some (SleepBuf 0).
Proof. vm_compute. reflexivity. Qed.
Definition is_some {A} (o : option A) : bool := match o with Some _ => true | None => false end.
Lemma is_some_eq {A} (d : A) o : is_some o = true -> o = Some (default d o).
Proof. by destruct o. Qed.
Lemma v3_ok : is_some (dev_take v2) = true.
Proof. vm_compute. reflexivity. Qed.
Lemma v4_ok : is_some (dev_done 0 v3) = true.
Proof. vm_compute. reflexivity. Qed.
Lemma v5_ok : run_val (virtio_disk_intr mm0 v4) = Some tt.
Proof. vm_compute. reflexivity. Qed.
Lemma v6_ok : run_val (virtio_disk_rw_resume 0 0 v5) = Some RwDone.
Proof. vm_compute. reflexivity. Qed.

Lemma v1_eq : virtio_disk_init mm0 v0 = Ok tt v1.
Proof. unfold v1. exact (run_eq v0 (virtio_disk_init mm0 v0) tt v1_ok). Qed.
Lemma v0_start : vstart v0.
Proof. by split. Qed.

(** Write block 7 from buffer 0. *)
Lemma demo_runs : runs (vstep mm0) (v1, ∅) [Submit 0 true; Finish 0] (v6, delete 0 (<[0 := (0, true)]> ∅)).
Proof.
  apply (runs_event _ _ (v5, <[0 := (0, true)]> ∅) _ [Submit 0 true] (Finish 0)).
  - apply (runs_tau _ _ (v4, <[0 := (0, true)]> ∅)).
    2: { apply vs_intr. unfold v5. exact (run_eq v0 (virtio_disk_intr mm0 v4) tt v5_ok). }
    apply (runs_tau _ _ (v3, <[0 := (0, true)]> ∅)).
    2: { apply (vs_done _ 0). unfold v4. exact (is_some_eq v0 (dev_done 0 v3) v4_ok). }
    apply (runs_tau _ _ (v2, <[0 := (0, true)]> ∅)).
    2: { apply vs_take. unfold v3. exact (is_some_eq v0 (dev_take v2) v3_ok). }
    apply (runs_event _ _ (v1, ∅) _ [] (Submit 0 true)); [apply runs_nil|].
    apply vs_submit; [done|vm_compute; done|]. unfold v2. exact (run_eq v0 (virtio_disk_rw 0 true v1) (SleepBuf 0) v2_ok).
  - apply (vs_finish _ 0 0 true); [apply lookup_insert_eq|]. unfold v6.
    exact (run_eq v0 (virtio_disk_rw_resume 0 0 v5) RwDone v6_ok).
Qed.
End VirtioDemo.

Lemma disk_driver_refines_witness :
  exists a, runs astep (adisk_of VirtioDemo.v1) [Submit 0 true; Finish 0] a /\
    ad_store a = dv_store VirtioDemo.v6 /\ ad_data a = vb_data VirtioDemo.v6.
Proof.
  destruct (disk_driver_refines VirtioDemo.mm0 VirtioDemo.v0 VirtioDemo.v1 _ _ _ VirtioDemo.v0_start
              VirtioDemo.v1_eq VirtioDemo.demo_runs) as (a & H1 & H2 & H3 & _).
  exists a. exact (conj H1 (conj H2 H3)).
Defined.

