(* ===== verification/Trap.v ===== *)
(** Traps: kernel/trap.c and kernel/plic.c.

    [mach] is the machine as the trap code sees it: the kernel state, the
    registers of the hart that runs, the console, the disk and the interrupt controller, which
    hands out the interrupts [mc_irq] one by one (0 when there is none) and
    records the writes to its registers.

    The handlers of the console and of the disk record the channels they wake;
    [run_con] and [run_disk] pass them on to wakeup().  A handler neither reads
    process states nor sleeps, so waking at its end is the same as waking where
    the code does.

    A trap that gives up the CPU ends in the [Block] of sched();
    [usertrap_resume] and [kerneltrap_resume] are the code behind yield().
    The addresses the linker gives to assembly code are parameters. *)

From S2P Require Import Prelude Ring Riscv CString Kalloc Vm Sleeplock Fields BlockCache Log Fs Pipe File Proc Exec Syscall Console Virtio.

Record mach : Type := mkMach {
  mc_k : kern;
  mc_hart : hart;
  mc_con : con;
  mc_disk : vdisk;
  mc_irq : list Z;
  mc_plic : list (Z * Z);
}.
Definition kernL : lens mach kern :=
  mkLens mc_k (fun v s => mkMach v (mc_hart s) (mc_con s) (mc_disk s) (mc_irq s) (mc_plic s)).
Definition hartL : lens mach hart :=
  mkLens mc_hart (fun v s => mkMach (mc_k s) v (mc_con s) (mc_disk s) (mc_irq s) (mc_plic s)).
Definition conL : lens mach con :=
  mkLens mc_con (fun v s => mkMach (mc_k s) (mc_hart s) v (mc_disk s) (mc_irq s) (mc_plic s)).
Definition diskL : lens mach vdisk :=
  mkLens mc_disk (fun v s => mkMach (mc_k s) (mc_hart s) (mc_con s) v (mc_irq s) (mc_plic s)).

Definition clear_con (k : con) : con := mkCon (cn_cons k) (cn_uart k) (cn_vm k) [] (cn_panicked k) (cn_dumps k).
Definition clear_disk (d : vdisk) : vdisk := set_v_out [] (vd_regs d) d.

(** * kernel/plic.c *)

Definition cpuid : M mach Z := let! id := zoom hartL r_tp in ret (i32 id).
Definition plic_write (a v : Z) : M mach unit :=
  modify (fun s => mkMach (mc_k s) (mc_hart s) (mc_con s) (mc_disk s) (mc_irq s) (mc_plic s ++ [(a, u32 v)])).

Definition plicinit : M mach unit :=
  (* set desired IRQ priorities non-zero (otherwise disabled) *)
  plic_write (PLIC + UART0_IRQ * 4) 1 ;;;
  plic_write (PLIC + VIRTIO0_IRQ * 4) 1.

Definition plicinithart : M mach unit :=
  let! h := cpuid in
  (* set enable bits for this hart's S-mode for the uart and virtio disk *)
  plic_write (PLIC_SENABLE h) (Z.lor (Z.shiftl 1 UART0_IRQ) (Z.shiftl 1 VIRTIO0_IRQ)) ;;;
  (* set this hart's S-mode priority threshold to 0 *)
  plic_write (PLIC_SPRIORITY h) 0.

(** Ask the PLIC what interrupt we should serve: a read of PLIC_SCLAIM. *)
Definition plic_claim : M mach Z :=
  let! _ := cpuid in
  let! irq := gets mc_irq in
  match irq with
  | [] => ret 0
  | i :: irq =>
      modify (fun s => mkMach (mc_k s) (mc_hart s) (mc_con s) (mc_disk s) irq (mc_plic s)) ;;;
      ret (i32 i)
  end.

(** Tell the PLIC we've served this IRQ. *)
Definition plic_complete (irq : Z) : M mach unit :=
  let! h := cpuid in
  plic_write (PLIC_SCLAIM h) irq.

(** * kernel/trap.c *)

Section Trap.
Context `{Image}.
Context (devsw : Z -> devops ftab).
Context (proc_addr : Z -> Z) (forkret_addr ticks_addr : Z) (pad : list Z).
Context (con_chan : Z -> Z) (disk_chan : vchan -> Z).
Context (mm_read : list (Z * Z) -> Z -> Z).
Context (kernelvec trampoline uservec userret usertrap_addr : Z).
Context (c : Z).                    (** the CPU *)

Definition run_con {A} (m : M con A) : M mach A :=
  modify (fun s => lset conL (clear_con (mc_con s)) s) ;;;
  let! a := zoom conL m in
  let! chans := gets (fun s => rev (cn_woken (mc_con s))) in
  for_each chans (fun ch => zoom kernL (wakeup c (con_chan ch))) ;;;
  ret a.
Definition run_disk {A} (m : M vdisk A) : M mach A :=
  modify (fun s => lset diskL (clear_disk (mc_disk s)) s) ;;;
  let! a := zoom diskL m in
  let! chans := gets (fun s => rev (vd_woken (mc_disk s))) in
  for_each chans (fun ch => zoom kernL (wakeup c (disk_chan ch))) ;;;
  ret a.
(** A line printed, recorded by its format. *)
Definition say (msg : string) : M mach unit := zoom kernL (zoom kfs (printf_line msg)).

Definition trapinit : M mach unit := modify (fun s => lset kernL (lset tickslock false (mc_k s)) s).

(** Set up to take exceptions and traps while in the kernel. *)
Definition trapinithart : M mach unit := zoom hartL (w_stvec kernelvec).

Definition clockintr : M kern unit :=
  acquire_ c tickslock ;;;
  modify (fun s => put_ticks (u32 (kn_ticks s + 1)) s) ;;;
  wakeup c ticks_addr ;;;
  release_ c tickslock.

(** 2 if timer interrupt, 1 if other device, 0 if not recognized. *)
Definition devintr : M mach Z :=
  let! scause := zoom hartL r_scause in
  if negb (Z.land scause 0x8000000000000000 =? 0) && (Z.land scause 0xff =? 9) then
    (* this is a supervisor external interrupt, via PLIC *)
    let! irq := plic_claim in
    (if irq =? UART0_IRQ then run_con uartintr
     else if irq =? VIRTIO0_IRQ then run_disk (virtio_disk_intr mm_read)
     else if negb (irq =? 0) then say "unexpected interrupt irq=%d"
     else ret tt) ;;;
    (* tell the PLIC the device is now allowed to interrupt again *)
    (if negb (irq =? 0) then plic_complete irq else ret tt) ;;;
    ret 1
  else if scause =? 0x8000000000000001 then
    (* software interrupt from a machine-mode timer interrupt *)
    let! id := cpuid in
    (if id =? 0 then zoom kernL clockintr else ret tt) ;;;
    (* acknowledge the software interrupt by clearing the SSIP bit in sip *)
    let! sip := zoom hartL r_sip in
    zoom hartL (w_sip (Z.land sip (Z.lnot 2))) ;;;
    ret 2
  else ret 0.

(** Return to user space: where it jumps, and with which satp. *)
Definition usertrapret : M mach (Z * Z) :=
  let! p := zoom kernL (myproc c) in
  (* turn off interrupts until we're back in user space *)
  zoom hartL intr_off ;;;
  (* send syscalls, interrupts, and exceptions to uservec in trampoline.S *)
  let trampoline_uservec := u64 (TRAMPOLINE + (uservec - trampoline)) in
  zoom hartL (w_stvec trampoline_uservec) ;;;
  (* set up trapframe values that uservec will need *)
  let! satp := zoom hartL r_satp in
  zoom kernL (tf_put p kernel_satp satp) ;;;
  let! kstack := zoom kernL (pget p_kstack p) in
  zoom kernL (tf_put p kernel_sp (kstack + PGSIZE)) ;;;
  zoom kernL (tf_put p kernel_trap usertrap_addr) ;;;
  let! tp := zoom hartL r_tp in
  zoom kernL (tf_put p kernel_hartid tp) ;;;
  (* set S Previous Privilege mode to User *)
  let! x := zoom hartL r_sstatus in
  let x := Z.land x (Z.lnot SSTATUS_SPP) in
  let x := Z.lor x SSTATUS_SPIE in
  zoom hartL (w_sstatus x) ;;;
  (* set S Exception Program Counter to the saved user pc *)
  let! pc := zoom kernL (tf_get p epc) in
  zoom hartL (w_sepc pc) ;;;
  (* tell trampoline.S the user page table to switch to *)
  let! pagetable := zoom kernL (pget p_pagetable p) in
  let satp := MAKE_SATP pagetable in
  let trampoline_userret := u64 (TRAMPOLINE + (userret - trampoline)) in
  ret (trampoline_userret, satp).

(** The end of usertrap(), which gives up the CPU on a timer interrupt. *)
Definition usertrap_end (p which_dev : Z) : M mach (Z * Z) :=
  let! k := zoom kernL (killed c p) in
  (if negb (k =? 0) then zoom kernL (exit proc_addr c (-1)) else ret tt) ;;;
  (if which_dev =? 2 then zoom kernL (yield c) else ret tt) ;;;
  usertrapret.
Definition usertrap_resume : M mach (Z * Z) :=
  zoom kernL (yield_resume c) ;;;
  usertrapret.

(** Handle an interrupt, exception, or system call from user space. *)
Definition usertrap : M mach (Z * Z) :=
  let! sstatus := zoom hartL r_sstatus in
  if negb (Z.land sstatus SSTATUS_SPP =? 0) then panic "usertrap: not from user mode"
  else
    (* send interrupts and exceptions to kerneltrap() *)
    zoom hartL (w_stvec kernelvec) ;;;
    let! p := zoom kernL (myproc c) in
    (* save user program counter *)
    let! sepc := zoom hartL r_sepc in
    zoom kernL (tf_put p epc sepc) ;;;
    let! scause := zoom hartL r_scause in
    let! which_dev :=
      if scause =? 8 then
        (* system call *)
        let! k := zoom kernL (killed c p) in
        (if negb (k =? 0) then zoom kernL (exit proc_addr c (-1)) else ret tt) ;;;
        (* return to the instruction after the ecall *)
        let! pc := zoom kernL (tf_get p epc) in
        zoom kernL (tf_put p epc (pc + 4)) ;;;
        (* enable interrupts only now that we're done with sepc, scause and sstatus *)
        zoom hartL intr_on ;;;
        zoom kernL (syscall devsw proc_addr forkret_addr ticks_addr c pad) ;;;
        ret 0
      else
        let! which_dev := devintr in
        if negb (which_dev =? 0) then ret which_dev
        else
          say "usertrap(): unexpected scause %p pid=%d" ;;;
          say "            sepc=%p stval=%p" ;;;
          zoom kernL (setkilled c p) ;;;
          ret 0 in
    usertrap_end p which_dev.

(** Interrupts and exceptions from kernel code. *)
Definition kerneltrap : M mach unit :=
  let! sepc := zoom hartL r_sepc in
  let! sstatus := zoom hartL r_sstatus in
  if Z.land sstatus SSTATUS_SPP =? 0 then panic "kerneltrap: not from supervisor mode"
  else
    let! on := zoom hartL intr_get in
    if negb (on =? 0) then panic "kerneltrap: interrupts enabled"
    else
      let! which_dev := devintr in
      if which_dev =? 0 then
        say "scause %p" ;;;
        say "sepc=%p stval=%p" ;;;
        panic "kerneltrap"
      else
        (* give up the CPU if this is a timer interrupt *)
        let! p := zoom kernL (myproc c) in
        let! st := zoom kernL (pget p_state p) in
        (if (which_dev =? 2) && negb (p =? NULL) && bool_decide (st = RUNNING) then zoom kernL (yield c) else ret tt) ;;;
        (* restore trap registers for use by kernelvec.S's sepc instruction *)
        zoom hartL (w_sepc sepc) ;;;
        zoom hartL (w_sstatus sstatus).
Definition kerneltrap_resume (sepc sstatus : Z) : M mach unit :=
  zoom kernL (yield_resume c) ;;;
  zoom hartL (w_sepc sepc) ;;;
  zoom hartL (w_sstatus sstatus).
End Trap.
