(* ===== verification/TrapProps.v ===== *)
(** What traps guarantee to user programs. *)

From S2P Require Import Prelude Ring Riscv CString Kalloc Vm Sleeplock Fields BlockCache Log Fs FsAlloc Pipe File Proc ProcInv ProcProps ProcSteps ProcLive ProcWitness Exec Syscall Console ConsoleProps Virtio VirtioSim Trap.

Lemma wlp_zoom {S X A} (L : lens S X) (m : M X A) (Q : A -> S -> Prop) R s :
  wlp m (fun a x => Q a (lset L x s)) (fun x => R (lset L x s)) (lget L s) -> wlp (zoom L m) Q R s.
Proof. unfold wlp, zoom. by destruct (m (lget L s)). Qed.

Lemma wlp_any {S A} (m : M S A) (Q : A -> S -> Prop) R s : noblock m -> (forall a s', Q a s') -> wlp m Q R s.
Proof. intros Hn HQ. unfold wlp. specialize (Hn s). destruct (m s) as [| |ch s'|]; try done. by destruct (Hn ch s'). Qed.

Lemma nb_uartintr : noblock uartintr.
Proof.
  unfold uartintr, uartgetc, read_lsr, read_rhr, consoleintr, erase1, consputc, uartputc_sync, uartstart, write_thr,
    upd_uart, upd_cons, con_wakeup, count_dump, spin. noblock; done.
Qed.
Lemma nb_disk_intr mm_read : noblock (virtio_disk_intr mm_read).
Proof. unfold virtio_disk_intr, R_read, R_write, vwakeup. noblock. Qed.

Section TrapProps.
Context `{Image}.
Context (devsw : Z -> devops ftab).
Context (proc_addr : Z -> Z) (forkret_addr ticks_addr : Z) (pad : list Z).
Context (con_chan : Z -> Z) (disk_chan : vchan -> Z).
Context (mm_read : list (Z * Z) -> Z -> Z).
Context (kernelvec trampoline uservec userret usertrap_addr : Z).
Context (c : Z).

Definition kmem (s : mach) : mem := k_mem (lget kvm (mc_k s)).

(** An interrupt has been handled: the running process, memory and the registers
    are as they were, but for the pending bits. *)
Record handled (s s' : mach) : Prop := {
  hd_inv : pinv (mc_k s');
  hd_cpu : kn_cpu (mc_k s') = kn_cpu (mc_k s);
  hd_me : kn_proc (mc_k s') (kn_cpu (mc_k s) c) = kn_proc (mc_k s) (kn_cpu (mc_k s) c);
  hd_mem : kmem s' = kmem s;
  hd_hart : forall r, r <> SIP -> mc_hart s' r = mc_hart s r;
}.

Lemma handled_refl s : pinv (mc_k s) -> handled s s.
Proof. by split. Qed.
Lemma handled_trans s1 s2 s3 : handled s1 s2 -> handled s2 s3 -> handled s1 s3.
Proof.
  intros [A1 A2 A3 A4 A5] [B1 B2 B3 B4 B5]. split; [done|congruence| |congruence|].
  - rewrite <- A2, B3. by rewrite A2.
  - intros r Hr. by rewrite B5, A5.
Qed.

Lemma wakeup_handled ch s :
  pinv (mc_k s) -> wlp (zoom kernL (wakeup c ch)) (fun _ s' => handled s s') (fun _ => False) s.
Proof.
  intros Hk. apply wlp_zoom. unfold wlp. change (lget kernL s) with (mc_k s).
  pose proof (wakeup_eq c ch (mc_k s) ltac:(apply Hk)) as He. rewrite He. split; cbn; try done.
  - by eapply pinv_wakeup.
  - case_decide; [apply woken_me|done].
Qed.

Lemma wakeups_handled {A} (f : A -> Z) (chans : list A) s0 s :
  handled s0 s ->
  wlp (for_each chans (fun ch => zoom kernL (wakeup c (f ch)))) (fun _ s' => handled s0 s') (fun _ => False) s.
Proof.
  intros Hs. apply (wlp_for_each (fun _ _ s' => handled s0 s')); [done| |done].
  intros dn ch todo s' _ Hh. eapply wlp_mono; [apply wakeup_handled; apply Hh| |done].
  intros [] s''. by apply handled_trans.
Qed.

Lemma run_con_handled {A} (m : M con A) s :
  noblock m -> pinv (mc_k s) -> wlp (run_con con_chan c m) (fun _ s' => handled s s') (fun _ => False) s.
Proof.
  intros Hn Hk. unfold run_con. wlp_steps. apply wlp_zoom. apply wlp_any; [done|]. intros a x. wlp_steps.
  eapply wlp_mono; [apply (wakeups_handled con_chan _ s)|intros [] s' Hs'; by apply wlp_ret|done]. by split.
Qed.
Lemma run_disk_handled {A} (m : M vdisk A) s :
  noblock m -> pinv (mc_k s) -> wlp (run_disk disk_chan c m) (fun _ s' => handled s s') (fun _ => False) s.
Proof.
  intros Hn Hk. unfold run_disk. wlp_steps. apply wlp_zoom. apply wlp_any; [done|]. intros a x. wlp_steps.
  eapply wlp_mono; [apply (wakeups_handled disk_chan _ s)|intros [] s' Hs'; by apply wlp_ret|done]. by split.
Qed.

Lemma say_handled msg s0 s :
  handled s0 s -> wlp (say msg) (fun _ s' => handled s0 s') (fun _ => False) s.
Proof.
  intros Hs. unfold say. apply wlp_zoom, wlp_zoom. unfold printf_line. wlp_steps.
  eapply handled_trans; [exact Hs|]. split; cbn; try done. apply pinv_put_ft, Hs.
Qed.

(** The clock: one tick, and the sleepers on &ticks are woken. *)
Definition ticked (s : kern) : kern :=
  put_procs (fun q => if decide (q ∈ procs) then woken (kn_cpu s c) ticks_addr q (kn_proc s q) else kn_proc s q)
    (put_ticks (u32 (kn_ticks s + 1)) (put_tickslock false s)).

Lemma clockintr_spec s (Q : unit -> kern -> Prop) R :
  unlocked s -> Q tt (ticked s) -> wlp (clockintr ticks_addr c) Q R s.
Proof.
  intros Hu HQ. unfold clockintr. wlp_step. apply wlp_acquire. intros Hl. do 3 wlp_step.
  set (s1 := put_ticks _ _). assert (Hu1 : unlocked s1) by done. unfold wlp at 1. rewrite (wakeup_eq c ticks_addr s1 Hu1).
  apply wlp_release. intros _.
  match goal with |- Q tt ?x => replace x with (ticked s); [done|] end.
  unfold ticked, s1. destruct s as [ft f n pl wl ip cpu nf fi tl t]. cbn in *. subst tl.
  unfold unlockd, lockd, put_procs, put_ticks, put_tickslock, put_noff. cbn. f_equal.
  rewrite fset_fset, fset_eq. replace (nf c + 1 - 1) with (nf c) by lia. symmetry. apply fset_id.
Qed.

Lemma ticked_handled s : pinv (mc_k s) -> handled s (lset kernL (ticked (mc_k s)) s).
Proof.
  intros Hk. split; cbn; try done; [|by rewrite woken_me; case_decide].
  destruct (mc_k s) as [ft f n pl wl ip cpu nf fi tl t].
  pose proof (pinv_wakeup c ticks_addr _ _ Hk (wakeup_eq c ticks_addr _ ltac:(apply Hk))) as Hw.
  destruct Hw as [[] Ht]. by split; [split|].
Qed.

(** Registers, and reads of the kernel state. *)
Lemma wlp_csrr r (Q : Z -> mach -> Prop) R s : Q (mc_hart s r) s -> wlp (zoom hartL (csrr r)) Q R s.
Proof. intros HQ. apply wlp_zoom, wlp_gets. by destruct s. Qed.
Record set_reg (s s' : mach) (r : reg) (v : Z) : Prop := {
  sr_k : mc_k s' = mc_k s;
  sr_reg : mc_hart s' r = u64 v;
  sr_other : forall r', r' <> r -> mc_hart s' r' = mc_hart s r';
}.
Lemma wlp_csrw r v (Q : unit -> mach -> Prop) R s :
  (forall s', set_reg s s' r v -> Q tt s') -> wlp (zoom hartL (csrw r v)) Q R s.
Proof.
  intros HQ. apply wlp_zoom, wlp_modify, HQ. split; cbn; [done|by rewrite decide_True|].
  intros r' Hr. by rewrite decide_False.
Qed.
Lemma wlp_kgets {A} (f : kern -> A) (Q : A -> mach -> Prop) R s : Q (f (mc_k s)) s -> wlp (zoom kernL (gets f)) Q R s.
Proof. intros HQ. apply wlp_zoom, wlp_gets. by destruct s. Qed.

Lemma cpuid_spec (Q : Z -> mach -> Prop) R s : Q (i32 (mc_hart s TP)) s -> wlp cpuid Q R s.
Proof. intros HQ. unfold cpuid. wlp_step. apply wlp_csrr. by wlp_step. Qed.

Lemma claim_spec (Q : Z -> mach -> Prop) R s :
  (forall irq s', mc_k s' = mc_k s -> mc_hart s' = mc_hart s -> Q irq s') -> wlp plic_claim Q R s.
Proof.
  intros HQ. unfold plic_claim. wlp_step. apply cpuid_spec. wlp_steps. destruct (mc_irq s); wlp_steps; by apply HQ.
Qed.

Lemma handled_same s0 s s' : mc_k s' = mc_k s -> mc_hart s' = mc_hart s -> handled s0 s -> handled s0 s'.
Proof. intros Hk Hh [A1 A2 A3 A4 A5]. unfold kmem in *. split; unfold kmem; rewrite ?Hk, ?Hh; done. Qed.

(** What devintr() recognises. *)
Definition external (scause : Z) : bool := negb (Z.land scause 0x8000000000000000 =? 0) && (Z.land scause 0xff =? 9).
Definition timer (scause : Z) : bool := scause =? 0x8000000000000001.
Definition which (scause : Z) : Z := if external scause then 1 else if timer scause then 2 else 0.

Lemma devintr_spec s :
  pinv (mc_k s) ->
  wlp (devintr ticks_addr con_chan disk_chan mm_read c) (fun d s' => d = which (mc_hart s SCAUSE) /\ handled s s')
    (fun _ => False) s.
Proof.
  intros Hk. unfold devintr, which, external, timer. wlp_step. apply wlp_csrr.
  destruct (negb _ && _); [|destruct (mc_hart s SCAUSE =? 0x8000000000000001)].
  - wlp_step. apply claim_spec. intros irq s1 Hk1 Hh1. wlp_step.
    assert (H1 : handled s s1) by (by apply (handled_same s s), handled_refl).
    apply (wlp_mono _ (fun _ s' => handled s s') _ (fun _ => False)); [| |done].
    + case_match; [|case_match; [|case_match]].
      * eapply wlp_mono; [apply run_con_handled; [apply nb_uartintr|by rewrite Hk1]| |done]. intros [] s2. by apply handled_trans.
      * eapply wlp_mono; [apply run_disk_handled; [apply nb_disk_intr|by rewrite Hk1]| |done]. intros [] s2. by apply handled_trans.
      * by apply say_handled.
      * by apply wlp_ret.
    + intros [] s2 H2. wlp_step. case_match.
      * unfold plic_complete, plic_write. wlp_step. apply cpuid_spec. wlp_steps. split; [done|]. by apply (handled_same s s2).
      * by wlp_steps.
  - wlp_step. apply cpuid_spec. wlp_step. apply (wlp_mono _ (fun _ s' => handled s s') _ (fun _ => False)); [| |done].
    + case_match; [|by apply wlp_ret, handled_refl]. apply wlp_zoom. apply clockintr_spec; [apply Hk|]. by apply ticked_handled.
    + intros [] s1 Hs1. wlp_step. apply wlp_csrr. wlp_step. apply wlp_csrw. intros s2 [Hk2 _ Ho2]. wlp_step. split; [done|].
      eapply handled_trans; [exact Hs1|]. destruct Hs1. split; unfold kmem; by rewrite ?Hk2.
  - apply wlp_ret. by split; [|apply handled_refl].
Qed.

(** ** Returning to user space *)

(** A store to memory, and nothing else. *)
Record stored (s s' : mach) (a v : Z) : Prop := {
  st_mem : kmem s' = store64 (kmem s) a v;
  st_proc : kn_proc (mc_k s') = kn_proc (mc_k s);
  st_cpu : kn_cpu (mc_k s') = kn_cpu (mc_k s);
  st_hart : mc_hart s' = mc_hart s;
  st_inv : pinv (mc_k s) -> pinv (mc_k s');
}.

Lemma tf_put_spec p f v (Q : unit -> mach -> Prop) R s :
  (forall s', stored s s' (p_trapframe (kn_proc (mc_k s) p) + tf_off f) (u64 v) -> Q tt s') ->
  wlp (zoom kernL (tf_put p f v)) Q R s.
Proof.
  intros HQ. apply wlp_zoom. unfold tf_put. wlp_steps. apply wlp_zoom. unfold st64, upd_mem. wlp_steps.
  apply HQ. split; try done. cbn. intros Hk. by apply pinv_put_ft.
Qed.

Lemma tf_get_spec p f (Q : Z -> mach -> Prop) R s :
  Q (load64 (kmem s) (p_trapframe (kn_proc (mc_k s) p) + tf_off f)) s -> wlp (zoom kernL (tf_get p f)) Q R s.
Proof.
  intros HQ. apply wlp_zoom. unfold tf_get. wlp_steps. apply wlp_zoom. unfold ld64. wlp_steps. by destruct s as [[[? ? ? [] ?]] ? ? ? ?].
Qed.

Lemma intr_off_spec (Q : unit -> mach -> Prop) R s :
  (forall s', set_reg s s' SSTATUS (Z.land (mc_hart s SSTATUS) (Z.lnot SSTATUS_SIE)) -> Q tt s') ->
  wlp (zoom hartL intr_off) Q R s.
Proof.
  intros HQ. apply wlp_zoom. unfold intr_off, r_sstatus, w_sstatus, csrr, csrw. wlp_steps. apply HQ.
  split; cbn; [done|by rewrite decide_True|]. intros r' Hr. by rewrite decide_False.
Qed.

Definition me (s : mach) : proc := kn_proc (mc_k s) (kn_cpu (mc_k s) c).
Definition tf_reg (s : mach) (f : tfield) : Z := load64 (kmem s) (p_trapframe (me s) + tf_off f).

(** The hart is about to enter user space in process [p], whose registers are in
    the trap frame: userret runs with its page table, sret goes to [pc] in user mode with
    interrupts on, and the next trap finds its way back to usertrap(). *)
Record to_user (p : proc) (pc : Z) (s : mach) (r : Z * Z) : Prop := {
  tu_jump : r = (u64 (TRAMPOLINE + (userret - trampoline)), MAKE_SATP (p_pagetable p));
  tu_pc : mc_hart s SEPC = pc;
  tu_mode : Z.testbit (mc_hart s SSTATUS) 8 = false;
  tu_spie : Z.testbit (mc_hart s SSTATUS) 5 = true;
  tu_sie : Z.testbit (mc_hart s SSTATUS) 1 = false;
  tu_stvec : mc_hart s STVEC = u64 (TRAMPOLINE + (uservec - trampoline));
  tu_me : p_trapframe (me s) = p_trapframe p;
  tu_satp : tf_reg s kernel_satp = u64 (mc_hart s SATP);
  tu_ksp : tf_reg s kernel_sp = u64 (p_kstack p + PGSIZE);
  tu_ktrap : tf_reg s kernel_trap = u64 usertrap_addr;
  tu_khart : tf_reg s kernel_hartid = u64 (mc_hart s TP);
}.

(** usertrapret() writes memory in these fields of the trap frame only. *)
Definition tf_kernel (tf a : Z) : Prop := tf <= a < tf + 24 \/ tf + 32 <= a < tf + 40.

Lemma sstatus_user x :
  let v := u64 (Z.lor (Z.land (u64 (Z.land x (Z.lnot SSTATUS_SIE))) (Z.lnot SSTATUS_SPP)) SSTATUS_SPIE) in
  Z.testbit v 8 = false /\ Z.testbit v 5 = true /\ Z.testbit v 1 = false.
Proof.
  cbn zeta. unfold u64. rewrite !Z.mod_pow2_bits_low, !Z.lor_spec, !Z.land_spec, !Z.mod_pow2_bits_low, !Z.land_spec,
    !Z.lnot_spec by lia.
  change (Z.testbit SSTATUS_SPP 8) with true. change (Z.testbit SSTATUS_SPIE 8) with false.
  change (Z.testbit SSTATUS_SPIE 5) with true. change (Z.testbit SSTATUS_SIE 1) with true.
  change (Z.testbit SSTATUS_SPIE 1) with false. cbn. by rewrite ?andb_false_r, ?orb_true_r.
Qed.

Definition tf_filled (m : mem) (tf satp ksp hartid : Z) : mem :=
  store64 (store64 (store64 (store64 m (tf + tf_off kernel_satp) (u64 satp)) (tf + tf_off kernel_sp) (u64 ksp))
    (tf + tf_off kernel_trap) (u64 usertrap_addr)) (tf + tf_off kernel_hartid) (u64 hartid).
Lemma tf_filled_other m tf satp ksp hid a : ~ tf_kernel tf a -> tf_filled m tf satp ksp hid a = m a.
Proof. unfold tf_filled, tf_kernel. cbn. intros Ha. by rewrite !store64_other by lia. Qed.
Lemma tf_filled_get m tf satp ksp hid :
  let m' := tf_filled m tf satp ksp hid in
  load64 m' (tf + tf_off kernel_satp) = u64 satp /\ load64 m' (tf + tf_off kernel_sp) = u64 ksp /\
  load64 m' (tf + tf_off kernel_trap) = u64 usertrap_addr /\ load64 m' (tf + tf_off kernel_hartid) = u64 hid /\
  load64 m' (tf + tf_off epc) = load64 m (tf + tf_off epc).
Proof.
  cbn zeta. unfold tf_filled. cbn [tf_off].
  repeat split; repeat first [rewrite load64_store64 by apply u64_range|rewrite load64_store64_ne by lia]; done.
Qed.

Lemma usertrapret_spec s R :
  wlp (usertrapret trampoline uservec userret usertrap_addr c)
    (fun r s' => to_user (me s) (u64 (tf_reg s epc)) s' r /\
       (forall a, ~ tf_kernel (p_trapframe (me s)) a -> kmem s' a = kmem s a) /\
       kn_cpu (mc_k s') = kn_cpu (mc_k s) /\ (pinv (mc_k s) -> pinv (mc_k s'))) R s.
Proof.
  unfold usertrapret, myproc. wlp_step. apply wlp_kgets. wlp_step. apply intr_off_spec. intros s1 [K1 V1 H1].
  wlp_step. apply wlp_csrw. intros s2 [K2 V2 H2]. wlp_step. apply wlp_csrr. wlp_step. apply tf_put_spec.
  intros s3 [M3 P3 C3 H3 I3]. wlp_step. apply wlp_kgets. wlp_step. apply tf_put_spec. intros s4 [M4 P4 C4 H4 I4].
  wlp_step. apply tf_put_spec. intros s5 [M5 P5 C5 H5 I5]. wlp_step. apply wlp_csrr. wlp_step. apply tf_put_spec.
  intros s6 [M6 P6 C6 H6 I6]. wlp_step. apply wlp_csrr. wlp_step. apply wlp_csrw. intros s7 [K7 V7 H7].
  wlp_step. apply tf_get_spec. wlp_step. apply wlp_csrw. intros s8 [K8 V8 H8]. wlp_step. apply wlp_kgets. wlp_step.
  rewrite ?K8, ?K7 in *.
  unfold me, kmem in *. 
  rewrite ?P6, ?P5, ?P4, ?P3, ?K2, ?K1 in *.
  set (x := kn_proc (mc_k s) _) in *.
  assert (Hm : kmem s8 = tf_filled (kmem s) (p_trapframe x) (mc_hart s SATP) (p_kstack x + PGSIZE) (mc_hart s TP)).
  { unfold tf_filled, kmem. rewrite K8, M6, M5, M4, M3, H5, H4, H3. by rewrite !H2, !H1 by done. }
  assert (Hc : kn_cpu (mc_k s6) = kn_cpu (mc_k s)) by congruence.
  assert (Hx : me s8 = x) by (unfold me; by rewrite K8, Hc, P6).
  assert (Ht : forall f, tf_reg s8 f = load64 (kmem s8) (p_trapframe x + tf_off f)) by (intros f; unfold tf_reg; by rewrite Hx).
  assert (Hsat : mc_hart s8 SATP = mc_hart s SATP) by (by rewrite H8, H7, H6, H5, H4, H3, H2, H1).
  assert (Htp : mc_hart s8 TP = mc_hart s TP) by (by rewrite H8, H7, H6, H5, H4, H3, H2, H1).
  assert (Hss : mc_hart s8 SSTATUS = mc_hart s7 SSTATUS) by (by rewrite H8).
  rewrite V7, H6, H5, H4, H3, H2, V1 in Hss by done. pose proof (sstatus_user (mc_hart s SSTATUS)) as (B8 & B5 & B1).
  split; [split; try done|split; [|split; [done|naive_solver]]]; rewrite ?Hss, ?Ht, ?Hm, ?Hsat, ?Htp; try done.
  - rewrite V8, K7, <- K8. f_equal.
    change (load64 (kmem s8) (p_trapframe x + tf_off epc) = load64 (kmem s) (p_trapframe x + tf_off epc)).
    rewrite Hm. apply tf_filled_get.
  - rewrite H8, H7, H6, H5, H4, H3, V2 by done. apply u64_small, u64_range.
  - by rewrite Hx.
  - apply tf_filled_get.
  - apply tf_filled_get.
  - apply tf_filled_get.
  - apply tf_filled_get.
  - intros y Hy. change (kmem s8 y = kmem s y). rewrite Hm. by apply tf_filled_other.
Qed.

(** A process that has exited, or is closing its files on the way. *)
Definition leaving (p : Z) (s : mach) : Prop :=
  p_lock (kn_proc (mc_k s) p) = false \/ p_state (kn_proc (mc_k s) p) = ZOMBIE.

Lemma trap_exit_leaves status (Q : unit -> mach -> Prop) s :
  pinv (mc_k s) -> kn_cpu (mc_k s) c <> NULL ->
  wlp (zoom kernL (exit proc_addr c status)) Q (leaving (kn_cpu (mc_k s) c)) s.
Proof.
  intros [Hq Ht] Hc. apply wlp_zoom. eapply wlp_mono;
    [apply (exit_run proc_addr c status _ (fun a s' => Q a (lset kernL s' s))); [apply Hq|apply Hq|by apply (kt_cpu _ _ _ _ Ht)]|done|].
  intros k [Hl|(_ & ft & x0 & f & x & _ & Hex)]; [by left|right]. cbn. destruct (ex_eq _ _ _ _ _ _ _ Hex) as [ft' ->].
  cbn. rewrite fset_eq. by apply (ex_state _ _ _ _ _ _ _ Hex).
Qed.

(** A process that yields keeps its saved registers. *)
Record paused (s s' : mach) : Prop := {
  pa_state : me s' = set_p_state RUNNABLE (set_p_lock true (me s));
  pa_cpu : kn_cpu (mc_k s') = kn_cpu (mc_k s);
  pa_mem : kmem s' = kmem s;
}.
Lemma yield_pauses (Q : unit -> mach -> Prop) s :
  wlp (zoom kernL (yield c)) Q (fun s' => paused s s') s.
Proof.
  apply wlp_zoom. unfold yield, myproc. wlp_steps. apply wlp_acquire. intros _. wlp_steps. apply sched_spec. intros _ _ _.
  split; unfold me; cbn; [|done|done]. by rewrite !fset_eq.
Qed.

Lemma killed_spec p (Q : Z -> mach -> Prop) R s :
  p_lock (kn_proc (mc_k s) p) = false -> Q (p_killed (kn_proc (mc_k s) p)) s -> wlp (zoom kernL (killed c p)) Q R s.
Proof.
  intros Hl HQ. apply wlp_zoom. unfold wlp. change (lget kernL s) with (mc_k s). rewrite killed_eq by done. by destruct s.
Qed.

Lemma setkilled_spec s (Q : unit -> mach -> Prop) R :
  pinv (mc_k s) ->
  (forall s', pinv (mc_k s') -> kn_cpu (mc_k s') = kn_cpu (mc_k s) -> p_killed (me s') = 1 -> Q tt s') ->
  wlp (zoom kernL (setkilled c (kn_cpu (mc_k s) c))) Q R s.
Proof.
  intros Hk HQ. apply wlp_zoom. unfold setkilled. wlp_step. apply wlp_acquire. intros Hl. wlp_steps. apply wlp_release.
  intros _. rewrite unlock_lock_p by done. apply HQ; cbn; [|done|].
  - apply pinv_upd_soft; [done|done|]. split; [done|done|by left].
  - unfold me. cbn. by rewrite fset_eq.
Qed.

Definition same_mem (P : Z -> Prop) (s s' : mach) : Prop := forall a, ~ P a -> kmem s' a = kmem s a.

(** The end of usertrap(): a killed process exits, a timer interrupt yields, and
    anything else goes back to user space. *)
Lemma end_spec d s :
  pinv (mc_k s) -> kn_cpu (mc_k s) c <> NULL ->
  wlp (usertrap_end proc_addr trampoline uservec userret usertrap_addr c (kn_cpu (mc_k s) c) d)
    (fun r s' => p_killed (me s) = 0 /\ d <> 2 /\ to_user (me s) (u64 (tf_reg s epc)) s' r /\
       same_mem (tf_kernel (p_trapframe (me s))) s s')
    (fun s' => p_killed (me s) = 0 /\ d = 2 /\ paused s s' \/
       p_killed (me s) <> 0 /\ leaving (kn_cpu (mc_k s) c) s') s.
Proof.
  intros Hk Hc. unfold usertrap_end. wlp_step. apply killed_spec; [by apply cpu_lock|]. fold (me s).
  destruct (Z.eqb_spec (p_killed (me s)) 0) as [Hz|Hz]; cbn [negb]; wlp_step.
  - wlp_step. wlp_step. destruct (Z.eqb_spec d 2) as [->|Hd].
    + eapply wlp_mono; [apply (yield_pauses (fun _ _ => False))|intros ? ? []|].
      intros s' Hs. left. exact (conj Hz (conj eq_refl Hs)).
    + wlp_step. eapply wlp_mono; [apply usertrapret_spec with (R := fun _ => False)| |intros ? []].
      intros r s' (Hu & Hm & _). exact (conj Hz (conj Hd (conj Hu Hm))).
  - eapply wlp_mono; [by apply (trap_exit_leaves _ (fun _ _ => False))|intros ? ? []|].
    intros s' Hs. right. exact (conj Hz Hs).
Qed.

Lemma user_resume_spec s R :
  wlp (usertrap_resume trampoline uservec userret usertrap_addr c)
    (fun r s' => to_user (me s) (u64 (tf_reg s epc)) s' r /\ same_mem (tf_kernel (p_trapframe (me s))) s s') R s.
Proof.
  unfold usertrap_resume, yield_resume, myproc. wlp_step. apply wlp_zoom. wlp_steps. apply wlp_release. intros _.
  match goal with |- wlp _ _ _ ?x => set (s1 := x) end.
  assert (Hme : me s1 = set_p_lock false (me s)) by (unfold me, s1; cbn; by rewrite fset_eq).
  assert (Hr : tf_reg s1 epc = tf_reg s epc) by (unfold tf_reg; by rewrite Hme).
  assert (Hm : kmem s1 = kmem s) by done. clearbody s1.
  eapply wlp_mono; [apply usertrapret_spec with (R := R)| |intros ? HR; exact HR]. intros r s' (Hu & Hs & _). rewrite Hr, Hme in *.
  split; [|intros y Hy; rewrite <- Hm; by apply Hs]. by destruct Hu.
Qed.

(** usertrap() has saved the user program counter and has looked at [d]: the
    process is as it was, but for the saved pc. *)
Record entered (s s' : mach) : Prop := {
  en_inv : pinv (mc_k s');
  en_cpu : kn_cpu (mc_k s') = kn_cpu (mc_k s);
  en_me : me s' = me s;
  en_mem : kmem s' = store64 (kmem s) (p_trapframe (me s) + tf_off epc) (u64 (mc_hart s SEPC));
  en_cause : mc_hart s' SCAUSE = mc_hart s SCAUSE;
}.

Definition usertrap_ := usertrap devsw proc_addr forkret_addr ticks_addr pad con_chan disk_chan mm_read kernelvec
  trampoline uservec userret usertrap_addr c.

Lemma handled_entered s s1 s2 : entered s s1 -> handled s1 s2 -> entered s s2.
Proof.
  intros [A1 A2 A3 A4 A5] [B1 B2 B3 B4 B5]. split; [done|congruence| |congruence|by rewrite B5].
  rewrite <- A3. unfold me. by rewrite B2, B3.
Qed.
Lemma entered_pc s s' : entered s s' -> u64 (tf_reg s' epc) = u64 (mc_hart s SEPC).
Proof.
  intros [_ _ A3 A4 _]. unfold tf_reg. rewrite A3, A4, load64_store64 by apply u64_range. apply u64_small, u64_range.
Qed.

(** What follows the saving of the pc, when the trap is not a system call. *)
Lemma trap_dev_spec s s1 (Q : Z * Z -> mach -> Prop) R :
  kn_cpu (mc_k s) c <> NULL -> entered s s1 ->
  (forall d s', d = which (mc_hart s SCAUSE) -> d <> 0 -> entered s s' ->
     wlp (usertrap_end proc_addr trampoline uservec userret usertrap_addr c (kn_cpu (mc_k s') c) d) Q R s') ->
  (forall s', which (mc_hart s SCAUSE) = 0 -> leaving (kn_cpu (mc_k s) c) s' -> R s') ->
  wlp (let! which_dev :=
         let! which_dev := devintr ticks_addr con_chan disk_chan mm_read c in
         if negb (which_dev =? 0) then ret which_dev
         else
           say "usertrap(): unexpected scause %p pid=%d" ;;;
           say "            sepc=%p stval=%p" ;;;
           zoom kernL (setkilled c (kn_cpu (mc_k s) c)) ;;;
           ret 0 in
       usertrap_end proc_addr trampoline uservec userret usertrap_addr c (kn_cpu (mc_k s) c) which_dev) Q R s1.
Proof.
  intros Hc He HQ HR. wlp_step. wlp_step. eapply wlp_mono; [by apply devintr_spec, He| |intros ? []].
  intros d s2 [Hd Hh]. rewrite (en_cause _ _ He) in Hd. pose proof (handled_entered _ _ _ He Hh) as He2.
  destruct (Z.eqb_spec d 0) as [Hz|Hz]; cbn [negb].
  - wlp_step. eapply wlp_mono; [by apply say_handled, handled_refl, He2| |intros ? []]. intros [] s3 H3.
    wlp_step. eapply wlp_mono; [by apply (say_handled _ s2)| |intros ? []]. intros [] s4 H4.
    pose proof (handled_entered _ _ _ He2 H4) as He4. wlp_step. rewrite <- (en_cpu _ _ He4).
    apply setkilled_spec; [apply He4|]. intros s5 Hk5 Hc5 Hm5. wlp_step. rewrite <- Hc5.
    eapply wlp_mono; [apply end_spec; [done|by rewrite Hc5, (en_cpu _ _ He4)]| |].
    + intros r s6 (Hx & _). congruence.
    + intros s6 [(Hx & _)|[_ Hl]]; [congruence|]. apply HR; [congruence|]. by rewrite Hc5, (en_cpu _ _ He4) in Hl.
  - wlp_step. rewrite <- (en_cpu _ _ He2). by apply HQ.
Qed.

(** Up to the saving of the user program counter. *)
Lemma enter_spec s s1 s2 :
  pinv (mc_k s) -> set_reg s s1 STVEC kernelvec ->
  stored s1 s2 (p_trapframe (kn_proc (mc_k s1) (kn_cpu (mc_k s1) c)) + tf_off epc) (u64 (mc_hart s1 SEPC)) -> entered s s2.
Proof.
  intros Hk [K1 _ H1] [M2 P2 C2 H2 I2]. unfold kmem, me in *. rewrite K1 in *. split; unfold kmem, me.
  - by apply I2.
  - done.
  - by rewrite C2, P2.
  - by rewrite M2, H1.
  - by rewrite H2, H1.
Qed.

Lemma interrupt_spec s :
  pinv (mc_k s) -> kn_cpu (mc_k s) c <> NULL -> mc_hart s SCAUSE <> 8 ->
  let tf := p_trapframe (me s) in
  wlp usertrap_
    (fun r s' => external (mc_hart s SCAUSE) = true /\ p_killed (me s) = 0 /\ to_user (me s) (u64 (mc_hart s SEPC)) s' r /\
       same_mem (fun a => tf <= a < tf + 40) s s')
    (fun s' => external (mc_hart s SCAUSE) = false /\ timer (mc_hart s SCAUSE) = true /\ p_killed (me s) = 0 /\
         me s' = set_p_state RUNNABLE (set_p_lock true (me s)) /\
         u64 (tf_reg s' epc) = u64 (mc_hart s SEPC) /\ same_mem (fun a => tf + 24 <= a < tf + 32) s s' \/
       (p_killed (me s) <> 0 \/ which (mc_hart s SCAUSE) = 0) /\ leaving (kn_cpu (mc_k s) c) s') s.
Proof.
  intros Hk Hc H8 tf. unfold usertrap_, usertrap, myproc. wlp_step. apply wlp_csrr. case_match; [done|].
  wlp_step. apply wlp_csrw. intros s1 Hs1. wlp_step. apply wlp_kgets. wlp_step. apply wlp_csrr. wlp_step.
  apply tf_put_spec. intros s2 Hs2. pose proof (enter_spec s s1 s2 Hk Hs1 Hs2) as He.
  rewrite (sr_k _ _ _ _ Hs1). wlp_step. apply wlp_csrr. rewrite (en_cause _ _ He), (proj2 (Z.eqb_neq _ _) H8).
  apply (trap_dev_spec s); [done|done| |].
  - intros d s3 Hd Hz He3. eapply wlp_mono; [apply end_spec; [apply He3|by rewrite (en_cpu _ _ He3)]| |].
    + intros r s4 (Hk4 & Hd2 & Hu & Hm). rewrite (entered_pc _ _ He3), (en_me _ _ He3) in *. split_and!; try done.
      * unfold which in *. destruct (external _); [done|]. by destruct (timer _).
      * intros y Hy. rewrite Hm by (unfold tf_kernel; lia). rewrite (en_mem _ _ He3). apply store64_other. cbn. fold tf. lia.
    + intros s4 [(Hk4 & Hd2 & [P1 P2 P3])|[Hk4 Hl]]; [left|right].
      * rewrite (en_me _ _ He3) in *. split_and!; try done.
        -- rewrite Hd2 in Hd. unfold which in Hd. by destruct (external _).
        -- rewrite Hd2 in Hd. unfold which in Hd. by destruct (external _), (timer _).
        -- rewrite <- (entered_pc _ _ He3). unfold tf_reg. by rewrite P1, P3, (en_me _ _ He3).
        -- intros y Hy. rewrite P3, (en_mem _ _ He3). apply store64_other. cbn. fold tf. lia.
      * rewrite (en_me _ _ He3), (en_cpu _ _ He3) in *. split; [by left|done].
  - intros s3 Hw Hl. right. split; [by right|done].
Qed.


Lemma which_timer x : which x = 2 -> timer x = true.
Proof. unfold which. destruct (external x); [done|]. by destruct (timer x). Qed.

Lemma restore_spec c' sepc sstatus s R :
  is_u64 sepc -> is_u64 sstatus ->
  wlp (kerneltrap_resume c' sepc sstatus)
    (fun _ s' => mc_hart s' SEPC = sepc /\ mc_hart s' SSTATUS = sstatus /\ kmem s' = kmem s) R s.
Proof.
  intros H1 H2. unfold kerneltrap_resume, yield_resume, myproc. wlp_step. apply wlp_zoom. wlp_steps. apply wlp_release.
  intros _. wlp_step. apply wlp_csrw. intros s1 [K1 V1 O1]. apply wlp_csrw. intros s2 [K2 V2 O2].
  unfold kmem. rewrite O2, V1, V2, K2, K1 by done. split; [by apply u64_small|]. split; [by apply u64_small|done].
Qed.

(** C31.  An interrupt that arrives while the kernel runs disturbs nothing: when
    kerneltrap() returns, every register of the hart but the pending bits of sip, all of memory and the
    running process are as they were, whatever the interrupt handlers did.  If
    it gives up the CPU, for a timer interrupt, memory and the process are as
    they were, and the code after the switch, on any CPU, puts back the sepc and
    sstatus that the interrupted code had. *)
Theorem kernel_interrupt_transparent s :
  pinv (mc_k s) -> is_u64 (mc_hart s SEPC) -> is_u64 (mc_hart s SSTATUS) ->
  wlp (kerneltrap ticks_addr con_chan disk_chan mm_read c)
    (fun _ s' => handled s s')
    (fun s' => timer (mc_hart s SCAUSE) = true /\ p_state (me s) = RUNNING /\ paused s s') s /\
  forall c' s2, wlp (kerneltrap_resume c' (mc_hart s SEPC) (mc_hart s SSTATUS))
    (fun _ s3 => mc_hart s3 SEPC = mc_hart s SEPC /\ mc_hart s3 SSTATUS = mc_hart s SSTATUS /\ kmem s3 = kmem s2)
    (fun _ => False) s2.
Proof.
  intros Hk Hu1 Hu2. split; [|intros c' s2; by apply restore_spec].
  unfold kerneltrap, myproc, intr_get. wlp_step. apply wlp_csrr. wlp_step. apply wlp_csrr. case_match; [done|].
  wlp_step. apply wlp_zoom. unfold r_sstatus, csrr. wlp_steps. case_match; [done|]. wlp_step.
  replace (lset hartL (lget hartL s) s) with s by (by destruct s).
  eapply wlp_mono; [by apply devintr_spec| |intros ? []]. intros d s1 [Hd Hh].
  destruct (d =? 0).
  { wlp_step. eapply wlp_mono; [by apply (say_handled _ s)| |intros ? []]. intros [] s2 H2. wlp_step.
    by eapply wlp_mono; [by apply (say_handled _ s)| |intros ? []]. }
  wlp_step. apply wlp_kgets. wlp_step. apply wlp_kgets. wlp_step.
  assert (Hme : me s1 = me s) by (unfold me; by rewrite (hd_cpu _ _ Hh), (hd_me _ _ Hh)). fold (me s1). rewrite Hme.
  destruct ((d =? 2) && _ && _) eqn:Ey.
  - apply andb_prop in Ey as [[Ed _]%andb_prop Er%bool_decide_eq_true_1]. apply Z.eqb_eq in Ed.
    eapply wlp_mono; [apply (yield_pauses (fun _ _ => False))|intros ? ? []|]. intros s2 [P1 P2 P3]. split_and!; try done.
    + apply which_timer. congruence.
    + split; [congruence| |]; [rewrite P2|rewrite P3]; apply Hh.
  - do 2 wlp_step. apply wlp_csrw. intros s2 [K2 V2 O2]. apply wlp_csrw. intros s3 [K3 V3 O3]. destruct Hh as [A1 A2 A3 A4 A5].
    unfold kmem in *. split; unfold kmem; rewrite ?K3, ?K2; try done. intros r Hr.
    destruct (decide (r = SSTATUS)) as [->|N1]; [rewrite V3; by apply u64_small|]. rewrite O3 by done.
    destruct (decide (r = SEPC)) as [->|N2]; [rewrite V2; by apply u64_small|]. rewrite O2 by done. by apply A5.
Qed.
End TrapProps.

(** The parts of a process that its user program depends on. *)
Definition same_image (p q : proc) : Prop :=
  p_trapframe q = p_trapframe p /\ p_pagetable q = p_pagetable p /\ p_kstack q = p_kstack p.

(** C16.  An interrupt that arrives while a user program runs is invisible to it.
    usertrap() comes back to the same program counter, in user mode with interrupts
    on, on the process's own page table, with memory (its saved registers
    included) unchanged but for the kernel's fields of its trap frame, and with all set for
    its next trap; this is so after every device interrupt.  For a timer
    interrupt the process gives up the CPU with the program counter saved, and
    when it gets a CPU back, whichever, usertrap()'s second half returns
    to that same program counter.  Otherwise the process had been killed, or the
    trap is not an interrupt, and the process exits. *)
Theorem interrupt_transparent `{Image} devsw proc_addr forkret_addr ticks_addr pad con_chan disk_chan mm_read
    kernelvec trampoline uservec userret usertrap_addr c s :
  pinv (mc_k s) -> kn_cpu (mc_k s) c <> NULL -> mc_hart s SCAUSE <> 8 -> is_u64 (mc_hart s SEPC) ->
  let p := me c s in
  let tf := p_trapframe p in
  wlp (usertrap devsw proc_addr forkret_addr ticks_addr pad con_chan disk_chan mm_read kernelvec
         trampoline uservec userret usertrap_addr c)
    (fun r s' => external (mc_hart s SCAUSE) = true /\
       to_user trampoline uservec userret usertrap_addr c p (mc_hart s SEPC) s' r /\
       same_mem (fun a => tf <= a < tf + 40) s s')
    (fun s1 =>
       (timer (mc_hart s SCAUSE) = true /\ p_killed p = 0 /\ me c s1 = set_p_state RUNNABLE (set_p_lock true p) /\
        same_mem (fun a => tf + 24 <= a < tf + 32) s s1 /\
        forall c' s2, same_image p (me c' s2) -> tf_reg c' s2 epc = tf_reg c s1 epc ->
          wlp (usertrap_resume trampoline uservec userret usertrap_addr c')
            (fun r s3 => to_user trampoline uservec userret usertrap_addr c' p (mc_hart s SEPC) s3 r /\
               same_mem (fun a => tf <= a < tf + 40) s2 s3) (fun _ => False) s2) \/
       (p_killed p <> 0 \/ which (mc_hart s SCAUSE) = 0) /\ leaving (kn_cpu (mc_k s) c) s1) s.
Proof.
  intros Hk Hc H8 Hpc p tf. assert (Hu : u64 (mc_hart s SEPC) = mc_hart s SEPC) by (by apply u64_small).
  eapply wlp_mono; [by apply interrupt_spec| |].
  - intros r s' (He & _ & Ht & Hm). by rewrite Hu in Ht.
  - intros s1 [(_ & Hti & Hz & Hme & Hr & Hm)|Hl]; [left|right; exact Hl]. split_and!; try done.
    intros c' s2 Hi Heq. eapply wlp_mono; [apply (user_resume_spec _ _ _ _ c' s2 (fun _ => False))| |intros ? []].
    intros r s3 [Ht Hs]. rewrite Heq, Hr, Hu in Ht. destruct Hi as (I1 & I2 & I3). split.
    + destruct Ht as [T1 T2 T3 T4 T5 T6 T7 T8 T9]. rewrite I2 in T1. rewrite I3 in T9. split; try done. congruence.
    + intros y Hy. apply Hs. rewrite I1. unfold tf_kernel, tf in *. lia.
Qed.

Module TrapDemo.
#[local] Existing Instance demo_image.
Definition dev : Z -> devops ftab := fun _ => mkDevops None None.
(** A key has been typed. *)
Definition con1 : con :=
  mkCon (cn_cons ConsoleDemo.con0) (mkUart false (replicate 32 0) 0 0 [97] 1 [] [] []) (cn_vm ConsoleDemo.con0) [] 0 0.
Definition hart1 (scause : Z) : hart := fun r =>
  match r with SCAUSE => scause | SEPC => 0x1234 | SSTATUS => 34 | SATP => 7 | TP => 0 | _ => 0 end.
Definition m1 (scause : Z) : mach := mkMach ProcDemo.run5 (hart1 scause) con1 VirtioDemo.v1 [UART0_IRQ] [].
Abbreviation trap := (usertrap dev ProcDemo.addr ProcDemo.forkret_at 0x80008000 [] (fun ch => 0x80008010 + ch)
  (fun ch => 0x80009000) VirtioDemo.mm0 0x80002000 0x80003000 0x80003000 0x80003100 0x80002800 0).
Definition external_irq : Z := 0x8000000000000009.
Definition m2 : mach := run_st (m1 external_irq) (trap (m1 external_irq)).
Lemma trap_ok : run_val (trap (m1 external_irq)) = Some (u64 (TRAMPOLINE + 0x100), MAKE_SATP 0).
Proof. vm_compute. reflexivity. Qed.
Lemma m2_eq : trap (m1 external_irq) = Ok (u64 (TRAMPOLINE + 0x100), MAKE_SATP 0) m2.
Proof. unfold m2. exact (run_eq (m1 external_irq) (trap (m1 external_irq)) _ trap_ok). Qed.

(** The same process, killed, makes a system call. *)
Definition k3 : kern := upd_proc 1 (set_p_killed 1) ProcDemo.run5.
Lemma k3_inv : pinv k3.
Proof. apply pinv_upd_soft; [exact ProcDemo.run5_inv|done|]. split; [done|done|by left]. Qed.
Definition m3 : mach := mkMach k3 (hart1 8) con1 VirtioDemo.v1 [] [].

(** A key interrupts the kernel. *)
Definition m4 : mach :=
  mkMach ProcDemo.run5 (fun r => match r with SSTATUS => 256 | r => hart1 external_irq r end) con1 VirtioDemo.v1 [UART0_IRQ] [].
Abbreviation ktrap := (kerneltrap 0x80008000 (fun ch => 0x80008010 + ch) (fun ch => 0x80009000) VirtioDemo.mm0 0).
Definition m5 : mach := run_st m4 (ktrap m4).
Lemma ktrap_ok : run_val (ktrap m4) = Some tt.
Proof. vm_compute. reflexivity. Qed.
Lemma m5_eq : ktrap m4 = Ok tt m5.
Proof. unfold m5. exact (run_eq m4 (ktrap m4) tt ktrap_ok). Qed.
End TrapDemo.

Lemma interrupt_transparent_witness :
  mc_hart TrapDemo.m2 SEPC = 0x1234 /\ u_out (cn_uart (mc_con TrapDemo.m2)) = [97].
Proof.
  split; [|vm_compute; reflexivity].
  assert (Hw := @interrupt_transparent demo_image TrapDemo.dev ProcDemo.addr ProcDemo.forkret_at 0x80008000 []
    (fun ch => 0x80008010 + ch) (fun ch => 0x80009000) VirtioDemo.mm0 0x80002000 0x80003000 0x80003000 0x80003100
    0x80002800 0 (TrapDemo.m1 TrapDemo.external_irq) ProcDemo.run5_inv ltac:(discriminate) ltac:(discriminate)
    ltac:(vm_compute; split; [discriminate|reflexivity])).
  destruct (wlp_ok _ _ _ _ _ _ Hw TrapDemo.m2_eq) as (_ & Hu & _).
  exact (tu_pc _ _ _ _ _ _ _ _ _ Hu).
Defined.


Lemma kernel_interrupt_transparent_witness :
  mc_hart TrapDemo.m5 SEPC = 0x1234 /\ kmem TrapDemo.m5 = kmem TrapDemo.m4.
Proof.
  assert (Hw := proj1 (kernel_interrupt_transparent 0x80008000 (fun ch => 0x80008010 + ch) (fun ch => 0x80009000) VirtioDemo.mm0
    0 TrapDemo.m4 ProcDemo.run5_inv ltac:(vm_compute; split; [discriminate|reflexivity])
    ltac:(vm_compute; split; [discriminate|reflexivity]))).
  assert (Hh := wlp_ok _ _ _ _ _ _ Hw TrapDemo.m5_eq).
  split; [exact (hd_hart _ _ _ Hh SEPC ltac:(discriminate))|exact (hd_mem _ _ _ Hh)].
Defined.
