(* ===== verification/Boot.v ===== *)
(** Starting the harts: kernel/start.c and kernel/main.c, and of kernel/vm.c
    kvminit() and kvminithart().

    start() runs in machine mode; its state is the registers of the hart,
    memory with the registers of the CLINT in it, and the mode and address it
    ends at.  The addresses the linker gives are parameters. *)

From Stdlib Require Import Btauto.
From S2P Require Import Prelude Riscv CString Asm.

Record bootst : Type := mkBoot {
  b_hart : hart;
  b_mem : mem;
  b_priv : Z;
  b_pc : Z;
}.
Definition bhart : lens bootst hart := mkLens b_hart (fun h s => mkBoot h (b_mem s) (b_priv s) (b_pc s)).
Definition set_b_mem (m : mem) (s : bootst) : bootst := mkBoot (b_hart s) m (b_priv s) (b_pc s).
Definition b_ld64 (a : Z) : M bootst Z := gets (fun s => load64 (b_mem s) a).
Definition b_st64 (a v : Z) : M bootst unit := modify (fun s => set_b_mem (store64 (b_mem s) a v) s).

Section Start.
Context (main timervec_at timer_scratch : Z).

(** Each CPU's row of timer_scratch[NCPU][5]. *)
Definition scratch_of (id : Z) : Z := timer_scratch + id * (5 * 8).

Definition timerinit : M bootst unit :=
  (* each CPU has a separate source of timer interrupts *)
  let! id := zoom bhart r_mhartid in
  let id := i32 id in
  (* ask the CLINT for a timer interrupt *)
  let interval := 1000000 in
  let! t := b_ld64 CLINT_MTIME in
  b_st64 (CLINT_MTIMECMP id) (u64 (t + interval)) ;;;
  (* prepare information in scratch[] for timervec *)
  let scratch := scratch_of id in
  b_st64 (scratch + 8 * 3) (CLINT_MTIMECMP id) ;;;
  b_st64 (scratch + 8 * 4) interval ;;;
  zoom bhart (w_mscratch scratch) ;;;
  (* set the machine-mode trap handler *)
  zoom bhart (w_mtvec timervec_at) ;;;
  (* enable machine-mode interrupts *)
  let! x := zoom bhart r_mstatus in
  zoom bhart (w_mstatus (Z.lor x MSTATUS_MIE)) ;;;
  (* enable machine-mode timer interrupts *)
  let! x := zoom bhart r_mie in
  zoom bhart (w_mie (Z.lor x MIE_MTIE)).

(** The mret instruction, as [Asm.exec1] has it. *)
Definition mret : M bootst unit :=
  modify (fun s =>
    let q := exec1 (fun _ va => va) Mret (mkAsm (fun _ => 0) (b_hart s) 0 (b_priv s) (b_pc s) (b_mem s)) in
    mkBoot (as_csr q) (as_mem q) (as_priv q) (as_pc q)).

Definition start : M bootst unit :=
  (* set M Previous Privilege mode to Supervisor, for mret *)
  let! x := zoom bhart r_mstatus in
  let x := Z.land x (Z.lnot MSTATUS_MPP_MASK) in
  let x := Z.lor x MSTATUS_MPP_S in
  zoom bhart (w_mstatus x) ;;;
  (* set M Exception Program Counter to main, for mret *)
  zoom bhart (w_mepc main) ;;;
  (* disable paging for now *)
  zoom bhart (w_satp 0) ;;;
  (* delegate all interrupts and exceptions to supervisor mode *)
  zoom bhart (w_medeleg 0xffff) ;;;
  zoom bhart (w_mideleg 0xffff) ;;;
  let! x := zoom bhart r_sie in
  zoom bhart (w_sie (Z.lor (Z.lor (Z.lor x SIE_SEIE) SIE_STIE) SIE_SSIE)) ;;;
  (* give supervisor mode access to all of physical memory *)
  zoom bhart (w_pmpaddr0 0x3fffffffffffff) ;;;
  zoom bhart (w_pmpcfg0 0xf) ;;;
  (* ask for clock interrupts *)
  timerinit ;;;
  (* keep each CPU's hartid in its tp register, for cpuid() *)
  let! id := zoom bhart r_mhartid in
  zoom bhart (w_tp (i32 id)) ;;;
  (* switch to supervisor mode and jump to main() *)
  mret.
End Start.

(** * Machine-mode timer interrupts *)

(** What the hart does when it takes an interrupt in machine mode: the mode
    goes to MPP, MIE to MPIE, the address to mepc, and the hart to mtvec. *)
Definition mtrap_status (priv v : Z) : Z :=
  Z.lor (Z.land v (Z.lnot (Z.lor (Z.lor MSTATUS_MIE MSTATUS_MPIE) MSTATUS_MPP_MASK)))
    (Z.lor (if Z.land v MSTATUS_MIE =? 0 then 0 else MSTATUS_MPIE) (Z.shiftl priv 11)).
Definition mtrap (s : asmst) : asmst :=
  set_pc (as_csr s MTVEC) 3
    (hset MEPC (as_pc s) (hset MSTATUS (mtrap_status (as_priv s) (as_csr s MSTATUS)) (as_csr s))) s.

(** A timer interrupt, from the interrupted instruction back to it. *)
Definition timer_tick (tr : Z -> Z -> Z) (s : asmst) : asmst := exec tr timervec (mtrap s).

(** * kernel/main.c *)

Inductive call : Type :=
| consoleinit | printfinit | printf (fmt : string) | kinit | kvminit | kvminithart | procinit
| trapinit | trapinithart | plicinit | plicinithart | binit | iinit | fileinit
| virtio_disk_init | userinit | scheduler.

Inductive stmt : Type :=
| Call (c : call)
| Sync                (** __sync_synchronize() *)
| Start               (** started = 1 *)
| Await.              (** while(started == 0) ; *)

#[export] Instance call_eq_dec : EqDecision call.
Proof. solve_decision. Defined.
#[export] Instance stmt_eq_dec : EqDecision stmt.
Proof. solve_decision. Defined.

(** main() on the hart whose cpuid() is [id]. *)
Definition main_code (id : Z) : list stmt :=
  (if id =? 0 then
     [ Call consoleinit; Call printfinit; Call (printf "\n"); Call (printf "xv6 kernel is booting\n");
       Call (printf "\n");
       Call kinit;              (* physical page allocator *)
       Call kvminit;            (* create kernel page table *)
       Call kvminithart;        (* turn on paging *)
       Call procinit;           (* process table *)
       Call trapinit;           (* trap vectors *)
       Call trapinithart;       (* install kernel trap vector *)
       Call plicinit;           (* set up interrupt controller *)
       Call plicinithart;       (* ask PLIC for device interrupts *)
       Call binit;              (* buffer cache *)
       Call iinit;              (* inode table *)
       Call fileinit;           (* file table *)
       Call virtio_disk_init;   (* emulated hard disk *)
       Call userinit;           (* first user process *)
       Sync;
       Start ]
   else
     [ Await;
       Sync;
       Call (printf "hart %d starting\n");
       Call kvminithart;        (* turn on paging *)
       Call trapinithart;       (* install kernel trap vector *)
       Call plicinithart ])     (* ask PLIC for device interrupts *)
  ++ [Call scheduler].

Record booting : Type := mkBooting {
  bo_started : Z;
  bo_kernel_pagetable : Z;
  bo_hart : Z -> hart;
  bo_code : Z -> list stmt;     (** what is left of main() on each hart *)
  bo_done : Z -> list stmt;     (** what each hart has done of it *)
}.

Section Main.
(** [root] is what kvmmake() returns, [kernelvec] an address of the image. *)
Context (root kernelvec : Z).

(** kvminit() and, on one hart, kvminithart() and trapinithart(). *)
Definition kvminit_run (s : booting) : booting :=
  mkBooting (bo_started s) root (bo_hart s) (bo_code s) (bo_done s).
Definition kvminithart_run (kernel_pagetable : Z) : M hart unit :=
  (* wait for any previous writes to the page table memory to finish *)
  sfence_vma ;;;
  w_satp (MAKE_SATP kernel_pagetable) ;;;
  (* flush stale entries from the TLB *)
  sfence_vma.
Definition trapinithart_run : M hart unit := w_stvec kernelvec.
Definition on_hart (h : Z) (m : M hart unit) (s : booting) : booting :=
  match m (bo_hart s h) with
  | Ok _ x => mkBooting (bo_started s) (bo_kernel_pagetable s) (fset (bo_hart s) h x) (bo_code s) (bo_done s)
  | _ => s
  end.

(** What a statement does to the variables of this file; the other calls
    initialise components that have files of their own. *)
Definition stmt_run (h : Z) (st : stmt) (s : booting) : booting :=
  match st with
  | Call kvminit => kvminit_run s
  | Call kvminithart => on_hart h (kvminithart_run (bo_kernel_pagetable s)) s
  | Call trapinithart => on_hart h trapinithart_run s
  | Start => mkBooting 1 (bo_kernel_pagetable s) (bo_hart s) (bo_code s) (bo_done s)
  | _ => s
  end.
Definition advance (h : Z) (st : stmt) (rest : list stmt) (s : booting) : booting :=
  mkBooting (bo_started s) (bo_kernel_pagetable s) (bo_hart s)
    (fset (bo_code s) h rest) (fset (bo_done s) h (bo_done s h ++ [st])).

(** One hart makes one step; a hart that awaits [started] stays where it is
    while that is 0. *)
Inductive boot_step : booting -> booting -> Prop :=
| step_stmt s h st rest :
    0 <= h < NCPU -> bo_code s h = st :: rest -> (st = Await -> bo_started s <> 0) ->
    boot_step s (advance h st rest (stmt_run h st s))
| step_spin s h rest :
    0 <= h < NCPU -> bo_code s h = Await :: rest -> bo_started s = 0 -> boot_step s s.

(** The run in which the harts make a step each in the order [l]. *)
Definition boot_next (h : Z) (s : booting) : booting :=
  match bo_code s h with
  | [] => s
  | st :: rest =>
      if decide (st = Await /\ bo_started s = 0) then s else advance h st rest (stmt_run h st s)
  end.
Definition boot_run (l : list Z) (s : booting) : booting := fold_left (fun s h => boot_next h s) l s.

(** start() has put the hart id into tp, which cpuid() reads. *)
Definition boot_init (s : booting) : Prop :=
  bo_started s = 0 /\
  forall h, 0 <= h < NCPU ->
    bo_code s h = main_code (i32 (bo_hart s h TP)) /\ bo_done s h = [] /\ bo_hart s h TP = u64 (i32 h).
Definition boot_reach (s : booting) : Prop := exists s0, boot_init s0 /\ rtc boot_step s0 s.
End Main.

(** * Machine-mode registers *)

Lemma land_flag v k : 0 <= k -> Z.land v (Z.shiftl 1 k) = 0 \/ Z.land v (Z.shiftl 1 k) = Z.shiftl 1 k.
Proof.
  intros Hk. rewrite Z.shiftl_1_l. destruct (Z.testbit v k) eqn:E; [right|left]; apply Z.bits_inj'; intros n Hn;
    rewrite Z.land_spec, ?Z.bits_0, Z.pow2_bits_eqb by done; destruct (Z.eqb_spec k n) as [->|]; rewrite ?E; btauto.
Qed.

(** The mode start() leaves in MPP. *)
Lemma start_mpp x :
  Z.land (Z.lor (Z.lor (Z.land x (Z.lnot MSTATUS_MPP_MASK)) MSTATUS_MPP_S) MSTATUS_MIE) MSTATUS_MPP_MASK = MSTATUS_MPP_S.
Proof.
  rewrite !Z.land_lor_distr_l, <- Z.land_assoc.
  replace (Z.land (Z.lnot MSTATUS_MPP_MASK) MSTATUS_MPP_MASK) with 0 by reflexivity.
  rewrite Z.land_0_r. reflexivity.
Qed.

(** Saving the mode and MIE in mstatus and restoring them. *)
Lemma mtrap_fields v p :
  p = 0 \/ p = 1 \/ p = 3 -> let v' := mtrap_status p v in
  Z.land v' MSTATUS_MPP_MASK = Z.shiftl p 11 /\
  Z.land v' MSTATUS_MPIE = (if Z.land v MSTATUS_MIE =? 0 then 0 else MSTATUS_MPIE) /\
  Z.land v' MSTATUS_MIE = 0.
Proof.
  intros Hp v'. unfold v', mtrap_status. generalize (Z.land v MSTATUS_MIE =? 0). intros e.
  rewrite !Z.land_lor_distr_l, <- !Z.land_assoc. set (k := Z.lnot _).
  replace (Z.land k MSTATUS_MPP_MASK) with 0 by reflexivity.
  replace (Z.land k MSTATUS_MPIE) with 0 by reflexivity.
  replace (Z.land k MSTATUS_MIE) with 0 by reflexivity.
  rewrite Z.land_0_r. destruct Hp as [->|[->| ->]]; by destruct e.
Qed.

Lemma trap_return_mie v :
  Z.land v MSTATUS_MIE = 0 ->
  Z.land (trap_return MSTATUS_MIE MSTATUS_MPIE MSTATUS_MPP_MASK v) MSTATUS_MIE =
  if Z.land v MSTATUS_MPIE =? 0 then 0 else MSTATUS_MIE.
Proof.
  intros Hv. unfold trap_return.
  assert (Hl : Z.land (Z.land v (Z.lnot (Z.lor MSTATUS_MIE MSTATUS_MPP_MASK))) MSTATUS_MIE = 0).
  { rewrite <- Z.land_assoc. replace (Z.land (Z.lnot _) MSTATUS_MIE) with 0 by reflexivity. apply Z.land_0_r. }
  destruct (Z.land v MSTATUS_MPIE =? 0); rewrite !Z.land_lor_distr_l, Hl; reflexivity.
Qed.

(** * The timer *)

Definition interval : Z := 1000000.

(** The row of timer_scratch of hart [id] is as timerinit() filled it and
    mscratch points to it. *)
Record timer_ok (scratch id : Z) (h : hart) (m : mem) : Prop := {
  to_mscratch : h MSCRATCH = scratch;
  to_cmp : load64 m (scratch + 24) = CLINT_MTIMECMP id;
  to_interval : load64 m (scratch + 32) = interval;
}.

(** A tick: [s'] is [s] but for the compare register, the save area, the
    pending software interrupt and mepc and mstatus. *)
Record ticked (scratch id : Z) (s s' : asmst) : Prop := {
  ti_regs : forall r, as_x s' r = as_x s r;
  ti_pc : as_pc s' = as_pc s;
  ti_priv : as_priv s' = as_priv s;
  ti_sscratch : as_sscratch s' = as_sscratch s;
  ti_mie : Z.land (as_csr s' MSTATUS) MSTATUS_MIE = Z.land (as_csr s MSTATUS) MSTATUS_MIE;
  ti_sip : as_csr s' SIP = 2;
  ti_csr : forall r, r <> MSTATUS -> r <> MEPC -> r <> SIP -> as_csr s' r = as_csr s r;
  ti_cmp : load64 (as_mem s') (CLINT_MTIMECMP id) = u64 (load64 (as_mem s) (CLINT_MTIMECMP id) + interval);
  ti_ok : timer_ok scratch id (as_csr s') (as_mem s');
  ti_frame : forall x, ~ (scratch <= x < scratch + 24) ->
    ~ (CLINT_MTIMECMP id <= x < CLINT_MTIMECMP id + 8) -> as_mem s' x = as_mem s x;
}.

Section Tick.
Context (tr : Z -> Z -> Z) (scratch id : Z).
Context (Hid : 0 <= id < NCPU) (Hscr : KERNBASE <= scratch) (Htop : scratch + 40 <= PHYSTOP).
#[local] Set Default Proof Using "Type Hid Hscr Htop".

(** Memory after the three saves, and after the update of mtimecmp. *)
Definition saves (x : gpr -> Z) (m : mem) : mem :=
  store64 (store64 (store64 m scratch (x R.a1)) (scratch + 8) (x R.a2)) (scratch + 16) (x R.a3).
Definition bumped (x : gpr -> Z) (m : mem) : mem :=
  store64 (saves x m) (CLINT_MTIMECMP id) (u64 (load64 (saves x m) (CLINT_MTIMECMP id) + interval)).

Lemma cmp_range : CLINT <= CLINT_MTIMECMP id /\ CLINT_MTIMECMP id + 8 <= KERNBASE.
Proof using Hid. unfold CLINT_MTIMECMP, CLINT, KERNBASE, NCPU in *. lia. Qed.

Lemma saves_other x m a : scratch + 24 <= a \/ a + 8 <= scratch -> load64 (saves x m) a = load64 m a.
Proof. intros Ha. unfold saves. rewrite !load64_store64_ne by lia. done. Qed.
Lemma bumped_other x m a :
  a + 8 <= CLINT_MTIMECMP id \/ CLINT_MTIMECMP id + 8 <= a -> load64 (bumped x m) a = load64 (saves x m) a.
Proof. intros Ha. apply load64_store64_ne. lia. Qed.

Lemma saves_loads x m :
  (forall r, is_u64 (x r)) ->
  load64 (saves x m) scratch = x R.a1 /\ load64 (saves x m) (scratch + 8) = x R.a2 /\
  load64 (saves x m) (scratch + 16) = x R.a3.
Proof.
  intros Hu. unfold saves. split_and!; rewrite ?load64_store64_ne by lia; by apply load64_store64.
Qed.

#[local] Opaque store64 load64.

(** The instructions of timervec in machine mode. *)
Lemma timervec_run s :
  as_priv s = 3 -> (forall r, is_u64 (as_x s r)) -> timer_ok scratch id (as_csr s) (as_mem s) ->
  let s' := exec tr timervec s in
  (forall r, as_x s' r = as_x s r) /\ as_sscratch s' = as_sscratch s /\ as_mem s' = bumped (as_x s) (as_mem s) /\
  as_pc s' = as_csr s MEPC /\ as_priv s' = Z.shiftr (Z.land (as_csr s MSTATUS) MSTATUS_MPP_MASK) 11 /\
  as_csr s' SIP = 2 /\
  as_csr s' MSTATUS = trap_return MSTATUS_MIE MSTATUS_MPIE MSTATUS_MPP_MASK (as_csr s MSTATUS) /\
  (forall r, r <> MSTATUS -> r <> SIP -> as_csr s' r = as_csr s r).
Proof.
  intros Hp Hu [Hms Hc Hi]. pose proof cmp_range as Hcr. unfold PHYSTOP, KERNBASE, CLINT in *.
  assert (Hph : forall q off, as_priv q = 3 -> as_x q R.a0 = scratch -> 0 <= off <= 32 -> eaddr tr q R.a0 off = scratch + off).
  { intros q off H1 H2 H3. unfold eaddr, phys. rewrite H1, H2. cbn [Z.eqb Pos.eqb]. apply u64_small. unfold is_u64. lia. }
  set (q1 := set_x R.a0 scratch (put_csr (Csr MSCRATCH) (as_x s R.a0) s)).
  assert (E1 : exec1 tr (Csrrw R.a0 (Csr MSCRATCH) R.a0) s = q1) by (cbn; by rewrite Hms).
  destruct (saves_loads (as_x s) (as_mem s) Hu) as (L1 & L2 & L3).
  set (q4 := set_mem (saves (as_x s) (as_mem s)) q1).
  assert (E4 : exec tr [Sd R.a1 0 R.a0; Sd R.a2 8 R.a0; Sd R.a3 16 R.a0] q1 = q4).
  { cbn [exec fold_left exec1]. rewrite !Hph by (done || lia). by rewrite Z.add_0_r. }
  set (q6 := set_x R.a2 interval (set_x R.a1 (CLINT_MTIMECMP id) q4)).
  assert (E6 : exec tr [Ld R.a1 24 R.a0; Ld R.a2 32 R.a0] q4 = q6).
  { cbn [exec fold_left exec1]. rewrite !Hph by (done || lia). cbn [as_mem q4 set_mem set_x].
    rewrite !saves_other by lia. by rewrite Hc, Hi. }
  assert (Ha : forall q, as_priv q = 3 -> as_x q R.a1 = CLINT_MTIMECMP id -> eaddr tr q R.a1 0 = CLINT_MTIMECMP id).
  { intros q H1 H2. unfold eaddr, phys. rewrite H1, H2, Z.add_0_r. cbn [Z.eqb Pos.eqb]. apply u64_small. unfold is_u64. lia. }
  set (q9 := set_mem (bumped (as_x s) (as_mem s))
               (set_x R.a3 (u64 (load64 (saves (as_x s) (as_mem s)) (CLINT_MTIMECMP id) + interval))
                 (set_x R.a3 (load64 (saves (as_x s) (as_mem s)) (CLINT_MTIMECMP id)) q6))).
  assert (E9 : exec tr [Ld R.a3 0 R.a1; Add R.a3 R.a3 R.a2; Sd R.a3 0 R.a1] q6 = q9).
  { cbn [exec fold_left exec1]. rewrite !Ha by done. done. }
  set (q11 := put_csr (Csr SIP) 2 (set_x R.a1 2 q9)).
  assert (E11 : exec tr [Li R.a1 2; Csrw (Csr SIP) R.a1] q9 = q11).
  { cbn [exec fold_left exec1]. change (u64 2) with 2. reflexivity. }
  set (q14 := set_x R.a1 (as_x s R.a1) (set_x R.a2 (as_x s R.a2) (set_x R.a3 (as_x s R.a3) q11))).
  assert (E14 : exec tr [Ld R.a3 16 R.a0; Ld R.a2 8 R.a0; Ld R.a1 0 R.a0] q11 = q14).
  { cbn [exec fold_left exec1]. rewrite !Hph by (done || lia). cbn [as_mem q11 q9 put_csr set_mem set_x].
    rewrite Z.add_0_r, !bumped_other by lia. rewrite L1, L2, L3. reflexivity. }
  cbn zeta. change timervec with ([Csrrw R.a0 (Csr MSCRATCH) R.a0] ++ [Sd R.a1 0 R.a0; Sd R.a2 8 R.a0; Sd R.a3 16 R.a0] ++
    [Ld R.a1 24 R.a0; Ld R.a2 32 R.a0] ++ [Ld R.a3 0 R.a1; Add R.a3 R.a3 R.a2; Sd R.a3 0 R.a1] ++
    [Li R.a1 2; Csrw (Csr SIP) R.a1] ++ [Ld R.a3 16 R.a0; Ld R.a2 8 R.a0; Ld R.a1 0 R.a0] ++
    [Csrrw R.a0 (Csr MSCRATCH) R.a0; Mret]).
  unfold exec in *. rewrite !fold_left_app. cbn [fold_left] in E1 |- *. rewrite E1. cbn [fold_left] in *.
  rewrite E4, E6, E9, E11, E14. clear E1 E4 E6 E9 E11 E14 L1 L2 L3.
  split; [intros r; destruct r; reflexivity|]. do 6 (split; [reflexivity|]).
  - intros r H1 H2. destruct (decide (r = MSCRATCH)) as [->|Hn]; [rewrite Hms; reflexivity|].
    cbn [as_csr set_pc put_csr set_x exec1 q14 q11 q9 q6 q4 q1 set_mem]. unfold hset. by rewrite !decide_False.
Qed.

Lemma timer_tick_spec s :
  as_priv s = 0 \/ as_priv s = 1 \/ as_priv s = 3 -> (forall r, is_u64 (as_x s r)) ->
  timer_ok scratch id (as_csr s) (as_mem s) -> ticked scratch id s (timer_tick tr s).
Proof.
  intros Hp Hu Hok. pose proof cmp_range as Hcr. unfold PHYSTOP, KERNBASE, CLINT in *.
  assert (Hok1 : timer_ok scratch id (as_csr (mtrap s)) (as_mem (mtrap s))) by (destruct Hok; by split).
  destruct (timervec_run (mtrap s) eq_refl Hu Hok1) as (A & B & C & D & E & F & G & K).
  destruct (mtrap_fields (as_csr s MSTATUS) (as_priv s) Hp) as (M1 & M2 & M3).
  set (s' := exec tr timervec (mtrap s)) in *. change (timer_tick tr s) with s'.
  change (as_csr (mtrap s) MSTATUS) with (mtrap_status (as_priv s) (as_csr s MSTATUS)) in E, G.
  split.
  - exact A.
  - rewrite D. done.
  - rewrite E, M1. by destruct Hp as [->|[->| ->]].
  - exact B.
  - rewrite G, trap_return_mie, M2 by exact M3.
    destruct (land_flag (as_csr s MSTATUS) 3) as [H0|H0]; [lia| |]; fold MSTATUS_MIE in H0; by rewrite H0.
  - exact F.
  - intros r H1 H2 H3. rewrite K by done. cbn. unfold hset. by rewrite !decide_False.
  - rewrite C. unfold bumped at 1. rewrite load64_store64 by (unfold is_u64, u64; apply Z.mod_pos_bound; lia).
    by rewrite saves_other by lia.
  - destruct Hok as [O1 O2 O3]. split.
    + rewrite K by done. exact O1.
    + rewrite C, bumped_other, saves_other by lia. exact O2.
    + rewrite C, bumped_other, saves_other by lia. exact O3.
  - intros x H1 H2. rewrite C. unfold bumped, saves. rewrite !store64_other by lia. done.
Qed.
End Tick.

(** * start() *)

Section StartSpec.
Context (main timervec_at timer_scratch id : Z).
Context (Hid : 0 <= id < NCPU) (Hscr : KERNBASE <= timer_scratch) (Htop : timer_scratch + NCPU * 40 <= PHYSTOP).
Context (Hmain : is_u64 main) (Htv : is_u64 timervec_at).
#[local] Set Default Proof Using "Type Hid Hscr Htop Hmain Htv".
#[local] Abbreviation scratch := (scratch_of timer_scratch id).

Lemma scratch_range : KERNBASE <= scratch /\ scratch + 40 <= PHYSTOP.
Proof using Hid Hscr Htop. unfold scratch_of, NCPU in *. lia. Qed.

(** A hart that has left start(): supervisor mode, at main(), paging off, its
    id in tp, interrupts delegated, and its timer set. *)
Record hart_started (s s' : bootst) : Prop := {
  hs_priv : b_priv s' = 1;
  hs_pc : b_pc s' = main;
  hs_satp : b_hart s' SATP = 0;
  hs_tp : b_hart s' TP = id;
  hs_medeleg : b_hart s' MEDELEG = 0xffff;
  hs_mideleg : b_hart s' MIDELEG = 0xffff;
  hs_mtvec : b_hart s' MTVEC = timervec_at;
  hs_mtie : Z.land (b_hart s' MIE) MIE_MTIE = MIE_MTIE;
  hs_cmp : load64 (b_mem s') (CLINT_MTIMECMP id) = u64 (load64 (b_mem s) CLINT_MTIME + interval);
  hs_timer : timer_ok scratch id (b_hart s') (b_mem s');
  hs_frame : forall x, ~ (CLINT_MTIMECMP id <= x < CLINT_MTIMECMP id + 8) ->
    ~ (scratch + 24 <= x < scratch + 40) -> b_mem s' x = b_mem s x;
}.

Lemma land_u64_l v k : Z.land (Z.ones 64) k = k -> Z.land (u64 v) k = Z.land v k.
Proof. intros Hk. unfold u64. rewrite <- Z.land_ones by lia. by rewrite <- Z.land_assoc, Hk. Qed.

Lemma hset_eq r v h : hset r v h r = v.
Proof. unfold hset. by rewrite decide_True. Qed.
Lemma hset_ne r r' v h : r' <> r -> hset r v h r' = h r'.
Proof. intros. unfold hset. by rewrite decide_False. Qed.
Lemma wp_mret (Q : unit -> bootst -> Prop) h m p pc :
  Q tt (mkBoot (hset MSTATUS (trap_return MSTATUS_MIE MSTATUS_MPIE MSTATUS_MPP_MASK (h MSTATUS)) h) m
          (Z.shiftr (Z.land (h MSTATUS) MSTATUS_MPP_MASK) 11) (h MEPC)) ->
  wp mret Q (mkBoot h m p pc).
Proof. done. Qed.
Lemma wp_read r (Q : Z -> bootst -> Prop) h m p pc :
  Q (h r) (mkBoot h m p pc) -> wp (zoom bhart (csrr r)) Q (mkBoot h m p pc).
Proof. done. Qed.
Lemma wp_write r x (Q : unit -> bootst -> Prop) h m p pc :
  Q tt (mkBoot (hset r (u64 x) h) m p pc) -> wp (zoom bhart (csrw r x)) Q (mkBoot h m p pc).
Proof. done. Qed.
Lemma wp_load a (Q : Z -> bootst -> Prop) h m p pc :
  Q (load64 m a) (mkBoot h m p pc) -> wp (b_ld64 a) Q (mkBoot h m p pc).
Proof. done. Qed.
Lemma wp_store a v (Q : unit -> bootst -> Prop) h m p pc :
  Q tt (mkBoot h (store64 m a v) p pc) -> wp (b_st64 a v) Q (mkBoot h m p pc).
Proof. done. Qed.
Ltac boot_step1 :=
  lazymatch goal with
  | |- wp (bind _ _) _ _ => apply wp_bind
  | |- wp (zoom bhart (csrr _)) _ _ => apply wp_read
  | |- wp (zoom bhart (csrw _ _)) _ _ => apply wp_write
  | |- wp mret _ _ => apply wp_mret
  | |- wp (b_ld64 _) _ _ => apply wp_load
  | |- wp (b_st64 _ _) _ _ => apply wp_store
  end; cbn beta zeta; rewrite ?hset_eq; rewrite ?hset_ne by discriminate.

Lemma start_spec s :
  b_hart s MHARTID = id -> wp (start main timervec_at timer_scratch) (fun _ s' => hart_started s s') s.
Proof.
  intros Hh. pose proof scratch_range as [Hs1 Hs2]. pose proof (cmp_range id Hid) as Hc.
  assert (Hi : i32 id = id) by (apply i32_small; unfold NCPU in *; lia).
  unfold PHYSTOP, KERNBASE, CLINT in *.
  destruct s as [h m p pc]. cbn [b_hart] in Hh. unfold start, timerinit, r_mstatus, w_mstatus, w_mepc, w_satp,
    w_medeleg, w_mideleg, r_sie, w_sie, w_pmpaddr0, w_pmpcfg0, r_mhartid, w_mscratch, w_mtvec, r_mie, w_mie, w_tp.
  repeat boot_step1.
  rewrite Hh, Hi.
  split; cbn [b_hart b_mem b_priv b_pc]; rewrite ?hset_eq; rewrite ?hset_ne by discriminate; rewrite ?hset_eq.
  - rewrite land_u64_l by reflexivity. rewrite Z.land_lor_distr_l, land_u64_l by reflexivity.
    rewrite <- Z.land_lor_distr_l, start_mpp. reflexivity.
  - by apply u64_small.
  - done.
  - apply u64_small. unfold is_u64, NCPU in *. lia.
  - done.
  - done.
  - by apply u64_small.
  - rewrite land_u64_l by reflexivity. rewrite Z.land_lor_distr_l.
    destruct (land_flag (h MIE) 7) as [H0|H0]; [lia| |]; fold MIE_MTIE in H0; by rewrite H0.
  - rewrite !load64_store64_ne by lia. apply load64_store64. apply Z.mod_pos_bound. lia.
  - split; [|rewrite load64_store64_ne by lia|]; rewrite ?hset_ne by discriminate; rewrite ?hset_eq.
    + apply u64_small. unfold is_u64. lia.
    + apply load64_store64. unfold is_u64. lia.
    + by apply load64_store64.
  - intros x H1 H2. by rewrite !store64_other by lia.
Qed.
End StartSpec.

(** C37. Timer interrupts are invisible to the code they interrupt.  start()
    leaves the hart in supervisor mode at main(), with paging off, its id in tp
    and its first timer interrupt asked for.  From then on, whenever a timer
    interrupt arrives in a state where mscratch and the last two words of the
    hart's row of timer_scratch are as start() left them, timervec returns to
    the interrupted instruction in the interrupted mode with every register as
    it was, has moved mtimecmp on by the interval and raised a supervisor
    software interrupt, and leaves the row ready for the next one. *)
Theorem timer_interrupts_transparent main timervec_at timer_scratch id tr s :
  0 <= id < NCPU -> KERNBASE <= timer_scratch -> timer_scratch + NCPU * 40 <= PHYSTOP ->
  is_u64 main -> is_u64 timervec_at -> b_hart s MHARTID = id ->
  let scratch := scratch_of timer_scratch id in
  wp (start main timervec_at timer_scratch) (fun _ s' =>
    hart_started main timervec_at timer_scratch id s s' /\
    forall q, as_priv q = 0 \/ as_priv q = 1 \/ as_priv q = 3 -> (forall r, is_u64 (as_x q r)) ->
      as_csr q MSCRATCH = b_hart s' MSCRATCH ->
      (forall x, scratch + 24 <= x < scratch + 40 -> as_mem q x = b_mem s' x) ->
      ticked scratch id q (timer_tick tr q)) s.
Proof.
  intros Hid Hscr Htop Hmain Htv Hh scratch.
  eapply wp_mono; [apply (start_spec main timervec_at timer_scratch id Hid Hscr Htop Hmain Htv s Hh)|].
  intros [] s' Hs. split; [done|]. intros q Hp Hu Hm Hsame.
  destruct (scratch_range timer_scratch id Hid Hscr Htop) as [H1 H2].
  apply (timer_tick_spec tr scratch id Hid H1 H2 q Hp Hu).
  destruct (hs_timer _ _ _ _ _ _ Hs) as [O1 O2 O3]. split.
  - by rewrite Hm.
  - rewrite <- O2. apply load64_ext. intros x Hx. apply Hsame. lia.
  - rewrite <- O3. apply load64_ext. intros x Hx. apply Hsame. lia.
Qed.

Module BootDemo.
Definition h1 : hart := fun r => match r with MHARTID => 1 | _ => 0 end.
Definition s1 : bootst := mkBoot h1 (fun _ => 0) 3 0.
Definition regs : gpr -> Z := fun r => match r with R.a1 => 11 | _ => 5 end.
(** All harts at main(); hart 1 looks at [started] before hart 0 has set it,
    and again after. *)
Definition b0 : booting :=
  mkBooting 0 0 (fun h r => match r with TP => u64 (i32 h) | _ => 0 end) (fun h => main_code (i32 (u64 (i32 h)))) (fun _ => []).
Definition order : list Z := [1] ++ replicate 20 0 ++ replicate 6 1.
End BootDemo.

Lemma timer_interrupts_transparent_witness :
  wp (start 0x80000100 0x80000200 0x80001000) (fun _ s2 =>
    b_pc s2 = 0x80000100 /\ b_priv s2 = 1 /\
    let u := timer_tick (fun _ va => va) (mkAsm BootDemo.regs (b_hart s2) 0 0 0x1000 (b_mem s2)) in
    as_x u R.a1 = 11 /\ as_pc u = 0x1000) BootDemo.s1.
Proof.
  eapply wp_mono; [apply (timer_interrupts_transparent 0x80000100 0x80000200 0x80001000 1 (fun _ va => va) BootDemo.s1);
    done|].
  intros [] s2 [Hs Ht]. split; [exact (hs_pc _ _ _ _ _ _ Hs)|]. split; [exact (hs_priv _ _ _ _ _ _ Hs)|].
  specialize (Ht (mkAsm BootDemo.regs (b_hart s2) 0 0 0x1000 (b_mem s2)) (or_introl eq_refl) ltac:(by intros [])
    eq_refl (fun _ _ => eq_refl)).
  cbn zeta. generalize dependent (timer_tick (fun _ va => va) (mkAsm BootDemo.regs (b_hart s2) 0 0 0x1000 (b_mem s2))).
  intros u Ht. split; [exact (ti_regs _ _ _ _ Ht R.a1)|exact (ti_pc _ _ _ _ Ht)].
Defined.

(** * The order of main() *)

(** Every occurrence of [y] in [l] comes after one of [x]. *)
Fixpoint after_ (x y : stmt) (l : list stmt) : bool :=
  match l with
  | [] => true
  | z :: l' => bool_decide (z = x) || (negb (bool_decide (z = y)) && after_ x y l')
  end.
Lemma after_elem x y l pre post : x <> y -> after_ x y l = true -> l = pre ++ y :: post -> x ∈ pre.
Proof.
  intros Hxy. revert l. induction pre as [|z pre IH]; intros l Ha ->; cbn in Ha.
  - apply orb_true_iff in Ha as [Ha%bool_decide_eq_true|[Ha _]%andb_true_iff]; [done|].
    apply negb_true_iff, bool_decide_eq_false in Ha. done.
  - apply orb_true_iff in Ha as [->%bool_decide_eq_true|[_ Ha]%andb_true_iff]; [left|].
    right. by apply (IH (pre ++ y :: post)).
Qed.

Section MainOrder.
Context (root kernelvec : Z).

Record boot_inv (s : booting) : Prop := {
  bi_code : forall h, 0 <= h < NCPU -> bo_done s h ++ bo_code s h = main_code h;
  bi_started : bo_started s <> 0 <-> Start ∈ bo_done s 0;
  bi_await : forall h, 0 <= h < NCPU -> Await ∈ bo_done s h -> bo_started s <> 0;
  bi_pt : Call kvminit ∈ bo_done s 0 -> bo_kernel_pagetable s = root;
  bi_satp : forall h, 0 <= h < NCPU -> Call kvminithart ∈ bo_done s h -> bo_hart s h SATP = u64 (MAKE_SATP root);
  bi_stvec : forall h, 0 <= h < NCPU -> Call trapinithart ∈ bo_done s h -> bo_hart s h STVEC = u64 kernelvec;
}.

Lemma main_code_cons h pre st post :
  0 <= h < NCPU -> pre ++ st :: post = main_code h ->
  (st = Start -> h = 0) /\ (st = Call kvminit -> h = 0) /\ (st = Await -> h <> 0) /\
  (st = Call kvminithart -> h = 0 -> Call kvminit ∈ pre) /\
  (h <> 0 -> st <> Await -> Await ∈ pre).
Proof.
  intros Hh Hc. assert (Hin : st ∈ main_code h) by (rewrite <- Hc; apply elem_of_app; right; left).
  unfold main_code in *. destruct (Z.eqb_spec h 0) as [->|Hne].
  - split_and!; try done.
    + intros ->. exfalso. revert Hin. apply (bool_decide_unpack (_ ∉ _)). by vm_compute.
    + intros -> _. refine (after_elem (Call kvminit) (Call kvminithart) _ pre post _ _ (eq_sym Hc)); done.
  - split_and!; try done; try (intros ->; exfalso; revert Hin; apply (bool_decide_unpack (_ ∉ _)); by vm_compute).
    intros _ Ha. refine (after_elem Await st _ pre post (not_eq_sym Ha) _ (eq_sym Hc)). done.
Qed.

Lemma boot_inv_init s : boot_init s -> boot_inv s.
Proof.
  intros [H0 Hh]. assert (Hd : forall h, 0 <= h < NCPU -> bo_done s h = []) by (intros h Hr; apply (Hh h Hr)).
  assert (Hd0 : bo_done s 0 = []) by (apply Hd; done).
  split.
  - intros h Hr. destruct (Hh h Hr) as (-> & -> & ->). cbn. f_equal. unfold NCPU in Hr.
    rewrite (i32_small h), u64_small by (unfold is_u64; lia). apply i32_small. lia.
  - rewrite H0, Hd0. split; [done|by intros ?%elem_of_nil].
  - intros h Hr. rewrite (Hd h Hr). by intros ?%elem_of_nil.
  - rewrite Hd0. by intros ?%elem_of_nil.
  - intros h Hr. rewrite (Hd h Hr). by intros ?%elem_of_nil.
  - intros h Hr. rewrite (Hd h Hr). by intros ?%elem_of_nil.
Qed.

(** What a statement leaves as it was. *)
Lemma stmt_run_code h st s : bo_code (stmt_run root kernelvec h st s) = bo_code s.
Proof. by destruct st as [[]| | |]. Qed.
Lemma stmt_run_done h st s : bo_done (stmt_run root kernelvec h st s) = bo_done s.
Proof. by destruct st as [[]| | |]. Qed.
Lemma stmt_run_started h st s :
  bo_started (stmt_run root kernelvec h st s) = if decide (st = Start) then 1 else bo_started s.
Proof. by destruct st as [[]| | |]. Qed.
Lemma stmt_run_pt h st s :
  bo_kernel_pagetable (stmt_run root kernelvec h st s) =
  if decide (st = Call kvminit) then root else bo_kernel_pagetable s.
Proof. by destruct st as [[]| | |]. Qed.
Lemma stmt_run_satp h st s h' :
  bo_hart (stmt_run root kernelvec h st s) h' SATP =
  if decide (st = Call kvminithart /\ h' = h) then u64 (MAKE_SATP (bo_kernel_pagetable s)) else bo_hart s h' SATP.
Proof.
  destruct st as [[]| | |]; cbn -[u64]; unfold fset; try destruct (Z.eqb_spec h' h) as [->|];
    repeat case_decide; naive_solver.
Qed.
Lemma stmt_run_stvec h st s h' :
  bo_hart (stmt_run root kernelvec h st s) h' STVEC =
  if decide (st = Call trapinithart /\ h' = h) then u64 kernelvec else bo_hart s h' STVEC.
Proof.
  destruct st as [[]| | |]; cbn -[u64]; unfold fset; try destruct (Z.eqb_spec h' h) as [->|];
    repeat case_decide; naive_solver.
Qed.

Lemma advance_done h st rest s h' x :
  x ∈ bo_done (advance h st rest s) h' <-> x ∈ bo_done s h' \/ (h' = h /\ x = st).
Proof.
  cbn. unfold fset. destruct (Z.eqb_spec h' h) as [->|Hne]; [|naive_solver].
  rewrite elem_of_app, list_elem_of_singleton. naive_solver.
Qed.

Lemma boot_inv_step s s' : boot_inv s -> boot_step root kernelvec s s' -> boot_inv s'.
Proof.
  intros Hi Hs. destruct Hs as [s h st rest Hr Hc Hg|]; [|done].
  pose proof (bi_code _ Hi h Hr) as Hm. rewrite Hc in Hm.
  destruct (main_code_cons h _ _ _ Hr Hm) as (K1 & K2 & K3 & K4 & K5).
  set (s1 := stmt_run root kernelvec h st s).
  assert (Hd : forall h' x, x ∈ bo_done (advance h st rest s1) h' <-> x ∈ bo_done s h' \/ (h' = h /\ x = st)).
  { intros h' x. rewrite advance_done. unfold s1. by rewrite stmt_run_done. }
  assert (Hst : bo_started s1 <> 0 <-> st = Start \/ bo_started s <> 0).
  { unfold s1. rewrite stmt_run_started. destruct (decide (st = Start)); naive_solver. }
  split; [intros h' Hh'|change (bo_started (advance h st rest s1)) with (bo_started s1)|intros h' Hh'|
    |intros h' Hh'|intros h' Hh']; rewrite ?Hd.
  - cbn. unfold s1. rewrite stmt_run_code, stmt_run_done. unfold fset.
    destruct (Z.eqb_spec h' h) as [->|]; [by rewrite <- app_assoc|by apply (bi_code _ Hi)].
  - rewrite Hst, (bi_started _ Hi). naive_solver.
  - change (bo_started (advance h st rest s1)) with (bo_started s1). rewrite Hst.
    intros [Ha|[-> <-]]; right; [by apply (bi_await _ Hi h')|by apply Hg].
  - cbn. unfold s1. rewrite stmt_run_pt. destruct (decide _); [done|]. intros [Ha|[_ Ha]]; [by apply (bi_pt _ Hi)|done].
  - cbn. unfold s1. rewrite stmt_run_satp. destruct (decide _) as [[-> ->]|Hn].
    + intros _. rewrite (bi_pt _ Hi); [done|]. destruct (decide (h = 0)) as [->|Hne]; [by apply K4|].
      assert (Haw : bo_started s <> 0) by (apply (bi_await _ Hi h Hr), K5; done).
      apply (bi_started _ Hi) in Haw. pose proof (bi_code _ Hi 0 ltac:(done)) as H0.
      apply list_elem_of_split in Haw as (p1 & p2 & Hp). rewrite Hp, <- app_assoc in H0.
      rewrite Hp. apply elem_of_app. left. refine (after_elem (Call kvminit) Start _ p1 _ _ _ (eq_sym H0)); done.
    + intros [Ha|[-> Ha]]; [by apply (bi_satp _ Hi)|naive_solver].
  - cbn. unfold s1. rewrite stmt_run_stvec. destruct (decide _) as [[-> ->]|Hn]; [done|].
    intros [Ha|[-> Ha]]; [by apply (bi_stvec _ Hi)|naive_solver].
Qed.

Lemma boot_inv_reach s : boot_reach root kernelvec s -> boot_inv s.
Proof.
  intros (s0 & H0 & Hr). apply boot_inv_init in H0. induction Hr as [|s0 s1 s2 Hs _ IH]; [done|].
  apply IH. by apply (boot_inv_step s0).
Qed.

(** Once hart 0 has set [started], all of its calls before are done. *)
Lemma started_all s c :
  boot_inv s -> bo_started s <> 0 -> Call c ∈ main_code 0 -> c <> scheduler -> Call c ∈ bo_done s 0.
Proof.
  intros Hi Hs Hin Hc. apply (bi_started _ Hi) in Hs. pose proof (bi_code _ Hi 0 ltac:(done)) as H0.
  apply list_elem_of_split in Hs as (p1 & p2 & Hp). rewrite Hp, <- app_assoc in H0.
  rewrite Hp. apply elem_of_app. left.
  refine (after_elem (Call c) Start _ p1 _ _ _ (eq_sym H0)); [done|]. clear H0 Hp.
  assert (Hall : Forall (fun st => st <> Call scheduler -> st <> Start -> after_ st Start (main_code 0) = true) (main_code 0)).
  { apply (bool_decide_unpack _). by vm_compute. }
  rewrite Forall_forall in Hall. apply Hall; [done|naive_solver|done].
Qed.

Lemma others_started s h st :
  boot_inv s -> 0 <= h < NCPU -> h <> 0 -> st ∈ bo_done s h -> bo_started s <> 0.
Proof.
  intros Hi Hh Hne Hin. apply (bi_await _ Hi h Hh). destruct (decide (st = Await)) as [->|Hst]; [done|].
  pose proof (bi_code _ Hi h Hh) as Hm. apply list_elem_of_split in Hin as (p1 & p2 & Hp).
  rewrite Hp, <- app_assoc in Hm. destruct (main_code_cons h p1 st _ Hh Hm) as (_ & _ & _ & _ & K).
  rewrite Hp. apply elem_of_app. left. by apply K.
Qed.

(** Before its scheduler() a hart has turned paging on and installed the trap
    vector. *)
Lemma scheduler_ready s h rest :
  boot_inv s -> 0 <= h < NCPU -> bo_code s h = Call scheduler :: rest \/ bo_code s h = [] ->
  Call kvminithart ∈ bo_done s h /\ Call trapinithart ∈ bo_done s h /\ bo_started s <> 0.
Proof.
  intros Hi Hh Hc. pose proof (bi_code _ Hi h Hh) as Hm.
  assert (Hd : forall st, st ∈ main_code h -> st <> Call scheduler -> after_ st (Call scheduler) (main_code h) = true ->
            st ∈ bo_done s h).
  { intros st Hst Hne Ha. destruct Hc as [Hc|Hc]; rewrite Hc in Hm.
    - by apply (after_elem st (Call scheduler) _ _ _ Hne Ha (eq_sym Hm)).
    - rewrite app_nil_r in Hm. by rewrite Hm. }
  assert (Hk : forall st, st ∈ [Call kvminithart; Call trapinithart; if h =? 0 then Start else Await] -> st ∈ bo_done s h).
  { intros st Hst. unfold main_code in *. destruct (h =? 0);
      repeat (apply elem_of_cons in Hst as [->|Hst];
        [apply Hd; [apply (bool_decide_unpack _); by vm_compute|done|done]|]); by apply elem_of_nil in Hst. }
  split; [apply Hk; left|]. split; [apply Hk; right; left|].
  specialize (Hk _ (list_elem_of_further _ _ _ (list_elem_of_further _ _ _ (list_elem_of_here _ _)))).
  destruct (Z.eqb_spec h 0) as [->|Hne]; [by apply (bi_started _ Hi)|by apply (others_started s h Await)].
Qed.
End MainOrder.

Lemma boot_run_steps root kernelvec l s :
  Forall (fun h => 0 <= h < NCPU) l -> rtc (boot_step root kernelvec) s (boot_run root kernelvec l s).
Proof.
  intros Hl. revert s. induction Hl as [|h l Hh _ IH]; intros s; [done|]. cbn.
  transitivity (boot_next root kernelvec h s); [|apply IH].
  unfold boot_next. destruct (bo_code s h) as [|st rest] eqn:Ec; [done|].
  destruct (decide _) as [[-> H0]|Hn]; [done|]. apply rtc_once. apply step_stmt; [done|done|].
  intros ->. naive_solver.
Qed.

(** C38. The order in which the harts boot, in every interleaving.  Each hart
    runs the statements of main() in order, hart 0 the first branch and the
    others the second.  No other hart makes a call before hart 0 has made all of
    its initialisation calls.  A hart that has come to scheduler() has paging
    on with the page table kvminit() made and the kernel's trap vector
    installed, and all of hart 0's initialisation is done. *)
Theorem boot_order root kernelvec s h :
  boot_reach root kernelvec s -> 0 <= h < NCPU ->
  let initialised := forall c, Call c ∈ main_code 0 -> c <> scheduler -> Call c ∈ bo_done s 0 in
  bo_done s h ++ bo_code s h = main_code h /\
  (h <> 0 -> forall c, Call c ∈ bo_done s h -> initialised) /\
  (bo_code s h = [Call scheduler] \/ bo_code s h = [] ->
     initialised /\ bo_hart s h SATP = u64 (MAKE_SATP root) /\ bo_hart s h STVEC = u64 kernelvec).
Proof.
  intros Hr Hh initialised. apply boot_inv_reach in Hr as Hi.
  split; [by apply (bi_code _ _ _ Hi)|]. split.
  - intros Hne c Hc c' Hc' Hs. apply (started_all root kernelvec); [done| |done|done].
    by apply (others_started root kernelvec s h (Call c)).
  - intros Hc. destruct (scheduler_ready root kernelvec s h [] Hi Hh Hc) as (H1 & H2 & H3).
    split; [|split; [by apply (bi_satp _ _ _ Hi)|by apply (bi_stvec _ _ _ Hi)]].
    intros c Hin Hs. by apply (started_all root kernelvec).
Qed.

Lemma boot_order_witness :
  bo_hart (boot_run 0x87fff000 0x80000300 BootDemo.order BootDemo.b0) 1 SATP = 0x8000000000087fff.
Proof.
  destruct (boot_order 0x87fff000 0x80000300 (boot_run 0x87fff000 0x80000300 BootDemo.order BootDemo.b0) 1) as (_ & _ & H).
  - exists BootDemo.b0. split; [by split|]. apply boot_run_steps. apply (bool_decide_unpack _). by vm_compute.
  - done.
  - destruct H as (_ & H & _); [left; vm_compute; reflexivity|]. rewrite H. reflexivity.
Defined.
