(* ===== verification/Umalloc.v ===== *)
(** The memory allocator of user programs: user/umalloc.c.

    A [Header] is 16 bytes: the pointer at offset 0, the size in units of
    [sizeof(Header)] at offset 8.  Memory is the process's, [um_freep] is freep, and
    the static [base] lies at an address the linker chooses, below the heap.

    sbrk() is the system call as a process sees it: the break [um_brk] moves, and
    [um_grants] says which requests for more memory the kernel can satisfy; it
    cannot satisfy one that takes the process beyond the size of physical memory,
    because every page of a process has a page of its own.

    The two loops walk a circular list, so they take a [fuel]. *)

From S2P Require Import Prelude Riscv CString.

Record ust : Type := mkUst {
  um_mem : mem;
  um_freep : Z;
  um_brk : Z;
  um_grants : list bool;
}.
Definition set_um_mem (m : mem) (s : ust) : ust := mkUst m (um_freep s) (um_brk s) (um_grants s).
Definition set_um_freep (p : Z) (s : ust) : ust := mkUst (um_mem s) p (um_brk s) (um_grants s).
Definition set_um_brk (b : Z) (g : list bool) (s : ust) : ust := mkUst (um_mem s) (um_freep s) b g.

Module Um.
Section Umalloc.
Context (base : Z).                 (** &base *)

Definition sizeof_Header : Z := 16.

(** p->s.ptr and p->s.size. *)
Definition ptr_of (m : mem) (p : Z) : Z := load64 m p.
Definition size_of (m : mem) (p : Z) : Z := load_le 4 m (p + 8).
Definition get_ptr (p : Z) : M ust Z := gets (fun s => ptr_of (um_mem s) p).
Definition get_size (p : Z) : M ust Z := gets (fun s => size_of (um_mem s) p).
Definition set_ptr (p v : Z) : M ust unit := modify (fun s => set_um_mem (store64 (um_mem s) p v) s).
Definition set_size (p n : Z) : M ust unit := modify (fun s => set_um_mem (store_le 4 (um_mem s) (p + 8) (u32 n)) s).
(** p + n on pointers to Header. *)
Definition hdr_add (p n : Z) : Z := u64 (p + sizeof_Header * n).

Definition can_grow (brk n : Z) : bool := brk + n <=? PHYSTOP - KERNBASE.

Definition sbrk (n : Z) : M ust Z :=
  let! addr := gets um_brk in
  if n >? 0 then
    let! g := gets um_grants in
    let ok := default false (head g) && can_grow addr n in
    modify (set_um_brk (if ok then addr + n else addr) (tail g)) ;;;
    ret (if ok then addr else u64 (-1))
  else if n <? 0 then
    let newsz := u64 (addr + n) in
    modify (fun s => set_um_brk (if newsz >=? addr then addr else newsz) (um_grants s) s) ;;;
    ret addr
  else ret addr.

(** Where in the list the block [bp] goes. *)
Fixpoint free_find (fuel : nat) (bp p : Z) : M ust Z :=
  match fuel with
  | O => fun _ => NoFuel
  | S fuel =>
      let! next := get_ptr p in
      if (bp >? p) && (bp <? next) then ret p
      else if (p >=? next) && ((bp >? p) || (bp <? next)) then ret p
      else free_find fuel bp next
  end.

(** The first if of free(), with [next] for p->s.ptr: join to the upper neighbour. *)
Definition join_next (bp bsize next : Z) : M ust unit :=
  if hdr_add bp bsize =? next then
    let! nsize := get_size next in
    set_size bp (bsize + nsize) ;;;
    let! nnext := get_ptr next in
    set_ptr bp nnext
  else set_ptr bp next.
(** The second: join to the lower neighbour. *)
Definition join_prev (bp p : Z) : M ust unit :=
  let! psize := get_size p in
  if hdr_add p psize =? bp then
    let! bsize := get_size bp in
    set_size p (psize + bsize) ;;;
    let! bnext := get_ptr bp in
    set_ptr p bnext
  else set_ptr p bp.

Definition free (fuel : nat) (ap : Z) : M ust unit :=
  let bp := hdr_add ap (-1) in
  let! freep := gets um_freep in
  let! p := free_find fuel bp freep in
  let! bsize := get_size bp in
  let! next := get_ptr p in
  join_next bp bsize next ;;;
  join_prev bp p ;;;
  modify (set_um_freep p).

Definition morecore (fuel : nat) (nu : Z) : M ust Z :=
  let nu := if nu <? 4096 then 4096 else nu in
  let! p := sbrk (i32 (nu * sizeof_Header)) in
  if p =? u64 (-1) then ret 0
  else
    let hp := p in
    set_size hp nu ;;;
    free fuel (hdr_add hp 1) ;;;
    gets um_freep.

(** What malloc() does with a block that is large enough. *)
Definition take_block (nunits prevp p size : Z) : M ust Z :=
  let! r :=
    if size =? nunits then
      let! next := get_ptr p in
      set_ptr prevp next ;;;
      ret p
    else
      set_size p (size - nunits) ;;;
      let! size := get_size p in
      let p := hdr_add p size in
      set_size p nunits ;;;
      ret p in
  modify (set_um_freep prevp) ;;;
  ret (hdr_add r 1).

(** The loop of malloc(): first fit, from freep on. *)
Fixpoint malloc_loop (ffuel fuel : nat) (nunits prevp p : Z) : M ust Z :=
  match fuel with
  | O => fun _ => NoFuel
  | S fuel =>
      let! size := get_size p in
      if size >=? nunits then take_block nunits prevp p size
      else
        let! freep := gets um_freep in
        if p =? freep then
          let! p := morecore ffuel nunits in
          if p =? 0 then ret 0
          else
            let! next := get_ptr p in
            malloc_loop ffuel fuel nunits p next
        else
          let! next := get_ptr p in
          malloc_loop ffuel fuel nunits p next
  end.

Definition units (nbytes : Z) : Z := u32 ((nbytes + sizeof_Header - 1) / sizeof_Header + 1).

Definition malloc (fuel : nat) (nbytes : Z) : M ust Z :=
  let nunits := units nbytes in
  let! freep := gets um_freep in
  let! prevp :=
    if freep =? 0 then
      modify (set_um_freep base) ;;;
      set_ptr base base ;;;
      set_size base 0 ;;;
      ret base
    else ret freep in
  let! p := get_ptr prevp in
  malloc_loop fuel fuel nunits prevp p.

(** * The heap *)

(** A list of headers linked one to the next, the last one to [e]. *)
Fixpoint lseg (m : mem) (l : list (Z * Z)) (e : Z) : Prop :=
  match l with
  | [] => True
  | (a, n) :: l' => size_of m a = n /\ ptr_of m a = hd e l'.*1 /\ lseg m l' e
  end.

(** Blocks by address, with a gap between any two. *)
Fixpoint chain (e : Z) (l : list (Z * Z)) : Prop :=
  match l with
  | [] => True
  | (a, n) :: l' => e < a /\ 0 <= n /\ chain (a + 16 * n) l'
  end.

#[local] Arguments size_of : simpl never.
#[local] Arguments ptr_of : simpl never.
#[local] Arguments store_le : simpl never.

(** ** Headers *)

Definition far (a b : Z) : Prop := a + 16 <= b \/ b + 16 <= a.

Lemma ptr_set_ptr m a v : is_u64 v -> ptr_of (store64 m a v) a = v.
Proof. apply load64_store64. Qed.
Lemma size_set_ptr m a v : size_of (store64 m a v) a = size_of m a.
Proof. apply load_le_ext. intros x Hx. apply store64_other. lia. Qed.
Lemma ptr_set_size m a n : ptr_of (store_le 4 m (a + 8) n) a = ptr_of m a.
Proof. apply load64_ext. intros x Hx. apply store_le_other. lia. Qed.
Lemma size_set_size m a n : is_u32 n -> size_of (store_le 4 m (a + 8) (u32 n)) a = n.
Proof. intros Hn. unfold size_of. rewrite u32_small by done. apply load_store_le. unfold is_u32 in Hn. lia. Qed.
Lemma ptr_set_ptr_far m a v b : far a b -> ptr_of (store64 m a v) b = ptr_of m b.
Proof. unfold far. intros Hf. apply load64_ext. intros x Hx. apply store64_other. lia. Qed.
Lemma size_set_ptr_far m a v b : far a b -> size_of (store64 m a v) b = size_of m b.
Proof. unfold far. intros Hf. apply load_le_ext. intros x Hx. apply store64_other. lia. Qed.
Lemma ptr_set_size_far m a n b : far a b -> ptr_of (store_le 4 m (a + 8) n) b = ptr_of m b.
Proof. unfold far. intros Hf. apply load64_ext. intros x Hx. apply store_le_other. lia. Qed.
Lemma size_set_size_far m a n b : far a b -> size_of (store_le 4 m (a + 8) n) b = size_of m b.
Proof. unfold far. intros Hf. apply load_le_ext. intros x Hx. apply store_le_other. lia. Qed.

(** Memory is the same but for the headers at the addresses in [l]. *)
Definition same_but (l : list Z) (m m' : mem) : Prop := forall x, (forall a, a ∈ l -> ~ (a <= x < a + 16)) -> m' x = m x.

Lemma same_but_refl l m : same_but l m m.
Proof. by intros x _. Qed.
Lemma same_but_ptr l m m' a v : same_but l m m' -> a ∈ l -> same_but l m (store64 m' a v).
Proof. intros Hs Ha x Hx. rewrite store64_other; [by apply Hs|]. specialize (Hx a Ha). lia. Qed.
Lemma same_but_size l m m' a n : same_but l m m' -> a ∈ l -> same_but l m (store_le 4 m' (a + 8) n).
Proof. intros Hs Ha x Hx. rewrite store_le_other; [by apply Hs|]. specialize (Hx a Ha). lia. Qed.
Lemma same_but_hdr l m m' b :
  same_but l m m' -> (forall a, a ∈ l -> far a b) -> ptr_of m' b = ptr_of m b /\ size_of m' b = size_of m b.
Proof.
  unfold far. intros Hs Hf. split; [apply load64_ext|apply load_le_ext]; intros x Hx; apply Hs; intros a Ha;
    specialize (Hf a Ha); lia.
Qed.

(** ** Linked lists *)

Lemma lseg_app m l1 l2 e : lseg m (l1 ++ l2) e <-> lseg m l1 (hd e l2.*1) /\ lseg m l2 e.
Proof.
  induction l1 as [|[a n] l1 IH]; [naive_solver|]. cbn [app lseg]. rewrite IH.
  destruct l1 as [|[b k] l1]; cbn; naive_solver.
Qed.
Lemma lseg_frame m m' l e chg :
  lseg m l e -> same_but chg m m' -> (forall a b, a ∈ chg -> b ∈ l.*1 -> far a b) -> lseg m' l e.
Proof.
  intros Hl Hs. induction l as [|[b k] l IH]; intros Hf; [done|]. destruct Hl as (H1 & H2 & H3).
  destruct (same_but_hdr _ _ _ b Hs) as [E1 E2]; [intros a Ha; apply Hf; [done|by left]|].
  cbn. rewrite E1, E2. split_and!; [done|done|]. apply IH; [done|]. intros a c Ha Hc. apply Hf; [done|by right].
Qed.

Lemma gaps_app e l1 l2 : chain e (l1 ++ l2) -> chain e l1 /\ exists e', e <= e' /\ chain e' l2 /\
  (forall l3, chain e' l3 -> chain e (l1 ++ l3)) /\ (forall x, x ∈ l1 -> x.1 + 16 * x.2 <= e').
Proof.
  revert e. induction l1 as [|[a n] l1 IH]; intros e Hc; cbn in *.
  - split; [done|]. exists e. split_and!; [lia|done|done|]. intros x Hx. by apply elem_of_nil in Hx.
  - destruct Hc as (H1 & H2 & H3). destruct (IH _ H3) as (H4 & e' & H5 & H6 & H7 & H8). split; [done|].
    exists e'. split_and!; [lia|done|naive_solver|]. intros x [->|Hx]%elem_of_cons; [cbn; lia|by apply H8].
Qed.
Lemma chain_low e l x : chain e l -> x ∈ l -> e < x.1.
Proof.
  revert e. induction l as [|[a n] l IH]; intros e Hc Hx; [by apply elem_of_nil in Hx|]. destruct Hc as (H1 & H2 & H3).
  apply elem_of_cons in Hx as [->|Hx]; [done|]. specialize (IH _ H3 Hx). lia.
Qed.

Lemma lseg_cons m a n l e : size_of m a = n -> ptr_of m a = hd e l.*1 -> lseg m l e -> lseg m ((a, n) :: l) e.
Proof. by cbn. Qed.

Lemma chain_nodup e l : chain e l -> NoDup l.*1.
Proof.
  revert e. induction l as [|[a n] l IH]; intros e Hc; cbn; [constructor|]. destruct Hc as (H1 & H2 & H3).
  constructor; [|by eapply IH]. intros (x & -> & Hx)%list_elem_of_fmap. pose proof (chain_low _ _ _ H3 Hx). lia.
Qed.

Lemma chain_weaken e e' l : chain e l -> e' <= e -> chain e' l.
Proof. destruct l as [|[a n] l]; [done|]. cbn. naive_solver lia. Qed.

Lemma hdr_add_small p n : 0 <= p + 16 * n < 2 ^ 64 -> hdr_add p n = p + 16 * n.
Proof. intros Hp. unfold hdr_add, sizeof_Header. by apply u64_small. Qed.

Lemma if_or {A} (c1 c2 : bool) (x y : A) : (if c1 then x else if c2 then x else y) = if c1 || c2 then x else y.
Proof. by destruct c1, c2. Qed.

(** Where the heap begins: the break of the program when it starts. *)
Context (lo : Z) (Hlo : base + 16 <= lo).
#[local] Set Default Proof Using "Type Hlo".

Definition sep (a n b m : Z) : Prop := a + 16 * n <= b \/ b + 16 * m <= a.
Definition inside (brk a n : Z) : Prop := lo <= a /\ 0 < n /\ a + 16 * n <= brk.
Definition free_ok (brk : Z) (own : gmap Z Z) (x : Z * Z) : Prop :=
  inside brk x.1 x.2 /\ forall b k, own !! b = Some k -> sep x.1 x.2 b k.

(** The blocks that have been handed out. *)
Record own_ok (m : mem) (brk : Z) (own : gmap Z Z) : Prop := {
  ow_in : forall a n, own !! a = Some n -> inside brk a n;
  ow_size : forall a n, own !! a = Some n -> size_of m a = n;
  ow_sep : forall a n b k, own !! a = Some n -> own !! b = Some k -> a <> b -> sep a n b k;
}.

(** [fl] is the free list and [own] the blocks that have been handed out. *)
Record heap (s : ust) (fl : list (Z * Z)) (own : gmap Z Z) : Prop := {
  hp_base : 0 < base;
  hp_brk : lo <= um_brk s <= PHYSTOP - KERNBASE;
  hp_list : lseg (um_mem s) ((base, 0) :: fl) base;
  hp_chain : chain (base - 1) ((base, 0) :: fl);
  hp_free : Forall (free_ok (um_brk s) own) fl;
  hp_own : own_ok (um_mem s) (um_brk s) own;
  hp_freep : um_freep s ∈ base :: fl.*1;
}.

(** ** The search of free() *)

Definition stop (bp p next : Z) : bool :=
  (bp >? p) && (bp <? next) || (p >=? next) && ((bp >? p) || (bp <? next)).

(** Along a list, the search stops at the first node that fits. *)
Lemma free_find_walk fuel bp l e s :
  lseg (um_mem s) l e -> (length l <= fuel)%nat ->
  (exists a, a ∈ l.*1 /\ stop bp a (ptr_of (um_mem s) a) = true) ->
  wp (free_find fuel bp (hd e l.*1)) (fun a s' => s' = s /\ a ∈ l.*1 /\ stop bp a (ptr_of (um_mem s) a) = true) s.
Proof.
  revert fuel. induction l as [|[a n] l IH]; intros [|fuel] Hl Hf (x & Hx & Hst); cbn in Hx, Hf; try lia;
    try by apply elem_of_nil in Hx.
  destruct Hl as (H1 & H2 & H3). cbn [hd fmap list_fmap fst free_find]. unfold get_ptr. wp_steps.
  rewrite if_or. change (_ || _) with (stop bp a (ptr_of (um_mem s) a)). destruct (stop bp a _) eqn:Ea.
  - wp_steps. split_and!; [done|by left|done].
  - rewrite H2 in *. apply elem_of_cons in Hx as [->|Hx]; [congruence|].
    eapply wp_mono; [apply IH; [done|lia|by exists x]|]. intros r s' (-> & Hr & Hs). split_and!; [done|by right|done].
Qed.

(** A circular list can be walked from any of its nodes. *)
Lemma lseg_rotate m l1 l2 : l2 <> [] -> lseg m (l1 ++ l2) (hd 0 (l1 ++ l2).*1) -> lseg m (l2 ++ l1) (hd 0 l2.*1).
Proof.
  intros Hne. destruct l1 as [|[a n] l1]; [by rewrite app_nil_r|]. rewrite !lseg_app. destruct l2 as [|[b k] l2]; [done|].
  cbn. naive_solver.
Qed.

(** The nodes of the list, from [base] on. *)
Definition nodes (fl : list (Z * Z)) : list (Z * Z) := (base, 0) :: fl.

Lemma node_split (a : Z) (l : list (Z * Z)) : a ∈ l.*1 -> exists l1 n l2, l = l1 ++ (a, n) :: l2.
Proof.
  intros ([a' n] & -> & Hx)%list_elem_of_fmap. apply list_elem_of_split in Hx as (l1 & l2 & ->). by exists l1, n, l2.
Qed.

(** The place of [bp] in the list, and that it is where the search stops. *)
Definition fits (bp a : Z) (l2 : list (Z * Z)) : Prop := a < bp /\ match l2 with [] => True | (b, _) :: _ => bp < b end.

Lemma fits_exists bp e l : chain e l -> (forall x, x ∈ l -> x.1 <> bp) ->
  (match l with [] => False | (a, _) :: _ => a < bp end) -> exists l1 a n l2, l = l1 ++ (a, n) :: l2 /\ fits bp a l2.
Proof.
  revert e. induction l as [|[a n] l IH]; intros e Hc Hne Hlt; [done|]. destruct Hc as (H1 & H2 & H3).
  destruct l as [|[b k] l].
  - exists [], a, n, []. by split.
  - destruct (decide (bp < b)).
    + exists [], a, n, ((b, k) :: l). by split.
    + destruct (IH _ H3) as (l1 & a' & n' & l2 & E & Hf).
      * intros x Hx. apply Hne. by right.
      * assert (b <> bp) by (apply (Hne (b, k)); right; by left). lia.
      * exists ((a, n) :: l1), a', n', l2. by rewrite E.
Qed.

Lemma stop_fits m bp fl l1 a n l2 :
  lseg m (nodes fl) base -> chain (base - 1) (nodes fl) -> nodes fl = l1 ++ (a, n) :: l2 -> base < bp ->
  stop bp a (ptr_of m a) = true <-> fits bp a l2.
Proof.
  intros Hl Hc E Hb. rewrite E in *. apply lseg_app in Hl as [_ (_ & -> & _)].
  apply gaps_app in Hc as (_ & e' & He & (Ha & Hn & Hc) & _). unfold stop, fits. destruct l2 as [|[b k] l2]; cbn.
  - lia.
  - destruct Hc as (Hab & _). lia.
Qed.

Lemma free_find_spec fuel s fl own bp n :
  heap s fl own -> own !! bp = Some n -> (length fl < fuel)%nat ->
  wp (free_find fuel bp (um_freep s))
    (fun a s' => s' = s /\ exists l1 k l2, nodes fl = l1 ++ (a, k) :: l2 /\ fits bp a l2) s.
Proof.
  intros [Hb Hk Hl Hc Hf Ho Hp] Hbp Hfuel. fold (nodes fl) in *.
  destruct (ow_in _ _ _ Ho _ _ Hbp) as (Hi & _ & _).
  destruct (node_split _ (nodes fl) Hp) as (q1 & j & q2 & E). 
  assert (Hr : lseg (um_mem s) (((um_freep s, j) :: q2) ++ q1) (um_freep s)).
  { apply (lseg_rotate _ q1 ((um_freep s, j) :: q2)); [done|]. rewrite <- E. exact Hl. }
  assert (Hin : forall a, a ∈ (nodes fl).*1 <-> a ∈ (((um_freep s, j) :: q2) ++ q1).*1).
  { intros a. rewrite E, !fmap_app, !elem_of_app. tauto. }
  destruct (fits_exists bp (base - 1) (nodes fl)) as (l1 & a & k & l2 & E2 & Hfit); [done| |cbn; lia|].
  { intros x [->|Hx]%elem_of_cons; [cbn; lia|]. rewrite Forall_forall in Hf. destruct (Hf x Hx) as [(_ & Hx2 & _) Hsep].
    destruct (ow_in _ _ _ Ho _ _ Hbp) as (_ & Hn & _). specialize (Hsep _ _ Hbp). unfold sep in Hsep. lia. }
  eapply wp_mono; [apply (free_find_walk _ _ _ _ _ Hr)|].
  - assert (length (nodes fl) = length (((um_freep s, j) :: q2) ++ q1)) by (rewrite E, !length_app; lia). cbn in *. lia.
  - exists a. split; [apply Hin; rewrite E2, fmap_app; apply elem_of_app; right; by left|]. apply (stop_fits _ _ fl l1 a k l2); done || lia.
  - intros r s' (-> & Hr1 & Hst). split; [done|]. apply Hin, node_split in Hr1 as (l3 & k3 & l4 & E3).
    exists l3, k3, l4. split; [done|]. apply (stop_fits (um_mem s) _ fl l3 r k3 l4); done || lia.
Qed.

(** ** Joining neighbours *)

Definition small (x : Z) : Prop := 0 <= x < 2 ^ 31.

Lemma join_next_spec s bp n l2 :
  size_of (um_mem s) bp = n -> lseg (um_mem s) l2 base -> base < bp -> small (bp + 16 * n) -> 0 < n -> 0 < base ->
  (forall x, x ∈ l2 -> far bp x.1 /\ 0 <= x.2 /\ small (x.1 + 16 * x.2) /\ 0 < x.1) ->
  wp (join_next bp n (hd base l2.*1)) (fun _ s' => exists m1 nb rest, s' = set_um_mem m1 s /\ same_but [bp] (um_mem s) m1 /\
    lseg m1 ((bp, nb) :: rest) base /\
    (rest = l2 /\ nb = n /\ bp + 16 * n <> hd base l2.*1 \/ exists kb, l2 = (bp + 16 * n, kb) :: rest /\ nb = n + kb)) s.
Proof.
  intros Hsz Hl Hb Hs Hn Hb0 Hx. unfold join_next, set_size, set_ptr, get_ptr, get_size, small in *. rewrite hdr_add_small by lia.
  assert (Hin : bp ∈ [bp]) by (by left).
  assert (Hu : forall l, (forall x, x ∈ l -> x ∈ l2) -> is_u64 (hd base l.*1)).
  { intros [|[c j] l] Hsub; cbn; unfold is_u64; [lia|]. specialize (Hx (c, j) (Hsub _ ltac:(left))). cbn in Hx. lia. }
  assert (Hfar : forall l, (forall x, x ∈ l -> x ∈ l2) -> forall a b, a ∈ [bp] -> b ∈ l.*1 -> far a b).
  { intros l Hsub a b ->%list_elem_of_singleton (x & -> & Hxl)%list_elem_of_fmap. by apply Hx, Hsub. }
  destruct (Z.eqb_spec (bp + 16 * n) (hd base l2.*1)) as [E|E].
  - destruct l2 as [|[b kb] rest]; cbn in E; [lia|]. subst b. destruct Hl as (H1 & H2 & H3). cbn [hd fmap list_fmap fst].
    destruct (Hx (bp + 16 * n, kb)) as (Hf & Hk & Hs2 & _); [by left|]. cbn in Hf, Hk, Hs2. wp_steps. cbn [um_mem set_um_mem].
    rewrite H1, ptr_set_size_far, H2 by done. eexists _, (n + kb), rest. split; [reflexivity|]. split_and!; [|apply lseg_cons|].
    + apply same_but_ptr; [|done]. apply same_but_size; [|done]. apply same_but_refl.
    + rewrite size_set_ptr. apply size_set_size. unfold is_u32. lia.
    + apply ptr_set_ptr, Hu. intros x Hxx. by right.
    + eapply (lseg_frame _ _ _ _ [bp]); [done| |].
      * apply same_but_ptr; [|done]. apply same_but_size; [|done]. apply same_but_refl.
      * apply Hfar. intros x Hxx. by right.
    + right. by exists kb.
  - wp_steps. eexists _, n, l2. split; [reflexivity|]. split_and!; [|apply lseg_cons|].
    + apply same_but_ptr; [|done]. apply same_but_refl.
    + by rewrite size_set_ptr.
    + by apply ptr_set_ptr, Hu.
    + eapply (lseg_frame _ _ _ _ [bp]); [done| |by apply Hfar]. apply same_but_ptr; [|done]. apply same_but_refl.
    + by left.
Qed.

Lemma join_prev_spec s bp nb rest a k :
  size_of (um_mem s) a = k -> lseg (um_mem s) ((bp, nb) :: rest) base -> far a bp -> 0 <= k -> 0 < a ->
  0 < bp -> 0 < nb -> 0 < base -> small base -> small (a + 16 * k) -> small (bp + 16 * nb) ->
  (forall x, x ∈ rest -> far a x.1 /\ small x.1) ->
  wp (join_prev bp a) (fun _ s' => exists m2 k' rest', s' = set_um_mem m2 s /\ same_but [a] (um_mem s) m2 /\
    lseg m2 ((a, k') :: rest') base /\
    (k' = k + nb /\ rest' = rest /\ a + 16 * k = bp \/ k' = k /\ rest' = (bp, nb) :: rest /\ a + 16 * k <> bp)) s.
Proof.
  intros Hsz Hl Hab Hk Ha Hbp Hnb Hb0 Hb1 Hs1 Hs2 Hx. unfold join_prev, set_size, set_ptr, get_ptr, get_size, small in *.
  wp_steps. rewrite Hsz, hdr_add_small by lia. assert (Hin : a ∈ [a]) by (by left).
  assert (Hfar : forall c b, c ∈ [a] -> b ∈ rest.*1 -> far c b).
  { intros c b ->%list_elem_of_singleton (x & -> & Hxl)%list_elem_of_fmap. by apply Hx. }
  assert (Hl' := Hl). destruct Hl' as (H1 & H2 & H3).
  destruct (Z.eqb_spec (a + 16 * k) bp) as [E|E].
  - wp_steps. cbn [um_mem set_um_mem]. rewrite H1, ptr_set_size_far, H2 by done. eexists _, (k + nb), rest.
    split; [reflexivity|]. split_and!; [|apply lseg_cons|].
    + apply same_but_ptr; [|done]. apply same_but_size; [|done]. apply same_but_refl.
    + rewrite size_set_ptr. apply size_set_size. unfold is_u32. lia.
    + apply ptr_set_ptr. destruct rest as [|[c j] rest]; cbn; unfold is_u64; [lia|].
      specialize (Hx (c, j) ltac:(left)). cbn in Hx. lia.
    + eapply (lseg_frame _ _ _ _ [a]); [done| |done].
      apply same_but_ptr; [|done]. apply same_but_size; [|done]. apply same_but_refl.
    + by left.
  - wp_steps. eexists _, k, ((bp, nb) :: rest). split; [reflexivity|]. split_and!; [|apply lseg_cons|].
    + apply same_but_ptr; [|done]. apply same_but_refl.
    + by rewrite size_set_ptr.
    + apply ptr_set_ptr. cbn. unfold is_u64. lia.
    + eapply (lseg_frame _ _ _ _ [a]); [exact Hl| |].
      * apply same_but_ptr; [|done]. apply same_but_refl.
      * intros c b Hc [->|Hb]%elem_of_cons; [|by apply Hfar]. by apply list_elem_of_singleton in Hc as ->.
    + by right.
Qed.

(** ** free() *)

(** What surrounds a node of the list. *)
Record around (s : ust) (fl : list (Z * Z)) (own : gmap Z Z) (l1 : list (Z * Z)) (a k : Z) (l2 : list (Z * Z)) : Prop := {
  ar_low : base <= a;
  ar_size : 0 <= k;
  ar_high : a + 16 <= um_brk s /\ a + 16 * k <= um_brk s;
  ar_where : a = base /\ k = 0 /\ l1 = [] /\ l2 = fl \/
             exists l1', l1 = (base, 0) :: l1' /\ fl = l1' ++ (a, k) :: l2 /\ inside (um_brk s) a k;
  ar_above : forall x, x ∈ l2 -> inside (um_brk s) x.1 x.2 /\ a + 16 * k < x.1 /\ a + 16 <= x.1;
  ar_below : forall x, x ∈ l1 -> x.1 + 16 <= a;
  ar_own : forall b j, own !! b = Some j -> sep a k b j /\ far a b;
}.

Lemma heap_around s fl own l1 a k l2 : heap s fl own -> nodes fl = l1 ++ (a, k) :: l2 -> around s fl own l1 a k l2.
Proof.
  intros [Hb Hk Hl Hc Hf Ho Hp] E. fold (nodes fl) in *. rewrite E in Hc.
  destruct (gaps_app _ _ _ Hc) as (_ & e' & He & (H1 & H2 & H3) & _ & Hlow). rewrite Forall_forall in Hf.
  assert (Hab : forall x, x ∈ l2 -> a + 16 * k < x.1) by (intros x; by apply chain_low).
  destruct l1 as [|y l1]; cbn in E; injection E as E1 E2.
  - subst a k l2. split; try done; try lia; [by left| | |].
    + intros x Hx. destruct (Hf x Hx) as [Hi _]. split; [done|]. unfold inside in Hi. lia.
    + intros x Hx. by apply elem_of_nil in Hx.
    + intros b j Hbj. pose proof (ow_in _ _ _ Ho _ _ Hbj) as (? & ? & ?). unfold sep, far. lia.
  - assert (Hin : (a, k) ∈ fl) by (rewrite E2; apply elem_of_app; right; by left). destruct (Hf _ Hin) as [Hi Hs]. unfold inside in Hi. cbn in Hi, Hs.
    split; try lia; [right; subst y; by exists l1| | |].
    + intros x Hx. assert (Hx2 : x ∈ fl) by (rewrite E2; apply elem_of_app; right; by right). destruct (Hf x Hx2) as [Hxi _]. split; [done|].
      specialize (Hab x Hx). lia.
    + intros x Hx. specialize (Hlow x Hx). apply elem_of_cons in Hx as [->|Hx]; [rewrite <- E1; cbn; lia|].
      assert (Hx2 : x ∈ fl) by (rewrite E2; apply elem_of_app; by left). destruct (Hf x Hx2) as [(? & ? & ?) _]. lia.
    + intros b j Hbj. split; [by apply Hs|]. pose proof (ow_in _ _ _ Ho _ _ Hbj) as (? & ? & ?). specialize (Hs _ _ Hbj).
      unfold sep, far in *. lia.
Qed.

(** Everything in the blocks of [own] is as it was. *)
Definition kept (own : gmap Z Z) (m m' : mem) : Prop :=
  forall b k, own !! b = Some k -> forall x, b <= x < b + 16 * k -> m' x = m x.

Lemma own_kept m m' brk own : own_ok m brk own -> kept own m m' -> own_ok m' brk own.
Proof.
  intros [H1 H2 H3] Hk. split; [done| |done]. intros a n Ha. rewrite <- (H2 _ _ Ha). apply load_le_ext. intros x Hx.
  apply (Hk _ _ Ha). destruct (H1 _ _ Ha) as (_ & ? & _). lia.
Qed.
Lemma own_delete m brk own bp : own_ok m brk own -> own_ok m brk (delete bp own).
Proof.
  intros [H1 H2 H3]. split.
  - intros a n [_ Ha]%lookup_delete_Some. by apply H1.
  - intros a n [_ Ha]%lookup_delete_Some. by apply H2.
  - intros a n b k [_ Ha]%lookup_delete_Some [_ Hb]%lookup_delete_Some. by apply H3.
Qed.
Lemma kept_same own chg m m' :
  same_but chg m m' -> (forall c b k, c ∈ chg -> own !! b = Some k -> c + 16 <= b \/ b + 16 * k <= c) -> kept own m m'.
Proof. intros Hs Hc b k Hb x Hx. apply Hs. intros c Hcc. specialize (Hc c b k Hcc Hb). lia. Qed.

Definition total (fl : list (Z * Z)) : Z := foldr (fun x t => x.2 + t) 0 fl.
Lemma total_app l1 l2 : total (l1 ++ l2) = total l1 + total l2.
Proof. induction l1 as [|x l1 IH]; cbn; [done|]. fold (total (l1 ++ l2)). rewrite IH. unfold total. lia. Qed.

Lemma free_ok_delete brk own bp x : free_ok brk own x -> free_ok brk (delete bp own) x.
Proof. intros [Hi Hs]. split; [done|]. intros b k [_ Hb]%lookup_delete_Some. by apply Hs. Qed.

(** The block and what follows it, once it has been joined to its upper neighbour. *)
Record upper (brk : Z) (own : gmap Z Z) (bp n : Z) (l2 : list (Z * Z)) (nb : Z) (rest : list (Z * Z)) : Prop := {
  up_chain : chain (bp + 16 * nb) rest;
  up_block : free_ok brk (delete bp own) (bp, nb);
  up_rest : Forall (free_ok brk (delete bp own)) rest;
  up_sub : forall x, x ∈ rest -> x ∈ l2;
  up_len : (length rest <= length l2)%nat;
  up_total : total rest + nb = total l2 + n;
  up_size : n <= nb;
}.

Lemma upper_intro brk m own bp n e l2 nb rest :
  own_ok m brk own -> own !! bp = Some n -> chain e l2 -> Forall (free_ok brk own) l2 ->
  match l2 with [] => True | (b, _) :: _ => bp < b end ->
  (rest = l2 /\ nb = n /\ bp + 16 * n <> hd base l2.*1 \/ exists kb, l2 = (bp + 16 * n, kb) :: rest /\ nb = n + kb) ->
  upper brk own bp n l2 nb rest.
Proof.
  intros Ho Hbp Hc Hf Hlt Hr. pose proof (ow_in _ _ _ Ho _ _ Hbp) as Hi.
  assert (Hown : forall b k, delete bp own !! b = Some k -> sep bp n b k).
  { intros b k [Hne Hb]%lookup_delete_Some. by apply (ow_sep _ _ _ Ho). }
  assert (Hfd : Forall (free_ok brk (delete bp own)) l2) by (eapply Forall_impl; [exact Hf|]; intros x; apply free_ok_delete).
  destruct Hr as [(-> & -> & Hne)|(kb & -> & ->)].
  - split; try done; try lia. destruct l2 as [|[b j] l2]; [done|]. destruct Hc as (H1 & H2 & H3).
    apply Forall_cons_1 in Hf as [[_ Hs] _]. specialize (Hs _ _ Hbp). unfold sep in Hs. cbn in *. unfold inside in Hi. split_and!; try done. lia.
  - destruct Hc as (H1 & H2 & H3). apply Forall_cons_1 in Hfd as [[Hi2 Hs2] Hfd]. cbn in Hi2, Hs2. unfold inside in Hi, Hi2.
    split; try done; try (cbn; lia).
    + by replace (bp + 16 * (n + kb)) with (bp + 16 * n + 16 * kb) by lia.
    + split; [unfold inside; cbn; lia|]. intros b j Hb. specialize (Hown _ _ Hb). specialize (Hs2 _ _ Hb).
      apply lookup_delete_Some in Hb as [_ Hb]. pose proof (ow_in _ _ _ Ho _ _ Hb) as (_ & ? & _). unfold sep in *. cbn. lia.
    + intros x Hx. by right.
    + unfold total. cbn. lia.
Qed.

(** The list after a change behind the node [a], and at it. *)
Lemma heap_relink s fl own own' l1 a k l2 chg m' g k' rest' :
  heap s fl own -> nodes fl = l1 ++ (a, k) :: l2 ->
  lseg m' ((a, k') :: rest') base -> same_but chg (um_mem s) m' -> (forall c, c ∈ chg -> a <= c) ->
  0 <= k' -> chain (a + 16 * k') rest' -> Forall (free_ok (um_brk s) own') rest' ->
  (forall x, x ∈ fl -> x ∈ l1 -> free_ok (um_brk s) own' x) ->
  (a <> base -> free_ok (um_brk s) own' (a, k')) -> (a = base -> k' = 0) -> own_ok m' (um_brk s) own' ->
  exists fl', heap (mkUst m' a (um_brk s) g) fl' own' /\ nodes fl' = l1 ++ (a, k') :: rest'.
Proof.
  intros Hh E Hl' Hsb Hchg Hk' Hch Hfr Hl1f Haf Hab Ho'. pose proof (heap_around _ _ _ _ _ _ _ Hh E) as [A1 A2 A3 A4 A5 A6 A7].
  destruct Hh as [H1 H2 H3 H4 H5 H6 H7]. fold (nodes fl) in *. rewrite E in H3, H4.
  apply lseg_app in H3 as [Hl1 _]. apply gaps_app in H4 as (_ & e' & He & (C1 & C2 & C3) & Hcl & _).
  assert (Hch' : chain (base - 1) (l1 ++ (a, k') :: rest')) by (apply Hcl; split_and!; [done|done|exact Hch]).
  assert (Hls : lseg m' (l1 ++ (a, k') :: rest') base).
  { apply lseg_app. split; [|done]. eapply lseg_frame; [exact Hl1|exact Hsb|].
    intros c b Hc (x & -> & Hx)%list_elem_of_fmap. specialize (A6 x Hx). specialize (Hchg c Hc). right. lia. }
  destruct A4 as [(-> & -> & -> & ->)|(l1' & -> & Efl & Hi)].
  - specialize (Hab eq_refl) as ->. exists rest'. split; [|done]. split; cbn [um_mem um_brk um_freep]; try done. by left.
  - exists (l1' ++ (a, k') :: rest'). split; [|done]. unfold inside in Hi. split; cbn [um_mem um_brk um_freep]; try done.
    + apply Forall_app. split; [|by apply Forall_cons; split; [apply Haf; lia|]]. apply Forall_forall. intros x Hx. apply Hl1f; [|by right].
      rewrite Efl. apply elem_of_app. by left.
    + right. rewrite fmap_app. apply elem_of_app. right. by left.
Qed.

(** The heap after the two joins. *)
Lemma free_relinked s fl own bp n l1 a k l2 nb rest m2 k' rest' g :
  heap s fl own -> own !! bp = Some n -> nodes fl = l1 ++ (a, k) :: l2 -> a < bp -> upper (um_brk s) own bp n l2 nb rest ->
  same_but [bp; a] (um_mem s) m2 -> lseg m2 ((a, k') :: rest') base ->
  (k' = k + nb /\ rest' = rest /\ a + 16 * k = bp \/ k' = k /\ rest' = (bp, nb) :: rest /\ a + 16 * k <> bp) ->
  exists fl', heap (mkUst m2 a (um_brk s) g) fl' (delete bp own) /\ kept (delete bp own) (um_mem s) m2 /\
    (length fl' <= S (length fl))%nat /\ total fl' = total fl + n /\ exists x, x ∈ fl' /\ n <= x.2.
Proof.
  intros Hh Hbp E Hlt [U1 U2 U3 U4 U5 U6 U7] Hsb Hls2 Hj. pose proof (hp_own _ _ _ Hh) as Ho.
  pose proof (ow_in _ _ _ Ho _ _ Hbp) as (Hi1 & Hi2 & Hi3). pose proof U2 as [(_ & Hnb & _) _]. cbn in Hnb.
  pose proof (heap_around _ _ _ _ _ _ _ Hh E) as [A1 A2 A3 A4 A5 A6 A7]. destruct (A7 _ _ Hbp) as [Hsab Hfab].
  assert (Hkept : kept (delete bp own) (um_mem s) m2).
  { apply (kept_same _ [bp; a]); [done|]. intros c b j Hcc Hb. apply lookup_delete_Some in Hb as [Hne Hb].
    pose proof (ow_sep _ _ _ Ho _ _ _ _ Hbp Hb Hne) as Hsp. destruct (A7 _ _ Hb) as [Hs3 Hf3]. unfold sep, far in *.
    apply elem_of_cons in Hcc as [->| ->%list_elem_of_singleton]; lia. }
  assert (Hbase : a = base -> k = 0) by (destruct A4 as [(_ & ? & _)|(l1' & _ & _ & ? & _)]; lia).
  assert (Hafree : a <> base -> free_ok (um_brk s) own (a, k)).
  { intros Hne. destruct A4 as [(? & _)|(l1' & _ & Efl & _)]; [lia|]. pose proof (hp_free _ _ _ Hh) as Hf.
    rewrite Forall_forall in Hf. apply Hf. rewrite Efl. apply elem_of_app. right. by left. }
  destruct (heap_relink s fl own (delete bp own) l1 a k l2 [bp; a] m2 g k' rest' Hh E Hls2 Hsb) as (fl' & Hh' & E').
  - intros c [->| ->%list_elem_of_singleton]%elem_of_cons; lia.
  - destruct Hj as [(-> & _)|(-> & _)]; lia.
  - destruct Hj as [(-> & -> & Hj)|(-> & -> & Hj)].
    + by replace (a + 16 * (k + nb)) with (bp + 16 * nb) by lia.
    + unfold sep in Hsab. split_and!; [lia|lia|done].
  - destruct Hj as [(_ & -> & _)|(_ & -> & _)]; [done|]. by apply Forall_cons.
  - intros x Hx _. apply free_ok_delete. pose proof (hp_free _ _ _ Hh) as Hf. rewrite Forall_forall in Hf. by apply Hf.
  - intros Hne. pose proof (free_ok_delete _ _ bp _ (Hafree Hne)) as Ha. destruct Hj as [(-> & _ & Hj)|(-> & _)]; [|done].
    destruct Ha as [Hia Hsa2], U2 as [Hiu Hsu]. unfold inside in *. cbn in *. split; [unfold inside; cbn; lia|].
    intros b j Hb. specialize (Hsa2 _ _ Hb). specialize (Hsu _ _ Hb). apply lookup_delete_Some in Hb as [_ Hb].
    destruct (ow_in _ _ _ Ho _ _ Hb) as (_ & ? & _). unfold sep in *. cbn in *. lia.
  - intros Hab. specialize (Hbase Hab). destruct Hj as [(_ & _ & Hj)|(-> & _)]; lia.
  - eapply own_kept; [by apply own_delete|done].
  - exists fl'. split_and!; try done.
    + apply (f_equal length) in E, E'. rewrite length_app in E, E'. cbn in E, E'.
      destruct Hj as [(_ & -> & _)|(_ & -> & _)]; cbn in *; lia.
    + apply (f_equal total) in E, E'. rewrite total_app in E, E'. unfold total in *. cbn in E, E'.
      destruct Hj as [(-> & -> & _)|(-> & -> & _)]; cbn in *; lia.
    + assert (Hnode : forall x, x ∈ nodes fl' -> x.1 <> base -> x ∈ fl') by (intros x [->|Hx]%elem_of_cons; cbn; done).
      destruct Hj as [(-> & -> & Hj)|(-> & -> & Hj)].
      * exists (a, k + nb). split; [|cbn; lia]. apply Hnode; [rewrite E'; apply elem_of_app; right; by left|cbn; lia].
      * exists (bp, nb). split; [|cbn; lia]. apply Hnode; [rewrite E'; apply elem_of_app; right; right; by left|cbn; lia].
Qed.

Lemma free_spec fuel s fl own bp n :
  heap s fl own -> own !! bp = Some n -> (length fl < fuel)%nat ->
  wp (free fuel (bp + 16)) (fun _ s' => exists fl', heap s' fl' (delete bp own) /\
    kept (delete bp own) (um_mem s) (um_mem s') /\ um_brk s' = um_brk s /\ um_grants s' = um_grants s /\
    (length fl' <= S (length fl))%nat /\ total fl' = total fl + n /\ exists x, x ∈ fl' /\ n <= x.2) s.
Proof.
  intros Hh Hbp Hfuel. pose proof (hp_own _ _ _ Hh) as Ho. pose proof (ow_in _ _ _ Ho _ _ Hbp) as (Hi1 & Hi2 & Hi3).
  pose proof (hp_base _ _ _ Hh) as Hb0. pose proof (hp_brk _ _ _ Hh) as Hbrk. change (PHYSTOP - KERNBASE) with 134217728 in Hbrk.
  unfold free. rewrite hdr_add_small by lia. replace (bp + 16 + 16 * -1) with bp by lia. unfold get_size, get_ptr. wp_steps.
  wp_use (free_find_spec fuel s fl own bp n Hh Hbp Hfuel). intros a s1 (-> & l1 & k & l2 & E & Hfit). wp_steps.
  pose proof (heap_around _ _ _ _ _ _ _ Hh E) as [A1 A2 A3 A4 A5 A6 A7]. pose proof (hp_list _ _ _ Hh) as Hl.
  pose proof (hp_chain _ _ _ Hh) as Hc. fold (nodes fl) in Hl, Hc. rewrite E in Hl, Hc.
  apply lseg_app in Hl as (Hl1 & Hsa & Hpa & Hl2). apply gaps_app in Hc as (_ & e' & He & (C1 & C2 & C3) & Hcl & _).
  rewrite (ow_size _ _ _ Ho _ _ Hbp), Hpa. destruct (A7 _ _ Hbp) as [Hsab Hfab].
  assert (Hf2 : Forall (free_ok (um_brk s) own) l2).
  { pose proof (hp_free _ _ _ Hh) as Hf. destruct A4 as [(_ & _ & _ & ->)|(l1' & _ & -> & _)]; [done|].
    apply Forall_app in Hf as [_ Hf]. by apply Forall_cons_1 in Hf as [_ Hf]. }
  eapply wp_mono; [apply (join_next_spec s bp n l2); try done; try lia; [by apply (ow_size _ _ _ Ho)|unfold small; lia|]|].
  { intros x Hx. destruct (A5 x Hx) as ((? & ? & ?) & ? & ?). rewrite Forall_forall in Hf2. destruct (Hf2 x Hx) as [_ Hs].
    specialize (Hs _ _ Hbp). unfold sep, far, small in *. lia. }
  intros [] s1 (m1 & nb & rest & -> & Hsb1 & Hls1 & Hr). cbn [um_mem set_um_mem].
  pose proof (upper_intro _ _ own bp n _ l2 nb rest Ho Hbp C3 Hf2 ltac:(apply Hfit) Hr) as [U1 U2 U3 U4 U5 U6 U7].
  destruct (same_but_hdr _ _ _ a Hsb1) as [_ Hsa1]; [intros c ->%list_elem_of_singleton; unfold far in *; lia|].
  pose proof U2 as [(_ & Hnb & Hnb2) _]. cbn in Hnb, Hnb2. destruct Hfit as [Hlt _]. wp_step.
  eapply wp_mono; [apply (join_prev_spec _ bp nb rest a k); cbn [um_mem set_um_mem]; try done; try lia; try (unfold small; lia)|].
  { intros x Hx. destruct (A5 x (U4 x Hx)) as ((? & ? & ?) & ? & ?). unfold far, small. lia. }
  intros [] s2 (m2 & k' & rest' & -> & Hsb2 & Hls2 & Hj). cbn [um_mem set_um_mem] in *. wp_step.
  destruct (free_relinked s fl own bp n l1 a k l2 nb rest m2 k' rest' (um_grants s) Hh Hbp E Hlt) as (fl' & Hh' & Hk' & Hl' & Ht' & Hx'); try done.
  - intros x Hx. rewrite Hsb2, Hsb1; [done| |]; intros c ->%list_elem_of_singleton; apply Hx; [by left|by right; left].
  - by exists fl'.
Qed.

(** ** malloc() *)

(** What a successful allocation of [nu] units at [r] does. *)
Record allocated (s : ust) (fl : list (Z * Z)) (own : gmap Z Z) (nu r : Z) (s' : ust) (fl' : list (Z * Z)) : Prop := {
  al_heap : heap s' fl' (<[r := nu]> own);
  al_new : own !! r = None;
  al_kept : kept own (um_mem s) (um_mem s');
  al_len : (length fl' <= length fl)%nat;
  al_total : total fl' + nu = total fl;
}.

(** The block [r] cut out of the free block [a], of which [j] units remain. *)
Lemma own_insert s fl own a n j nu m' :
  heap s fl own -> (a, n) ∈ fl -> 0 <= j -> 0 < nu -> j + nu = n -> kept own (um_mem s) m' -> size_of m' (a + 16 * j) = nu ->
  own !! (a + 16 * j) = None /\ own_ok m' (um_brk s) (<[a + 16 * j := nu]> own).
Proof.
  intros Hh Hin Hj Hnu Hn Hk Hsz. pose proof (hp_free _ _ _ Hh) as Hf. rewrite Forall_forall in Hf.
  destruct (Hf _ Hin) as [(Hi1 & Hi2 & Hi3) Hs]. cbn in *. pose proof (hp_own _ _ _ Hh) as Ho.
  assert (Hsep : forall b k, own !! b = Some k -> sep (a + 16 * j) nu b k).
  { intros b k Hb. specialize (Hs _ _ Hb). destruct (ow_in _ _ _ Ho _ _ Hb) as (_ & ? & _). unfold sep in *. lia. }
  assert (Hnone : own !! (a + 16 * j) = None).
  { destruct (own !! (a + 16 * j)) as [k|] eqn:Eb; [|done]. specialize (Hsep _ _ Eb).
    destruct (ow_in _ _ _ Ho _ _ Eb) as (_ & ? & _). unfold sep in Hsep. lia. }
  split; [done|]. destruct (own_kept _ _ _ _ Ho Hk) as [O1 O2 O3]. split.
  - intros b k [[<- <-]|[_ Hb]]%lookup_insert_Some; [unfold inside; lia|by apply O1].
  - intros b k [[<- <-]|[_ Hb]]%lookup_insert_Some; [done|by apply O2].
  - intros b k c i [[<- <-]|[_ Hb]]%lookup_insert_Some [[<- <-]|[_ Hc]]%lookup_insert_Some Hne; [done|by apply Hsep| |by apply O3].
    specialize (Hsep _ _ Hb). unfold sep in *. lia.
Qed.

Lemma free_ok_insert brk own x r nu :
  free_ok brk own x -> sep x.1 x.2 r nu -> free_ok brk (<[r := nu]> own) x.
Proof. intros [Hi Hs] Hr. split; [done|]. intros b k [[<- <-]|[_ Hb]]%lookup_insert_Some; [done|by apply Hs]. Qed.

(** What surrounds a free block and the node before it. *)
Record block_at (s : ust) (fl : list (Z * Z)) (own : gmap Z Z) (l1 : list (Z * Z)) (p k a n : Z) (l2 : list (Z * Z)) : Prop := {
  ba_in : (a, n) ∈ fl;
  ba_gap : p + 16 * k < a /\ p + 16 <= a;
  ba_size : size_of (um_mem s) p = k /\ size_of (um_mem s) a = n /\ ptr_of (um_mem s) p = a /\ ptr_of (um_mem s) a = hd base l2.*1;
  ba_list : lseg (um_mem s) l2 base;
  ba_chain : chain (a + 16 * n) l2;
  ba_ok : inside (um_brk s) a n;
  ba_rest : Forall (free_ok (um_brk s) own) l2;
  ba_prev : p <> base -> free_ok (um_brk s) own (p, k);
  ba_base : base <= p /\ 0 <= k /\ (p = base -> k = 0);
  ba_below : forall x, x ∈ fl -> x ∈ l1 -> free_ok (um_brk s) own x /\ x.1 + 16 * x.2 <= p;
  ba_above : forall x, x ∈ l2 -> a + 16 * n < x.1 /\ x.1 < 2 ^ 31;
}.

Lemma heap_block s fl own l1 p k a n l2 :
  heap s fl own -> nodes fl = l1 ++ (p, k) :: (a, n) :: l2 -> block_at s fl own l1 p k a n l2.
Proof.
  intros Hh E. pose proof (heap_around _ _ _ _ _ _ _ Hh E) as [A1 A2 A3 A4 A5 A6 A7].
  destruct Hh as [H1 H2 H3 H4 H5 H6 H7]. fold (nodes fl) in *. rewrite E in H3, H4. rewrite Forall_forall in H5.
  apply lseg_app in H3 as (_ & L1 & L2 & L3 & L4 & L5). apply gaps_app in H4 as (_ & e' & He & (C1 & C2 & C3 & C4 & C5) & _ & Clow).
  destruct (A5 (a, n)) as (Hi & Hg1 & Hg2); [by left|]. cbn in Hi, Hg1, Hg2.
  assert (Hrest : forall x, x ∈ (a, n) :: l2 -> x ∈ fl).
  { intros x Hx. destruct A4 as [(_ & _ & _ & <-)|(l1' & _ & -> & _)]; [done|]. apply elem_of_app. right. by right. }
  change (PHYSTOP - KERNBASE) with 134217728 in H2.
  split; try done.
  - apply Hrest. by left.
  - apply Forall_forall. intros x Hx. apply H5, Hrest. by right.
  - intros Hne. apply H5. destruct A4 as [(? & _)|(l1' & _ & -> & _)]; [done|]. apply elem_of_app. right. by left.
  - split_and!; [done|done|]. intros ->. destruct A4 as [(_ & ? & _)|(l1' & _ & _ & ? & _)]; [done|lia].
  - intros x Hx Hx1. split; [by apply H5|]. specialize (Clow x Hx1). lia.
  - intros x Hx. split; [by apply (chain_low _ l2)|]. destruct (A5 x) as ((? & ? & ?) & _); [by right|]. lia.
Qed.

Lemma take_all s fl own l1 p k a n l2 :
  heap s fl own -> nodes fl = l1 ++ (p, k) :: (a, n) :: l2 ->
  exists fl', allocated s fl own n a (mkUst (store64 (um_mem s) p (ptr_of (um_mem s) a)) p (um_brk s) (um_grants s)) fl'.
Proof.
  intros Hh E. pose proof (heap_block _ _ _ _ _ _ _ _ _ Hh E) as [B1 B2 B3 B4 B5 B6 B7 B8 B9 B10 B11].
  pose proof (heap_around _ _ _ _ _ _ _ Hh E) as [_ _ _ _ _ _ A7]. destruct B3 as (S1 & S2 & P1 & P2), B6 as (I1 & I2 & I3).
  pose proof (hp_brk _ _ _ Hh) as Hbrk. pose proof (hp_base _ _ _ Hh) as Hb0.
  set (m' := store64 _ _ _). assert (Hsb : same_but [p] (um_mem s) m') by (apply same_but_ptr; [apply same_but_refl|by left]).
  assert (Hkept : kept own (um_mem s) m').
  { apply (kept_same _ [p]); [done|]. intros c b j ->%list_elem_of_singleton Hb. destruct (A7 _ _ Hb). unfold sep, far in *. lia. }
  destruct (own_insert s fl own a n 0 n m' Hh B1) as [Hnone Hown]; try lia; [done| |].
  { replace (a + 16 * 0) with a by lia. unfold m'. rewrite size_set_ptr_far; [done|]. unfold far. lia. }
  replace (a + 16 * 0) with a in * by lia.
  destruct (heap_relink s fl own (<[a := n]> own) l1 p k ((a, n) :: l2) [p] m' (um_grants s) k l2 Hh E) as (fl' & Hh' & E'); try done; try lia.
  - apply lseg_cons; [unfold m'; by rewrite size_set_ptr| |].
    + unfold m'. rewrite P2. apply ptr_set_ptr. destruct l2 as [|[b j] l2]; cbn; unfold is_u64.
      * change (PHYSTOP - KERNBASE) with 134217728 in Hbrk. lia.
      * specialize (B11 (b, j) ltac:(left)). cbn in B11. lia.
    + eapply lseg_frame; [exact B4|exact Hsb|]. intros c b ->%list_elem_of_singleton (x & -> & Hx)%list_elem_of_fmap.
      specialize (B11 x Hx). unfold far. lia.
  - by intros c ->%list_elem_of_singleton.
  - eapply chain_weaken; [exact B5|]. lia.
  - apply Forall_forall. intros x Hx. rewrite Forall_forall in B7. apply free_ok_insert; [by apply B7|].
    specialize (B11 x Hx). unfold sep. lia.
  - intros x Hx Hx1. destruct (B10 x Hx Hx1). apply free_ok_insert; [done|]. unfold sep. lia.
  - intros Hne. apply free_ok_insert; [by apply B8|]. unfold sep. cbn. lia.
  - exists fl'. split; try done.
    + apply (f_equal length) in E, E'. rewrite length_app in E, E'. cbn in E, E'. lia.
    + apply (f_equal total) in E, E'. rewrite total_app in E, E'. unfold total in *. cbn in E, E'. lia.
Qed.

Lemma take_part s fl own l1 p k a n l2 nu :
  heap s fl own -> nodes fl = l1 ++ (p, k) :: (a, n) :: l2 -> 0 < nu < n ->
  let r := a + 16 * (n - nu) in
  let m1 := store_le 4 (um_mem s) (a + 8) (u32 (n - nu)) in
  exists fl', allocated s fl own nu r (mkUst (store_le 4 m1 (r + 8) (u32 nu)) p (um_brk s) (um_grants s)) fl'.
Proof.
  intros Hh E Hnu r m1. pose proof (heap_block _ _ _ _ _ _ _ _ _ Hh E) as [B1 B2 B3 B4 B5 B6 B7 B8 B9 B10 B11].
  pose proof (hp_free _ _ _ Hh) as Hf. rewrite Forall_forall in Hf. destruct (Hf _ B1) as [_ A7]. cbn in A7.
  destruct B3 as (S1 & S2 & P1 & P2), B6 as (I1 & I2 & I3). pose proof (hp_brk _ _ _ Hh) as Hbrk. pose proof (hp_base _ _ _ Hh) as Hb0.
  change (PHYSTOP - KERNBASE) with 134217728 in Hbrk.
  set (m' := store_le 4 m1 _ _). assert (Hsb : same_but [a; r] (um_mem s) m').
  { apply same_but_size; [|by right; left]. apply same_but_size; [|by left]. apply same_but_refl. }
  assert (Hkept : kept own (um_mem s) m').
  { apply (kept_same _ [a; r]); [done|]. intros c b j Hc Hb. specialize (A7 _ _ Hb). unfold sep in *.
    destruct (ow_in _ _ _ (hp_own _ _ _ Hh) _ _ Hb) as (_ & ? & _).
    apply elem_of_cons in Hc as [->| ->%list_elem_of_singleton]; unfold r; lia. }
  assert (Hap : far a p /\ far r p /\ far r a) by (unfold far, r; lia). destruct Hap as (F1 & F2 & F3).
  destruct (own_insert s fl own a n (n - nu) nu m' Hh B1) as [Hnone Hown]; try lia; [done| |]; fold r.
  { unfold m'. apply size_set_size. unfold is_u32. lia. }
  destruct (heap_relink s fl own (<[r := nu]> own) l1 p k ((a, n) :: l2) [a; r] m' (um_grants s) k ((a, n - nu) :: l2) Hh E)
    as (fl' & Hh' & E'); try done; try lia.
  - apply lseg_cons; [|unfold m', m1; by rewrite !ptr_set_size_far|apply lseg_cons].
    + unfold m', m1. by rewrite !size_set_size_far.
    + unfold m', m1. rewrite size_set_size_far by done. apply size_set_size. unfold is_u32. lia.
    + unfold m', m1. by rewrite ptr_set_size_far, ptr_set_size.
    + eapply lseg_frame; [exact B4|exact Hsb|]. intros c b Hc (x & -> & Hx)%list_elem_of_fmap.
      specialize (B11 x Hx). unfold far. apply elem_of_cons in Hc as [->| ->%list_elem_of_singleton]; unfold r; lia.
  - intros c [->| ->%list_elem_of_singleton]%elem_of_cons; unfold r; lia.
  - split_and!; [lia|lia|]. eapply chain_weaken; [exact B5|]. lia.
  - apply Forall_cons. split.
    + split; [unfold inside; cbn; lia|]. intros b j [[<- <-]|[_ Hb]]%lookup_insert_Some; [unfold sep, r; cbn; lia|].
      specialize (A7 _ _ Hb). unfold sep in *. cbn. lia.
    + apply Forall_forall. intros x Hx. rewrite Forall_forall in B7. apply free_ok_insert; [by apply B7|].
      specialize (B11 x Hx). unfold sep, r. lia.
  - intros x Hx Hx1. destruct (B10 x Hx Hx1). apply free_ok_insert; [done|]. unfold sep, r. lia.
  - intros Hne. apply free_ok_insert; [by apply B8|]. unfold sep, r. cbn. lia.
  - exists fl'. split; try done.
    + apply (f_equal length) in E, E'. rewrite length_app in E, E'. cbn in E, E'. lia.
    + apply (f_equal total) in E, E'. rewrite total_app in E, E'. unfold total in *. cbn in E, E'. lia.
Qed.

Lemma take_block_spec s fl own l1 p k a n l2 nu :
  heap s fl own -> nodes fl = l1 ++ (p, k) :: (a, n) :: l2 -> 0 < nu <= n ->
  wp (take_block nu p a n) (fun r s' => um_brk s' = um_brk s /\ um_grants s' = um_grants s /\
    exists r0 fl', r = r0 + 16 /\ allocated s fl own nu r0 s' fl') s.
Proof.
  intros Hh E Hnu. pose proof (heap_block _ _ _ _ _ _ _ _ _ Hh E) as [B1 B2 B3 B4 B5 B6 B7 B8 B9 B10 B11].
  pose proof (hp_brk _ _ _ Hh) as Hbrk. pose proof (hp_base _ _ _ Hh) as Hb0. change (PHYSTOP - KERNBASE) with 134217728 in Hbrk.
  destruct B6 as (I1 & I2 & I3). unfold take_block, get_ptr, set_ptr, set_size, get_size. wp_step.
  destruct (Z.eqb_spec n nu) as [->|Hne]; wp_steps.
  - destruct (take_all _ _ _ _ _ _ _ _ _ Hh E) as [fl' Ha]. cbn. split_and!; try done. exists a, fl'. split; [|done].
    rewrite hdr_add_small by lia. lia.
  - cbn [um_mem set_um_mem]. rewrite size_set_size by (unfold is_u32; lia). rewrite (hdr_add_small a) by lia.
    destruct (take_part _ _ _ _ _ _ _ _ _ nu Hh E ltac:(lia)) as [fl' Ha]. split_and!; try done.
    eexists _, fl'. split; [|exact Ha]. rewrite hdr_add_small by lia. lia.
Qed.

(** ** morecore() *)

Definition asked (nu : Z) : Z := if nu <? 4096 then 4096 else nu.
Definition refused (s : ust) (nu : Z) : Prop :=
  default false (head (um_grants s)) && can_grow (um_brk s) (16 * asked nu) = false.

(** The break has moved, and the new memory is a block that nobody has yet. *)
Lemma heap_grown s fl own n :
  heap s fl own -> 0 < n -> can_grow (um_brk s) (16 * n) = true -> is_u32 n ->
  let s1 := mkUst (store_le 4 (um_mem s) (um_brk s + 8) (u32 n)) (um_freep s) (um_brk s + 16 * n) (tail (um_grants s)) in
  heap s1 fl (<[um_brk s := n]> own) /\ own !! um_brk s = None /\ kept own (um_mem s) (um_mem s1).
Proof.
  intros [H1 H2 H3 H4 H5 H6 H7] Hn Hg Hu s1. unfold can_grow in Hg. set (m' := um_mem s1).
  assert (Hsb : same_but [um_brk s] (um_mem s) m') by (apply same_but_size; [apply same_but_refl|by left]).
  rewrite Forall_forall in H5. assert (Hkept : kept own (um_mem s) m').
  { apply (kept_same _ [um_brk s]); [done|]. intros c b j ->%list_elem_of_singleton Hb.
    destruct (ow_in _ _ _ H6 _ _ Hb) as (? & ? & ?). lia. }
  assert (Hnone : own !! um_brk s = None).
  { destruct (own !! um_brk s) as [k|] eqn:Eb; [|done]. destruct (ow_in _ _ _ H6 _ _ Eb) as (? & ? & ?). lia. }
  destruct (own_kept _ _ _ _ H6 Hkept) as [O1 O2 O3]. split_and!; [|done|done]. split; cbn [um_mem um_brk um_freep s1]; try done; try lia.
  - eapply lseg_frame; [exact H3|exact Hsb|]. intros c b ->%list_elem_of_singleton [->|(x & -> & Hx)%list_elem_of_fmap]%elem_of_cons.
    + unfold far. cbn. lia.
    + destruct (H5 x Hx) as [(? & ? & ?) _]. unfold far. lia.
  - apply Forall_forall. intros x Hx. destruct (H5 x Hx) as [(? & ? & ?) Hs]. split; [unfold inside; lia|].
    intros b k [[<- <-]|[_ Hb]]%lookup_insert_Some; [unfold sep; lia|by apply Hs].
  - split.
    + intros b k [[<- <-]|[_ Hb]]%lookup_insert_Some; [unfold inside; lia|]. destruct (O1 _ _ Hb) as (? & ? & ?). unfold inside. lia.
    + intros b k [[<- <-]|[_ Hb]]%lookup_insert_Some; [by apply size_set_size|by apply O2].
    + intros b k c i [[<- <-]|[_ Hb]]%lookup_insert_Some [[<- <-]|[_ Hc]]%lookup_insert_Some Hne; [done| | |by apply O3].
      * destruct (O1 _ _ Hc) as (? & ? & ?). unfold sep. lia.
      * destruct (O1 _ _ Hb) as (? & ? & ?). unfold sep. lia.
Qed.

Lemma morecore_spec fuel s fl own nu :
  heap s fl own -> 0 < nu < 2 ^ 27 -> (length fl < fuel)%nat ->
  wp (morecore fuel nu) (fun p s' =>
    p = 0 /\ s' = set_um_brk (um_brk s) (tail (um_grants s)) s /\ refused s nu \/
    p = um_freep s' /\ p <> 0 /\ um_brk s' = um_brk s + 16 * asked nu /\ exists fl', heap s' fl' own /\
      kept own (um_mem s) (um_mem s') /\ (length fl' <= S (length fl))%nat /\ total fl' = total fl + asked nu /\
      exists x, x ∈ fl' /\ nu <= x.2) s.
Proof.
  intros Hh Hnu Hfuel. pose proof (hp_base _ _ _ Hh) as Hb0. pose proof (hp_brk _ _ _ Hh) as Hbrk.
  change (PHYSTOP - KERNBASE) with 134217728 in Hbrk. assert (Has : nu <= asked nu < 2 ^ 27 /\ 4096 <= asked nu) by (unfold asked; destruct (Z.ltb_spec nu 4096); lia).
  unfold morecore. fold (asked nu). unfold sizeof_Header. rewrite i32_small by lia. unfold sbrk. wp_steps.
  rewrite (proj2 (Z.gtb_lt (asked nu * 16) 0)) by lia. wp_steps. replace (asked nu * 16) with (16 * asked nu) by lia.
  set (g := default false (head (um_grants s)) && can_grow (um_brk s) (16 * asked nu)).
  destruct g eqn:Eg; cycle 1; unfold g in Eg.
  { rewrite Z.eqb_refl. wp_steps. by left. }
  change (u64 (-1)) with (2 ^ 64 - 1). rewrite (proj2 (Z.eqb_neq _ _)) by lia. unfold set_size. wp_steps.
  apply andb_prop in Eg as [_ Eg].
  destruct (heap_grown s fl own (asked nu) Hh ltac:(lia) Eg ltac:(unfold is_u32; lia)) as (Hh1 & Hnone & Hkept).
  rewrite hdr_add_small by lia. replace (um_brk s + 16 * 1) with (um_brk s + 16) by lia. cbn [um_mem set_um_brk set_um_mem um_freep um_brk um_grants].
  eapply wp_mono; [apply (free_spec _ _ _ _ _ (asked nu) Hh1); [apply lookup_insert_eq|lia]|].
  intros [] s2 (fl' & Hh2 & Hk2 & Hb2 & _ & Hlen & Htot & x & Hx & Hxn). wp_steps. right.
  rewrite delete_insert_id in Hh2, Hk2 by done.
  pose proof (hp_freep _ _ _ Hh2) as Hfp. split_and!; [done| |done|].
  - pose proof (hp_free _ _ _ Hh2) as Hf. rewrite Forall_forall in Hf.
    apply elem_of_cons in Hfp as [->|(y & -> & Hy)%list_elem_of_fmap]; [lia|]. destruct (Hf y Hy) as [(? & _) _]. lia.
  - exists fl'. split_and!; [done| |done|done|exists x; split; [done|lia]]. intros b k Hb y Hy. rewrite (Hk2 b k Hb y Hy). by apply (Hkept b k Hb).
Qed.

(** ** The loop of malloc() *)

(** Once around the list, from the node behind freep to freep. *)
Record tour (s : ust) (fl : list (Z * Z)) (l : list (Z * Z)) (j e : Z) : Prop := {
  to_seg : lseg (um_mem s) (l ++ [(um_freep s, j)]) e;
  to_next : ptr_of (um_mem s) (um_freep s) = hd e (l ++ [(um_freep s, j)]).*1;
  to_new : um_freep s ∉ l.*1;
  to_same : forall x, x ∈ l ++ [(um_freep s, j)] <-> x ∈ nodes fl;
  to_len : length (l ++ [(um_freep s, j)]) = S (length fl);
}.

Lemma heap_tour s fl own : heap s fl own -> exists l j e, tour s fl l j e.
Proof.
  intros Hh. destruct (node_split _ (nodes fl) (hp_freep _ _ _ Hh)) as (q1 & j & q2 & E).
  pose proof (hp_list _ _ _ Hh) as Hl. pose proof (hp_chain _ _ _ Hh) as Hc. fold (nodes fl) in Hl, Hc.
  pose proof (chain_nodup _ _ Hc) as Hnd. assert (Hl' := Hl). rewrite E in Hl', Hnd. apply lseg_app in Hl' as [_ (_ & Hp & _)].
  assert (E2 : nodes fl = (q1 ++ [(um_freep s, j)]) ++ q2) by (by rewrite <- app_assoc).
  exists (q2 ++ q1), j, (hd base q2.*1). split; rewrite <- ?app_assoc.
  - destruct q2 as [|y q2]; [cbn; by rewrite E in Hl|]. apply (lseg_rotate _ (q1 ++ [(um_freep s, j)]) (y :: q2)); [done|].
    rewrite <- E2. exact Hl.
  - rewrite Hp. destruct q2 as [|y q2]; [cbn [app]; by rewrite <- E|done].
  - rewrite fmap_app in Hnd. apply NoDup_app in Hnd as (_ & Hd & Hnd). rewrite fmap_app. intros [Hx|Hx]%elem_of_app.
    + apply NoDup_cons in Hnd as [Hni _]. done.
    + apply (Hd _ Hx). by left.
  - intros x. rewrite E2, !elem_of_app. tauto.
  - apply (f_equal length) in E2. rewrite !length_app in *. cbn in *. lia.
Qed.

(** What malloc() does when it is back at freep. *)
Definition more (ffuel fuel : nat) (nu : Z) : M ust Z :=
  let! p := morecore ffuel nu in
  if p =? 0 then ret 0
  else
    let! next := get_ptr p in
    malloc_loop ffuel fuel nu p next.

Lemma malloc_walk ffuel nu s (P : Z -> Prop) (Q : Z -> ust -> Prop) l j e prevp fuel :
  lseg (um_mem s) (l ++ [(um_freep s, j)]) e -> um_freep s ∉ l.*1 -> P prevp ->
  (forall a, a ∈ (l ++ [(um_freep s, j)]).*1 -> P a) ->
  ptr_of (um_mem s) prevp = hd e (l ++ [(um_freep s, j)]).*1 ->
  (forall p a, P p -> P a -> ptr_of (um_mem s) p = a -> nu <= size_of (um_mem s) a ->
     wp (take_block nu p a (size_of (um_mem s) a)) Q s) ->
  ((forall x, x ∈ l ++ [(um_freep s, j)] -> x.2 < nu) -> wp (more ffuel fuel nu) Q s) ->
  wp (malloc_loop ffuel (length (l ++ [(um_freep s, j)]) + fuel) nu prevp (hd e (l ++ [(um_freep s, j)]).*1)) Q s.
Proof.
  intros Hl Hni Hpp HP Hpr Htake Hmore. revert prevp Hl Hni Hpp HP Hpr Hmore.
  induction l as [|[a n] l IH]; intros prevp Hl Hni Hpp HP Hpr Hmore; cbn [app length Nat.add malloc_loop hd fmap list_fmap fst];
    unfold get_size, get_ptr; wp_steps; fold (size_of (um_mem s)).
  - destruct Hl as (Hs & _). cbn in Hpr. destruct (Z.geb_spec (size_of (um_mem s) (um_freep s)) nu) as [Hge|Hlt].
    + apply Htake; [done|apply HP; by left|done|lia].
    + wp_steps. rewrite Z.eqb_refl. apply Hmore. intros x ->%list_elem_of_singleton. cbn. lia.
  - destruct Hl as (Hs & Hn & Hl). cbn in Hpr, Hni. destruct (Z.geb_spec (size_of (um_mem s) a) nu) as [Hge|Hlt].
    + apply Htake; [done|apply HP; by left|done|lia].
    + wp_steps. rewrite (proj2 (Z.eqb_neq _ _)) by (intros ->; apply Hni; by left). wp_steps. rewrite Hn. apply IH; try done.
      * intros Hx. apply Hni. by right.
      * apply HP. by left.
      * intros b Hb. apply HP. by right.
      * intros Hall. apply Hmore. intros x [->|Hx]%elem_of_cons; [cbn; lia|by apply Hall].
Qed.

(** What malloc() promises: it fails only when no free block is large enough and
    the kernel gives no memory, and then nothing has changed; otherwise the block
    is new, everything in the other blocks is as it was, and more memory was asked for only if
    it was needed. *)
Definition malloc_post (s : ust) (fl : list (Z * Z)) (own : gmap Z Z) (nu r : Z) (s' : ust) : Prop :=
  r = 0 /\ refused s nu /\ (forall x, x ∈ fl -> x.2 < nu) /\ heap s' fl own /\ um_mem s' = um_mem s /\ um_brk s' = um_brk s \/
  exists r0 fl' grown, r = r0 + 16 /\ heap s' fl' (<[r0 := nu]> own) /\ own !! r0 = None /\ kept own (um_mem s) (um_mem s') /\
    (length fl' <= S (length fl))%nat /\ um_brk s' = um_brk s + 16 * grown /\ total fl' + nu = total fl + grown /\
    (grown = 0 \/ grown = asked nu /\ forall x, x ∈ fl -> x.2 < nu).

Lemma take_node s fl own nu p a :
  heap s fl own -> 0 < nu -> p ∈ (nodes fl).*1 -> a ∈ (nodes fl).*1 -> ptr_of (um_mem s) p = a -> nu <= size_of (um_mem s) a ->
  wp (take_block nu p a (size_of (um_mem s) a)) (fun r s' => um_brk s' = um_brk s /\ um_grants s' = um_grants s /\
    exists r0 fl', r = r0 + 16 /\ allocated s fl own nu r0 s' fl') s.
Proof.
  intros Hh Hnu Hp Ha Hpa Hsz. destruct (node_split _ _ Hp) as (l1 & k & l2 & E). pose proof (hp_list _ _ _ Hh) as Hl.
  fold (nodes fl) in Hl. assert (Hl' := Hl). rewrite E in Hl'. apply lseg_app in Hl' as [_ (_ & Hn & Hl2)].
  assert (Hs0 : size_of (um_mem s) base = 0) by apply Hl. destruct l2 as [|[b n] l2]; cbn in Hn; [rewrite <- Hpa, Hn in Hsz; lia|].
  rewrite Hpa in Hn. subst b. destruct Hl2 as (<- & _). by eapply take_block_spec.
Qed.

Lemma malloc_pass ffuel fuel s fl own nu Q :
  heap s fl own -> 0 < nu ->
  (forall r s' r0 fl', um_brk s' = um_brk s -> r = r0 + 16 -> allocated s fl own nu r0 s' fl' -> Q r s') ->
  ((forall x, x ∈ fl -> x.2 < nu) -> wp (more ffuel fuel nu) Q s) ->
  wp (malloc_loop ffuel (S (length fl) + fuel) nu (um_freep s) (ptr_of (um_mem s) (um_freep s))) Q s.
Proof.
  intros Hh Hnu HQ Hmore. destruct (heap_tour _ _ _ Hh) as (l & j & e & [T1 T2 T3 T4 T5]). rewrite T2, <- T5.
  apply (malloc_walk ffuel nu s (fun a => a ∈ (nodes fl).*1)); try done.
  - apply Hh.
  - intros a (x & -> & Hx)%list_elem_of_fmap. apply list_elem_of_fmap. exists x. split; [done|]. by apply T4.
  - intros p a Hp Ha Hpa Hsz. eapply wp_mono; [by apply take_node|]. intros r s' (Hb & _ & r0 & fl' & Hr & Hal). by eapply HQ.
  - intros Hall. apply Hmore. intros x Hx. apply Hall, T4. by right.
Qed.

Lemma malloc_spec fuel s fl own nu :
  heap s fl own -> 0 < nu < 2 ^ 27 -> (2 * length fl + 4 <= fuel)%nat ->
  wp (malloc_loop fuel fuel nu (um_freep s) (ptr_of (um_mem s) (um_freep s))) (malloc_post s fl own nu) s.
Proof.
  intros Hh Hnu Hfuel.
  replace (malloc_loop fuel fuel nu) with (malloc_loop fuel (S (length fl) + (fuel - S (length fl))) nu) by (f_equal; lia).
  apply (malloc_pass _ _ s fl own nu); [done|lia| |].
  { intros r s' r0 fl' Hb Hr [A1 A2 A3 A4 A5]. right. exists r0, fl', 0. split_and!; try done; lia. }
  intros Hall. unfold more. wp_step. eapply wp_mono; [apply (morecore_spec fuel s fl own nu); [done|done|lia]|].
  intros p s1 [(-> & -> & Hr)|(Hp & Hp0 & Hb1 & fl1 & Hh1 & Hk1 & Hlen & Htot & x & Hx & Hxn)].
  - cbn. wp_steps. left. split_and!; try done. by destruct Hh.
  - rewrite (proj2 (Z.eqb_neq _ _) Hp0). unfold get_ptr. wp_steps. rewrite Hp.
    replace (fuel - S (length fl))%nat with (S (length fl1) + (fuel - S (length fl) - S (length fl1)))%nat by lia.
    apply (malloc_pass _ _ s1 fl1 own nu); [done|lia| |].
    + intros r s' r0 fl' Hb Hr [A1 A2 A3 A4 A5]. right. exists r0, fl', (asked nu). split_and!; try done; try lia.
      * intros b k Hbk y Hy. rewrite (A3 b k Hbk y Hy). by apply (Hk1 b k).
      * by right.
    + intros Hno. specialize (Hno x Hx). lia.
Qed.
End Umalloc.
End Um.
