(* ===== verification/UmallocProps.v ===== *)
(** What malloc() and free() of user/umalloc.c guarantee to a program: every block
    is an object of its own, and no memory is lost. *)

From S2P Require Import Prelude Riscv CString Umalloc.
Import Um.

(** * Programs *)

(** A program that allocates, frees, writes and reads objects, which it names by
    the number of the malloc() that made them.  It does nothing with an object that it does not
    have, or outside of it. *)
Inductive uop : Type :=
| UMalloc (nbytes : Z)
| UFree (i : nat)
| UWrite (i : nat) (off v : Z)
| URead (i : nat) (off : Z).

(** The program's table of objects: address and size. *)
Abbreviation handles := (list (option (Z * Z))).

Section Run.
Context (base : Z) (fuel : nat).

Definition run_uop (o : uop) (h : handles) : M ust (handles * list Z) :=
  match o with
  | UMalloc n =>
      let! p := malloc base fuel n in
      ret (h ++ [if p =? 0 then None else Some (p, n)], [])
  | UFree i =>
      match h !! i with
      | Some (Some (p, _)) => free fuel p ;;; ret (<[i := None]> h, [])
      | _ => ret (h, [])
      end
  | UWrite i off v =>
      match h !! i with
      | Some (Some (p, n)) =>
          if (0 <=? off) && (off <? n) then
            modify (fun s => set_um_mem (mupd (um_mem s) (p + off) v) s) ;;; ret (h, [])
          else ret (h, [])
      | _ => ret (h, [])
      end
  | URead i off =>
      match h !! i with
      | Some (Some (p, n)) =>
          if (0 <=? off) && (off <? n) then
            let! v := gets (fun s => um_mem s (p + off)) in ret (h, [v])
          else ret (h, [])
      | _ => ret (h, [])
      end
  end.

Fixpoint run_uops (os : list uop) (h : handles) : M ust (handles * list Z) :=
  match os with
  | [] => ret (h, [])
  | o :: os =>
      let! r := run_uop o h in
      let! r' := run_uops os r.1 in
      ret (r'.1, r.2 ++ r'.2)
  end.
End Run.

(** * The contract *)

(** Objects with a size and the bytes that have been written, and no addresses. *)
Abbreviation object := (Z * gmap Z Z)%type.
Abbreviation objects := (list (option object)).

(** [ok] says whether a malloc() succeeds; a read gives the byte last written,
    or [None] when there is none. *)
Definition spec_uop (o : uop) (ok : bool) (st : objects) : objects * list (option Z) :=
  match o with
  | UMalloc n => (st ++ [if ok then Some (n, ∅) else None], [])
  | UFree i => (if decide (i < length st)%nat then <[i := None]> st else st, [])
  | UWrite i off v =>
      match st !! i with
      | Some (Some (n, c)) =>
          (if (0 <=? off) && (off <? n) then <[i := Some (n, <[off := v]> c)]> st else st, [])
      | _ => (st, [])
      end
  | URead i off =>
      match st !! i with
      | Some (Some (n, c)) => (st, if (0 <=? off) && (off <? n) then [c !! off] else [])
      | _ => (st, [])
      end
  end.

Fixpoint spec_uops (os : list uop) (oks : list bool) (st : objects) : objects * list (option Z) :=
  match os, oks with
  | o :: os, ok :: oks =>
      let r := spec_uop o ok st in
      let r' := spec_uops os oks r.1 in
      (r'.1, r.2 ++ r'.2)
  | _, _ => (st, [])
  end.

(** What was read is what the contract says, where it says something. *)
Definition agrees (vs : list Z) (cs : list (option Z)) : Prop := Forall2 (fun v c => forall w, c = Some w -> v = w) vs cs.

(** * The refinement *)

Section Refine.
Context (base lo : Z) (Hlo : base + 16 <= lo).
#[local] Set Default Proof Using "Type Hlo".

(** The units of memory that the program holds. *)
Definition live (h : handles) : Z := foldr (fun x t => match x with Some (_, n) => units n + t | None => t end) 0 h.

(** An entry of the program's table, and the object it stands for. *)
Definition obj_ok (own : gmap Z Z) (m : mem) (x : option (Z * Z)) (y : option object) : Prop :=
  match x, y with
  | Some (p, n), Some (n', c) => n' = n /\ 0 <= n < 2 ^ 30 /\ own !! (p - 16) = Some (units n) /\
      forall off v, 0 <= off < n -> c !! off = Some v -> m (p + off) = v
  | None, None => True
  | _, _ => False
  end.

Record client (s : ust) (h : handles) (st : objects) (fl : list (Z * Z)) (own : gmap Z Z) : Prop := {
  cl_heap : heap base lo s fl own;
  cl_match : Forall2 (obj_ok own (um_mem s)) h st;
  cl_inj : forall i j p n n', h !! i = Some (Some (p, n)) -> h !! j = Some (Some (p, n')) -> i = j;
  cl_all : forall a k, own !! a = Some k -> exists i n, h !! i = Some (Some (a + 16, n));
  cl_units : 16 * (total fl + live h) = um_brk s - lo;
}.

(** Before the first malloc() there is no heap. *)
Definition fresh (s : ust) : Prop := um_freep s = 0 /\ um_brk s = lo /\ lo <= PHYSTOP - KERNBASE /\ 0 < base.

Lemma units_bounds n : 0 <= n < 2 ^ 30 -> 0 < units n < 2 ^ 27 /\ n <= 16 * (units n - 1).
Proof.
  intros Hn. unfold units, sizeof_Header. pose proof (Z_div_mod_decomp (n + 16 - 1) 16 ltac:(lia)).
  rewrite u32_small by (unfold is_u32; lia). lia.
Qed.

Lemma heap_init s :
  fresh s ->
  let m1 := store64 (um_mem s) base base in
  heap base lo (mkUst (store_le 4 m1 (base + 8) (u32 0)) base (um_brk s) (um_grants s)) [] ∅.
Proof.
  intros (Hf & Hb & Hlim & Hb0) m1. change (PHYSTOP - KERNBASE) with 134217728 in *.
  split; cbn [um_mem um_brk um_freep]; try done; try (change (PHYSTOP - KERNBASE) with 134217728; lia).
  - apply lseg_cons; [apply size_set_size; done| |done]. rewrite ptr_set_size. apply ptr_set_ptr. cbn. unfold is_u64. lia.
  - split_and!; [lia|lia|done].
  - by left.
Qed.

Lemma heap_freep s fl own : heap base lo s fl own -> um_freep s <> 0.
Proof.
  intros Hh. pose proof (hp_base _ _ _ _ _ Hh) as Hb. pose proof (hp_free _ _ _ _ _ Hh) as Hf. rewrite Forall_forall in Hf.
  destruct (elem_of_cons (fl.*1) (um_freep s) base) as [Hx _]. destruct (Hx (hp_freep _ _ _ _ _ Hh)) as [->|Hy]; [lia|].
  apply list_elem_of_fmap in Hy as (y & -> & Hy). destruct (Hf y Hy) as [(? & _) _]. lia.
Qed.

Lemma malloc_heap fuel n s fl own :
  heap base lo s fl own -> 0 <= n < 2 ^ 30 -> (2 * length fl + 4 <= fuel)%nat ->
  wp (malloc base fuel n) (malloc_post base lo s fl own (units n)) s.
Proof.
  intros Hh Hn Hf. unfold malloc, get_ptr. wp_steps. rewrite (proj2 (Z.eqb_neq _ _) (heap_freep _ _ _ Hh)). wp_steps.
  apply malloc_spec; [done|done|by apply units_bounds|done].
Qed.

Lemma malloc_fresh fuel n s :
  fresh s -> 0 <= n < 2 ^ 30 -> (4 <= fuel)%nat ->
  wp (malloc base fuel n) (fun r s' => exists s1, heap base lo s1 [] ∅ /\ um_brk s1 = lo /\
    malloc_post base lo s1 [] ∅ (units n) r s') s.
Proof.
  intros Hs Hn Hf. pose proof (heap_init s Hs) as Hh. unfold malloc, set_ptr, set_size, get_ptr. wp_steps.
  rewrite (proj1 Hs). cbn [Z.eqb]. wp_steps. cbn [um_mem set_um_mem set_um_freep um_freep um_brk um_grants] in *.
  eapply wp_mono; [apply (malloc_spec base lo Hlo fuel _ [] ∅ (units n) Hh); [by apply units_bounds|cbn; lia]|].
  intros r s' Hp. eexists. split; [exact Hh|]. split; [apply Hs|exact Hp].
Qed.

(** ** Keeping the objects *)

Lemma obj_kept own own' m m' x y :
  obj_ok own m x y -> kept own m m' ->
  (forall p n, x = Some (p, n) -> own !! (p - 16) = Some (units n) -> own' !! (p - 16) = Some (units n)) -> obj_ok own' m' x y.
Proof.
  intros Hx Hk Hown. destruct x as [[p n]|], y as [[n' c]|]; try done. destruct Hx as (-> & Hn & Ho & Hc).
  split; [done|]. split; [done|]. split; [by apply (Hown p n)|]. intros off v Hoff Hv. rewrite <- (Hc off v Hoff Hv).
  apply (Hk _ _ Ho). pose proof (units_bounds n Hn). lia.
Qed.

Lemma live_app h1 h2 : live (h1 ++ h2) = live h1 + live h2.
Proof. induction h1 as [|[[p n]|] h1 IH]; [done| |]; cbn; fold (live (h1 ++ h2)); fold (live h1); lia. Qed.
Lemma live_drop h i p n : h !! i = Some (Some (p, n)) -> live (<[i := None]> h) = live h - units n.
Proof.
  intros Hi. assert (E : live h = live (take i h ++ Some (p, n) :: drop (S i) h)) by (by rewrite (take_drop_middle h i _ Hi)).
  rewrite insert_take_drop by (by apply lookup_lt_Some in Hi). rewrite E, !live_app. cbn. fold (live (drop (S i) h)). lia.
Qed.

Lemma client_malloc n h st fl own s1 r s' :
  malloc_post base lo s1 fl own (units n) r s' -> client s1 h st fl own -> 0 <= n < 2 ^ 30 ->
  exists ok fl' own', client s' (h ++ [if r =? 0 then None else Some (r, n)]) (st ++ [if ok : bool then Some (n, ∅) else None]) fl' own' /\
    (length fl' <= S (length fl))%nat.
Proof.
  intros Hp [C1 C2 C3 C4 C5] Hn. pose proof (units_bounds n Hn) as Hu.
  assert (Hlk : forall (e : option (Z * Z)) i p k, (h ++ [e]) !! i = Some (Some (p, k)) ->
    h !! i = Some (Some (p, k)) \/ i = length h /\ e = Some (p, k)).
  { intros e i p k [Hi|[Hi He]]%lookup_app_Some; [by left|]. apply list_lookup_singleton_Some in He as [Hz ->]. right. split; [lia|done]. }
  destruct Hp as [(-> & _ & _ & Hh & Hm & Hb)|(r0 & fl' & g & -> & Hh & Hnone & Hk & Hlen & Hb & Ht & _)].
  - exists false, fl, own. split; [|lia]. rewrite Z.eqb_refl. split; [done| | | |].
    + rewrite Hm. apply Forall2_app; [done|]. by constructor.
    + intros i j p k k' [Hi|[_ ?]]%Hlk [Hj|[_ ?]]%Hlk; try done. by eapply C3.
    + intros a k Ha. destruct (C4 a k Ha) as (i & m & Hi). exists i, m. by apply lookup_app_l_Some.
    + rewrite live_app, Hb. cbn. lia.
  - exists true, fl', (<[r0 := units n]> own). split; [|done].
    assert (Hr0 : lo <= r0) by (apply (ow_in _ _ _ _ (hp_own _ _ _ _ _ Hh) r0 (units n)), lookup_insert_eq).
    pose proof (hp_base _ _ _ _ _ C1). rewrite (proj2 (Z.eqb_neq _ _)) by lia.
    assert (Hold : forall i k, h !! i = Some (Some (r0 + 16, k)) -> False).
    { intros i k Hi. destruct (Forall2_lookup_l _ _ _ _ _ C2 Hi) as ([[n' c]|] & _ & Hy); [|done].
      destruct Hy as (_ & _ & Hy & _). replace (r0 + 16 - 16) with r0 in Hy by lia. congruence. }
    split; [done| | | |].
    + apply Forall2_app.
      * eapply Forall2_impl; [exact C2|]. intros x y Hxy. eapply obj_kept; [exact Hxy|exact Hk|]. intros p k _ Ho.
        rewrite lookup_insert_ne; [done|]. intros E. rewrite E in Hnone. congruence.
      * constructor; [|constructor]. split; [done|]. split; [done|]. replace (r0 + 16 - 16) with r0 by lia.
        split; [apply lookup_insert_eq|]. intros off v _ Hv. by rewrite lookup_empty in Hv.
    + intros i j p k k' [Hi|[-> Ei]]%Hlk [Hj|[-> Ej]]%Hlk; [by eapply C3| | |done]; exfalso.
      * injection Ej as <- <-. by eapply Hold.
      * injection Ei as <- <-. by eapply Hold.
    + intros a k [[<- <-]|[_ Ha]]%lookup_insert_Some.
      * exists (length h), n. by rewrite lookup_app_r, Nat.sub_diag by lia.
      * destruct (C4 a k Ha) as (i & m & Hi). exists i, m. by apply lookup_app_l_Some.
    + rewrite live_app, Hb. cbn. lia.
Qed.

Lemma client_free fuel s h st fl own i p n :
  client s h st fl own -> h !! i = Some (Some (p, n)) -> (length fl < fuel)%nat ->
  wp (free fuel p) (fun _ s' => exists fl' own', client s' (<[i := None]> h) (<[i := None]> st) fl' own' /\
    (length fl' <= S (length fl))%nat) s.
Proof.
  intros [C1 C2 C3 C4 C5] Hi Hf. destruct (Forall2_lookup_l _ _ _ _ _ C2 Hi) as ([[n' c]|] & Hst & Hy); [|done].
  destruct Hy as (-> & Hn & Ho & Hc). replace p with (p - 16 + 16) by lia.
  eapply wp_mono; [by apply (free_spec base lo Hlo fuel s fl own (p - 16) (units n))|].
  intros [] s' (fl' & Hh & Hk & Hb & _ & Hlen & Ht & _). exists fl', (delete (p - 16) own). split; [|done].
  assert (Hlk : forall j q k, <[i := None]> h !! j = Some (Some (q, k)) -> j <> i /\ h !! j = Some (Some (q, k))).
  { intros j q k [(_ & ? & _)|[Hne Hj]]%list_lookup_insert_Some; done. }
  split; [done| | | |].
  - apply Forall2_same_length_lookup. split; [rewrite !length_insert; by apply Forall2_length in C2|]. intros j x y Hx Hyj.
    apply list_lookup_insert_Some in Hx as [(<- & <- & Hlt)|[Hne Hx]].
    { rewrite list_lookup_insert_eq in Hyj by (rewrite <- (Forall2_length _ _ _ C2); done). injection Hyj as <-. done. }
    rewrite list_lookup_insert_ne in Hyj by done. assert (Hxy := Forall2_lookup_lr _ _ _ _ _ _ C2 Hx Hyj).
    destruct x as [[q k]|], y as [[k' d]|]; try done. destruct Hxy as (-> & Hk1 & Hko & Hkc).
    assert (Hqp : q - 16 <> p - 16).
    { intros Heq. assert (q = p) by lia. subst q. apply Hne. by apply (C3 i j p n k). }
    split; [done|]. split; [done|]. split; [by rewrite lookup_delete_ne|]. intros off v Hoff Hv. rewrite <- (Hkc off v Hoff Hv).
    apply (Hk (q - 16) (units k)); [by rewrite lookup_delete_ne|]. pose proof (units_bounds k Hk1). lia.
  - intros j1 j2 q k k' [_ H1]%Hlk [_ H2]%Hlk. by eapply C3.
  - intros a k [Hne Ha]%lookup_delete_Some. destruct (C4 a k Ha) as (j & m & Hj). exists j, m.
    rewrite list_lookup_insert_ne; [done|]. intros ->. rewrite Hi in Hj. injection Hj as E _. lia.
  - rewrite (live_drop _ _ _ _ Hi), Hb. lia.
Qed.

(** A program writes inside of its blocks. *)
Lemma heap_poke s fl own b k x v :
  heap base lo s fl own -> own !! b = Some k -> b + 16 <= x < b + 16 * k ->
  heap base lo (set_um_mem (mupd (um_mem s) x v) s) fl own.
Proof.
  intros [H1 H2 H3 H4 H5 H6 H7] Hb Hx. rewrite Forall_forall in H5. destruct (ow_in _ _ _ _ H6 _ _ Hb) as (I1 & I2 & I3).
  set (u := b + 16 * ((x - b) / 16)). pose proof (Z_div_mod_decomp (x - b) 16 ltac:(lia)) as Hd.
  assert (Hu : b + 16 <= u <= x /\ x < u + 16 /\ u + 16 <= b + 16 * k) by (unfold u; lia).
  assert (Hsb : same_but [u] (um_mem s) (mupd (um_mem s) x v)).
  { intros y Hy. apply mupd_ne. specialize (Hy u ltac:(left)). lia. }
  split; cbn [um_mem set_um_mem um_brk um_freep]; try done; [|by apply Forall_forall|].
  - eapply lseg_frame; [exact H3|exact Hsb|]. intros c d ->%list_elem_of_singleton [->|(y & -> & Hy)%list_elem_of_fmap]%elem_of_cons.
    + unfold far. cbn. lia.
    + destruct (H5 y Hy) as [(? & ? & ?) Hs]. specialize (Hs _ _ Hb). unfold sep, far in *. lia.
  - destruct H6 as [O1 O2 O3]. split; [done| |done]. intros c n Hc. rewrite <- (O2 _ _ Hc).
    apply (same_but_hdr [u]); [done|]. intros d ->%list_elem_of_singleton. destruct (decide (c = b)) as [->|Hne]; [unfold far; lia|].
    specialize (O3 _ _ _ _ Hc Hb Hne). destruct (O1 _ _ Hc) as (? & ? & ?). unfold sep, far in *. lia.
Qed.

Lemma client_write s h st fl own i p n c off v :
  client s h st fl own -> h !! i = Some (Some (p, n)) -> st !! i = Some (Some (n, c)) -> 0 <= off < n ->
  client (set_um_mem (mupd (um_mem s) (p + off) v) s) h (<[i := Some (n, <[off := v]> c)]> st) fl own.
Proof.
  intros [C1 C2 C3 C4 C5] Hi Hst Hoff. assert (Hp := Forall2_lookup_lr _ _ _ _ _ _ C2 Hi Hst).
  destruct Hp as (_ & Hn & Ho & Hc). pose proof (units_bounds n Hn) as Hu.
  split; [eapply heap_poke; [exact C1|exact Ho|lia]| |done|done|done]. cbn [um_mem set_um_mem].
  apply Forall2_same_length_lookup. split; [rewrite length_insert; by apply Forall2_length in C2|]. intros j x y Hx Hy.
  apply list_lookup_insert_Some in Hy as [(<- & <- & _)|[Hne Hy]].
  - rewrite Hi in Hx. injection Hx as <-. split; [done|]. split; [done|]. split; [done|]. intros o w Ho1 Hw. unfold mupd.
    apply lookup_insert_Some in Hw as [[<- <-]|[Hne Hw]]; [by rewrite Z.eqb_refl|].
    rewrite (proj2 (Z.eqb_neq _ _)) by lia. by apply Hc.
  - assert (Hxy := Forall2_lookup_lr _ _ _ _ _ _ C2 Hx Hy). destruct x as [[q k]|], y as [[k' d]|]; try done.
    destruct Hxy as (-> & Hk1 & Hko & Hkc). split; [done|]. split; [done|]. split; [done|]. intros o w Ho1 Hw.
    rewrite <- (Hkc o w Ho1 Hw). apply mupd_ne. pose proof (units_bounds k Hk1) as Hu2.
    assert (Hqp : q - 16 <> p - 16).
    { intros Heq. assert (q = p) by lia. subst q. apply Hne. by apply (C3 i j p n k). }
    pose proof (ow_sep _ _ _ _ (hp_own _ _ _ _ _ C1) _ _ _ _ Ho Hko ltac:(lia)) as Hs. unfold sep in Hs. lia.
Qed.

(** ** Runs *)

Definition legal (o : uop) : Prop := match o with UMalloc n => 0 <= n < 2 ^ 30 | _ => True end.

Lemma program_step fuel o s h st fl own :
  client s h st fl own -> legal o -> (2 * length fl + 4 <= fuel)%nat ->
  wp (run_uop base fuel o h) (fun r s' => exists ok fl' own', client s' r.1 (spec_uop o ok st).1 fl' own' /\
    agrees r.2 (spec_uop o ok st).2 /\ (length fl' <= S (length fl))%nat) s.
Proof.
  intros HC Ho Hf. pose proof HC as [C1 C2 C3 C4 C5].
  assert (Hlen := Forall2_length _ _ _ C2).
  assert (Hsame : exists ok fl' own', client s h st fl' own' /\ agrees [] [] /\ (length fl' <= S (length fl))%nat /\ ok = true).
  { exists true, fl, own. split_and!; [done|constructor|lia|done]. }
  destruct o as [n|i|i off v|i off]; cbn [run_uop spec_uop] in *.
  { wp_step. eapply wp_mono; [by apply malloc_heap|]. intros r s' Hp. wp_step.
    destruct (client_malloc n h st fl own s r s' Hp HC Ho) as (ok & fl' & own' & HC' & Hl). exists ok, fl', own'.
    split_and!; [done|constructor|done]. }
  all: destruct (h !! i) as [[[p n]|]|] eqn:Ei;
    [destruct (Forall2_lookup_l _ _ _ _ _ C2 Ei) as ([[n' c]|] & Est & Hy); [|done]; destruct Hy as (-> & Hn & Hown & Hc)
    |destruct (Forall2_lookup_l _ _ _ _ _ C2 Ei) as ([y|] & Est & Hy); [done|]
    |assert (Est : st !! i = None) by (apply lookup_ge_None; rewrite <- Hlen; by apply lookup_ge_None)].
  all: rewrite ?Est; try (wp_steps; destruct Hsame as (ok & fl' & own' & H1 & H2 & H3 & _); exists ok, fl', own'; rewrite ?Est; cbn; try done).
  - wp_step. eapply wp_mono; [apply (client_free fuel s h st fl own i p n HC Ei); lia|]. intros [] s' (fl' & own' & HC' & Hl).
    wp_step. exists true, fl', own'. rewrite decide_True by (apply lookup_lt_Some in Ei; lia). split_and!; [done|constructor|done].
  - case_decide; [|done]. by rewrite list_insert_id.
  - apply lookup_ge_None in Est. rewrite decide_False by lia. done.
  - destruct ((0 <=? off) && (off <? n)) eqn:Eo.
    + wp_steps. exists true, fl, own. rewrite ?Est, ?Eo. apply andb_prop in Eo as [E1 E2]. split_and!; [|constructor|lia].
      apply (client_write s h st fl own i p n c off v HC Ei Est). lia.
    + wp_steps. destruct Hsame as (ok & fl' & own' & H1 & H2 & H3 & _). exists ok, fl', own'. by rewrite ?Est, ?Eo.
  - destruct ((0 <=? off) && (off <? n)) eqn:Eo.
    + wp_steps. exists true, fl, own. rewrite ?Est, ?Eo. apply andb_prop in Eo as [E1 E2]. split_and!; [done| |lia].
      constructor; [|constructor]. intros w Hw. apply Hc; [lia|done].
    + wp_steps. destruct Hsame as (ok & fl' & own' & H1 & H2 & H3 & _). exists ok, fl', own'. by rewrite ?Est, ?Eo.
Qed.

(** Before the first malloc(), or with a heap of at most [k] free blocks. *)
Definition ready (s : ust) (h : handles) (st : objects) (k : nat) : Prop :=
  fresh s /\ h = [] /\ st = [] \/ exists fl own, client s h st fl own /\ (length fl <= k)%nat.

Lemma ready_step fuel o s h st k :
  ready s h st k -> legal o -> (2 * k + 4 <= fuel)%nat ->
  wp (run_uop base fuel o h) (fun r s' => exists ok, ready s' r.1 (spec_uop o ok st).1 (S k) /\ agrees r.2 (spec_uop o ok st).2) s.
Proof.
  intros [(Hs & -> & ->)|(fl & own & HC & Hk)] Ho Hf.
  - destruct o as [n|i|i off v|i off]; cbn [run_uop spec_uop lookup list_lookup].
    { wp_step. eapply wp_mono; [apply (malloc_fresh fuel n s Hs Ho); lia|]. intros r s' (s1 & Hh & Hb & Hp). wp_step.
      destruct (client_malloc n [] [] [] ∅ s1 r s' Hp) as (ok & fl' & own' & HC' & Hl); [|done|].
      - split; [done|constructor| | |cbn; lia]; intros *; [by rewrite lookup_nil|by rewrite lookup_empty].
      - exists ok. split; [|constructor]. right. exists fl', own'. split; [done|cbn in Hl; lia]. }
    all: wp_steps; exists true; split; [|constructor]; left; cbn; try done.
  - eapply wp_mono; [apply (program_step fuel o s h st fl own HC Ho); lia|]. intros r s' (ok & fl' & own' & HC' & Ha & Hl).
    exists ok. split; [|done]. right. exists fl', own'. split; [done|lia].
Qed.

Lemma run_ready fuel os s h st k :
  ready s h st k -> Forall legal os -> (2 * (k + length os) + 4 <= fuel)%nat ->
  wp (run_uops base fuel os h) (fun r s' => exists oks, length oks = length os /\ agrees r.2 (spec_uops os oks st).2 /\
    ready s' r.1 (spec_uops os oks st).1 (k + length os)) s.
Proof.
  intros Hr Hl. revert s h st k Hr. induction Hl as [|o os Ho Hl IH]; intros s h st k Hr Hf; cbn [run_uops spec_uops length] in *.
  - wp_steps. exists []. split_and!; [done|constructor|]. by rewrite Nat.add_0_r.
  - wp_step. eapply wp_mono; [apply (ready_step fuel o s h st k Hr Ho); lia|]. intros r s1 (ok & Hr1 & Ha1). wp_step.
    eapply wp_mono; [apply (IH s1 r.1 (spec_uop o ok st).1 (S k) Hr1); lia|]. intros r' s2 (oks & Hlen & Ha2 & Hr2). wp_step.
    exists (ok :: oks). cbn. split_and!; [by rewrite Hlen|by apply Forall2_app|]. by replace (k + S (length os))%nat with (S k + length os)%nat by lia.
Qed.

(** A heap whose free blocks are all of it is one block. *)
Lemma chain_total e brk l :
  chain e l -> e <= brk -> (forall x, x ∈ l -> x.1 + 16 * x.2 <= brk) -> e + 16 * total l + Z.of_nat (length l) <= brk.
Proof.
  revert e. induction l as [|[a n] l IH]; intros e Hc He Hx; cbn; [lia|]. destruct Hc as (H1 & H2 & H3).
  assert (Ha := Hx (a, n) ltac:(left)). cbn in Ha. specialize (IH _ H3 Ha (fun x Hxl => Hx x (list_elem_of_further _ _ _ Hxl))).
  fold (total l). lia.
Qed.

Lemma one_block s fl :
  heap base lo s fl ∅ -> 16 * total fl = um_brk s - lo -> fl = if um_brk s =? lo then [] else [(lo, (um_brk s - lo) / 16)].
Proof.
  intros [H1 H2 H3 H4 H5 H6 H7] Ht. rewrite Forall_forall in H5.
  assert (Hc : chain (lo - 1) fl).
  { destruct fl as [|[a n] fl]; [done|]. destruct H4 as (_ & _ & _ & H4). destruct (H5 (a, n) ltac:(left)) as [(? & _) _]. cbn in *. split; [lia|done]. }
  pose proof (chain_total (lo - 1) (um_brk s) fl Hc ltac:(lia)) as Hlen.
  specialize (Hlen (fun x Hx => proj2 (proj2 (proj1 (H5 x Hx))))).
  destruct fl as [|[a n] [|y fl]]; cbn in Ht, Hlen; [| |lia].
  - rewrite (proj2 (Z.eqb_eq _ _)) by lia. done.
  - destruct (H5 (a, n) ltac:(left)) as [(I1 & I2 & I3) _]. cbn in *. rewrite (proj2 (Z.eqb_neq _ _)) by lia.
    assert (E : um_brk s - lo = n * 16) by lia. rewrite E, Z.div_mul by lia. f_equal. f_equal. lia.
Qed.


(**  free() loses nothing and joins what can be joined: when a program has freed
    everything, whatever the order, the free list is a single block that spans all
    the memory malloc() got from the kernel. *)
Theorem freed_heap_is_one_block fuel os s :
  fresh s -> Forall legal os -> (2 * length os + 4 <= fuel)%nat ->
  wp (run_uops base fuel os []) (fun r s' => (forall x, x ∈ r.1 -> x = None) -> um_brk s' <> lo ->
    heap base lo s' [(lo, (um_brk s' - lo) / 16)] ∅) s.
Proof.
  intros Hs Hl Hf. eapply wp_mono; [apply (run_ready fuel os s [] [] 0); [by left|done|lia]|].
  intros r s' (oks & _ & _ & Hr) Hnone Hb. destruct Hr as [((_ & ? & _) & _)|(fl & own & [C1 C2 C3 C4 C5] & _)]; [done|].
  assert (own = ∅) as ->.
  { apply map_empty. intros a. destruct (own !! a) as [k|] eqn:Ea; [|done]. destruct (C4 a k Ea) as (i & n & Hi).
    apply list_elem_of_lookup_2, Hnone in Hi. done. }
  assert (live r.1 = 0).
  { clear -Hnone. induction r.1 as [|x l IH]; [done|]. rewrite (Hnone x ltac:(left)). cbn. apply IH. intros y Hy. apply Hnone. by right. }
  pose proof (one_block s' fl C1 ltac:(lia)) as Hfl. rewrite (proj2 (Z.eqb_neq _ _) Hb) in Hfl. by subst fl.
Qed.

Ltac uc := cbn [um_mem set_um_mem set_um_freep set_um_brk um_freep um_brk um_grants].
(** Fields of headers after stores to others. *)
Ltac um := repeat first
  [ rewrite ptr_set_ptr by (unfold is_u64; lia) | rewrite size_set_ptr | rewrite ptr_set_size
  | rewrite size_set_size by (unfold is_u32; lia) | rewrite ptr_set_ptr_far by (unfold far; lia)
  | rewrite size_set_ptr_far by (unfold far; lia) | rewrite ptr_set_size_far by (unfold far; lia)
  | rewrite size_set_size_far by (unfold far; lia) ].

(** morecore() when the number of bytes does not fit an int. *)
Lemma morecore_huge f nu m g :
  size_of m base = 0 -> ptr_of m base = base -> 0 < base -> lo <= 2 ^ 27 -> 2 ^ 31 <= 16 * nu -> lo + 16 * nu < 2 ^ 32 ->
  wp (morecore (S f) nu) (fun p s' => p = base /\ exists m', s' = mkUst m' base lo g /\
    size_of m' lo = nu /\ ptr_of m' lo = base /\ ptr_of m' base = lo) (mkUst m base lo g).
Proof.
  intros Hs Hp Hb Hl Hu Hu2. unfold morecore, sbrk, sizeof_Header. replace (nu <? 4096) with false by lia.
  assert (Hi : i32 (nu * 16) = nu * 16 - 2 ^ 32) by (unfold i32; rewrite <- (Z.mod_add _ (-1)), Z.mod_small by lia; lia).
  assert (Hw : u64 (lo + i32 (nu * 16)) = lo + nu * 16 - 2 ^ 32 + 2 ^ 64).
  { rewrite Hi. unfold u64. rewrite <- (Z.mod_add _ 1), Z.mod_small by lia. lia. }
  wp_steps. uc. replace (i32 (nu * 16) >? 0) with false by lia. replace (i32 (nu * 16) <? 0) with true by lia. wp_steps.
  rewrite Hw. replace (lo + nu * 16 - 2 ^ 32 + 2 ^ 64 >=? lo) with true by lia. change (u64 (-1)) with (2 ^ 64 - 1).
  replace (lo =? 2 ^ 64 - 1) with false by lia. unfold set_size, free. wp_steps. uc.
  rewrite !hdr_add_small by (rewrite ?hdr_add_small; lia). replace (lo + 16 * 1 + 16 * -1) with lo by lia. cbn [free_find]. unfold get_ptr, get_size.
  wp_steps. uc. um. rewrite Hp, if_or. replace (_ || _) with true by lia. wp_steps. uc. um. rewrite Hp.
  unfold join_next, set_ptr, set_size, get_ptr, get_size. rewrite hdr_add_small by lia. replace (lo + 16 * nu =? base) with false by lia.
  wp_steps. unfold join_prev, set_ptr, set_size, get_ptr, get_size. wp_steps. uc. um. rewrite Hs, hdr_add_small by lia.
  replace (base + 16 * 0 =? lo) with false by lia. wp_steps. split; [done|]. eexists. split; [reflexivity|]. uc. um. done.
Qed.

(**  A request of 2^31 bytes or more makes malloc() hand out memory that the
    program does not have: the size that morecore() computes does not fit the int
    that sbrk() takes, the break does not move, and malloc() returns an address above it. *)
Theorem malloc_huge_beyond_break fuel n s :
  fresh s -> (2 <= fuel)%nat -> is_u32 n -> 2 ^ 31 <= 16 * units n -> lo + 16 * units n < 2 ^ 32 ->
  wp (malloc base fuel n) (fun r s' => r = lo + 16 /\ um_brk s' = lo) s.
Proof.
  intros (H0 & Hb & Hlim & Hb0) Hf Hn Hu Hu2. change (PHYSTOP - KERNBASE) with (2 ^ 27) in Hlim. set (nu := units n) in *.
  destruct fuel as [|[|fuel]]; try lia. unfold malloc, set_ptr, set_size, get_ptr. wp_steps. rewrite H0. cbn [Z.eqb]. wp_steps.
  fold nu. uc. um. cbn [malloc_loop]. unfold get_size. wp_steps.
  uc. um. replace (0 >=? nu) with false by lia. wp_steps. uc. rewrite Z.eqb_refl. wp_step. unfold set_um_mem, set_um_freep. uc. rewrite Hb.
  eapply wp_mono; [apply morecore_huge; um; done || lia|]. intros p s' (-> & m' & -> & E1 & E2 & E3).
  replace (base =? 0) with false by lia. unfold get_ptr. wp_steps. uc. rewrite E3, E1. replace (nu >=? nu) with true by lia.
  unfold take_block, get_ptr, set_ptr. rewrite Z.eqb_refl. wp_steps. cbn. rewrite hdr_add_small by lia. lia.
Qed.
End Refine.

Module UmallocDemo.
Definition s0 : ust := mkUst (fun _ => 0) 0 0x4000 [true; true].
Definition os : list uop := [UMalloc 10; UMalloc 20; UMalloc 5; UWrite 0 3 7; UWrite 1 3 9; UFree 1; UMalloc 40; URead 0 3].
Definition os_free : list uop := os ++ [UFree 2; UFree 0; UFree 3].
Lemma s0_fresh : fresh 0x1000 0x4000 s0.
Proof. unfold fresh. done. Qed.
Lemma os_legal : Forall legal os_free.
Proof. repeat (constructor; [cbn; done|]). constructor. Qed.
(** The four objects, one of them freed, and the byte that is read. *)
Definition handles0 : handles := [Some (81904, 10); None; Some (81824, 5); Some (81760, 40)].
Lemma os_run : run_val (run_uops 0x1000 30 os [] s0) = Some (handles0, [7]).
Proof. vm_compute. reflexivity. Qed.
Definition s1 : ust := run_st s0 (run_uops 0x1000 30 os [] s0).
Lemma s1_eq : run_uops 0x1000 30 os [] s0 = Ok (handles0, [7]) s1.
Proof. unfold s1. exact (run_eq s0 (run_uops 0x1000 30 os [] s0) _ os_run). Qed.
Definition s2 : ust := run_st s0 (run_uops 0x1000 30 os_free [] s0).
Lemma os_free_run : run_val (run_uops 0x1000 30 os_free [] s0) = Some ([None; None; None; None], [7]).
Proof. vm_compute. reflexivity. Qed.
Lemma s2_eq : run_uops 0x1000 30 os_free [] s0 = Ok ([None; None; None; None], [7]) s2.
Proof. unfold s2. exact (run_eq s0 (run_uops 0x1000 30 os_free [] s0) _ os_free_run). Qed.
End UmallocDemo.


Lemma freed_heap_is_one_block_witness :
  um_brk UmallocDemo.s2 = 81920 /\
  heap 0x1000 0x4000 UmallocDemo.s2 [(0x4000, (um_brk UmallocDemo.s2 - 0x4000) / 16)] ∅.
Proof.
  assert (Hb : um_brk UmallocDemo.s2 = 81920) by (vm_compute; reflexivity). split; [exact Hb|].
  assert (Hw := freed_heap_is_one_block 0x1000 0x4000 ltac:(done) 30 UmallocDemo.os_free UmallocDemo.s0 UmallocDemo.s0_fresh
    UmallocDemo.os_legal ltac:(cbn; lia)).
  refine (wlp_ok _ _ (fun _ => False) _ _ _ (wp_wlp _ _ _ _ Hw) UmallocDemo.s2_eq _ _).
  - intros x Hx. repeat (apply elem_of_cons in Hx as [->|Hx]; [reflexivity|]). exact (False_ind _ (not_elem_of_nil x Hx)).
  - rewrite Hb. discriminate.
Defined.

Lemma malloc_huge_beyond_break_witness :
  wp (malloc 0x1000 5 (2 ^ 31)) (fun r s' => r = 0x4010 /\ um_brk s' = 0x4000) UmallocDemo.s0.
Proof.
  apply (malloc_huge_beyond_break 0x1000 0x4000 ltac:(done) 5 (2 ^ 31) UmallocDemo.s0 UmallocDemo.s0_fresh);
    [lia|unfold is_u32; lia|vm_compute; discriminate|vm_compute; reflexivity].
Defined.
