(* ===== verification/Sh.v ===== *)
(** The shell: user/sh.c.

    The command line is an array of bytes [buf], a C string that ends at [es];
    a [char *] into it is its offset.  The state of the parser is the offset that
    the C code passes as [char **ps]; its panic(), which prints a message and exits,
    is [Panic].  Commands are the values of [cmd], one constructor per struct; malloc() is
    taken to succeed, as the C code does.  parseexec() keeps a pointer to the execcmd
    below the redirections it wraps around it: [add_arg] follows it.

    The functions call each other recursively, so they take a [fuel]. *)

From S2P Require Import Prelude.

Definition MAXARGS : Z := 10.
Definition O_RDONLY : Z := 0x000.
Definition O_WRONLY : Z := 0x001.
Definition O_CREATE : Z := 0x200.
Definition O_TRUNC : Z := 0x400.

(** An argument or a file name: the bytes from [q] to [eq]. *)
Inductive cmd : Type :=
| EXEC (argv : list (Z * Z))
| REDIR (c : cmd) (file efile mode fd : Z)
| PIPE (left right : cmd)
| LIST (left right : cmd)
| BACK (c : cmd).

Definition execcmd : cmd := EXEC [].
Definition redircmd (subcmd : cmd) (file efile mode fd : Z) : cmd := REDIR subcmd file efile mode fd.
Definition pipecmd (left right : cmd) : cmd := PIPE left right.
Definition listcmd (left right : cmd) : cmd := LIST left right.
Definition backcmd (subcmd : cmd) : cmd := BACK subcmd.

(** cmd->argv[argc] = q; cmd->eargv[argc] = eq; for the execcmd below [c]. *)
Fixpoint add_arg (q eq : Z) (c : cmd) : cmd :=
  match c with
  | EXEC argv => EXEC (argv ++ [(q, eq)])
  | REDIR c file efile mode fd => REDIR (add_arg q eq c) file efile mode fd
  | c => c
  end.

Definition bar : Z := 124.
Definition lpar : Z := 40.
Definition rpar : Z := 41.
Definition semi : Z := 59.
Definition amp : Z := 38.
Definition lt : Z := 60.
Definition gt : Z := 62.
Definition plus : Z := 43.
Definition word : Z := 97.

(** " \t\r\n\v" and "<|>&;()". *)
Definition whitespace : list Z := [32; 9; 13; 10; 11].
Definition symbols : list Z := [lt; bar; gt; amp; semi; lpar; rpar].

(** strchr() as a condition; it does not find the NUL. *)
Definition strchr (s : list Z) (c : Z) : bool := existsb (Z.eqb c) s.

Section Parser.
Context (buf : Z -> Z) (es : Z).

(** while(s < es && f( *s )) s++; *)
Fixpoint skip_loop (f : Z -> bool) (k : nat) (s : Z) : Z :=
  match k with
  | O => s
  | S k => if (s <? es) && f (buf s) then skip_loop f k (s + 1) else s
  end.
Definition skip (f : Z -> bool) (s : Z) : Z := skip_loop f (Z.to_nat (es - s)) s.

Definition gettoken : M Z (Z * Z * Z) :=
  let! ps := gets (fun s => s) in
  let s := skip (strchr whitespace) ps in
  let q := s in
  let c := buf s in
  let '(ret_, s) :=
    if c =? 0 then (c, s)
    else if (c =? bar) || (c =? lpar) || (c =? rpar) || (c =? semi) || (c =? amp) || (c =? lt) then (c, s + 1)
    else if c =? gt then
      let s := s + 1 in
      if buf s =? gt then (plus, s + 1) else (c, s)
    else (word, skip (fun c => negb (strchr whitespace c) && negb (strchr symbols c)) s) in
  let eq := s in
  modify (fun _ => skip (strchr whitespace) s) ;;;
  ret (ret_, q, eq).

Definition peek (toks : list Z) : M Z bool :=
  let! ps := gets (fun s => s) in
  let s := skip (strchr whitespace) ps in
  modify (fun _ => s) ;;;
  ret (negb (buf s =? 0) && strchr toks (buf s)).

Fixpoint parseredirs (fuel : nat) (c : cmd) : M Z cmd :=
  match fuel with
  | O => fun _ => NoFuel
  | S fuel =>
      let! more := peek [lt; gt] in
      if more : bool then
        let! t := gettoken in
        let tok := t.1.1 in
        let! t := gettoken in
        let '(tok2, q, eq) := t in
        if negb (tok2 =? word) then panic "missing file for redirection"
        else
          parseredirs fuel
            (if tok =? lt then redircmd c q eq O_RDONLY 0
             else if tok =? gt then redircmd c q eq (Z.lor (Z.lor O_WRONLY O_CREATE) O_TRUNC) 1
             else if tok =? plus then redircmd c q eq (Z.lor O_WRONLY O_CREATE) 1
             else c)
      else ret c
  end.

(** The loop of parseexec(). *)
Fixpoint parseargs (fuel : nat) (argc : Z) (c : cmd) : M Z cmd :=
  match fuel with
  | O => fun _ => NoFuel
  | S fuel =>
      let! stop := peek [bar; rpar; amp; semi] in
      if stop : bool then ret c
      else
        let! t := gettoken in
        let '(tok, q, eq) := t in
        if tok =? 0 then ret c
        else if negb (tok =? word) then panic "syntax"
        else
          let c := add_arg q eq c in
          let argc := argc + 1 in
          if argc >=? MAXARGS then panic "too many args"
          else
            let! c := parseredirs fuel c in
            parseargs fuel argc c
  end.

(** The loop of parseline(). *)
Fixpoint parsebacks (fuel : nat) (c : cmd) : M Z cmd :=
  match fuel with
  | O => fun _ => NoFuel
  | S fuel =>
      let! more := peek [amp] in
      if more : bool then
        gettoken ;;;
        parsebacks fuel (backcmd c)
      else ret c
  end.

Fixpoint parseline (fuel : nat) : M Z cmd :=
  match fuel with
  | O => fun _ => NoFuel
  | S fuel =>
      let! c := parsepipe fuel in
      let! c := parsebacks fuel c in
      let! more := peek [semi] in
      if more : bool then
        gettoken ;;;
        let! right := parseline fuel in
        ret (listcmd c right)
      else ret c
  end
with parsepipe (fuel : nat) : M Z cmd :=
  match fuel with
  | O => fun _ => NoFuel
  | S fuel =>
      let! c := parseexec fuel in
      let! more := peek [bar] in
      if more : bool then
        gettoken ;;;
        let! right := parsepipe fuel in
        ret (pipecmd c right)
      else ret c
  end
with parseexec (fuel : nat) : M Z cmd :=
  match fuel with
  | O => fun _ => NoFuel
  | S fuel =>
      let! block := peek [lpar] in
      if block : bool then parseblock fuel
      else
        let! c := parseredirs fuel execcmd in
        parseargs fuel 0 c
  end
with parseblock (fuel : nat) : M Z cmd :=
  match fuel with
  | O => fun _ => NoFuel
  | S fuel =>
      let! open := peek [lpar] in
      if negb open then panic "parseblock"
      else
        gettoken ;;;
        let! c := parseline fuel in
        let! close := peek [rpar] in
        if negb close then panic "syntax - missing )"
        else
          gettoken ;;;
          parseredirs fuel c
  end.
End Parser.

(** NUL-terminate all the counted strings. *)
Fixpoint nulterminate (c : cmd) (buf : Z -> Z) : Z -> Z :=
  match c with
  | EXEC argv => fold_left (fun buf a => fset buf a.2 0) argv buf
  | REDIR c _ efile _ _ => fset (nulterminate c buf) efile 0
  | PIPE l r => nulterminate r (nulterminate l buf)
  | LIST l r => nulterminate r (nulterminate l buf)
  | BACK c => nulterminate c buf
  end.

(** The command and the buffer with the NULs, for a line of [len] bytes. *)
Definition parsecmd (fuel : nat) (buf : Z -> Z) (len : Z) : M Z (cmd * (Z -> Z)) :=
  let es := len in
  modify (fun _ => 0) ;;;
  let! c := parseline buf es fuel in
  peek buf es [] ;;;
  let! s := gets (fun s => s) in
  if negb (s =? es) then panic "syntax"
  else ret (c, nulterminate c buf).
