(* ===== verification/ShProps.v ===== *)
(** The parser of the shell accepts its grammar, and nothing else. *)

From S2P Require Import Prelude Sh.

(** * Tokens *)

(** A symbol, [>>], or a word with the offsets of its first byte and of the byte behind it. *)
Inductive tok : Type :=
| TSym (c : Z)
| TApp
| TWord (q eq : Z).

(** * The grammar *)

(** Redirections: from a file, to a file, and to the end of a file. *)
Inductive rkind : Type := RIn | ROut | RApp.
Abbreviation redir := (rkind * (Z * Z))%type.
Definition redir_tok (k : rkind) : tok := match k with RIn => TSym lt | ROut => TSym gt | RApp => TApp end.
Definition redir_toks (r : redir) : list tok := [redir_tok r.1; TWord r.2.1 r.2.2].
Definition redir_cmd (c : cmd) (r : redir) : cmd :=
  match r.1 with
  | RIn => REDIR c r.2.1 r.2.2 O_RDONLY 0
  | ROut => REDIR c r.2.1 r.2.2 (Z.lor (Z.lor O_WRONLY O_CREATE) O_TRUNC) 1
  | RApp => REDIR c r.2.1 r.2.2 (Z.lor O_WRONLY O_CREATE) 1
  end.
Definition redirs_toks (rs : list redir) : list tok := concat (map redir_toks rs).
Definition redirs_cmd (c : cmd) (rs : list redir) : cmd := fold_left redir_cmd rs c.

(** An argument and the redirections behind it. *)
Abbreviation arg := (Z * Z * list redir)%type.
Definition arg_toks (a : arg) : list tok := TWord a.1.1 a.1.2 :: redirs_toks a.2.
Definition arg_cmd (c : cmd) (a : arg) : cmd := redirs_cmd (add_arg a.1.1 a.1.2 c) a.2.
Definition args_toks (l : list arg) : list tok := concat (map arg_toks l).
Definition args_cmd (c : cmd) (l : list arg) : cmd := fold_left arg_cmd l c.

(** line = pipe {"&"} [";" line], pipe = exec ["|" pipe],
    exec = redirs {word redirs} or "(" line ")" redirs. *)
Inductive gline : Type :=
| GLine (p : gpipe) (backs : nat)
| GSeq (p : gpipe) (backs : nat) (l : gline)
with gpipe : Type :=
| GOne (e : gexec)
| GPipe (e : gexec) (p : gpipe)
with gexec : Type :=
| GExec (rs : list redir) (args : list arg)
| GBlock (l : gline) (rs : list redir).

Scheme gline_mut := Induction for gline Sort Prop
with gpipe_mut := Induction for gpipe Sort Prop
with gexec_mut := Induction for gexec Sort Prop.
Combined Scheme grammar_ind from gline_mut, gpipe_mut, gexec_mut.

Fixpoint line_toks (g : gline) : list tok :=
  match g with
  | GLine p k => pipe_toks p ++ replicate k (TSym amp)
  | GSeq p k l => pipe_toks p ++ replicate k (TSym amp) ++ TSym semi :: line_toks l
  end
with pipe_toks (g : gpipe) : list tok :=
  match g with
  | GOne e => exec_toks e
  | GPipe e p => exec_toks e ++ TSym bar :: pipe_toks p
  end
with exec_toks (g : gexec) : list tok :=
  match g with
  | GExec rs args => redirs_toks rs ++ args_toks args
  | GBlock l rs => TSym lpar :: line_toks l ++ TSym rpar :: redirs_toks rs
  end.

(** The command that a line stands for. *)
Fixpoint line_cmd (g : gline) : cmd :=
  match g with
  | GLine p k => Nat.iter k BACK (pipe_cmd p)
  | GSeq p k l => LIST (Nat.iter k BACK (pipe_cmd p)) (line_cmd l)
  end
with pipe_cmd (g : gpipe) : cmd :=
  match g with
  | GOne e => exec_cmd e
  | GPipe e p => PIPE (exec_cmd e) (pipe_cmd p)
  end
with exec_cmd (g : gexec) : cmd :=
  match g with
  | GExec rs args => args_cmd (redirs_cmd (EXEC []) rs) args
  | GBlock l rs => redirs_cmd (line_cmd l) rs
  end.

(** No command has MAXARGS arguments or more. *)
Fixpoint line_wf (g : gline) : Prop :=
  match g with
  | GLine p _ => pipe_wf p
  | GSeq p _ l => pipe_wf p /\ line_wf l
  end
with pipe_wf (g : gpipe) : Prop :=
  match g with
  | GOne e => exec_wf e
  | GPipe e p => exec_wf e /\ pipe_wf p
  end
with exec_wf (g : gexec) : Prop :=
  match g with
  | GExec _ args => Z.of_nat (length args) < MAXARGS
  | GBlock l _ => line_wf l
  end.

Section Lexer.
Context (buf : Z -> Z) (es : Z).

Definition word_char (c : Z) : bool := negb (strchr whitespace c) && negb (strchr symbols c).

(** The token at or behind [s], and the offset behind it. *)
Definition next_tok (s : Z) : option (tok * Z) :=
  let s := skip buf es (strchr whitespace) s in
  if s >=? es then None
  else if strchr symbols (buf s) then
    if (buf s =? gt) && (buf (s + 1) =? gt) then Some (TApp, s + 2) else Some (TSym (buf s), s + 1)
  else let e := skip buf es word_char s in Some (TWord s e, e).

(** The tokens from [s] on, at most [k]. *)
Fixpoint lex_loop (k : nat) (s : Z) : list tok :=
  match k with
  | O => []
  | S k => match next_tok s with None => [] | Some (t, s) => t :: lex_loop k s end
  end.
Definition lex (s : Z) : list tok := lex_loop (Z.to_nat (es - s)) s.

(** [buf] holds a string that ends at [es]. *)
Context (Hnz : forall i, 0 <= i < es -> buf i <> 0) (Hz : buf es = 0) (Hes : 0 <= es).
#[local] Set Default Proof Using "Type Hnz Hz Hes".

Lemma skip_spec f s :
  0 <= s <= es ->
  s <= skip buf es f s <= es /\ (forall i, s <= i < skip buf es f s -> f (buf i) = true) /\
  (skip buf es f s = es \/ f (buf (skip buf es f s)) = false).
Proof.
  unfold skip. intros Hs. remember (Z.to_nat (es - s)) as k eqn:Ek. revert s Hs Ek.
  induction k as [|k IH]; intros s Hs Ek; cbn [skip_loop].
  - assert (s = es) as -> by lia. split; [lia|]. split; [lia|]. by left.
  - replace (s <? es) with true by lia. cbn. destruct (f (buf s)) eqn:Ef.
    + destruct (IH (s + 1) ltac:(lia) ltac:(lia)) as (H1 & H2 & H3). split; [lia|]. split; [|done].
      intros i Hi. destruct (decide (i = s)) as [->|]; [done|]. apply H2. lia.
    + split; [lia|]. split; [lia|]. by right.
Qed.

Lemma skip_stop f s : 0 <= s <= es -> (s = es \/ f (buf s) = false) -> skip buf es f s = s.
Proof.
  unfold skip. intros Hs Hf. destruct (Z.to_nat (es - s)) eqn:Ek; [done|]. cbn.
  destruct Hf as [->| ->]; [lia|]. by rewrite andb_false_r.
Qed.

Lemma skip_skip f s : 0 <= s <= es -> skip buf es f (skip buf es f s) = skip buf es f s.
Proof. intros Hs. destruct (skip_spec f s Hs) as (H1 & _ & H3). apply skip_stop; [lia|done]. Qed.

Lemma ws_not_nul s : 0 <= s <= es -> skip buf es (strchr whitespace) s = es <-> buf (skip buf es (strchr whitespace) s) = 0.
Proof.
  intros Hs. destruct (skip_spec (strchr whitespace) s Hs) as (H1 & _ & _). split; [intros ->; done|].
  intros H0. destruct (decide (skip buf es (strchr whitespace) s = es)); [done|]. exfalso. apply (Hnz (skip buf es (strchr whitespace) s)); [lia|done].
Qed.

(** The next token moves on. *)
Lemma next_tok_bounds s t s' : 0 <= s <= es -> next_tok s = Some (t, s') -> s < s' <= es.
Proof.
  intros Hs. unfold next_tok. destruct (skip_spec (strchr whitespace) s Hs) as (H1 & _ & H3).
  set (s1 := skip buf es (strchr whitespace) s) in *. destruct (Z.geb_spec s1 es) as [|Hlt]; [done|].
  destruct H3 as [|Hw]; [lia|]. destruct (strchr symbols (buf s1)) eqn:Ey.
  - destruct (_ && _) eqn:E2; intros [= <- <-]; [|lia]. apply andb_prop in E2 as [_ E2].
    destruct (decide (s1 + 1 = es)) as [He|]; [|lia]. rewrite He, Hz in E2. done.
  - intros [= <- <-]. destruct (skip_spec word_char s1 ltac:(lia)) as (H2 & _ & H4). split; [|lia].
    destruct H4 as [|H4]; [lia|]. destruct (decide (skip buf es word_char s1 = s1)) as [He|]; [|lia].
    rewrite He in H4. unfold word_char in H4. by rewrite Hw, Ey in H4.
Qed.

Lemma lex_eq s : 0 <= s <= es -> lex s = match next_tok s with None => [] | Some (t, s') => t :: lex s' end.
Proof.
  unfold lex. intros Hs.
  assert (Hk : forall k k' s, 0 <= s <= es -> (Z.to_nat (es - s) <= k)%nat -> (Z.to_nat (es - s) <= k')%nat -> lex_loop k s = lex_loop k' s).
  { clear s Hs. induction k as [|k IH]; intros k' s Hs H1 H2.
    - assert (s = es) as -> by lia. destruct k'; [done|]. cbn. unfold next_tok. rewrite skip_stop by (lia || by left).
      by rewrite (proj2 (Z.geb_le es es)) by lia.
    - destruct k' as [|k'].
      + assert (s = es) as -> by lia. cbn. unfold next_tok. rewrite skip_stop by (lia || by left). by rewrite (proj2 (Z.geb_le es es)) by lia.
      + cbn. destruct (next_tok s) as [[t s']|] eqn:E; [|done]. f_equal. pose proof (next_tok_bounds s t s' Hs E). apply IH; lia. }
  destruct (next_tok s) as [[t s']|] eqn:E.
  - pose proof (next_tok_bounds s t s' Hs E). destruct (Z.to_nat (es - s)) as [|k] eqn:Ek; [lia|]. cbn. rewrite E. f_equal. apply Hk; lia.
  - destruct (Z.to_nat (es - s)); cbn; [done|]. by rewrite E.
Qed.

Lemma lex_skip s : 0 <= s <= es -> lex (skip buf es (strchr whitespace) s) = lex s.
Proof.
  intros Hs. destruct (skip_spec (strchr whitespace) s Hs) as (H1 & _). rewrite !lex_eq by lia. unfold next_tok. by rewrite skip_skip.
Qed.

Definition at_ (s : Z) (ts : list tok) : Prop := 0 <= s <= es /\ lex s = ts.

(** What gettoken() returns for a token, and the byte that peek() looks at. *)
Definition code (t : tok) : Z := match t with TSym c => c | TApp => plus | TWord _ _ => word end.
Definition first (t : tok) : Z := match t with TSym c => c | TApp => gt | TWord _ _ => 0 end.
Definition starts (cs : list Z) (ts : list tok) : bool := match ts with t :: _ => strchr cs (first t) | [] => false end.

(** A run ends without running out of fuel; [E] says whether it may panic. *)
Definition wpx {A} (m : M Z A) (Q : A -> Z -> Prop) (E : Prop) (s : Z) : Prop :=
  match m s with Ok a s' => Q a s' | Panic _ => E | _ => False end.
Lemma wpx_ret {A} (a : A) (Q : A -> Z -> Prop) E s : Q a s -> wpx (ret a) Q E s.
Proof. done. Qed.
Lemma wpx_bind {A B} (m : M Z A) (k : A -> M Z B) Q E s : wpx m (fun a => wpx (k a) Q E) E s -> wpx (bind m k) Q E s.
Proof. unfold wpx, bind. by destruct (m s). Qed.
Lemma wpx_mono {A} (m : M Z A) (Q Q' : A -> Z -> Prop) E s : wpx m Q E s -> (forall a s', Q a s' -> Q' a s') -> wpx m Q' E s.
Proof. unfold wpx. destruct (m s); naive_solver. Qed.

Lemma symbols_cases c : strchr symbols c = true ->
  (c = bar \/ c = lpar \/ c = rpar \/ c = semi \/ c = amp \/ c = lt) \/ c = gt.
Proof.
  unfold strchr, symbols. cbn. rewrite !orb_true_iff, !Z.eqb_eq. unfold bar, lpar, rpar, semi, amp, lt, gt. naive_solver.
Qed.

Lemma wpx_gettoken (Q : Z * Z * Z -> Z -> Prop) E s ts :
  at_ s ts ->
  match ts with
  | [] => forall s', at_ s' [] -> Q (0, es, es) s'
  | t :: ts' => forall q eq s', at_ s' ts' -> (forall a b, t = TWord a b -> q = a /\ eq = b) -> Q (code t, q, eq) s'
  end -> wpx (gettoken buf es) Q E s.
Proof.
  intros [Hs Hl] HQ. rewrite lex_eq in Hl by done. unfold gettoken, wpx, bind, gets, modify, ret.
  destruct (skip_spec (strchr whitespace) s Hs) as (H1 & _ & H3). unfold next_tok in Hl.
  pose proof (ws_not_nul s Hs) as Hnul. set (s1 := skip buf es (strchr whitespace) s) in *.
  assert (Hat : forall s' ts', 0 <= s' <= es -> lex s' = ts' -> at_ (skip buf es (strchr whitespace) s') ts').
  { intros s' ts' Hs' <-. destruct (skip_spec (strchr whitespace) s' Hs') as (? & _). split; [lia|by apply lex_skip]. }
  destruct (Z.geb_spec s1 es) as [Hge|Hlt].
  - assert (s1 = es) as -> by lia. rewrite Hz. subst ts. cbn. apply HQ, Hat; [lia|]. rewrite lex_eq by lia. unfold next_tok.
    rewrite skip_stop by (lia || by left). by rewrite (proj2 (Z.geb_le es es)) by lia.
  - rewrite (proj2 (Z.eqb_neq (buf s1) 0)) by (intros H0; apply Hnul in H0; lia).
    assert (Hb : forall t s', next_tok s = Some (t, s') -> s < s' <= es) by (intros t s'; by apply next_tok_bounds).
    unfold next_tok in Hb. fold s1 in Hb.
    replace (s1 >=? es) with false in Hb by lia.
    destruct (strchr symbols (buf s1)) eqn:Ey.
    + destruct (symbols_cases _ Ey) as [Hc|Hc].
      * replace ((buf s1 =? bar) || _ || _ || _ || _ || _) with true by (symmetry; rewrite !orb_true_iff, !Z.eqb_eq; tauto).
        replace (buf s1 =? gt) with false in Hl, Hb by (symmetry; apply Z.eqb_neq; unfold bar, lpar, rpar, semi, amp, lt, gt in *; lia).
        cbn in Hl, Hb. subst ts. apply (HQ s1 (s1 + 1)); [|done]. apply Hat; [|done]. specialize (Hb _ _ eq_refl). lia.
      * rewrite Hc in *. cbn in Hl, Hb |- *. destruct (buf (s1 + 1) =? gt); subst ts; specialize (Hb _ _ eq_refl).
        -- replace (s1 + 1 + 1) with (s1 + 2) by lia. apply (HQ s1 (s1 + 2)); [|done]. apply Hat; [lia|done].
        -- apply (HQ s1 (s1 + 1)); [|done]. apply Hat; [lia|done].
    + assert (Hc : (buf s1 =? bar) || (buf s1 =? lpar) || (buf s1 =? rpar) || (buf s1 =? semi) || (buf s1 =? amp) || (buf s1 =? lt) = false /\
        (buf s1 =? gt) = false).
      { unfold strchr, symbols in Ey. cbn in Ey. rewrite !orb_false_iff in Ey. rewrite !orb_false_iff. tauto. }
      destruct Hc as [-> ->]. subst ts. specialize (Hb _ _ eq_refl). change (fun c => negb (strchr whitespace c) && negb (strchr symbols c)) with word_char. apply HQ; [|by intros ? ? [= <- <-]]. apply Hat; [lia|done].
Qed.

(** peek() only looks at symbols. *)
Lemma wpx_peek cs (Q : bool -> Z -> Prop) E s ts :
  at_ s ts -> (forall c, strchr cs c = true -> strchr symbols c = true) -> (forall s', at_ s' ts -> (ts = [] -> s' = es) -> Q (starts cs ts) s') ->
  wpx (peek buf es cs) Q E s.
Proof.
  intros [Hs Hl] Hcs HQ. unfold peek, wpx, bind, gets, modify, ret. destruct (skip_spec (strchr whitespace) s Hs) as (H1 & _ & H3).
  pose proof (ws_not_nul s Hs) as Hnul. pose proof (lex_skip s Hs) as Hlk. rewrite lex_eq in Hl by done. unfold next_tok in Hl.
  set (s1 := skip buf es (strchr whitespace) s) in *. assert (Hat : at_ s1 ts) by (split; [lia|rewrite Hlk, <- Hl, lex_eq by done; done]).
  destruct (Z.geb_spec s1 es) as [Hge|Hlt].
  - assert (He : s1 = es) by lia. rewrite He, Hz in *. subst ts. cbn. by apply HQ.
  - rewrite (proj2 (Z.eqb_neq (buf s1) 0)) by (intros H0; apply Hnul in H0; lia). cbn [negb andb].
    destruct (strchr symbols (buf s1)) eqn:Ey.
    + destruct ((buf s1 =? gt) && _) eqn:Eg; subst ts; [|by apply HQ]. apply andb_prop in Eg as [Eg%Z.eqb_eq _]. rewrite Eg. by apply HQ.
    + subst ts. replace (strchr cs (buf s1)) with false; [|destruct (strchr cs (buf s1)) eqn:Ec; [|done]; apply Hcs in Ec; congruence].
      assert (H0 : strchr cs 0 = false) by (destruct (strchr cs 0) eqn:Ec; [|done]; by apply Hcs in Ec).
      specialize (HQ s1 Hat ltac:(done)). cbn in HQ. by rewrite H0 in HQ.
Qed.

(** ** Soundness *)

Definition tok_ok (t : tok) : Prop := match t with TSym c => strchr symbols c = true | _ => True end.
Lemma lex_ok s t ts : 0 <= s <= es -> lex s = t :: ts -> tok_ok t.
Proof.
  intros Hs Hl. rewrite lex_eq in Hl by done. unfold next_tok in Hl. set (s1 := skip _ _ _ _) in Hl.
  destruct (s1 >=? es); [done|]. destruct (strchr symbols (buf s1)) eqn:Ey; [|by injection Hl as <- _].
  destruct (_ && _); by injection Hl as <- _.
Qed.

Lemma sub_symbols cs : forallb (strchr symbols) cs = true -> forall c, strchr cs c = true -> strchr symbols c = true.
Proof.
  intros Hf c Hc. unfold strchr at 1 in Hc. apply existsb_exists in Hc as (x & Hx & ->%Z.eqb_eq). rewrite forallb_forall in Hf. by apply Hf.
Qed.

Lemma at_ok s t ts : at_ s (t :: ts) -> tok_ok t.
Proof. intros [Hs Hl]. by eapply lex_ok. Qed.
Lemma code_word t : tok_ok t -> code t = word -> exists a b, t = TWord a b.
Proof. destruct t as [c| |a b]; cbn; [|done|by exists a, b]. intros Hs ->. done. Qed.
Lemma code_nonzero t : tok_ok t -> code t <> 0.
Proof. destruct t as [c| |a b]; cbn; [|done|done]. by intros Hs ->. Qed.
Lemma starts_redir t ts : starts [lt; gt] (t :: ts) = true -> exists k, t = redir_tok k.
Proof.
  destruct t as [c| |a b]; cbn; [|by exists RApp|done]. rewrite orb_false_r, orb_true_iff, !Z.eqb_eq.
  intros [->| ->]; [by exists RIn|by exists ROut].
Qed.
(** A test of a single symbol. *)
Lemma starts_sym c t ts : starts [c] (t :: ts) = true -> strchr symbols c = true -> c <> gt -> t = TSym c.
Proof.
  unfold starts. unfold strchr at 1. cbn [existsb]. rewrite orb_false_r, Z.eqb_eq.
  destruct t as [d| |a b]; cbn [first]; intros <- Hs Hg; done.
Qed.

Lemma parseredirs_sound fuel c s ts :
  at_ s ts -> (length ts < fuel)%nat ->
  wpx (parseredirs buf es fuel c) (fun c' s' => exists rs ts', ts = redirs_toks rs ++ ts' /\ at_ s' ts' /\ c' = redirs_cmd c rs /\
    starts [lt; gt] ts' = false) True s.
Proof.
  revert c s ts. induction fuel as [|fuel IH]; intros c s ts Ha Hf; [lia|]. cbn [parseredirs]. apply wpx_bind.
  apply (wpx_peek _ _ _ _ ts Ha); [by apply sub_symbols|]. intros s1 Ha1 _.
  destruct (starts [lt; gt] ts) eqn:Est; [|apply wpx_ret; by exists [], ts].
  destruct ts as [|t ts]; [done|]. apply wpx_bind, (wpx_gettoken _ _ _ _ Ha1). intros q e s2 Ha2 _.
  apply wpx_bind, (wpx_gettoken _ _ _ _ Ha2). destruct ts as [|t2 ts]; [by intros s3 _|]. intros q2 e2 s3 Ha3 Hw. cbn [fst snd].
  destruct (Z.eqb_spec (code t2) word) as [Hc|Hc]; cbn [negb]; [|done].
  destruct (code_word _ (at_ok _ _ _ Ha2) Hc) as (a & b & ->). destruct (Hw a b eq_refl) as [-> ->].
  destruct (starts_redir _ _ Est) as [k ->]. cbn in Hf.
  eapply wpx_mono; [apply (IH _ s3 ts Ha3); lia|]. intros c' s' (rs & ts' & -> & Ha' & -> & Hst).
  exists ((k, (a, b)) :: rs), ts'. split_and!; [done|done| |done]. by destruct k.
Qed.

Lemma parsebacks_sound fuel c s ts :
  at_ s ts -> (length ts < fuel)%nat ->
  wpx (parsebacks buf es fuel c) (fun c' s' => exists k ts', ts = replicate k (TSym amp) ++ ts' /\ at_ s' ts' /\ c' = Nat.iter k BACK c)
    True s.
Proof.
  revert c s ts. induction fuel as [|fuel IH]; intros c s ts Ha Hf; [lia|]. cbn [parsebacks]. apply wpx_bind.
  apply (wpx_peek _ _ _ _ ts Ha); [by apply sub_symbols|]. intros s1 Ha1 _.
  destruct (starts [amp] ts) eqn:Est; [|apply wpx_ret; by exists 0%nat, ts].
  destruct ts as [|t ts]; [done|]. apply wpx_bind, (wpx_gettoken _ _ _ _ Ha1). intros q e s2 Ha2 _. cbn in Hf.
  eapply wpx_mono; [apply (IH _ s2 ts Ha2); lia|]. intros c' s' (k & ts' & -> & Ha' & ->).
  rewrite (starts_sym amp t _ Est) by done. exists (S k), ts'. split_and!; [done|done|]. symmetry. apply Nat.iter_succ_r.
Qed.

Lemma parseargs_sound fuel argc c s ts :
  at_ s ts -> (length ts < fuel)%nat -> 0 <= argc < MAXARGS ->
  wpx (parseargs buf es fuel argc c) (fun c' s' => exists args ts', ts = args_toks args ++ ts' /\ at_ s' ts' /\ c' = args_cmd c args /\
    argc + Z.of_nat (length args) < MAXARGS) True s.
Proof.
  revert argc c s ts. induction fuel as [|fuel IH]; intros argc c s ts Ha Hf Hargc; [lia|]. cbn [parseargs]. apply wpx_bind.
  apply (wpx_peek _ _ _ _ ts Ha); [by apply sub_symbols|]. intros s1 Ha1 _.
  assert (Hnil : forall s', at_ s' ts -> exists args ts', ts = args_toks args ++ ts' /\ at_ s' ts' /\ c = args_cmd c args /\
    argc + Z.of_nat (length args) < MAXARGS) by (intros s' Hs'; exists [], ts; split_and!; [done|done|done|cbn; lia]).
  destruct (starts _ ts); [apply wpx_ret; by apply Hnil|]. apply wpx_bind, (wpx_gettoken _ _ _ _ Ha1).
  destruct ts as [|t ts]; [intros s2 Ha2; cbn; by apply Hnil|]. intros q e s2 Ha2 Hw.
  rewrite (proj2 (Z.eqb_neq (code t) 0)) by (apply code_nonzero; by eapply at_ok).
  destruct (Z.eqb_spec (code t) word) as [Hc|Hc]; cbn [negb]; [|done].
  destruct (code_word _ (at_ok _ _ _ Ha1) Hc) as (a & b & ->). destruct (Hw a b eq_refl) as [-> ->].
  destruct (Z.geb_spec (argc + 1) MAXARGS) as [|Hlt]; [done|]. cbn in Hf. apply wpx_bind.
  eapply wpx_mono; [apply (parseredirs_sound _ _ s2 ts Ha2); lia|]. intros c1 s3 (rs & ts1 & -> & Ha3 & -> & _).
  rewrite length_app in Hf. eapply wpx_mono; [apply (IH _ _ s3 ts1 Ha3); lia|].
  intros c2 s4 (args & ts2 & -> & Ha4 & -> & Hn). exists (((a, b), rs) :: args), ts2. split_and!; [|done|done|cbn; lia].
  unfold args_toks. cbn. by rewrite <- app_assoc.
Qed.

(** What a parsing function does with the tokens it is given. *)
Definition sound (m : M Z cmd) (G : Type) (toks : G -> list tok) (meaning : G -> cmd) (wf : G -> Prop) (s : Z) (ts : list tok) : Prop :=
  wpx m (fun c s' => exists g ts', ts = toks g ++ ts' /\ at_ s' ts' /\ c = meaning g /\ wf g) True s.

Lemma parse_sound fuel :
  (forall s ts, at_ s ts -> (4 * length ts + 5 <= fuel)%nat -> sound (parseline buf es fuel) gline line_toks line_cmd line_wf s ts) /\
  (forall s ts, at_ s ts -> (4 * length ts + 4 <= fuel)%nat -> sound (parsepipe buf es fuel) gpipe pipe_toks pipe_cmd pipe_wf s ts) /\
  (forall s ts, at_ s ts -> (4 * length ts + 3 <= fuel)%nat -> sound (parseexec buf es fuel) gexec exec_toks exec_cmd exec_wf s ts) /\
  (forall s ts, at_ s ts -> (4 * length ts + 2 <= fuel)%nat -> sound (parseblock buf es fuel) gexec exec_toks exec_cmd exec_wf s ts).
Proof.
  unfold sound. induction fuel as [|fuel (IHl & IHp & IHe & IHb)]; [split_and!; lia|]. split_and!; intros s ts Ha Hf; cbn [parseline parsepipe parseexec parseblock].
  - apply wpx_bind. eapply wpx_mono; [apply (IHp s ts Ha); lia|]. intros c s1 (p & ts1 & -> & Ha1 & -> & Hw).
    rewrite length_app in Hf. apply wpx_bind. eapply wpx_mono; [apply (parsebacks_sound _ _ s1 ts1 Ha1); lia|].
    intros c s2 (k & ts2 & -> & Ha2 & ->). rewrite length_app in Hf. apply wpx_bind, (wpx_peek _ _ _ _ ts2 Ha2); [by apply sub_symbols|].
    intros s3 Ha3 _. destruct (starts [semi] ts2) eqn:Est.
    + destruct ts2 as [|t ts2]; [done|]. rewrite (starts_sym semi t _ Est) in * by done. cbn in Hf.
      apply wpx_bind, (wpx_gettoken _ _ _ _ Ha3). intros _ _ s4 Ha4 _. apply wpx_bind.
      eapply wpx_mono; [apply (IHl s4 ts2 Ha4); lia|]. intros c s5 (g & ts3 & -> & Ha5 & -> & Hw2). apply wpx_ret.
      exists (GSeq p k g), ts3. split_and!; [|done|done|by split]. cbn. by rewrite <- !app_assoc.
    + apply wpx_ret. exists (GLine p k), ts2. split_and!; [|done|done|done]. cbn. by rewrite <- app_assoc.
  - apply wpx_bind. eapply wpx_mono; [apply (IHe s ts Ha); lia|]. intros c s1 (e & ts1 & -> & Ha1 & -> & Hw).
    rewrite length_app in Hf. apply wpx_bind, (wpx_peek _ _ _ _ ts1 Ha1); [by apply sub_symbols|]. intros s2 Ha2 _.
    destruct (starts [bar] ts1) eqn:Est; [|apply wpx_ret; by exists (GOne e), ts1].
    destruct ts1 as [|t ts1]; [done|]. rewrite (starts_sym bar t _ Est) in * by done. cbn in Hf.
    apply wpx_bind, (wpx_gettoken _ _ _ _ Ha2). intros _ _ s3 Ha3 _. apply wpx_bind.
    eapply wpx_mono; [apply (IHp s3 ts1 Ha3); lia|]. intros c s4 (p & ts2 & -> & Ha4 & -> & Hw2). apply wpx_ret.
    exists (GPipe e p), ts2. split_and!; [|done|done|by split]. cbn. by rewrite <- app_assoc.
  - apply wpx_bind, (wpx_peek _ _ _ _ ts Ha); [by apply sub_symbols|]. intros s1 Ha1 _.
    destruct (starts [lpar] ts) eqn:Est; [apply (IHb s1 ts Ha1); lia|]. apply wpx_bind.
    eapply wpx_mono; [apply (parseredirs_sound _ _ s1 ts Ha1); lia|]. intros c s2 (rs & ts1 & -> & Ha2 & -> & _).
    rewrite length_app in Hf. eapply wpx_mono; [apply (parseargs_sound _ _ _ s2 ts1 Ha2); [lia|done]|].
    intros c s3 (args & ts2 & -> & Ha3 & -> & Hn). exists (GExec rs args), ts2. split_and!; [|done|done|cbn; lia]. cbn. by rewrite <- app_assoc.
  - apply wpx_bind, (wpx_peek _ _ _ _ ts Ha); [by apply sub_symbols|]. intros s1 Ha1 _.
    destruct (starts [lpar] ts) eqn:Est; cbn [negb]; [|done]. destruct ts as [|t ts]; [done|].
    rewrite (starts_sym lpar t _ Est) in * by done. cbn in Hf. apply wpx_bind, (wpx_gettoken _ _ _ _ Ha1). intros _ _ s2 Ha2 _.
    apply wpx_bind. eapply wpx_mono; [apply (IHl s2 ts Ha2); lia|]. intros c s3 (g & ts1 & -> & Ha3 & -> & Hw).
    rewrite length_app in Hf. apply wpx_bind, (wpx_peek _ _ _ _ ts1 Ha3); [by apply sub_symbols|]. intros s4 Ha4 _.
    destruct (starts [rpar] ts1) eqn:Est1; cbn [negb]; [|done]. destruct ts1 as [|t1 ts1]; [done|].
    rewrite (starts_sym rpar t1 _ Est1) in * by done. apply wpx_bind, (wpx_gettoken _ _ _ _ Ha4). intros _ _ s5 Ha5 _. cbn in Hf.
    eapply wpx_mono; [apply (parseredirs_sound _ _ s5 ts1 Ha5); lia|]. intros c s6 (rs & ts2 & -> & Ha6 & -> & _).
    exists (GBlock g rs), ts2. split_and!; [|done|done|done]. cbn. by rewrite <- app_assoc.
Qed.

(** ** Completeness *)

(** What may follow a redirection, a command, a pipeline and a line. *)
Definition follows (cs : list Z) (ts : list tok) : Prop := ts = [] \/ starts cs ts = true.

Lemma follows_not cs ds ts : follows cs ts -> forallb (fun c => negb (strchr ds c)) cs = true -> starts ds ts = false.
Proof.
  intros [->|Hs] Hf; [done|]. destruct ts as [|t ts]; [done|]. cbn in *. unfold strchr at 1 in Hs.
  apply existsb_exists in Hs as (x & Hx & ->%Z.eqb_eq). rewrite forallb_forall in Hf. specialize (Hf x Hx). by apply negb_true_iff in Hf.
Qed.
Lemma follows_sub cs ds ts : follows cs ts -> forallb (strchr ds) cs = true -> follows ds ts.
Proof.
  intros [->|Hs] Hf; [by left|right]. destruct ts as [|t ts]; [done|]. cbn in *. unfold strchr at 1 in Hs.
  apply existsb_exists in Hs as (x & Hx & ->%Z.eqb_eq). rewrite forallb_forall in Hf. by apply Hf.
Qed.

Lemma parseredirs_complete fuel c s rs ts :
  at_ s (redirs_toks rs ++ ts) -> starts [lt; gt] ts = false -> (length (redirs_toks rs) < fuel)%nat ->
  wpx (parseredirs buf es fuel c) (fun c' s' => c' = redirs_cmd c rs /\ at_ s' ts) False s.
Proof.
  revert c s rs. induction fuel as [|fuel IH]; intros c s rs Ha Hst Hf; [lia|]. cbn [parseredirs]. apply wpx_bind.
  eapply wpx_peek; [exact Ha|by apply sub_symbols|]. intros s1 Ha1 _. destruct rs as [|[k [a b]] rs].
  - cbn [redirs_toks map concat app]. rewrite Hst. by apply wpx_ret.
  - assert (E : starts [lt; gt] (redirs_toks ((k, (a, b)) :: rs) ++ ts) = true) by (by destruct k). rewrite E.
    apply wpx_bind, (wpx_gettoken _ _ _ _ Ha1). intros q e s2 Ha2 _. apply wpx_bind, (wpx_gettoken _ _ _ _ Ha2).
    intros q2 e2 s3 Ha3 Hw. destruct (Hw a b eq_refl) as [-> ->].
    change (redirs_toks ((k, (a, b)) :: rs)) with (redir_tok k :: TWord a b :: redirs_toks rs) in Hf. cbn in Hf.
    eapply wpx_mono; [apply (IH _ s3 rs Ha3 Hst); lia|]. intros c' s' [-> Ha']. split; [|done]. by destruct k.
Qed.

Lemma parsebacks_complete fuel c s k ts :
  at_ s (replicate k (TSym amp) ++ ts) -> starts [amp] ts = false -> (k < fuel)%nat ->
  wpx (parsebacks buf es fuel c) (fun c' s' => c' = Nat.iter k BACK c /\ at_ s' ts) False s.
Proof.
  revert c s k. induction fuel as [|fuel IH]; intros c s k Ha Hst Hf; [lia|]. cbn [parsebacks]. apply wpx_bind.
  eapply wpx_peek; [exact Ha|by apply sub_symbols|]. intros s1 Ha1 _. destruct k as [|k].
  - cbn [replicate app]. rewrite Hst. by apply wpx_ret.
  - cbn [replicate app] in *. change (starts [amp] (TSym amp :: _)) with true. cbn iota.
    apply wpx_bind, (wpx_gettoken _ _ _ _ Ha1). intros q e s2 Ha2 _.
    eapply wpx_mono; [apply (IH _ s2 k Ha2 Hst); lia|]. intros c' s' [-> Ha']. split; [|done]. symmetry. apply Nat.iter_succ_r.
Qed.

Lemma args_follow args ts : follows [bar; rpar; amp; semi] ts -> starts [lt; gt] (args_toks args ++ ts) = false.
Proof. intros Hf. destruct args as [|[[a b] rs] args]; [|done]. by apply (follows_not _ _ _ Hf). Qed.

Lemma parseargs_complete fuel argc c s args ts :
  at_ s (args_toks args ++ ts) -> follows [bar; rpar; amp; semi] ts -> (length (args_toks args) < fuel)%nat ->
  0 <= argc -> argc + Z.of_nat (length args) < MAXARGS ->
  wpx (parseargs buf es fuel argc c) (fun c' s' => c' = args_cmd c args /\ at_ s' ts) False s.
Proof.
  revert argc c s args. induction fuel as [|fuel IH]; intros argc c s args Ha Hfo Hf Hargc Hn; [lia|]. cbn [parseargs]. apply wpx_bind.
  eapply wpx_peek; [exact Ha|by apply sub_symbols|]. intros s1 Ha1 _. destruct args as [|[[a b] rs] args].
  - cbn [args_toks map concat app] in *. destruct Hfo as [->| ->]; [|by apply wpx_ret].
    cbn [starts]. apply wpx_bind, (wpx_gettoken _ _ _ _ Ha1). intros s2 Ha2. by split.
  - change (args_toks (((a, b), rs) :: args)) with (TWord a b :: redirs_toks rs ++ args_toks args) in *. cbn [app] in *.
    cbn [starts first]. change (strchr [bar; rpar; amp; semi] 0) with false. cbn iota.
    apply wpx_bind, (wpx_gettoken _ _ _ _ Ha1). intros q e s2 Ha2 Hw. destruct (Hw a b eq_refl) as [-> ->]. cbn [code].
    change (word =? 0) with false. change (negb (word =? word)) with false. cbn iota. cbn [length] in Hf, Hn. rewrite length_app in Hf.
    replace (argc + 1 >=? MAXARGS) with false by lia. apply wpx_bind. rewrite <- app_assoc in Ha2.
    eapply wpx_mono; [apply (parseredirs_complete _ _ s2 rs _ Ha2); [by apply args_follow|lia]|].
    intros c1 s3 [-> Ha3]. eapply wpx_mono; [apply (IH _ _ s3 args Ha3 Hfo); lia|]. intros c2 s4 [-> Ha4]. by split.
Qed.

(** The tokens of a command that is not a block do not start with a parenthesis. *)
Lemma exec_no_block rs args ts :
  follows [bar; rpar; amp; semi] ts -> starts [lpar] (redirs_toks rs ++ args_toks args ++ ts) = false.
Proof.
  intros Hf. destruct rs as [|[k [a b]] rs]; [|by destruct k]. cbn [redirs_toks map concat app].
  destruct args as [|[[a b] rs] args]; [|done]. by apply (follows_not _ _ _ Hf).
Qed.

Definition complete (m : M Z cmd) (c : cmd) (s : Z) (ts : list tok) : Prop := wpx m (fun c' s' => c' = c /\ at_ s' ts) False s.

Lemma parse_complete :
  (forall g fuel s ts, line_wf g -> at_ s (line_toks g ++ ts) -> follows [rpar] ts ->
     (4 * length (line_toks g ++ ts) + 5 <= fuel)%nat -> complete (parseline buf es fuel) (line_cmd g) s ts) /\
  (forall g fuel s ts, pipe_wf g -> at_ s (pipe_toks g ++ ts) -> follows [rpar; amp; semi] ts ->
     (4 * length (pipe_toks g ++ ts) + 4 <= fuel)%nat -> complete (parsepipe buf es fuel) (pipe_cmd g) s ts) /\
  (forall g fuel s ts, exec_wf g -> at_ s (exec_toks g ++ ts) -> follows [bar; rpar; amp; semi] ts ->
     (4 * length (exec_toks g ++ ts) + 3 <= fuel)%nat -> complete (parseexec buf es fuel) (exec_cmd g) s ts).
Proof.
  unfold complete. apply grammar_ind.
  - intros p IHp k fuel s ts Hw Ha Hfo Hf. destruct fuel as [|fuel]; [lia|]. cbn [parseline line_toks line_cmd] in *. rewrite <- app_assoc in *.
    apply wpx_bind. eapply wpx_mono; [apply (IHp fuel s _ Hw Ha); [|lia]|].
    { destruct k; [by apply (follows_sub [rpar])|by right]. }
    intros c s1 [-> Ha1]. rewrite !length_app, length_replicate in Hf. apply wpx_bind.
    eapply wpx_mono; [apply (parsebacks_complete _ _ s1 k _ Ha1); [by apply (follows_not [rpar])|lia]|]. intros c s2 [-> Ha2].
    apply wpx_bind, (wpx_peek _ _ _ _ _ Ha2); [by apply sub_symbols|]. intros s3 Ha3 _. rewrite (follows_not [rpar] [semi] ts) by done.
    by apply wpx_ret.
  - intros p IHp k l IHl fuel s ts [Hw1 Hw2] Ha Hfo Hf. destruct fuel as [|fuel]; [lia|]. cbn [parseline line_toks line_cmd] in *.
    rewrite <- !app_assoc in *. cbn [app] in *. apply wpx_bind. eapply wpx_mono; [apply (IHp fuel s _ Hw1 Ha); [|lia]|].
    { destruct k; by right. }
    intros c s1 [-> Ha1]. rewrite !length_app, length_replicate in Hf. cbn [length] in Hf. rewrite length_app in Hf. apply wpx_bind.
    eapply wpx_mono; [apply (parsebacks_complete _ _ s1 k _ Ha1); [done|lia]|]. intros c s2 [-> Ha2].
    apply wpx_bind, (wpx_peek _ _ _ _ _ Ha2); [by apply sub_symbols|]. intros s3 Ha3 _. change (starts [semi] (TSym semi :: _)) with true. cbn iota.
    apply wpx_bind, (wpx_gettoken _ _ _ _ Ha3). intros _ _ s4 Ha4 _. apply wpx_bind.
    eapply wpx_mono; [apply (IHl fuel s4 ts Hw2 Ha4 Hfo); rewrite length_app; lia|]. intros c s5 [-> Ha5]. by apply wpx_ret.
  - intros e IHe fuel s ts Hw Ha Hfo Hf. destruct fuel as [|fuel]; [lia|]. cbn [parsepipe pipe_toks pipe_cmd] in *. apply wpx_bind.
    eapply wpx_mono; [apply (IHe fuel s ts Hw Ha); [by apply (follows_sub [rpar; amp; semi])|lia]|]. intros c s1 [-> Ha1].
    apply wpx_bind, (wpx_peek _ _ _ _ _ Ha1); [by apply sub_symbols|]. intros s2 Ha2 _.
    rewrite (follows_not [rpar; amp; semi] [bar] ts) by done. by apply wpx_ret.
  - intros e IHe p IHp fuel s ts [Hw1 Hw2] Ha Hfo Hf. destruct fuel as [|fuel]; [lia|]. cbn [parsepipe pipe_toks pipe_cmd] in *.
    rewrite <- app_assoc in *. cbn [app] in *. apply wpx_bind. eapply wpx_mono; [apply (IHe fuel s _ Hw1 Ha); [by right|lia]|].
    intros c s1 [-> Ha1]. rewrite length_app in Hf. cbn [length] in Hf.
    apply wpx_bind, (wpx_peek _ _ _ _ _ Ha1); [by apply sub_symbols|]. intros s2 Ha2 _. change (starts [bar] (TSym bar :: _)) with true. cbn iota.
    apply wpx_bind, (wpx_gettoken _ _ _ _ Ha2). intros _ _ s3 Ha3 _. apply wpx_bind.
    eapply wpx_mono; [apply (IHp fuel s3 ts Hw2 Ha3 Hfo); lia|]. intros c s4 [-> Ha4]. by apply wpx_ret.
  - intros rs args fuel s ts Hw Ha Hfo Hf. destruct fuel as [|fuel]; [lia|]. cbn [parseexec exec_toks exec_cmd exec_wf] in *. rewrite <- app_assoc in *.
    apply wpx_bind, (wpx_peek _ _ _ _ _ Ha); [by apply sub_symbols|]. intros s1 Ha1 _. rewrite exec_no_block by done. apply wpx_bind.
    rewrite !length_app in Hf. eapply wpx_mono; [apply (parseredirs_complete _ _ s1 rs _ Ha1); [by apply args_follow|lia]|].
    intros c s2 [-> Ha2]. apply (parseargs_complete _ 0 _ s2 args ts Ha2 Hfo); lia.
  - intros l IHl rs fuel s ts Hw Ha Hfo Hf. destruct fuel as [|[|fuel]]; [lia|lia|]. cbn [parseexec parseblock exec_toks exec_cmd exec_wf app] in *.
    apply wpx_bind, (wpx_peek _ _ _ _ _ Ha); [by apply sub_symbols|]. intros s1 Ha1 _. change (starts [lpar] (TSym lpar :: _)) with true. cbn iota.
    apply wpx_bind, (wpx_peek _ _ _ _ _ Ha1); [by apply sub_symbols|]. intros s2 Ha2 _. change (starts [lpar] (TSym lpar :: _)) with true. cbn [negb].
    apply wpx_bind, (wpx_gettoken _ _ _ _ Ha2). intros _ _ s3 Ha3 _. rewrite <- app_assoc in *. cbn [app length] in *. apply wpx_bind.
    eapply wpx_mono; [apply (IHl fuel s3 _ Hw Ha3); [by right|lia]|]. intros c s4 [-> Ha4]. rewrite !length_app in Hf. cbn [length] in Hf.
    rewrite length_app in Hf. apply wpx_bind, (wpx_peek _ _ _ _ _ Ha4); [by apply sub_symbols|]. intros s5 Ha5 _.
    change (starts [rpar] (TSym rpar :: _)) with true. cbn [negb]. apply wpx_bind, (wpx_gettoken _ _ _ _ Ha5). intros _ _ s6 Ha6 _.
    apply (parseredirs_complete _ _ s6 rs ts Ha6); [by apply (follows_not [bar; rpar; amp; semi])|lia].
Qed.

(** * The parser *)

Lemma lex_length s : 0 <= s <= es -> (length (lex s) <= Z.to_nat (es - s))%nat.
Proof.
  intros Hs. unfold lex. generalize (Z.to_nat (es - s)) as k. intros k. clear Hs. revert s.
  induction k as [|k IH]; intros s; cbn; [lia|]. destruct (next_tok s) as [[t s']|]; cbn; [|lia]. specialize (IH s'). lia.
Qed.

Lemma parsecmd_sound fuel s0 :
  (4 * Z.to_nat es + 5 <= fuel)%nat ->
  wpx (parsecmd fuel buf es) (fun r _ => r.2 = nulterminate r.1 buf /\ exists g, line_wf g /\ lex 0 = line_toks g /\ r.1 = line_cmd g) True s0.
Proof.
  intros Hf. pose proof (lex_length 0 ltac:(lia)) as Hlen. unfold parsecmd. apply wpx_bind. unfold wpx at 1, modify.
  apply wpx_bind. eapply wpx_mono; [apply (proj1 (parse_sound fuel)) with (ts := lex 0); [split; [lia|done]|lia]|].
  intros c s1 (g & ts & Hl & Ha1 & -> & Hw). apply wpx_bind, (wpx_peek _ _ _ _ _ Ha1); [done|]. intros s2 [Hs2 Hl2] _.
  apply wpx_bind. unfold wpx at 1, gets. destruct (Z.eqb_spec s2 es) as [->|]; cbn [negb]; [|done]. apply wpx_ret. split; [done|].
  exists g. split; [done|]. split; [|done]. rewrite Hl. rewrite lex_eq in Hl2 by lia. unfold next_tok in Hl2.
  rewrite skip_stop in Hl2 by (lia || by left). rewrite (proj2 (Z.geb_le es es)) in Hl2 by lia. by rewrite <- Hl2, app_nil_r.
Qed.

Lemma parsecmd_complete fuel s0 g :
  (4 * Z.to_nat es + 5 <= fuel)%nat -> line_wf g -> lex 0 = line_toks g -> wpx (parsecmd fuel buf es) (fun _ _ => True) False s0.
Proof.
  intros Hf Hw Hl. pose proof (lex_length 0 ltac:(lia)) as Hlen. unfold parsecmd. apply wpx_bind. unfold wpx at 1, modify.
  apply wpx_bind. eapply wpx_mono; [apply (proj1 parse_complete g fuel 0 []); rewrite ?app_nil_r, <- ?Hl; [done|by split; [lia|]|by left|lia]|].
  intros c s1 [-> Ha1]. apply wpx_bind, (wpx_peek _ _ _ _ _ Ha1); [done|]. intros s2 _ Hs2. apply wpx_bind. unfold wpx at 1, gets.
  by rewrite Hs2, Z.eqb_refl.
Qed.

(** C33.  The parser of the shell accepts exactly its grammar: on every line it
    ends, with the command that the line stands for when the tokens of the line
    derive from the grammar with fewer than MAXARGS arguments per command, and with a message otherwise. *)
Theorem shell_parser_correct fuel s0 :
  (4 * Z.to_nat es + 5 <= fuel)%nat ->
  match parsecmd fuel buf es s0 with
  | Ok (c, buf') _ => exists g, line_wf g /\ lex 0 = line_toks g /\ c = line_cmd g
  | Panic _ => forall g, line_wf g -> lex 0 <> line_toks g
  | _ => False
  end.
Proof.
  intros Hf. pose proof (parsecmd_sound fuel s0 Hf) as Hs. unfold wpx in Hs.
  destruct (parsecmd fuel buf es s0) as [[c b] s1|msg| |] eqn:E; [by destruct Hs| |done|done].
  intros g Hw Hl. pose proof (parsecmd_complete fuel s0 g Hf Hw Hl) as Hc. unfold wpx in Hc. by rewrite E in Hc.
Qed.

(** ** Words *)

(** The words of a command. *)
Fixpoint cmd_words (c : cmd) : list (Z * Z) :=
  match c with
  | EXEC argv => argv
  | REDIR c file efile _ _ => cmd_words c ++ [(file, efile)]
  | PIPE l r => cmd_words l ++ cmd_words r
  | LIST l r => cmd_words l ++ cmd_words r
  | BACK c => cmd_words c
  end.

Lemma nulterminate_at c b i : nulterminate c b i = if bool_decide (i ∈ (cmd_words c).*2) then 0 else b i.
Proof.
  assert (Hif : forall (x y : bool) (u : Z), (if x || y then 0 else u) = if y then 0 else if x then 0 else u) by (by intros [] []).
  assert (Happ : forall (l1 l2 : list (Z * Z)), bool_decide (i ∈ (l1 ++ l2).*2) = bool_decide (i ∈ l1.*2) || bool_decide (i ∈ l2.*2)).
  { intros l1 l2. rewrite fmap_app, <- bool_decide_or. apply bool_decide_ext, elem_of_app. }
  assert (Hone : forall (q e : Z) (f : Z -> Z), fset f e 0 i = if bool_decide (i ∈ [(q, e)].*2) then 0 else f i).
  { intros q e f. unfold fset. cbn. destruct (Z.eqb_spec i e) as [->|Hne]; [by rewrite bool_decide_true by (by left)|].
    rewrite bool_decide_false; [done|]. by intros ?%list_elem_of_singleton. }
  revert b. induction c as [argv|c IH f e m fd|l IHl r IHr|l IHl r IHr|c IH]; intros b; cbn [nulterminate cmd_words]; rewrite ?Happ, ?Hif.
  - induction argv as [|[q e] argv IH] using rev_ind; [done|]. rewrite fold_left_app, Happ, Hif, <- IH. cbn [fold_left]. by rewrite (Hone q).
  - by rewrite (Hone f), IH.
  - by rewrite IHr, IHl.
  - by rewrite IHr, IHl.
  - apply IH.
Qed.

(** The words of a line are runs of word bytes that cannot be extended. *)
Record word_at (q e : Z) : Prop := {
  wa_range : 0 <= q < e;
  wa_end : e <= es;
  wa_in : forall i, q <= i < e -> word_char (buf i) = true;
  wa_stop : e = es \/ word_char (buf e) = false;
}.

Lemma lex_words s q e : 0 <= s <= es -> TWord q e ∈ lex s -> word_at q e.
Proof.
  intros Hs. remember (Z.to_nat (es - s)) as k eqn:Ek. revert s Hs Ek. induction k as [k IH] using lt_wf_ind. intros s Hs Ek.
  rewrite lex_eq by done. destruct (next_tok s) as [[t s']|] eqn:E; [|by intros ?%elem_of_nil].
  pose proof (next_tok_bounds s t s' Hs E) as Hb. intros [Ht|Hin]%elem_of_cons; [|by apply (IH (Z.to_nat (es - s')) ltac:(lia) s'); [lia|done|]].
  subst t. unfold next_tok in E. destruct (skip_spec (strchr whitespace) s Hs) as (H1 & _ & Hw). set (s1 := skip _ _ _ _) in *.
  destruct (Z.geb_spec s1 es) as [|Hlt]; [done|]. destruct (strchr symbols (buf s1)) eqn:Ey; [by destruct (_ && _)|]. injection E as Hq He Hs'.
  destruct Hw as [|Hw]; [lia|]. destruct (skip_spec word_char s1 ltac:(lia)) as (H2 & H3 & H4). subst q e.
  split; [|lia|done|done]. split; [lia|]. destruct (decide (skip buf es word_char s1 = s1)) as [Heq|]; [|lia].
  rewrite Heq in H4. destruct H4 as [|H4]; [lia|]. unfold word_char in H4. by rewrite Hw, Ey in H4.
Qed.

Lemma redirs_words c rs w : w ∈ cmd_words (redirs_cmd c rs) -> w ∈ cmd_words c \/ TWord w.1 w.2 ∈ redirs_toks rs.
Proof.
  revert c. induction rs as [|[k [a b]] rs IH]; intros c Hw; [by left|]. apply IH in Hw as [Hw|Hw]; [|right; right; by right].
  assert (Hc : w ∈ cmd_words c ++ [(a, b)]) by (by destruct k). apply elem_of_app in Hc as [Hc|Hc]; [by left|right].
  apply list_elem_of_singleton in Hc as ->. right. by left.
Qed.
Lemma add_arg_words q e c w : w ∈ cmd_words (add_arg q e c) -> w ∈ cmd_words c \/ w = (q, e).
Proof.
  induction c as [argv|c IH f ef m fd| | |]; cbn; try by left.
  - intros [Hw|Hw%list_elem_of_singleton]%elem_of_app; [by left|by right].
  - intros [[Hw|Hw]%IH|Hw]%elem_of_app; [left; apply elem_of_app; by left|by right|left; apply elem_of_app; by right].
Qed.
Lemma args_words c args w : w ∈ cmd_words (args_cmd c args) -> w ∈ cmd_words c \/ TWord w.1 w.2 ∈ args_toks args.
Proof.
  revert c. induction args as [|[[a b] rs] args IH]; intros c Hw; [by left|].
  change (args_toks (((a, b), rs) :: args)) with (TWord a b :: redirs_toks rs ++ args_toks args).
  apply IH in Hw as [Hw|Hw]; [|right; right; apply elem_of_app; by right].
  apply redirs_words in Hw as [Hw|Hw]; [|right; right; apply elem_of_app; by left].
  apply add_arg_words in Hw as [Hw|Hw]; [by left|right]. subst w. by left.
Qed.
Lemma backs_words k c : cmd_words (Nat.iter k BACK c) = cmd_words c.
Proof. by induction k. Qed.

Lemma grammar_words :
  (forall g w, w ∈ cmd_words (line_cmd g) -> TWord w.1 w.2 ∈ line_toks g) /\
  (forall g w, w ∈ cmd_words (pipe_cmd g) -> TWord w.1 w.2 ∈ pipe_toks g) /\
  (forall g w, w ∈ cmd_words (exec_cmd g) -> TWord w.1 w.2 ∈ exec_toks g).
Proof.
  apply grammar_ind; cbn [line_cmd line_toks pipe_cmd pipe_toks exec_cmd exec_toks cmd_words].
  - intros p IH k w. rewrite backs_words. intros Hw. apply elem_of_app. left. by apply IH.
  - intros p IHp k l IHl w. rewrite backs_words. intros [Hw|Hw]%elem_of_app; apply elem_of_app; [left; by apply IHp|right].
    apply elem_of_app. right. right. by apply IHl.
  - done.
  - intros e IHe p IHp w [Hw|Hw]%elem_of_app; apply elem_of_app; [left; by apply IHe|right; right; by apply IHp].
  - intros rs args w [[Hw|Hw]%redirs_words|Hw]%args_words; [by apply elem_of_nil in Hw| |]; apply elem_of_app; [by left|by right].
  - intros l IHl rs w [Hw|Hw]%redirs_words; right; apply elem_of_app; [left; by apply IHl|right; by right].
Qed.

(** ** Well-formed commands *)

(** What runcmd() relies on: argument vectors with room for the final null, and
    the modes and descriptors of the three kinds of redirection. *)
Definition redir_modes : list (Z * Z) :=
  [(O_RDONLY, 0); (Z.lor (Z.lor O_WRONLY O_CREATE) O_TRUNC, 1); (Z.lor O_WRONLY O_CREATE, 1)].
Fixpoint cmd_ok (c : cmd) : Prop :=
  match c with
  | EXEC argv => Z.of_nat (length argv) < MAXARGS
  | REDIR c _ _ mode fd => (mode, fd) ∈ redir_modes /\ cmd_ok c
  | PIPE l r => cmd_ok l /\ cmd_ok r
  | LIST l r => cmd_ok l /\ cmd_ok r
  | BACK c => cmd_ok c
  end.

Lemma redirs_ok c rs : cmd_ok c -> cmd_ok (redirs_cmd c rs).
Proof.
  revert c. induction rs as [|[k [a b]] rs IH]; intros c Hc; [done|]. apply IH. destruct k; (split; [|done]); unfold redir_modes.
  - by left.
  - right. by left.
  - right. right. by left.
Qed.

(** The number of arguments of the execcmd below redirections. *)
Fixpoint nargs (c : cmd) : option nat :=
  match c with EXEC argv => Some (length argv) | REDIR c _ _ _ _ => nargs c | _ => None end.
Lemma nargs_redirs c rs : nargs (redirs_cmd c rs) = nargs c.
Proof.
  revert c. induction rs as [|[k [a b]] rs IH]; intros c; [done|].
  change (redirs_cmd c _) with (redirs_cmd (redir_cmd c (k, (a, b))) rs). rewrite IH. by destruct k.
Qed.
Lemma add_arg_ok q e c n :
  cmd_ok c -> nargs c = Some n -> Z.of_nat (S n) < MAXARGS -> cmd_ok (add_arg q e c) /\ nargs (add_arg q e c) = Some (S n).
Proof.
  induction c as [argv|c IH f ef m fd| | |]; cbn; intros Hc Hn Hlt; try done.
  - injection Hn as <-. rewrite length_app. cbn. split; [lia|f_equal; lia].
  - destruct Hc as [Hm Hc]. destruct (IH Hc Hn Hlt). done.
Qed.
Lemma args_ok c args n :
  cmd_ok c -> nargs c = Some n -> Z.of_nat (n + length args) < MAXARGS -> cmd_ok (args_cmd c args).
Proof.
  revert c n. induction args as [|[[a b] rs] args IH]; intros c n Hc Hn Hlt; [done|]. cbn in Hlt.
  destruct (add_arg_ok a b c n Hc Hn ltac:(lia)) as [H1 H2]. apply (IH _ (S n)); [by apply redirs_ok|by unfold arg_cmd; rewrite nargs_redirs|lia].
Qed.

Lemma grammar_ok :
  (forall g, line_wf g -> cmd_ok (line_cmd g)) /\ (forall g, pipe_wf g -> cmd_ok (pipe_cmd g)) /\ (forall g, exec_wf g -> cmd_ok (exec_cmd g)).
Proof.
  assert (Hback : forall k c, cmd_ok c -> cmd_ok (Nat.iter k BACK c)) by (intros k c Hc; by induction k).
  apply grammar_ind; cbn [line_cmd line_wf pipe_cmd pipe_wf exec_cmd exec_wf cmd_ok].
  - intros p IH k Hw. by apply Hback, IH.
  - intros p IHp k l IHl [Hw1 Hw2]. split; [by apply Hback, IHp|by apply IHl].
  - done.
  - intros e IHe p IHp [Hw1 Hw2]. split; [by apply IHe|by apply IHp].
  - intros rs args Hw. apply (args_ok _ _ 0); [by apply redirs_ok|by rewrite nargs_redirs|done].
  - intros l IHl rs Hw. by apply redirs_ok, IHl.
Qed.

(** C34.  A command that the parser returns is well formed: every argument vector
    has room for its final null pointer, every redirection has a mode and a descriptor that
    go together, and every argument and file name is a run of bytes of the line
    that the parser has turned into a string of its own, with the bytes that were
    typed and a NUL behind them: no NUL written for one word damages another. *)
Theorem parsed_command_wellformed fuel s0 c buf' s' :
  (4 * Z.to_nat es + 5 <= fuel)%nat -> parsecmd fuel buf es s0 = Ok (c, buf') s' ->
  cmd_ok c /\ forall q e, (q, e) ∈ cmd_words c ->
    0 <= q < e /\ e <= es /\ buf' e = 0 /\ forall i, q <= i < e -> buf' i = buf i /\ buf i <> 0.
Proof.
  intros Hf He. pose proof (parsecmd_sound fuel s0 Hf) as Hs. unfold wpx in Hs. rewrite He in Hs. destruct Hs as (Hb & g & Hw & Hl & Hc).
  cbn in Hb, Hc. subst c buf'. split; [by apply grammar_ok|].
  assert (Hword : forall q e, (q, e) ∈ cmd_words (line_cmd g) -> word_at q e).
  { intros q e Hq. apply (lex_words 0); [lia|]. rewrite Hl. by apply (proj1 grammar_words g (q, e)). }
  intros q e Hq. destruct (Hword q e Hq) as [W1 W2 W3 W4]. split_and!; try lia.
  - rewrite nulterminate_at, bool_decide_true; [done|]. apply list_elem_of_fmap. by exists (q, e).
  - intros i Hi. split; [|apply Hnz; lia]. rewrite nulterminate_at, bool_decide_false; [done|].
    intros ([q2 e2] & -> & Hq2)%list_elem_of_fmap. cbn in Hi. destruct (Hword q2 e2 Hq2) as [V1 V2 V3 [V4|V4]]; [lia|].
    by rewrite W3 in V4.
Qed.
End Lexer.

Module ShDemo.
(** ls -l>out | (wc;cat <a b)& *)
Definition line : list Z :=
  [108; 115; 32; 45; 108; 62; 111; 117; 116; 32; 124; 32; 40; 119; 99; 59; 99; 97; 116; 32; 60; 97; 32; 98; 41; 38; 10].
Definition len : Z := 27.
Definition buf (i : Z) : Z := if 0 <=? i then nth (Z.to_nat i) line 0 else 0.
Lemma buf_nz i : 0 <= i < len -> buf i <> 0.
Proof.
  intros Hi. unfold buf. replace (0 <=? i) with true by lia.
  assert (Hall : forallb (fun k => negb (nth k line 0 =? 0)) (seq 0 27) = true) by (vm_compute; reflexivity).
  rewrite forallb_forall in Hall. unfold len in Hi. specialize (Hall (Z.to_nat i)). rewrite in_seq in Hall.
  specialize (Hall ltac:(lia)). lia.
Qed.
Definition parsed : cmd :=
  BACK (PIPE (REDIR (EXEC [(0, 2); (3, 5)]) 6 9 1537 1)
             (LIST (EXEC [(13, 15)]) (REDIR (EXEC [(16, 19); (23, 24)]) 21 22 0 0))).
Definition returns (r : res Z (cmd * (Z -> Z))) : option cmd := match r with Ok (c, _) _ => Some c | _ => None end.
Lemma returns_parsed : returns (parsecmd 120 buf len 0) = Some parsed.
Proof. vm_compute. reflexivity. Qed.
Lemma returns_ok r c : returns r = Some c -> exists b s, r = Ok (c, b) s.
Proof. destruct r as [[c' b] s| | |]; cbn; intros H; [|done..]. injection H as ->. by exists b, s. Qed.
End ShDemo.

Lemma shell_parser_correct_witness :
  exists g, line_wf g /\ lex ShDemo.buf ShDemo.len 0 = line_toks g /\ ShDemo.parsed = line_cmd g.
Proof.
  assert (Hp := shell_parser_correct ShDemo.buf ShDemo.len ShDemo.buf_nz eq_refl ltac:(done) 120 0 ltac:(unfold ShDemo.len; lia)).
  destruct (ShDemo.returns_ok _ _ ShDemo.returns_parsed) as (b & s & E). rewrite E in Hp. exact Hp.
Defined.

Lemma parsed_command_wellformed_witness :
  cmd_ok ShDemo.parsed /\ exists b : Z -> Z, b 9 = 0 /\ b 6 = 111.
Proof.
  destruct (ShDemo.returns_ok _ _ ShDemo.returns_parsed) as (b & s & E).
  destruct (parsed_command_wellformed ShDemo.buf ShDemo.len ShDemo.buf_nz eq_refl ltac:(done) 120 0 ShDemo.parsed b s ltac:(unfold ShDemo.len; lia) E)
    as [Hok Hw].
  split; [exact Hok|]. destruct (Hw 6 9) as (_ & _ & H0 & Hi); [vm_compute; right; right; left|].
  exists b. split; [exact H0|]. rewrite (proj1 (Hi 6 ltac:(lia))). vm_compute. reflexivity.
Defined.
