(* ===== verification/ShRun.v ===== *)
(** What the shell runs: runcmd() of user/sh.c.

    A process is its table of open files; fork() copies it.  The system calls act on
    the table as sysfile.c says: a new descriptor is the lowest free one, and a
    call without a free descriptor fails and changes nothing.  [opens] says which
    files can be opened; fork() is taken to succeed.  [runcmd] gives the programs that the
    command starts, each with its arguments and its open files. *)

From S2P Require Import Prelude Riscv Sh ShProps.

(** An open file: what the shell was given, a file it has opened by name (the word at that
    offset) and mode, or an end of its n-th pipe. *)
Inductive ofile : Type :=
| OGiven (i : Z)
| OFile (file mode : Z)
| OPipeR (n : Z)
| OPipeW (n : Z).

Definition ftable : Type := gmap Z ofile.

Definition fdalloc (t : ftable) : option Z := head (filter (fun i => t !! i = None) (seqZ 0 NOFILE)).

Definition sys_close (fd : Z) (t : ftable) : ftable := delete fd t.
Definition sys_dup (fd : Z) (t : ftable) : ftable :=
  match t !! fd, fdalloc t with
  | Some f, Some i => <[i := f]> t
  | _, _ => t
  end.

Lemma redir_std mode fd : (mode, fd) ∈ redir_modes -> fd = 0 \/ fd = 1.
Proof. unfold redir_modes. rewrite !elem_of_cons, elem_of_nil. naive_solver. Qed.

Section Run.
Context (opens : Z -> Z -> bool).

Definition sys_open (file mode : Z) (t : ftable) : option ftable :=
  if opens file mode then
    match fdalloc t with
    | Some i => Some (<[i := OFile file mode]> t)
    | None => None
    end
  else None.
Definition sys_pipe (n : Z) (t : ftable) : option (Z * Z * ftable) :=
  match fdalloc t with
  | Some p0 =>
      let t := <[p0 := OPipeR n]> t in
      match fdalloc t with
      | Some p1 => Some (p0, p1, <[p1 := OPipeW n]> t)
      | None => None
      end
  | None => None
  end.

(** [n] counts the pipes. *)
Fixpoint runcmd (c : cmd) (t : ftable) (n : Z) : list (list (Z * Z) * ftable) * Z :=
  match c with
  | EXEC argv =>
      match argv with
      | [] => ([], n)                                          (* exit(1) *)
      | _ => ([(argv, t)], n)                                  (* exec(ecmd->argv[0], ecmd->argv) *)
      end
  | REDIR c file _ mode fd =>
      let t := sys_close fd t in
      match sys_open file mode t with
      | None => ([], n)                                        (* open failed *)
      | Some t => runcmd c t n
      end
  | LIST l r =>
      let '(o1, n) := runcmd l t n in                          (* the child; wait(0) *)
      let '(o2, n) := runcmd r t n in
      (o1 ++ o2, n)
  | PIPE l r =>
      match sys_pipe n t with
      | None => ([], n)                                        (* panic("pipe") *)
      | Some (p0, p1, t) =>
          let n := n + 1 in
          let '(o1, n) :=
            let t := sys_close 1 t in
            let t := sys_dup p1 t in
            let t := sys_close p0 t in
            let t := sys_close p1 t in
            runcmd l t n in
          let '(o2, n) :=
            let t := sys_close 0 t in
            let t := sys_dup p0 t in
            let t := sys_close p0 t in
            let t := sys_close p1 t in
            runcmd r t n in
          (o1 ++ o2, n)
      end
  | BACK c => runcmd c t n
  end.

(** * The contract *)

(** Standard input, standard output and standard error. *)
Definition stdio : Type := ofile * ofile * ofile.
Definition std (x : stdio) : ftable := <[0 := x.1.1]> (<[1 := x.1.2]> (<[2 := x.2]> ∅)).

(** The programs of a command and what their standard files are, by the meaning
    of redirections and pipes. *)
Fixpoint plumb (c : cmd) (x : stdio) (n : Z) : list (list (Z * Z) * stdio) * Z :=
  match c with
  | EXEC argv => match argv with [] => ([], n) | _ => ([(argv, x)], n) end
  | REDIR c file _ mode fd =>
      if opens file mode then
        plumb c (if fd =? 0 then (OFile file mode, x.1.2, x.2) else (x.1.1, OFile file mode, x.2)) n
      else ([], n)
  | LIST l r =>
      let '(o1, n) := plumb l x n in
      let '(o2, n) := plumb r x n in
      (o1 ++ o2, n)
  | PIPE l r =>
      let '(o1, m) := plumb l (x.1.1, OPipeW n, x.2) (n + 1) in
      let '(o2, m) := plumb r (OPipeR n, x.1.2, x.2) m in
      (o1 ++ o2, m)
  | BACK c => plumb c x n
  end.

Lemma open_std0 file mode i o e :
  sys_open file mode (sys_close 0 (std (i, o, e))) = if opens file mode then Some (std (OFile file mode, o, e)) else None.
Proof. unfold sys_open. destruct (opens file mode); [|done]. reflexivity. Qed.
Lemma open_std1 file mode i o e :
  sys_open file mode (sys_close 1 (std (i, o, e))) = if opens file mode then Some (std (i, OFile file mode, e)) else None.
Proof. unfold sys_open. destruct (opens file mode); [|done]. reflexivity. Qed.

Definition piped (n : Z) (x : stdio) : ftable := <[4 := OPipeW n]> (<[3 := OPipeR n]> (std x)).
Lemma pipe_std n x : sys_pipe n (std x) = Some (3, 4, piped n x).
Proof. by destruct x as [[i o] e]. Qed.
Lemma pipe_left n i o e : sys_close 4 (sys_close 3 (sys_dup 4 (sys_close 1 (piped n (i, o, e))))) = std (i, OPipeW n, e).
Proof. reflexivity. Qed.
Lemma pipe_right n i o e : sys_close 4 (sys_close 3 (sys_dup 3 (sys_close 0 (piped n (i, o, e))))) = std (OPipeR n, o, e).
Proof. reflexivity. Qed.

(** C35.  The shell plumbs pipelines as their meaning says: for every command
    that the parser can return, every program it starts has exactly three open files, its standard input, output and error, and
    these are the ends of pipes and the files that the command says; no end of a pipe is left
    open in a program that it is not for, which would keep its reader from
    seeing the end of the input. *)
Theorem shell_plumbing c x n :
  cmd_ok c -> runcmd c (std x) n = ((fun p => (p.1, std p.2)) <$> (plumb c x n).1, (plumb c x n).2).
Proof.
  revert x n. induction c as [argv|c IH file ef mode fd|l IHl r IHr|l IHl r IHr|c IH]; intros [[i o] e] n; cbn [runcmd plumb cmd_ok].
  - by destruct argv.
  - intros [[->| ->]%redir_std Hr]; rewrite ?open_std0, ?open_std1; destruct (opens file mode); try done; by apply IH.
  - intros [Hl Hr]. rewrite pipe_std, pipe_left, pipe_right, IHl by done. cbn [fst snd].
    destruct (plumb l _ _) as [o1 m1]. cbn [fst snd]. rewrite IHr by done. destruct (plumb r _ _) as [o2 m2]. cbn. by rewrite fmap_app.
  - intros [Hl Hr]. rewrite IHl by done. destruct (plumb l _ _) as [o1 m1]. cbn [fst snd]. rewrite IHr by done.
    destruct (plumb r _ _) as [o2 m2]. cbn. by rewrite fmap_app.
  - apply IH.
Qed.
End Run.

(** ls -l>out | (wc;cat <a b)& *)
Lemma shell_plumbing_witness :
  runcmd (fun _ _ => true) ShDemo.parsed (std (OGiven 0, OGiven 1, OGiven 2)) 0 =
    ([([(0, 2); (3, 5)], std (OGiven 0, OFile 6 1537, OGiven 2));
      ([(13, 15)], std (OPipeR 0, OGiven 1, OGiven 2));
      ([(16, 19); (23, 24)], std (OFile 21 0, OGiven 1, OGiven 2))], 1).
Proof.
  rewrite (shell_plumbing (fun _ _ => true) ShDemo.parsed (OGiven 0, OGiven 1, OGiven 2) 0); [reflexivity|].
  unfold ShDemo.parsed. cbn [cmd_ok]. repeat split; unfold redir_modes; [right; left|left].
Defined.
