(* ===== verification/ShMain.v ===== *)
(** The loop of the shell: getcmd(), fork1() and main() of user/sh.c.

    The buffer of 100 bytes is at address 0 of the memory [m]; the input is the list of bytes
    read() will deliver.  What the shell does is a list of events: prompts, calls of
    chdir(), and the lines that a child parses and runs ([Sh] and [ShRun]).
    [chdir_ok] and [fork_ok] say which of these system calls succeed. *)

From S2P Require Import Prelude Riscv CString Ulib Sh ShRun.

Definition O_RDWR : Z := 0x002.

(** * Three open files *)

Section Console.
Context (opens : Z -> Z -> bool) (console : Z).

(** The first loop of main(); [fuel] bounds its iterations. *)
Fixpoint open_console (fuel : nat) (t : ftable) : option ftable :=
  match fuel with
  | O => None
  | S f =>
      (* open("console", O_RDWR) and the descriptor it returns *)
      match fdalloc t, sys_open opens console O_RDWR t with
      | Some fd, Some t =>
          if fd >=? 3 then Some (sys_close fd t)
          else open_console f t
      | _, _ => Some t
      end
  end.
End Console.

(** * Reading and running commands *)

Inductive event : Type :=
| Prompt
| Chdir (path : list Z)
| CannotCd (path : list Z)
| Run (line : list Z)
| PanicFork.

(** The C string at [p]; [k] bounds its length. *)
Fixpoint cstr (k : nat) (m : mem) (p : Z) : list Z :=
  match k with
  | O => []
  | S k => if m p =? 0 then [] else m p :: cstr k m (p + 1)
  end.

Definition nbuf : Z := 100.
Definition buf_str (m : mem) (p : Z) : list Z := cstr (Z.to_nat (nbuf - p)) m p.

Definition getcmd (m : mem) (input : list Z) : Z * mem * list Z :=
  let m := U.memset 0 0 nbuf m in
  let '(m, input) := U.gets 0 nbuf m input in
  if m 0 =? 0 then (-1, m, input)                            (* EOF *)
  else (0, m, input).

Section Main.
Context (chdir_ok : list Z -> bool) (fork_ok : nat -> bool).

(** The second loop of main(); [n] counts the calls of fork(). *)
Fixpoint main_loop (fuel n : nat) (m : mem) (input : list Z) : option (list event) :=
  match fuel with
  | O => None
  | S f =>
      let '(r, m, input) := getcmd m input in
      if r <? 0 then Some [Prompt]                           (* exit(0) *)
      else if (m 0 =? 99) && (m 1 =? 100) && (m 2 =? 32) then
        match U.strlen (Z.to_nat nbuf) m with
        | None => None
        | Some len =>
            let m := mupd m (len - 1) 0 in                   (* chop \n *)
            let path := buf_str m 3 in
            option_map (fun ev => Prompt :: Chdir path :: (if chdir_ok path then [] else [CannotCd path]) ++ ev)
              (main_loop f n m input)
        end
      else if fork_ok n then
        (* the child runs parsecmd(buf); wait(0) *)
        option_map (fun ev => Prompt :: Run (buf_str m 0) :: ev) (main_loop f (S n) m input)
      else Some [Prompt; PanicFork]                          (* exit(1) *)
  end.
End Main.

(** * Proofs *)

Lemma fdalloc_free t i :
  fdalloc t = Some i -> 0 <= i < NOFILE /\ t !! i = None /\ forall j, 0 <= j < i -> t !! j <> None.
Proof.
  unfold fdalloc. generalize NOFILE. intros n H.
  cut (forall k a, head (filter (fun i => t !! i = None) (seqZ a (Z.of_nat k))) = Some i ->
    a <= i < a + Z.of_nat k /\ t !! i = None /\ forall j, a <= j < i -> t !! j <> None).
  { intros Hc. destruct (decide (0 <= n)); [|by rewrite seqZ_nil in H by lia].
    specialize (Hc (Z.to_nat n) 0). rewrite Z2Nat.id in Hc by lia. by apply Hc. }
  clear H. induction k as [|k IH]; intros a Hh; [done|]. rewrite Nat2Z.inj_succ, seqZ_cons in Hh by lia.
  rewrite filter_cons in Hh. replace (Z.pred (Z.succ (Z.of_nat k))) with (Z.of_nat k) in Hh by lia.
  case_decide as Ha.
  - injection Hh as ->. split; [lia|]. split; [done|]. lia.
  - apply IH in Hh as (H1 & H2 & H3). split; [lia|]. split; [done|]. intros j Hj.
    destruct (decide (j = a)) as [->|]; [done|]. apply H3. lia.
Qed.

Lemma fdalloc_full t : fdalloc t = None -> forall j, 0 <= j < NOFILE -> t !! j <> None.
Proof.
  unfold fdalloc. intros H j Hj Hn.
  assert (Hin : j ∈ filter (fun i => t !! i = None) (seqZ 0 NOFILE)).
  { apply list_elem_of_filter. split; [done|]. apply elem_of_seqZ. lia. }
  destruct (filter _ _) as [|x l]; [by apply elem_of_nil in Hin|done].
Qed.

(** Bytes [l] written at [p]. *)
Fixpoint putl (m : mem) (p : Z) (l : list Z) : mem :=
  match l with
  | [] => m
  | c :: l => putl (mupd m p c) (p + 1) l
  end.

Lemma putl_out m p l x : x < p \/ p + Z.of_nat (length l) <= x -> putl m p l x = m x.
Proof.
  revert m p. induction l as [|c l IH]; intros m p Hx; [done|]. cbn [putl length] in *.
  rewrite IH by lia. unfold mupd. destruct (Z.eqb_spec x p); [lia|done].
Qed.
Lemma putl_in m p l i c : l !! i = Some c -> putl m p l (p + Z.of_nat i) = c.
Proof.
  revert m p i. induction l as [|d l IH]; intros m p i Hi; [done|]. cbn [putl].
  destruct i as [|i].
  - injection Hi as ->. rewrite putl_out by lia. rewrite Z.add_0_r. apply mupd_eq.
  - replace (p + Z.of_nat (S i)) with (p + 1 + Z.of_nat i) by lia. by apply IH.
Qed.

Lemma cstr_spec k m p l :
  (forall i c, l !! i = Some c -> m (p + Z.of_nat i) = c /\ c <> 0) -> m (p + Z.of_nat (length l)) = 0 ->
  (length l < k)%nat -> cstr k m p = l.
Proof.
  revert k p. induction l as [|c l IH]; intros k p Hl H0 Hk; (destruct k as [|k]; [lia|]); cbn [cstr length] in *.
  - rewrite Z.add_0_r in H0. by rewrite H0.
  - destruct (Hl 0%nat c eq_refl) as [H1 H2]. rewrite Z.add_0_r in H1. rewrite H1.
    destruct (Z.eqb_spec c 0); [done|]. f_equal. apply IH; [| |lia].
    + intros i d Hi. specialize (Hl (S i) d Hi). by replace (p + 1 + Z.of_nat i) with (p + Z.of_nat (S i)) by lia.
    + by replace (p + 1 + Z.of_nat (length l)) with (p + Z.of_nat (S (length l))) by lia.
Qed.

Lemma strlen_spec k m n l :
  (forall i c, l !! i = Some c -> m (n + Z.of_nat i) = c /\ c <> 0) -> m (n + Z.of_nat (length l)) = 0 ->
  (length l < k)%nat -> U.strlen_loop k m n = Some (n + Z.of_nat (length l)).
Proof.
  revert k n. induction l as [|c l IH]; intros k n Hl H0 Hk; (destruct k as [|k]; [lia|]); cbn [U.strlen_loop length] in *.
  - rewrite Z.add_0_r in *. by rewrite H0.
  - destruct (Hl 0%nat c eq_refl) as [H1 H2]. rewrite Z.add_0_r in H1. rewrite H1.
    destruct (Z.eqb_spec c 0); [done|]. cbn [negb]. rewrite IH; [f_equal; lia| | |lia].
    + intros i d Hi. specialize (Hl (S i) d Hi). by replace (n + 1 + Z.of_nat i) with (n + Z.of_nat (S i)) by lia.
    + by replace (n + 1 + Z.of_nat (length l)) with (n + Z.of_nat (S (length l))) by lia.
Qed.

(** A byte of a line. *)
Definition plain (c : Z) : Prop := c <> 0 /\ c <> 10 /\ c <> 13.

Lemma gets_loop_line k buf i m l rest :
  Forall plain l -> (length l < k)%nat ->
  U.gets_loop k buf i m (l ++ 10 :: rest) =
  (i + Z.of_nat (length l) + 1, putl m (buf + i) (l ++ [10]), rest).
Proof.
  revert k i m. induction l as [|c l IH]; intros k i m Hl Hk; (destruct k as [|k]; [lia|]); cbn [length] in *.
  - cbn. f_equal. f_equal. lia.
  - apply Forall_cons in Hl as [(H0 & H1 & H2) Hl]. cbn [U.gets_loop app].
    destruct (Z.eqb_spec c 10); [done|]. destruct (Z.eqb_spec c 13); [done|]. cbn [orb].
    rewrite IH by (done || lia). cbn [putl]. rewrite Z.add_assoc. f_equal. f_equal. lia.
Qed.

(** The line getcmd() has read, NUL-terminated. *)
Definition holds_line (m : mem) (l : list Z) : Prop :=
  (forall i c, l !! i = Some c -> m (Z.of_nat i) = c) /\ m (Z.of_nat (length l)) = 0.

Lemma getcmd_line m l rest :
  Forall plain l -> Z.of_nat (length l) <= 98 ->
  exists m', getcmd m (l ++ 10 :: rest) = (0, m', rest) /\ holds_line m' (l ++ [10]).
Proof.
  intros Hl Hlen. unfold getcmd, U.gets. rewrite gets_loop_line by (done || (unfold nbuf; lia)).
  set (m0 := U.memset 0 0 nbuf m). set (m1 := mupd (putl m0 (0 + 0) (l ++ [10])) _ 0).
  assert (Hh : holds_line m1 (l ++ [10])).
  { split.
    - intros i c Hi. pose proof (lookup_lt_Some _ _ _ Hi) as Hlt. rewrite length_app in Hlt. cbn in Hlt.
      unfold m1, mupd. destruct (Z.eqb_spec (Z.of_nat i) (0 + (0 + Z.of_nat (length l) + 1))); [lia|].
      apply (putl_in m0 (0 + 0) (l ++ [10]) i c Hi).
    - rewrite length_app. cbn [length]. unfold m1, mupd.
      destruct (Z.eqb_spec (Z.of_nat (length l + 1)) (0 + (0 + Z.of_nat (length l) + 1))); [done|lia]. }
  exists m1. split; [|done].
  assert (Hne : m1 0 <> 0).
  { destruct Hh as [Hh _]. change (m1 0) with (m1 (Z.of_nat 0)). destruct l as [|c l].
    - by rewrite (Hh 0%nat 10 eq_refl).
    - apply Forall_cons in Hl as [[H0 _] _]. by rewrite (Hh 0%nat c eq_refl). }
  destruct (Z.eqb_spec (m1 0) 0); [done|]. done.
Qed.

Lemma getcmd_eof m : exists m', getcmd m [] = (-1, m', []).
Proof. by eexists. Qed.

Lemma holds_line_cstr m l :
  Forall (fun c => c <> 0) l -> Z.of_nat (length l) < nbuf -> holds_line m l -> buf_str m 0 = l.
Proof.
  intros Hz Hlen [Hi H0]. unfold buf_str. apply cstr_spec; [| |unfold nbuf in *; lia].
  - intros i c Hc. rewrite Z.add_0_l. split; [by apply Hi|]. by apply (Forall_lookup_1 _ _ _ _ Hz Hc).
  - by rewrite Z.add_0_l.
Qed.

(** cd: the newline is chopped and the path is the rest of the line. *)
Lemma chop_path m l :
  Forall plain l -> Z.of_nat (length l) <= 98 -> (3 <= length l)%nat -> holds_line m (l ++ [10]) ->
  U.strlen (Z.to_nat nbuf) m = Some (Z.of_nat (length l) + 1) /\
  buf_str (mupd m (Z.of_nat (length l)) 0) 3 = drop 3 l.
Proof.
  intros Hp Hlen H3 [Hi H0]. rewrite length_app in H0. cbn [length] in H0. split.
  - unfold U.strlen. rewrite (strlen_spec _ _ 0 (l ++ [10])).
    + rewrite length_app. cbn. f_equal. lia.
    + intros i c Hc. rewrite Z.add_0_l. split; [by apply Hi|].
      assert (Hz : Forall (fun c => c <> 0) (l ++ [10])).
      { apply Forall_app. split; [|by repeat constructor]. eapply Forall_impl; [exact Hp|]. by intros ? []. }
      by apply (Forall_lookup_1 _ _ _ _ Hz Hc).
    + rewrite Z.add_0_l, length_app. exact H0.
    + rewrite length_app. cbn. unfold nbuf. lia.
  - unfold buf_str. apply cstr_spec.
    + intros i c Hc. rewrite lookup_drop in Hc. pose proof (lookup_lt_Some _ _ _ Hc).
      unfold mupd. destruct (Z.eqb_spec (3 + Z.of_nat i) (Z.of_nat (length l))); [lia|].
      replace (3 + Z.of_nat i) with (Z.of_nat (3 + i)) by lia. split.
      * apply Hi. by rewrite lookup_app_l.
      * by apply (Forall_lookup_1 _ _ _ _ Hp Hc).
    + rewrite length_drop. unfold mupd.
      destruct (Z.eqb_spec (3 + Z.of_nat (length l - 3)) (Z.of_nat (length l))); [done|lia].
    + rewrite length_drop. unfold nbuf. lia.
Qed.

(** * What the loop does with a line *)

Definition cd_line (l : list Z) : bool := bool_decide (take 3 l = [99; 100; 32]).

Definition line_events (chdir_ok : list Z -> bool) (l : list Z) : list event :=
  Prompt ::
  (if cd_line l then Chdir (drop 3 l) :: (if chdir_ok (drop 3 l) then [] else [CannotCd (drop 3 l)])
   else [Run (l ++ [10])]).

Lemma cd_test m l :
  Forall plain l -> holds_line m (l ++ [10]) -> (m 0 =? 99) && (m 1 =? 100) && (m 2 =? 32) = cd_line l.
Proof.
  intros Hp [Hi H0]. unfold cd_line.
  assert (Hm : forall i c, (l ++ [10]) !! i = Some c -> m (Z.of_nat i) = c) by done.
  change (m 0) with (m (Z.of_nat 0)). change (m 1) with (m (Z.of_nat 1)). change (m 2) with (m (Z.of_nat 2)).
  destruct l as [|a [|b [|c l]]].
  - rewrite (Hm 0%nat 10 eq_refl). done.
  - rewrite (Hm 0%nat a eq_refl), (Hm 1%nat 10 eq_refl). change (10 =? 100) with false.
    rewrite andb_false_r. symmetry. by apply bool_decide_eq_false_2.
  - rewrite (Hm 0%nat a eq_refl), (Hm 1%nat b eq_refl), (Hm 2%nat 10 eq_refl). change (10 =? 32) with false.
    rewrite andb_false_r. symmetry. by apply bool_decide_eq_false_2.
  - rewrite (Hm 0%nat a eq_refl), (Hm 1%nat b eq_refl), (Hm 2%nat c eq_refl). cbn [take].
    destruct (Z.eqb_spec a 99), (Z.eqb_spec b 100), (Z.eqb_spec c 32); cbn;
      symmetry; (apply bool_decide_eq_true_2 || apply bool_decide_eq_false_2); naive_solver.
Qed.

Lemma cd_line_length l : cd_line l = true -> (3 <= length l)%nat.
Proof. intros H%bool_decide_eq_true. destruct l as [|? [|? [|? ?]]]; try done; cbn; lia. Qed.

Lemma main_loop_spec chdir_ok fork_ok ls :
  Forall (Forall plain) ls -> Forall (fun l => Z.of_nat (length l) <= 98) ls -> (forall n, fork_ok n = true) ->
  forall n m, main_loop chdir_ok fork_ok (S (length ls)) n m (concat (map (fun l => l ++ [10]) ls)) =
    Some (concat (map (line_events chdir_ok) ls) ++ [Prompt]).
Proof.
  intros Hp Hlen Hf. induction ls as [|l ls IH]; intros n m; [done|].
  apply Forall_cons in Hp as [Hp Hps]. apply Forall_cons in Hlen as [Hl Hls].
  specialize (IH Hps Hls). remember (S (length ls)) as f eqn:Ef.
  change (length (l :: ls)) with (S (length ls)). rewrite <- Ef. cbn [map concat main_loop].
  rewrite <- app_assoc. cbn [app].
  destruct (getcmd_line m l (concat (map (fun l => l ++ [10]) ls)) Hp Hl) as (m' & -> & Hh). cbn [Z.ltb Z.compare].
  rewrite (cd_test m' l Hp Hh). unfold line_events at 1. destruct (cd_line l) eqn:Ec.
  - destruct (chop_path m' l Hp Hl (cd_line_length l Ec) Hh) as [-> Hpath].
    replace (Z.of_nat (length l) + 1 - 1) with (Z.of_nat (length l)) by lia. rewrite Hpath, IH. cbn.
    by rewrite <- app_assoc.
  - rewrite Hf, IH. cbn. rewrite (holds_line_cstr m' (l ++ [10])); [done| | |done].
    + apply Forall_app. split; [|by repeat constructor]. eapply Forall_impl; [exact Hp|]. by intros ? [].
    + rewrite length_app. cbn. unfold nbuf. lia.
Qed.

Lemma ftable_insert (t : ftable) i j f : (<[i := f]> t : ftable) !! j = if decide (i = j) then Some f else t !! j.
Proof. exact (lookup_insert (M := gmap Z) t i j f). Qed.

Lemma open_console_spec opens console :
  opens console O_RDWR = true ->
  forall fuel k t, 0 <= k <= 3 -> 4 <= k + Z.of_nat fuel -> (forall j, 0 <= j < k -> t !! j <> None) ->
  exists t', open_console opens console fuel t = Some t' /\ (forall j, 0 <= j < 3 -> t' !! j <> None) /\
    (forall j, t !! j <> None \/ 3 <= j -> t' !! j = t !! j).
Proof.
  intros Ho. induction fuel as [|f IH]; intros k t Hk Hf Hfull; [lia|]. cbn [open_console]. unfold sys_open. rewrite Ho.
  destruct (fdalloc t) as [fd|] eqn:Ea.
  - destruct (fdalloc_free t fd Ea) as (Hr & Hn & Hlow). rewrite Z.geb_leb. destruct (Z.leb_spec 3 fd).
    + exists t. split; [f_equal; by apply delete_insert_id|]. split; [intros j Hj; apply Hlow; lia|done].
    + assert (Hkf : k <= fd) by (destruct (decide (k <= fd)); [done|]; exfalso; apply (Hfull fd); [lia|done]).
      destruct (IH (fd + 1) (<[fd := OFile console O_RDWR]> t)) as (t' & E & H1 & H2); [lia|lia| |].
      { intros j Hj. rewrite ftable_insert. case_decide; [done|]. apply Hlow. lia. }
      exists t'. split; [done|]. split; [done|]. intros j Hj.
      assert (Hne : j <> fd) by (destruct Hj; [congruence|lia]).
      rewrite H2; rewrite ftable_insert, decide_False by done; done.
  - exists t. split; [done|]. split; [|done]. intros j Hj. apply (fdalloc_full t Ea). unfold NOFILE. lia.
Qed.


